(* ===== verification/_CoqProject ===== *)
-Q . S2P
Prelude.v
Ring.v
Bits.v
Buddy.v
Frames.v
Slab.v
SlabInv.v
SlabProps.v
Vma.v
Paging.v
PagingInv.v
Unmap.v
PagingProps.v
PagingDemo.v
HrTimer.v
Channel.v
Process.v
Signal.v
Waiters.v
Scheduler.v
SchedulerInv.v
ProcessCtl.v
Pipe.v
Bytes.v
FsTypes.v
Path.v
Vfs.v
RamFs.v
RamFsInv.v
VfsProps.v
VfsDemo.v
Ext2Format.v
Ext2Volume.v
Ext2Inv.v
Ext2Files.v
Ext2Walk.v
Ext2Dir.v
Ext2Repair.v
FdTable.v
SysFs.v
SysProps.v
Ext2DirInv.v
Ext2RepairInv.v
Ext2Fs.v
Ext2Adapter.v
Ext2Image.v
Ext2Props.v
Ext2Demo.v
Ext2RepairProps.v
HalClock.v
EventQueue.v
HalKeyboard.v
HalMouse.v
HalTty.v
HalProps.v
Elf.v
ElfLoader.v
ElfStack.v
ElfInv.v
ElfProps.v
Net.v
Poll.v
Sockets.v
SocketInv.v
SocketProps.v
SocketDemo.v
HalAcpi.v
AcpiProps.v
Framebuffer.v
FbConsole.v
FbProps.v
FbDemo.v
