(* ===== verification/Prelude.v ===== *)
(** * ConstanOS: a verification library

    ConstanOS is a small Unix-like kernel for x86-64 in Rust, with the library
    crates [ext2] (a file system without allocation, over a block-device
    trait) and [hal] (device drivers over a port-I/O trait).  This library
    translates its core into executable definitions and proves what each part
    promises.

    ** The program and where it is modelled

    Memory.  [Buddy] is the allocator of physical frames
    ([kernel/src/allocator/buddy_allocator.rs]) with its free lists threaded
    through the free blocks and its bitmap ([Bits]).  [Frames] is what it
    promises to its clients ([phys_alloc], [phys_free]), a class of which it is
    the instance.  [Slab] is the kernel's heap on top of it, size classes and
    whole frames ([allocator/slab.rs]), with its invariant [SlabInv] and its
    properties [SlabProps].  [Vma] is the list of areas of a process ([memory/vma.rs]).
    [Paging] holds reference counts, page mapping, copy-on-write, demand
    paging, [fork], [mmap], [munmap] and the page fault handler
    ([memory/cow.rs], [page_table_manager.rs], [address_space.rs],
    [demand_paging.rs], [init/devices.rs]), proved against [Frames] and against
    [Mapper], the page-table walker of the [x86_64] crate; [PagingInv],
    [Unmap], [PagingProps] and [PagingDemo] are its invariant, properties and
    runs.  [Elf] parses executables ([memory/elf.rs]); [ElfLoader] puts one in
    a new address space with its initial stack and the signal trampoline
    ([memory/elf_loader.rs], [signal_trampoline.rs]); [ElfStack], [ElfInv] and
    [ElfProps] are its theory.

    Processes.  [Process] is the process record with trap frames
    ([process/mod.rs], [trapframe.rs]), [Signal] signal delivery
    ([process/signal.rs], [syscall/signal.rs]), [Scheduler] the run queues,
    context switches, blocking and waking ([process/scheduler.rs]), [Waiters]
    the tables of processes blocked in [poll], [epoll_wait] and [futex]
    ([syscall/poll.rs], [syscall/sync.rs]) and [HrTimer] the timer queue
    ([time/hrtimer.rs]).  [ProcessCtl] composes them into the process-control
    system calls and the timer interrupt ([syscall/process_ctl.rs],
    [timer_preempt.rs]) as steps of a [World].  [SchedulerInv] is the
    invariant.

    Communication.  [Pipe] is the pipe with its hand-over to a blocked peer
    ([process/pipe.rs]), [Channel] the message rings and the channel table
    ([ipc/channel.rs]); [Ring] is the queue both rings represent.
    [Net] is the state sockets and poll share with the rest of the kernel: the
    channel table, the map from descriptors to channels, the registered
    receiver and accepter, epoll instances and physical memory behind user
    pages.  [Sockets] is the socket calls and handles ([syscall/ipc.rs]),
    [Poll] readiness, the wake-up hooks, [poll] and the epoll calls
    ([syscall/poll.rs]); [SocketInv], [SocketProps] and [SocketDemo] are their
    invariant, properties and runs.

    Files.  [FsTypes] has error numbers, [stat] and [linux_dirent64] records
    ([fs/types.rs], [process/file.rs]), [Path] path strings and [Vfs] the
    [Inode] and [FileHandle] traits as classes, the mount table and resolution
    ([fs/vfs.rs]).  [RamFs] is the file system in memory ([fs/ramfs.rs]), an
    instance of those classes whose laws [RamFsInv] proves.  [FdTable] is the
    descriptor table ([process/file.rs]) and [SysFs] the system calls on paths
    and descriptors ([syscall/fs.rs]).  [VfsProps], [VfsDemo] and [SysProps]
    hold the properties.

    The disk.  [Ext2Format] is the on-disk formats, [Ext2Volume] allocation,
    inodes and file data over the block-device trait, [Ext2Dir] directories and
    links, [Ext2Repair] the mount-time repair (the [ext2] crate); [Ext2Fs] is
    the kernel's adapter ([kernel/src/fs/ext2.rs]).  [Ext2Inv], [Ext2Files],
    [Ext2Walk], [Ext2DirInv], [Ext2RepairInv] and [Ext2Adapter] are their
    theory, [Ext2Image] the crate's test images, on which the witnesses run,
    [Ext2Props], [Ext2RepairProps] and [Ext2Demo] the properties.

    Devices.  [HalClock] is the real-time clock and the interval timer,
    [HalKeyboard] and [HalMouse] the decoders and the controller's set-up
    ([hal/src/]), [EventQueue] the lock-free queues between an interrupt
    handler and a reader ([keyboard_buffer.rs], [mouse.rs]), [HalTty] the
    terminal's signal characters and the keyboard handler ([tty.rs],
    [keyboard.rs]); [HalProps] has the properties.  [HalAcpi] parses the
    firmware's tables ([hal/src/acpi.rs]), over physical memory as a function;
    [AcpiProps] has its properties.  [Framebuffer] draws pixels, rectangles and
    glyphs, [FbConsole] interprets text and escape sequences
    ([framebuffer.rs], [drivers/framebuffer_console.rs]) against a class of
    displays with two instances, the pixels and a grid of characters;
    [FbProps] and [FbDemo] relate them.

    This file holds what they share: the panic monad, machine integers,
    little-endian words, byte-addressed memory and list lemmas.  [Bytes] holds
    byte buffers.

    ** How code becomes definitions

    A function of the source is a definition of the same name; a loop is a
    fixpoint next to it.  State is passed explicitly; an object that is shared
    ([Arc], a process's address space, a handle's offset) is an index into a
    store, so that aliasing is visible.  Errors are values ([sum], [option] or
    the error of the monad), and effects made before an error remain.  Integers
    are [Z] with their width: an operation that overflows is [Panic], as in the
    profile with overflow checks, unless the source wraps or saturates, which
    is then written out.  Indexing out of range, [unwrap] of nothing, a failed
    assertion and a halted processor are [Panic] too.  Log lines and counters
    are left out.  Locks are not represented: each operation runs whole, with
    the exception of [EventQueue], whose two sides interleave at every load and
    store.

    Code that is not in the repository is a parameter: the page-table walker
    ([Mapper]), block devices and port spaces are classes with the laws the
    code relies on, each with a concrete instance; the font's bitmaps are an
    argument.

    ** What is proved

    Memory: held and free memory are together what was handed in and blocks
    never overlap; allocation and freeing do exactly what they say; objects of
    the heap never overlap each other or a free one; whatever
    other processes do, the memory a process sees does not change; [fork]
    copies; a page fault is resolved or kills the process and never stops the
    kernel; a program is loaded byte for byte, and its start-up code reads back
    its arguments.
    Processes: the scheduler's containers stay well formed in every reachable
    state; a switch saves and restores whole contexts; the loop that returns to
    user mode ends; signal handlers return to the interrupted state; [waitpid]
    and a child's death meet.
    Communication: pipes and channels are queues.
    Messages on sockets arrive once, unchanged and in order under
    any interleaving of calls; a process blocked in [recvmsg] or [poll] is made
    ready by the next message; [connect] and [accept] link two channels; an
    error of [sendmsg] changes nothing and [poll] reports exactly what is ready.
    Files: resolution takes the longest mount and follows lookups; the tree in
    memory stays a tree; reads return what was written; [rename], [mkdir],
    [open], [chdir] and [getdents64] do exactly what they say.
    Disk: writing, truncating, adding and removing entries change exactly the
    bytes, blocks and entries they name and keep bitmaps, counts and pointers
    consistent; repair frees exactly what the root does not reach.
    Devices: no event is lost, duplicated or reordered; decoders invert the
    encodings and never panic; the parser reads back an encoded set of tables;
    the pixels of the console show the grid of characters that its text
    describes.
    Where the code falls short, a theorem shows the failing run
    ([PagingDemo], [VfsDemo], [SysProps], [Ext2Demo], [ElfProps], [SocketDemo],
    [SlabProps], [AcpiProps], [FbDemo] and others).

    ** Bounds

    Loops that are not structural take fuel, and running out is a value of its
    own that the theorems exclude: the signal loop ([resolve_signals]) gets
    a round for each process, a directory scan the length of its block (records
    have at least 8 bytes), the iterator of program headers the count in the
    header.  Bounds of the source are kept: 4096 nodes scanned in a free list,
    8 symbolic links, 64 levels of directories in the repair, 1000 attempts to
    read the clock, 16 descriptors, 32 waiter slots, 16 messages in a channel.

    ** Not modelled

    The file systems that render kernel state or embedded files ([fs/procfs.rs],
    [initramfs.rs], [devfs.rs]), instances of the classes of [Vfs]; device I/O
    (serial line, sound, the ATA ports behind the block-device trait); boot and the processor's tables, which run once;
    teardown of page tables and the kernel's own entries in them; user-space
    programs and build scripts. *)

From Stdlib Require Import ZArith Lia.
From stdpp Require Import base gmap list numbers.

Local Open Scope Z_scope.

(** ** Outcomes of Rust code *)

(** What one call of a Rust function can do: return [Ok], return an error
    value, or panic (index out of bounds, arithmetic overflow in the dev
    profile, failed [assert!]/[unwrap]). *)
Inductive outcome (E A : Type) : Type :=
| Ok (a : A)
| Err (e : E)
| Panic.
Global Arguments Ok {E A} a.
Global Arguments Err {E A} e.
Global Arguments Panic {E A}.

#[global] Instance outcome_ret {E} : MRet (outcome E) := fun A a => Ok a.
#[global] Instance outcome_bind {E} : MBind (outcome E) := fun A B f m =>
  match m with
  | Ok a => f a
  | Err e => Err e
  | Panic => Panic
  end.

(** Code that returns a plain value or panics. *)
Abbreviation may_panic := (outcome Empty_set).

(** [x[i]] and [opt.unwrap()]: [None] is a panic. *)
Definition unwrap {E A} (o : option A) : outcome E A :=
  match o with Some a => Ok a | None => Panic end.

(** [for x in l { .. }] over a body that may panic. *)
Fixpoint for_each {S I} (f : I -> S -> may_panic S) (l : list I) (s : S) : may_panic S :=
  match l with
  | [] => Ok s
  | x :: l' => s1 ← f x s; for_each f l' s1
  end.

(** ** Automation *)

Create Rewrite HintDb len.
#[export] Hint Rewrite @length_app @length_take @length_drop @length_fmap @length_seq
  @length_insert @length_replicate @length_cons @length_nil : len.

(** Lengths of list expressions, then linear arithmetic. *)
Ltac len_lia := autorewrite with len in *; cbn [length] in *; lia.

(** Case split on the boolean comparisons of the source. *)
Ltac case_bools :=
  repeat match goal with
  | |- context [Z.leb ?a ?b] => destruct (Z.leb_spec a b)
  | |- context [Z.ltb ?a ?b] => destruct (Z.ltb_spec a b)
  | |- context [Z.eqb ?a ?b] => destruct (Z.eqb_spec a b)
  | |- context [Nat.leb ?a ?b] => destruct (Nat.leb_spec a b)
  | |- context [Nat.ltb ?a ?b] => destruct (Nat.ltb_spec a b)
  | |- context [Nat.eqb ?a ?b] => destruct (Nat.eqb_spec a b)
  end.

(** ** Machine integers *)

(** Rust's fixed-width unsigned integers are [Z] kept in range; the wrapping
    operations of the source are written out with [wrap]. *)
Definition wrap (w z : Z) : Z := z mod 2 ^ w.
Definition in_width (w z : Z) : Prop := 0 <= z < 2 ^ w.
Definition in_widthb (w z : Z) : bool := (0 <=? z) && (z <? 2 ^ w).

(** [VirtAddr::new] of the [x86_64] crate: bits 48 to 63 repeat bit 47. *)
Definition canonical (x : Z) : bool := (x <? 2 ^ 47) || (2 ^ 64 - 2 ^ 47 <=? x).
Definition virt_addr {E} (x : Z) : outcome E Z := if canonical x then Ok x else Panic.

(** [x & !(2^k - 1)]: clearing the low [k] bits. *)
Definition align_down (k z : Z) : Z := Z.ldiff z (Z.ones k).

Lemma align_down_eq k z : 0 <= k -> align_down k z = 2 ^ k * (z / 2 ^ k).
Proof.
  intros Hk. unfold align_down. rewrite Z.ldiff_ones_r, Z.shiftl_mul_pow2, Z.shiftr_div_pow2 by lia.
  lia.
Qed.

Lemma align_down_bounds k z : 0 <= k -> align_down k z <= z < align_down k z + 2 ^ k.
Proof.
  intros Hk. rewrite align_down_eq by done.
  pose proof (Z.pow_pos_nonneg 2 k ltac:(lia) Hk).
  pose proof (Z.div_mod z (2 ^ k) ltac:(lia)). pose proof (Z.mod_pos_bound z (2 ^ k) ltac:(lia)). lia.
Qed.

Lemma align_down_mod k z : 0 <= k -> align_down k z mod 2 ^ k = 0.
Proof. intros Hk. rewrite align_down_eq, Z.mul_comm, Z.mod_mul by lia. done. Qed.

(** ** Vectors and slices *)

Section vectors.
Context {A : Type}.
Implicit Types (p : A -> bool) (l : list A).

(** [slice::partition_point]: the length of the prefix on which [p] holds (the
    standard library's answer on a slice partitioned by [p]). *)
Fixpoint partition_point p l : nat :=
  match l with
  | [] => 0%nat
  | x :: l' => if p x then S (partition_point p l') else 0%nat
  end.

(** [Iterator::position]. *)
Fixpoint position p l : option nat :=
  match l with
  | [] => None
  | x :: l' => if p x then Some 0%nat else S <$> position p l'
  end.

(** [Vec::insert]. *)
Definition vec_insert (i : nat) (x : A) l : list A := take i l ++ x :: drop i l.

(** [&l[a..b]]; out of range (or [b < a]) is a Rust panic. *)
Definition slice (a b : nat) l : option (list A) :=
  if decide (a <= b <= length l)%nat then Some (take (b - a) (drop a l)) else None.

(** [l[a..a + src.len()].copy_from_slice(src)], in range. *)
Definition splice (a : nat) (src l : list A) : list A :=
  take a l ++ src ++ drop (a + length src) l.

Lemma position_Some p l i :
  position p l = Some i ->
  exists x, l !! i = Some x /\ p x = true /\
    forall j y, (j < i)%nat -> l !! j = Some y -> p y = false.
Proof.
  revert i; induction l as [|x l IH]; intros i; simpl; [done|].
  destruct (p x) eqn:Hp.
  - intros [= <-]. exists x. split_and!; [done..|]. intros; lia.
  - destruct (position p l) as [k|] eqn:Hk; simpl; [|done].
    intros [= <-]. destruct (IH k eq_refl) as (y & Hy & Hpy & Hbefore).
    exists y. split_and!; [done..|].
    intros [|j] z Hj Hz; simpl in Hz; [congruence|]. apply (Hbefore j); [lia|done].
Qed.

Lemma position_None p l :
  position p l = None <-> Forall (fun x => p x = false) l.
Proof.
  induction l as [|x l IH]; simpl; [by split|].
  destruct (p x) eqn:Hp.
  - split; [done|]. intros H; inversion H; congruence.
  - rewrite fmap_None, IH, list.Forall_cons. tauto.
Qed.

Lemma position_app_r p l k :
  Forall (fun x => p x = false) l -> position p (l ++ k) = Nat.add (length l) <$> position p k.
Proof.
  induction 1 as [|x l Hx _ IH]; simpl; [by destruct (position p k)|].
  rewrite Hx, IH. by destruct (position p k).
Qed.

Lemma partition_point_take p l :
  Forall (fun x => p x = true) (take (partition_point p l) l).
Proof.
  induction l as [|x l IH]; simpl; [done|].
  destruct (p x) eqn:Hp; simpl; constructor; auto.
Qed.

Lemma partition_point_drop p l x l' :
  drop (partition_point p l) l = x :: l' -> p x = false.
Proof.
  induction l as [|y l IH]; simpl; [done|].
  destruct (p y) eqn:Hp; simpl; [auto|]. by intros [= -> ->].
Qed.

Lemma filter_all_false (P : A -> Prop) `{!forall x, Decision (P x)} l :
  Forall (fun x => ~ P x) l -> filter P l = [].
Proof.
  induction 1 as [|x l Hx _ IH]; [done|]. rewrite filter_cons.
  by destruct (decide (P x)).
Qed.

Lemma filter_all_true (P : A -> Prop) `{!forall x, Decision (P x)} l :
  Forall P l -> filter P l = l.
Proof.
  induction 1 as [|x l Hx _ IH]; [done|]. rewrite filter_cons.
  destruct (decide (P x)); [by f_equal|done].
Qed.

Lemma vec_insert_perm i x l : vec_insert i x l ≡ₚ x :: l.
Proof. unfold vec_insert. by rewrite <- Permutation_middle, take_drop. Qed.

Lemma length_splice a src l :
  (a + length src <= length l)%nat -> length (splice a src l) = length l.
Proof. intros H. unfold splice. rewrite !length_app, length_take, length_drop. lia. Qed.

End vectors.

(** ** Little-endian encoding *)

(** [to_le_bytes] of an [8 * n]-bit integer. *)
Fixpoint to_le (n : nat) (z : Z) : list Z :=
  match n with
  | O => []
  | S n' => z mod 256 :: to_le n' (z / 256)
  end.

(** [from_le_bytes]. *)
Fixpoint from_le (bs : list Z) : Z :=
  match bs with
  | [] => 0
  | b :: bs' => b + 256 * from_le bs'
  end.

Definition bytes_ok (bs : list Z) : Prop := Forall (fun b => 0 <= b < 256) bs.

Lemma length_to_le n z : length (to_le n z) = n.
Proof. revert z; induction n; intros; simpl; auto. Qed.
#[export] Hint Rewrite length_to_le : len.

Lemma to_le_ok n z : bytes_ok (to_le n z).
Proof.
  revert z; induction n as [|n IH]; intros z; constructor; [|apply IH].
  apply Z.mod_pos_bound. lia.
Qed.

Lemma from_to_le n z : 0 <= z < 256 ^ Z.of_nat n -> from_le (to_le n z) = z.
Proof.
  revert z; induction n as [|n IH]; intros z Hz; cbn [to_le from_le].
  - simpl in Hz. lia.
  - rewrite Nat2Z.inj_succ, Z.pow_succ_r in Hz by lia.
    rewrite IH by (split; [apply Z.div_pos; lia|apply Z.div_lt_upper_bound; lia]).
    pose proof (Z.div_mod z 256 ltac:(lia)). lia.
Qed.

Lemma from_le_bound bs : bytes_ok bs -> 0 <= from_le bs < 256 ^ Z.of_nat (length bs).
Proof.
  induction 1 as [|b bs Hb _ IH]; [simpl; lia|].
  cbn [from_le length]. rewrite Nat2Z.inj_succ, Z.pow_succ_r by lia. lia.
Qed.

Lemma to_from_le bs : bytes_ok bs -> to_le (length bs) (from_le bs) = bs.
Proof.
  induction 1 as [|b bs Hb _ IH]; [done|]. cbn [from_le to_le length].
  rewrite (Z.mul_comm 256), Z.mod_add, Z.div_add, Z.mod_small, Z.div_small by lia.
  by rewrite Z.add_0_l, IH.
Qed.

(** ** Byte-addressed memory *)

(** Memory is a finite map from addresses to bytes; a byte never written
    reads as 0 (the kernel hands out zeroed pages). *)
Abbreviation mem := (gmap Z Z).

Definition read_byte (m : mem) (a : Z) : Z := default 0 (m !! a).

Fixpoint write_bytes (m : mem) (a : Z) (bs : list Z) : mem :=
  match bs with
  | [] => m
  | b :: bs' => write_bytes (<[a := b]> m) (a + 1) bs'
  end.

Fixpoint read_bytes (m : mem) (a : Z) (n : nat) : list Z :=
  match n with
  | O => []
  | S n' => read_byte m a :: read_bytes m (a + 1) n'
  end.

Lemma length_read_bytes m a n : length (read_bytes m a n) = n.
Proof. revert a; induction n; intros; simpl; auto. Qed.
#[export] Hint Rewrite length_read_bytes : len.

Lemma write_bytes_lookup_ne m a bs x :
  x < a \/ a + Z.of_nat (length bs) <= x -> write_bytes m a bs !! x = m !! x.
Proof.
  revert m a; induction bs as [|b bs IH]; intros m a Hx; simpl in *; [done|].
  rewrite IH by lia. apply lookup_insert_ne. lia.
Qed.

Lemma write_bytes_lookup m a bs (i : nat) b :
  bs !! i = Some b -> write_bytes m a bs !! (a + Z.of_nat i) = Some b.
Proof.
  revert m a i; induction bs as [|c bs IH]; intros m a i Hi; [done|].
  destruct i as [|i]; cbn [write_bytes lookup list_lookup] in *.
  - injection Hi as ->. rewrite write_bytes_lookup_ne by lia.
    rewrite Z.add_0_r. apply lookup_insert_eq.
  - rewrite Nat2Z.inj_succ, <- Z.add_1_l, Z.add_assoc. by apply IH.
Qed.

Lemma read_bytes_ext m m' a n :
  (forall x, a <= x < a + Z.of_nat n -> m !! x = m' !! x) ->
  read_bytes m a n = read_bytes m' a n.
Proof.
  revert a; induction n as [|n IH]; intros a H; [done|]. cbn [read_bytes]. f_equal.
  - unfold read_byte. by rewrite H by lia.
  - apply IH. intros; apply H; lia.
Qed.

Lemma read_write_bytes m a bs : read_bytes (write_bytes m a bs) a (length bs) = bs.
Proof.
  revert m a; induction bs as [|b bs IH]; intros m a; [done|].
  cbn [length read_bytes write_bytes]. f_equal; [|apply IH].
  unfold read_byte. rewrite write_bytes_lookup_ne by lia. by rewrite lookup_insert_eq.
Qed.

Lemma read_write_bytes_ne m a bs x n :
  x + Z.of_nat n <= a \/ a + Z.of_nat (length bs) <= x ->
  read_bytes (write_bytes m a bs) x n = read_bytes m x n.
Proof. intros. apply read_bytes_ext. intros; apply write_bytes_lookup_ne. lia. Qed.

Lemma read_bytes_app m a n k :
  read_bytes m a (n + k) = read_bytes m a n ++ read_bytes m (a + Z.of_nat n) k.
Proof.
  revert a; induction n as [|n IH]; intros a; simpl; [by rewrite Z.add_0_r|].
  f_equal. rewrite IH. do 2 f_equal. lia.
Qed.

Lemma take_read_bytes m a n k : (k <= n)%nat -> take k (read_bytes m a n) = read_bytes m a k.
Proof.
  intros Hk. replace n with (k + (n - k))%nat by lia. rewrite read_bytes_app, take_app_le, take_ge by (rewrite length_read_bytes; lia). done.
Qed.

Lemma drop_read_bytes m a n k : (k <= n)%nat -> drop k (read_bytes m a n) = read_bytes m (a + Z.of_nat k) (n - k).
Proof.
  intros Hk. replace n with (k + (n - k))%nat at 1 by lia. rewrite read_bytes_app, drop_app_ge by (rewrite length_read_bytes; lia).
  by rewrite length_read_bytes, Nat.sub_diag.
Qed.

Lemma write_bytes_app m a bs bs' :
  write_bytes m a (bs ++ bs') = write_bytes (write_bytes m a bs) (a + Z.of_nat (length bs)) bs'.
Proof.
  revert m a; induction bs as [|b bs IH]; intros m a; cbn [app write_bytes length].
  - by rewrite Z.add_0_r.
  - rewrite IH. f_equal. lia.
Qed.

(** 64-bit words in memory. *)
Definition read_word (m : mem) (a : Z) : Z := from_le (read_bytes m a 8).
Definition words_bytes (ws : list Z) : list Z := concat (to_le 8 <$> ws).

Lemma length_words_bytes ws : length (words_bytes ws) = (8 * length ws)%nat.
Proof.
  induction ws as [|w ws IH]; [done|]. unfold words_bytes in *.
  cbn [fmap list_fmap concat length]. rewrite length_app, length_to_le, IH. lia.
Qed.

Lemma read_word_ext m m' a :
  (forall x, a <= x < a + 8 -> m !! x = m' !! x) -> read_word m a = read_word m' a.
Proof. intros. unfold read_word. f_equal. by apply read_bytes_ext. Qed.

Lemma read_word_write m a ws (i : nat) w :
  Forall (in_width 64) ws -> ws !! i = Some w ->
  read_word (write_bytes m a (words_bytes ws)) (a + 8 * Z.of_nat i) = w.
Proof.
  intros Hws. revert m a i; induction Hws as [|v ws Hv _ IH]; intros m a i Hi; [done|].
  unfold words_bytes; cbn [fmap list_fmap concat].
  rewrite write_bytes_app, length_to_le. fold (words_bytes ws).
  destruct i as [|i]; cbn in Hi.
  - injection Hi as ->. unfold read_word. rewrite Z.mul_0_r, Z.add_0_r.
    rewrite read_write_bytes_ne by lia.
    rewrite <- (length_to_le 8 w) at 2. rewrite read_write_bytes.
    by apply from_to_le.
  - replace (a + 8 * Z.of_nat (S i)) with (a + Z.of_nat 8 + 8 * Z.of_nat i) by lia.
    by apply IH.
Qed.

(** ** Record update *)

(** [r <| f := v |>]: the record [r] with field [f] replaced.  An instance of
    [Fields] lists the fields of a record type once (its eta expansion). *)
Class Fields (R : Type) := fields : R -> R.
Class Updatable {R A : Type} (proj : R -> A) := update_field : (A -> A) -> R -> R.
Global Arguments update_field {R A} proj {_} g r /.

Ltac derive_update :=
  match goal with
  | |- @Updatable ?R ?A ?proj =>
      let inst := constr:(_ : Fields R) in
      let eta := eval red in inst in
      match eval pattern proj in eta with
      | ?F _ => lazymatch F with
                | (fun _ => ?b) => fail "not a field of the record"
                | _ => exact (fun g => F (fun r => g (proj r)))
                end
      end
  end.
#[global] Hint Extern 1 (Updatable _) => derive_update : typeclass_instances.

Notation "r <| f := v |>" := (update_field f (fun _ => v) r)
  (at level 1, left associativity, f at next level,
   format "r  <|  f  :=  v  |>").

(** ** Bit scans *)

Fixpoint pos_tz (p : positive) : Z :=
  match p with
  | xO q => 1 + pos_tz q
  | _ => 0
  end.

(** [trailing_zeros] of a [w]-bit integer ([w] for 0). *)
Definition trailing_zeros (w z : Z) : Z :=
  match z with
  | Z0 => w
  | Zpos p | Zneg p => pos_tz p
  end.

Lemma pos_tz_nonneg p : 0 <= pos_tz p.
Proof. induction p; simpl; lia. Qed.

Lemma pos_tz_spec p :
  Z.testbit (Zpos p) (pos_tz p) = true /\
  forall i, 0 <= i < pos_tz p -> Z.testbit (Zpos p) i = false.
Proof.
  induction p as [p _|p [IH1 IH2]|]; cbn [pos_tz]; [split; [done|lia]| |split; [done|lia]].
  pose proof (pos_tz_nonneg p). change (Zpos p~0) with (2 * Zpos p). split.
  - rewrite <- Z.succ_pred with (n := 1 + pos_tz p) at 1.
    rewrite Z.double_bits_succ by lia. rewrite <- IH1 at 1. f_equal. lia.
  - intros i Hi. destruct (decide (i = 0)) as [->|]; [apply Z.testbit_even_0|].
    rewrite <- (Z.succ_pred i), Z.double_bits_succ. apply IH2. lia.
Qed.

(** The bit found by [trailing_zeros] is set and is the lowest one. *)
Lemma trailing_zeros_spec w z :
  0 < z ->
  0 <= trailing_zeros w z /\ Z.testbit z (trailing_zeros w z) = true /\
  forall i, 0 <= i < trailing_zeros w z -> Z.testbit z i = false.
Proof.
  intros Hz. destruct z as [|p|p]; [lia| |lia]. cbn [trailing_zeros].
  pose proof (pos_tz_nonneg p). pose proof (pos_tz_spec p) as [? ?]. auto.
Qed.

Lemma testbit_bound w z i : 0 <= w -> 0 <= z < 2 ^ w -> Z.testbit z i = true -> i < w.
Proof.
  intros Hw Hz Hb. destruct (Z.lt_ge_cases i w) as [|Hge]; [done|].
  rewrite Z.testbit_eqb in Hb by lia. apply Z.eqb_eq in Hb.
  rewrite Z.div_small in Hb; [done|]. split; [lia|].
  eapply Z.lt_le_trans; [apply Hz|]. apply Z.pow_le_mono_r; lia.
Qed.

(** Words are bounded by their bits. *)
Lemma bits_bound w z :
  0 <= w -> 0 <= z -> (forall i, Z.testbit z i = true -> i < w) -> z < 2 ^ w.
Proof.
  intros Hw Hz Hbits. destruct (Z.eq_dec z 0) as [->|Hne]; [by apply Z.pow_pos_nonneg|].
  apply Z.log2_lt_pow2; [lia|]. apply Hbits, Z.bit_log2. lia.
Qed.
