(* ===== verification/Ring.v ===== *)
(** Ring buffers: the abstraction shared by the pipe byte buffer
    ([kernel/src/process/pipe.rs]) and the IPC message queue
    ([kernel/src/ipc/channel.rs]).

    Both store their elements in a fixed array indexed modulo its capacity.
    [contents] is the queue such an array represents; the lemmas say what the
    two array operations (write one slot past the end, advance the head) do to
    that queue.  Nothing here is program code: the components define their own
    operations and use these lemmas to refine them to lists. *)

From Stdlib Require Import ZArith Lia.
From stdpp Require Import base list numbers.
From S2P Require Import Prelude.

Section ring.
Context {A : Type} `{!Inhabited A}.
Implicit Types (buf : list A).

(** Slot of the [i]-th stored element. *)
Definition slot (cap head i : nat) : nat := (head + i) mod cap.

(** The queue held by the array: [len] elements from [head], oldest first. *)
Definition contents (cap : nat) buf (head len : nat) : list A :=
  (fun i => buf !!! slot cap head i) <$> seq 0 len.

Lemma slot_lt cap head i : (0 < cap)%nat -> (slot cap head i < cap)%nat.
Proof. intros. unfold slot. apply Nat.mod_upper_bound. lia. Qed.

Lemma slot_inj cap head i j :
  (i < cap)%nat -> (j < cap)%nat -> slot cap head i = slot cap head j -> i = j.
Proof.
  intros Hi Hj H. unfold slot in H.
  pose proof (Nat.div_mod_eq (head + i) cap). pose proof (Nat.div_mod_eq (head + j) cap).
  rewrite H in *. clear H.
  generalize dependent ((head + i) / cap)%nat. generalize dependent ((head + j) / cap)%nat.
  generalize ((head + j) mod cap)%nat. intros r q Hq q' Hq'.
  assert (q = q') as -> by nia. lia.
Qed.

Lemma slot_succ cap head i :
  (0 < cap)%nat -> slot cap ((head + 1) mod cap) i = slot cap head (S i).
Proof.
  intros. unfold slot. rewrite Nat.Div0.add_mod_idemp_l. f_equal. lia.
Qed.

Lemma slot_add cap head n i :
  slot cap ((head + n) mod cap) i = slot cap head (n + i).
Proof. unfold slot. rewrite Nat.Div0.add_mod_idemp_l. f_equal. lia. Qed.

Lemma slot_next cap head i : ((slot cap head i + 1) mod cap = slot cap head (i + 1))%nat.
Proof. unfold slot. rewrite Nat.Div0.add_mod_idemp_l. f_equal. lia. Qed.

Lemma length_contents cap buf head len : length (contents cap buf head len) = len.
Proof. unfold contents. by rewrite length_fmap, length_seq. Qed.

Lemma contents_0 cap buf head : contents cap buf head 0 = [].
Proof. done. Qed.

Lemma lookup_contents cap buf head len i :
  (i < len)%nat -> contents cap buf head len !! i = Some (buf !!! slot cap head i).
Proof.
  intros Hi. unfold contents. rewrite list_lookup_fmap, lookup_seq_lt by done. done.
Qed.

(** Writing the slot just past the stored elements appends to the queue. *)
Lemma contents_push cap buf head len x :
  length buf = cap -> (len < cap)%nat ->
  contents cap (<[slot cap head len := x]> buf) head (S len) =
    contents cap buf head len ++ [x].
Proof.
  intros Hbuf Hlen. apply list_eq_same_length with (S len).
  - rewrite length_app, length_contents. simpl. lia.
  - apply length_contents.
  - intros i y z Hi. rewrite lookup_contents by done. intros [= <-].
    destruct (decide (i = len)) as [->|Hne].
    + rewrite lookup_app_r, length_contents, Nat.sub_diag by (by rewrite length_contents).
      intros [= <-]. apply list_lookup_total_insert_eq.
      rewrite Hbuf. apply slot_lt. lia.
    + rewrite lookup_app_l, lookup_contents by (rewrite ?length_contents; lia).
      intros [= <-]. apply list_lookup_total_insert_ne.
      intros Heq. apply Hne. symmetry. eapply slot_inj; [..|exact Heq]; lia.
Qed.

(** Advancing the head drops the oldest elements. *)
Lemma contents_advance cap buf head len n :
  (n <= len)%nat ->
  contents cap buf ((head + n) mod cap) (len - n) = drop n (contents cap buf head len).
Proof.
  intros Hn. apply list_eq_same_length with (len - n)%nat.
  - rewrite length_drop, length_contents. done.
  - apply length_contents.
  - intros i y z Hi. rewrite lookup_contents by done. intros [= <-].
    rewrite lookup_drop, lookup_contents by lia. intros [= <-].
    by rewrite slot_add.
Qed.

Lemma contents_head cap buf head len :
  (0 < len)%nat ->
  contents cap buf head len =
    (buf !!! slot cap head 0) :: contents cap buf ((head + 1) mod cap) (len - 1).
Proof.
  intros Hlen. rewrite contents_advance by lia.
  destruct (contents cap buf head len) as [|x l] eqn:Hc.
  - apply (f_equal length) in Hc. rewrite length_contents in Hc. simpl in Hc. lia.
  - assert (contents cap buf head len !! 0%nat = Some x) as H0 by by rewrite Hc.
    rewrite lookup_contents in H0 by lia. simpl. rewrite drop_0. congruence.
Qed.

Lemma take_contents cap buf head len n :
  (n <= len)%nat -> take n (contents cap buf head len) = contents cap buf head n.
Proof.
  intros. unfold contents. rewrite <- fmap_take, take_seq. by rewrite Nat.min_l.
Qed.

End ring.

