(* ===== verification/Bits.v ===== *)
(** Bitmaps packed in bytes, lowest bit first: the representation the buddy
    allocator and the ext2 block and inode bitmaps share.  The operations are
    written as the source writes them (a byte index and a mask); the lemmas
    reduce them to one boolean per bit number. *)

From Stdlib Require Import ZArith Lia.
From stdpp Require Import base numbers gmap list.
From S2P Require Import Prelude.

Local Open Scope Z_scope.

Module Bits.

(** The byte of bit [i], its mask, and [byte & mask != 0]. *)
Definition byte_ix (i : Z) : nat := Z.to_nat (i / 8).
Definition mask (i : Z) : Z := Z.shiftl 1 (i mod 8).
Definition masked (b i : Z) : bool := negb (Z.land b (mask i) =? 0).

(** [byte |= mask] and [byte &= !mask] on bytes. *)
Definition set_in (b i : Z) : Z := Z.lor b (mask i).
Definition clear_in (b i : Z) : Z := Z.land b (Z.lxor 255 (mask i)).

Definition get (l : list Z) (i : Z) : bool := masked (l !!! byte_ix i) i.
Definition set (l : list Z) (i : Z) : list Z := <[byte_ix i := set_in (l !!! byte_ix i) i]> l.
Definition clear (l : list Z) (i : Z) : list Z := <[byte_ix i := clear_in (l !!! byte_ix i) i]> l.

Lemma mask_eq i : mask i = 2 ^ (i mod 8).
Proof.
  unfold mask. rewrite Z.shiftl_mul_pow2, Z.mul_1_l; [done|].
  apply Z.mod_pos_bound. lia.
Qed.

Lemma mask_testbit i j : Z.testbit (mask i) (j mod 8) = bool_decide (i mod 8 = j mod 8).
Proof.
  rewrite mask_eq. pose proof (Z.mod_pos_bound i 8 ltac:(lia)).
  pose proof (Z.mod_pos_bound j 8 ltac:(lia)). rewrite Z.pow2_bits_eqb by lia.
  destruct (Z.eqb_spec (i mod 8) (j mod 8)); [by rewrite bool_decide_true|by rewrite bool_decide_false].
Qed.

Lemma masked_testbit b i : masked b i = Z.testbit b (i mod 8).
Proof.
  unfold masked. pose proof (Z.mod_pos_bound i 8 ltac:(lia)).
  destruct (Z.eqb_spec (Z.land b (mask i)) 0) as [H0|Hne]; cbn [negb].
  - assert (Z.testbit (Z.land b (mask i)) (i mod 8) = false) as H1 by (by rewrite H0, Z.testbit_0_l).
    rewrite Z.land_spec, mask_testbit, bool_decide_true, andb_true_r in H1 by done. done.
  - destruct (Z.testbit b (i mod 8)) eqn:Hb; [done|]. exfalso. apply Hne.
    apply Z.bits_inj'. intros k Hk. rewrite Z.land_spec, Z.testbit_0_l, mask_eq, Z.pow2_bits_eqb by lia.
    destruct (Z.eqb_spec (i mod 8) k) as [<-|]; [by rewrite Hb|by rewrite andb_false_r].
Qed.

(** Bits of one byte have different numbers modulo 8. *)
Lemma same_bit i j : 0 <= i -> 0 <= j -> byte_ix i = byte_ix j -> i mod 8 = j mod 8 -> i = j.
Proof.
  intros Hi Hj Hb Hm. unfold byte_ix in Hb.
  pose proof (Z.div_pos i 8 Hi ltac:(lia)). pose proof (Z.div_pos j 8 Hj ltac:(lia)).
  pose proof (Z.div_mod i 8 ltac:(lia)). pose proof (Z.div_mod j 8 ltac:(lia)). lia.
Qed.

Lemma get_set l i j :
  0 <= i -> 0 <= j -> (byte_ix i < length l)%nat ->
  get (set l i) j = bool_decide (i = j) || get l j.
Proof.
  intros Hi Hj Hlen. unfold get, set. rewrite !masked_testbit.
  destruct (decide (byte_ix i = byte_ix j)) as [Heq|Hne].
  - rewrite Heq in *. rewrite list_lookup_total_insert_eq by done. unfold set_in.
    rewrite Z.lor_spec, mask_testbit, orb_comm. f_equal.
    apply bool_decide_ext. split; [by apply same_bit|by intros ->].
  - rewrite list_lookup_total_insert_ne by done. rewrite bool_decide_false by congruence. done.
Qed.

Lemma get_clear l i j :
  0 <= i -> 0 <= j -> (byte_ix i < length l)%nat ->
  get (clear l i) j = negb (bool_decide (i = j)) && get l j.
Proof.
  intros Hi Hj Hlen. unfold get, clear. rewrite !masked_testbit.
  destruct (decide (byte_ix i = byte_ix j)) as [Heq|Hne].
  - rewrite Heq in *. rewrite list_lookup_total_insert_eq by done. unfold clear_in.
    rewrite Z.land_spec, Z.lxor_spec, mask_testbit, andb_comm. f_equal.
    assert (Z.testbit 255 (j mod 8) = true) as ->.
    { pose proof (Z.mod_pos_bound j 8 ltac:(lia)). change 255 with (Z.ones 8).
      by rewrite Z.ones_spec_low. }
    rewrite xorb_true_l. f_equal. apply bool_decide_ext. split; [by apply same_bit|by intros ->].
  - rewrite list_lookup_total_insert_ne by done. rewrite bool_decide_false by congruence. done.
Qed.

Lemma length_set l i : length (set l i) = length l.
Proof. apply length_insert. Qed.
Lemma length_clear l i : length (clear l i) = length l.
Proof. apply length_insert. Qed.
#[export] Hint Rewrite length_set length_clear : len.

Lemma get_zeros n i : (byte_ix i < n)%nat -> get (replicate n 0) i = false.
Proof.
  intros Hi. unfold get. rewrite masked_testbit, lookup_total_replicate_2 by done. apply Z.testbit_0_l.
Qed.

(** Bytes stay bytes. *)
Lemma set_in_ok b i : 0 <= b < 256 -> 0 <= set_in b i < 256.
Proof.
  intros Hb. pose proof (Z.mod_pos_bound i 8 ltac:(lia)). unfold set_in.
  assert (0 <= mask i) by (rewrite mask_eq; apply Z.pow_nonneg; lia).
  assert (0 <= Z.lor b (mask i)) by (apply Z.lor_nonneg; lia).
  split; [done|]. change 256 with (2 ^ 8). apply bits_bound; [lia|done|].
  intros k Hk. rewrite Z.lor_spec, mask_eq in Hk. apply orb_prop in Hk as [Hk|Hk].
  - apply (testbit_bound 8 b); [lia|lia|done].
  - destruct (Z.lt_ge_cases k 0); [lia|]. rewrite Z.pow2_bits_eqb in Hk by lia. apply Z.eqb_eq in Hk. lia.
Qed.

Lemma clear_in_ok b i : 0 <= b < 256 -> 0 <= clear_in b i < 256.
Proof.
  intros Hb. unfold clear_in. assert (0 <= Z.land b (Z.lxor 255 (mask i))) by (apply Z.land_nonneg; lia).
  split; [done|]. change 256 with (2 ^ 8). apply bits_bound; [lia|done|].
  intros k Hk. rewrite Z.land_spec in Hk. apply andb_prop in Hk as [Hk _].
  apply (testbit_bound 8 b); [lia|lia|done].
Qed.

Lemma set_ok l i : bytes_ok l -> bytes_ok (set l i).
Proof.
  intros Hl. unfold set. destruct (Nat.lt_ge_cases (byte_ix i) (length l)) as [Hlt|Hge].
  - apply Forall_insert; [done|]. apply set_in_ok. destruct (lookup_lt_is_Some_2 l _ Hlt) as [b Hb].
    rewrite (list_lookup_total_correct _ _ _ Hb). by apply (Forall_lookup_1 _ _ _ _ Hl Hb).
  - by rewrite list_insert_ge.
Qed.

Lemma clear_ok l i : bytes_ok l -> bytes_ok (clear l i).
Proof.
  intros Hl. unfold clear. destruct (Nat.lt_ge_cases (byte_ix i) (length l)) as [Hlt|Hge].
  - apply Forall_insert; [done|]. apply clear_in_ok. destruct (lookup_lt_is_Some_2 l _ Hlt) as [b Hb].
    rewrite (list_lookup_total_correct _ _ _ Hb). by apply (Forall_lookup_1 _ _ _ _ Hl Hb).
  - by rewrite list_insert_ge.
Qed.

End Bits.
