(* ===== verification/Buddy.v ===== *)
(** The buddy allocator of physical memory:
    [kernel/src/allocator/buddy_allocator.rs].

    The free lists are threaded through the free blocks themselves: the next
    pointer of a free block is a word stored at the block's own address.
    [phys] is that part of physical memory, indexed by block address, so a
    list can be damaged by whoever writes into a free block, as in the
    machine.  The bitmap is the flat byte array of the source.

    A halted processor (the double-free trap loops on [hlt]) and a failed
    [debug_assert!] are both [Panic]. *)

From Stdlib Require Import ZArith Lia.
From stdpp Require Import base numbers gmap list.
From S2P Require Import Prelude Bits.

Local Open Scope Z_scope.

Module Buddy.

(** ** Model *)

Definition MIN_ORDER : Z := 12.
Definition MAX_ORDER : Z := 28.
Definition NUM_ORDERS : nat := Z.to_nat (MAX_ORDER - MIN_ORDER + 1).
Definition MAX_PHYS_ADDR : Z := 512 * 1024 * 1024.

(** Bytes of the bitmap of one order. *)
Definition order_bytes (order : Z) : Z := (Z.shiftr MAX_PHYS_ADDR order + 7) / 8.

(** The loops of [bitmap_offsets] and [bitmap_total_bytes]: the running total
    before each order, and after the last. *)
Fixpoint offsets_from (n : nat) (order running : Z) : list Z :=
  match n with
  | O => []
  | S n' => running :: offsets_from n' (order + 1) (running + order_bytes order)
  end.
Definition bitmap_offsets : list Z := offsets_from NUM_ORDERS MIN_ORDER 0.

Fixpoint total_from (n : nat) (order total : Z) : Z :=
  match n with
  | O => total
  | S n' => total_from n' (order + 1) (total + order_bytes order)
  end.
Definition bitmap_total_bytes : Z := total_from NUM_ORDERS MIN_ORDER 0.

Definition BITMAP_BYTES : nat := Z.to_nat bitmap_total_bytes.
Definition BITMAP_OFFSETS : list Z := bitmap_offsets.

Record BuddyAllocator := mkBuddy {
  free_lists : list (option Z);
  bitmap : list Z;
  total_memory : Z;
  phys : gmap Z (option Z);
}.

#[export] Instance BuddyAllocator_fields : Fields BuddyAllocator := fun s =>
  mkBuddy (free_lists s) (bitmap s) (total_memory s) (phys s).

Definition new : BuddyAllocator :=
  mkBuddy (replicate NUM_ORDERS None) (replicate BITMAP_BYTES 0) 0 ∅.

Definition order_to_index (order : Z) : nat := Z.to_nat (order - MIN_ORDER).

Definition head (s : BuddyAllocator) (order : Z) : option Z := free_lists s !!! order_to_index order.
Definition set_head (s : BuddyAllocator) (order : Z) (h : option Z) : BuddyAllocator :=
  s <| free_lists := <[order_to_index order := h]> (free_lists s) |>.

(** The next pointer stored in the block at [a]. *)
Definition next (s : BuddyAllocator) (a : Z) : option Z := default None (phys s !! a).

(** [PhysAddr::new]: a physical address has 52 bits. *)
Definition phys_addr (a : Z) : may_panic Z := if a <? 2 ^ 52 then Ok a else Panic.

Definition bitmap_pos (order addr : Z) : option (nat * Z) :=
  if MAX_PHYS_ADDR <=? addr then None else
  let idx := order_to_index order in
  let bit_index := Z.shiftr addr order in
  let byte_offset := BITMAP_OFFSETS !!! idx + bit_index / 8 in
  let bit_mask := Z.shiftl 1 (bit_index mod 8) in
  Some (Z.to_nat byte_offset, bit_mask).

Definition bitmap_set (s : BuddyAllocator) (order addr : Z) : may_panic BuddyAllocator :=
  match bitmap_pos order addr with
  | Some (byte, mask) =>
      let b := bitmap s !!! byte in
      if negb (Z.land b mask =? 0) then Panic
      else Ok (s <| bitmap := <[byte := Z.lor b mask]> (bitmap s) |>)
  | None => Ok s
  end.

Definition bitmap_clear (s : BuddyAllocator) (order addr : Z) : may_panic BuddyAllocator :=
  match bitmap_pos order addr with
  | Some (byte, mask) =>
      let b := bitmap s !!! byte in
      if Z.land b mask =? 0 then Panic
      else Ok (s <| bitmap := <[byte := Z.land b (Z.lxor 255 mask)]> (bitmap s) |>)
  | None => Ok s
  end.

Definition is_free (s : BuddyAllocator) (order addr : Z) : bool :=
  match bitmap_pos order addr with
  | Some (byte, mask) => negb (Z.land (bitmap s !!! byte) mask =? 0)
  | None => false
  end.

Definition add_block (s : BuddyAllocator) (order addr : Z) : may_panic BuddyAllocator :=
  let s1 := s <| phys := <[addr := head s order]> (phys s) |> in
  bitmap_set (set_head s1 order (Some addr)) order addr.

(** The loop of [add_region] from [current_addr]. *)
Fixpoint add_region_loop (fuel : nat) (s : BuddyAllocator) (current_addr end_ : Z)
    : may_panic BuddyAllocator :=
  match fuel with
  | O => Ok s
  | S f =>
      if end_ <=? current_addr then Ok s else
      let remaining := end_ - current_addr in
      if remaining <? Z.shiftl 1 MIN_ORDER then Ok s else
      let align_order := trailing_zeros 64 current_addr in
      let size_order := Z.log2 remaining in
      let order := Z.max (Z.min (Z.min align_order size_order) MAX_ORDER) MIN_ORDER in
      let block_size := Z.shiftl 1 order in
      a ← phys_addr current_addr;
      s1 ← add_block s order a;
      add_region_loop f s1 (current_addr + block_size) end_
  end.

Definition add_region (s : BuddyAllocator) (start end_ : Z) : may_panic BuddyAllocator :=
  let region_size := end_ - start in
  if region_size <? 0 then Panic else
  if 2 ^ 64 <=? total_memory s + region_size then Panic else
  add_region_loop (Z.to_nat (region_size / 4096 + 1))
    (s <| total_memory := total_memory s + region_size |>) start end_.

Definition remove_from_head (s : BuddyAllocator) (order addr : Z) : may_panic BuddyAllocator :=
  if bool_decide (head s order = Some addr)
  then bitmap_clear (set_head s order (next s addr)) order addr
  else Panic.

(** The scan of [remove_arbitrary_block]: [left] more iterations are allowed,
    [prev_addr] is the node whose next pointer is examined. *)
Fixpoint scan (left : nat) (s : BuddyAllocator) (order addr prev_addr : Z)
    : may_panic (BuddyAllocator * bool) :=
  match left with
  | O => s1 ← bitmap_clear s order addr; Ok (s1, false)
  | S left' =>
      match next s prev_addr with
      | Some next_addr =>
          if next_addr =? addr then
            s1 ← bitmap_clear (s <| phys := <[prev_addr := next s addr]> (phys s) |>) order addr;
            Ok (s1, true)
          else scan left' s order addr next_addr
      | None => s1 ← bitmap_clear s order addr; Ok (s1, false)
      end
  end.

Definition SCAN_LIMIT : nat := 4096.
#[global] Arguments SCAN_LIMIT : simpl never.

Definition remove_arbitrary_block (s : BuddyAllocator) (order addr : Z)
    : may_panic (BuddyAllocator * bool) :=
  if bool_decide (head s order = Some addr) then
    s1 ← remove_from_head s order addr; Ok (s1, true)
  else
    match head s order with
    | None => s1 ← bitmap_clear s order addr; Ok (s1, false)
    | Some prev_addr => scan SCAN_LIMIT s order addr prev_addr
    end.

(** [split_block]: [n] halvings of the block of order [current_order]. *)
Fixpoint split_loop (n : nat) (s : BuddyAllocator) (addr current_order : Z) : may_panic BuddyAllocator :=
  match n with
  | O => Ok s
  | S n' =>
      let order := current_order - 1 in
      buddy ← phys_addr (addr + Z.shiftl 1 order);
      s1 ← add_block s order buddy;
      split_loop n' s1 addr order
  end.

Definition split_block (s : BuddyAllocator) (from_order addr to_order : Z) : may_panic BuddyAllocator :=
  split_loop (Z.to_nat (from_order - to_order)) s addr from_order.

Definition buddy_of (addr order : Z) : Z := Z.lxor addr (Z.shiftl 1 order).

(** The search of [allocate] through the larger orders, [n] of them left. *)
Fixpoint find_larger (n : nat) (s : BuddyAllocator) (larger_order : Z) : option (Z * Z) :=
  match n with
  | O => None
  | S n' =>
      match head s larger_order with
      | Some addr => Some (larger_order, addr)
      | None => find_larger n' s (larger_order + 1)
      end
  end.

Definition allocate (s : BuddyAllocator) (order : Z) : may_panic (BuddyAllocator * option Z) :=
  if negb ((MIN_ORDER <=? order) && (order <=? MAX_ORDER)) then Panic else
  match head s order with
  | Some addr => s1 ← remove_from_head s order addr; Ok (s1, Some addr)
  | None =>
      match find_larger (Z.to_nat (MAX_ORDER - order)) s (order + 1) with
      | Some (larger_order, addr) =>
          s1 ← remove_from_head s larger_order addr;
          s2 ← split_block s1 larger_order addr order;
          Ok (s2, Some addr)
      | None => Ok (s, None)
      end
  end.

(** The coalescing loop of [deallocate], at most [n] more merges. *)
Fixpoint coalesce (n : nat) (s : BuddyAllocator) (current_addr current_order : Z)
    : may_panic (BuddyAllocator * Z * Z) :=
  match n with
  | O => Ok (s, current_addr, current_order)
  | S n' =>
      buddy_addr ← phys_addr (buddy_of current_addr current_order);
      if negb (is_free s current_order buddy_addr) then Ok (s, current_addr, current_order) else
      r ← remove_arbitrary_block s current_order buddy_addr;
      let '(s1, removed) := r in
      if removed : bool
      then coalesce n' s1 (Z.min current_addr buddy_addr) (current_order + 1)
      else Ok (s1, current_addr, current_order)
  end.

Definition deallocate (s : BuddyAllocator) (addr order : Z) : may_panic BuddyAllocator :=
  if negb ((MIN_ORDER <=? order) && (order <=? MAX_ORDER)) then Panic else
  if negb (addr mod Z.shiftl 1 order =? 0) then Panic else
  r ← coalesce (Z.to_nat (MAX_ORDER - order)) s addr order;
  let '(s1, current_addr, current_order) := r in
  add_block s1 current_order current_addr.

(** The length of a free list, walked for at most [fuel] nodes. *)
Fixpoint count_list (fuel : nat) (s : BuddyAllocator) (current : option Z) : Z :=
  match fuel, current with
  | S f, Some addr => 1 + count_list f s (next s addr)
  | _, _ => 0
  end.

Definition free_bytes (fuel : nat) (s : BuddyAllocator) : Z :=
  foldl (fun total i => total + count_list fuel s (head s (MIN_ORDER + Z.of_nat i))
                                * Z.shiftl 1 (MIN_ORDER + Z.of_nat i)) 0 (seq 0 NUM_ORDERS).

(** ** Specification vocabulary *)

Definition order_ok (o : Z) : Prop := MIN_ORDER <= o <= MAX_ORDER.

(** A block of order [o] at [a], and two blocks that share no address. *)
Record block_ok (o a : Z) : Prop := {
  b_order : order_ok o;
  b_nonneg : 0 <= a;
  b_aligned : a mod 2 ^ o = 0;
  b_fits : a + 2 ^ o <= 2 ^ 52;
}.

Definition apart (o a o' b : Z) : Prop := a + 2 ^ o <= b \/ b + 2 ^ o' <= a.

(** Blocks the bitmap covers, and the number of their bit. *)
Record tracked (o a : Z) : Prop := {
  t_order : order_ok o;
  t_range : 0 <= a < MAX_PHYS_ADDR;
  t_aligned : a mod 2 ^ o = 0;
}.

Definition gbit (o a : Z) : Z := 8 * (BITMAP_OFFSETS !!! order_to_index o) + Z.shiftr a o.

(** The chain of blocks that starts at [h]. *)
Fixpoint linked (m : gmap Z (option Z)) (h : option Z) (l : list Z) : Prop :=
  match l with
  | [] => h = None
  | a :: l' => h = Some a /\ linked m (default None (m !! a)) l'
  end.

(** [rep s L]: the free lists of [s] are the lists [L], one per order; their
    blocks are well formed, share no memory, and are exactly the ones marked
    in the bitmap. *)
Record rep (s : BuddyAllocator) (L : Z -> list Z) : Prop := {
  r_heads : length (free_lists s) = NUM_ORDERS;
  r_bytes : length (bitmap s) = BITMAP_BYTES;
  r_linked : forall o, order_ok o -> linked (phys s) (head s o) (L o);
  r_block : forall o a, order_ok o -> a ∈ L o -> block_ok o a;
  r_apart : forall o a o' b, order_ok o -> order_ok o' -> a ∈ L o -> b ∈ L o' ->
    (o = o' /\ a = b) \/ apart o a o' b;
  r_nodup : forall o, order_ok o -> NoDup (L o);
  r_bits : forall o a, tracked o a -> Bits.get (bitmap s) (gbit o a) = bool_decide (a ∈ L o);
}.

(** A block that shares no memory with the free blocks. *)
Definition clear_of (L : Z -> list Z) (o a : Z) : Prop :=
  forall o' b, order_ok o' -> b ∈ L o' -> apart o a o' b.

Definition upd (L : Z -> list Z) (o : Z) (l : list Z) : Z -> list Z :=
  fun o' => if o' =? o then l else L o'.

(** The address [x] is in free memory. *)
Definition free_at (L : Z -> list Z) (x : Z) : Prop :=
  exists o a, order_ok o /\ a ∈ L o /\ a <= x < a + 2 ^ o.

(** ** Lemmas *)

(** *** The bitmap *)

Lemma pow_order o : order_ok o -> 0 < 2 ^ o.
Proof. intros [H _]. apply Z.pow_pos_nonneg; unfold MIN_ORDER in *; lia. Qed.

Lemma shiftl_order o : order_ok o -> Z.shiftl 1 o = 2 ^ o.
Proof. intros [H _]. rewrite Z.shiftl_mul_pow2 by (unfold MIN_ORDER in *; lia). lia. Qed.

Definition offsets_checked : bool :=
  forallb (fun i => let o := 12 + Z.of_nat i in
    (0 <=? BITMAP_OFFSETS !!! i) && (BITMAP_OFFSETS !!! i + order_bytes o <=? bitmap_total_bytes) &&
    (Z.shiftr MAX_PHYS_ADDR o <=? 8 * order_bytes o) &&
    forallb (fun j => (BITMAP_OFFSETS !!! i + order_bytes o <=? BITMAP_OFFSETS !!! j)) (seq (S i) (16 - i)))
    (seq 0 17).

Lemma offsets_spec o :
  order_ok o ->
  0 <= BITMAP_OFFSETS !!! order_to_index o /\
  BITMAP_OFFSETS !!! order_to_index o + order_bytes o <= bitmap_total_bytes /\
  Z.shiftr MAX_PHYS_ADDR o <= 8 * order_bytes o /\
  forall o', o < o' <= MAX_ORDER ->
    BITMAP_OFFSETS !!! order_to_index o + order_bytes o <= BITMAP_OFFSETS !!! order_to_index o'.
Proof.
  intros [Hlo Hhi]. unfold MIN_ORDER, MAX_ORDER in *.
  assert (offsets_checked = true) as Hc by (vm_compute; reflexivity).
  unfold offsets_checked in Hc. rewrite forallb_forall in Hc.
  specialize (Hc (order_to_index o)). unfold order_to_index, MIN_ORDER in *.
  specialize (Hc ltac:(apply in_seq; lia)).
  replace (12 + Z.of_nat (Z.to_nat (o - 12))) with o in Hc by lia.
  apply andb_prop in Hc as [Hc H4]. apply andb_prop in Hc as [Hc H3]. apply andb_prop in Hc as [H1 H2].
  split_and!; [lia..|]. intros o' Ho'. rewrite forallb_forall in H4.
  specialize (H4 (Z.to_nat (o' - 12)) ltac:(apply in_seq; lia)). lia.
Qed.

Lemma shiftr_range o a : order_ok o -> 0 <= a < MAX_PHYS_ADDR -> 0 <= Z.shiftr a o < 8 * order_bytes o.
Proof.
  intros Ho Ha. pose proof (offsets_spec o Ho) as (_ & _ & Hb & _). pose proof (pow_order o Ho).
  split; [apply Z.shiftr_nonneg; lia|]. eapply Z.lt_le_trans; [|exact Hb].
  destruct Ho as [Hlo Hhi]. unfold MIN_ORDER, MAX_ORDER in *.
  rewrite !Z.shiftr_div_pow2 by lia.
  assert (MAX_PHYS_ADDR = 2 ^ (29 - o) * 2 ^ o) as Hmax
    by (rewrite <- Z.pow_add_r by lia; replace (29 - o + o) with 29 by lia; done).
  rewrite Hmax in *.
  rewrite Z.div_mul by lia. apply Z.div_lt_upper_bound; lia.
Qed.

Lemma gbit_range o a : order_ok o -> 0 <= a < MAX_PHYS_ADDR ->
  0 <= gbit o a /\ (Bits.byte_ix (gbit o a) < BITMAP_BYTES)%nat.
Proof.
  intros Ho Ha. pose proof (offsets_spec o Ho) as (H1 & H2 & _). pose proof (shiftr_range o a Ho Ha).
  unfold gbit. split; [lia|]. unfold Bits.byte_ix, BITMAP_BYTES.
  apply Z2Nat.inj_lt; [apply Z.div_pos; lia|lia|]. apply Z.div_lt_upper_bound; lia.
Qed.

Lemma gbit_inj o a o' a' : tracked o a -> tracked o' a' -> gbit o a = gbit o' a' -> o = o' /\ a = a'.
Proof.
  intros [Ho Ha Hal] [Ho' Ha' Hal'] Heq. unfold gbit in Heq.
  pose proof (offsets_spec o Ho) as (H1 & _ & _ & H2). pose proof (offsets_spec o' Ho') as (H1' & _ & _ & H2').
  pose proof (shiftr_range o a Ho Ha). pose proof (shiftr_range o' a' Ho' Ha').
  destruct (Z.lt_trichotomy o o') as [Hlt|[<-|Hlt]].
  - specialize (H2 o' ltac:(unfold order_ok in *; lia)). lia.
  - split; [done|]. pose proof (pow_order o Ho).
    rewrite !Z.shiftr_div_pow2 in Heq by (unfold order_ok, MIN_ORDER in *; lia).
    rewrite (Z.div_mod a (2 ^ o)), (Z.div_mod a' (2 ^ o)) by lia. lia.
  - specialize (H2' o ltac:(unfold order_ok in *; lia)). lia.
Qed.

Lemma bitmap_pos_gbit o a : order_ok o -> 0 <= a < MAX_PHYS_ADDR ->
  bitmap_pos o a = Some (Bits.byte_ix (gbit o a), Bits.mask (gbit o a)).
Proof.
  intros Ho Ha. pose proof (offsets_spec o Ho) as (H1 & _). pose proof (shiftr_range o a Ho Ha).
  unfold bitmap_pos. rewrite (proj2 (Z.leb_gt _ _)) by lia.
  unfold Bits.byte_ix, Bits.mask, gbit. do 2 f_equal.
  - f_equal. rewrite (Z.add_comm (8 * _)), (Z.mul_comm 8), Z.div_add by lia. lia.
  - f_equal. rewrite (Z.add_comm (8 * _)), (Z.mul_comm 8), Z.mod_add by lia. done.
Qed.

Lemma bitmap_pos_none o a : MAX_PHYS_ADDR <= a -> bitmap_pos o a = None.
Proof. intros. unfold bitmap_pos. by rewrite (proj2 (Z.leb_le _ _)). Qed.

Lemma block_tracked o a : block_ok o a -> a < MAX_PHYS_ADDR -> tracked o a.
Proof. intros [] ?. by split. Qed.

Lemma is_free_get s o a : tracked o a -> is_free s o a = Bits.get (bitmap s) (gbit o a).
Proof. intros [Ho Ha _]. unfold is_free. by rewrite bitmap_pos_gbit. Qed.

Lemma same_block_bit o a o' a' : tracked o a -> tracked o' a' ->
  bool_decide (gbit o a = gbit o' a') = bool_decide (o' = o /\ a' = a).
Proof.
  intros H H'. apply bool_decide_ext. split; [|by intros [-> ->]].
  intros Heq. destruct (gbit_inj _ _ _ _ H H' Heq). done.
Qed.

Lemma bitmap_set_spec s o a :
  block_ok o a -> length (bitmap s) = BITMAP_BYTES ->
  (tracked o a -> Bits.get (bitmap s) (gbit o a) = false) ->
  exists b, bitmap_set s o a = Ok (s <| bitmap := b |>) /\ length b = BITMAP_BYTES /\
    forall o' a', tracked o' a' ->
      Bits.get b (gbit o' a') = bool_decide (o' = o /\ a' = a) || Bits.get (bitmap s) (gbit o' a').
Proof.
  intros Hb Hlen Hget. unfold bitmap_set. destruct (Z.lt_ge_cases a MAX_PHYS_ADDR) as [Hlt|Hge].
  - pose proof (block_tracked o a Hb Hlt) as Ht. specialize (Hget Ht).
    destruct Ht as [Ho Ha Hal]. destruct (gbit_range o a Ho Ha) as [Hg0 Hgb].
    rewrite bitmap_pos_gbit by done. unfold Bits.get, Bits.masked in Hget.
    rewrite Hget. exists (Bits.set (bitmap s) (gbit o a)). split; [done|].
    split; [by rewrite Bits.length_set|]. intros o' a' Ht'.
    rewrite Bits.get_set; [|done|apply gbit_range; apply Ht'|by rewrite Hlen].
    by rewrite same_block_bit.
  - rewrite bitmap_pos_none by done. exists (bitmap s). split; [by destruct s|]. split; [done|].
    intros o' a' Ht'. rewrite bool_decide_false; [done|]. intros [-> ->]. destruct Ht'. lia.
Qed.

Lemma bitmap_clear_spec s o a :
  block_ok o a -> length (bitmap s) = BITMAP_BYTES ->
  (tracked o a -> Bits.get (bitmap s) (gbit o a) = true) ->
  exists b, bitmap_clear s o a = Ok (s <| bitmap := b |>) /\ length b = BITMAP_BYTES /\
    forall o' a', tracked o' a' ->
      Bits.get b (gbit o' a') = negb (bool_decide (o' = o /\ a' = a)) && Bits.get (bitmap s) (gbit o' a').
Proof.
  intros Hb Hlen Hget. unfold bitmap_clear. destruct (Z.lt_ge_cases a MAX_PHYS_ADDR) as [Hlt|Hge].
  - pose proof (block_tracked o a Hb Hlt) as Ht. specialize (Hget Ht).
    destruct Ht as [Ho Ha Hal]. destruct (gbit_range o a Ho Ha) as [Hg0 Hgb].
    rewrite bitmap_pos_gbit by done. unfold Bits.get, Bits.masked in Hget.
    apply negb_true_iff in Hget. rewrite Hget. exists (Bits.clear (bitmap s) (gbit o a)). split; [done|].
    split; [by rewrite Bits.length_clear|]. intros o' a' Ht'.
    rewrite Bits.get_clear; [|done|apply gbit_range; apply Ht'|by rewrite Hlen].
    by rewrite same_block_bit.
  - rewrite bitmap_pos_none by done. exists (bitmap s). split; [by destruct s|]. split; [done|].
    intros o' a' Ht'. rewrite bool_decide_false; [done|]. intros [-> ->]. destruct Ht'. lia.
Qed.

(** *** Chains of free blocks *)

Lemma linked_frame m m' h l :
  (forall a, a ∈ l -> m' !! a = m !! a) -> linked m h l -> linked m' h l.
Proof.
  revert h; induction l as [|a l IH]; intros h Hm; cbn [linked]; [done|].
  intros [-> Hl]. split; [done|]. rewrite Hm by (by apply list_elem_of_here).
  apply IH; [|done]. intros b Hb. apply Hm. by apply list_elem_of_further.
Qed.

Lemma linked_insert m h l a v : a ∉ l -> linked m h l -> linked (<[a := v]> m) h l.
Proof.
  intros Ha. apply linked_frame. intros b Hb. apply lookup_insert_ne. by intros ->.
Qed.

Lemma linked_inj m h l l' : linked m h l -> linked m h l' -> l = l'.
Proof.
  revert h l'; induction l as [|a l IH]; intros h [|b l']; cbn [linked]; [done|by intros -> [? _]|by intros [-> _]|].
  intros [-> Hl] [[= <-] Hl']. f_equal. by apply (IH _ _ Hl).
Qed.

Lemma linked_unlink m h l1 p a l2 :
  NoDup (l1 ++ p :: a :: l2) -> linked m h (l1 ++ p :: a :: l2) ->
  linked (<[p := default None (m !! a)]> m) h (l1 ++ p :: l2).
Proof.
  revert h; induction l1 as [|x l1 IH]; intros h Hnd; cbn [app linked].
  - intros (-> & _ & Hl). split; [done|]. rewrite lookup_insert_eq. cbn.
    cbn in Hnd. apply NoDup_cons in Hnd as [Hp Hnd]. apply linked_insert; [|done].
    intros Hin. apply Hp. by apply list_elem_of_further.
  - intros [-> Hl]. cbn in Hnd. apply NoDup_cons in Hnd as [Hx Hnd]. split; [done|].
    rewrite lookup_insert_ne; [by apply IH|].
    intros <-. apply Hx, elem_of_app. right. apply list_elem_of_here.
Qed.

(** *** Blocks *)

Lemma apart_sym o a o' b : apart o a o' b -> apart o' b o a.
Proof. unfold apart. lia. Qed.

(** A block shares memory with itself and with its own parts. *)
Lemma apart_ne o a o' b : order_ok o -> order_ok o' -> apart o a o' b -> a <> b.
Proof. intros Ho Ho' H ->. pose proof (pow_order o Ho). pose proof (pow_order o' Ho'). unfold apart in *. lia. Qed.

Lemma apart_sub o a o' b o1 a1 :
  apart o a o' b -> a <= a1 -> a1 + 2 ^ o1 <= a + 2 ^ o -> apart o1 a1 o' b.
Proof. unfold apart. lia. Qed.

Lemma upd_eq L o l : upd L o l o = l.
Proof. unfold upd. by rewrite Z.eqb_refl. Qed.
Lemma upd_ne L o l o' : o' <> o -> upd L o l o' = L o'.
Proof. intros. unfold upd. by rewrite (proj2 (Z.eqb_neq _ _)). Qed.

Lemma elem_of_upd L o l o' x : x ∈ upd L o l o' <-> (o' = o /\ x ∈ l) \/ (o' <> o /\ x ∈ L o').
Proof. unfold upd. destruct (Z.eqb_spec o' o); tauto. Qed.

Lemma index_ne o o' : order_ok o -> order_ok o' -> o' <> o -> order_to_index o <> order_to_index o'.
Proof. unfold order_ok, order_to_index, MIN_ORDER. lia. Qed.

Lemma index_lt o : order_ok o -> (order_to_index o < NUM_ORDERS)%nat.
Proof. unfold order_ok, order_to_index, MIN_ORDER, NUM_ORDERS, MAX_ORDER, MIN_ORDER. lia. Qed.

Lemma head_set_eq s o h : order_ok o -> length (free_lists s) = NUM_ORDERS -> head (set_head s o h) o = h.
Proof.
  intros Ho Hl. unfold head, set_head. cbn. apply list_lookup_total_insert_eq. rewrite Hl. by apply index_lt.
Qed.

Lemma head_set_ne s o o' h : order_ok o -> order_ok o' -> o' <> o -> head (set_head s o h) o' = head s o'.
Proof. intros. unfold head, set_head. cbn. apply list_lookup_total_insert_ne. by apply index_ne. Qed.

Lemma not_free_clear s L o a : rep s L -> order_ok o -> clear_of L o a ->
  forall o', order_ok o' -> a ∉ L o'.
Proof. intros Hr Ho Hc o' Ho' Hin. by apply (apart_ne o a o' a Ho Ho' (Hc o' a Ho' Hin)). Qed.

(** *** The primitives keep the representation *)

Lemma add_block_rep s L o a :
  rep s L -> block_ok o a -> clear_of L o a ->
  exists s', add_block s o a = Ok s' /\ rep s' (upd L o (a :: L o)) /\
    total_memory s' = total_memory s.
Proof.
  intros Hr Hb Hc. pose proof (b_order _ _ Hb) as Ho.
  pose proof (not_free_clear s L o a Hr Ho Hc) as Hnot.
  unfold add_block. set (s1 := set_head _ o (Some a)).
  destruct (bitmap_set_spec s1 o a Hb) as (b & -> & Hbl & Hget).
  { apply Hr. }
  { intros Ht. change (bitmap s1) with (bitmap s). rewrite (r_bits _ _ Hr) by done.
    apply bool_decide_false. by apply Hnot. }
  eexists. split; [done|]. split; [|done]. split.
  - cbn. rewrite length_insert. apply Hr.
  - exact Hbl.
  - intros o' Ho'. change (phys (s1 <| bitmap := b |>)) with (<[a := head s o]> (phys s)).
    change (head (s1 <| bitmap := b |>) o') with (head s1 o').
    destruct (decide (o' = o)) as [->|Hne].
    + rewrite upd_eq. unfold s1. rewrite head_set_eq by (done || apply Hr).
      split; [done|]. rewrite lookup_insert_eq. cbn. apply linked_insert; [by apply Hnot|by apply Hr].
    + rewrite upd_ne by done. unfold s1. rewrite head_set_ne by done.
      apply linked_insert; [by apply Hnot|by apply Hr].
  - intros o' x Ho' Hx. apply elem_of_upd in Hx as [[-> Hx]|[_ Hx]]; [|by apply Hr].
    apply elem_of_cons in Hx as [->|Hx]; [done|by apply Hr].
  - intros o1 x o2 y Ho1 Ho2 Hx Hy.
    assert (forall o' z, order_ok o' -> z ∈ upd L o (a :: L o) o' -> (o' = o /\ z = a) \/ z ∈ L o') as Hcase.
    { intros o' z Ho' Hz. apply elem_of_upd in Hz as [[-> Hz]|[_ Hz]]; [|by right].
      apply elem_of_cons in Hz as [->|Hz]; auto. }
    destruct (Hcase _ _ Ho1 Hx) as [[-> ->]|Hx'], (Hcase _ _ Ho2 Hy) as [[-> ->]|Hy'].
    + by left.
    + right. by apply Hc.
    + right. by apply apart_sym, Hc.
    + by apply Hr.
  - intros o' Ho'. unfold upd. destruct (Z.eqb_spec o' o) as [->|]; [|by apply Hr].
    apply NoDup_cons. split; [by apply Hnot|by apply Hr].
  - intros o' x Ht. change (bitmap (s1 <| bitmap := b |>)) with b. rewrite Hget by done.
    change (bitmap s1) with (bitmap s). rewrite (r_bits _ _ Hr) by done.
    rewrite <- bool_decide_or. apply bool_decide_ext. rewrite elem_of_upd, elem_of_cons.
    destruct (decide (o' = o)) as [->|]; naive_solver.
Qed.

(** Removing [a] from the list of its order, whatever the way. *)
Lemma removed_rep s L o a l1 l2 fl m b :
  rep s L -> order_ok o -> L o = l1 ++ a :: l2 ->
  length fl = NUM_ORDERS -> length b = BITMAP_BYTES ->
  (forall o', order_ok o' -> linked m (fl !!! order_to_index o') (upd L o (l1 ++ l2) o')) ->
  (forall o' a', tracked o' a' ->
     Bits.get b (gbit o' a') = negb (bool_decide (o' = o /\ a' = a)) && Bits.get (bitmap s) (gbit o' a')) ->
  rep (s <| free_lists := fl |> <| bitmap := b |> <| phys := m |>) (upd L o (l1 ++ l2)).
Proof.
  intros Hr Ho HL Hfl Hbl Hlink Hget.
  assert (forall o' x, x ∈ upd L o (l1 ++ l2) o' -> x ∈ L o') as Hsub.
  { intros o' x. rewrite elem_of_upd. intros [[-> Hx]|[_ Hx]]; [|done]. rewrite HL. set_solver. }
  pose proof (r_nodup _ _ Hr o Ho) as Hnd. rewrite HL in Hnd.
  apply NoDup_app in Hnd as (Hnd1 & Hd & Hnd2). apply NoDup_cons in Hnd2 as [Ha2 Hnd2].
  split; cbn.
  - done.
  - done.
  - exact Hlink.
  - intros o' x Ho' Hx. apply Hr; auto.
  - intros o1 x o2 y Ho1 Ho2 Hx Hy. apply Hr; auto.
  - intros o' Ho'. unfold upd. destruct (Z.eqb_spec o' o); [|by apply Hr].
    apply NoDup_app. split_and!; [done| |done]. intros x Hx. specialize (Hd x Hx). set_solver.
  - intros o' x Ht. rewrite Hget, (r_bits _ _ Hr) by done.
    assert (a ∉ l1) as Ha1 by (intros Hin; apply (Hd a Hin); apply list_elem_of_here).
    rewrite <- bool_decide_not, <- bool_decide_and. apply bool_decide_ext. rewrite elem_of_upd.
    destruct (decide (o' = o)) as [->|]; [rewrite HL|]; set_solver.
Qed.

Lemma remove_from_head_rep s L o a l :
  rep s L -> order_ok o -> L o = a :: l ->
  exists s', remove_from_head s o a = Ok s' /\ rep s' (upd L o l) /\ total_memory s' = total_memory s.
Proof.
  intros Hr Ho HL. pose proof (r_linked _ _ Hr o Ho) as Hl. rewrite HL in Hl.
  destruct Hl as [Hhead Hl]. assert (a ∈ L o) as Hin by (rewrite HL; apply list_elem_of_here).
  unfold remove_from_head. rewrite bool_decide_true by done.
  set (s1 := set_head s o (next s a)).
  destruct (bitmap_clear_spec s1 o a) as (b & -> & Hbl & Hget).
  { by apply Hr. }
  { apply Hr. }
  { intros Ht. change (bitmap s1) with (bitmap s). rewrite (r_bits _ _ Hr) by done. by apply bool_decide_true. }
  eexists. split; [done|]. split; [|done].
  apply (removed_rep s L o a [] l (free_lists s1) (phys s) b); try done.
  - cbn. rewrite length_insert. apply Hr.
  - intros o' Ho'. change (free_lists s1 !!! order_to_index o') with (head s1 o').
    cbn [app]. destruct (decide (o' = o)) as [->|Hne].
    + rewrite upd_eq. unfold s1. rewrite head_set_eq by (done || apply Hr). exact Hl.
    + rewrite upd_ne by done. unfold s1. rewrite head_set_ne by done. by apply Hr.
Qed.

(** *** Removing a block from the middle of its list *)

Lemma linked_tail m h l1 p k : linked m h (l1 ++ p :: k) -> linked m (default None (m !! p)) k.
Proof.
  revert h; induction l1 as [|x l1 IH]; intros h; cbn [app linked]; [by intros [_ ?]|].
  intros [_ H]. by apply IH in H.
Qed.

Lemma scan_rep s L o a p l1 k1 k2 left :
  rep s L -> order_ok o -> L o = l1 ++ p :: k1 ++ a :: k2 -> (length k1 < left)%nat ->
  exists s', scan left s o a p = Ok (s', true) /\ rep s' (upd L o (l1 ++ p :: k1 ++ k2)) /\
    total_memory s' = total_memory s.
Proof.
  intros Hr Ho. revert p l1 k1; induction left as [|left IH]; intros p l1 k1 HL Hlen; [lia|].
  cbn [scan]. pose proof (r_linked _ _ Hr o Ho) as Hl. rewrite HL in Hl.
  pose proof (linked_tail _ _ _ _ _ Hl) as Ht. fold (next s p) in Ht.
  pose proof (r_nodup _ _ Hr o Ho) as Hnd. rewrite HL in Hnd.
  destruct k1 as [|x k1]; cbn [app linked] in Ht; destruct Ht as [-> _].
  - rewrite Z.eqb_refl. set (m := <[p := next s a]> (phys s)). set (s1 := s <| phys := m |>).
    assert (a ∈ L o) as Hin by (rewrite HL; set_solver).
    destruct (bitmap_clear_spec s1 o a) as (b & Hb & Hbl & Hget).
    { by apply Hr. }
    { apply Hr. }
    { intros Htr. change (bitmap s1) with (bitmap s). rewrite (r_bits _ _ Hr) by done. by apply bool_decide_true. }
    rewrite Hb. eexists. split; [done|]. split; [|done]. cbn [app].
    replace (l1 ++ p :: k2) with ((l1 ++ [p]) ++ k2) by by rewrite <- app_assoc.
    apply (removed_rep s L o a (l1 ++ [p]) k2 (free_lists s) m b); try done.
    + by rewrite <- app_assoc.
    + apply Hr.
    + intros o' Ho'. rewrite <- app_assoc. destruct (decide (o' = o)) as [->|Hne].
      * rewrite upd_eq. by apply linked_unlink.
      * rewrite upd_ne by done. apply linked_insert; [|by apply Hr].
        intros Hp. destruct (r_apart _ _ Hr o p o' p Ho Ho') as [[? _]|Hap]; [|done|done|].
        -- rewrite HL. set_solver.
        -- by apply (apart_ne o p o' p).
  - rewrite (proj2 (Z.eqb_neq x a)).
    + destruct (IH x (l1 ++ [p]) k1) as (s' & Hs & Hrep & Htot).
      { by rewrite <- app_assoc. }
      { cbn [length] in Hlen. lia. }
      exists s'. rewrite <- app_assoc in Hrep. done.
    + intros ->. apply NoDup_app in Hnd as (_ & _ & Hnd). apply NoDup_cons in Hnd as [_ Hnd].
      cbn in Hnd. apply NoDup_cons in Hnd as [Hnd _]. set_solver.
Qed.

Lemma remove_arbitrary_rep s L o a :
  rep s L -> order_ok o -> a ∈ L o -> (length (L o) <= S SCAN_LIMIT)%nat ->
  exists s' l, remove_arbitrary_block s o a = Ok (s', true) /\ rep s' (upd L o l) /\ L o ≡ₚ a :: l /\
    total_memory s' = total_memory s.
Proof.
  intros Hr Ho Hin Hlen. unfold remove_arbitrary_block.
  pose proof (r_linked _ _ Hr o Ho) as Hl.
  destruct (L o) as [|h k] eqn:HL; [by apply elem_of_nil in Hin|]. destruct Hl as [Hh _]. rewrite Hh.
  destruct (decide (h = a)) as [->|Hne].
  - rewrite bool_decide_true by done.
    destruct (remove_from_head_rep s L o a k Hr Ho HL) as (s' & -> & Hrep & Htot).
    exists s', k. done.
  - rewrite bool_decide_false by congruence.
    assert (a ∈ k) as Hk by (apply elem_of_cons in Hin as [->|]; done). apply list_elem_of_split in Hk as (k1 & k2 & ->).
    destruct (scan_rep s L o a h [] k1 k2 SCAN_LIMIT Hr Ho HL) as (s' & -> & Hrep & Htot).
    { cbn [length] in Hlen. rewrite length_app in Hlen. cbn [length] in Hlen. lia. }
    exists s', (h :: k1 ++ k2). split_and!; [done|done| |done].
    rewrite <- Permutation_middle. by rewrite Permutation_swap.
Qed.

(** *** Free memory *)

Lemma free_at_add L o a x : order_ok o ->
  free_at (upd L o (a :: L o)) x <-> free_at L x \/ a <= x < a + 2 ^ o.
Proof.
  intros Ho. split.
  - intros (o' & b & Ho' & Hb & Hx). apply elem_of_upd in Hb as [[-> Hb]|[_ Hb]].
    + apply elem_of_cons in Hb as [->|Hb]; [by right|]. left. by exists o, b.
    + left. by exists o', b.
  - intros [(o' & b & Ho' & Hb & Hx)|Hx].
    + exists o', b. split_and!; [done| |lia..]. apply elem_of_upd.
      destruct (decide (o' = o)) as [->|]; [left|right]; set_solver.
    + exists o, a. split_and!; [done| |lia..]. apply elem_of_upd. left. set_solver.
Qed.

Lemma elem_of_remove (L : Z -> list Z) o a l o' b : L o ≡ₚ a :: l ->
  b ∈ upd L o l o' -> b ∈ L o'.
Proof. rewrite elem_of_upd. intros Hp [[-> Hb]|[_ Hb]]; [|done]. rewrite Hp. set_solver. Qed.

Lemma remove_clear s L o a l : rep s L -> order_ok o -> L o ≡ₚ a :: l ->
  clear_of (upd L o l) o a.
Proof.
  intros Hr Ho Hp o' b Ho' Hb. assert (a ∈ L o) as Ha by (rewrite Hp; set_solver).
  pose proof (r_nodup _ _ Hr o Ho) as Hnd. rewrite Hp in Hnd. apply NoDup_cons in Hnd as [Hna _].
  destruct (r_apart _ _ Hr o a o' b Ho Ho' Ha) as [[<- <-]|]; [by apply (elem_of_remove L o a l)| |done].
  rewrite upd_eq in Hb. done.
Qed.

Lemma free_at_remove s L o a l x : rep s L -> order_ok o -> L o ≡ₚ a :: l ->
  free_at (upd L o l) x <-> free_at L x /\ ~ (a <= x < a + 2 ^ o).
Proof.
  intros Hr Ho Hp. split.
  - intros (o' & b & Ho' & Hb & Hx).
    pose proof (remove_clear s L o a l Hr Ho Hp o' b Ho' Hb) as Hap.
    split; [|unfold apart in Hap; lia]. exists o', b. split_and!; [done| |lia..].
    by apply (elem_of_remove L o a l).
  - intros [(o' & b & Ho' & Hb & Hx) Hn]. exists o', b. split_and!; [done| |lia..].
    apply elem_of_upd. destruct (decide (o' = o)) as [->|]; [left|by right].
    rewrite Hp in Hb. apply elem_of_cons in Hb as [->|]; done.
Qed.

Lemma clear_not_free L o a x : clear_of L o a -> a <= x < a + 2 ^ o -> ~ free_at L x.
Proof. intros Hc Hx (o' & b & Ho' & Hb & Hx'). pose proof (Hc o' b Ho' Hb) as Hap. unfold apart in Hap. lia. Qed.

(** *** Buddies *)

Lemma lxor_1 k : 0 <= k ->
  (k mod 2 = 0 /\ Z.lxor k 1 = k + 1) \/ ((k - 1) mod 2 = 0 /\ Z.lxor k 1 = k - 1 /\ 0 < k).
Proof.
  intros Hk. destruct k as [|[p|p|]|p]; [by left| | | |lia].
  - right. change (Zpos p~1) with (2 * Zpos p + 1). split_and!; [|done|lia].
    replace (2 * Zpos p + 1 - 1) with (Zpos p * 2) by lia. by apply Z.mod_mul.
  - left. change (Zpos p~0) with (2 * Zpos p). split; [|done]. rewrite Z.mul_comm. by apply Z.mod_mul.
  - by right.
Qed.

Lemma buddy_of_cases a o : order_ok o -> 0 <= a -> a mod 2 ^ o = 0 ->
  (a mod 2 ^ (o + 1) = 0 /\ buddy_of a o = a + 2 ^ o) \/
  ((a - 2 ^ o) mod 2 ^ (o + 1) = 0 /\ buddy_of a o = a - 2 ^ o /\ 2 ^ o <= a).
Proof.
  intros Ho Ha Hal. pose proof (pow_order o Ho) as Hpos. unfold order_ok, MIN_ORDER in Ho.
  unfold buddy_of.
  assert (exists k, a = k * 2 ^ o) as [k ->].
  { exists (a / 2 ^ o). rewrite (Z.div_mod a (2 ^ o)) at 1; lia. }
  assert (0 <= k) as Hk by nia.
  rewrite <- Z.shiftl_mul_pow2, <- Z.shiftl_lxor by lia.
  rewrite !Z.shiftl_mul_pow2, Z.pow_add_r, Z.pow_1_r by lia.
  destruct (lxor_1 k Hk) as [[Hm ->]|(Hm & -> & Hk0)]; [left|right].
  - split; [|lia]. rewrite (Z.mul_comm (2 ^ o) 2), Z.mul_mod_distr_r, Hm by lia. lia.
  - split_and!; [|lia|nia]. replace (k * 2 ^ o - 2 ^ o) with ((k - 1) * 2 ^ o) by lia.
    rewrite (Z.mul_comm (2 ^ o) 2), Z.mul_mod_distr_r, Hm by lia. lia.
Qed.

(** Two free blocks that could be merged are never both free. *)
Definition merged (L : Z -> list Z) : Prop :=
  forall o a, tracked o a -> o < MAX_ORDER -> a ∈ L o -> buddy_of a o ∉ L o.

(** The halves of a block. *)
Lemma block_halves o a :
  block_ok (o + 1) a -> MIN_ORDER <= o ->
  block_ok o a /\ block_ok o (a + 2 ^ o) /\ 2 ^ (o + 1) = 2 ^ o + 2 ^ o /\
  buddy_of (a + 2 ^ o) o = a /\ buddy_of a o = a + 2 ^ o.
Proof.
  intros [[Ho1 Ho2] Hn Hal Hf] Hlo. unfold MIN_ORDER, MAX_ORDER in *.
  assert (order_ok o) as Ho by (unfold order_ok, MIN_ORDER, MAX_ORDER; lia).
  pose proof (pow_order o Ho). rewrite Z.pow_add_r, Z.pow_1_r in Hal, Hf by lia.
  assert (exists k, a = k * (2 ^ o * 2)) as [k ->].
  { exists (a / (2 ^ o * 2)). rewrite (Z.div_mod a (2 ^ o * 2)) at 1; lia. }
  assert ((k * (2 ^ o * 2)) mod 2 ^ o = 0) as Hm1
    by (replace (k * (2 ^ o * 2)) with (2 * k * 2 ^ o) by lia; apply Z.mod_mul; lia).
  assert ((k * (2 ^ o * 2) + 2 ^ o) mod 2 ^ o = 0) as Hm2
    by (replace (k * (2 ^ o * 2) + 2 ^ o) with ((2 * k + 1) * 2 ^ o) by lia; apply Z.mod_mul; lia).
  assert (2 ^ (o + 1) = 2 ^ o * 2) as Hdbl by (rewrite Z.pow_add_r; lia).
  split_and!; [split; (done || lia)|split; (done || lia)|lia| |].
  - destruct (buddy_of_cases (k * (2 ^ o * 2) + 2 ^ o) o Ho ltac:(lia) Hm2) as [[Hmod _]|(_ & -> & _)]; [|lia].
    rewrite Hdbl, Z.add_comm, Z.mod_add, Z.mod_small in Hmod by lia. lia.
  - destruct (buddy_of_cases (k * (2 ^ o * 2)) o Ho ltac:(lia) Hm1) as [[_ ->]|(Hmod & _ & _)]; [done|].
    rewrite Hdbl in Hmod. replace (k * (2 ^ o * 2) - 2 ^ o) with (2 ^ o + (k - 1) * (2 ^ o * 2)) in Hmod by lia.
    rewrite Z.mod_add, Z.mod_small in Hmod by lia. lia.
Qed.

(** The bitmap covers both buddies or neither. *)
Lemma buddy_lt o a : tracked o a -> o < MAX_ORDER -> buddy_of a o < MAX_PHYS_ADDR.
Proof.
  intros [Ho Ha Hal] Hlt. pose proof (pow_order o Ho).
  destruct (buddy_of_cases a o Ho) as [[Hmod ->]|(_ & -> & _)]; [lia|done| |lia].
  assert (MAX_PHYS_ADDR = 2 ^ (28 - o) * 2 ^ (o + 1)) as Hmax.
  { rewrite <- Z.pow_add_r by (unfold order_ok, MIN_ORDER, MAX_ORDER in *; lia).
    replace (28 - o + (o + 1)) with 29 by lia. done. }
  assert (2 ^ (o + 1) = 2 ^ o + 2 ^ o) as Hd.
  { rewrite Z.pow_add_r by (unfold order_ok, MIN_ORDER in *; lia). lia. }
  pose proof (Z.div_mod a (2 ^ (o + 1)) ltac:(lia)) as Hdm. rewrite Hmod in Hdm.
  rewrite Hmax in *. assert (a / 2 ^ (o + 1) < 2 ^ (28 - o)) by nia. nia.
Qed.

Lemma buddy_invol a o : buddy_of (buddy_of a o) o = a.
Proof. unfold buddy_of. by rewrite Z.lxor_assoc, Z.lxor_nilpotent, Z.lxor_0_r. Qed.

Lemma merged_add L o a :
  merged L -> block_ok o a ->
  (o < MAX_ORDER -> a < MAX_PHYS_ADDR -> buddy_of a o ∉ L o) ->
  merged (upd L o (a :: L o)).
Proof.
  intros Hm Hb Hbud o' b Ht Hlt Hin. rewrite elem_of_upd in Hin. rewrite elem_of_upd, elem_of_cons.
  destruct (decide (o' = o)) as [->|Hne].
  - destruct Hin as [[_ Hin]|[? _]]; [|done]. intros [[_ Hin']|[? _]]; [|done].
    apply elem_of_cons in Hin as [->|Hin].
    + pose proof (Hbud Hlt ltac:(apply Ht)) as Hnot. destruct Hin' as [Heq|?]; [|done].
      pose proof (pow_order o (t_order _ _ Ht)).
      destruct (buddy_of_cases a o) as [[_ ?]|(_ & ? & _)]; [apply Ht|apply Ht|apply Ht|lia|lia].
    + destruct Hin' as [Heq|Hin']; [|by apply (Hm o b)].
      pose proof (buddy_lt o b Ht Hlt) as Ha. rewrite Heq in Ha.
      apply (Hbud Hlt Ha). by rewrite <- Heq, buddy_invol.
  - destruct Hin as [[? _]|[_ Hin]]; [done|]. intros [[? _]|[_ Hin']]; [done|]. by apply (Hm o' b).
Qed.

Lemma merged_remove (L : Z -> list Z) o a l : L o ≡ₚ a :: l -> merged L -> merged (upd L o l).
Proof.
  intros Hp Hm o' b Ht Hlt Hb Hb'. apply (Hm o' b); try done; by apply (elem_of_remove L o a l).
Qed.

(** *** Splitting and merging *)

Lemma phys_addr_ok a : a < 2 ^ 52 -> phys_addr a = Ok a.
Proof. intros. unfold phys_addr. by rewrite (proj2 (Z.ltb_lt _ _)). Qed.

Lemma split_loop_rep n s L a o :
  rep s L -> block_ok o a -> clear_of L o a -> Z.of_nat n <= o - MIN_ORDER ->
  exists s' L', split_loop n s a o = Ok s' /\ rep s' L' /\ total_memory s' = total_memory s /\
    block_ok (o - Z.of_nat n) a /\ clear_of L' (o - Z.of_nat n) a /\
    (forall x, free_at L' x <-> free_at L x \/ a + 2 ^ (o - Z.of_nat n) <= x < a + 2 ^ o) /\
    (merged L -> merged L').
Proof.
  revert s L o; induction n as [|n IH]; intros s L o Hr Hb Hc Hn.
  { exists s, L. rewrite Z.sub_0_r. split_and!; try done. intros x. split; [by left|intros [?|?]; [done|lia]]. }
  cbn [split_loop]. set (o1 := o - 1). assert (MIN_ORDER <= o1) as Hlo by lia.
  replace o with (o1 + 1) in Hb by lia.
  destruct (block_halves o1 a Hb Hlo) as (Hb1 & Hb2 & Hdbl & Hbud & Hbud').
  replace (o1 + 1) with o in Hb by lia. replace (o1 + 1) with o in Hdbl by lia.
  pose proof (pow_order o1 (b_order _ _ Hb1)) as Hpos.
  rewrite shiftl_order by apply Hb1. rewrite phys_addr_ok by (destruct Hb2; lia). cbn [mbind outcome_bind].
  destruct (add_block_rep s L o1 (a + 2 ^ o1) Hr Hb2) as (s1 & -> & Hr1 & Htot).
  { intros o' b Ho' Hb'. apply (apart_sub o a); [by apply Hc|lia|lia]. }
  cbn [mbind outcome_bind].
  set (L1 := upd L o1 _) in *.
  assert (clear_of L1 o1 a) as Hc1.
  { intros o' b Ho' Hb'. apply elem_of_upd in Hb' as [[-> Hb']|[_ Hb']].
    - apply elem_of_cons in Hb' as [->|Hb']; [unfold apart; lia|].
      apply (apart_sub o a); [by apply Hc|lia|lia].
    - apply (apart_sub o a); [by apply Hc|lia|lia]. }
  destruct (IH s1 L1 o1 Hr1 Hb1 Hc1 ltac:(lia)) as (s' & L' & He & Hr' & Htot' & Hb' & Hc' & Hfree & Hm).
  exists s', L'. replace (o - Z.of_nat (S n)) with (o1 - Z.of_nat n) by lia.
  split_and!; try done; [by rewrite Htot'| |].
  - intros x. rewrite Hfree. unfold L1. rewrite free_at_add by apply Hb1.
    pose proof (pow_order (o1 - Z.of_nat n) (b_order _ _ Hb')).
    assert (2 ^ (o1 - Z.of_nat n) <= 2 ^ o1) by (apply Z.pow_le_mono_r; lia).
    split; [intros [[?|?]|?]|intros [?|?]]; [by left|right; lia|right; lia|by left; left|].
    destruct (Z.lt_ge_cases x (a + 2 ^ o1)); [right; lia|left; right; lia].
  - intros HmL. apply Hm. apply merged_add; [done|done|]. intros _ _. rewrite Hbud.
    intros Hin. assert (order_ok o1) as Ho1 by apply Hb1.
    pose proof (Hc o1 a Ho1 Hin) as Hap. unfold apart in Hap. pose proof (pow_order o (b_order _ _ Hb)). lia.
Qed.

(** Lists short enough for the scan. *)
Definition short (L : Z -> list Z) : Prop :=
  forall o, order_ok o -> (length (L o) <= S SCAN_LIMIT)%nat.

Lemma short_remove (L : Z -> list Z) o a l : L o ≡ₚ a :: l -> short L -> short (upd L o l).
Proof.
  intros Hp Hs o' Ho'. specialize (Hs o' Ho'). unfold upd. destruct (Z.eqb_spec o' o) as [->|]; [|done].
  rewrite Hp in Hs. cbn [length] in Hs. lia.
Qed.

Lemma is_free_spec s L o a : rep s L -> order_ok o -> 0 <= a -> a mod 2 ^ o = 0 ->
  is_free s o a = bool_decide (a ∈ L o /\ a < MAX_PHYS_ADDR).
Proof.
  intros Hr Ho Ha Hal. destruct (Z.lt_ge_cases a MAX_PHYS_ADDR) as [Hlt|Hge].
  - rewrite is_free_get by done. rewrite (r_bits _ _ Hr) by done. apply bool_decide_ext. tauto.
  - unfold is_free. rewrite bitmap_pos_none by done. rewrite bool_decide_false; [done|]. lia.
Qed.

(** The buddy of a block, and the block the two make. *)
Lemma block_merge o a :
  block_ok o a -> o < MAX_ORDER ->
  0 <= buddy_of a o < 2 ^ 52 /\ buddy_of a o mod 2 ^ o = 0 /\ buddy_of (buddy_of a o) o = a /\
  block_ok (o + 1) (Z.min a (buddy_of a o)) /\ apart o a o (buddy_of a o) /\
  forall x, Z.min a (buddy_of a o) <= x < Z.min a (buddy_of a o) + 2 ^ (o + 1) <->
    a <= x < a + 2 ^ o \/ buddy_of a o <= x < buddy_of a o + 2 ^ o.
Proof.
  intros [Ho Hn Hal Hf] Hlt. pose proof (pow_order o Ho) as Hpos.
  assert (2 ^ (o + 1) = 2 ^ o + 2 ^ o) as Hd.
  { unfold order_ok, MIN_ORDER in Ho. rewrite Z.pow_add_r by lia. lia. }
  assert (2 ^ 52 = 2 ^ (51 - o) * 2 ^ (o + 1)) as H52.
  { unfold order_ok, MIN_ORDER, MAX_ORDER in *. rewrite <- Z.pow_add_r by lia. f_equal. lia. }
  assert (order_ok (o + 1)) as Ho1 by (unfold order_ok in *; lia).
  unfold apart. rewrite buddy_invol.
  destruct (buddy_of_cases a o Ho Hn Hal) as [[Hmod ->]|(Hmod & -> & Hge)].
  - assert (a + 2 ^ (o + 1) <= 2 ^ 52) as Hfit.
    { pose proof (Z.div_mod a (2 ^ (o + 1)) ltac:(lia)) as Hdm. rewrite Hmod in Hdm. rewrite H52 in *.
      assert (a / 2 ^ (o + 1) < 2 ^ (51 - o)) by nia. nia. }
    rewrite Z.min_l by lia. split_and!; try lia; try done.
    + rewrite <- (Z.mul_1_l (2 ^ o)) at 1. rewrite Z.mod_add by lia. done.
  - rewrite Z.min_r by lia. split_and!; try lia.
    + replace (a - 2 ^ o) with (a + (-1) * 2 ^ o) by lia. rewrite Z.mod_add by lia. done.
    + split; [done|lia|done|lia].
Qed.

Lemma coalesce_rep n s L a o :
  rep s L -> short L -> block_ok o a -> clear_of L o a -> o + Z.of_nat n = MAX_ORDER ->
  exists s' L' a' o', coalesce n s a o = Ok (s', a', o') /\ rep s' L' /\
    total_memory s' = total_memory s /\ block_ok o' a' /\ clear_of L' o' a' /\
    (forall x, free_at L' x \/ a' <= x < a' + 2 ^ o' <-> free_at L x \/ a <= x < a + 2 ^ o) /\
    (merged L -> merged L' /\ (o' < MAX_ORDER -> a' < MAX_PHYS_ADDR -> buddy_of a' o' ∉ L' o')).
Proof.
  revert s L a o; induction n as [|n IH]; intros s L a o Hr Hs Hb Hc Hn.
  { exists s, L, a, o. split_and!; try done. intros Hm. split; [done|lia]. }
  cbn [coalesce]. pose proof (b_order _ _ Hb) as Ho.
  destruct (block_merge o a Hb ltac:(lia)) as (Hrange & Hbal & Hinv & Hbm & Hap & Hunion).
  rewrite phys_addr_ok by lia. cbn [mbind outcome_bind]. set (bud := buddy_of a o) in *.
  rewrite (is_free_spec s L) by (done || lia).
  case_bool_decide as Hfree; cbn [negb].
  - destruct Hfree as [Hin Hlt].
    destruct (remove_arbitrary_rep s L o bud Hr Ho Hin (Hs o Ho)) as (s1 & l & -> & Hr1 & Hp & Htot1).
    cbn [mbind outcome_bind].
    assert (clear_of (upd L o l) (o + 1) (Z.min a bud)) as Hc1.
    { intros o' b Ho' Hb'. pose proof (remove_clear s L o bud l Hr Ho Hp o' b Ho' Hb') as H1.
      pose proof (Hc o' b Ho' (elem_of_remove L o bud l o' b Hp Hb')) as H2.
      pose proof (pow_order o' Ho'). pose proof (pow_order o Ho).
      pose proof (proj1 (Hunion (Z.min a bud)) ltac:(pose proof (pow_order (o + 1) (b_order _ _ Hbm)); lia)).
      unfold apart in *.
      assert (2 ^ (o + 1) = 2 ^ o + 2 ^ o) by (unfold order_ok, MIN_ORDER in Ho; rewrite Z.pow_add_r; lia).
      assert (Z.abs (a - bud) = 2 ^ o).
      { destruct (buddy_of_cases a o) as [[_ He]|(_ & He & _)]; [done|apply Hb|apply Hb|fold bud in He; lia|fold bud in He; lia]. }
      lia. }
    destruct (IH s1 (upd L o l) (Z.min a bud) (o + 1) Hr1 (short_remove L o bud l Hp Hs) Hbm Hc1 ltac:(lia))
      as (s' & L' & a' & o' & -> & Hr' & Htot' & Hb' & Hc' & Hx & Hm).
    exists s', L', a', o'. split_and!; try done; [by rewrite Htot'| |].
    + intros x. rewrite Hx, Hunion, (free_at_remove s L o bud l x Hr Ho Hp).
      assert (bud <= x < bud + 2 ^ o -> free_at L x) as Hbf by (intros; exists o, bud; done).
      destruct (decide (bud <= x < bud + 2 ^ o)); naive_solver.
    + intros HmL. apply Hm. by apply (merged_remove L o bud l).
  - exists s, L, a, o. split_and!; try done. intros HmL. split; [done|].
    intros _ Ha Hin. apply Hfree. split; [done|].
    apply buddy_lt; [by apply block_tracked|lia].
Qed.

(** *** Regions *)

Lemma trailing_zeros_mod z t : 0 <= z -> 0 <= t <= trailing_zeros 64 z -> z mod 2 ^ t = 0.
Proof.
  intros Hz Ht. destruct (decide (z = 0)) as [->|Hne]; [by rewrite Z.mod_0_l by (apply Z.pow_nonzero; lia)|].
  destruct (trailing_zeros_spec 64 z ltac:(lia)) as (_ & _ & Hlow).
  apply Z.bits_inj'. intros i Hi. rewrite Z.testbit_0_l.
  destruct (Z.lt_ge_cases i t).
  - rewrite Z.mod_pow2_bits_low by lia. apply Hlow. lia.
  - by rewrite Z.mod_pow2_bits_high by lia.
Qed.

Lemma trailing_zeros_ge z t : 0 <= z -> 0 <= t <= 64 -> z mod 2 ^ t = 0 -> t <= trailing_zeros 64 z.
Proof.
  intros Hz Ht Hmod. destruct (decide (z = 0)) as [->|Hne]; [cbn; lia|].
  destruct (trailing_zeros_spec 64 z ltac:(lia)) as (H0 & Hbit & _).
  destruct (Z.lt_ge_cases (trailing_zeros 64 z) t) as [Hlt|]; [|done].
  rewrite <- (Z.mod_pow2_bits_low z t), Hmod, Z.testbit_0_l in Hbit by lia. done.
Qed.

Lemma add_region_loop_rep fuel s L cur end_ :
  rep s L -> 0 <= cur -> cur mod 4096 = 0 -> end_ <= 2 ^ 52 -> cur < end_ + 4096 ->
  end_ - cur < 4096 * Z.of_nat fuel ->
  (forall x, cur <= x < end_ -> ~ free_at L x) ->
  exists s' L', add_region_loop fuel s cur end_ = Ok s' /\ rep s' L' /\
    total_memory s' = total_memory s /\
    forall x, free_at L' x <-> free_at L x \/ cur <= x < align_down 12 end_.
Proof.
  revert s L cur; induction fuel as [|fuel IH]; intros s L cur Hr H0 Hal Hend Hlt Hfuel Hfree.
  { exists s, L. split_and!; try done. intros x. pose proof (align_down_bounds 12 end_ ltac:(lia)). 
    split; [by left|intros [?|?]; [done|lia]]. }
  cbn [add_region_loop]. change (Z.shiftl 1 MIN_ORDER) with 4096.
  pose proof (align_down_bounds 12 end_ ltac:(lia)) as Hd. change (2 ^ 12) with 4096 in Hd.
  assert (align_down 12 end_ mod 4096 = 0) as Hdm by (apply (align_down_mod 12); lia).
  assert (forall x, cur mod 4096 = 0 -> ~ (4096 <= end_ - cur) -> ~ (cur <= x < align_down 12 end_)) as Hend'.
  { intros x _ Hsmall. pose proof (Z.div_mod cur 4096 ltac:(lia)).
    pose proof (Z.div_mod (align_down 12 end_) 4096 ltac:(lia)). lia. }
  destruct (Z.leb_spec end_ cur).
  { exists s, L. split_and!; try done. intros x. specialize (Hend' x Hal ltac:(lia)). tauto. }
  destruct (Z.ltb_spec (end_ - cur) 4096).
  { exists s, L. split_and!; try done. intros x. specialize (Hend' x Hal ltac:(lia)). tauto. }
  set (rem := end_ - cur) in *.
  pose proof (trailing_zeros_ge cur 12 H0 ltac:(lia) Hal) as Htz.
  assert (12 <= Z.log2 rem) as Hlog by (apply Z.log2_le_pow2; [lia|]; change (2 ^ 12) with 4096; lia).
  pose proof (Z.log2_spec rem ltac:(lia)) as [Hle _].
  set (o := Z.max (Z.min (Z.min (trailing_zeros 64 cur) (Z.log2 rem)) MAX_ORDER) MIN_ORDER).
  assert (order_ok o /\ o <= trailing_zeros 64 cur /\ o <= Z.log2 rem) as (Ho & Ho1 & Ho2)
    by (unfold o, order_ok, MIN_ORDER, MAX_ORDER in *; lia).
  assert (2 ^ o <= rem) as Hfit.
  { etrans; [|exact Hle]. apply Z.pow_le_mono_r; lia. }
  pose proof (pow_order o Ho) as Hpos.
  assert (block_ok o cur) as Hb.
  { split; [done|done| |lia]. apply trailing_zeros_mod; [done|]. unfold order_ok, MIN_ORDER in Ho. lia. }
  rewrite shiftl_order, phys_addr_ok by (done || lia). cbn [mbind outcome_bind].
  destruct (add_block_rep s L o cur Hr Hb) as (s1 & -> & Hr1 & Htot).
  { intros o' b Ho' Hb'. unfold apart. pose proof (pow_order o' Ho').
    destruct (Z.le_gt_cases (cur + 2 ^ o) b); [by left|]. right.
    destruct (Z.le_gt_cases (b + 2 ^ o') cur); [done|]. exfalso.
    apply (Hfree (Z.max b cur)); [lia|]. exists o', b. split_and!; [done|done|lia|lia]. }
  cbn [mbind outcome_bind].
  assert (2 ^ o mod 4096 = 0) as Hpm.
  { unfold order_ok, MIN_ORDER in Ho. replace o with (o - 12 + 12) by lia.
    rewrite Z.pow_add_r by lia. apply Z.mod_mul. done. }
  assert (4096 <= 2 ^ o) as Hbig.
  { change 4096 with (2 ^ 12). apply Z.pow_le_mono_r; [lia|]. apply Ho. }
  destruct (IH s1 (upd L o (cur :: L o)) (cur + 2 ^ o) Hr1) as (s' & L' & -> & Hr' & Htot' & Hx).
  - lia.
  - rewrite Z.add_mod, Hal, Hpm by lia. done.
  - done.
  - lia.
  - lia.
  - intros x Hx. rewrite free_at_add by done. intros [Hf|?]; [|lia]. apply (Hfree x); [lia|done].
  - exists s', L'. split_and!; [done|done|by rewrite Htot'|]. intros x. rewrite Hx, free_at_add by done.
    assert (cur + 2 ^ o <= align_down 12 end_) as Hstep.
    { pose proof (Z.div_mod (cur + 2 ^ o) 4096 ltac:(lia)) as Hq1.
      pose proof (Z.div_mod (align_down 12 end_) 4096 ltac:(lia)) as Hq2.
      rewrite Z.add_mod, Hal, Hpm in Hq1 by lia. change ((0 + 0) mod 4096) with 0 in Hq1. lia. }
    split; [intros [[?|?]|?]|intros [?|?]]; [by left|right; lia|right; lia|by left; left|].
    destruct (Z.lt_ge_cases x (cur + 2 ^ o)); [left; right; lia|right; lia].
Qed.

(** *** Allocation *)

Lemma find_larger_Some n s o lo a :
  find_larger n s o = Some (lo, a) -> head s lo = Some a /\ o <= lo < o + Z.of_nat n.
Proof.
  revert o; induction n as [|n IH]; intros o; cbn [find_larger]; [done|].
  destruct (head s o) as [b|] eqn:Hh.
  - intros [= <- <-]. split; [done|lia].
  - intros He. apply IH in He as [? ?]. split; [done|lia].
Qed.

Lemma find_larger_None n s o :
  find_larger n s o = None -> forall o', o <= o' < o + Z.of_nat n -> head s o' = None.
Proof.
  revert o; induction n as [|n IH]; intros o; cbn [find_larger]; [lia|].
  destruct (head s o) eqn:Hh; [done|]. intros He o' Ho'.
  destruct (decide (o' = o)) as [->|]; [done|]. apply (IH _ He). lia.
Qed.

Lemma head_None s L o : rep s L -> order_ok o -> head s o = None -> L o = [].
Proof.
  intros Hr Ho Hh. pose proof (r_linked _ _ Hr o Ho) as Hl. rewrite Hh in Hl.
  destruct (L o); [done|]. by destruct Hl.
Qed.

Lemma head_Some s L o a : rep s L -> order_ok o -> head s o = Some a -> exists l, L o = a :: l.
Proof.
  intros Hr Ho Hh. pose proof (r_linked _ _ Hr o Ho) as Hl. rewrite Hh in Hl.
  destruct (L o) as [|b l]; [done|]. destruct Hl as [[= <-] _]. by exists l.
Qed.

Lemma allocate_rep s L order :
  rep s L -> order_ok order ->
  (exists s' L' a, allocate s order = Ok (s', Some a) /\ rep s' L' /\ block_ok order a /\
     clear_of L' order a /\ (merged L -> merged L') /\
     forall x, free_at L x <-> free_at L' x \/ a <= x < a + 2 ^ order) \/
  (allocate s order = Ok (s, None) /\ forall o, order <= o <= MAX_ORDER -> L o = []).
Proof.
  intros Hr Ho. unfold allocate.
  rewrite (proj2 (Z.leb_le _ _)), (proj2 (Z.leb_le _ _)) by apply Ho. cbn [andb negb].
  assert (forall o a, order_ok o -> head s o = Some a -> exists l s1,
    remove_from_head s o a = Ok s1 /\ rep s1 (upd L o l) /\ L o ≡ₚ a :: l /\ block_ok o a) as Hpop.
  { intros o a Ho' Hh. destruct (head_Some s L o a Hr Ho' Hh) as [l HL].
    destruct (remove_from_head_rep s L o a l Hr Ho' HL) as (s1 & He & Hr1 & _).
    exists l, s1. split_and!; [done|done|by rewrite HL|]. apply Hr; [done|]. rewrite HL. apply list_elem_of_here. }
  destruct (head s order) as [a|] eqn:Hh.
  - left. destruct (Hpop order a Ho Hh) as (l & s1 & -> & Hr1 & Hp & Hb).
    exists s1, (upd L order l), a.
    pose proof (remove_clear s L order a l Hr Ho Hp) as Hc.
    split_and!; [done|done|done|done|by apply (merged_remove L order a l)|].
    intros x. rewrite (free_at_remove s L order a l x Hr Ho Hp).
    destruct (decide (a <= x < a + 2 ^ order)); [|tauto]. split; [by right|]. intros _.
    exists order, a. split_and!; [done| |lia|lia]. rewrite Hp. apply list_elem_of_here.
  - destruct (find_larger _ s (order + 1)) as [[lo a]|] eqn:Hf.
    + left. apply find_larger_Some in Hf as [Hlo Hrange].
      assert (order_ok lo) as Holo by (unfold order_ok in *; lia).
      destruct (Hpop lo a Holo Hlo) as (l & s1 & -> & Hr1 & Hp & Hb). cbn [mbind outcome_bind].
      pose proof (remove_clear s L lo a l Hr Holo Hp) as Hc.
      unfold split_block.
      destruct (split_loop_rep (Z.to_nat (lo - order)) s1 (upd L lo l) a lo Hr1 Hb Hc)
        as (s' & L' & -> & Hr' & _ & Hb' & Hc' & Hx & Hm); [unfold order_ok in *; lia|].
      replace (lo - Z.of_nat (Z.to_nat (lo - order))) with order in * by lia.
      exists s', L', a. split_and!; [done|done|done|done|intros; apply Hm; by apply (merged_remove L lo a l)|].
      intros x. rewrite Hx, (free_at_remove s L lo a l x Hr Holo Hp).
      assert (2 ^ order <= 2 ^ lo) by (apply Z.pow_le_mono_r; lia). pose proof (pow_order order Ho).
      destruct (decide (a <= x < a + 2 ^ lo)).
      * split; [intros _|intros _].
        -- destruct (Z.lt_ge_cases x (a + 2 ^ order)); [right; lia|left; right; lia].
        -- exists lo, a. split_and!; [done| |lia|lia]. rewrite Hp. apply list_elem_of_here.
      * split; [intros; left; left; done|]. intros [[?|?]|?]; [tauto|lia|lia].
    + right. split; [done|]. intros o Horange. apply (head_None s L o Hr); [unfold order_ok in *; lia|].
      destruct (decide (o = order)) as [->|]; [done|]. apply (find_larger_None _ _ _ Hf). lia.
Qed.

Lemma deallocate_rep s L order a :
  rep s L -> short L -> block_ok order a -> clear_of L order a ->
  exists s' L', deallocate s a order = Ok s' /\ rep s' L' /\ (merged L -> merged L') /\
    forall x, free_at L' x <-> free_at L x \/ a <= x < a + 2 ^ order.
Proof.
  intros Hr Hs Hb Hc. pose proof (b_order _ _ Hb) as Ho. unfold deallocate.
  rewrite (proj2 (Z.leb_le _ _)), (proj2 (Z.leb_le _ _)) by apply Ho. cbn [andb negb].
  rewrite shiftl_order, (b_aligned _ _ Hb) by done. cbn [negb Z.eqb].
  destruct (coalesce_rep (Z.to_nat (MAX_ORDER - order)) s L a order Hr Hs Hb Hc)
    as (s1 & L1 & a1 & o1 & -> & Hr1 & _ & Hb1 & Hc1 & Hx & Hm); [unfold order_ok in *; lia|].
  cbn [mbind outcome_bind].
  destruct (add_block_rep s1 L1 o1 a1 Hr1 Hb1 Hc1) as (s2 & -> & Hr2 & _).
  exists s2, (upd L1 o1 (a1 :: L1 o1)). split_and!; [done|done| |].
  - intros HmL. destruct (Hm HmL) as [HmL1 Hbud]. by apply merged_add.
  - intros x. rewrite free_at_add by apply Hb1. apply Hx.
Qed.

Lemma add_region_rep s L start end_ :
  rep s L -> 0 <= start <= end_ -> start mod 4096 = 0 -> end_ <= 2 ^ 52 ->
  total_memory s + (end_ - start) < 2 ^ 64 ->
  (forall x, start <= x < end_ -> ~ free_at L x) ->
  exists s' L', add_region s start end_ = Ok s' /\ rep s' L' /\
    total_memory s' = total_memory s + (end_ - start) /\
    forall x, free_at L' x <-> free_at L x \/ start <= x < align_down 12 end_.
Proof.
  intros Hr Hle Hal Hend Htot Hfree. unfold add_region.
  rewrite (proj2 (Z.ltb_ge _ _)), (proj2 (Z.leb_gt _ _)) by lia.
  set (s1 := s <| total_memory := _ |>).
  assert (rep s1 L) as Hr1 by (destruct Hr; by split).
  destruct (add_region_loop_rep (Z.to_nat ((end_ - start) / 4096 + 1)) s1 L start end_ Hr1)
    as (s' & L' & -> & Hr' & Htot' & Hx); try done; [lia|lia| |].
  - pose proof (Z.div_pos (end_ - start) 4096 ltac:(lia) ltac:(lia)).
    rewrite Z2Nat.id by lia. pose proof (Z.mod_pos_bound (end_ - start) 4096 ltac:(lia)).
    pose proof (Z.div_mod (end_ - start) 4096 ltac:(lia)). lia.
  - by exists s', L'.
Qed.

Lemma rep_new : rep new (fun _ => []).
Proof.
  split; try done.
  - intros o Ho. cbn. unfold head, new. cbn [free_lists].
    rewrite lookup_total_replicate_2 by by apply index_lt. done.
  - intros o a _ Ha. by apply elem_of_nil in Ha.
  - intros o a o' b _ _ Ha. by apply elem_of_nil in Ha.
  - intros o _. apply NoDup_nil_2.
  - intros o a [Ho Ha _]. cbn [bitmap new]. rewrite Bits.get_zeros by by apply gbit_range.
    by rewrite bool_decide_false by apply not_elem_of_nil.
Qed.

(** *** Walking the lists *)

Lemma count_list_linked fuel s h l :
  linked (phys s) h l -> (length l <= fuel)%nat -> count_list fuel s h = Z.of_nat (length l).
Proof.
  revert h l; induction fuel as [|fuel IH]; intros h l Hl Hlen.
  - destruct l; [|cbn in Hlen; lia]. by rewrite Hl.
  - destruct l as [|a l]; cbn [linked] in Hl; [by rewrite Hl|].
    destruct Hl as [-> Hl]. cbn [count_list length]. unfold next. rewrite (IH _ l Hl); cbn [length] in Hlen; lia.
Qed.

(** With fuel for the longest list, [free_bytes] is the size of free memory. *)
Lemma free_bytes_spec fuel s L :
  rep s L -> (forall o, order_ok o -> (length (L o) <= fuel)%nat) ->
  free_bytes fuel s = foldl (fun total i =>
    total + Z.of_nat (length (L (MIN_ORDER + Z.of_nat i))) * 2 ^ (MIN_ORDER + Z.of_nat i)) 0 (seq 0 NUM_ORDERS).
Proof.
  intros Hr Hlen. unfold free_bytes.
  assert (forall i, i ∈ seq 0 NUM_ORDERS -> order_ok (MIN_ORDER + Z.of_nat i)) as Hord.
  { intros i Hi. apply elem_of_seq in Hi. unfold order_ok, NUM_ORDERS, MIN_ORDER, MAX_ORDER in *. lia. }
  revert Hord. generalize (seq 0 NUM_ORDERS) as l. generalize 0 as acc.
  intros acc l; revert acc; induction l as [|i l IH]; intros acc Hord; [done|]. cbn [foldl].
  pose proof (Hord i ltac:(apply list_elem_of_here)) as Ho.
  rewrite (count_list_linked fuel s _ (L (MIN_ORDER + Z.of_nat i))), shiftl_order by auto using r_linked.
  apply IH. intros j Hj. apply Hord. by apply list_elem_of_further.
Qed.

(** ** A machine with its clients *)

(** The allocator together with the blocks that are handed out. *)
Record Machine := mkMachine { allocator : BuddyAllocator; held : list (Z * Z) }.

Definition in_block (x : Z) (ob : Z * Z) : Prop := ob.2 <= x < ob.2 + 2 ^ ob.1.

(** Every free list is within reach of the scan. *)
Definition scannable (s : BuddyAllocator) : Prop :=
  forall o l, order_ok o -> linked (phys s) (head s o) l -> (length l <= S SCAN_LIMIT)%nat.

(** A client allocates, frees a block it holds, or writes into one. *)
Inductive client_step : Machine -> Machine -> Prop :=
| step_alloc s h o s' a :
    order_ok o -> allocate s o = Ok (s', Some a) ->
    client_step (mkMachine s h) (mkMachine s' ((o, a) :: h))
| step_free s h1 h2 o a s' :
    scannable s -> deallocate s a o = Ok s' ->
    client_step (mkMachine s (h1 ++ (o, a) :: h2)) (mkMachine s' (h1 ++ h2))
| step_write s h ob x v :
    ob ∈ h -> in_block x ob ->
    client_step (mkMachine s h) (mkMachine (s <| phys := <[x := v]> (phys s) |>) h).

(** The blocks held are whole blocks, apart from each other and from free
    memory, and together with free memory they make up [owned]. *)
Record machine_ok (owned : Z -> Prop) (m : Machine) : Prop := {
  m_lists : exists L, rep (allocator m) L /\
    (forall o a, (o, a) ∈ held m -> clear_of L o a) /\
    (forall x, owned x <-> free_at L x \/ exists ob, ob ∈ held m /\ in_block x ob);
  m_blocks : forall o a, (o, a) ∈ held m -> block_ok o a;
  m_apart : forall i j o a o' b, held m !! i = Some (o, a) -> held m !! j = Some (o', b) ->
    i <> j -> apart o a o' b;
}.

Lemma free_clear L o a : order_ok o -> (forall x, a <= x < a + 2 ^ o -> ~ free_at L x) -> clear_of L o a.
Proof.
  intros Ho Hn o' b Ho' Hb. unfold apart. pose proof (pow_order o Ho). pose proof (pow_order o' Ho').
  destruct (Z.le_gt_cases (a + 2 ^ o) b); [by left|]. right.
  destruct (Z.le_gt_cases (b + 2 ^ o') a); [done|]. exfalso.
  apply (Hn (Z.max a b)); [lia|]. exists o', b. split_and!; [done|done|lia|lia].
Qed.

(** A block of free memory is apart from one outside it. *)
Lemma free_apart L o b o' a : order_ok o -> order_ok o' -> clear_of L o b ->
  (forall x, a <= x < a + 2 ^ o' -> free_at L x) -> apart o b o' a.
Proof.
  intros Ho Ho' Hc Hf. unfold apart. pose proof (pow_order o Ho). pose proof (pow_order o' Ho').
  destruct (Z.le_gt_cases (b + 2 ^ o) a); [by left|]. right.
  destruct (Z.le_gt_cases (a + 2 ^ o') b); [done|]. exfalso.
  apply (clear_not_free L o b (Z.max a b) Hc); [lia|]. apply Hf. lia.
Qed.

Lemma clear_mono (L L' : Z -> list Z) o a : order_ok o ->
  (forall x, free_at L' x -> free_at L x) -> clear_of L o a -> clear_of L' o a.
Proof.
  intros Ho Hsub Hc. apply free_clear; [done|]. intros x Hx Hf. by apply (clear_not_free L o a x Hc Hx), Hsub.
Qed.

(** The lists are determined by the state. *)
Lemma rep_fun s L L' o : rep s L -> rep s L' -> order_ok o -> L o = L' o.
Proof. intros Hr Hr' Ho. apply (linked_inj (phys s) (head s o)); [by apply Hr|by apply Hr']. Qed.

Lemma merged_fun s L L' : rep s L -> rep s L' -> merged L -> merged L'.
Proof.
  intros Hr Hr' Hm o a Ht. rewrite <- (rep_fun s L L' o Hr Hr' (t_order _ _ Ht)). by apply Hm.
Qed.

(** No two free buddies are left apart. *)
Definition fully_merged (s : BuddyAllocator) : Prop := exists L, rep s L /\ merged L.

Lemma client_alloc_ok owned s h o s' a :
  machine_ok owned (mkMachine s h) -> order_ok o -> allocate s o = Ok (s', Some a) ->
  machine_ok owned (mkMachine s' ((o, a) :: h)) /\ (fully_merged s -> fully_merged s').
Proof.
  intros [(L & Hr & Hc & Hown) Hb Hap] Ho Ha. cbn [allocator held] in *.
  destruct (allocate_rep s L o Hr Ho) as [(s1 & L' & a1 & He & Hr' & Hba & Hca & Hm' & Hx)|[He _]];
    rewrite Ha in He; [|done]. injection He as <- <-.
  assert (forall o' b, (o', b) ∈ h -> apart o a o' b) as Hnew.
  { intros o' b Hin. pose proof (Hb _ _ Hin) as Hbb.
    apply apart_sym, (free_apart L o' b o a); [apply Hbb|done|by apply Hc|]. intros x ?. apply Hx. by right. }
  split; [split; cbn [allocator held]|].
  - exists L'. split_and!; [done| |].
    + intros o' b Hin. apply elem_of_cons in Hin as [[= -> ->]|Hin]; [done|].
      apply (clear_mono L); [apply (Hb _ _ Hin)| |by apply Hc]. intros x Hf. apply Hx. by left.
    + intros x. rewrite Hown, Hx. setoid_rewrite elem_of_cons. unfold in_block.
      split; [intros [[?|?]|(ob & ? & ?)]|intros [?|(ob & [->|?] & ?)]]; eauto 6.
  - intros o' b Hin. apply elem_of_cons in Hin as [[= -> ->]|Hin]; [done|by apply Hb].
  - intros [|i] [|j] o1 a1 o2 a2 H1 H2 Hne; cbn in H1, H2; try done.
    + injection H1 as <- <-. apply Hnew. by apply list_elem_of_lookup_2 in H2.
    + injection H2 as <- <-. apply apart_sym, Hnew. by apply list_elem_of_lookup_2 in H1.
    + apply (Hap i j); [done|done|lia].
  - intros (L0 & Hr0 & Hm0). exists L'. split; [done|]. apply Hm', (merged_fun s L0 L Hr0 Hr Hm0).
Qed.

(** Positions in a list with one element taken out. *)
Lemma lookup_without {A} (h1 h2 : list A) y k p :
  (h1 ++ h2) !! k = Some p ->
  (h1 ++ y :: h2) !! (if decide (k < length h1)%nat then k else S k) = Some p.
Proof.
  intros Hk. destruct (decide (k < length h1)%nat).
  - rewrite lookup_app_l in Hk |- * by done. done.
  - rewrite lookup_app_r in Hk |- * by lia.
    replace (S k - length h1)%nat with (S (k - length h1)) by lia. done.
Qed.

Lemma client_free_ok owned s h1 h2 o a s' :
  machine_ok owned (mkMachine s (h1 ++ (o, a) :: h2)) -> scannable s -> deallocate s a o = Ok s' ->
  machine_ok owned (mkMachine s' (h1 ++ h2)) /\ (fully_merged s -> fully_merged s').
Proof.
  intros [(L & Hr & Hc & Hown) Hb Hap] Hs Hd. cbn [allocator held] in *.
  assert ((o, a) ∈ h1 ++ (o, a) :: h2) as Hin by set_solver.
  assert (short L) as Hsh by (intros o' Ho'; apply (Hs o' (L o') Ho'); by apply Hr).
  destruct (deallocate_rep s L o a Hr Hsh (Hb _ _ Hin) (Hc _ _ Hin)) as (s1 & L' & He & Hr' & Hm' & Hx).
  rewrite Hd in He. injection He as <-.
  assert (forall o' b, (o', b) ∈ h1 ++ h2 -> (o', b) ∈ h1 ++ (o, a) :: h2 /\ apart o a o' b) as Hrest.
  { intros o' b Hin'. split; [set_solver|]. apply list_elem_of_lookup_1 in Hin' as [j Hj].
    eapply (Hap (length h1) _); [by rewrite list_lookup_middle|by apply lookup_without|].
    case_decide; lia. }
  split; [split; cbn [allocator held]|].
  - exists L'. split_and!; [done| |].
    + intros o' b Hin'. destruct (Hrest _ _ Hin') as [Hin2 Hap2].
      apply free_clear; [apply (Hb _ _ Hin2)|]. intros x Hxb Hf. apply Hx in Hf as [Hf|Hf].
      * by apply (clear_not_free L o' b x (Hc _ _ Hin2)).
      * unfold apart in Hap2. lia.
    + intros x. rewrite Hown, Hx. setoid_rewrite elem_of_app. setoid_rewrite elem_of_cons. unfold in_block.
      split; [intros [?|(ob & [?|[->|?]] & ?)]|intros [[?|?]|(ob & [?|?] & ?)]]; eauto 8.
  - intros o' b Hin'. apply Hb, Hrest, Hin'.
  - intros i j o1 a1 o2 a2 H1 H2 Hne.
    eapply Hap; [apply (lookup_without _ _ (o, a)), H1|apply (lookup_without _ _ (o, a)), H2|].
    repeat case_decide; lia.
  - intros (L0 & Hr0 & Hm0). exists L'. split; [done|]. apply Hm', (merged_fun s L0 L Hr0 Hr Hm0).
Qed.

(** A write outside free memory does not touch the lists. *)
Lemma rep_write s L x v : rep s L -> ~ free_at L x -> rep (s <| phys := <[x := v]> (phys s) |>) L.
Proof.
  intros [H1 H2 H3 H4 H5 H6 H7] Hx. split; try done.
  intros o Ho. cbn [phys update_field]. apply linked_insert; [|by apply H3].
  intros Hin. apply Hx. exists o, x. pose proof (pow_order o Ho). split_and!; [done|done|lia|lia].
Qed.

Lemma client_step_ok owned m m' :
  machine_ok owned m -> client_step m m' ->
  machine_ok owned m' /\ (fully_merged (allocator m) -> fully_merged (allocator m')).
Proof.
  intros Hok Hstep. destruct Hstep as [s h o s' a Ho Ha|s h1 h2 o a s' Hs Hd|s h ob x v Hin Hx].
  - exact (client_alloc_ok owned s h o s' a Hok Ho Ha).
  - exact (client_free_ok owned s h1 h2 o a s' Hok Hs Hd).
  - destruct Hok as [(L & Hr & Hc & Hown) Hb Hap]. cbn [allocator held] in *.
    assert (~ free_at L x) as Hnot by (destruct ob as [o b]; by apply (clear_not_free L o b x (Hc _ _ Hin))).
    pose proof (rep_write s L x v Hr Hnot) as Hr'. split.
    + split; [|done|done]. exists L. done.
    + intros (L0 & Hr0 & Hm0). exists L. split; [done|]. apply (merged_fun s L0 L Hr0 Hr Hm0).
Qed.

(** ** Properties *)

(** C2: physical memory is conserved.  Whatever sequence of allocations, frees
    of held blocks and writes into held blocks the clients perform (frees while
    every free list is within the 4097 nodes the scan covers), the blocks held
    are aligned, disjoint from each other and from free memory, and held and
    free memory together are exactly the memory the allocator started with; if
    no two free buddies were unmerged at the start, none are at the end. *)
Theorem memory_conserved owned m m' :
  machine_ok owned m -> rtc client_step m m' ->
  machine_ok owned m' /\ (fully_merged (allocator m) -> fully_merged (allocator m')).
Proof.
  intros Hok Hsteps. induction Hsteps as [|m1 m2 m3 H12 _ IH]; [done|].
  destruct (client_step_ok owned m1 m2 Hok H12) as [Hok2 Hm]. destruct (IH Hok2). auto.
Qed.

(** C7: allocation.  On a well-formed allocator, for an order in range, it
    returns a block of that size, aligned to it, that was free, and free memory
    shrinks by exactly that block; or it returns nothing, changes nothing, and
    then no free block of that order or above exists. *)
Theorem allocate_spec s L order :
  rep s L -> order_ok order ->
  (exists s' L' a, allocate s order = Ok (s', Some a) /\ rep s' L' /\ block_ok order a /\
     (forall x, a <= x < a + 2 ^ order -> free_at L x) /\
     forall x, free_at L' x <-> free_at L x /\ ~ (a <= x < a + 2 ^ order)) \/
  (allocate s order = Ok (s, None) /\ forall o, order <= o <= MAX_ORDER -> L o = []).
Proof.
  intros Hr Ho. destruct (allocate_rep s L order Hr Ho) as [(s' & L' & a & He & Hr' & Hb & Hc & _ & Hx)|?]; [left|by right].
  exists s', L', a. split_and!; [done|done|done| |].
  - intros x Hin. apply Hx. by right.
  - intros x. rewrite Hx. pose proof (clear_not_free L' order a x Hc). tauto.
Qed.

(** C8: freeing.  A block given back to a well-formed allocator, aligned,
    outside free memory, with every free list within reach of the scan, is
    merged with its free buddies as far as possible: the call succeeds, free
    memory grows by exactly the block, and if no two free buddies were left
    apart before, none are after. *)
Theorem deallocate_spec s L order a :
  rep s L -> short L -> block_ok order a -> clear_of L order a ->
  exists s' L', deallocate s a order = Ok s' /\ rep s' L' /\ (merged L -> merged L') /\
    forall x, free_at L' x <-> free_at L x \/ a <= x < a + 2 ^ order.
Proof. apply deallocate_rep. Qed.

(** Boot.  Handing a page-aligned region that holds no free memory to a
    well-formed allocator makes exactly its whole pages free and counts its
    size. *)
Theorem add_region_spec s L start end_ :
  rep s L -> 0 <= start <= end_ -> start mod 4096 = 0 -> end_ <= 2 ^ 52 ->
  total_memory s + (end_ - start) < 2 ^ 64 ->
  (forall x, start <= x < end_ -> ~ free_at L x) ->
  exists s' L', add_region s start end_ = Ok s' /\ rep s' L' /\
    total_memory s' = total_memory s + (end_ - start) /\
    forall x, free_at L' x <-> free_at L x \/ start <= x < align_down 12 end_.
Proof. apply add_region_rep. Qed.

(** *** Lists past the scan limit *)

Lemma scan_gives_up s L o a p l1 k1 k2 left :
  rep s L -> order_ok o -> L o = l1 ++ p :: k1 ++ a :: k2 -> (left <= length k1)%nat ->
  scan left s o a p = (s1 ← bitmap_clear s o a; Ok (s1, false)).
Proof.
  intros Hr Ho. revert p l1 k1; induction left as [|left IH]; intros p l1 k1 HL Hlen; [done|].
  cbn [scan]. pose proof (r_linked _ _ Hr o Ho) as Hl. rewrite HL in Hl.
  pose proof (linked_tail _ _ _ _ _ Hl) as Ht. fold (next s p) in Ht.
  pose proof (r_nodup _ _ Hr o Ho) as Hnd. rewrite HL in Hnd.
  destruct k1 as [|x k1]; [cbn in Hlen; lia|]. cbn [app linked] in Ht. destruct Ht as [-> _].
  rewrite (proj2 (Z.eqb_neq x a)).
  - apply (IH x (l1 ++ [p]) k1); [by rewrite <- app_assoc|cbn [length] in Hlen; lia].
  - intros ->. apply NoDup_app in Hnd as (_ & _ & Hnd). apply NoDup_cons in Hnd as [_ Hnd].
    cbn in Hnd. apply NoDup_cons in Hnd as [Hnd _]. set_solver.
Qed.

(** A buddy deep in a long free list.  When the block being freed has a
    free buddy with more than 4096 nodes in front of it in its list, the scan
    gives up: the buddy stays in the list but its bit is cleared, and from then
    on, as soon as the buddy reaches the head of its list, an allocation of
    that order panics. *)
Theorem long_list_breaks_allocator s L o a h k1 k2 :
  rep s L -> tracked o a -> L o = h :: k1 ++ a :: k2 -> (SCAN_LIMIT <= length k1)%nat ->
  exists s', remove_arbitrary_block s o a = Ok (s', false) /\
    linked (phys s') (head s' o) (L o) /\ is_free s' o a = false /\
    forall t, bitmap t = bitmap s' -> head t o = Some a -> allocate t o = Panic.
Proof.
  intros Hr Ht HL Hlen. pose proof (t_order _ _ Ht) as Ho.
  pose proof (r_linked _ _ Hr o Ho) as Hl. pose proof Hl as Hl'. rewrite HL in Hl'.
  destruct Hl' as [Hh _]. pose proof (r_nodup _ _ Hr o Ho) as Hnd. rewrite HL in Hnd.
  apply NoDup_cons in Hnd as [Hnh _]. assert (a ∈ L o) as Hin by (rewrite HL; set_solver).
  unfold remove_arbitrary_block. rewrite Hh, bool_decide_false by (intros [= ->]; set_solver).
  rewrite (scan_gives_up s L o a h [] k1 k2 SCAN_LIMIT Hr Ho HL Hlen).
  destruct (bitmap_clear_spec s o a) as (b & -> & Hbl & Hget).
  { by apply Hr. }
  { apply Hr. }
  { intros _. rewrite (r_bits _ _ Hr) by done. by apply bool_decide_true. }
  eexists. split; [done|]. split; [exact Hl|].
  assert (Bits.get b (gbit o a) = false) as Hoff by (rewrite Hget, bool_decide_true by done; done).
  split; [by rewrite is_free_get|]. intros t Hbt Hht. unfold allocate.
  rewrite (proj2 (Z.leb_le _ _)), (proj2 (Z.leb_le _ _)) by apply Ho. cbn [andb negb].
  rewrite Hht. unfold remove_from_head. rewrite bool_decide_true by done.
  unfold bitmap_clear. rewrite bitmap_pos_gbit by apply Ht. cbn [bitmap set_head update_field].
  rewrite Hbt. unfold Bits.get, Bits.masked in Hoff. apply negb_false_iff in Hoff. cbn in Hoff |- *.
  by rewrite Hoff.
Qed.

(** ** Concrete allocators for the witnesses *)

(** 64 KiB of memory at 1 MiB. *)
Definition demo : BuddyAllocator :=
  match add_region new 1048576 1114112 with Ok s => s | _ => new end.

Lemma demo_rep : exists L, rep demo L /\ forall x, free_at L x <-> 1048576 <= x < 1114112.
Proof.
  destruct (add_region_rep new (fun _ => []) 1048576 1114112 rep_new) as (s' & L & He & Hr & _ & Hx).
  - lia.
  - reflexivity.
  - vm_compute; discriminate.
  - vm_compute; reflexivity.
  - intros x _ (o & a & _ & Ha & _). by apply elem_of_nil in Ha.
  - exists L. unfold demo. rewrite He. split; [exact Hr|]. clear He. intros x. rewrite Hx.
    assert (align_down 12 1114112 = 1114112) as -> by reflexivity. split; [|intros H; right; exact H].
    intros [(o & a & _ & Ha & _)|Hx']; [by apply elem_of_nil in Ha|exact Hx'].
Qed.

Lemma memory_conserved_witness :
  exists m', rtc client_step (mkMachine demo []) m' /\
    machine_ok (fun x => 1048576 <= x < 1114112) m' /\ (snd <$> held m') = [1048576].
Proof.
  assert (machine_ok (fun x => 1048576 <= x < 1114112) (mkMachine demo [])) as Hok.
  { destruct demo_rep as (L & Hr & Hx). split; cbn [allocator held].
    - exists L. split_and!; [done| |].
      + intros o a Hin. by apply elem_of_nil in Hin.
      + intros x. rewrite Hx. split; [by left|]. intros [?|(ob & Hin & _)]; [done|by apply elem_of_nil in Hin].
    - intros o a Hin. by apply elem_of_nil in Hin.
    - intros i j o a o' b Hi. done. }
  destruct (allocate demo 13) as [[s' [a|]]| |] eqn:He.
  - assert (a = 1048576) as ->.
    { apply (f_equal (fun r => match r with Ok (_, Some b) => b | _ => 0 end)) in He.
      revert He. vm_compute. congruence. }
    assert (rtc client_step (mkMachine demo []) (mkMachine s' [(13, 1048576)])) as Hsteps.
    { apply rtc_once. apply step_alloc; [split; vm_compute; discriminate|exact He]. }
    exists (mkMachine s' [(13, 1048576)]). split; [exact Hsteps|]. split; [|reflexivity].
    exact (proj1 (memory_conserved _ _ _ Hok Hsteps)).
  - exfalso. apply (f_equal (fun r => match r with Ok (_, Some b) => b | _ => 0 end)) in He.
    revert He. vm_compute. discriminate.
  - destruct e.
  - exfalso. apply (f_equal (fun r => match r with Ok (_, Some b) => b | _ => 0 end)) in He.
    revert He. vm_compute. discriminate.
Defined.

Lemma allocate_spec_witness : exists s' a, allocate demo 12 = Ok (s', Some a) /\ 1048576 <= a < 1114112.
Proof.
  destruct demo_rep as (L & Hr & Hx).
  assert (order_ok 12) as Ho by (split; vm_compute; discriminate).
  destruct (allocate_spec demo L 12 Hr Ho) as [(s' & L' & a & He & _ & _ & Hf & _)|[_ Hnone]].
  - exists s', a. split; [exact He|]. apply Hx, Hf. split; [lia|]. change (2 ^ 12) with 4096. lia.
  - exfalso. destruct (proj2 (Hx 1048576) ltac:(lia)) as (o & a & Hoo & Ha & _).
    rewrite Hnone in Ha by exact Hoo. by apply elem_of_nil in Ha.
Defined.

Lemma deallocate_spec_witness : exists s', deallocate new 4096 12 = Ok s'.
Proof.
  destruct (deallocate_spec new (fun _ => []) 12 4096 rep_new) as (s' & L' & He & _).
  - intros o _. cbn. lia.
  - split; [split; vm_compute; discriminate|lia|reflexivity|vm_compute; discriminate].
  - intros o b _ Hb. by apply elem_of_nil in Hb.
  - exists s'. exact He.
Defined.

Lemma add_region_spec_witness :
  exists s', add_region new 1048576 1114112 = Ok s' /\ total_memory s' = 65536.
Proof.
  destruct (add_region_spec new (fun _ => []) 1048576 1114112 rep_new) as (s' & L' & He & _ & Ht & _).
  - lia.
  - reflexivity.
  - vm_compute; discriminate.
  - vm_compute; reflexivity.
  - intros x _ (o & a & _ & Ha & _). by apply elem_of_nil in Ha.
  - exists s'. split; [exact He|exact Ht].
Defined.

(** Every other page of the first megabytes, freed one after the other. *)
Fixpoint stack (n : nat) : BuddyAllocator :=
  match n with
  | O => new
  | S n' => match add_block (stack n') 12 (8192 * Z.of_nat n') with Ok s => s | _ => new end
  end.
Fixpoint stack_lists (n : nat) : Z -> list Z :=
  match n with
  | O => fun _ => []
  | S n' => upd (stack_lists n') 12 (8192 * Z.of_nat n' :: stack_lists n' 12)
  end.
Fixpoint pages (n : nat) : list Z :=
  match n with O => [] | S n' => 8192 * Z.of_nat n' :: pages n' end.

Lemma stack_lists_spec n o : stack_lists n o = if o =? 12 then pages n else [].
Proof.
  revert o; induction n as [|n IH]; intros o; cbn [stack_lists pages]; [by case_match|].
  unfold upd. rewrite !IH. by destruct (o =? 12).
Qed.

Lemma elem_of_pages n x : x ∈ pages n -> exists i : nat, x = 8192 * Z.of_nat i /\ (i < n)%nat.
Proof.
  induction n as [|n IH]; cbn [pages]; [intros H; by apply elem_of_nil in H|].
  rewrite elem_of_cons. intros [->|Hx]; [exists n; lia|]. destruct (IH Hx) as (i & -> & ?). exists i. lia.
Qed.

Lemma stack_rep n : Z.of_nat n <= 10000 -> rep (stack n) (stack_lists n).
Proof.
  induction n as [|n IH]; intros Hn; cbn [stack stack_lists]; [exact rep_new|].
  destruct (add_block_rep (stack n) (stack_lists n) 12 (8192 * Z.of_nat n)) as (s' & He & Hr & _).
  - apply IH. lia.
  - split; [split; vm_compute; discriminate|lia| |].
    + replace (8192 * Z.of_nat n) with (2 * Z.of_nat n * 2 ^ 12) by lia. apply Z.mod_mul. done.
    + change (2 ^ 12) with 4096. change (2 ^ 52) with 4503599627370496. lia.
  - intros o b Ho Hb. rewrite stack_lists_spec in Hb. destruct (Z.eqb_spec o 12) as [->|].
    + apply elem_of_pages in Hb as (i & -> & Hi). unfold apart. change (2 ^ 12) with 4096. lia.
    + by apply elem_of_nil in Hb.
  - by rewrite He.
Qed.

(** The pages above the lowest one. *)
Fixpoint upper_pages (n : nat) : list Z :=
  match n with O => [] | S n' => 8192 * Z.of_nat n :: upper_pages n' end.

Lemma pages_split n : pages (S n) = upper_pages n ++ [0].
Proof. induction n as [|n IH]; [done|]. change (pages (S (S n))) with (8192 * Z.of_nat (S n) :: pages (S n)). by rewrite IH. Qed.

Lemma length_upper_pages n : length (upper_pages n) = n.
Proof. induction n; cbn; auto. Qed.

Lemma long_list_breaks_allocator_witness :
  exists s', remove_arbitrary_block (stack 4098) 12 0 = Ok (s', false) /\ is_free s' 12 0 = false.
Proof.
  destruct (long_list_breaks_allocator (stack 4098) (stack_lists 4098) 12 0
              (8192 * Z.of_nat 4097) (upper_pages 4096) []) as (s' & H1 & _ & H2 & _).
  - apply stack_rep. lia.
  - split; [split; vm_compute; discriminate|split; [lia|reflexivity]|reflexivity].
  - rewrite stack_lists_spec, Z.eqb_refl. exact (pages_split 4097).
  - rewrite length_upper_pages. apply le_n.
  - exists s'. split; [exact H1|exact H2].
Defined.

End Buddy.
