(* ===== verification/Frames.v ===== *)
(** The interface between the buddy allocator and its clients
    ([kernel/src/allocator/mod.rs]: [phys_alloc] and [phys_free]), as a class,
    with the buddy allocator as an instance.  The memory-management and heap
    layers are proved against the class. *)

From Stdlib Require Import ZArith Lia.
From stdpp Require Import base numbers gmap list.
From S2P Require Import Prelude Bits Buddy.

Local Open Scope Z_scope.

Definition in_frame (o f x : Z) : Prop := f <= x < f + 2 ^ o.

(** A source of physical blocks.  [available a x] says that the address [x]
    is free; [ready a] is what freeing relies on. *)
Class FrameSource (A : Type) := {
  phys_alloc : A -> Z -> may_panic (A * option Z);
  phys_free : A -> Z -> Z -> may_panic A;
  source_ok : A -> Prop;
  ready : A -> Prop;
  available : A -> Z -> Prop;
  alloc_law : forall a o, source_ok a -> Buddy.order_ok o ->
    exists a' r, phys_alloc a o = Ok (a', r) /\ source_ok a' /\
      match r with
      | Some f => Buddy.block_ok o f /\ (forall x, in_frame o f x -> available a x) /\
          forall x, available a' x <-> available a x /\ ~ in_frame o f x
      | None => a' = a
      end;
  free_law : forall a f o, source_ok a -> ready a -> Buddy.block_ok o f ->
    (forall x, in_frame o f x -> ~ available a x) ->
    exists a', phys_free a f o = Ok a' /\ source_ok a' /\
      forall x, available a' x <-> available a x \/ in_frame o f x;
}.

(** What [phys_alloc] and [phys_free] do to the global allocator. *)
Definition buddy_alloc (s : Buddy.BuddyAllocator) (o : Z) : may_panic (Buddy.BuddyAllocator * option Z) :=
  Buddy.allocate s o.
Definition buddy_free (s : Buddy.BuddyAllocator) (f o : Z) : may_panic Buddy.BuddyAllocator :=
  Buddy.deallocate s f o.

Definition buddy_available (s : Buddy.BuddyAllocator) (x : Z) : Prop :=
  exists L, Buddy.rep s L /\ Buddy.free_at L x.

Lemma buddy_available_rep s L x : Buddy.rep s L -> buddy_available s x <-> Buddy.free_at L x.
Proof.
  intros Hr. split; [|intros H; by exists L].
  intros (L' & Hr' & o & a & Ho & Ha & Hx). exists o, a.
  by rewrite (Buddy.rep_fun s L L' o Hr Hr' Ho).
Qed.

(** Free lists a walk reaches the end of are within reach of the scan. *)
Lemma walk_ends fuel s h l : Buddy.linked (Buddy.phys s) h l ->
  Buddy.count_list fuel s h < Z.of_nat fuel -> (length l < fuel)%nat.
Proof.
  revert h l. induction fuel as [|fuel IH]; intros h l Hl Hc; [cbn in Hc; lia|].
  destruct l as [|a l]; cbn [Buddy.linked] in Hl; [cbn; lia|]. destruct Hl as [-> Hl]. cbn [Buddy.count_list] in Hc.
  pose proof (IH _ l Hl). unfold Buddy.next in Hc. cbn [length]. lia.
Qed.

Definition walkable (fuel : nat) (s : Buddy.BuddyAllocator) : bool :=
  forallb (fun i => Buddy.count_list fuel s (Buddy.head s (Buddy.MIN_ORDER + Z.of_nat i)) <? Z.of_nat fuel) (seq 0 Buddy.NUM_ORDERS).

Lemma walkable_scannable fuel s : (fuel <= S (S Buddy.SCAN_LIMIT))%nat -> walkable fuel s = true -> Buddy.scannable s.
Proof.
  intros Hf Hw o l Ho Hl. unfold walkable in Hw. rewrite forallb_forall in Hw.
  unfold Buddy.order_ok in Ho. specialize (Hw (Z.to_nat (o - Buddy.MIN_ORDER))).
  replace (Buddy.MIN_ORDER + Z.of_nat (Z.to_nat (o - Buddy.MIN_ORDER))) with o in Hw by lia.
  apply Z.ltb_lt, (walk_ends _ _ _ l Hl) in Hw; [lia|]. apply in_seq.
  assert (Z.of_nat Buddy.NUM_ORDERS = Buddy.MAX_ORDER - Buddy.MIN_ORDER + 1) by done. lia.
Qed.

#[global, program] Instance buddy_source : FrameSource Buddy.BuddyAllocator := {|
  phys_alloc := buddy_alloc;
  phys_free := buddy_free;
  source_ok := fun s => exists L, Buddy.rep s L;
  ready := Buddy.scannable;
  available := buddy_available;
|}.
Next Obligation.
  intros s o [L Hr] Ho.
  destruct (Buddy.allocate_rep s L o Hr Ho) as [(s' & L' & f & He & Hr' & Hb & Hc & _ & Hx)|[He _]].
  - exists s', (Some f). split; [exact He|]. split; [by exists L'|]. split; [done|]. split.
    + intros x Hin. rewrite (buddy_available_rep s L x Hr). apply Hx. by right.
    + intros x. rewrite (buddy_available_rep s L x Hr), (buddy_available_rep s' L' x Hr'), Hx.
      pose proof (Buddy.clear_not_free L' o f x Hc). unfold in_frame. tauto.
  - exists s, None. split; [exact He|]. split; [by exists L|done].
Qed.
Next Obligation.
  intros s f o [L Hr] Hready Hb Hno.
  assert (Buddy.clear_of L o f) as Hc.
  { apply Buddy.free_clear; [apply Hb|]. intros x Hx Hf. apply (Hno x Hx). by rewrite (buddy_available_rep s L x Hr). }
  assert (Buddy.short L) as Hs by (intros o' Ho'; apply (Hready o' (L o') Ho'); by apply Hr).
  destruct (Buddy.deallocate_rep s L o f Hr Hs Hb Hc) as (s' & L' & He & Hr' & _ & Hx).
  exists s'. split; [exact He|]. split; [by exists L'|]. intros x.
  rewrite (buddy_available_rep s L x Hr), (buddy_available_rep s' L' x Hr'). apply Hx.
Qed.
