(* ===== verification/Slab.v ===== *)
(** The kernel heap: [kernel/src/allocator/slab.rs], the global allocator.

    Requests of up to 2048 bytes come from nine caches of objects of one size,
    whose free lists run through the free objects themselves; larger ones are
    whole blocks of the frame source.  [Heap] is the allocator with its source
    of frames and the bytes of the window through which the kernel sees
    physical memory; the source keeps its own lists in memory the heap does not
    hold. *)

From Stdlib Require Import ZArith Lia.
From stdpp Require Import base numbers gmap list.
From S2P Require Import Prelude Bits Buddy Frames.

Local Open Scope Z_scope.

Module Slab.

(** ** Model *)

Definition SLAB_SIZES : list Z := [8; 16; 32; 64; 128; 256; 512; 1024; 2048].
Definition NUM_SLABS : nat := length SLAB_SIZES.
Definition MAX_SLAB_SIZE : Z := 2048.
Definition PAGE_SIZE : Z := 4096.
Definition PAGE_ORDER : Z := 12.

(** [usize] addition with the overflow check. *)
Definition add_usize {E} (a b : Z) : outcome E Z := if a + b <? 2 ^ 64 then Ok (a + b) else Panic.

(** [usize::next_power_of_two], which panics when it does not fit. *)
Definition next_power_of_two (x : Z) : may_panic Z := let p := 2 ^ Z.log2_up x in if p <? 2 ^ 64 then Ok p else Panic.
Definition is_power_of_two (x : Z) : bool := (0 <? x) && (Z.land x (x - 1) =? 0).

Definition size_to_buddy_order (size : Z) : may_panic Z :=
  total ← add_usize size PAGE_SIZE;
  let pages := (total - 1) / PAGE_SIZE in
  if pages <=? 1 then Ok PAGE_ORDER
  else p ← next_power_of_two pages; Ok (PAGE_ORDER + trailing_zeros 64 p).

(** [core::alloc::Layout]. *)
Record Layout := mkLayout { size : Z; align : Z }.

Record SlabCache := mkCache {
  free_list : option Z;
  total_objects : Z;
  used_objects : Z;
}.

#[export] Instance SlabCache_fields : Fields SlabCache := fun c => mkCache (free_list c) (total_objects c) (used_objects c).

Definition cache_new : SlabCache := mkCache None 0 0.

(** [SlabAllocator] with what it uses. *)
Record Heap (A : Type) := mkHeap {
  caches : list SlabCache;
  source : A;
  bytes : mem;
}.
Global Arguments mkHeap {A} _ _ _.
Global Arguments caches {A} _.
Global Arguments source {A} _.
Global Arguments bytes {A} _.

Definition new {A} (a : A) (m : mem) : Heap A := mkHeap (replicate NUM_SLABS cache_new) a m.

Definition slab_index (sz : Z) : option nat := position (fun s => sz <=? s) SLAB_SIZES.

(** [FreeObject] in memory: a pointer, null at the end. *)
Definition ptr_bytes (p : option Z) : list Z := to_le 8 (default 0 p).
Definition read_next (m : mem) (p : Z) : option Z := let x := from_le (read_bytes m p 8) in if x =? 0 then None else Some x.

(** [core::ptr::write_bytes]. *)
Definition fill (m : mem) (p b n : Z) : mem := write_bytes m p (replicate (Z.to_nat n) b).

Section slab.
Context {A : Type} `{FrameSource A}.
Variable phys_offset : Z.
Implicit Types (h : Heap A) (c : SlabCache) (m : mem) (a : A).

(** [phys_offset + phys_addr.as_u64()], as a pointer. *)
Definition phys_to_virt (p : Z) : may_panic Z := x ← add_usize phys_offset p; virt_addr x.

(** The loop of [expand]: object [i] and the [n - 1] after it. *)
Fixpoint expand_loop (n : nat) (i page_ptr object_size : Z) (free : option Z) m : option Z * mem :=
  match n with
  | O => (free, m)
  | S n' =>
      let obj_ptr := page_ptr + i * object_size in
      expand_loop n' (i + 1) page_ptr object_size (Some obj_ptr) (write_bytes m obj_ptr (ptr_bytes free))
  end.

Definition expand c a m (object_size : Z) : may_panic (SlabCache * A * mem * bool) :=
  r ← phys_alloc a 12;
  match r with
  | (a, None) => Ok (c, a, m, false)
  | (a, Some page_phys) =>
      page_ptr ← phys_to_virt page_phys;
      let objects_per_page := PAGE_SIZE / object_size in
      let '(free, m) := expand_loop (Z.to_nat objects_per_page) 0 page_ptr object_size (free_list c) m in
      total ← add_usize (total_objects c) objects_per_page;
      Ok (c <| free_list := free |> <| total_objects := total |>, a, m, true)
  end.

(** [SlabCache::allocate] once there is a free object. *)
Definition take_object c m (object_size : Z) : may_panic (SlabCache * mem * Z) :=
  ptr ← unwrap (free_list c);
  if existsb (fun b => b =? 170) (read_bytes m ptr (Z.to_nat (Z.min object_size 8))) then Panic else
  used ← add_usize (used_objects c) 1;
  Ok (c <| free_list := read_next m ptr |> <| used_objects := used |>, fill m ptr 170 (Z.min object_size 256), ptr).

Definition cache_allocate c a m (object_size : Z) : may_panic (SlabCache * A * mem * Z) :=
  r ← match free_list c with
      | None => expand c a m object_size
      | Some _ => Ok (c, a, m, true)
      end;
  let '(c, a, m, ok) := r in
  if ok : bool then r ← take_object c m object_size; let '(c, m, ptr) := r in Ok (c, a, m, ptr) else Ok (c, a, m, 0).

Definition cache_deallocate c m (ptr object_size : Z) : SlabCache * mem :=
  let m := fill m ptr 221 (Z.min object_size 256) in
  (c <| free_list := Some ptr |> <| used_objects := Z.max 0 (used_objects c - 1) |>, write_bytes m ptr (ptr_bytes (free_list c))).

Definition allocate_large h (sz al : Z) : may_panic (Heap A * Z) :=
  order ← size_to_buddy_order (Z.max sz al);
  r ← phys_alloc (source h) order;
  match r with
  | (a, Some phys_addr) => ptr ← phys_to_virt phys_addr; Ok (mkHeap (caches h) a (bytes h), ptr)
  | (a, None) => Ok (mkHeap (caches h) a (bytes h), 0)
  end.

Definition deallocate_large h (ptr sz : Z) : may_panic (Heap A) :=
  order ← size_to_buddy_order sz;
  virt ← virt_addr ptr;
  if virt <? phys_offset then Panic else
  phys ← Buddy.phys_addr (virt - phys_offset);
  a ← phys_free (source h) phys order;
  Ok (mkHeap (caches h) a (bytes h)).

Definition allocate h (layout : Layout) : may_panic (Heap A * Z) :=
  let sz := Z.max (size layout) (align layout) in
  if MAX_SLAB_SIZE <? sz then allocate_large h sz (align layout) else
  match slab_index sz with
  | Some idx =>
      object_size ← unwrap (SLAB_SIZES !! idx);
      if negb (is_power_of_two object_size) || negb (object_size <=? PAGE_SIZE) then Panic else
      c ← unwrap (caches h !! idx);
      r ← cache_allocate c (source h) (bytes h) object_size;
      let '(c, a, m, ptr) := r in
      Ok (mkHeap (<[idx := c]> (caches h)) a m, ptr)
  | None => Ok (h, 0)
  end.

Definition deallocate h (ptr : Z) (layout : Layout) : may_panic (Heap A) :=
  if ptr =? 0 then Ok h else
  let sz := Z.max (size layout) (align layout) in
  if MAX_SLAB_SIZE <? sz then deallocate_large h ptr sz else
  match slab_index sz with
  | Some idx =>
      c ← unwrap (caches h !! idx);
      object_size ← unwrap (SLAB_SIZES !! idx);
      let '(c, m) := cache_deallocate c (bytes h) ptr object_size in
      Ok (mkHeap (<[idx := c]> (caches h)) (source h) m)
  | None => Ok h
  end.

(** [SlabGlobalAlloc]. *)
Definition alloc h (layout : Layout) : may_panic (Heap A * Z) := allocate h layout.
Definition dealloc h (ptr : Z) (layout : Layout) : may_panic (Heap A) := deallocate h ptr layout.

End slab.
End Slab.
