(* ===== verification/SlabInv.v ===== *)
(** The invariant of the kernel heap: the free lists of the caches and the
    blocks handed out are disjoint pieces of memory the frame source does not
    hold, whatever is allocated, freed or written. *)

From Stdlib Require Import ZArith Lia.
From stdpp Require Import base numbers gmap list.
From S2P Require Import Prelude Bits Buddy Frames Slab.

Local Open Scope Z_scope.

Module SlabInv.
Import Slab.

(** ** Regions *)

Abbreviation region := (Z * Z)%type.
Definition in_region (r : region) (x : Z) : Prop := r.1 <= x < r.1 + r.2.
Definition apart (r s : region) : Prop := r.1 + r.2 <= s.1 \/ s.1 + s.2 <= r.1.

Fixpoint disjoint (l : list region) : Prop :=
  match l with
  | [] => True
  | r :: l' => Forall (apart r) l' /\ disjoint l'
  end.

Lemma heap_apart_sym r s : apart r s -> apart s r.
Proof. unfold apart. tauto. Qed.

#[export] Instance disjoint_perm : Proper ((≡ₚ) ==> iff) disjoint.
Proof.
  assert (forall l l', l ≡ₚ l' -> disjoint l -> disjoint l') as H.
  { induction 1 as [|r l l' Hp IH|r s l|]; cbn [disjoint]; [done| | |tauto].
    - intros [Hr Hl]. split; [by rewrite <- Hp|by apply IH].
    - rewrite !list.Forall_cons. intros ((Hrs & Hr) & Hs & Hl). pose proof (heap_apart_sym _ _ Hrs). by split_and!. }
  intros l l' Hp. split; apply H; [done|by symmetry].
Qed.

Lemma disjoint_app l l' : disjoint (l ++ l') <-> disjoint l /\ disjoint l' /\ Forall (fun r => Forall (apart r) l') l.
Proof.
  induction l as [|r l IH]; cbn [app disjoint]; [split; [by intros|by intros (_ & ? & _)]|].
  rewrite IH, list.Forall_cons, Forall_app. tauto.
Qed.

Lemma disjoint_in l r s x : disjoint (r :: l) -> s ∈ l -> in_region r x -> in_region s x -> False.
Proof. intros [Hr _] Hs. rewrite Forall_forall in Hr. specialize (Hr s Hs). unfold apart, in_region in *. lia. Qed.

(** Disjoint regions that are not empty fit in the memory that holds them. *)
Lemma disjoint_length l lo n : disjoint l -> Forall (fun r => 0 < r.2 /\ lo <= r.1 < lo + n) l -> Z.of_nat (length l) <= Z.max 0 n.
Proof.
  intros Hd Hl. assert (NoDup l.*1) as Hnd.
  { induction l as [|r l IH]; [constructor|]. destruct Hd as [Hr Hd]. apply list.Forall_cons in Hl as [Hr0 Hl]. cbn. constructor; [|by apply IH].
    intros (s & E & Hs)%list_elem_of_fmap. rewrite Forall_forall in Hr, Hl. specialize (Hr s Hs). specialize (Hl s Hs). unfold apart in Hr. lia. }
  assert (l.*1 ⊆ seqZ lo n) as Hsub.
  { intros a (r & -> & Hr)%list_elem_of_fmap. apply elem_of_seqZ. rewrite Forall_forall in Hl. specialize (Hl r Hr). lia. }
  apply (NoDup_submseteq _ _ Hnd), submseteq_length in Hsub. rewrite length_fmap, length_seqZ in Hsub. lia.
Qed.

(** ** Sizes *)

Definition rounded (l : Layout) : Z := Z.max (size l) (align l).
Definition order_of (sz : Z) : Z := 12 + Z.log2_up ((sz + 4095) / 4096).
Definition class_of (sz : Z) : Z := default 0 (slab_index sz ≫= fun k => SLAB_SIZES !! k).

(** The bytes that belong to a block handed out for [l]. *)
Definition block_size (l : Layout) : Z := if MAX_SLAB_SIZE <? rounded l then 2 ^ order_of (rounded l) else class_of (rounded l).
Definition block (b : Z * Layout) : region := (b.1, block_size b.2).

(** A layout the frame source can serve. *)
Record layout_ok (l : Layout) : Prop := {
  l_size : 0 <= size l;
  l_align : exists j, 0 <= j /\ align l = 2 ^ j;
  l_fits : rounded l <= 2 ^ 28;
}.

Lemma log2_up_pow k : 0 <= k -> Z.log2_up (2 ^ k) = k.
Proof. apply Z.log2_up_pow2. Qed.

Lemma trailing_zeros_pow k : 0 <= k -> trailing_zeros 64 (2 ^ k) = k.
Proof.
  intros Hk. pose proof (Z.pow_pos_nonneg 2 k ltac:(lia) Hk). destruct (trailing_zeros_spec 64 (2 ^ k) ltac:(lia)) as (H0 & Hb & _).
  rewrite Z.pow2_bits_eqb in Hb by done. by apply Z.eqb_eq in Hb.
Qed.

Lemma order_of_eq sz : 0 < sz <= 2 ^ 28 -> size_to_buddy_order sz = Ok (order_of sz).
Proof.
  intros Hsz. unfold size_to_buddy_order, add_usize, PAGE_SIZE. rewrite (proj2 (Z.ltb_lt _ _)) by lia. cbn [mbind outcome_bind].
  replace (sz + 4096 - 1) with (sz + 4095) by lia. unfold order_of, PAGE_ORDER. pose proof (Z.div_lt_upper_bound (sz + 4095) 4096 (2 ^ 17) ltac:(lia) ltac:(lia)).
  destruct (Z.leb_spec ((sz + 4095) / 4096) 1); [by rewrite Z.log2_up_eqn0 by done|].
  unfold next_power_of_two. pose proof (Z.log2_up_nonneg ((sz + 4095) / 4096)). pose proof (Z.log2_up_le_mono ((sz + 4095) / 4096) (2 ^ 17) ltac:(lia)) as Hle.
  rewrite log2_up_pow in Hle by done. rewrite (proj2 (Z.ltb_lt _ _)); [|apply Z.pow_lt_mono_r; lia]. cbn [mbind outcome_bind]. by rewrite trailing_zeros_pow.
Qed.

Lemma order_of_bounds sz : 0 < sz <= 2 ^ 28 -> Buddy.order_ok (order_of sz) /\ sz <= 2 ^ order_of sz.
Proof.
  intros Hsz. unfold order_of. set (p := (sz + 4095) / 4096). pose proof (Z.log2_up_nonneg p).
  assert (1 <= p <= 2 ^ 16) as Hp by (unfold p; split; [apply Z.div_le_lower_bound; lia|apply Z.lt_succ_r, Z.div_lt_upper_bound; lia]).
  pose proof (Z.log2_up_le_mono p (2 ^ 16) ltac:(lia)) as Hle. rewrite log2_up_pow in Hle by done. split; [unfold Buddy.order_ok, Buddy.MIN_ORDER, Buddy.MAX_ORDER; lia|].
  assert (p <= 2 ^ Z.log2_up p) as Hup. { destruct (decide (p = 1)) as [->|]; [done|]. apply Z.log2_up_spec. lia. }
  rewrite Z.pow_add_r by lia. assert (sz <= 4096 * p); [|nia]. unfold p. pose proof (Z.div_mod (sz + 4095) 4096 ltac:(lia)). pose proof (Z.mod_pos_bound (sz + 4095) 4096 ltac:(lia)). lia.
Qed.

(** The classes are powers of two that divide a page, and the class chosen
    holds what is asked for. *)
Lemma slab_sizes k c : SLAB_SIZES !! k = Some c -> exists e, 3 <= e <= 11 /\ c = 2 ^ e.
Proof. intros Hk. do 9 (destruct k as [|k]; [injection Hk as <-; first [by exists 3|by exists 4|by exists 5|by exists 6|by exists 7|by exists 8|by exists 9|by exists 10|by exists 11]|]). done. Qed.

Lemma slab_index_small sz : 0 <= sz <= MAX_SLAB_SIZE -> exists k c, slab_index sz = Some k /\ SLAB_SIZES !! k = Some c /\ sz <= c.
Proof.
  intros Hsz. destruct (slab_index sz) as [k|] eqn:Hk.
  - destruct (position_Some _ _ _ Hk) as (c & Hc & Hle & _). exists k, c. split_and!; [done|done|by apply Z.leb_le].
  - apply position_None in Hk. rewrite Forall_forall in Hk. specialize (Hk 2048 ltac:(unfold SLAB_SIZES; set_solver)). apply Z.leb_gt in Hk. unfold MAX_SLAB_SIZE in Hsz. lia.
Qed.

Lemma rounded_pos l : layout_ok l -> 0 < rounded l.
Proof. intros [Hs (j & Hj & Ha) _]. unfold rounded. pose proof (Z.pow_pos_nonneg 2 j ltac:(lia) Hj). lia. Qed.

(** A block is a power of two that holds the request. *)
Lemma block_size_pow l : layout_ok l -> rounded l <= block_size l /\ exists e, 3 <= e <= 28 /\ block_size l = 2 ^ e.
Proof.
  intros Hl. pose proof (rounded_pos l Hl) as Hp. unfold block_size. destruct (Z.ltb_spec MAX_SLAB_SIZE (rounded l)).
  - destruct (order_of_bounds (rounded l)) as [Ho Hle]; [destruct Hl; lia|]. split; [done|]. exists (order_of (rounded l)). unfold Buddy.order_ok, Buddy.MIN_ORDER, Buddy.MAX_ORDER in Ho. split; [lia|done].
  - destruct (slab_index_small (rounded l)) as (k & c & Hk & Hc & Hle); [lia|]. unfold class_of. rewrite Hk. cbn [mbind option_bind]. rewrite Hc. cbn [default].
    split; [done|]. destruct (slab_sizes k c Hc) as (e & He & ->). exists e. split; [lia|done].
Qed.

(** ** Free lists *)

(** [p] is a free object and [l] are the ones after it. *)
Fixpoint linked (m : mem) (h : option Z) (l : list Z) : Prop :=
  match l with
  | [] => h = None
  | p :: l' => h = Some p /\ 0 < p < 2 ^ 64 /\ read_bytes m p 8 = ptr_bytes (head l') /\ linked m (head l') l'
  end.

Lemma linked_head m h l : linked m h l -> h = head l.
Proof. destruct l; cbn; [done|]. tauto. Qed.

Lemma linked_bounds m h l : linked m h l -> Forall (fun p => 0 < p < 2 ^ 64) l.
Proof. revert h; induction l as [|p l IH]; intros h; cbn; [done|]. intros (_ & Hp & _ & Hl). constructor; [done|by apply (IH _ Hl)]. Qed.

Lemma linked_ext m m' h l : (forall p x, p ∈ l -> p <= x < p + 8 -> m' !! x = m !! x) -> linked m h l -> linked m' h l.
Proof.
  revert h; induction l as [|p l IH]; intros h Hm; cbn [linked]; [done|]. intros (-> & Hp & Hr & Hl). split_and!; [done|lia|lia| |].
  - rewrite <- Hr. apply read_bytes_ext. intros x Hx. apply (Hm p); [by left|]. lia.
  - apply IH; [|done]. intros q x Hq. apply Hm. by right.
Qed.

Lemma read_next_eq m p h : read_bytes m p 8 = ptr_bytes h -> (forall q, h = Some q -> 0 < q < 2 ^ 64) -> read_next m p = h.
Proof.
  intros Hr Hh. unfold read_next. rewrite Hr. unfold ptr_bytes. destruct h as [q|]; [|done]. change (default 0 (Some q)) with q.
  specialize (Hh q eq_refl). rewrite from_to_le by (change (256 ^ Z.of_nat 8) with (2 ^ 64); lia). by rewrite (proj2 (Z.eqb_neq _ _)) by lia.
Qed.

Lemma length_ptr_bytes p : length (ptr_bytes p) = 8%nat.
Proof. apply length_to_le. Qed.

Lemma write_region m p bs x : ~ in_region (p, Z.of_nat (length bs)) x -> write_bytes m p bs !! x = m !! x.
Proof. unfold in_region. cbn. intros. apply write_bytes_lookup_ne. lia. Qed.

(** The objects [expand_loop] puts in front of a list. *)
Fixpoint new_objects (n : nat) (i page_ptr c : Z) (l : list Z) : list Z :=
  match n with
  | O => l
  | S n' => new_objects n' (i + 1) page_ptr c (page_ptr + i * c :: l)
  end.

Lemma new_objects_perm n i pp c l : new_objects n i pp c l ≡ₚ ((fun j => pp + j * c) <$> seqZ i (Z.of_nat n)) ++ l.
Proof.
  revert i l; induction n as [|n IH]; intros i l; [done|]. cbn [new_objects]. rewrite IH, (seqZ_cons i (Z.of_nat (S n))) by lia. cbn [fmap list_fmap app].
  replace (Z.pred (Z.of_nat (S n))) with (Z.of_nat n) by lia. change (Z.succ i) with (i + 1). by rewrite <- Permutation_middle.
Qed.

Lemma expand_loop_spec n i pp c free l m : 8 <= c -> 0 < pp + i * c -> pp + (i + Z.of_nat n) * c <= 2 ^ 64 -> linked m free l ->
  (forall p, p ∈ l -> p + 8 <= pp + i * c \/ pp + (i + Z.of_nat n) * c <= p) ->
  let r := expand_loop n i pp c free m in
  linked r.2 r.1 (new_objects n i pp c l) /\ forall x, ~ (pp + i * c <= x < pp + (i + Z.of_nat n) * c) -> r.2 !! x = m !! x.
Proof.
  intros Hc. revert i free l m; induction n as [|n IH]; intros i free l m Hp Hb Hl Hout; cbn [expand_loop new_objects]; [done|].
  set (p := pp + i * c) in *. assert (pp + (i + 1) * c = p + c) as E1 by (unfold p; lia). assert (p + c <= pp + (i + Z.of_nat (S n)) * c) as E2 by (unfold p; nia).
  assert (pp + (i + 1 + Z.of_nat n) * c = pp + (i + Z.of_nat (S n)) * c) as E3 by lia.
  destruct (IH (i + 1) (Some p) (p :: l) (write_bytes m p (ptr_bytes free))) as [IHl IHm]; [lia|lia| | |].
  - cbn [linked]. split_and!; [done|lia|lia| |].
    + rewrite <- (linked_head _ _ _ Hl). rewrite <- (length_ptr_bytes free) at 1. apply read_write_bytes.
    + rewrite <- (linked_head _ _ _ Hl). apply (linked_ext m); [|done]. intros q x Hq Hx. specialize (Hout q Hq). apply write_bytes_lookup_ne. rewrite length_ptr_bytes. lia.
  - intros q [->|Hq]%elem_of_cons; [lia|]. specialize (Hout q Hq). lia.
  - split; [done|]. intros x Hx. rewrite IHm by lia. apply write_bytes_lookup_ne. rewrite length_ptr_bytes. lia.
Qed.

(** ** Pieces of memory *)

(** Free objects of one cache, and of all. *)
Definition objects (c : Z) (fl : list Z) : list region := (fun p => (p, c)) <$> fl.
Definition free_objects (fls : list (list Z)) : list region := concat (zip_with objects SLAB_SIZES fls).

Lemma zip_concat_insert cs (fls : list (list Z)) k c fl fl' : cs !! k = Some c -> fls !! k = Some fl ->
  concat (zip_with objects cs (<[k := fl']> fls)) ≡ₚ objects c fl' ++ concat (zip_with objects cs (<[k := []]> fls)).
Proof.
  revert fls k; induction cs as [|c0 cs IH]; intros fls k Hc Hf; [done|]. destruct fls as [|f0 fls]; [done|]. destruct k as [|k].
  - injection Hc as ->. done.
  - cbn [list_insert insert zip_with concat]. pose proof (IH fls k Hc Hf) as E. unfold insert in E. rewrite E. apply Permutation_app_swap_app.
Qed.

Lemma free_objects_insert fls k c fl fl' : SLAB_SIZES !! k = Some c -> fls !! k = Some fl ->
  free_objects (<[k := fl']> fls) ≡ₚ objects c fl' ++ free_objects (<[k := []]> fls).
Proof. apply zip_concat_insert. Qed.

Lemma free_objects_split fls k c fl : SLAB_SIZES !! k = Some c -> fls !! k = Some fl -> free_objects fls ≡ₚ objects c fl ++ free_objects (<[k := []]> fls).
Proof. intros Hc Hf. rewrite <- (free_objects_insert fls k c fl fl) by done. by rewrite list_insert_id. Qed.

(** The cache that serves a layout. *)
Definition index_of (l : Layout) : option nat := if MAX_SLAB_SIZE <? rounded l then None else slab_index (rounded l).
Definition count (k : nat) (live : list (Z * Layout)) : Z := Z.of_nat (length (filter (fun b => index_of b.2 = Some k) live)).

Lemma count_cons k b live : count k (b :: live) = count k live + if decide (index_of b.2 = Some k) then 1 else 0.
Proof. unfold count. rewrite filter_cons. case_decide; cbn [length]; lia. Qed.

Lemma count_le k live : 0 <= count k live <= Z.of_nat (length live).
Proof. unfold count. pose proof (length_filter (fun b : Z * Layout => index_of b.2 = Some k) live). lia. Qed.

#[export] Instance count_perm k : Proper ((≡ₚ) ==> eq) (count k).
Proof. intros l l' Hp. unfold count. by rewrite Hp. Qed.

Lemma index_class l k : index_of l = Some k -> SLAB_SIZES !! k = Some (block_size l).
Proof.
  unfold index_of, block_size, class_of. destruct (MAX_SLAB_SIZE <? rounded l); [done|]. intros Hk. rewrite Hk. destruct (position_Some _ _ _ Hk) as (c & Hc & _). cbn. unfold SLAB_SIZES in *. by rewrite Hc.
Qed.

Section inv.
Context {A : Type} `{FrameSource A}.
Variables phys_offset limit : Z.
Implicit Types (h : Heap A) (a : A) (m : mem) (r : region) (live : list (Z * Layout)).

(** The first [limit] bytes of physical memory are mapped from [phys_offset]
    on. *)
Record window : Prop := {
  w_offset : 0 < phys_offset;
  w_page : phys_offset mod 4096 = 0;
  w_limit : 0 <= limit <= 2 ^ 52;
  w_fits : phys_offset + limit <= 2 ^ 64;
  w_canonical p : 0 <= p < limit -> canonical (phys_offset + p) = true;
}.

(** A piece of memory the heap holds. *)
Definition owned a r : Prop := 0 < r.2 /\ (r.1 - phys_offset) mod r.2 = 0 /\
  forall x, in_region r x -> 0 <= x - phys_offset < limit /\ ~ available a (x - phys_offset).

Definition pieces (fls : list (list Z)) live : list region := free_objects fls ++ (block <$> live).

Definition cache_ok m (c : SlabCache) (fl : list Z) (n : Z) : Prop :=
  linked m (free_list c) fl /\ used_objects c = n /\ total_objects c = Z.of_nat (length fl) + n.

Record heap_inv h fls live : Prop := {
  i_source : source_ok (source h);
  i_memory : forall x, available (source h) x -> 0 <= x < limit;
  i_caches : length (caches h) = 9%nat;
  i_lists : length fls = 9%nat;
  i_cache : forall k c fl, caches h !! k = Some c -> fls !! k = Some fl -> cache_ok (bytes h) c fl (count k live);
  i_disjoint : disjoint (pieces fls live);
  i_owned : Forall (owned (source h)) (pieces fls live);
  i_layouts : Forall (fun b => layout_ok b.2) live;
}.

Lemma new_inv a m : source_ok a -> (forall x, available a x -> 0 <= x < limit) -> heap_inv (new a m) (replicate 9 []) [].
Proof.
  intros Ha Hx. split; try done; try apply Forall_nil_2.
  intros k c fl Hc Hf. apply (lookup_replicate_1 9) in Hf as [-> _]. change (replicate NUM_SLABS cache_new !! k = Some c) in Hc. apply lookup_replicate_1 in Hc as [-> _]. done.
Qed.

#[global] Instance pieces_perm fls : Proper ((≡ₚ) ==> (≡ₚ)) (pieces fls).
Proof. intros l l' Hp. unfold pieces. by rewrite Hp. Qed.

Lemma live_perm h fls live live' : live ≡ₚ live' -> heap_inv h fls live -> heap_inv h fls live'.
Proof.
  intros Hp [Hs Hm Hc Hl Hca Hd Ho Hla]. split; try done; [|by rewrite <- Hp..].
  intros k c fl H1 H2. rewrite <- Hp. by apply Hca.
Qed.

(** New memory lies apart from what the heap holds. *)
Lemma fresh_apart a r s : owned a r -> 0 < s.2 -> (forall x, in_region s x -> available a (x - phys_offset)) -> apart s r.
Proof.
  intros (Hr & _ & Ho) Hs Hav. unfold apart. destruct (Z.le_gt_cases (s.1 + s.2) r.1); [by left|]. destruct (Z.le_gt_cases (r.1 + r.2) s.1); [by right|]. exfalso.
  assert (in_region s (Z.max r.1 s.1) /\ in_region r (Z.max r.1 s.1)) as [E1 E2] by (unfold in_region; lia). by apply (Ho _ E2), Hav.
Qed.

Lemma owned_mono a a' r : (forall x, available a' x -> available a x) -> owned a r -> owned a' r.
Proof. intros Hle (Hr & Hm & Ho). split_and!; [done|done|]. intros x Hx. destruct (Ho x Hx) as [? Hn]. split; [done|]. intros Hx'. by apply Hn, Hle. Qed.

(** The heap holds no more pieces than there are addresses. *)
Lemma pieces_length h fls live : window -> heap_inv h fls live -> Z.of_nat (length (pieces fls live)) <= 2 ^ 52.
Proof.
  intros Hw Hi. pose proof (w_limit Hw). pose proof (disjoint_length (pieces fls live) phys_offset limit (i_disjoint _ _ _ Hi)) as Hlen.
  assert (Z.of_nat (length (pieces fls live)) <= Z.max 0 limit); [|lia]. apply Hlen. eapply Forall_impl; [apply (i_owned _ _ _ Hi)|].
  intros r (Hr & _ & Ho). split; [done|]. destruct (Ho r.1 ltac:(unfold in_region; lia)). lia.
Qed.

(** Changing one cache. *)
Lemma inv_update h fls live k c c' a' m' fl fl' live' : heap_inv h fls live -> SLAB_SIZES !! k = Some c -> fls !! k = Some fl ->
  source_ok a' -> (forall x, available a' x -> 0 <= x < limit) ->
  cache_ok m' c' fl' (count k live') -> (forall j, j <> k -> count j live' = count j live) ->
  (forall r x, r ∈ free_objects (<[k := []]> fls) -> in_region r x -> m' !! x = bytes h !! x) ->
  disjoint (pieces (<[k := fl']> fls) live') -> Forall (owned a') (pieces (<[k := fl']> fls) live') -> Forall (fun b => layout_ok b.2) live' ->
  heap_inv (mkHeap (<[k := c']> (caches h)) a' m') (<[k := fl']> fls) live'.
Proof.
  intros Hi Hc Hfl Hs Hm Hck Hcnt Hmem Hd Ho Hl. split; cbn [source caches bytes]; try done; try (rewrite length_insert; apply Hi).
  intros j cj fj Hcj Hfj. destruct (decide (j = k)) as [->|Hne].
  - rewrite list_lookup_insert_eq in Hcj by (by apply lookup_lt_Some in Hfl; rewrite (i_caches _ _ _ Hi); rewrite (i_lists _ _ _ Hi) in Hfl).
    rewrite list_lookup_insert_eq in Hfj by (by apply lookup_lt_Some in Hfl). by simplify_eq.
  - rewrite list_lookup_insert_ne in Hcj by done. rewrite list_lookup_insert_ne in Hfj by done. destruct (i_cache _ _ _ Hi j cj fj Hcj Hfj) as (Hlk & Hu & Ht). unfold cache_ok. rewrite Hcnt by done. split_and!; [|done|done].
    apply (linked_ext (bytes h)); [|done]. intros p x Hp Hx. destruct (lookup_lt_is_Some_2 SLAB_SIZES j) as [cz Hcz]. { apply lookup_lt_Some in Hfj. rewrite (i_lists _ _ _ Hi) in Hfj. done. }
    destruct (slab_sizes j cz Hcz) as (e & He & Ee). pose proof (Z.pow_le_mono_r 2 3 e ltac:(lia) ltac:(lia)). apply (Hmem (p, cz)); [|unfold in_region; cbn; lia].
    rewrite (free_objects_split (<[k := []]> fls) j cz fj) by (done || by rewrite list_lookup_insert_ne). apply elem_of_app. left. apply list_elem_of_fmap. by exists p.
Qed.

End inv.
End SlabInv.
