(* ===== verification/SlabProps.v ===== *)
(** What the kernel heap promises: blocks are large enough, aligned and apart
    from each other, and memory holds what its owner wrote.  Runs at the end
    show where it stops the kernel instead. *)

From Stdlib Require Import ZArith Lia.
From stdpp Require Import base numbers gmap list.
From S2P Require Import Prelude Bits Buddy Frames Slab SlabInv.

Local Open Scope Z_scope.

Module SlabProps.
Import Slab SlabInv.

Section props.
Context {A : Type} `{FrameSource A}.
Variables phys_offset limit : Z.
Implicit Types (h : Heap A) (a : A) (m : mem) (r : region) (live : list (Z * Layout)).

Abbreviation inv := (heap_inv phys_offset limit).
Abbreviation own := (owned phys_offset limit).

(** ** One object *)

(** An object that leaves a free list and one that is handed out are the same
    piece of memory. *)
Lemma pieces_take fls live k p fl l : SLAB_SIZES !! k = Some (block_size l) -> fls !! k = Some (p :: fl) ->
  pieces (<[k := fl]> fls) ((p, l) :: live) ≡ₚ pieces fls live.
Proof.
  intros Hc Hf. unfold pieces. rewrite (free_objects_insert fls k _ (p :: fl)), (free_objects_split fls k _ (p :: fl)) by done.
  cbn [fmap list_fmap objects app]. by rewrite <- Permutation_middle.
Qed.

Lemma fill_region m p b c x : 0 < c -> ~ in_region (p, c) x -> fill m p b (Z.min c 256) !! x = m !! x.
Proof. intros Hc Hx. unfold fill. apply write_region. rewrite length_replicate. unfold in_region in *. cbn in *. lia. Qed.

(** The first of the free objects is handed out, unless a byte of its
    successor's address is taken for the mark of a block in use. *)
Lemma take_ok h fls live k cc p fl l : window phys_offset limit -> inv h fls live -> layout_ok l -> index_of l = Some k -> caches h !! k = Some cc -> fls !! k = Some (p :: fl) ->
  (exists cc' m', take_object cc (bytes h) (block_size l) = Ok (cc', m', p) /\
    inv (mkHeap (<[k := cc']> (caches h)) (source h) m') (<[k := fl]> fls) ((p, l) :: live) /\ forall x, ~ in_region (p, block_size l) x -> m' !! x = bytes h !! x) \/
  (take_object cc (bytes h) (block_size l) = Panic /\ exists q, head fl = Some q /\ 170 ∈ to_le 8 q).
Proof.
  intros Hw Hi Hl Hk Hcc Hfl. pose proof (index_class l k Hk) as Hc. set (c := block_size l) in *. destruct (slab_sizes k c Hc) as (e & He & Ee).
  pose proof (Z.pow_le_mono_r 2 3 e ltac:(lia) ltac:(lia)) as Hc8. change (2 ^ 3) with 8 in Hc8. rewrite <- Ee in Hc8.
  destruct (i_cache _ _ _ _ _ Hi k cc (p :: fl) Hcc Hfl) as (Hlk & Hu & Ht). cbn [linked] in Hlk. destruct Hlk as (Hfree & Hp & Hbytes & Hlk).
  unfold take_object. rewrite Hfree. cbn [unwrap mbind outcome_bind]. replace (Z.to_nat (Z.min c 8)) with 8%nat by lia. rewrite Hbytes.
  destruct (existsb _ (ptr_bytes (head fl))) eqn:Hx.
  { right. split; [done|]. apply existsb_exists in Hx as (b & Hb & ->%Z.eqb_eq). apply list_elem_of_In in Hb. destruct (head fl) as [q|]; [by exists q|]. exfalso. revert Hb. unfold ptr_bytes. cbn. set_solver by lia. }
  left. pose proof (pieces_take fls live k p fl l Hc Hfl) as Hpieces. pose proof (pieces_length _ _ _ _ _ Hw Hi) as Hlen.
  assert (count k live < Z.of_nat (length (pieces fls live))) as Hcount.
  { pose proof (count_le k live). unfold pieces. rewrite (free_objects_split fls k c (p :: fl)) by done. unfold objects. cbn. rewrite !length_app, !length_fmap. lia. }
  unfold add_usize. rewrite Hu, (proj2 (Z.ltb_lt _ _)) by lia. cbn [mbind outcome_bind].
  assert (read_next (bytes h) p = head fl) as ->. { apply read_next_eq; [done|]. intros q Hq. pose proof (linked_bounds _ _ _ Hlk) as Hb. destruct fl; [done|]. injection Hq as ->. by apply list.Forall_cons in Hb as [? _]. }
  assert (disjoint ((p, c) :: objects c fl ++ free_objects (<[k := []]> fls) ++ (block <$> live))) as Hd.
  { pose proof (i_disjoint _ _ _ _ _ Hi) as Hd. unfold pieces in Hd. rewrite (free_objects_split fls k c (p :: fl)) in Hd by done. cbn [objects fmap list_fmap app] in Hd. by rewrite <- app_assoc in Hd. }
  eexists _, _. split; [done|]. split; [|intros x Hx'; apply fill_region; [lia|done]].
  apply (inv_update phys_offset limit h fls live k c) with (fl := p :: fl); try done; try apply Hi.
  - split_and!; [|cbn; rewrite count_cons, decide_True by done; lia|cbn; rewrite count_cons, decide_True by done; cbn in Ht; lia].
    apply (linked_ext (bytes h)); [|done]. intros q x Hq Hxq. apply fill_region; [lia|]. intros Hin.
    apply (disjoint_in _ _ (q, c) x Hd); [apply elem_of_app; left; apply list_elem_of_fmap; by exists q|done|unfold in_region; cbn; lia].
  - intros j Hj. rewrite count_cons, decide_False; [lia|]. cbn. congruence.
  - intros r x Hr Hin. apply fill_region; [lia|]. intros Hin'. apply (disjoint_in _ _ r x Hd); [|done|done]. apply elem_of_app. right. apply elem_of_app. by left.
  - rewrite Hpieces. apply Hi.
  - rewrite Hpieces. apply Hi.
  - constructor; [done|apply Hi].
Qed.

Lemma phys_to_virt_ok p : window phys_offset limit -> 0 <= p < limit -> phys_to_virt phys_offset p = Ok (phys_offset + p).
Proof.
  intros Hw Hp. unfold phys_to_virt, add_usize. pose proof (w_fits _ _ Hw). rewrite (proj2 (Z.ltb_lt _ _)) by lia. cbn [mbind outcome_bind].
  unfold virt_addr. by rewrite (w_canonical _ _ Hw).
Qed.

(** ** A new page *)

Lemma page_objects_disjoint pp c n i : 0 < c -> disjoint (objects c ((fun j => pp + j * c) <$> seqZ i (Z.of_nat n))).
Proof.
  intros Hc. revert i; induction n as [|n IH]; intros i; [done|]. rewrite seqZ_cons by lia. cbn [fmap list_fmap objects disjoint].
  replace (Z.pred (Z.of_nat (S n))) with (Z.of_nat n) by lia. split; [|apply IH]. apply Forall_forall. intros r (q & -> & (j & -> & Hj%elem_of_seqZ)%list_elem_of_fmap)%list_elem_of_fmap.
  left. cbn. nia.
Qed.

(** The objects of a page are pieces of it. *)
Lemma page_object_in f pp c n j x : 0 < c -> n * c = 4096 -> pp = phys_offset + f -> 0 <= j < n -> in_region (pp + j * c, c) x -> in_frame 12 f (x - phys_offset).
Proof.
  intros Hc Hn -> Hj Hx. unfold in_region, in_frame in *. cbn [fst snd] in Hx. change (2 ^ 12) with 4096.
  pose proof (Z.mul_nonneg_nonneg j c ltac:(lia) ltac:(lia)). pose proof (Z.mul_le_mono_nonneg_r (j + 1) n c ltac:(lia) ltac:(lia)). lia.
Qed.

(** A cache without free objects gets a page of them, or the source is
    exhausted and nothing changes. *)
Lemma expand_ok h fls live k cc c : window phys_offset limit -> inv h fls live -> SLAB_SIZES !! k = Some c -> caches h !! k = Some cc -> fls !! k = Some [] ->
  (expand phys_offset cc (source h) (bytes h) c = Ok (cc, source h, bytes h, false) /\ phys_alloc (source h) 12 = Ok (source h, None)) \/
  exists cc' a' m' p fl, expand phys_offset cc (source h) (bytes h) c = Ok (cc', a', m', true) /\
    inv (mkHeap (<[k := cc']> (caches h)) a' m') (<[k := p :: fl]> fls) live /\ forall b x, b ∈ live -> in_region (block b) x -> m' !! x = bytes h !! x.
Proof.
  intros Hw Hi Hc Hcc Hfl. destruct (slab_sizes k c Hc) as (e & He & Ee). destruct (i_cache _ _ _ _ _ Hi k cc [] Hcc Hfl) as (Hlk & Hu & Ht). cbn [linked length] in Hlk, Ht.
  destruct (alloc_law (source h) 12 (i_source _ _ _ _ _ Hi) ltac:(done)) as (a' & [f|] & Hal & Hok & Hr); unfold expand; rewrite Hal; cbn [mbind outcome_bind]; [|left; by rewrite Hr in *].
  right. destruct Hr as (Hb & Hin & Hav). assert (0 <= f < limit) as Hf by (apply (i_memory _ _ _ _ _ Hi), Hin; unfold in_frame; lia).
  rewrite (phys_to_virt_ok f Hw Hf). cbn [mbind outcome_bind]. pose proof (w_offset _ _ Hw) as Hw0. pose proof (w_limit _ _ Hw) as Hwl. pose proof (w_fits _ _ Hw) as Hwf.
  set (pp := phys_offset + f). set (n := PAGE_SIZE / c). assert (8 <= c /\ n * c = 4096 /\ 1 <= n) as (Hc8 & Hn & Hn1).
  { unfold n, PAGE_SIZE. assert (4096 = 2 ^ (12 - e) * c) as E by (rewrite Ee, <- Z.pow_add_r by lia; by replace (12 - e + e) with 12 by lia). pose proof (Z.pow_le_mono_r 2 3 e ltac:(lia) ltac:(lia)).
    pose proof (Z.pow_pos_nonneg 2 (12 - e) ltac:(lia) ltac:(lia)). change (2 ^ 3) with 8 in *. rewrite <- Ee in *. rewrite E, Z.div_mul by lia. lia. }
  assert (pp + 4096 <= 2 ^ 64) as Hend. { assert (f + 4095 < limit); [|unfold pp; lia]. apply (i_memory _ _ _ _ _ Hi), Hin. unfold in_frame. lia. }
  destruct (expand_loop_spec (Z.to_nat n) 0 pp c (free_list cc) [] (bytes h)) as [Hlk' Hmem]; [lia|unfold pp; lia|rewrite Z.add_0_l, Z2Nat.id by lia; lia|done|by intros p Hp%elem_of_nil|].
  rewrite Z.add_0_l, Z2Nat.id in Hmem by lia. destruct (expand_loop _ _ _ _ _ _) as [free m'] eqn:Eloop. cbn [fst snd] in Hlk', Hmem.
  pose proof (new_objects_perm (Z.to_nat n) 0 pp c []) as Hperm. rewrite app_nil_r, Z2Nat.id in Hperm by lia. set (objs := new_objects (Z.to_nat n) 0 pp c []) in *.
  assert (Z.of_nat (length objs) = n) as Hlen by (rewrite Hperm, length_fmap, length_seqZ; lia).
  assert (forall r, r ∈ objects c objs -> r.2 = c /\ exists j, 0 <= j < n /\ r.1 = pp + j * c) as Hobj.
  { intros r (q & -> & Hq)%list_elem_of_fmap. split; [done|]. rewrite Hperm in Hq. apply list_elem_of_fmap in Hq as (j & -> & Hj%elem_of_seqZ). exists j. split; [lia|done]. }
  assert (forall r x, r ∈ objects c objs -> in_region r x -> in_frame 12 f (x - phys_offset)) as Hobjin.
  { intros [q c'] x Hr Hx. destruct (Hobj _ Hr) as (E2 & j & Hj & E1). cbn in E1, E2. subst q c'. apply (page_object_in f pp c n j); [lia|done|done|done|done]. }
  assert (total_objects cc + n < 2 ^ 64) as Htot. { rewrite Ht. pose proof (count_le k live). pose proof (pieces_length _ _ _ _ _ Hw Hi) as Hle. unfold pieces in Hle. rewrite length_app, length_fmap in Hle. nia. }
  unfold add_usize. rewrite (proj2 (Z.ltb_lt _ _)) by done. cbn [mbind outcome_bind].
  assert (forall r x, r ∈ pieces fls live -> in_region r x -> m' !! x = bytes h !! x) as Hold.
  { intros r x Hr Hx. apply Hmem. intros Hx'. pose proof (i_owned _ _ _ _ _ Hi) as Ho. rewrite Forall_forall in Ho. destruct (Ho r Hr) as (_ & _ & Hro). apply (Hro x Hx), Hin. unfold in_frame, pp in *. change (2 ^ 12) with 4096. lia. }
  destruct objs as [|p fl] eqn:Eobjs; [cbn in Hlen; lia|]. rewrite <- Eobjs in *. eexists _, a', m', p, fl. rewrite <- Eobjs. split; [done|]. split.
  - assert (pieces (<[k := objs]> fls) live ≡ₚ objects c objs ++ pieces fls live) as Hpieces.
    { unfold pieces. rewrite (free_objects_insert fls k c []), (free_objects_split fls k c []) by done. cbn [objects fmap list_fmap app]. by rewrite app_assoc. }
    apply (inv_update phys_offset limit h fls live k c) with (fl := []); try done; try apply Hi.
    + intros x Hx. apply (i_memory _ _ _ _ _ Hi). by apply Hav.
    + split_and!; cbn [free_list used_objects total_objects update_field]; [done|done|]. rewrite Hlen, Ht. lia.
    + intros r x Hr. apply Hold. unfold pieces. apply elem_of_app. left. rewrite (free_objects_split fls k c []) by done. by apply elem_of_app; right.
    + rewrite Hpieces. apply disjoint_app. split_and!; [|apply Hi|].
      * unfold objects. rewrite Hperm. replace n with (Z.of_nat (Z.to_nat n)) by lia. apply page_objects_disjoint. lia.
      * apply Forall_forall. intros r Hr. eapply Forall_impl; [apply (i_owned _ _ _ _ _ Hi)|]. intros r' Hr'. apply (fresh_apart phys_offset limit (source h)); [done|destruct (Hobj r Hr); lia|].
        intros x Hx. apply Hin. by apply (Hobjin r).
    + rewrite Hpieces. apply Forall_app. split; [|eapply Forall_impl; [apply (i_owned _ _ _ _ _ Hi)|]; intros r; apply owned_mono; intros x Hx; by apply Hav].
      apply Forall_forall. intros r Hr. destruct (Hobj r Hr) as (E2 & j & Hj & E1). unfold owned. rewrite E2. split_and!; [lia| |].
      * rewrite E1. unfold pp. replace (phys_offset + f + j * c - phys_offset) with (f + j * c) by lia. rewrite Z.mod_add by lia.
        destruct Hb as [_ _ Hal' _]. apply Z.mod_divide in Hal'; [|done]. apply Z.mod_divide; [lia|]. apply (Z.divide_trans _ (2 ^ 12)); [|done]. exists n. lia.
      * intros x Hx. pose proof (Hobjin r x Hr Hx) as Hfr. split; [by apply (i_memory _ _ _ _ _ Hi), Hin|]. intros Hx'. by apply Hav in Hx' as [_ ?].
  - intros b x Hb' Hx. apply (Hold (block b)); [|done]. unfold pieces. apply elem_of_app. right. apply list_elem_of_fmap. by exists b.
Qed.

(** ** Allocation *)

(** Memory of the blocks in use does not change. *)
Definition kept live m m' : Prop := forall b x, b ∈ live -> in_region (block b) x -> m' !! x = m !! x.

Lemma cache_allocate_ok h fls live k cc l : window phys_offset limit -> inv h fls live -> layout_ok l -> index_of l = Some k -> caches h !! k = Some cc ->
  match cache_allocate phys_offset cc (source h) (bytes h) (block_size l) with
  | Ok (cc', a', m', p) =>
      (p = 0 /\ cc' = cc /\ a' = source h /\ m' = bytes h /\ phys_alloc (source h) 12 = Ok (source h, None)) \/
      (exists fls', inv (mkHeap (<[k := cc']> (caches h)) a' m') fls' ((p, l) :: live) /\ kept live (bytes h) m')
  | Panic => exists q, 0 <= q - phys_offset < limit /\ 170 ∈ to_le 8 q
  | Err _ => False
  end.
Proof.
  intros Hw Hi Hl Hk Hcc. pose proof (index_class l k Hk) as Hc. set (c := block_size l) in *. destruct (lookup_lt_is_Some_2 fls k) as [fl Hfl]. { apply lookup_lt_Some in Hcc. rewrite (i_caches _ _ _ _ _ Hi) in Hcc. by rewrite (i_lists _ _ _ _ _ Hi). }
  assert (forall h1 fls1 cc1 p fl1, inv h1 fls1 live -> caches h1 !! k = Some cc1 -> fls1 !! k = Some (p :: fl1) -> kept live (bytes h) (bytes h1) -> (forall x, <[k := x]> (caches h1) = <[k := x]> (caches h)) ->
    match (r ← take_object cc1 (bytes h1) c; let '(cc', m', ptr) := r in Ok (cc', source h1, m', ptr)) : may_panic (SlabCache * A * mem * Z) with
    | Ok (cc', a', m', p) => exists fls', inv (mkHeap (<[k := cc']> (caches h)) a' m') fls' ((p, l) :: live) /\ kept live (bytes h) m'
    | Panic => exists q, 0 <= q - phys_offset < limit /\ 170 ∈ to_le 8 q
    | Err _ => False
    end) as Htake.
  { intros h1 fls1 cc1 p fl1 Hi1 Hcc1 Hfl1 Hkept Hins. destruct (take_ok h1 fls1 live k cc1 p fl1 l Hw Hi1 Hl Hk Hcc1 Hfl1) as [(cc' & m' & E & Hi' & Hm)|(E & q & Hq & Hb)]; fold c in E; rewrite E; cbn [mbind outcome_bind].
    - rewrite Hins in Hi'. eexists. split; [exact Hi'|]. intros b x Hb Hx. rewrite Hm; [by apply (Hkept b)|]. intros Hx'.
      pose proof (i_disjoint _ _ _ _ _ Hi') as Hd. unfold pieces in Hd. rewrite fmap_cons, <- Permutation_middle in Hd. apply (disjoint_in _ _ (block b) x Hd); [|done|done].
      apply elem_of_app. right. apply list_elem_of_fmap. by exists b.
    - exists q. split; [|done]. destruct fl1 as [|q' fl1]; [done|]. injection Hq as ->. pose proof (i_owned _ _ _ _ _ Hi1) as Ho. unfold pieces in Ho. rewrite (free_objects_split fls1 k c (p :: q :: fl1)) in Ho by done.
      cbn [objects fmap list_fmap app] in Ho. apply list.Forall_cons in Ho as [_ [(Hpos & _ & Hx) _]%list.Forall_cons]. apply Hx. unfold in_region. cbn in *. lia. }
  unfold cache_allocate. destruct fl as [|p fl]; destruct (i_cache _ _ _ _ _ Hi k cc _ Hcc Hfl) as (Hlk & _); cbn [linked] in Hlk.
  - rewrite Hlk. destruct (expand_ok h fls live k cc c Hw Hi Hc Hcc Hfl) as [(E & Hno)|(cc1 & a1 & m1 & p & fl & E & Hi1 & Hm)]; rewrite E; cbn [mbind outcome_bind]; [by left|].
    specialize (Htake _ _ cc1 p fl Hi1). cbn [caches source bytes] in Htake. 
    destruct (take_object cc1 m1 c) as [[[cc2 m2] ptr]| |]; cbn [mbind outcome_bind] in *; [right| |]; apply Htake; try done; try apply list_lookup_insert_eq.
    all: first [by apply lookup_lt_Some in Hcc|by apply lookup_lt_Some in Hfl|intros x; apply list_insert_insert_eq].
  - destruct Hlk as (-> & _). cbn [mbind outcome_bind]. specialize (Htake h fls cc p fl Hi Hcc Hfl). 
    destruct (take_object cc (bytes h) c) as [[[cc2 m2] ptr]| |]; cbn [mbind outcome_bind] in *; [right| |]; by apply Htake.
Qed.

(** A block the source gives to the heap, and one it gets back. *)
Lemma gain_block h fls live a' f l : window phys_offset limit -> inv h fls live -> layout_ok l -> index_of l = None -> source_ok a' -> Buddy.block_ok (order_of (rounded l)) f ->
  (forall x, in_frame (order_of (rounded l)) f x -> available (source h) x) -> (forall x, available a' x <-> available (source h) x /\ ~ in_frame (order_of (rounded l)) f x) ->
  block_size l = 2 ^ order_of (rounded l) -> inv (mkHeap (caches h) a' (bytes h)) fls ((phys_offset + f, l) :: live).
Proof.
  intros Hw Hi Hl Hk Ha Hb Hin Hav Hsz. set (o := order_of (rounded l)) in *. pose proof (Buddy.b_order _ _ Hb) as Ho. unfold Buddy.order_ok, Buddy.MIN_ORDER in Ho. pose proof (Z.pow_pos_nonneg 2 o ltac:(lia) ltac:(lia)) as Hpow.
  assert (forall x, in_region (phys_offset + f, 2 ^ o) x -> in_frame o f (x - phys_offset)) as Hreg by (intros x; unfold in_region, in_frame; cbn [fst snd]; lia).
  assert (pieces fls ((phys_offset + f, l) :: live) ≡ₚ (phys_offset + f, 2 ^ o) :: pieces fls live) as Hp. { unfold pieces. rewrite fmap_cons. unfold block at 1. cbn [fst snd]. rewrite Hsz. by rewrite <- Permutation_middle. }
  split; cbn [source caches bytes]; try apply Hi; try done.
  - intros x Hx. apply (i_memory _ _ _ _ _ Hi). by apply Hav.
  - intros k c fl Hc Hf. rewrite count_cons, decide_False, Z.add_0_r by (cbn; congruence). by apply Hi.
  - rewrite Hp. split; [|apply Hi]. eapply Forall_impl; [apply (i_owned _ _ _ _ _ Hi)|]. intros r Hr. apply (fresh_apart phys_offset limit (source h)); [done|done|]. intros x Hx. by apply Hin, Hreg.
  - rewrite Hp. constructor; [|eapply Forall_impl; [apply (i_owned _ _ _ _ _ Hi)|]; intros r; apply owned_mono; intros x Hx; by apply Hav].
    unfold owned. cbn [fst snd]. split_and!; [done|replace (phys_offset + f - phys_offset) with f by lia; apply Hb|]. intros x Hx. apply Hreg in Hx. split; [by apply (i_memory _ _ _ _ _ Hi), Hin|]. intros Hx'. by apply Hav in Hx' as [_ ?].
  - constructor; [done|apply Hi].
Qed.

Lemma lose_block h fls live a' p l : window phys_offset limit -> inv h fls ((p, l) :: live) -> index_of l = None -> source_ok a' ->
  (forall x, available a' x <-> available (source h) x \/ in_region (p, block_size l) (phys_offset + x)) -> inv (mkHeap (caches h) a' (bytes h)) fls live.
Proof.
  intros Hw Hi Hk Ha Hav. assert (pieces fls ((p, l) :: live) ≡ₚ (p, block_size l) :: pieces fls live) as Hp. { unfold pieces. rewrite fmap_cons. by rewrite <- Permutation_middle. }
  pose proof (i_owned _ _ _ _ _ Hi) as Ho. rewrite Hp in Ho. apply list.Forall_cons in Ho as [(Hpos & _ & Hown) Ho]. pose proof (i_disjoint _ _ _ _ _ Hi) as Hd. rewrite Hp in Hd.
  split; cbn [source caches bytes]; try apply Hi; try done.
  - intros x [Hx|Hx]%Hav; [by apply Hi|]. destruct (Hown _ Hx). lia.
  - intros k c fl Hc Hf. pose proof (i_cache _ _ _ _ _ Hi k c fl Hc Hf) as Hck. rewrite count_cons, decide_False, Z.add_0_r in Hck by (cbn; congruence). done.
  - apply Hd.
  - apply Forall_forall. intros r Hr. rewrite Forall_forall in Ho. destruct (Ho r Hr) as (H1 & H2 & H3). split_and!; [done|done|]. intros x Hx. destruct (H3 x Hx) as [? Hn]. split; [done|].
    intros [Hx'|Hx']%Hav; [done|]. replace (phys_offset + (x - phys_offset)) with x in Hx' by lia. by apply (disjoint_in _ _ r x Hd).
  - pose proof (i_layouts _ _ _ _ _ Hi) as Hl. by apply list.Forall_cons in Hl as [_ ?].
Qed.

(** The address of a block is a multiple of the alignment asked for. *)
Lemma owned_aligned a p l : layout_ok l -> phys_offset mod align l = 0 -> own a (p, block_size l) -> p mod align l = 0.
Proof.
  intros Hl Hoff (_ & Hm & _). cbn [fst snd] in Hm. destruct (block_size_pow l Hl) as (Hle & e & He & Ee). pose proof Hl as [_ (j & Hj & Ea) _]. pose proof (Z.pow_pos_nonneg 2 j ltac:(lia) Hj).
  assert (j <= e) as Hje. { apply (Z.pow_le_mono_r_iff 2); [lia|lia|]. rewrite <- Ea, <- Ee. unfold rounded in Hle. lia. }
  rewrite Ee in Hm. rewrite Ea in *. apply Z.mod_divide in Hm; [|lia]. apply Z.mod_divide in Hoff; [|lia]. apply Z.mod_divide; [lia|]. replace p with ((p - phys_offset) + phys_offset) by lia. apply Z.divide_add_r; [|done].
  apply (Z.divide_trans _ (2 ^ e)); [|done]. exists (2 ^ (e - j)). rewrite <- Z.pow_add_r by lia. f_equal. lia.
Qed.

Lemma live_piece h fls live p l : inv h fls ((p, l) :: live) -> own (source h) (p, block_size l) /\ (window phys_offset limit -> p <> 0).
Proof.
  intros Hi. pose proof (i_owned _ _ _ _ _ Hi) as Ho. rewrite Forall_forall in Ho. assert (own (source h) (p, block_size l)) as Hp. { apply Ho. unfold pieces. apply elem_of_app. right. by left. }
  split; [done|]. intros Hw. destruct Hp as (Hpos & _ & Hx). destruct (Hx p); [unfold in_region; cbn in *; lia|]. pose proof (w_offset _ _ Hw). lia.
Qed.

(** What a successful allocation gives: a new block, and the rest as it was. *)
Definition allocated h live l h' (p : Z) : Prop :=
  p <> 0 /\ p mod align l = 0 /\ size l <= block_size l /\ Forall (fun b => apart (p, block_size l) (block b)) live /\ kept live (bytes h) (bytes h') /\
  exists fls, inv h' fls ((p, l) :: live).

Lemma allocated_ok h fls live l h' p : window phys_offset limit -> layout_ok l -> phys_offset mod align l = 0 -> inv h' fls ((p, l) :: live) -> kept live (bytes h) (bytes h') -> allocated h live l h' p.
Proof.
  intros Hw Hl Hal Hi Hk. destruct (live_piece _ _ _ _ _ Hi) as [Ho Hp]. destruct (block_size_pow l Hl) as [Hle _]. unfold rounded in Hle. split_and!; [by apply Hp|by apply (owned_aligned (source h'))|lia| |done|by exists fls].
  pose proof (i_disjoint _ _ _ _ _ Hi) as Hd. unfold pieces in Hd. rewrite fmap_cons, <- Permutation_middle in Hd. destruct Hd as [Hd _]. apply Forall_app in Hd as [_ Hd]. rewrite Forall_fmap in Hd. exact Hd.
Qed.

(** [alloc] hands out a block for the layout, or null when the frame source
    has no block left and then nothing changes.  It stops the kernel only when
    the address of a free object has a byte that its check takes for the mark
    of a block in use. *)
Lemma heap_alloc_ok h fls live l : window phys_offset limit -> inv h fls live -> layout_ok l -> phys_offset mod align l = 0 ->
  match alloc phys_offset h l with
  | Ok (h', p) => (p = 0 /\ h' = h /\ exists o, phys_alloc (source h) o = Ok (source h, None)) \/ allocated h live l h' p
  | Panic => exists q, 0 <= q - phys_offset < limit /\ 170 ∈ to_le 8 q
  | Err _ => False
  end.
Proof.
  intros Hw Hi Hl Hal. unfold alloc, allocate. fold (rounded l). pose proof (rounded_pos l Hl) as Hpos. destruct (Z.ltb_spec MAX_SLAB_SIZE (rounded l)) as [Hlt|Hge].
  - unfold allocate_large. replace (Z.max (rounded l) (align l)) with (rounded l) by (unfold rounded; lia). rewrite order_of_eq by (destruct Hl; lia). cbn [mbind outcome_bind].
    destruct (order_of_bounds (rounded l)) as [Ho _]; [destruct Hl; lia|]. destruct (alloc_law (source h) _ (i_source _ _ _ _ _ Hi) Ho) as (a' & [f|] & E & Hok & Hr); rewrite E; cbn [mbind outcome_bind].
    + destruct Hr as (Hb & Hin & Hav). assert (0 <= f < limit) as Hf. { apply (i_memory _ _ _ _ _ Hi), Hin. unfold in_frame, Buddy.order_ok, Buddy.MIN_ORDER in *. pose proof (Z.pow_pos_nonneg 2 (order_of (rounded l)) ltac:(lia) ltac:(lia)). lia. }
      rewrite (phys_to_virt_ok f Hw Hf). cbn [mbind outcome_bind]. right. eapply allocated_ok; try done. apply gain_block; try done; unfold index_of, block_size; by rewrite (proj2 (Z.ltb_lt _ _)).
    + subst a'. left. split; [done|]. split; [by destruct h|]. by eexists.
  - destruct (slab_index_small (rounded l)) as (k & c & Hk & Hc & _); [lia|]. rewrite Hk, Hc. cbn [unwrap mbind outcome_bind].
    assert (index_of l = Some k) as Hidx by (unfold index_of; by rewrite (proj2 (Z.ltb_ge _ _))). pose proof (index_class l k Hidx) as Hc'. rewrite Hc in Hc'. injection Hc' as ->.
    assert (negb (is_power_of_two (block_size l)) || negb (block_size l <=? PAGE_SIZE) = false) as ->.
    { assert (Forall (fun c => negb (is_power_of_two c) || negb (c <=? PAGE_SIZE) = false) SLAB_SIZES) as Hall by (repeat constructor). rewrite Forall_lookup in Hall. by apply (Hall k). }
    destruct (lookup_lt_is_Some_2 (caches h) k) as [cc Hcc]. { apply lookup_lt_Some in Hc. by rewrite (i_caches _ _ _ _ _ Hi). } rewrite Hcc. cbn [unwrap mbind outcome_bind].
    pose proof (cache_allocate_ok h fls live k cc l Hw Hi Hl Hidx Hcc) as Hca. destruct (cache_allocate _ _ _ _ _) as [[[[cc' a'] m'] p]| |]; cbn [mbind outcome_bind]; [|done|done].
    destruct Hca as [(-> & -> & -> & -> & Hno)|(fls' & Hi' & Hkept)]; [left|right; by eapply allocated_ok].
    split; [done|]. split; [|by eexists]. rewrite list_insert_id by done. by destruct h.
Qed.

(** ** Freeing *)

(** The large blocks go back to the source. *)
Lemma dealloc_large_ok h fls live p l : window phys_offset limit -> inv h fls ((p, l) :: live) -> ready (source h) -> index_of l = None -> MAX_SLAB_SIZE < rounded l ->
  exists h', deallocate_large phys_offset h p (rounded l) = Ok h' /\ inv h' fls live /\ kept live (bytes h) (bytes h').
Proof.
  intros Hw Hi Hready Hidx Hlt. pose proof (i_layouts _ _ _ _ _ Hi) as Hl. apply list.Forall_cons in Hl as [Hl _]. cbn [snd] in Hl. pose proof (rounded_pos l Hl) as Hpos.
  destruct (live_piece _ _ _ _ _ Hi) as [(Hsz & Hmod & Hown) _]. cbn [fst snd] in *.
  assert (block_size l = 2 ^ order_of (rounded l)) as Eb by (unfold block_size; by rewrite (proj2 (Z.ltb_lt _ _))). destruct (order_of_bounds (rounded l)) as [Ho _]; [destruct Hl; lia|].
  destruct (Hown p) as [Hlim _]; [unfold in_region; cbn; lia|]. pose proof (w_limit _ _ Hw). destruct (Hown (p + block_size l - 1)) as [Hlim' _]; [unfold in_region; cbn; lia|].
  unfold deallocate_large. rewrite order_of_eq by (destruct Hl; lia). cbn [mbind outcome_bind]. unfold virt_addr.
  assert (canonical p = true) as -> by (replace p with (phys_offset + (p - phys_offset)) by lia; by apply (w_canonical _ _ Hw)). cbn [mbind outcome_bind].
  rewrite (proj2 (Z.ltb_ge _ _)), Buddy.phys_addr_ok by lia. cbn [mbind outcome_bind]. assert (Buddy.block_ok (order_of (rounded l)) (p - phys_offset)) as Hb by (split; [done|lia|by rewrite <- Eb|lia]).
  destruct (free_law (source h) _ _ (i_source _ _ _ _ _ Hi) Hready Hb) as (a' & E & Ha & Hav).
  { intros x Hx Hx'. destruct (Hown (phys_offset + x)) as [_ Hn]; [unfold in_region, in_frame in *; cbn; lia|]. apply Hn. by replace (phys_offset + x - phys_offset) with x by lia. }
  rewrite E. cbn [mbind outcome_bind]. eexists. split; [done|]. split; [|by intros b x _ _]. apply (lose_block h fls live a' p l); try done.
  intros x. rewrite Hav. unfold in_region, in_frame. cbn. rewrite Eb. intuition lia.
Qed.

(** An object that goes back to its cache. *)
Lemma cache_deallocate_ok h fls live k cc p l : window phys_offset limit -> inv h fls ((p, l) :: live) -> index_of l = Some k -> caches h !! k = Some cc ->
  let r := cache_deallocate cc (bytes h) p (block_size l) in
  exists fls', inv (mkHeap (<[k := r.1]> (caches h)) (source h) r.2) fls' live /\ kept live (bytes h) r.2.
Proof.
  intros Hw Hi Hidx Hcc. pose proof (index_class l k Hidx) as Hc. pose proof (i_layouts _ _ _ _ _ Hi) as Hls. apply list.Forall_cons in Hls as [_ Hls].
  destruct (live_piece _ _ _ _ _ Hi) as [(Hsz & Hmod & Hown) _]. cbn [fst snd] in *. destruct (lookup_lt_is_Some_2 fls k) as [fl Hfl]. { apply lookup_lt_Some in Hc. by rewrite (i_lists _ _ _ _ _ Hi). }
  pose proof (i_disjoint _ _ _ _ _ Hi) as Hd. unfold pieces in Hd. rewrite fmap_cons, <- Permutation_middle in Hd. unfold block at 1 in Hd. cbn [fst snd] in Hd.
  unfold cache_deallocate. cbn [fst snd]. set (m' := write_bytes _ _ _). destruct (slab_sizes k _ Hc) as (e & He & Ee). pose proof (Z.pow_le_mono_r 2 3 e ltac:(lia) ltac:(lia)) as Hc8. change (2 ^ 3) with 8 in Hc8. rewrite <- Ee in Hc8.
  assert (forall r x, r ∈ free_objects fls ++ (block <$> live) -> in_region r x -> m' !! x = bytes h !! x) as Hold.
  { intros r x Hr Hx. assert (~ in_region (p, block_size l) x) as Hn by (intros Hn; by apply (disjoint_in _ _ r x Hd)). unfold m'. rewrite write_region by (rewrite length_ptr_bytes; unfold in_region in *; cbn in *; lia). apply fill_region; [lia|done]. }
  destruct (i_cache _ _ _ _ _ Hi k cc fl Hcc Hfl) as (Hlk & Hu & Ht). rewrite count_cons, decide_True in Hu, Ht by done. pose proof (count_le k live).
  assert (pieces (<[k := p :: fl]> fls) live ≡ₚ pieces fls ((p, l) :: live)) as Hpieces.
  { rewrite <- (pieces_take (<[k := p :: fl]> fls) live k p fl l); [|done|apply list_lookup_insert_eq; by apply lookup_lt_Some in Hfl]. rewrite list_insert_insert_eq. by rewrite (list_insert_id _ _ _ Hfl). }
  exists (<[k := p :: fl]> fls). split; [|intros b x Hb; apply (Hold (block b)), elem_of_app; right; apply list_elem_of_fmap; by exists b].
  apply (inv_update phys_offset limit h fls ((p, l) :: live) k (block_size l)) with (fl := fl); try done; try apply Hi.
  - destruct (Hown p) as [Hlim _]; [unfold in_region; cbn; lia|]. pose proof (w_offset _ _ Hw). pose proof (w_fits _ _ Hw).
    split_and!; cbn [free_list used_objects total_objects update_field linked length]; [|lia|lia]. split_and!; [done|lia|lia| |].
    + rewrite <- (linked_head _ _ _ Hlk). unfold m'. rewrite <- (length_ptr_bytes (free_list cc)) at 1. apply read_write_bytes.
    + rewrite <- (linked_head _ _ _ Hlk). apply (linked_ext (bytes h)); [|done]. intros q x Hq Hx. apply (Hold (q, block_size l)); [|unfold in_region; cbn; lia].
      apply elem_of_app. left. rewrite (free_objects_split fls k _ fl) by done. apply elem_of_app. left. apply list_elem_of_fmap. by exists q.
  - intros j Hj. rewrite count_cons, decide_False; [lia|]. cbn. congruence.
  - intros r x Hr. apply Hold. apply elem_of_app. left. rewrite (free_objects_split fls k _ fl) by done. apply elem_of_app. by right.
  - rewrite Hpieces. apply Hi.
  - rewrite Hpieces. apply Hi.
Qed.

Lemma dealloc_ok h fls live p l : window phys_offset limit -> inv h fls ((p, l) :: live) -> ready (source h) ->
  exists h' fls', dealloc phys_offset h p l = Ok h' /\ inv h' fls' live /\ kept live (bytes h) (bytes h').
Proof.
  intros Hw Hi Hready. pose proof (i_layouts _ _ _ _ _ Hi) as Hl. apply list.Forall_cons in Hl as [Hl _]. cbn [snd] in Hl. pose proof (rounded_pos l Hl) as Hpos.
  destruct (live_piece _ _ _ _ _ Hi) as [_ Hp]. specialize (Hp Hw). unfold dealloc, deallocate. rewrite (proj2 (Z.eqb_neq _ _)) by done. fold (rounded l).
  destruct (Z.ltb_spec MAX_SLAB_SIZE (rounded l)) as [Hlt|Hge].
  - destruct (dealloc_large_ok h fls live p l Hw Hi Hready) as (h' & E & Hi' & Hk); [unfold index_of; by rewrite (proj2 (Z.ltb_lt _ _))|done|]. by exists h', fls.
  - destruct (slab_index_small (rounded l)) as (k & c & Hk & Hc & _); [lia|]. assert (index_of l = Some k) as Hidx by (unfold index_of; by rewrite (proj2 (Z.ltb_ge _ _))).
    pose proof (index_class l k Hidx) as Hc'. rewrite Hc in Hc'. injection Hc' as ->. rewrite Hk. destruct (lookup_lt_is_Some_2 (caches h) k) as [cc Hcc]. { apply lookup_lt_Some in Hc. by rewrite (i_caches _ _ _ _ _ Hi). }
    rewrite Hcc, Hc. cbn [unwrap mbind outcome_bind]. destruct (cache_deallocate_ok h fls live k cc p l Hw Hi Hidx Hcc) as (fls' & Hi' & Hkept). destruct (cache_deallocate _ _ _ _) as [c' m']. by eexists _, fls'.
Qed.


(** ** Runs *)

(** Addresses of memory the heap holds. *)
Definition holds h live (x : Z) : Prop := exists fls r, inv h fls live /\ r ∈ pieces fls live /\ in_region r (phys_offset + x).

(** The heap, the blocks in use and what their owners expect in them.  Owners
    ask for blocks, give them back and write to them; the rest of the kernel
    takes and returns frames that are not the heap's. *)
Inductive heap_step : Heap A * list (Z * Layout) * mem -> Heap A * list (Z * Layout) * mem -> Prop :=
| step_alloc h live v l h' p v' :
    layout_ok l -> phys_offset mod align l = 0 -> alloc phys_offset h l = Ok (h', p) -> p <> 0 ->
    (forall x, v' !! x = if bool_decide (p <= x < p + block_size l) then bytes h' !! x else v !! x) -> heap_step (h, live, v) (h', (p, l) :: live, v')
| step_full h live v l h' : layout_ok l -> phys_offset mod align l = 0 -> alloc phys_offset h l = Ok (h', 0) -> heap_step (h, live, v) (h', live, v)
| step_free h live v p l live' h' : live ≡ₚ (p, l) :: live' -> ready (source h) -> dealloc phys_offset h p l = Ok h' -> heap_step (h, live, v) (h', live', v)
| step_write h live v p l off bs :
    (p, l) ∈ live -> 0 <= off -> off + Z.of_nat (length bs) <= size l ->
    heap_step (h, live, v) (mkHeap (caches h) (source h) (write_bytes (bytes h) (p + off) bs), live, write_bytes v (p + off) bs)
| step_frames h live v a : source_ok a -> (forall x, available a x -> 0 <= x < limit /\ ~ holds h live x) -> heap_step (h, live, v) (mkHeap (caches h) a (bytes h), live, v).

(** Each block holds what its owner expects. *)
Definition faithful (s : Heap A * list (Z * Layout) * mem) : Prop :=
  let '(h, live, v) := s in (exists fls, inv h fls live) /\ Forall (fun b => b.1 mod align b.2 = 0) live /\ forall b x, b ∈ live -> in_region (block b) x -> bytes h !! x = v !! x.

Lemma write_same (m v : mem) (p : Z) bs x : m !! x = v !! x -> write_bytes m p bs !! x = write_bytes v p bs !! x.
Proof. revert m v p; induction bs as [|b bs IH]; intros m v p E; [done|]. cbn [write_bytes]. apply IH. destruct (decide (x = p)) as [->|]; [by rewrite !lookup_insert_eq|by rewrite !lookup_insert_ne]. Qed.

(** Writing inside a block in use. *)
Lemma write_inv h fls live p l off bs : inv h fls live -> (p, l) ∈ live -> 0 <= off -> off + Z.of_nat (length bs) <= size l ->
  inv (mkHeap (caches h) (source h) (write_bytes (bytes h) (p + off) bs)) fls live.
Proof.
  intros Hi Hin Hoff Hlen. pose proof (i_layouts _ _ _ _ _ Hi) as Hl. rewrite Forall_forall in Hl. specialize (Hl _ Hin). cbn [snd] in Hl. destruct (block_size_pow l Hl) as [Hle _]. unfold rounded in Hle.
  split; cbn [source caches bytes]; try apply Hi. intros k c fl Hc Hf. destruct (i_cache _ _ _ _ _ Hi k c fl Hc Hf) as (Hlk & Hu & Ht). split_and!; [|done|done].
  apply (linked_ext (bytes h)); [|done]. intros q x Hq Hx. apply write_region. intros Hx'. destruct (lookup_lt_is_Some_2 SLAB_SIZES k) as [z Hz]. { apply lookup_lt_Some in Hf. by rewrite (i_lists _ _ _ _ _ Hi) in Hf. }
  destruct (slab_sizes k z Hz) as (e & He & Ee). pose proof (Z.pow_le_mono_r 2 3 e ltac:(lia) ltac:(lia)). change (2 ^ 3) with 8 in *. rewrite <- Ee in *.
  pose proof (i_disjoint _ _ _ _ _ Hi) as Hd. unfold pieces in Hd. rewrite (free_objects_split fls k z fl) in Hd by done. apply disjoint_app in Hd as (_ & _ & Hd). rewrite Forall_forall in Hd.
  specialize (Hd (q, z) ltac:(apply elem_of_app; left; apply list_elem_of_fmap; by exists q)). rewrite Forall_forall in Hd. specialize (Hd (block (p, l)) ltac:(apply list_elem_of_fmap; by exists (p, l))).
  unfold apart, in_region, block in *. cbn in *. lia.
Qed.

Lemma heap_step_faithful s s' : window phys_offset limit -> faithful s -> heap_step s s' -> faithful s'.
Proof.
  intros Hw Hs Hst. destruct Hst as [h live v l h' p v' Hl Hal E Hp Hv|h live v l h' Hl Hal E|h live v p l live' h' Hperm Hready E|h live v p l off bs Hin Hoff Hlen|h live v a Ha Hav]; destruct Hs as ((fls & Hi) & Hali & Hsame).
  - pose proof (heap_alloc_ok h fls live l Hw Hi Hl Hal) as Hok. rewrite E in Hok. destruct Hok as [(? & _)|(_ & Hmod & _ & Hap & Hk & Hi')]; [done|]. split; [done|]. split; [by constructor|].
    intros b x [->|Hb]%elem_of_cons Hx; rewrite Hv; [by rewrite bool_decide_true|]. rewrite Forall_forall in Hap. specialize (Hap b Hb). rewrite bool_decide_false by (unfold apart, in_region in *; cbn in *; lia).
    rewrite (Hk b x) by done. by apply (Hsame b).
  - pose proof (heap_alloc_ok h fls live l Hw Hi Hl Hal) as Hok. rewrite E in Hok. destruct Hok as [(_ & -> & _)|(? & _)]; [|done]. split; [by exists fls|done].
  - destruct (dealloc_ok h fls live' p l Hw (live_perm _ _ _ _ _ _ Hperm Hi) Hready) as (h2 & fls2 & E2 & Hi2 & Hk). assert (h2 = h') as -> by congruence. split; [by exists fls2|]. rewrite Hperm in Hali. apply list.Forall_cons in Hali as [_ Hali]. split; [done|].
    intros b x Hb Hx. rewrite (Hk b x) by done. apply (Hsame b); [|done]. rewrite Hperm. by right.
  - split; [exists fls; by apply (write_inv h fls live p l)|]. split; [done|]. intros b x Hb Hx. cbn [bytes]. by apply write_same, (Hsame b).
  - split; [|done]. exists fls. split; cbn [source caches bytes]; try apply Hi; [done|intros x Hx; by apply Hav|]. apply Forall_forall. intros r Hr. pose proof (i_owned _ _ _ _ _ Hi) as Ho. rewrite Forall_forall in Ho.
    destruct (Ho r Hr) as (Hr1 & Hr2 & Hr3). split_and!; [done|done|]. intros x Hx. split; [by apply Hr3|]. intros [_ Hn]%Hav. apply Hn. exists fls, r. split_and!; [done|done|]. by replace (phys_offset + (x - phys_offset)) with x by lia.
Qed.

(** C18: From boot on, however blocks are allocated, freed and written and frames
    are used elsewhere, the blocks in use are disjoint, each has the size and
    the alignment asked for, and holds what its owner last wrote to it: free
    lists kept inside free objects and the filling of freed ones never touch
    it. *)
Theorem heap_safe a m v h live v' : window phys_offset limit -> source_ok a -> (forall x, available a x -> 0 <= x < limit) -> rtc heap_step (new a m, [], v) (h, live, v') ->
  disjoint (block <$> live) /\ Forall (fun b => b.1 mod align b.2 = 0 /\ size b.2 <= block_size b.2) live /\
  forall b x, b ∈ live -> in_region (block b) x -> bytes h !! x = v' !! x /\ ~ available (source h) (x - phys_offset).
Proof.
  intros Hw Ha Hav Hst. assert (faithful (h, live, v')) as ((fls & Hi) & Hali & Hsame).
  { assert (faithful (new a m, [], v)) as H0. { split; [eexists; by apply new_inv|]. split; [done|]. by intros b x ?%elem_of_nil. }
    revert H0. induction Hst as [|s1 s2 s3 H12 _ IH]; [done|]. intros H1. by apply IH, (heap_step_faithful s1). }
  pose proof (i_disjoint _ _ _ _ _ Hi) as Hd. unfold pieces in Hd. apply disjoint_app in Hd as (_ & Hd & _). split; [done|]. pose proof (i_layouts _ _ _ _ _ Hi) as Hl. split.
  - apply Forall_forall. intros b Hb. rewrite Forall_forall in Hali, Hl. split; [by apply Hali|]. destruct (block_size_pow b.2 (Hl b Hb)) as [Hle _]. unfold rounded in Hle. lia.
  - intros b x Hb Hx. split; [by apply (Hsame b)|]. pose proof (i_owned _ _ _ _ _ Hi) as Ho. rewrite Forall_forall in Ho. destruct (Ho (block b)) as (_ & _ & H3); [unfold pieces; apply elem_of_app; right; apply list_elem_of_fmap; by exists b|]. by apply H3.
Qed.

End props.
(** ** A heap on the buddy allocator *)

(** Physical memory seen from 1 TiB on; 64 KiB of it at 1 MiB are free. *)
Definition OFFSET : Z := 2 ^ 40.
Definition LIMIT : Z := 2 ^ 29.
Definition boot : Heap Buddy.BuddyAllocator := new Buddy.demo ∅.

Lemma boot_window : window OFFSET LIMIT.
Proof. split; try done. intros p Hp. unfold canonical. rewrite (proj2 (Z.ltb_lt _ _)); [done|]. unfold OFFSET, LIMIT in *. lia. Qed.

Lemma boot_source : source_ok Buddy.demo /\ forall x, available Buddy.demo x -> 0 <= x < LIMIT.
Proof.
  destruct Buddy.demo_rep as (L & Hr & Hx). split; [by exists L|]. intros x Ha. apply (buddy_available_rep _ L x Hr), Hx in Ha. unfold LIMIT. lia.
Qed.

Definition alloc_addr (h : Heap Buddy.BuddyAllocator) (l : Layout) : option (Heap Buddy.BuddyAllocator * Z) := match alloc OFFSET h l with Ok r => Some r | _ => None end.
Definition word : Layout := mkLayout 24 8.
Definition large : Layout := mkLayout 5000 4096.
Definition after_word : Heap Buddy.BuddyAllocator := default boot (fst <$> alloc_addr boot word).

Lemma small_layouts : layout_ok word /\ layout_ok large.
Proof. split; split; try done; [by exists 3|by exists 12]. Qed.

Lemma heap_boot_inv : heap_inv OFFSET LIMIT boot (replicate 9 []) [].
Proof. destruct boot_source. by apply new_inv. Qed.

Lemma boot_ready : ready (source boot).
Proof. apply (walkable_scannable 8); [unfold Buddy.SCAN_LIMIT; lia|by vm_compute]. Qed.

Lemma alloc_addr_ok h l : bool_decide (is_Some (alloc_addr h l)) = true -> alloc OFFSET h l = Ok (default boot (fst <$> alloc_addr h l), default 0 (snd <$> alloc_addr h l)).
Proof. intros Hs%bool_decide_eq_true. unfold alloc_addr in *. destruct (alloc OFFSET h l) as [[h' p]| |]; [done|by destruct Hs..]. Qed.

Definition P1 : Z := default 0 (snd <$> alloc_addr boot word).

Lemma boot_alloc : alloc OFFSET boot word = Ok (after_word, P1).
Proof. apply alloc_addr_ok. by vm_compute. Qed.

Lemma boot_block : P1 <> 0.
Proof. by vm_compute. Qed.


(** Two blocks; the first is written before the second is allocated. *)
Definition hello : list Z := [104; 101; 108; 108; 111].
Definition written (h : Heap Buddy.BuddyAllocator) (p : Z) : Heap Buddy.BuddyAllocator := mkHeap (caches h) (source h) (write_bytes (bytes h) p hello).
Definition H1 : Heap Buddy.BuddyAllocator := written after_word P1.
Definition P2 : Z := default 0 (snd <$> alloc_addr H1 large).
Definition H2 : Heap Buddy.BuddyAllocator := default boot (fst <$> alloc_addr H1 large).

(** What the owner of [n] bytes at [p] finds there, with the rest as before. *)
Lemma view_exists (m v : mem) p n : exists v' : mem, forall x, v' !! x = if bool_decide (p <= x < p + n) then m !! x else v !! x.
Proof.
  exists (filter (fun kv => p <= kv.1 < p + n) m ∪ filter (fun kv => ~ p <= kv.1 < p + n) v). intros x. rewrite lookup_union, !map_lookup_filter.
  destruct (bool_decide_reflect (p <= x < p + n)) as [Hx|Hx]; destruct (m !! x), (v !! x); cbn; repeat case_guard; cbn; tauto.
Qed.

Lemma heap_safe_witness : exists v, rtc (heap_step OFFSET LIMIT) (boot, [], ∅) (H2, [(P2, large); (P1, word)], v) /\ disjoint [block (P2, large); block (P1, word)].
Proof.
  destruct boot_source as [Ha Hav]. destruct small_layouts as [Hl1 Hl2].
  destruct (view_exists (bytes after_word) ∅ P1 (block_size word)) as [v1 Hv1]. destruct (view_exists (bytes H2) (write_bytes v1 (P1 + 0) hello) P2 (block_size large)) as [v2 Hv2].
  assert (rtc (heap_step OFFSET LIMIT) (boot, [], ∅) (H2, [(P2, large); (P1, word)], v2)) as Hst.
  { apply (rtc_l _ _ (after_word, [(P1, word)], v1)); [apply step_alloc; [exact Hl1|done|exact boot_alloc|exact boot_block|exact Hv1]|].
    apply (rtc_l _ _ (H1, [(P1, word)], write_bytes v1 (P1 + 0) hello)).
    { assert (H1 = mkHeap (caches after_word) (source after_word) (write_bytes (bytes after_word) (P1 + 0) hello)) as -> by (unfold H1, written; by rewrite Z.add_0_r). apply step_write with (l := word); [by left|done|cbn; lia]. }
    apply (rtc_l _ _ (H2, [(P2, large); (P1, word)], v2)); [|reflexivity]. apply step_alloc; [exact Hl2|done|apply (alloc_addr_ok H1 large); by vm_compute|by vm_compute|exact Hv2]. }
  exists v2. split; [exact Hst|]. exact (proj1 (heap_safe OFFSET LIMIT Buddy.demo ∅ ∅ H2 _ v2 boot_window Ha Hav Hst)).
Defined.

(** ** Where it stops the kernel *)

Fixpoint allocs (n : nat) (l : Layout) (h : Heap Buddy.BuddyAllocator) : may_panic (Heap Buddy.BuddyAllocator) :=
  match n with
  | O => Ok h
  | S n' => r ← alloc OFFSET h l; allocs n' l r.1
  end.

(** With only the page at [0xA000] free, the twentieth request for 64 bytes
    finds an object whose successor is at [0xAAC0] and takes a byte of that
    address for a mark: nothing was freed, and the kernel stops. *)
Definition page_A : Buddy.BuddyAllocator := match Buddy.add_region Buddy.new 40960 45056 with Ok s => s | _ => Buddy.new end.

Theorem heap_false_alarm : (exists h, allocs 19 (mkLayout 64 8) (new page_A ∅) = Ok h) /\ allocs 20 (mkLayout 64 8) (new page_A ∅) = Panic.
Proof.
  assert ((match allocs 19 (mkLayout 64 8) (new page_A ∅) with Ok _ => true | _ => false end) = true) as E by (by vm_compute).
  split; [|by vm_compute]. destruct (allocs 19 _ _) as [h| |]; [by exists h|done..].
Qed.

(** A request beyond 256 MiB stops the kernel instead of returning null. *)
Theorem large_request_panics h sz : 2 ^ 28 < sz <= 2 ^ 62 -> alloc OFFSET h (mkLayout sz 8) = Panic.
Proof.
  intros Hsz. unfold alloc, allocate, allocate_large. cbn [size align]. rewrite !(Z.max_l sz 8) by lia. rewrite (proj2 (Z.ltb_lt _ _)) by (unfold MAX_SLAB_SIZE; lia).
  unfold size_to_buddy_order, add_usize, PAGE_SIZE. rewrite (proj2 (Z.ltb_lt _ _)) by lia. cbn [mbind outcome_bind].
  assert (2 ^ 16 < (sz + 4096 - 1) / 4096 <= 2 ^ 50) as Hp by (split; [apply Z.lt_le_trans with (2 ^ 16 + 1); [lia|apply Z.div_le_lower_bound; lia]|apply Z.lt_succ_r, Z.div_lt_upper_bound; lia]).
  set (pages := (sz + 4096 - 1) / 4096) in *. rewrite (proj2 (Z.leb_gt _ _)) by lia. unfold next_power_of_two. pose proof (Z.log2_up_le_mono pages (2 ^ 50) ltac:(lia)) as Hup. rewrite log2_up_pow in Hup by done.
  pose proof (Z.log2_up_lt_pow2 pages 16 ltac:(lia)) as Hlow. pose proof (Z.log2_up_le_pow2 pages 16 ltac:(lia)) as Hlow'. pose proof (Z.pow_lt_mono_r 2 (Z.log2_up pages) 64 ltac:(lia) ltac:(lia) ltac:(lia)).
  rewrite (proj2 (Z.ltb_lt _ _)) by done. cbn [mbind outcome_bind]. rewrite trailing_zeros_pow by apply Z.log2_up_nonneg.
  cbn [phys_alloc buddy_source]. unfold buddy_alloc, Buddy.allocate, PAGE_ORDER, Buddy.MAX_ORDER. rewrite (proj2 (Z.leb_gt (12 + _) 28)) by lia. by rewrite andb_false_r.
Qed.

End SlabProps.
