(* ===== verification/Vma.v ===== *)
(** Virtual memory areas: [kernel/src/memory/vma.rs].

    A [VmaList] is the fixed array of slots of the source.  Address arithmetic
    is 64-bit and checked: an overflow in [Vma::end] or [overlaps] is a
    panic, so the lookups are in the panic monad. *)

From Stdlib Require Import ZArith Lia.
From stdpp Require Import base numbers gmap strings list.
From S2P Require Import Prelude.

Local Open Scope Z_scope.

Module Vma.

(** ** Model *)

Definition MAX_VMAS_PER_PROCESS : nat := 64.
Definition STACK_GROWTH_GUARD_PAGES : Z := 64.
Definition STACK_MAX_PAGES : Z := 2048.

Inductive VmaKind := Anonymous | Code | Huge2M | GrowableStack.
#[global] Instance VmaKind_eq_dec : EqDecision VmaKind.
Proof. solve_decision. Defined.

Record Vma := mkVma { start : Z; size_pages : Z; flags : Z; kind : VmaKind }.
#[global] Instance Vma_fields : Fields Vma := fun v => mkVma (start v) (size_pages v) (flags v) (kind v).
#[global] Instance Vma_eq_dec : EqDecision Vma.
Proof. solve_decision. Defined.

(** An unsigned 64-bit result, checked. *)
Definition checked {E} (z : Z) : outcome E Z := if in_widthb 64 z then Ok z else Panic.

Definition vma_end {E} (v : Vma) : outcome E Z := checked (start v + size_pages v * 4096).

Definition contains {E} (v : Vma) (addr : Z) : outcome E bool :=
  if start v <=? addr then e ← vma_end v; Ok (addr <? e) else Ok false.

Abbreviation VmaList := (list (option Vma)).

Definition new : VmaList := replicate MAX_VMAS_PER_PROCESS None.

(** [add]: the first free slot; [None] is the error of a full list. *)
Fixpoint add (l : VmaList) (v : Vma) : option VmaList :=
  match l with
  | [] => None
  | None :: l' => Some (Some v :: l')
  | Some w :: l' => cons (Some w) <$> add l' v
  end.

Fixpoint find {E} (l : VmaList) (addr : Z) : outcome E (option Vma) :=
  match l with
  | [] => Ok None
  | None :: l' => find l' addr
  | Some v :: l' => b ← contains v addr; if b : bool then Ok (Some v) else find l' addr
  end.

(** [remove]: the first area that starts at [at_]. *)
Fixpoint remove (l : VmaList) (at_ : Z) : option (VmaList * Vma) :=
  match l with
  | [] => None
  | Some v :: l' =>
      if start v =? at_ then Some (None :: l', v)
      else (fun r => (Some v :: r.1, r.2)) <$> remove l' at_
  | None :: l' => (fun r => (None :: r.1, r.2)) <$> remove l' at_
  end.

(** The [any] of [overlaps] and of [grow_stack]: an area that starts below
    [hi] and ends above [lo]. *)
Fixpoint any_between {E} (l : VmaList) (lo hi : Z) : outcome E bool :=
  match l with
  | [] => Ok false
  | None :: l' => any_between l' lo hi
  | Some v :: l' =>
      if start v <? hi then
        e ← vma_end v; if lo <? e then Ok true else any_between l' lo hi
      else any_between l' lo hi
  end.

Definition overlaps {E} (l : VmaList) (at_ pages : Z) : outcome E bool :=
  e ← checked (at_ + pages * 4096); any_between l at_ e.

(** The first pass of [grow_stack]: the first stack area that may grow down
    to [page_addr], with its position and new size. *)
Fixpoint growth_target {E} (l : VmaList) (i : nat) (page_addr : Z) : outcome E (option (nat * Z * Z)) :=
  match l with
  | [] => Ok None
  | None :: l' => growth_target l' (S i) page_addr
  | Some v :: l' =>
      if negb (bool_decide (kind v = GrowableStack)) then growth_target l' (S i) page_addr else
      if start v <=? page_addr then growth_target l' (S i) page_addr else
      let gap_pages := (start v - page_addr) / 4096 in
      if STACK_GROWTH_GUARD_PAGES <? gap_pages then growth_target l' (S i) page_addr else
      e ← vma_end v;
      let new_size_pages := (e - page_addr) / 4096 in
      if STACK_MAX_PAGES <? new_size_pages then growth_target l' (S i) page_addr else
      Ok (Some (i, start v, new_size_pages))
  end.

Definition grow_stack {E} (l : VmaList) (addr : Z) : outcome E (VmaList * option Vma) :=
  let page_addr := align_down 12 addr in
  t ← growth_target l 0 page_addr;
  match t with
  | None => Ok (l, None)
  | Some (idx, old_start, new_size_pages) =>
      would_overlap ← any_between (<[idx := None]> l) page_addr old_start;
      if would_overlap : bool then Ok (l, None) else
      match l !! idx with
      | Some (Some v) =>
          let v' := v <| start := page_addr |> <| size_pages := new_size_pages |> in
          Ok (<[idx := Some v']> l, Some v')
      | _ => Panic
      end
  end.

Definition clear (l : VmaList) : VmaList := (fun _ => None) <$> l.

(** [iter]: the registered areas, in slot order. *)
Definition iter (l : VmaList) : list Vma := omap id l.

(** ** Specification vocabulary *)

Record vma_ok (v : Vma) : Prop := {
  v_start : 0 <= start v;
  v_aligned : start v mod 4096 = 0;
  v_size : 0 <= size_pages v;
  v_end : start v + size_pages v * 4096 < 2 ^ 64;
}.

Definition in_vma (v : Vma) (x : Z) : Prop := start v <= x < start v + size_pages v * 4096.

Record vmas_ok (l : VmaList) : Prop := {
  l_slots : length l = MAX_VMAS_PER_PROCESS;
  l_areas : forall v, v ∈ iter l -> vma_ok v;
}.

(** No address is in two areas. *)
Definition exclusive (l : VmaList) : Prop :=
  forall i j v w x, l !! i = Some (Some v) -> l !! j = Some (Some w) ->
    in_vma v x -> in_vma w x -> i = j.

(** ** Lemmas *)

Lemma elem_of_iter l v : v ∈ iter l <-> exists i, l !! i = Some (Some v).
Proof.
  unfold iter. rewrite list_elem_of_omap. split.
  - intros (o & Ho & Hid). cbn in Hid. subst o. by apply list_elem_of_lookup_1 in Ho.
  - intros [i Hi]. exists (Some v). split; [|done]. by apply list_elem_of_lookup_2 in Hi.
Qed.

Lemma checked_ok {E} z : 0 <= z < 2 ^ 64 -> @checked E z = Ok z.
Proof. intros. unfold checked, in_widthb. rewrite (proj2 (Z.leb_le _ _)), (proj2 (Z.ltb_lt _ _)) by lia. done. Qed.

Lemma checked_panic {E} z : 2 ^ 64 <= z -> @checked E z = Panic.
Proof. intros. unfold checked, in_widthb. rewrite (proj2 (Z.ltb_ge _ _)), andb_false_r by lia. done. Qed.

Lemma vma_end_ok {E} v : vma_ok v -> @vma_end E v = Ok (start v + size_pages v * 4096).
Proof. intros [? ? ? ?]. apply checked_ok. lia. Qed.

Lemma contains_ok {E} v x : vma_ok v -> @contains E v x = Ok (bool_decide (in_vma v x)).
Proof.
  intros Hv. unfold contains, in_vma. rewrite vma_end_ok by done. cbn.
  case_bools; case_bool_decide; try done; lia.
Qed.

Lemma find_spec {E} l x : (forall v, v ∈ iter l -> vma_ok v) ->
  exists r, @find E l x = Ok r /\
    match r with
    | Some v => v ∈ iter l /\ in_vma v x
    | None => forall v, v ∈ iter l -> ~ in_vma v x
    end.
Proof.
  induction l as [|[v|] l IH]; intros Hok; cbn [find].
  - exists None. split; [done|]. intros v Hv. by apply elem_of_nil in Hv.
  - assert (v ∈ iter (Some v :: l)) as Hin by apply list_elem_of_here.
    rewrite contains_ok by auto. cbn [mbind outcome_bind]. case_bool_decide as Hx.
    + by exists (Some v).
    + destruct IH as (r & -> & Hr); [intros w Hw; apply Hok; by apply list_elem_of_further|].
      exists r. split; [done|]. destruct r as [w|].
      * destruct Hr. split; [by apply list_elem_of_further|done].
      * intros w Hw. apply elem_of_cons in Hw as [->|Hw]; auto.
  - apply IH, Hok.
Qed.

Lemma any_between_spec {E} l lo hi : (forall v, v ∈ iter l -> vma_ok v) ->
  exists b : bool, @any_between E l lo hi = Ok b /\
    (b = true <-> exists v, v ∈ iter l /\ start v < hi /\ lo < start v + size_pages v * 4096).
Proof.
  induction l as [|[v|] l IH]; intros Hok; cbn [any_between].
  - exists false. split; [done|]. split; [done|]. intros (v & Hv & _). by apply elem_of_nil in Hv.
  - assert (v ∈ iter (Some v :: l)) as Hin by apply list_elem_of_here.
    destruct IH as (b & Hb & Hiff); [intros w Hw; apply Hok; by apply list_elem_of_further|].
    assert (~ (start v < hi /\ lo < start v + size_pages v * 4096) ->
      (b = true <-> exists w, w ∈ iter (Some v :: l) /\ start w < hi /\ lo < start w + size_pages w * 4096)) as Hskip.
    { intros Hno. rewrite Hiff. split; intros (w & Hw & ?).
      - exists w. split; [by apply list_elem_of_further|done].
      - apply elem_of_cons in Hw as [->|Hw]; [tauto|by exists w]. }
    destruct (Z.ltb_spec (start v) hi).
    + rewrite vma_end_ok by auto. cbn [mbind outcome_bind].
      destruct (Z.ltb_spec lo (start v + size_pages v * 4096)).
      * exists true. split; [done|]. split; [|done]. intros _. by exists v.
      * exists b. split; [done|]. apply Hskip. lia.
    + exists b. split; [done|]. apply Hskip. lia.
  - apply IH, Hok.
Qed.

(** Adding fills one free slot. *)
Lemma add_Some l v l' : add l v = Some l' ->
  exists i, l !! i = Some None /\ l' = <[i := Some v]> l.
Proof.
  revert l'; induction l as [|[w|] l IH]; intros l'; cbn [add]; [done| |].
  - destruct (add l v) as [k|] eqn:Hk; cbn; [|done]. intros [= <-].
    destruct (IH k eq_refl) as (i & Hi & ->). by exists (S i).
  - intros [= <-]. by exists 0%nat.
Qed.

Lemma add_None l v : add l v = None <-> (forall i, l !! i <> Some None).
Proof.
  induction l as [|[w|] l IH]; cbn [add].
  - split; [intros _ i; by rewrite lookup_nil|done].
  - rewrite fmap_None, IH. split; [intros H [|i]; [done|apply H]|intros H i; apply (H (S i))].
  - split; [done|]. intros H. by specialize (H 0%nat).
Qed.

Lemma remove_Some l a l' v : remove l a = Some (l', v) ->
  exists i, l !! i = Some (Some v) /\ start v = a /\ l' = <[i := None]> l.
Proof.
  revert l'; induction l as [|[w|] l IH]; intros l'; cbn [remove]; [done| |].
  - destruct (Z.eqb_spec (start w) a) as [Ha|].
    + intros [= <- <-]. by exists 0%nat.
    + destruct (remove l a) as [[k u]|] eqn:Hk; cbn; [|done]. intros [= <- <-].
      destruct (IH k eq_refl) as (i & Hi & Hs & ->). by exists (S i).
  - destruct (remove l a) as [[k u]|] eqn:Hk; cbn; [|done]. intros [= <- <-].
    destruct (IH k eq_refl) as (i & Hi & Hs & ->). by exists (S i).
Qed.

Lemma remove_None l a : remove l a = None <-> forall v, v ∈ iter l -> start v <> a.
Proof.
  induction l as [|[w|] l IH]; cbn [remove].
  - split; [intros _ v Hv; by apply elem_of_nil in Hv|done].
  - change (iter (Some w :: l)) with (w :: iter l). setoid_rewrite elem_of_cons.
    destruct (Z.eqb_spec (start w) a) as [Ha|Hne].
    + split; [done|]. intros H. by specialize (H w (or_introl eq_refl)).
    + rewrite fmap_None, IH. split; [intros H v [->|Hv]; auto|intros H v Hv; apply H; by right].
  - rewrite fmap_None. apply IH.
Qed.

(** A slot filled or emptied. *)
Lemma iter_insert l i o v : (i < length l)%nat ->
  v ∈ iter (<[i := o]> l) <-> o = Some v \/ exists j, j <> i /\ l !! j = Some (Some v).
Proof.
  intros Hi. rewrite elem_of_iter. split.
  - intros [j Hj]. destruct (decide (j = i)) as [->|Hne].
    + rewrite list_lookup_insert_eq in Hj by done. left. congruence.
    + rewrite list_lookup_insert_ne in Hj by done. right. by exists j.
  - intros [->|(j & Hne & Hj)]; [exists i; by rewrite list_lookup_insert_eq|].
    exists j. by rewrite list_lookup_insert_ne.
Qed.

(** *** Stack growth *)

(** What the first pass of [grow_stack] looks for. *)
Definition may_grow (v : Vma) (page_addr : Z) : Prop :=
  kind v = GrowableStack /\ page_addr < start v /\
  (start v - page_addr) / 4096 <= STACK_GROWTH_GUARD_PAGES /\
  (start v + size_pages v * 4096 - page_addr) / 4096 <= STACK_MAX_PAGES.

(** The answer of that pass on the slots from position [i] on. *)
Definition target_is (l : VmaList) (i : nat) (page : Z) (r : option (nat * Z * Z)) : Prop :=
  match r with
  | Some (k, old, pages) => exists j v, k = (i + j)%nat /\ l !! j = Some (Some v) /\ old = start v /\
      pages = (start v + size_pages v * 4096 - page) / 4096 /\ may_grow v page
  | None => forall v, v ∈ iter l -> ~ may_grow v page
  end.

Lemma target_skip o l i page r :
  (forall v, o = Some v -> ~ may_grow v page) -> target_is l (S i) page r -> target_is (o :: l) i page r.
Proof.
  intros Hno. destruct r as [[[k old] pages]|]; cbn.
  - intros (j & w & -> & Hj & Hw). exists (S j), w. split; [lia|]. done.
  - intros H w Hw. destruct o as [v|]; [|by apply H].
    apply elem_of_cons in Hw as [->|Hw]; [by apply Hno|by apply H].
Qed.

Lemma growth_target_spec {E} l i page : (forall v, v ∈ iter l -> vma_ok v) ->
  exists r, @growth_target E l i page = Ok r /\ target_is l i page r.
Proof.
  revert i; induction l as [|o l IH]; intros i Hok; cbn [growth_target].
  { exists None. split; [done|]. intros v Hv. by apply elem_of_nil in Hv. }
  destruct (IH (S i)) as (r & Hr & Hspec).
  { intros v Hv. apply Hok. destruct o; [by apply list_elem_of_further|done]. }
  destruct o as [v|]; [|exists r; split; [done|by apply target_skip]].
  assert (~ may_grow v page -> exists r, @growth_target E l (S i) page = Ok r /\ target_is (Some v :: l) i page r)
    as Hskip.
  { intros Hno. exists r. split; [done|]. apply target_skip; [|done]. by intros ? [= <-]. }
  assert (vma_ok v) as Hv by (apply Hok, list_elem_of_here).
  destruct (bool_decide_reflect (kind v = GrowableStack)) as [Hk|Hk]; cbn [negb];
    [|apply Hskip; by intros [? _]].
  destruct (Z.leb_spec (start v) page); [apply Hskip; unfold may_grow; lia|].
  destruct (Z.ltb_spec STACK_GROWTH_GUARD_PAGES ((start v - page) / 4096)); [apply Hskip; unfold may_grow; lia|].
  rewrite vma_end_ok by done. cbn [mbind outcome_bind].
  destruct (Z.ltb_spec STACK_MAX_PAGES ((start v + size_pages v * 4096 - page) / 4096));
    [apply Hskip; unfold may_grow; lia|].
  eexists. split; [done|]. exists 0%nat, v. split_and!; try done; lia.
Qed.

(** Growing never panics on a well-formed list. *)
Lemma grow_stack_total l addr : vmas_ok l -> 0 <= addr < 2 ^ 64 ->
  exists l' r, @grow_stack Empty_set l addr = Ok (l', r).
Proof.
  intros [Hlen Hok] Haddr. unfold grow_stack. set (page := align_down 12 addr).
  destruct (@growth_target_spec Empty_set l 0 page Hok) as (t & -> & Ht). cbn [mbind outcome_bind].
  destruct t as [[[idx old] pages]|]; [|by eexists _, _].
  destruct Ht as (j & v & -> & Hj & -> & -> & _). cbn [Nat.add].
  destruct (@any_between_spec Empty_set (<[j := None]> l) page (start v)) as (b & -> & _).
  { intros w Hw. apply iter_insert in Hw as [?|(k & _ & Hk)]; [done| |by apply lookup_lt_Some in Hj].
    apply Hok, elem_of_iter. by exists k. }
  cbn [mbind outcome_bind]. destruct b; [by eexists _, _|]. rewrite Hj. by eexists _, _.
Qed.

(** ** Properties *)

(** Growing a stack.  On a well-formed list the call never panics.  It
    either changes nothing, or extends one stack area down to the page of the
    address: the area keeps its end, covers the address, starts at most 64
    pages below where it did, has at most 2048 pages, and if no two areas
    overlapped before, none do after. *)
Theorem grow_stack_spec l addr :
  vmas_ok l -> 0 <= addr < 2 ^ 64 ->
  exists l' r, @grow_stack Empty_set l addr = Ok (l', r) /\
    match r with
    | None => l' = l
    | Some v' => exists i v, l !! i = Some (Some v) /\ kind v = GrowableStack /\
        l' = <[i := Some v']> l /\ vmas_ok l' /\ in_vma v' addr /\
        start v' + size_pages v' * 4096 = start v + size_pages v * 4096 /\
        start v - start v' <= STACK_GROWTH_GUARD_PAGES * 4096 /\ size_pages v' <= STACK_MAX_PAGES /\
        (exclusive l -> exclusive l')
    end.
Proof.
  intros [Hlen Hok] Haddr. unfold grow_stack. set (page := align_down 12 addr).
  pose proof (align_down_bounds 12 addr ltac:(lia)) as Hpage. fold page in Hpage. change (2 ^ 12) with 4096 in Hpage.
  assert (page mod 4096 = 0) as Hpal by (apply (align_down_mod 12); lia).
  destruct (@growth_target_spec Empty_set l 0 page Hok) as (t & -> & Ht). cbn [mbind outcome_bind].
  destruct t as [[[idx old] pages]|]; [|by exists l, None].
  destruct Ht as (j & v & -> & Hj & -> & -> & Hk & Hlt & Hgap & Hmax). cbn [Nat.add].
  pose proof (lookup_lt_Some _ _ _ Hj) as Hjl.
  assert (vma_ok v) as Hv by (apply Hok, elem_of_iter; by exists j).
  destruct (@any_between_spec Empty_set (<[j := None]> l) page (start v)) as (b & -> & Hb).
  { intros w Hw. apply iter_insert in Hw as [?|(k & _ & Hkk)]; [done| |done]. apply Hok, elem_of_iter. by exists k. }
  cbn [mbind outcome_bind]. destruct b; [by exists l, None|]. rewrite Hj.
  eexists _, (Some _). split; [done|]. exists j, v.
  set (pages := (start v + size_pages v * 4096 - page) / 4096) in *.
  set (v' := v <| start := page |> <| size_pages := pages |>).
  destruct Hv as [Hs Ha Hsz He].
  pose proof (Z.div_mod (start v) 4096 ltac:(lia)) as Hd1. rewrite Ha in Hd1.
  pose proof (Z.div_mod page 4096 ltac:(lia)) as Hd2. rewrite Hpal in Hd2.
  assert (start v + size_pages v * 4096 - page = pages * 4096) as Hexact.
  { unfold pages. replace (start v + size_pages v * 4096 - page)
      with ((start v / 4096 + size_pages v - page / 4096) * 4096) by lia. by rewrite Z.div_mul. }
  assert ((start v - page) / 4096 = start v / 4096 - page / 4096) as Hgapeq.
  { replace (start v - page) with ((start v / 4096 - page / 4096) * 4096) by lia. by rewrite Z.div_mul. }
  assert (vma_ok v') as Hv' by (split; cbn; lia).
  split_and!; try done; cbn; try lia.
  - split; [by rewrite length_insert|]. intros w Hw.
    apply iter_insert in Hw as [[= <-]|(k & _ & Hkk)]; [done| |done]. apply Hok, elem_of_iter. by exists k.
  - unfold in_vma. cbn. lia.
  - intros Hex.
    assert (forall k w x, k <> j -> l !! k = Some (Some w) -> in_vma w x -> in_vma v' x -> False) as Hnew.
    { intros k w x Hne Hw Hx Hx'. unfold in_vma in Hx, Hx'. cbn in Hx'.
      destruct (Z.lt_ge_cases x (start v)).
      - assert (false = true); [|done]. apply Hb. exists w. split; [|lia].
        apply iter_insert; [done|]. right. by exists k.
      - apply Hne. apply (Hex k j w v x); [done|done|done|]. unfold in_vma. lia. }
    intros k1 k2 w1 w2 x H1 H2 Hx1 Hx2.
    destruct (decide (k1 = j)) as [->|N1], (decide (k2 = j)) as [->|N2]; [done| | |].
    + rewrite list_lookup_insert_eq in H1 by done. rewrite list_lookup_insert_ne in H2 by done.
      injection H1 as <-. by destruct (Hnew k2 w2 x).
    + rewrite list_lookup_insert_eq in H2 by done. rewrite list_lookup_insert_ne in H1 by done.
      injection H2 as <-. by destruct (Hnew k1 w1 x).
    + rewrite list_lookup_insert_ne in H1, H2 by done. by apply (Hex k1 k2 w1 w2 x).
Qed.

(** A one-page stack just below 64 KiB, touched two pages lower. *)
Lemma grow_stack_spec_witness :
  exists l' v', @grow_stack Empty_set (Some (mkVma 65536 1 7 GrowableStack) :: replicate 63 None) 60000 = Ok (l', Some v') /\
    start v' = 57344 /\ size_pages v' = 3.
Proof.
  set (l := Some (mkVma 65536 1 7 GrowableStack) :: replicate 63 None).
  assert (vmas_ok l) as Hok.
  { split; [reflexivity|]. intros v Hv. vm_compute in Hv. apply list_elem_of_singleton in Hv as ->.
    split; vm_compute; congruence. }
  destruct (grow_stack_spec l 60000 Hok ltac:(lia)) as (l' & r & He & _).
  assert (grow_stack l 60000 = @Ok Empty_set _ (Some (mkVma 57344 3 7 GrowableStack) :: replicate 63 None,
    Some (mkVma 57344 3 7 GrowableStack))) as Hc by (vm_compute; reflexivity).
  rewrite Hc in He. injection He as <- <-. eexists _, _. split; [exact Hc|]. split; reflexivity.
Defined.

End Vma.
