(* ===== verification/Paging.v ===== *)
(** Address spaces, copy-on-write and demand paging:
    [kernel/src/memory/cow.rs], [page_table_manager.rs], [address_space.rs],
    [demand_paging.rs] and the page fault handler of [kernel/src/init/devices.rs].

    The page tables are walked and edited by the [x86_64] crate; [Mapper] is
    what the kernel uses of it.  [MM] is the memory of the machine: the frame
    source, the reference counts, the bytes of the frames, the shared zero
    frame and every address space, by number.  Intermediate page tables are
    not represented beyond the frames the mapper takes for them. *)

From Stdlib Require Import ZArith Lia.
From stdpp Require Import base numbers gmap strings list.
From S2P Require Import Prelude Bits Buddy Frames Vma.

Local Open Scope string_scope.
Local Open Scope list_scope.
Local Open Scope Z_scope.

(** ** The mapper of the [x86_64] crate *)

(** Page table entries are [(frame, flags)].  [map_to] fails on a page that
    is already mapped or lies in a mapped huge page, and when it runs out of
    frames for tables; a failed call changes no entry. *)
Class Mapper (PT A : Type) `{FrameSource A} := {
  leaf : PT -> Z -> option (Z * Z);
  leaf2m : PT -> Z -> option (Z * Z);
  new_table : PT;
  map_to : PT -> A -> Z -> Z -> Z -> may_panic (PT * A * bool);
  map_to_2m : PT -> A -> Z -> Z -> Z -> may_panic (PT * A * bool);
  unmap : PT -> Z -> option PT;
  unmap_2m : PT -> Z -> option (PT * Z);
  update_flags : PT -> Z -> Z -> option PT;
  new_table_law : forall p, leaf new_table p = None /\ leaf2m new_table p = None;
  map_to_law : forall pt a p f fl, source_ok a ->
    exists pt' a' (done : bool), map_to pt a p f fl = Ok (pt', a', done) /\ source_ok a' /\
      (forall x, available a' x -> available a x) /\
      (done = true -> leaf pt p = None /\ leaf2m pt (align_down 21 p) = None) /\
      (forall q, leaf pt' q = if done && (q =? p) then Some (f, fl) else leaf pt q) /\
      (forall q, leaf2m pt' q = leaf2m pt q);
  map_to_2m_law : forall pt a p f fl, source_ok a ->
    exists pt' a' (done : bool), map_to_2m pt a p f fl = Ok (pt', a', done) /\ source_ok a' /\
      (forall x, available a' x -> available a x) /\
      (done = true -> leaf2m pt p = None /\ forall q, align_down 21 q = p -> leaf pt q = None) /\
      (forall q, leaf2m pt' q = if done && (q =? p) then Some (f, fl) else leaf2m pt q) /\
      (forall q, leaf pt' q = leaf pt q);
  unmap_law : forall pt p,
    match leaf pt p with
    | Some _ => exists pt', unmap pt p = Some pt' /\
        (forall q, leaf pt' q = if q =? p then None else leaf pt q) /\ (forall q, leaf2m pt' q = leaf2m pt q)
    | None => unmap pt p = None
    end;
  unmap_2m_law : forall pt p,
    match leaf2m pt p with
    | Some (f, _) => exists pt', unmap_2m pt p = Some (pt', f) /\
        (forall q, leaf2m pt' q = if q =? p then None else leaf2m pt q) /\ (forall q, leaf pt' q = leaf pt q)
    | None => unmap_2m pt p = None
    end;
  update_flags_law : forall pt p fl,
    match leaf pt p with
    | Some (f, _) => exists pt', update_flags pt p fl = Some pt' /\
        (forall q, leaf pt' q = if q =? p then Some (f, fl) else leaf pt q) /\ (forall q, leaf2m pt' q = leaf2m pt q)
    | None => update_flags pt p fl = None
    end;
}.

Module Paging.
Import Vma.

(** Bits of [PageTableFlags]. *)
Definition PRESENT : Z := 1.
Definition WRITABLE : Z := 2.
Definition USER_ACCESSIBLE : Z := 4.
Definition is_writable (fl : Z) : bool := Z.testbit fl 1.

(** Bits of the page fault error code. *)
Definition PF_PRESENT : Z := 1.
Definition PF_WRITE : Z := 2.
Definition PF_USER : Z := 4.
Definition PF_RESERVED : Z := 8.

Definition MAX_FRAMES : Z := 512 * 1024 * 1024 / 4096.
Definition USER_MMAP_BASE : Z := 70368744177664.

(** The bytes of a huge page. *)
Definition HUGE_PAGE_BYTES : nat := Z.to_nat (2 ^ 21).
Lemma huge_page_bytes : Z.of_nat HUGE_PAGE_BYTES = 2 ^ 21.
Proof. apply Z2Nat.id. lia. Qed.
#[global] Opaque HUGE_PAGE_BYTES.

Section paging.
Context {PT A : Type} `{Mapper PT A}.

Record AddressSpace := mkSpace { page_table : PT; vmas : list (option Vma); mmap_base : Z }.

Record MM := mkMM {
  frames : A;
  refcounts : gmap Z Z;
  phys : mem;
  zero_phys : Z;
  spaces : gmap Z AddressSpace;
}.

#[global] Instance AddressSpace_fields : Fields AddressSpace := fun s =>
  mkSpace (page_table s) (vmas s) (mmap_base s).
#[global] Instance MM_fields : Fields MM := fun m =>
  mkMM (frames m) (refcounts m) (phys m) (zero_phys m) (spaces m).

(** An operation that may fail, in Rust's [Result], and keeps its effects. *)
Abbreviation Res B := (may_panic (MM * (B + string))).

Definition try_ {B C} (r : Res B) (k : MM -> B -> Res C) : Res C :=
  match r with
  | Ok (m, inl b) => k m b
  | Ok (m, inr e) => Ok (m, inr e)
  | Err e => Err e
  | Panic => Panic
  end.

(** *** [cow.rs] *)

Definition frame_idx (f : Z) : Z := f / 4096.

Definition set_ref (m : MM) (f count : Z) : MM :=
  if frame_idx f <? MAX_FRAMES then m <| refcounts := <[frame_idx f := count]> (refcounts m) |> else m.

Definition get_ref (m : MM) (f : Z) : Z :=
  if frame_idx f <? MAX_FRAMES then default 0 (refcounts m !! frame_idx f) else 0.

(** [saturating_add] and [saturating_sub] on a byte. *)
Definition inc_ref (m : MM) (f : Z) : MM := set_ref m f (Z.min 255 (get_ref m f + 1)).

Definition dec_ref (m : MM) (f : Z) : MM * Z :=
  if frame_idx f <? MAX_FRAMES then
    let v := Z.max 0 (get_ref m f - 1) in (set_ref m f v, v)
  else (m, 0).

Definition is_zero_frame (m : MM) (f : Z) : bool := negb (zero_phys m =? 0) && (f =? zero_phys m).

Definition alloc_frame (m : MM) (order : Z) : may_panic (MM * option Z) :=
  r ← phys_alloc (frames m) order; Ok (m <| frames := r.1 |>, r.2).

Definition free_frame (m : MM) (f order : Z) : may_panic MM :=
  a ← phys_free (frames m) f order; Ok (m <| frames := a |>).

Definition zero_page (m : MM) (f : Z) (n : nat) : MM := m <| phys := write_bytes (phys m) f (replicate n 0) |>.

Definition init_zero_frame (m : MM) : may_panic MM :=
  r ← alloc_frame m 12;
  match r.2 with
  | Some f => Ok ((zero_page r.1 f 4096) <| zero_phys := f |>)
  | None => Panic
  end.

(** *** [page_table_manager.rs] *)

Definition space (m : MM) (sp : Z) : AddressSpace := default (mkSpace new_table new 0) (spaces m !! sp).
Definition set_space (m : MM) (sp : Z) (s : AddressSpace) : MM := m <| spaces := <[sp := s]> (spaces m) |>.
Definition set_table (m : MM) (sp : Z) (pt : PT) : MM := set_space m sp ((space m sp) <| page_table := pt |>).

Definition page_of (x : Z) : Z := align_down 12 x.

(** The present entry of a page, and [translate_page]. *)
Definition entry (m : MM) (sp page : Z) : option (Z * Z) := leaf (page_table (space m sp)) page.
Definition translate_page (m : MM) (sp page : Z) : option Z := fst <$> entry m sp page.

(** [mapper.map_to(..).map_err(..)?.flush()] on the tables of [sp]. *)
Definition map_page (m : MM) (sp page f fl : Z) (err : string) : Res unit :=
  r ← map_to (page_table (space m sp)) (frames m) page f fl;
  let '(pt, a, done) := r in
  let m1 := set_table (m <| frames := a |>) sp pt in
  if done : bool then Ok (m1, inl ()) else Ok (m1, inr err).

Definition map_user_page (m : MM) (sp page fl : Z) : Res Z :=
  r ← alloc_frame m 12;
  match r.2 with
  | None => Ok (r.1, inr "FrameAllocationFailed")
  | Some f => try_ (map_page (set_ref r.1 f 1) sp page f fl "map_to") (fun m1 _ => Ok (m1, inl f))
  end.

Definition map_existing_frame (m : MM) (sp page f fl : Z) : Res unit :=
  map_page m sp page f fl "map_existing_frame: map_to failed".

Definition update_page_flags (m : MM) (sp page fl : Z) : Res unit :=
  match update_flags (page_table (space m sp)) page fl with
  | Some pt => Ok (set_table m sp pt, inl ())
  | None => Ok (m, inr "update_page_flags: failed")
  end.

Definition unmap_and_remap (m : MM) (sp page new_frame fl : Z) : Res unit :=
  match unmap (page_table (space m sp)) page with
  | None => Ok (m, inr "unmap_and_remap: unmap failed")
  | Some pt => map_page (set_table m sp pt) sp page new_frame fl "unmap_and_remap: map_to failed"
  end.

(** Drop one share of a data frame. *)
Definition release_frame (m : MM) (f : Z) : may_panic MM :=
  let '(m1, shares) := dec_ref m f in
  if shares =? 0 then free_frame m1 f 12 else Ok m1.

Definition unmap_page_and_free (m : MM) (sp page : Z) : Res unit :=
  match translate_page m sp page with
  | None => Ok (m, inl ())
  | Some f =>
      match unmap (page_table (space m sp)) page with
      | None => Ok (m, inr "unmap_page_and_free: unmap failed")
      | Some pt =>
          let m1 := set_table m sp pt in
          if is_zero_frame m1 f then Ok (m1, inl ())
          else m2 ← release_frame m1 f; Ok (m2, inl ())
      end
  end.

Definition unmap_page_and_free_2m (m : MM) (sp page : Z) : Res unit :=
  match unmap_2m (page_table (space m sp)) page with
  | None => Ok (m, inl ())
  | Some (pt, f) => m1 ← free_frame (set_table m sp pt) f 21; Ok (m1, inl ())
  end.

(** *** [address_space.rs] *)

Definition set_vmas (m : MM) (sp : Z) (l : list (option Vma)) : MM :=
  set_space m sp ((space m sp) <| vmas := l |>).

(** The pages of one area in [fork], from index [i] on. *)
Fixpoint fork_pages (n : nat) (m : MM) (parent child : Z) (v : Vma) (i : Z) : Res unit :=
  match n with
  | O => Ok (m, inl ())
  | S n' =>
      let orig_flags := flags v in
      let shared_flags := Z.ldiff orig_flags WRITABLE in
      let page := start v + i * 4096 in
      match translate_page m parent page with
      | None => fork_pages n' m parent child v (i + 1)
      | Some src_frame =>
          match translate_page m child page with
          | Some _ => fork_pages n' m parent child v (i + 1)
          | None =>
              try_ (if is_writable orig_flags then update_page_flags m parent page shared_flags
                    else Ok (m, inl ())) (fun m1 _ =>
              try_ (map_existing_frame m1 child page src_frame shared_flags) (fun m2 _ =>
              fork_pages n' (inc_ref m2 src_frame) parent child v (i + 1)))
          end
      end
  end.

Fixpoint fork_areas (m : MM) (parent child : Z) (l : list Vma) : Res unit :=
  match l with
  | [] => Ok (m, inl ())
  | v :: l' => try_ (fork_pages (Z.to_nat (size_pages v)) m parent child v 0)
                 (fun m1 _ => fork_areas m1 parent child l')
  end.

(** [AddressSpace::fork] into the address space number [child]; the caller
    drops a child left behind by an error. *)
Definition fork (m : MM) (parent child : Z) : Res unit :=
  r ← alloc_frame m 12;
  match r.2 with
  | None => Ok (r.1, inr "Failed to allocate PML4 frame from buddy")
  | Some _ =>
      let p := space r.1 parent in
      let m1 := set_space r.1 child (mkSpace new_table (vmas p) (mmap_base p)) in
      fork_areas m1 parent child (iter (vmas p))
  end.

Definition handle_cow_fault (m : MM) (sp fault_addr vma_flags : Z) : Res unit :=
  let page := page_of fault_addr in
  match translate_page m sp page with
  | None => Ok (m, inr "COW: page not mapped")
  | Some old_frame =>
      if is_zero_frame m old_frame then
        r ← alloc_frame m 12;
        match r.2 with
        | None => Ok (r.1, inr "COW zero-frame: OOM")
        | Some new_frame =>
            unmap_and_remap (zero_page (set_ref r.1 new_frame 1) new_frame 4096) sp page new_frame vma_flags
        end
      else if get_ref m old_frame <=? 1 then update_page_flags m sp page vma_flags
      else
        r ← alloc_frame m 12;
        match r.2 with
        | None => Ok (r.1, inr "COW: out of memory")
        | Some new_frame =>
            let m1 := set_ref r.1 new_frame 1 in
            let m2 := m1 <| phys := write_bytes (phys m1) new_frame (read_bytes (phys m1) old_frame 4096) |> in
            q ← unmap_and_remap m2 sp page new_frame vma_flags;
            m4 ← release_frame q.1 old_frame;
            Ok (m4, q.2)
        end
  end.

(** *** [demand_paging.rs] *)

Definition is_demand_pageable (error_code : Z) : option string :=
  if negb (Z.land error_code PF_RESERVED =? 0) then Some "Reserved bit set in page table entry"
  else if negb (Z.land error_code PF_PRESENT =? 0) then Some "Protection violation (page present, future CoW)"
  else None.

Definition map_demand_page_2m (m : MM) (cr3 fault_addr : Z) (v : Vma) : Res unit :=
  let page := align_down 21 fault_addr in
  r ← alloc_frame m 21;
  match r.2 with
  | None => Ok (r.1, inr "Demand paging 2M: OOM")
  | Some f =>
      let m1 := zero_page r.1 f HUGE_PAGE_BYTES in
      q ← map_to_2m (page_table (space m1 cr3)) (frames m1) page f (flags v);
      let '(pt, a, done) := q in
      let m2 := set_table (m1 <| frames := a |>) cr3 pt in
      if done : bool then Ok (m2, inl ()) else Ok (m2, inr "map_to 2M failed")
  end.

(** [map_demand_page] works on the active tables, those of [cr3]. *)
Definition map_demand_page (m : MM) (cr3 fault_addr : Z) (v : Vma) (is_write : bool) : Res unit :=
  match kind v with
  | Code => Ok (m, inr "Code page not present (should be pre-mapped)")
  | Huge2M => map_demand_page_2m m cr3 fault_addr v
  | Anonymous | GrowableStack =>
      let page := page_of fault_addr in
      if negb is_write then
        map_page m cr3 page (zero_phys m) (Z.lor PRESENT USER_ACCESSIBLE) "zero-page: map_to failed"
      else
        r ← alloc_frame m 12;
        match r.2 with
        | None => Ok (r.1, inr "Demand paging: frame allocation failed (OOM)")
        | Some f =>
            map_page (zero_page (set_ref r.1 f 1) f 4096) cr3 page f (flags v) "Demand paging: map_to failed"
        end
  end.

(** *** The page fault handler *)

Inductive FaultOutcome := Resolved | Killed.

(** [find_vma_fast] and [find_vma_fast_or_grow] on the running process. *)
Definition find_vma (m : MM) (sp addr : Z) : may_panic (option Vma) := find (vmas (space m sp)) addr.

Definition find_vma_or_grow (m : MM) (sp addr : Z) : may_panic (MM * option Vma) :=
  r ← find_vma m sp addr;
  match r with
  | Some v => Ok (m, Some v)
  | None => g ← grow_stack (vmas (space m sp)) addr; Ok (set_vmas m sp g.1, g.2)
  end.

(** What the handler does with a fault it cannot resolve. *)
Definition unresolved (m : MM) (is_user : bool) : may_panic (MM * FaultOutcome) :=
  if is_user then Ok (m, Killed) else Panic.

Definition page_fault_handler (m : MM) (cur fault_addr error_code : Z) : may_panic (MM * FaultOutcome) :=
  let is_user := negb (Z.land error_code PF_USER =? 0) in
  let is_write := negb (Z.land error_code PF_WRITE =? 0) in
  if (Z.land error_code (Z.lor PF_PRESENT PF_WRITE) =? Z.lor PF_PRESENT PF_WRITE) &&
     (Z.land error_code PF_RESERVED =? 0) then
    r ← find_vma m cur fault_addr;
    match r with
    | None => Ok (m, Killed)
    | Some v =>
        q ← handle_cow_fault m cur fault_addr (flags v);
        match q with
        | (m1, inl _) => Ok (m1, Resolved)
        | (m1, inr _) => Ok (m1, Killed)
        end
    end
  else
    match is_demand_pageable error_code with
    | Some _ => unresolved m is_user
    | None =>
        r ← find_vma_or_grow m cur fault_addr;
        match r with
        | (m1, None) => unresolved m1 is_user
        | (m1, Some v) =>
            q ← map_demand_page m1 cur fault_addr v is_write;
            match q with
            | (m2, inl _) => Ok (m2, Resolved)
            | (m2, inr _) => unresolved m2 is_user
            end
        end
    end.

(** *** [mmap] and [munmap] *)

Definition HUGE_2M : Z := 2 ^ 21.

(** The address of a new area: the bump pointer, or the requested address. *)
Definition sys_mmap_anon (m : MM) (sp addr length prot : Z) : Res Z :=
  if length =? 0 then Ok (m, inr "mmap: zero length") else
  let fl := Z.lor (Z.lor PRESENT USER_ACCESSIBLE) (if Z.land prot 2 =? 0 then 0 else WRITABLE) in
  let s := space m sp in
  let finish (m1 : MM) (v : Vma) : Res Z :=
    match add (vmas (space m1 sp)) v with
    | Some l => Ok (set_vmas m1 sp l, inl (start v))
    | None => Ok (m1, inr "mmap: VMA list full")
    end in
  let fixed (pages : Z) (k : VmaKind) (err : string) (align : Z) : Res Z :=
    if negb (Z.land addr (align - 1) =? 0) then Ok (m, inr err) else
    o ← overlaps (vmas s) addr pages;
    if o : bool then Ok (m, inr "mmap: MAP_FIXED conflict with existing VMA")
    else finish m (mkVma addr pages fl k) in
  if HUGE_2M <=? length then
    sum ← checked (length + HUGE_2M - 1);
    let length_aligned := align_down 21 sum in
    let pages := length_aligned / 4096 in
    if addr =? 0 then
      up ← checked (mmap_base s + HUGE_2M - 1);
      let base := align_down 21 up in
      next ← checked (base + length_aligned + HUGE_2M);
      finish (set_space m sp (s <| mmap_base := next |>)) (mkVma base pages fl Huge2M)
    else fixed pages Huge2M "mmap: huge page addr not 2MB-aligned" HUGE_2M
  else
    let pages := (length + 4095) / 4096 in
    if addr =? 0 then
      let base := mmap_base s in
      next ← checked (base + pages * 4096 + 4096);
      finish (set_space m sp (s <| mmap_base := next |>)) (mkVma base pages fl Anonymous)
    else fixed pages Anonymous "mmap: addr not page-aligned" 4096.

Fixpoint munmap_pages (n : nat) (m : MM) (sp at_ : Z) : Res unit :=
  match n with
  | O => Ok (m, inl ())
  | S n' => try_ (unmap_page_and_free m sp at_) (fun m1 _ => munmap_pages n' m1 sp (at_ + 4096))
  end.

Fixpoint munmap_huge (n : nat) (m : MM) (sp at_ : Z) : Res unit :=
  match n with
  | O => Ok (m, inl ())
  | S n' => try_ (unmap_page_and_free_2m m sp at_) (fun m1 _ => munmap_huge n' m1 sp (at_ + HUGE_2M))
  end.

Definition sys_munmap (m : MM) (sp addr length : Z) : Res unit :=
  if negb (Z.land addr 4095 =? 0) then Ok (m, inr "munmap: addr not page-aligned") else
  if length =? 0 then Ok (m, inr "munmap: zero length") else
  sum ← checked (length + 4095);
  let pages := sum / 4096 in
  match remove (vmas (space m sp)) addr with
  | None => Ok (m, inr "munmap: VMA not found")
  | Some (l, v) =>
      if negb (size_pages v =? pages) then
        Ok (set_vmas m sp (default l (add l v)), inr "munmap: partial unmap not supported")
      else
        let m1 := set_vmas m sp l in
        match kind v with
        | Huge2M => munmap_huge (Z.to_nat (size_pages v / 512)) m1 sp (start v)
        | _ => munmap_pages (Z.to_nat (size_pages v)) m1 sp (start v)
        end
  end.

(** [ensure_user_pages_mapped] of [process/mod.rs]: [proc] is the address
    space of the process concerned, [cr3] the active one. *)
Fixpoint ensure_loop (n : nat) (m : MM) (cr3 proc page_addr last_page : Z) : may_panic MM :=
  match n with
  | O => Ok m
  | S n' =>
      if last_page <? page_addr then Ok m else
      m1 ← match translate_page m proc page_addr with
           | Some _ => Ok m
           | None =>
               r ← find_vma m proc page_addr;
               match r with
               | Some v => q ← map_demand_page m cr3 page_addr v true; Ok q.1
               | None => Ok m
               end
           end;
      next ← checked (page_addr + 4096);
      ensure_loop n' m1 cr3 proc next last_page
  end.

Definition ensure_user_pages_mapped (m : MM) (cr3 proc addr len : Z) : may_panic MM :=
  let first_page := page_of addr in
  let last_page := page_of (Z.min (2 ^ 64 - 1) (addr + Z.max 0 (len - 1))) in
  ensure_loop (Z.to_nat ((last_page - first_page) / 4096 + 1)) m cr3 proc first_page last_page.

End paging.
End Paging.
