(* ===== verification/PagingInv.v ===== *)
(** Correctness of copy-on-write memory: the invariant that ties reference
    counts, page table entries and free frames together, its preservation by
    every operation of [Paging], and isolation between address spaces. *)

From Stdlib Require Import ZArith Lia.
From stdpp Require Import base numbers gmap strings list.
From S2P Require Import Prelude Bits Buddy Frames Vma Paging.

Local Open Scope string_scope.
Local Open Scope list_scope.
Local Open Scope Z_scope.

Module PagingInv.
Import Vma Paging.

Section invariant.
Context {PT A : Type} `{Mapper PT A}.
Implicit Types m : @MM PT A.

(** ** Specification vocabulary *)

Definition entry2m m (sp page : Z) : option (Z * Z) := leaf2m (page_table (space m sp)) page.

(** Frames the reference counts cover. *)
Definition low (o f : Z) : Prop := Buddy.block_ok o f /\ f + 2 ^ o <= 2 ^ 29.
Definition taken m (o f : Z) : Prop := forall x, in_frame o f x -> ~ available (frames m) x.

(** At most [n] pages map the frame [f]. *)
Definition counted m (f n : Z) : Prop :=
  exists l : list (Z * Z), Z.of_nat (length l) <= n /\
    forall sp p fl, entry m sp p = Some (f, fl) -> (sp, p) ∈ l.

Record mm_ok m : Prop := {
  ok_source : source_ok (frames m);
  ok_avail : forall x, available (frames m) x -> x < 2 ^ 29;
  ok_zero : zero_phys m <> 0 /\ low 12 (zero_phys m) /\ taken m 12 (zero_phys m);
  ok_zeros : forall x, in_frame 12 (zero_phys m) x -> read_byte (phys m) x = 0;
  ok_frame : forall sp p f fl, entry m sp p = Some (f, fl) -> low 12 f /\ taken m 12 f;
  ok_write : forall sp p f fl, entry m sp p = Some (f, fl) -> is_writable fl = true ->
    f <> zero_phys m /\ forall sp' p' fl', entry m sp' p' = Some (f, fl') -> sp' = sp /\ p' = p;
  ok_count : forall f, low 12 f -> f <> zero_phys m -> counted m f (get_ref m f);
  ok_huge : forall sp p f fl, entry2m m sp p = Some (f, fl) -> low 21 f /\ taken m 21 f /\
    Buddy.apart 21 f 12 (zero_phys m) /\
    (forall sp' p' g fl', entry m sp' p' = Some (g, fl') -> Buddy.apart 21 f 12 g) /\
    (forall sp' p' g fl', entry2m m sp' p' = Some (g, fl') -> (sp' = sp /\ p' = p) \/ Buddy.apart 21 f 21 g);
}.

(** Where an access to the address [x] of the address space [sp] goes: the
    physical address, and whether writing is allowed. *)
Definition locate m (sp x : Z) : option (Z * bool) :=
  match entry m sp (page_of x) with
  | Some (f, fl) => Some (f + x mod 4096, is_writable fl)
  | None =>
      match entry2m m sp (align_down 21 x) with
      | Some (f, fl) => Some (f + x mod 2 ^ 21, is_writable fl)
      | None => None
      end
  end.

(** The byte a process sees, and a store by the processor. *)
Definition view m (sp x : Z) : option Z := (fun a => read_byte (phys m) a.1) <$> locate m sp x.

Definition store m (sp x v : Z) : option (@MM PT A) :=
  match locate m sp x with
  | Some (a, true) => Some (m <| phys := <[a := v]> (phys m) |>)
  | _ => None
  end.

(** ** Lemmas *)

(** *** Frames *)

Lemma pow12 : 2 ^ 12 = 4096. Proof. done. Qed.
Lemma pow21 : 2 ^ 21 = 2097152. Proof. done. Qed.

Lemma frames_apart f g : low 12 f -> low 12 g -> f <> g -> Buddy.apart 12 f 12 g.
Proof.
  intros [[_ Hf Hfa _] _] [[_ Hg Hga _] _] Hne. unfold Buddy.apart. rewrite pow12 in *.
  pose proof (Z.div_mod f 4096 ltac:(lia)). pose proof (Z.div_mod g 4096 ltac:(lia)). lia.
Qed.

Lemma apart_frame o f o' g x : Buddy.apart o f o' g -> in_frame o f x -> in_frame o' g x -> False.
Proof. unfold Buddy.apart, in_frame. lia. Qed.

(** A free frame is apart from one in use. *)
Lemma free_used_apart (m : @MM PT A) o f o' g : 0 <= o -> 0 <= o' ->
  (forall x, in_frame o f x -> available (frames m) x) -> taken m o' g -> Buddy.apart o f o' g.
Proof.
  intros Ho Ho' Hf Hg. unfold Buddy.apart, in_frame in *.
  pose proof (Z.pow_pos_nonneg 2 o ltac:(lia) Ho). pose proof (Z.pow_pos_nonneg 2 o' ltac:(lia) Ho').
  destruct (Z.le_gt_cases (f + 2 ^ o) g); [by left|]. right.
  destruct (Z.le_gt_cases (g + 2 ^ o') f); [done|]. exfalso.
  apply (Hg (Z.max f g)); [unfold in_frame; lia|]. apply Hf. lia.
Qed.

Lemma idx_inj f g : low 12 f -> low 12 g -> frame_idx f = frame_idx g -> f = g.
Proof.
  intros [[_ _ Hf _] _] [[_ _ Hg _] _]. unfold frame_idx. rewrite pow12 in *.
  pose proof (Z.div_mod f 4096 ltac:(lia)). pose proof (Z.div_mod g 4096 ltac:(lia)). lia.
Qed.

Lemma idx_low f : low 12 f -> (frame_idx f <? MAX_FRAMES) = true.
Proof.
  intros [_ Hf]. apply Z.ltb_lt. unfold frame_idx. rewrite pow12 in Hf.
  change MAX_FRAMES with 131072. apply Z.div_lt_upper_bound; lia.
Qed.

(** *** Reference counts *)

Lemma get_set_ref m f g c : low 12 f -> low 12 g ->
  get_ref (set_ref m f c) g = if decide (f = g) then c else get_ref m g.
Proof.
  intros Hf Hg. unfold set_ref, get_ref. rewrite (idx_low f Hf), (idx_low g Hg). cbn [refcounts update_field].
  destruct (decide (f = g)) as [->|Hne]; [by rewrite lookup_insert_eq|].
  rewrite lookup_insert_ne; [done|]. intros Heq. by apply Hne, idx_inj.
Qed.

Lemma set_ref_rest m f c : entry (set_ref m f c) = entry m /\ entry2m (set_ref m f c) = entry2m m /\
  frames (set_ref m f c) = frames m /\ phys (set_ref m f c) = phys m /\ zero_phys (set_ref m f c) = zero_phys m /\
  spaces (set_ref m f c) = spaces m.
Proof. unfold set_ref. by destruct (_ <? _). Qed.

Lemma counted_mono m f n n' : n <= n' -> counted m f n -> counted m f n'.
Proof. intros Hle (l & Hl & Hin). exists l. split; [lia|done]. Qed.

(** A frame with at most one share has at most one page. *)
Lemma counted_one m f sp p fl sp' p' fl' :
  counted m f 1 -> entry m sp p = Some (f, fl) -> entry m sp' p' = Some (f, fl') -> sp' = sp /\ p' = p.
Proof.
  intros (l & Hl & Hin) H1 H2. apply Hin in H1. apply Hin in H2.
  destruct l as [|a [|b l]]; [by apply elem_of_nil in H1| |cbn in Hl; lia].
  apply list_elem_of_singleton in H1, H2. by simplify_eq.
Qed.

(** *** Entries *)

Lemma space_set m sp s sp' : space (set_space m sp s) sp' = if decide (sp = sp') then s else space m sp'.
Proof.
  unfold space, set_space. cbn. destruct (decide (sp = sp')) as [->|].
  - by rewrite lookup_insert_eq.
  - by rewrite lookup_insert_ne.
Qed.

Lemma entry_set m sp pt sp' q :
  entry (set_table m sp pt) sp' q = if decide (sp = sp') then leaf pt q else entry m sp' q.
Proof. unfold entry, set_table. rewrite space_set. by destruct (decide (sp = sp')). Qed.

Lemma entry2m_set m sp pt sp' q :
  entry2m (set_table m sp pt) sp' q = if decide (sp = sp') then leaf2m pt q else entry2m m sp' q.
Proof. unfold entry2m, set_table. rewrite space_set. by destruct (decide (sp = sp')). Qed.

Lemma entry_vmas m sp l sp' q : entry (set_vmas m sp l) sp' q = entry m sp' q.
Proof.
  unfold entry, set_vmas. rewrite space_set. by destruct (decide (sp = sp')) as [->|].
Qed.

Lemma entry2m_vmas m sp l sp' q : entry2m (set_vmas m sp l) sp' q = entry2m m sp' q.
Proof.
  unfold entry2m, set_vmas. rewrite space_set. by destruct (decide (sp = sp')) as [->|].
Qed.

(** *** Parts of the state that do not matter *)

(** States with the same entries, counts, bytes and zero frame, and no more
    free frames, are equally well formed. *)
Lemma mm_ok_same m m' :
  mm_ok m -> (forall sp q, entry m' sp q = entry m sp q) -> (forall sp q, entry2m m' sp q = entry2m m sp q) ->
  refcounts m' = refcounts m -> phys m' = phys m -> zero_phys m' = zero_phys m ->
  source_ok (frames m') -> (forall x, available (frames m') x -> available (frames m) x) -> mm_ok m'.
Proof.
  intros [H1 H2 H3 H4 H5 H6 H7 H8] He He2 Hr Hp Hz Hs Ha.
  assert (forall o f, taken m o f -> taken m' o f) as Ht by (intros o f Hf x Hx Hav; apply (Hf x Hx), Ha, Hav).
  split; try rewrite Hp; try rewrite Hz; try done.
  - intros x Hx. by apply H2, Ha.
  - destruct H3 as (? & ? & ?). split_and!; auto.
  - intros sp p f fl. rewrite He. intros Hf. destruct (H5 _ _ _ _ Hf). auto.
  - intros sp p f fl. rewrite He. intros Hf Hw. destruct (H6 _ _ _ _ Hf Hw) as [? Hu].
    split; [done|]. intros sp' p' fl'. rewrite He. apply Hu.
  - intros f Hlf Hf. destruct (H7 f Hlf Hf) as (l & Hl & Hin). exists l. split.
    + unfold get_ref in *. by rewrite Hr.
    + intros sp p fl. rewrite He. apply Hin.
  - intros sp p f fl. rewrite He2. intros Hf. destruct (H8 _ _ _ _ Hf) as (? & ? & ? & Hx & Hy).
    split_and!; auto; intros sp' p' g fl'; [rewrite He; apply Hx|rewrite He2; apply Hy].
Qed.

(** Bytes outside every frame in use may change. *)
Lemma mm_ok_phys m m' f n : mm_ok m -> m' = m <| phys := n |> -> low 12 f -> f <> zero_phys m ->
  (forall x, ~ in_frame 12 f x -> n !! x = phys m !! x) -> mm_ok m'.
Proof.
  intros [H1 H2 H3 H4 H5 H6 H7 H8] -> Hf Hz Hn. split; try done.
  intros x Hx. unfold read_byte. cbn [phys update_field]. rewrite Hn; [by apply H4|].
  intros Hfx. apply (apart_frame _ _ _ _ x (frames_apart f (zero_phys m) Hf ltac:(apply H3) Hz) Hfx Hx).
Qed.

Lemma locate_same m m' : (forall sp q, entry m' sp q = entry m sp q) -> (forall sp q, entry2m m' sp q = entry2m m sp q) ->
  forall sp x, locate m' sp x = locate m sp x.
Proof. intros He He2 sp x. unfold locate. by rewrite He, He2. Qed.

(** *** Changing one entry *)

(** [m'] is [m] with the entry of page [p] of [sp] replaced, and perhaps fewer
    free frames. *)
Record entry_changed m m' (sp p : Z) (e : option (Z * Z)) : Prop := {
  ch_entry : forall sp' q, entry m' sp' q = if decide (sp' = sp /\ q = p) then e else entry m sp' q;
  ch_huge : forall sp' q, entry2m m' sp' q = entry2m m sp' q;
  ch_refs : refcounts m' = refcounts m;
  ch_phys : phys m' = phys m;
  ch_zero : zero_phys m' = zero_phys m;
  ch_source : source_ok (frames m');
  ch_avail : forall x, available (frames m') x -> available (frames m) x;
}.

Lemma changed_eq m m' sp p e : entry_changed m m' sp p e -> entry m' sp p = e.
Proof. intros Hc. rewrite (ch_entry _ _ _ _ _ Hc). by rewrite decide_True. Qed.

Lemma changed_ne m m' sp p e sp' q : entry_changed m m' sp p e -> ~ (sp' = sp /\ q = p) -> entry m' sp' q = entry m sp' q.
Proof. intros Hc Hne. rewrite (ch_entry _ _ _ _ _ Hc). by rewrite decide_False. Qed.

Lemma changed_ref m m' sp p e f : entry_changed m m' sp p e -> get_ref m' f = get_ref m f.
Proof. intros Hc. unfold get_ref. by rewrite (ch_refs _ _ _ _ _ Hc). Qed.

Lemma changed_taken m m' sp p e o f : entry_changed m m' sp p e -> taken m o f -> taken m' o f.
Proof. intros Hc Ht x Hx Hav. apply (Ht x Hx). by apply (ch_avail _ _ _ _ _ Hc). Qed.

(** A page may be mapped to a frame in use, writable only if it is the only
    one, and counted. *)
Lemma mm_ok_change m m' sp p f fl :
  mm_ok m -> entry_changed m m' sp p (Some (f, fl)) -> low 12 f -> taken m 12 f ->
  (forall sp' p' g fl', entry2m m sp' p' = Some (g, fl') -> Buddy.apart 21 g 12 f) ->
  (is_writable fl = true -> f <> zero_phys m /\
     forall sp' p' fl', entry m sp' p' = Some (f, fl') -> sp' = sp /\ p' = p) ->
  (forall sp' p' fl', entry m sp' p' = Some (f, fl') -> is_writable fl' = true -> sp' = sp /\ p' = p) ->
  (f <> zero_phys m -> counted m' f (get_ref m f)) -> mm_ok m'.
Proof.
  intros [H1 H2 H3 H4 H5 H6 H7 H8] Hc Hlow Htk Hhuge Hw Hro Hcnt.
  pose proof (ch_zero _ _ _ _ _ Hc) as Hz.
  assert (forall sp' q g fl', entry m' sp' q = Some (g, fl') ->
    (sp' = sp /\ q = p /\ g = f /\ fl' = fl) \/ (~ (sp' = sp /\ q = p) /\ entry m sp' q = Some (g, fl'))) as Hcase.
  { intros sp' q g fl'. rewrite (ch_entry _ _ _ _ _ Hc). case_decide as Hd; [|by right].
    destruct Hd as [-> ->]. intros [= <- <-]. by left. }
  split; try rewrite Hz.
  - apply (ch_source _ _ _ _ _ Hc).
  - intros x Hx. by apply H2, (ch_avail _ _ _ _ _ Hc).
  - destruct H3 as (? & ? & ?). split_and!; [done|done|by apply (changed_taken m m' sp p _ _ _ Hc)].
  - rewrite (ch_phys _ _ _ _ _ Hc). exact H4.
  - intros sp' q g fl' Hg. destruct (Hcase _ _ _ _ Hg) as [(-> & -> & -> & ->)|[_ Hg']].
    + split; [done|by apply (changed_taken m m' sp p _ _ _ Hc)].
    + destruct (H5 _ _ _ _ Hg'). split; [done|by apply (changed_taken m m' sp p _ _ _ Hc)].
  - intros sp' q g fl' Hg Hwr. destruct (Hcase _ _ _ _ Hg) as [(-> & -> & -> & ->)|[Hne Hg']].
    + destruct (Hw Hwr) as [Hnz Hu]. split; [done|]. intros sp2 p2 fl2 H2'.
      destruct (Hcase _ _ _ _ H2') as [(-> & -> & _ & _)|[_ H2'']]; [done|]. by apply (Hu _ _ fl2).
    + destruct (H6 _ _ _ _ Hg' Hwr) as [Hnz Hu]. split; [done|]. intros sp2 p2 fl2 H2'.
      destruct (Hcase _ _ _ _ H2') as [(-> & -> & -> & _)|[_ H2'']]; [|by apply (Hu _ _ fl2)].
      destruct Hne. by apply (Hro _ _ fl').
  - intros g Hlg Hnz. rewrite (changed_ref m m' sp p _ g Hc). destruct (decide (g = f)) as [->|Hne]; [by apply Hcnt|].
    destruct (H7 g Hlg Hnz) as (l & Hl & Hin). exists l. split; [done|]. intros sp' q fl' Hg.
    destruct (Hcase _ _ _ _ Hg) as [(_ & _ & ? & _)|[_ Hg']]; [done|]. by apply (Hin _ _ fl').
  - intros sp' q g fl'. rewrite (ch_huge _ _ _ _ _ Hc). intros Hg.
    destruct (H8 _ _ _ _ Hg) as (? & ? & ? & Hx & Hy).
    split_and!; [done|by apply (changed_taken m m' sp p _ _ _ Hc)|done| |].
    + intros sp2 p2 g2 fl2 H2'. destruct (Hcase _ _ _ _ H2') as [(_ & _ & -> & _)|[_ H2'']];
        [by apply (Hhuge sp' q g fl')|by apply (Hx _ _ _ _ H2'')].
    + intros sp2 p2 g2 fl2. rewrite (ch_huge _ _ _ _ _ Hc). apply Hy.
Qed.

(** A page may be unmapped; its frame then has one page less. *)
Lemma mm_ok_unmap m m' sp p : mm_ok m -> entry_changed m m' sp p None -> mm_ok m'.
Proof.
  intros [H1 H2 H3 H4 H5 H6 H7 H8] Hc. pose proof (ch_zero _ _ _ _ _ Hc) as Hz.
  assert (forall sp' q g fl', entry m' sp' q = Some (g, fl') -> entry m sp' q = Some (g, fl')) as Hsub.
  { intros sp' q g fl'. rewrite (ch_entry _ _ _ _ _ Hc). by case_decide. }
  split; try rewrite Hz.
  - apply (ch_source _ _ _ _ _ Hc).
  - intros x Hx. by apply H2, (ch_avail _ _ _ _ _ Hc).
  - destruct H3 as (? & ? & ?). split_and!; [done|done|by apply (changed_taken m m' sp p _ _ _ Hc)].
  - rewrite (ch_phys _ _ _ _ _ Hc). exact H4.
  - intros sp' q g fl' Hg. destruct (H5 _ _ _ _ (Hsub _ _ _ _ Hg)). split; [done|by apply (changed_taken m m' sp p _ _ _ Hc)].
  - intros sp' q g fl' Hg Hwr. destruct (H6 _ _ _ _ (Hsub _ _ _ _ Hg) Hwr) as [Hnz Hu]. split; [done|]. eauto.
  - intros g Hlg Hnz. rewrite (changed_ref m m' sp p _ g Hc). destruct (H7 g Hlg Hnz) as (l & Hl & Hin).
    exists l. split; [done|]. eauto.
  - intros sp' q g fl'. rewrite (ch_huge _ _ _ _ _ Hc). intros Hg.
    destruct (H8 _ _ _ _ Hg) as (? & ? & ? & Hx & Hy).
    split_and!; [done|by apply (changed_taken m m' sp p _ _ _ Hc)|done| |]; [by eauto|].
    intros sp2 p2 g2 fl2. rewrite (ch_huge _ _ _ _ _ Hc). apply Hy.
Qed.

Lemma counted_less m m' sp p f fl n e : entry m sp p = Some (f, fl) -> entry_changed m m' sp p e ->
  (forall fl', e <> Some (f, fl')) -> counted m f n -> counted m' f (n - 1).
Proof.
  intros Hf Hc He (l & Hl & Hin). exists (filter (fun a => a <> (sp, p)) l). split.
  - apply Hin in Hf. assert (length (filter (fun a => a <> (sp, p)) l) < length l)%nat; [|lia].
    by apply (length_filter_lt _ _ (sp, p)); [|intros []].
  - intros sp' q fl'. rewrite (ch_entry _ _ _ _ _ Hc). case_decide as Hd; [by intros ?%He|].
    intros Hq. apply list_elem_of_filter. split; [|by apply (Hin _ _ fl')]. intros [= -> ->]. by apply Hd.
Qed.

Lemma counted_more m m' sp p f n e : entry_changed m m' sp p e -> counted m f n -> counted m' f (n + 1).
Proof.
  intros Hc (l & Hl & Hin). exists ((sp, p) :: l). split; [cbn [length]; lia|].
  intros sp' q fl'. rewrite (ch_entry _ _ _ _ _ Hc). case_decide as Hd.
  - destruct Hd as [-> ->]. intros _. apply list_elem_of_here.
  - intros Hq. apply list_elem_of_further. by apply (Hin _ _ fl').
Qed.

(** *** The page table operations *)

Lemma set_table_changed m a sp pt p e :
  source_ok a -> (forall x, available a x -> available (frames m) x) ->
  (forall q, leaf pt q = if q =? p then e else entry m sp q) -> (forall q, leaf2m pt q = entry2m m sp q) ->
  entry_changed m (set_table (m <| frames := a |>) sp pt) sp p e.
Proof.
  intros Hs Ha Hl Hl2. split; try done.
  - intros sp' q. rewrite entry_set. destruct (decide (sp = sp')) as [<-|Hne].
    + rewrite Hl. destruct (Z.eqb_spec q p) as [->|]; [by rewrite decide_True|].
      rewrite decide_False by tauto. done.
    + rewrite decide_False by (intros [? _]; congruence). done.
  - intros sp' q. rewrite entry2m_set. by destruct (decide (sp = sp')) as [<-|Hne].
Qed.

(** States that differ in nothing the invariant sees, free frames apart. *)
Definition quiet m m' : Prop :=
  (forall sp q, entry m' sp q = entry m sp q) /\ (forall sp q, entry2m m' sp q = entry2m m sp q) /\
  refcounts m' = refcounts m /\ phys m' = phys m /\ zero_phys m' = zero_phys m /\
  source_ok (frames m') /\ (forall x, available (frames m') x -> available (frames m) x).

Lemma quiet_ok m m' : mm_ok m -> quiet m m' -> mm_ok m'.
Proof. intros Hm (? & ? & ? & ? & ? & ? & ?). by apply (mm_ok_same m m'). Qed.

Lemma map_page_spec m sp p f fl err : source_ok (frames m) ->
  exists m' r, map_page m sp p f fl err = Ok (m', r) /\
    match r with
    | inl _ => (entry m sp p = None /\ entry2m m sp (align_down 21 p) = None) /\
        entry_changed m m' sp p (Some (f, fl))
    | inr e => e = err /\ quiet m m'
    end.
Proof.
  intros Hs. unfold map_page.
  destruct (map_to_law (page_table (space m sp)) (frames m) p f fl Hs) as (pt & a & ok & -> & Hs' & Ha & Hnone & Hl & Hl2).
  cbn [mbind outcome_bind]. destruct ok.
  - eexists _, (inl tt). split; [done|]. split; [by apply Hnone|]. by apply set_table_changed.
  - eexists _, (inr err). split; [done|]. split; [done|]. split_and!; try done.
    + intros sp' q. rewrite entry_set. destruct (decide (sp = sp')) as [<-|]; [|done]. by rewrite Hl.
    + intros sp' q. rewrite entry2m_set. by destruct (decide (sp = sp')) as [<-|].
Qed.

Lemma frames_id m : m <| frames := frames m |> = m.
Proof. by destruct m. Qed.

Lemma unmap_spec m sp p : source_ok (frames m) ->
  match entry m sp p with
  | Some _ => exists pt, unmap (page_table (space m sp)) p = Some pt /\ entry_changed m (set_table m sp pt) sp p None
  | None => unmap (page_table (space m sp)) p = None
  end.
Proof.
  intros Hs. pose proof (unmap_law (page_table (space m sp)) p) as Hu.
  change (leaf (page_table (space m sp)) p) with (entry m sp p) in Hu.
  destruct (entry m sp p) as [e|] eqn:He; [|done]. destruct Hu as (pt & Hpt & Hl & Hl2).
  exists pt. split; [done|]. rewrite <- (frames_id m) at 2. by apply set_table_changed.
Qed.

Lemma update_page_flags_spec m sp p fl : source_ok (frames m) ->
  match entry m sp p with
  | Some (f, _) => exists m', update_page_flags m sp p fl = Ok (m', inl ()) /\
      entry_changed m m' sp p (Some (f, fl))
  | None => update_page_flags m sp p fl = Ok (m, inr "update_page_flags: failed")
  end.
Proof.
  intros Hs. pose proof (update_flags_law (page_table (space m sp)) p fl) as Hu. unfold update_page_flags.
  change (leaf (page_table (space m sp)) p) with (entry m sp p) in Hu.
  destruct (entry m sp p) as [[f fl0]|] eqn:He; [|by rewrite Hu]. destruct Hu as (pt & -> & Hl & Hl2).
  eexists. split; [done|]. rewrite <- (frames_id m) at 2. by apply set_table_changed.
Qed.

(** *** Fresh frames *)

(** A frame in use that no page maps yet. *)
Record fresh m (o f : Z) : Prop := {
  fr_low : low o f;
  fr_taken : taken m o f;
  fr_zero : Buddy.apart o f 12 (zero_phys m);
  fr_entry : forall sp p g fl, entry m sp p = Some (g, fl) -> Buddy.apart o f 12 g;
  fr_huge : forall sp p g fl, entry2m m sp p = Some (g, fl) -> Buddy.apart o f 21 g;
}.

Lemma quiet_fresh m m' o f : quiet m m' -> fresh m o f -> fresh m' o f.
Proof.
  intros (He & He2 & _ & _ & Hz & _ & Ha) [H1 H2 H3 H4 H5]. split; [done| |by rewrite Hz| |].
  - intros x Hx Hav. apply (H2 x Hx), Ha, Hav.
  - intros sp p g fl. rewrite He. apply H4.
  - intros sp p g fl. rewrite He2. apply H5.
Qed.

Lemma alloc_frame_spec m o : mm_ok m -> Buddy.order_ok o ->
  exists m' r, alloc_frame m o = Ok (m', r) /\ mm_ok m' /\ quiet m m' /\
    (forall sp, space m' sp = space m sp) /\
    match r with Some f => fresh m' o f | None => True end.
Proof.
  intros Hm Ho. unfold alloc_frame.
  destruct (alloc_law (frames m) o (ok_source _ Hm) Ho) as (a & r & -> & Hs & Hr).
  cbn [mbind outcome_bind fst snd].
  assert (quiet m (m <| frames := a |>)) as Hq.
  { split_and!; try done. cbn. destruct r as [f|]; [|by subst a].
    destruct Hr as (_ & _ & Hx). intros x. rewrite Hx. tauto. }
  eexists _, r. split; [done|]. split; [by apply (quiet_ok m)|]. split; [done|]. split; [done|].
  destruct r as [f|]; [|done]. destruct Hr as (Hb & Hin & Hx).
  assert (0 <= o) as Ho0 by (unfold Buddy.order_ok, Buddy.MIN_ORDER in Ho; lia).
  assert (forall o' g, 0 <= o' -> taken m o' g -> Buddy.apart o f o' g) as Hap
    by (intros o' g Ho'; by apply (free_used_apart m)).
  split; cbn.
  - split; [done|]. pose proof (Buddy.pow_order o Ho) as Hpos.
    pose proof (ok_avail _ Hm (f + 2 ^ o - 1)) as Hlast. cut (f + 2 ^ o - 1 < 2 ^ 29); [lia|].
    apply Hlast, Hin. unfold in_frame. lia.
  - intros x Hfx. cbn. rewrite Hx. tauto.
  - apply Hap; [lia|]. apply Hm.
  - intros sp p g fl Hg. apply Hap; [lia|]. by apply (ok_frame _ Hm sp p g fl).
  - intros sp p g fl Hg. apply Hap; [lia|]. by apply (ok_huge _ Hm sp p g fl).
Qed.

Lemma fresh_not_zero m f : fresh m 12 f -> f <> zero_phys m.
Proof. intros [_ _ Hz _ _] ->. unfold Buddy.apart in Hz. rewrite pow12 in Hz. lia. Qed.

Lemma fresh_unmapped m f sp p fl : fresh m 12 f -> entry m sp p <> Some (f, fl).
Proof. intros [_ _ _ Hf _] He. apply Hf in He. unfold Buddy.apart in He. rewrite pow12 in He. lia. Qed.

(** Counts and bytes of a fresh frame may change. *)
Lemma set_ref_fresh m f c : mm_ok m -> fresh m 12 f -> 0 <= c ->
  mm_ok (set_ref m f c) /\ fresh (set_ref m f c) 12 f.
Proof.
  intros Hm Hf Hc. destruct (set_ref_rest m f c) as (He & He2 & Ha & Hp & Hz & _). split.
  - destruct Hm as [H1 H2 H3 H4 H5 H6 H7 H8].
    split; unfold taken, counted in *; rewrite ?He, ?He2, ?Ha, ?Hp, ?Hz; try done.
    intros g Hlg Hnz. rewrite get_set_ref; [|apply Hf|done]. destruct (decide (f = g)) as [<-|]; [|by apply H7].
    exists []. split; [cbn; lia|]. intros sp p fl Hfl. by destruct (fresh_unmapped m f sp p fl Hf).
  - destruct Hf as [H1 H2 H3 H4 H5]. split; unfold taken; rewrite ?He, ?He2, ?Ha, ?Hz; done.
Qed.

Lemma fill_fresh m f bs : mm_ok m -> fresh m 12 f -> (Z.of_nat (length bs) <= 4096) ->
  mm_ok (m <| phys := write_bytes (phys m) f bs |>) /\ fresh (m <| phys := write_bytes (phys m) f bs |>) 12 f.
Proof.
  intros Hm Hf Hlen. split; [|destruct Hf; by split].
  apply (mm_ok_phys m _ f (write_bytes (phys m) f bs) Hm eq_refl); [apply Hf|by apply fresh_not_zero|].
  intros x Hx. apply write_bytes_lookup_ne. unfold in_frame in Hx. rewrite pow12 in Hx. lia.
Qed.

(** Mapping a fresh frame. *)
Lemma map_fresh m m' sp p f fl : mm_ok m -> fresh m 12 f -> entry m sp p = None ->
  entry_changed m m' sp p (Some (f, fl)) -> 1 <= get_ref m f -> mm_ok m'.
Proof.
  intros Hm Hf Hnone Hc Href.
  assert (forall sp' p' fl', entry m sp' p' <> Some (f, fl')) as Hun by (intros; by apply fresh_unmapped).
  apply (mm_ok_change m m' sp p f fl Hm Hc); [apply Hf|apply Hf| | | |].
  - intros sp' p' g fl' Hg. apply Buddy.apart_sym. by apply (fr_huge _ _ _ Hf sp' p' g fl').
  - intros _. split; [by apply fresh_not_zero|]. intros sp' p' fl' He. by destruct (Hun sp' p' fl').
  - intros sp' p' fl' He. by destruct (Hun sp' p' fl').
  - intros _. apply (counted_mono m' f (0 + 1)); [lia|]. apply (counted_more m m' sp p f 0 _ Hc).
    exists []. split; [done|]. intros sp' p' fl' He. by destruct (Hun sp' p' fl').
Qed.

(** *** What processes see *)

(** An access goes to a frame the page tables name. *)
Lemma locate_in m sp x a w : locate m sp x = Some (a, w) ->
  (exists f fl, entry m sp (page_of x) = Some (f, fl) /\ in_frame 12 f a /\ w = is_writable fl) \/
  (exists f fl, entry m sp (page_of x) = None /\ entry2m m sp (align_down 21 x) = Some (f, fl) /\ in_frame 21 f a).
Proof.
  unfold locate, in_frame. rewrite pow12, pow21.
  destruct (entry m sp (page_of x)) as [[f fl]|].
  - intros [= <- <-]. left. exists f, fl. pose proof (Z.mod_pos_bound x 4096 ltac:(lia)). split_and!; [done|lia|lia|done].
  - destruct (entry2m m sp (align_down 21 x)) as [[f fl]|]; [|done]. intros [= <- <-]. right. exists f, fl.
    pose proof (Z.mod_pos_bound x 2097152 ltac:(lia)). split_and!; [done|done|lia|lia].
Qed.

Lemma view_quiet m m' sp x : quiet m m' -> view m' sp x = view m sp x.
Proof.
  intros (He & He2 & _ & Hp & _). unfold view. rewrite Hp, (locate_same m m' He He2). done.
Qed.

Lemma view_set_ref m f c sp x : view (set_ref m f c) sp x = view m sp x.
Proof. destruct (set_ref_rest m f c) as (He & He2 & _ & Hp & _). unfold view, locate. by rewrite He, He2, Hp. Qed.

(** Filling a fresh frame is not visible. *)
Lemma view_fill m o f bs sp x : fresh m o f -> (Z.of_nat (length bs) <= 2 ^ o) ->
  view (m <| phys := write_bytes (phys m) f bs |>) sp x = view m sp x.
Proof.
  intros Hf Hlen. unfold view. change (locate (m <| phys := _ |>) sp x) with (locate m sp x).
  destruct (locate m sp x) as [[a w]|] eqn:Hl; [|done]. cbn. f_equal. unfold read_byte. f_equal.
  apply write_bytes_lookup_ne.
  assert (~ in_frame o f a) as Hn; [|unfold in_frame in Hn; lia]. intros Hin.
  destruct (locate_in m sp x a w Hl) as [(g & fl & Hg & Hga & _)|(g & fl & _ & Hg & Hga)].
  - by apply (apart_frame _ _ _ _ a (fr_entry _ _ _ Hf _ _ _ _ Hg)).
  - by apply (apart_frame _ _ _ _ a (fr_huge _ _ _ Hf _ _ _ _ Hg)).
Qed.

Lemma view_changed_ne m m' sp p e sp' x : entry_changed m m' sp p e ->
  ~ (sp' = sp /\ page_of x = p) -> view m' sp' x = view m sp' x.
Proof.
  intros Hc Hne. unfold view, locate. rewrite (ch_phys _ _ _ _ _ Hc), (ch_huge _ _ _ _ _ Hc).
  by rewrite (changed_ne m m' sp p e sp' (page_of x) Hc Hne).
Qed.

Lemma view_changed_eq m m' sp p f fl x : entry_changed m m' sp p (Some (f, fl)) -> page_of x = p ->
  view m' sp x = Some (read_byte (phys m) (f + x mod 4096)).
Proof.
  intros Hc Hx. unfold view, locate. rewrite Hx, (changed_eq m m' sp p _ Hc), (ch_phys _ _ _ _ _ Hc). done.
Qed.

Lemma view_entry m sp x f fl : entry m sp (page_of x) = Some (f, fl) ->
  view m sp x = Some (read_byte (phys m) (f + x mod 4096)).
Proof. intros He. unfold view, locate. by rewrite He. Qed.

Lemma read_bytes_lookup (b : mem) a n (i : nat) : (i < n)%nat ->
  read_bytes b a n !! i = Some (read_byte b (a + Z.of_nat i)).
Proof.
  revert a i; induction n as [|n IH]; intros a i Hi; [lia|]. destruct i as [|i]; cbn [read_bytes lookup list_lookup].
  - do 2 f_equal. lia.
  - change (read_bytes b (a + 1) n !! i = Some (read_byte b (a + Z.of_nat (S i)))).
    rewrite IH by lia. do 2 f_equal. lia.
Qed.

Lemma read_byte_copy (n : mem) src dst off : 0 <= off < 4096 ->
  read_byte (write_bytes n dst (read_bytes n src 4096)) (dst + off) = read_byte n (src + off).
Proof.
  intros Hoff. unfold read_byte at 1. replace off with (Z.of_nat (Z.to_nat off)) by lia.
  rewrite (write_bytes_lookup n dst _ (Z.to_nat off) (read_byte n (src + Z.of_nat (Z.to_nat off)))); [done|].
  apply read_bytes_lookup. lia.
Qed.

Lemma read_byte_zeros (n : mem) dst k off : 0 <= off < Z.of_nat k ->
  read_byte (write_bytes n dst (replicate k 0)) (dst + off) = 0.
Proof.
  intros Hoff. unfold read_byte. replace off with (Z.of_nat (Z.to_nat off)) by lia.
  rewrite (write_bytes_lookup n dst _ (Z.to_nat off) 0); [done|]. apply lookup_replicate. lia.
Qed.

(** *** Copy-on-write faults *)

(** Move a page from its frame to a fresh one that is counted and has the
    same bytes. *)
Lemma remap_spec m sp p f0 fl0 f fl : mm_ok m -> fresh m 12 f -> entry m sp p = Some (f0, fl0) -> 1 <= get_ref m f ->
  exists m' r, unmap_and_remap m sp p f fl = Ok (m', r) /\ mm_ok m' /\ refcounts m' = refcounts m /\
    zero_phys m' = zero_phys m /\
    (low 12 f0 -> f0 <> zero_phys m -> counted m' f0 (get_ref m f0 - 1)) /\
    (forall sp' x, ~ (sp' = sp /\ page_of x = p) -> view m' sp' x = view m sp' x) /\
    match r with
    | inl _ => entry m' sp p = Some (f, fl) /\
        forall x, page_of x = p -> view m' sp x = Some (read_byte (phys m) (f + x mod 4096))
    | inr _ => True
    end.
Proof.
  intros Hm Hf He Href. unfold unmap_and_remap.
  pose proof (unmap_spec m sp p (ok_source _ Hm)) as Hu. rewrite He in Hu.
  destruct Hu as (pt & -> & Hc). set (m1 := set_table m sp pt) in *.
  pose proof (mm_ok_unmap m m1 sp p Hm Hc) as Hm1.
  assert (fresh m1 12 f) as Hf1.
  { destruct Hf as [H1' H2 H3 H4 H5]. split; [done|by apply (changed_taken m m1 sp p _ _ _ Hc)| | |].
    - by rewrite (ch_zero _ _ _ _ _ Hc).
    - intros sp' q g fl'. rewrite (ch_entry _ _ _ _ _ Hc). case_decide; [done|]. apply H4.
    - intros sp' q g fl'. rewrite (ch_huge _ _ _ _ _ Hc). apply H5. }
  assert (f <> f0) as Hne by (intros ->; by apply (fresh_unmapped m f0 sp p fl0 Hf)).
  destruct (map_page_spec m1 sp p f fl "unmap_and_remap: map_to failed" (ok_source _ Hm1)) as (m2 & r & -> & Hr).
  assert (low 12 f0 -> f0 <> zero_phys m -> counted m1 f0 (get_ref m f0 - 1)) as Hcnt.
  { intros Hl0 Hz0. apply (counted_less m m1 sp p f0 fl0 _ None He Hc); [done|]. by apply Hm. }
  exists m2, r. split; [done|]. destruct r as [u|e]; [destruct Hr as [[Hnone _] Hc2]|destruct Hr as [_ Hq]].
  - split_and!.
    + apply (map_fresh m1 m2 sp p f fl Hm1 Hf1 Hnone Hc2). by rewrite (changed_ref m m1 sp p _ f Hc).
    + by rewrite (ch_refs _ _ _ _ _ Hc2), (ch_refs _ _ _ _ _ Hc).
    + by rewrite (ch_zero _ _ _ _ _ Hc2), (ch_zero _ _ _ _ _ Hc).
    + intros Hl0 Hz0. destruct (Hcnt Hl0 Hz0) as (l & Hl & Hin). exists l. split; [done|].
      intros sp' q fl'. rewrite (ch_entry _ _ _ _ _ Hc2). case_decide; [by intros [= ->]|]. apply Hin.
    + intros sp' x Hx. rewrite (view_changed_ne m1 m2 sp p _ sp' x Hc2 Hx).
      by apply (view_changed_ne m m1 sp p _ sp' x Hc).
    + by apply (changed_eq m1 m2 sp p).
    + intros x Hx. rewrite (view_changed_eq m1 m2 sp p f fl x Hc2 Hx). by rewrite (ch_phys _ _ _ _ _ Hc).
  - split_and!; [by apply (quiet_ok m1)| | | | |done].
    + destruct Hq as (_ & _ & -> & _). apply (ch_refs _ _ _ _ _ Hc).
    + destruct Hq as (_ & _ & _ & _ & -> & _). apply (ch_zero _ _ _ _ _ Hc).
    + intros Hl0 Hz0. destruct (Hcnt Hl0 Hz0) as (l & Hl & Hin). exists l. split; [done|].
      intros sp' q fl'. destruct Hq as (-> & _). apply Hin.
    + intros sp' x Hx. rewrite (view_quiet m1 m2 sp' x Hq). by apply (view_changed_ne m m1 sp p _ sp' x Hc).
Qed.

(** Lowering the count of a frame with a page less. *)
Lemma set_ref_ok m f c : mm_ok m -> low 12 f -> (f <> zero_phys m -> counted m f c) -> mm_ok (set_ref m f c).
Proof.
  intros Hm Hlf Hcnt. destruct (set_ref_rest m f c) as (He & He2 & Ha & Hp & Hz & _).
  destruct Hm as [H1 H2 H3 H4 H5 H6 H7 H8].
  split; unfold taken, counted in *; rewrite ?He, ?He2, ?Ha, ?Hp, ?Hz; try done.
  intros g Hlg Hnz. rewrite get_set_ref by done. destruct (decide (f = g)) as [<-|]; [by apply Hcnt|by apply H7].
Qed.

Lemma counted_nonneg m f n : counted m f n -> 0 <= n.
Proof. intros (l & Hl & _). lia. Qed.

Lemma release_shared m f : mm_ok m -> low 12 f -> 2 <= get_ref m f -> counted m f (get_ref m f - 1) ->
  exists m', release_frame m f = Ok m' /\ mm_ok m' /\ (forall sp q, entry m' sp q = entry m sp q) /\
    forall sp x, view m' sp x = view m sp x.
Proof.
  intros Hm Hlf Href Hcnt. unfold release_frame, dec_ref. rewrite idx_low by done.
  rewrite Z.max_r, (proj2 (Z.eqb_neq _ _)) by lia.
  eexists. split; [done|]. split; [by apply set_ref_ok|]. split.
  - intros sp q. by destruct (set_ref_rest m f (get_ref m f - 1)) as (-> & _).
  - intros sp x. apply view_set_ref.
Qed.

Lemma is_zero_frame_spec m f : mm_ok m -> is_zero_frame m f = bool_decide (f = zero_phys m).
Proof.
  intros Hm. unfold is_zero_frame. destruct (ok_zero _ Hm) as [Hz _].
  rewrite (proj2 (Z.eqb_neq _ _)) by done. cbn. by destruct (Z.eqb_spec f (zero_phys m)); [rewrite bool_decide_true|rewrite bool_decide_false].
Qed.

(** A fresh frame, counted once and filled with [bs]; nothing else changed. *)
Record prepared m m' (f : Z) (bs : list Z) : Prop := {
  p_ok : mm_ok m';
  p_fresh : fresh m' 12 f;
  p_entry : forall sp q, entry m' sp q = entry m sp q;
  p_view : forall sp x, view m' sp x = view m sp x;
  p_ref : get_ref m' f = 1;
  p_refs : forall g, low 12 g -> g <> f -> get_ref m' g = get_ref m g;
  p_zero : zero_phys m' = zero_phys m;
  p_phys : phys m' = write_bytes (phys m) f bs;
}.

Lemma prepare_spec m bs : mm_ok m -> Z.of_nat (length bs) <= 4096 ->
  exists m1 r, alloc_frame m 12 = Ok (m1, r) /\ mm_ok m1 /\ (forall sp x, view m1 sp x = view m sp x) /\
    phys m1 = phys m /\
    match r with
    | Some f => phys (set_ref m1 f 1) = phys m /\
        prepared m ((set_ref m1 f 1) <| phys := write_bytes (phys m) f bs |>) f bs
    | None => True
    end.
Proof.
  intros Hm Hlen. destruct (alloc_frame_spec m 12 Hm ltac:(by split)) as (m1 & r & He & Hm1 & Hq & Hsp & Hr).
  exists m1, r. pose proof Hq as (Hqe & Hqh & Hqr & Hqp & Hqz & _).
  split_and!; [done|done|intros; by apply view_quiet|done|]. destruct r as [f|]; [|done].
  destruct (set_ref_rest m1 f 1) as (Se & _ & _ & Sp & Sz & _).
  assert (phys (set_ref m1 f 1) = phys m) as Hph by (by rewrite Sp). split; [done|].
  destruct (set_ref_fresh m1 f 1 Hm1 Hr ltac:(lia)) as [Hm2 Hf2].
  destruct (fill_fresh (set_ref m1 f 1) f bs Hm2 Hf2 Hlen) as [Hm3 Hf3]. rewrite Hph in Hm3, Hf3.
  split; [done|done| | | | | |done].
  - intros sp q. change (entry (set_ref m1 f 1) sp q = entry m sp q). by rewrite Se.
  - intros sp x. rewrite <- Hph, (view_fill (set_ref m1 f 1) 12) by done. rewrite view_set_ref. by apply view_quiet.
  - change (get_ref (set_ref m1 f 1) f = 1). rewrite get_set_ref by apply Hr. by rewrite decide_True.
  - intros g Hg Hne. change (get_ref (set_ref m1 f 1) g = get_ref m g).
    rewrite get_set_ref, decide_False by (done || apply Hr). unfold get_ref. by rewrite Hqr.
  - change (zero_phys (set_ref m1 f 1) = zero_phys m). by rewrite Sz.
Qed.

(** The outcome of a copy-on-write fault at the page [p]: only that page may
    become inaccessible, and on success it has the flags asked for and the
    same bytes as before. *)
Definition fault_handled m m' (sp p fl : Z) (r : unit + string) : Prop :=
  mm_ok m' /\
  (forall sp' x, ~ (sp' = sp /\ page_of x = p) -> view m' sp' x = view m sp' x) /\
  match r with
  | inl _ => (exists f, entry m' sp p = Some (f, fl)) /\ forall x, page_of x = p -> view m' sp x = view m sp x
  | inr _ => True
  end.

Lemma mod_page x : 0 <= x mod 4096 < 4096.
Proof. apply Z.mod_pos_bound. lia. Qed.

(** The zero frame is replaced by a private zeroed one. *)
Lemma cow_zero_ok m m3 sp p f fl0 fl : mm_ok m -> entry m sp p = Some (zero_phys m, fl0) ->
  prepared m m3 f (replicate 4096 0) ->
  exists m' r, unmap_and_remap m3 sp p f fl = Ok (m', r) /\ fault_handled m m' sp p fl r.
Proof.
  intros Hm He Hp. rewrite <- (p_entry _ _ _ _ Hp) in He.
  destruct (remap_spec m3 sp p _ fl0 f fl (p_ok _ _ _ _ Hp) (p_fresh _ _ _ _ Hp) He) as
    (m4 & r & -> & Hm4 & _ & _ & _ & Hoth & Hr4); [by rewrite (p_ref _ _ _ _ Hp)|].
  exists m4, r. split; [done|]. split; [done|]. split; [intros; rewrite Hoth; [apply Hp|done]|].
  destruct r as [u|]; [|done]. destruct Hr4 as [He4 Hv4]. split; [by exists f|].
  intros x Hx. rewrite Hv4, <- (p_view _ _ _ _ Hp) by done.
  rewrite (view_entry m3 sp x (zero_phys m) fl0) by (by rewrite Hx). f_equal. pose proof (mod_page x).
  transitivity 0.
  - rewrite (p_phys _ _ _ _ Hp). apply read_byte_zeros. lia.
  - symmetry. rewrite <- (p_zero _ _ _ _ Hp). apply (ok_zeros _ (p_ok _ _ _ _ Hp)).
    unfold in_frame. rewrite pow12. lia.
Qed.

(** The last owner gets the page back as it is. *)
Lemma cow_last_ok m sp p f fl0 fl : mm_ok m -> entry m sp p = Some (f, fl0) -> f <> zero_phys m ->
  get_ref m f <= 1 ->
  exists m' r, update_page_flags m sp p fl = Ok (m', r) /\ fault_handled m m' sp p fl r.
Proof.
  intros Hm He Hz Href. destruct (ok_frame _ Hm _ _ _ _ He) as [Hlow Htk].
  pose proof (update_page_flags_spec m sp p fl (ok_source _ Hm)) as Hu. rewrite He in Hu.
  destruct Hu as (m' & -> & Hc). exists m', (inl tt). split; [done|].
  assert (forall sp' p' fl', entry m sp' p' = Some (f, fl') -> sp' = sp /\ p' = p) as Huniq.
  { intros sp' p' fl' He'. apply (counted_one m f sp p fl0 sp' p' fl'); [|done|done].
    apply (counted_mono m f (get_ref m f)); [done|by apply Hm]. }
  split; [|split; [intros sp' x Hx; by apply (view_changed_ne m m' sp p _ sp' x Hc)|]].
  - apply (mm_ok_change m m' sp p f fl Hm Hc Hlow Htk); [|by split|by eauto|].
    + intros sp' p' g fl' Hg. by apply (ok_huge _ Hm sp' p' g fl' Hg) with sp p fl0.
    + intros _. destruct (ok_count _ Hm f Hlow Hz) as (l & Hl & Hin). exists l. split; [done|].
      intros sp' q fl'. rewrite (ch_entry _ _ _ _ _ Hc). case_decide as Hd; [|apply Hin].
      destruct Hd as [-> ->]. intros _. by apply (Hin _ _ fl0).
  - split; [exists f; by apply (changed_eq m m' sp p)|]. intros x Hx.
    rewrite (view_changed_eq m m' sp p f fl x Hc Hx). symmetry. apply (view_entry m sp x f fl0). by rewrite Hx.
Qed.

(** A shared frame is copied and loses one share. *)
Lemma cow_copy_ok m m3 sp p f0 f fl0 fl : mm_ok m -> entry m sp p = Some (f0, fl0) -> f0 <> zero_phys m ->
  2 <= get_ref m f0 -> prepared m m3 f (read_bytes (phys m) f0 4096) ->
  exists m' q, unmap_and_remap m3 sp p f fl = Ok q /\ release_frame q.1 f0 = Ok m' /\
    fault_handled m m' sp p fl q.2.
Proof.
  intros Hm He Hz Href Hp. destruct (ok_frame _ Hm _ _ _ _ He) as [Hlow0 _].
  pose proof He as He3. rewrite <- (p_entry _ _ _ _ Hp) in He3.
  assert (f0 <> f) as Hne by (intros ->; by apply (fresh_unmapped m3 f sp p fl0 (p_fresh _ _ _ _ Hp))).
  pose proof (p_refs _ _ _ _ Hp f0 Hlow0 Hne) as Href0.
  destruct (remap_spec m3 sp p f0 fl0 f fl (p_ok _ _ _ _ Hp) (p_fresh _ _ _ _ Hp) He3) as
    (m4 & r & -> & Hm4 & Hrc & _ & Hcnt & Hoth & Hr4); [by rewrite (p_ref _ _ _ _ Hp)|].
  assert (get_ref m4 f0 = get_ref m f0) as Href4 by (rewrite <- Href0; unfold get_ref; by rewrite Hrc).
  destruct (release_shared m4 f0 Hm4 Hlow0) as (m5 & Hrel & Hm5 & He5 & Hv5).
  { lia. }
  { rewrite Href4, <- Href0. apply Hcnt; [done|by rewrite (p_zero _ _ _ _ Hp)]. }
  exists m5, (m4, r). cbn [fst snd]. split; [done|]. split; [done|]. split; [done|].
  split; [intros; rewrite Hv5, Hoth; [apply Hp|done]|].
  destruct r as [u|]; [|done]. destruct Hr4 as [He4 Hv4]. split; [exists f; by rewrite He5|].
  intros x Hx. rewrite Hv5, Hv4 by done. rewrite (view_entry m sp x f0 fl0) by (by rewrite Hx).
  f_equal. rewrite (p_phys _ _ _ _ Hp). apply read_byte_copy, mod_page.
Qed.

Lemma handle_cow_fault_ok m sp addr fl : mm_ok m ->
  exists m' r, handle_cow_fault m sp addr fl = Ok (m', r) /\ fault_handled m m' sp (page_of addr) fl r.
Proof.
  intros Hm. unfold handle_cow_fault. set (p := page_of addr). unfold translate_page.
  destruct (entry m sp p) as [[f0 fl0]|] eqn:He; cbn [fmap option_fmap option_map fst];
    [|by exists m, (inr "COW: page not mapped")].
  rewrite is_zero_frame_spec by done. case_bool_decide as Hz; [|destruct (Z.leb_spec (get_ref m f0) 1)].
  - destruct (prepare_spec m (replicate 4096 0) Hm) as (m1 & r & -> & Hm1 & Hv1 & _ & Hr); [rewrite length_replicate; lia|].
    cbn [mbind outcome_bind fst snd]. destruct r as [f|]; [|by exists m1, (inr "COW zero-frame: OOM")].
    destruct Hr as [Hph Hp]. unfold zero_page. rewrite Hph. subst f0. by apply (cow_zero_ok m _ sp p f fl0).
  - by apply (cow_last_ok m sp p f0 fl0).
  - destruct (prepare_spec m (read_bytes (phys m) f0 4096) Hm) as (m1 & r & -> & Hm1 & Hv1 & _ & Hr);
      [rewrite length_read_bytes; lia|].
    cbn [mbind outcome_bind fst snd]. destruct r as [f|]; [|by exists m1, (inr "COW: out of memory")].
    destruct Hr as [Hph Hp]. rewrite Hph.
    destruct (cow_copy_ok m _ sp p f0 f fl0 fl Hm He Hz ltac:(lia) Hp) as (m' & q & -> & Hrel & Hdone).
    cbn [mbind outcome_bind]. rewrite Hrel. by exists m', q.2.
Qed.

(** *** Stores *)

Lemma page_split x : x = page_of x + x mod 4096.
Proof.
  unfold page_of. rewrite align_down_eq by lia. rewrite pow12. pose proof (Z.div_mod x 4096 ltac:(lia)). lia.
Qed.

Lemma huge_split x : x = align_down 21 x + x mod 2 ^ 21.
Proof. rewrite align_down_eq by lia. pose proof (Z.div_mod x (2 ^ 21) ltac:(lia)). lia. Qed.

(** No other address leads to a byte that can be written. *)
Lemma locate_inj m sp x sp' y a w : mm_ok m ->
  locate m sp x = Some (a, true) -> locate m sp' y = Some (a, w) -> sp' = sp /\ y = x.
Proof.
  intros Hm H1 H2. unfold locate in H1, H2.
  pose proof (mod_page x). pose proof (mod_page y).
  pose proof (Z.mod_pos_bound x (2 ^ 21) ltac:(lia)). pose proof (Z.mod_pos_bound y (2 ^ 21) ltac:(lia)).
  destruct (entry m sp (page_of x)) as [[f fl]|] eqn:Hx, (entry m sp' (page_of y)) as [[g fl']|] eqn:Hy.
  - injection H1 as Ha Hw. injection H2 as Hb _.
    destruct (decide (f = g)) as [<-|Hne].
    + destruct (ok_write _ Hm _ _ _ _ Hx Hw) as [_ Hu]. destruct (Hu _ _ _ Hy) as [-> Hp].
      split; [done|]. rewrite (page_split x), (page_split y). lia.
    + exfalso. pose proof (frames_apart f g (proj1 (ok_frame _ Hm _ _ _ _ Hx)) (proj1 (ok_frame _ Hm _ _ _ _ Hy)) Hne) as Hap.
      unfold Buddy.apart in Hap. rewrite pow12 in Hap. lia.
  - destruct (entry2m m sp' (align_down 21 y)) as [[g fl']|] eqn:Hy2; [|done].
    injection H1 as Ha _. injection H2 as Hb _. exfalso.
    pose proof (ok_huge _ Hm _ _ _ _ Hy2) as (_ & _ & _ & Hap & _). specialize (Hap _ _ _ _ Hx).
    unfold Buddy.apart in Hap. rewrite pow12 in Hap. lia.
  - destruct (entry2m m sp (align_down 21 x)) as [[f fl]|] eqn:Hx2; [|done].
    injection H1 as Ha _. injection H2 as Hb _. exfalso.
    pose proof (ok_huge _ Hm _ _ _ _ Hx2) as (_ & _ & _ & Hap & _). specialize (Hap _ _ _ _ Hy).
    unfold Buddy.apart in Hap. rewrite pow12 in Hap. lia.
  - destruct (entry2m m sp (align_down 21 x)) as [[f fl]|] eqn:Hx2; [|done].
    destruct (entry2m m sp' (align_down 21 y)) as [[g fl']|] eqn:Hy2; [|done].
    injection H1 as Ha _. injection H2 as Hb _.
    pose proof (ok_huge _ Hm _ _ _ _ Hx2) as (_ & _ & _ & _ & Hap). specialize (Hap _ _ _ _ Hy2).
    destruct Hap as [[-> Hp]|Hap]; [|unfold Buddy.apart in Hap; lia].
    rewrite Hp, Hx2 in Hy2. injection Hy2 as -> ->.
    split; [done|]. rewrite (huge_split x), (huge_split y). lia.
Qed.

Lemma store_ok m sp x v m' : mm_ok m -> store m sp x v = Some m' ->
  mm_ok m' /\ view m' sp x = Some v /\
  forall sp' y, (sp', y) <> (sp, x) -> view m' sp' y = view m sp' y.
Proof.
  intros Hm. unfold store. destruct (locate m sp x) as [[a [|]]|] eqn:Hl; [|done|done]. intros Hs.
  assert (m' = m <| phys := <[a := v]> (phys m) |>) as Heq by congruence. clear Hs. split_and!.
  - assert (~ in_frame 12 (zero_phys m) a) as Hnz.
    { intros Hin. destruct (ok_zero _ Hm) as (_ & Hlz & _).
      destruct (locate_in m sp x a true Hl) as [(f & fl & He & Hf & Hw)|(f & fl & _ & He & Hf)].
      - destruct (ok_write _ Hm _ _ _ _ He (eq_sym Hw)) as [Hne _].
        by apply (apart_frame _ _ _ _ a (frames_apart f _ (proj1 (ok_frame _ Hm _ _ _ _ He)) Hlz Hne) Hf).
      - pose proof (ok_huge _ Hm _ _ _ _ He) as (_ & _ & Hap & _). by apply (apart_frame _ _ _ _ a Hap Hf). }
    destruct Hm as [H1 H2 H3 H4 H5 H6 H7 H8]. subst m'. split; try done. intros y Hy.
    rewrite <- (H4 y Hy). unfold read_byte. cbn.
    rewrite lookup_insert_ne; [done|]. by intros <-.
  - subst m'. unfold view. change (locate (m <| phys := _ |>) sp x) with (locate m sp x). rewrite Hl. cbn. unfold read_byte.
    by rewrite lookup_insert_eq.
  - intros sp' y Hne. subst m'. unfold view. change (locate (m <| phys := _ |>) sp' y) with (locate m sp' y).
    destruct (locate m sp' y) as [[b w]|] eqn:Hl'; [|done]. cbn. unfold read_byte. rewrite lookup_insert_ne; [done|].
    intros <-. destruct (locate_inj m sp x sp' y a w Hm Hl Hl'). congruence.
Qed.

(** *** Demand paging *)

(** A page is added: everything visible stays, other spaces see no change, and
    on success the new page reads as zeros. *)
Definition demanded m m' (sp addr : Z) (r : unit + string) : Prop :=
  mm_ok m' /\ (forall sp' x b, view m sp' x = Some b -> view m' sp' x = Some b) /\
  (forall sp' x, sp' <> sp -> view m' sp' x = view m sp' x) /\
  match r with inl _ => view m' sp addr = Some 0 | inr _ => True end.

Lemma view_none m sp x : entry m sp (page_of x) = None -> entry2m m sp (align_down 21 x) = None -> view m sp x = None.
Proof. intros He He2. unfold view, locate. by rewrite He, He2. Qed.

Lemma align_page x : align_down 21 (page_of x) = align_down 21 x.
Proof. unfold page_of, align_down. rewrite Z.ldiff_ldiff_l. f_equal. Qed.

(** Views survive mapping a page that was not there. *)
Lemma view_mapped m m' sp p e : entry_changed m m' sp p e -> entry m sp p = None ->
  entry2m m sp (align_down 21 p) = None ->
  (forall sp' x b, view m sp' x = Some b -> view m' sp' x = Some b) /\
  (forall sp' x, sp' <> sp -> view m' sp' x = view m sp' x).
Proof.
  intros Hc Hn Hn2. split.
  - intros sp' x b Hb. rewrite (view_changed_ne m m' sp p e sp' x Hc); [done|]. intros [-> <-].
    rewrite align_page in Hn2. by rewrite (view_none m sp x Hn Hn2) in Hb.
  - intros sp' x Hne. apply (view_changed_ne m m' sp p e sp' x Hc). by intros [? _].
Qed.

Lemma demand_zero_ok m sp addr err : mm_ok m ->
  exists m' r, map_page m sp (page_of addr) (zero_phys m) (Z.lor PRESENT USER_ACCESSIBLE) err = Ok (m', r) /\
    demanded m m' sp addr r.
Proof.
  intros Hm. set (p := page_of addr). set (fl := Z.lor PRESENT USER_ACCESSIBLE).
  destruct (map_page_spec m sp p (zero_phys m) fl err (ok_source _ Hm)) as (m' & r & He & Hr).
  exists m', r. split; [done|]. destruct r as [u|e]; [destruct Hr as [[Hn Hn2] Hc]|destruct Hr as [_ Hq]].
  2: { split; [by apply (quiet_ok m)|]. split_and!; [intros; by rewrite (view_quiet m m')|intros; by apply view_quiet|done]. }
  destruct (ok_zero _ Hm) as (Hz0 & Hlz & Htz). destruct (view_mapped m m' sp p _ Hc Hn Hn2) as [Hv1 Hv2].
  split; [|split_and!; [done|done|]].
  - apply (mm_ok_change m m' sp p (zero_phys m) fl Hm Hc Hlz Htz).
    + intros sp' p' g fl' Hg. by apply (ok_huge _ Hm sp' p' g fl' Hg).
    + done.
    + intros sp' p' fl' He' Hw. by destruct (ok_write _ Hm _ _ _ _ He' Hw).
    + done.
  - rewrite (view_changed_eq m m' sp p _ _ addr Hc eq_refl). f_equal. apply (ok_zeros _ Hm).
    unfold in_frame. rewrite pow12. pose proof (mod_page addr). lia.
Qed.

Lemma demanded_from m m3 m' sp addr r : (forall sp' x, view m3 sp' x = view m sp' x) ->
  demanded m3 m' sp addr r -> demanded m m' sp addr r.
Proof.
  intros Hv (H1 & H2 & H3 & H4). split_and!; [done| | |done].
  - intros sp' x b Hb. apply H2. by rewrite Hv.
  - intros sp' x Hne. by rewrite H3, Hv.
Qed.

Lemma demanded_quiet m m' sp addr e : mm_ok m -> quiet m m' -> demanded m m' sp addr (inr e).
Proof.
  intros Hm Hq. split; [by apply (quiet_ok m)|].
  split_and!; [intros; by rewrite (view_quiet m m')|intros; by apply view_quiet|done].
Qed.

Lemma demand_private_ok m m3 sp addr f fl err : mm_ok m -> prepared m m3 f (replicate 4096 0) ->
  exists m' r, map_page m3 sp (page_of addr) f fl err = Ok (m', r) /\ demanded m m' sp addr r.
Proof.
  intros Hm Hp. set (p := page_of addr). pose proof (p_ok _ _ _ _ Hp) as Hm3.
  destruct (map_page_spec m3 sp p f fl err (ok_source _ Hm3)) as (m' & r & He & Hr).
  exists m', r. split; [done|]. apply (demanded_from m m3); [apply Hp|].
  destruct r as [u|e]; [destruct Hr as [[Hn Hn2] Hc]|destruct Hr as [_ Hq]; by apply demanded_quiet].
  destruct (view_mapped m3 m' sp p _ Hc Hn Hn2) as [Hv1 Hv2]. split; [|split_and!; [done|done|]].
  - apply (map_fresh m3 m' sp p f fl Hm3 (p_fresh _ _ _ _ Hp) Hn Hc). by rewrite (p_ref _ _ _ _ Hp).
  - rewrite (view_changed_eq m3 m' sp p f fl addr Hc eq_refl), (p_phys _ _ _ _ Hp). f_equal.
    apply read_byte_zeros. pose proof (mod_page addr). lia.
Qed.

(** Adding a huge page over a fresh block. *)
Lemma mm_ok_huge m m' sp p f fl : mm_ok m -> fresh m 21 f ->
  (forall sp' q, entry m' sp' q = entry m sp' q) ->
  (forall sp' q, entry2m m' sp' q = if decide (sp' = sp /\ q = p) then Some (f, fl) else entry2m m sp' q) ->
  refcounts m' = refcounts m -> phys m' = phys m -> zero_phys m' = zero_phys m ->
  source_ok (frames m') -> (forall x, available (frames m') x -> available (frames m) x) -> mm_ok m'.
Proof.
  intros [H1 H2 H3 H4 H5 H6 H7 H8] [F1 F2 F3 F4 F5] He He2 Hr Hp Hz Hs Ha.
  assert (forall o g, taken m o g -> taken m' o g) as Ht by (intros o g Hg x Hx Hav; apply (Hg x Hx), Ha, Hav).
  split; try rewrite Hp; try rewrite Hz; try done.
  - intros x Hx. by apply H2, Ha.
  - destruct H3 as (? & ? & ?). split_and!; auto.
  - intros sp' q g fl'. rewrite He. intros Hg. destruct (H5 _ _ _ _ Hg). auto.
  - intros sp' q g fl'. rewrite He. intros Hg Hw. destruct (H6 _ _ _ _ Hg Hw) as [? Hu].
    split; [done|]. intros sp2 p2 fl2. rewrite He. apply Hu.
  - intros g Hlg Hg. destruct (H7 g Hlg Hg) as (l & Hl & Hin). exists l. split.
    + unfold get_ref in *. by rewrite Hr.
    + intros sp' q fl'. rewrite He. apply Hin.
  - intros sp' q g fl'. rewrite He2. case_decide as Hd.
    + destruct Hd as [-> ->]. intros [= <- <-]. split_and!; [done|by apply Ht|done| |].
      * intros sp2 p2 g2 fl2. rewrite He. apply F4.
      * intros sp2 p2 g2 fl2. rewrite He2. case_decide as Hd2; [by left|]. intros Hg2. right. by apply (F5 sp2 p2 g2 fl2).
    + intros Hg. destruct (H8 _ _ _ _ Hg) as (? & ? & ? & Hx & Hy). split_and!; [done|by apply Ht|done| |].
      * intros sp2 p2 g2 fl2. rewrite He. apply Hx.
      * intros sp2 p2 g2 fl2. rewrite He2. case_decide as Hd2; [|apply Hy].
        intros [= <- <-]. right. apply Buddy.apart_sym. by apply (F5 sp' q g fl').
Qed.

Lemma demand_2m_ok m sp addr v : mm_ok m ->
  exists m' r, map_demand_page_2m m sp addr v = Ok (m', r) /\ demanded m m' sp addr r.
Proof.
  intros Hm. unfold map_demand_page_2m. set (p := align_down 21 addr).
  destruct (alloc_frame_spec m 21 Hm ltac:(by split)) as (m1 & r & -> & Hm1 & Hq & Hsp & Hr).
  cbn [mbind outcome_bind fst snd]. destruct r as [f|]; [|exists m1, (inr "Demand paging 2M: OOM"); split; [done|by apply demanded_quiet]].
  pose proof huge_page_bytes as Hn'. revert Hn'. generalize HUGE_PAGE_BYTES as n. intros n Hn'.
  set (m2 := zero_page m1 f n).
  assert (forall sp' x, view m2 sp' x = view m sp' x) as Hv2.
  { intros sp' x. unfold m2, zero_page. rewrite (view_fill m1 21) by (done || (rewrite length_replicate; lia)). by apply view_quiet. }
  assert (fresh m2 21 f) as Hf2 by (destruct Hr; by split).
  assert (mm_ok m2) as Hm2.
  { destruct Hm1 as [H1 H2 H3 H4 H5 H6 H7 H8]. split; try done. intros x Hx. rewrite <- (H4 x Hx). unfold read_byte.
    f_equal. apply write_bytes_lookup_ne. rewrite length_replicate. pose proof (fr_zero _ _ _ Hr) as Hap.
    unfold Buddy.apart in Hap. change (zero_phys m2) with (zero_phys m1) in Hx. unfold in_frame in Hx. lia. }
  destruct (map_to_2m_law (page_table (space m2 sp)) (frames m2) p f (flags v) (ok_source _ Hm2))
    as (pt & a & ok & -> & Hs & Ha & Hno & Hl2 & Hl). cbn [mbind outcome_bind]. set (m3 := set_table _ sp pt).
  assert (forall sp' q, entry m3 sp' q = entry m2 sp' q) as He3.
  { intros sp' q. unfold m3. rewrite entry_set. destruct (decide (sp = sp')) as [<-|]; [|done]. by rewrite Hl. }
  assert (forall sp' q, entry2m m3 sp' q = if decide (sp' = sp /\ q = p) then (if ok then Some (f, flags v) else entry2m m2 sp' q)
    else entry2m m2 sp' q) as He23.
  { intros sp' q. unfold m3. rewrite entry2m_set. destruct (decide (sp = sp')) as [<-|Hne].
    - rewrite Hl2. destruct (Z.eqb_spec q p) as [->|]; [rewrite decide_True by done; by destruct ok|].
      rewrite decide_False by tauto. by destruct ok.
    - rewrite decide_False by (intros [? _]; congruence). done. }
  destruct ok.
  - exists m3, (inl tt). split; [done|]. apply (demanded_from m m2 m3); [done|].
    specialize (Hno eq_refl) as [Hno2 Hno4].
    assert (forall sp' x, ~ (sp' = sp /\ align_down 21 x = p) -> view m3 sp' x = view m2 sp' x) as Hoth.
    { intros sp' x Hx. unfold view, locate. rewrite He3, He23, decide_False by done. done. }
    split; [by apply (mm_ok_huge m2 m3 sp p f (flags v))|]. split_and!.
    + intros sp' x b Hb. rewrite Hoth; [done|]. intros [-> Hx].
      rewrite view_none in Hb; [done| |by rewrite Hx].
      apply (Hno4 (page_of x)). by rewrite align_page.
    + intros sp' x Hne. apply Hoth. by intros [? _].
    + unfold view, locate. rewrite He3.
      assert (entry m2 sp (page_of addr) = None) as -> by (apply (Hno4 (page_of addr)); by rewrite align_page).
      rewrite He23, decide_True by done. cbn [fmap option_fmap option_map fst]. f_equal.
      change (phys m3) with (write_bytes (phys m1) f (replicate n 0)). apply read_byte_zeros.
      rewrite Hn'. apply Z.mod_pos_bound. lia.
  - exists m3, (inr "map_to 2M failed"). split; [done|]. apply (demanded_from m m2 m3); [done|].
    apply demanded_quiet; [done|]. split_and!; try done. intros sp' q. rewrite He23. by case_decide.
Qed.

Lemma map_demand_page_ok m sp addr v w : mm_ok m ->
  exists m' r, map_demand_page m sp addr v w = Ok (m', r) /\ demanded m m' sp addr r.
Proof.
  intros Hm. unfold map_demand_page.
  assert (exists m' r, (if negb w then map_page m sp (page_of addr) (zero_phys m) (Z.lor PRESENT USER_ACCESSIBLE)
                                         "zero-page: map_to failed"
    else r ← alloc_frame m 12;
         match r.2 with
         | None => Ok (r.1, inr "Demand paging: frame allocation failed (OOM)")
         | Some f => map_page (zero_page (set_ref r.1 f 1) f 4096) sp (page_of addr) f (flags v) "Demand paging: map_to failed"
         end) = Ok (m', r) /\ demanded m m' sp addr r) as Hanon.
  { destruct w; cbn [negb]; [|by apply demand_zero_ok].
    destruct (prepare_spec m (replicate 4096 0) Hm) as (m1 & r & -> & Hm1 & Hv1 & _ & Hr); [rewrite length_replicate; lia|].
    cbn [mbind outcome_bind fst snd]. destruct r as [f|].
    - destruct Hr as [Hph Hp]. unfold zero_page. rewrite Hph. by apply demand_private_ok.
    - eexists m1, (inr _). split; [done|]. apply (demanded_from m m1); [done|]. split_and!; done. }
  destruct (kind v); [exact Hanon| |by apply demand_2m_ok|exact Hanon].
  eexists m, (inr _). split; [done|]. split_and!; done.
Qed.

(** *** Fork *)

(** The state while [parent] is copied to [child], from [m0]: the pages in
    [seen] have been looked at. *)
Record forking m0 m (parent child : Z) (seen : Z -> Prop) : Prop := {
  fk_ok : mm_ok m;
  fk_phys : phys m = phys m0;
  fk_zero : zero_phys m = zero_phys m0;
  fk_huge : forall sp q, entry2m m sp q = entry2m m0 sp q;
  fk_other : forall sp q, sp <> parent -> sp <> child -> entry m sp q = entry m0 sp q;
  fk_parent : forall q, fst <$> entry m parent q = fst <$> entry m0 parent q;
  fk_flags : forall q f fl, entry m parent q = Some (f, fl) -> is_writable fl = true ->
    exists fl0, entry m0 parent q = Some (f, fl0) /\ is_writable fl0 = true;
  fk_child : forall q f fl, entry m child q = Some (f, fl) ->
    is_writable fl = false /\ seen q /\ exists fl0, entry m0 parent q = Some (f, fl0);
  fk_seen : forall q, seen q -> entry m0 parent q <> None -> entry m child q <> None;
  fk_ref : forall q f fl, entry m parent q = Some (f, fl) -> f <> zero_phys m -> entry m child q = None ->
    get_ref m f < 255;
}.

(** No frame is mapped twice by the parent, and no page mapped writable lies
    in a read-only area. *)
Definition mapped_once m (sp : Z) : Prop :=
  forall p p' f fl fl', entry m sp p = Some (f, fl) -> entry m sp p' = Some (f, fl') -> f <> zero_phys m -> p = p'.

Definition flags_agree m (sp : Z) (v : Vma) : Prop :=
  forall i f fl, 0 <= i < size_pages v -> entry m sp (start v + i * 4096) = Some (f, fl) ->
    is_writable fl = true -> is_writable (flags v) = true.

Lemma not_writable_shared fl : is_writable (Z.ldiff fl WRITABLE) = false.
Proof. unfold is_writable. rewrite Z.ldiff_spec. cbn. by rewrite andb_false_r. Qed.

Lemma forking_seen m0 m parent child (P Q : Z -> Prop) :
  (forall q, P q <-> Q q) -> forking m0 m parent child P -> forking m0 m parent child Q.
Proof.
  intros HPQ [H1 H2 H3 H4 H5 H6 H7 H8 H9 H10]. split; try done.
  - intros q f fl Hq. rewrite <- HPQ. by apply (H8 q f fl).
  - intros q Hq. apply H9. by apply HPQ.
Qed.

(** Mapping a shared read-only frame and counting it. *)
Lemma mm_ok_shared m m' sp p f fl c :
  mm_ok m -> entry_changed m m' sp p (Some (f, fl)) -> low 12 f -> taken m 12 f ->
  (forall sp' p' g fl', entry2m m sp' p' = Some (g, fl') -> Buddy.apart 21 g 12 f) ->
  is_writable fl = false -> (forall sp' p' fl', entry m sp' p' = Some (f, fl') -> is_writable fl' = false) ->
  (f <> zero_phys m -> get_ref m f + 1 <= c) -> mm_ok (set_ref m' f c).
Proof.
  intros Hm Hc Hlow Htk Hhuge Hfl Hro Hcount.
  destruct (set_ref_rest m f c) as (Me & Me2 & Ma & Mp & Mz & _).
  destruct (set_ref_rest m' f c) as (Se & Se2 & Sa & Sp & Sz & _).
  assert (f <> zero_phys m -> counted m f c) as Hcm.
  { intros Hz. apply (counted_mono m f (get_ref m f)); [specialize (Hcount Hz); lia|by apply Hm]. }
  pose proof (set_ref_ok m f c Hm Hlow Hcm) as Hm1.
  assert (entry_changed (set_ref m f c) (set_ref m' f c) sp p (Some (f, fl))) as Hc1.
  { destruct Hc as [C1 C2 C3 C4 C5 C6 C7]. split; rewrite ?Se, ?Se2, ?Me, ?Me2, ?Sa, ?Ma, ?Sp, ?Mp, ?Sz, ?Mz; try done.
    unfold set_ref. destruct (frame_idx f <? MAX_FRAMES); [cbn; by rewrite C3|done]. }
  apply (mm_ok_change (set_ref m f c) _ sp p f fl Hm1 Hc1 Hlow); unfold taken; rewrite ?Me, ?Me2, ?Ma, ?Mz; try done.
  - by rewrite Hfl.
  - intros sp' p' fl' He Hw. by rewrite (Hro _ _ _ He) in Hw.
  - intros Hz. rewrite get_set_ref, decide_True by done.
    apply (counted_mono _ f (get_ref m f + 1)); [by apply Hcount|].
    apply (counted_more (set_ref m f c) _ sp p f _ _ Hc1). unfold counted. rewrite Me. by apply Hm.
Qed.

(** The parent's page is made read-only if its area is writable. *)
Lemma fork_protect m0 m parent child seen p f fl v :
  forking m0 m parent child seen -> parent <> child -> entry m parent p = Some (f, fl) ->
  (is_writable fl = true -> is_writable (flags v) = true) ->
  exists m1 fl1, (if is_writable (flags v) then update_page_flags m parent p (Z.ldiff (flags v) WRITABLE)
                  else Ok (m, inl ())) = Ok (m1, inl ()) /\
    forking m0 m1 parent child seen /\ entry m1 parent p = Some (f, fl1) /\ is_writable fl1 = false /\
    entry m1 child p = entry m child p /\ get_ref m1 f = get_ref m f.
Proof.
  intros [H1 H2 H3 H4 H5 H6 H7 H8 H9 H10] Hne He Hfl. destruct (is_writable (flags v)) eqn:Hv.
  2: { exists m, fl. split_and!; try done. destruct (is_writable fl); [|done]. by specialize (Hfl eq_refl). }
  set (fl1 := Z.ldiff (flags v) WRITABLE). assert (is_writable fl1 = false) as Hfl1 by apply not_writable_shared.
  pose proof (update_page_flags_spec m parent p fl1 (ok_source _ H1)) as Hu. rewrite He in Hu.
  destruct Hu as (m1 & -> & Hc). exists m1, fl1. destruct (ok_frame _ H1 _ _ _ _ He) as [Hlow Htk].
  assert (forall q, entry m1 child q = entry m child q) as Hch.
  { intros q. apply (changed_ne m m1 parent p _ child q Hc). intros [? _]. by apply Hne. }
  split_and!; [done| |by apply (changed_eq m m1 parent p)|done|done|by apply (changed_ref m m1 parent p _ f Hc)].
  split.
  - apply (mm_ok_change m m1 parent p f fl1 H1 Hc Hlow Htk).
    + intros sp' p' g fl' Hg. by apply (ok_huge _ H1 sp' p' g fl' Hg) with parent p fl.
    + by rewrite Hfl1.
    + intros sp' p' fl' He' Hw. destruct (ok_write _ H1 _ _ _ _ He' Hw) as [_ Hu].
      destruct (Hu _ _ _ He) as [-> ->]. done.
    + intros Hz. destruct (ok_count _ H1 f Hlow Hz) as (l & Hl & Hin). exists l. split; [done|].
      intros sp' q fl'. rewrite (ch_entry _ _ _ _ _ Hc). case_decide as Hd; [|apply Hin].
      destruct Hd as [-> ->]. intros _. by apply (Hin _ _ fl).
  - by rewrite (ch_phys _ _ _ _ _ Hc).
  - by rewrite (ch_zero _ _ _ _ _ Hc).
  - intros sp q. by rewrite (ch_huge _ _ _ _ _ Hc).
  - intros sp q Hp Hq. rewrite (changed_ne m m1 parent p _ sp q Hc); [auto|]. by intros [? _].
  - intros q. rewrite <- H6, (ch_entry _ _ _ _ _ Hc). case_decide as Hd; [|done]. destruct Hd as [_ ->]. by rewrite He.
  - intros q g flg. rewrite (ch_entry _ _ _ _ _ Hc). case_decide; [|apply H7]. intros [= <- <-]. by rewrite Hfl1.
  - intros q g flg. rewrite Hch. apply H8.
  - intros q. rewrite Hch. apply H9.
  - intros q g flg. rewrite Hch, (ch_zero _ _ _ _ _ Hc), (changed_ref m m1 parent p _ g Hc), (ch_entry _ _ _ _ _ Hc).
    case_decide as Hd; [|apply H10]. destruct Hd as [_ ->]. intros [= <- <-]. by apply (H10 p f fl).
Qed.

(** The child gets the frame, read-only, and the frame one more share. *)
Lemma fork_share m0 m parent child seen p f fl fl' :
  forking m0 m parent child seen -> parent <> child -> mapped_once m0 parent ->
  entry m parent p = Some (f, fl) -> is_writable fl = false -> is_writable fl' = false -> entry m child p = None ->
  exists m' r, map_existing_frame m child p f fl' = Ok (m', r) /\
    match r with
    | inl _ => forking m0 (inc_ref m' f) parent child (fun q => seen q \/ q = p)
    | inr _ => forking m0 m' parent child seen
    end.
Proof.
  intros Hfk Hne Honce He Hfl Hfl' Hnone. pose proof Hfk as [H1 H2 H3 H4 H5 H6 H7 H8 H9 H10].
  unfold map_existing_frame.
  destruct (map_page_spec m child p f fl' "map_existing_frame: map_to failed" (ok_source _ H1)) as (m' & r & -> & Hr).
  exists m', r. split; [done|]. destruct r as [u|e].
  2: { destruct Hr as [_ Hq]. pose proof Hq as (Qe & Qh & Qr & Qp & Qz & _).
       split; try (rewrite ?Qp, ?Qz; done); [by apply (quiet_ok m)|intros; by rewrite Qh|intros; rewrite Qe; auto
         |intros; by rewrite Qe|intros q g flg; rewrite Qe; apply H7|intros q g flg; rewrite Qe; apply H8
         |intros q; rewrite Qe; apply H9|].
       intros q g flg. rewrite !Qe, Qz. unfold get_ref. rewrite Qr. apply H10. }
  destruct Hr as [_ Hc]. destruct (ok_frame _ H1 _ _ _ _ He) as [Hlow Htk].
  assert (forall q, entry m' parent q = entry m parent q) as Hpar.
  { intros q. apply (changed_ne m m' child p _ parent q Hc). intros [? _]. by apply Hne. }
  assert (exists fl0, entry m0 parent p = Some (f, fl0)) as [fl0 He0].
  { pose proof (H6 p) as Hp. rewrite He in Hp. destruct (entry m0 parent p) as [[g flg]|]; [|done].
    injection Hp as ->. by exists flg. }
  set (c := Z.min 255 (get_ref m' f + 1)).
  destruct (set_ref_rest m' f c) as (Se & Se2 & Sa & Sp & Sz & _).
  assert (inc_ref m' f = set_ref m' f c) as -> by done.
  assert (forall sp' p' flx, entry m sp' p' = Some (f, flx) -> is_writable flx = false) as Hro.
  { intros sp' p' flx Hx. destruct (is_writable flx) eqn:Hw; [|done].
    destruct (ok_write _ H1 _ _ _ _ Hx Hw) as [_ Hu]. destruct (Hu _ _ _ He) as [-> ->]. congruence. }
  split.
  - apply (mm_ok_shared m m' child p f fl' c H1 Hc Hlow Htk); [|done|done|].
    + intros sp' p' g flg Hg. by apply (ok_huge _ H1 sp' p' g flg Hg) with parent p fl.
    + intros Hz. unfold c. rewrite (changed_ref m m' child p _ f Hc).
      pose proof (H10 p f fl He Hz Hnone). lia.
  - by rewrite Sp, (ch_phys _ _ _ _ _ Hc).
  - by rewrite Sz, (ch_zero _ _ _ _ _ Hc).
  - intros sp q. by rewrite Se2, (ch_huge _ _ _ _ _ Hc).
  - intros sp q Hp Hq. rewrite Se, (changed_ne m m' child p _ sp q Hc); [auto|]. by intros [? _].
  - intros q. by rewrite Se, Hpar.
  - intros q g flg. rewrite Se, Hpar. apply H7.
  - intros q g flg. rewrite Se, (ch_entry _ _ _ _ _ Hc). case_decide as Hd.
    + destruct Hd as [_ ->]. intros [= <- <-]. split_and!; [done|by right|by exists fl0].
    + intros Hg. destruct (H8 q g flg Hg) as (? & ? & ?). split_and!; [done|by left|done].
  - intros q Hq Hmap. rewrite Se, (ch_entry _ _ _ _ _ Hc). case_decide as Hd; [done|].
    destruct Hq as [Hq| ->]; [by apply H9|]. by destruct Hd.
  - intros q g flg. rewrite Se, Sz, Hpar, (ch_zero _ _ _ _ _ Hc), (ch_entry _ _ _ _ _ Hc). case_decide as Hd; [done|].
    intros Hg Hz Hn. destruct (ok_frame _ H1 _ _ _ _ Hg) as [Hlg _].
    rewrite get_set_ref by done. rewrite decide_False.
    + rewrite (changed_ref m m' child p _ g Hc). by apply (H10 q g flg).
    + intros <-. apply Hd. split; [done|]. pose proof (H6 q) as Hq. rewrite Hg in Hq.
      destruct (entry m0 parent q) as [[g0 flg0]|] eqn:Hq0; [|done]. injection Hq as <-.
      apply (Honce q p f flg0 fl0 Hq0 He0). by rewrite <- H3.
Qed.

(** A page the parent does not have, or the child has already, is passed over. *)
Lemma forking_skip m0 m parent child seen p :
  forking m0 m parent child seen -> (entry m parent p = None \/ entry m child p <> None) ->
  forking m0 m parent child (fun q => seen q \/ q = p).
Proof.
  intros [H1 H2 H3 H4 H5 H6 H7 H8 H9 H10] Hp. split; try done.
  - intros q f fl Hq. destruct (H8 q f fl Hq) as (? & ? & ?). auto.
  - intros q [Hq| ->] Hmap; [by apply H9|]. destruct Hp as [Hp|Hp]; [|done].
    specialize (H6 p). rewrite Hp in H6. by destruct (entry m0 parent p).
Qed.

(** Pages [i], ..., [i + n - 1] of an area. *)
Definition pages_of (v : Vma) (i : Z) (n : nat) (q : Z) : Prop :=
  exists j, i <= j < i + Z.of_nat n /\ q = start v + j * 4096.

Lemma pages_of_S v i n q (seen : Z -> Prop) :
  (seen q \/ q = start v + i * 4096) \/ pages_of v (i + 1) n q <-> seen q \/ pages_of v i (S n) q.
Proof.
  unfold pages_of. split.
  - intros [[?|Hq]|(j & Hj & Hq)]; [by left|right; exists i; lia|right; exists j; lia].
  - intros [?|(j & Hj & Hq)]; [by left; left|]. destruct (decide (j = i)) as [->|]; [by left; right|].
    right. exists j. split; [lia|done].
Qed.

(** The copy went through, or stopped with an error at some point. *)
Definition fork_result m0 m' (parent child : Z) (seen : Z -> Prop) (r : unit + string) : Prop :=
  match r with
  | inl _ => forking m0 m' parent child seen
  | inr _ => exists seen', forking m0 m' parent child seen'
  end.

Lemma fork_result_seen m0 m' parent child (P Q : Z -> Prop) r :
  (forall q, P q <-> Q q) -> fork_result m0 m' parent child P r -> fork_result m0 m' parent child Q r.
Proof. intros HPQ. destruct r; [by apply forking_seen|done]. Qed.

Lemma fork_pages_ok m0 parent child v n : parent <> child -> mapped_once m0 parent -> flags_agree m0 parent v ->
  forall m i seen, forking m0 m parent child seen -> 0 <= i -> i + Z.of_nat n = size_pages v ->
  exists m' r, fork_pages n m parent child v i = Ok (m', r) /\
    fork_result m0 m' parent child (fun q => seen q \/ pages_of v i n q) r.
Proof.
  intros Hne Honce Hagree. induction n as [|n IH]; intros m i seen Hfk Hi Hn; cbn [fork_pages].
  { exists m, (inl tt). split; [done|]. apply (forking_seen m0 m parent child seen); [|done].
    intros q. split; [by left|]. intros [?|(j & ? & _)]; [done|lia]. }
  set (p := start v + i * 4096).
  assert (forall m1, forking m0 m1 parent child (fun q => seen q \/ q = p) ->
    exists m' r, fork_pages n m1 parent child v (i + 1) = Ok (m', r) /\
      fork_result m0 m' parent child (fun q => seen q \/ pages_of v i (S n) q) r) as Hrest.
  { intros m1 Hfk1. destruct (IH m1 (i + 1) _ Hfk1 ltac:(lia) ltac:(lia)) as (m' & r & He & Hr).
    exists m', r. split; [done|]. eapply fork_result_seen; [|exact Hr]. intros q. apply pages_of_S. }
  unfold translate_page. destruct (entry m parent p) as [[f fl]|] eqn:Hp; cbn [fmap option_fmap option_map fst].
  2: { apply Hrest, forking_skip; [done|by left]. }
  destruct (entry m child p) as [[g flg]|] eqn:Hch; cbn [fmap option_fmap option_map fst].
  { apply Hrest, forking_skip; [done|right; by rewrite Hch]. }
  destruct (fork_protect m0 m parent child seen p f fl v Hfk Hne Hp) as (m1 & fl1 & -> & Hfk1 & Hp1 & Hro & Hch1 & _).
  { intros Hw. destruct (fk_flags _ _ _ _ _ Hfk p f fl Hp Hw) as (fl0 & He0 & Hw0).
    apply (Hagree i f fl0); [lia|done|done]. }
  cbn [try_]. rewrite Hch in Hch1.
  destruct (fork_share m0 m1 parent child seen p f fl1 (Z.ldiff (flags v) WRITABLE) Hfk1 Hne Honce Hp1 Hro
    (not_writable_shared _) Hch1) as (m2 & r & -> & Hr).
  destruct r as [u|e]; cbn [try_]; [by apply Hrest|]. exists m2, (inr e). split; [done|]. by exists seen.
Qed.

Lemma fork_areas_ok m0 parent child l : parent <> child -> mapped_once m0 parent ->
  (forall v, v ∈ l -> vma_ok v /\ flags_agree m0 parent v) ->
  forall m seen, forking m0 m parent child seen ->
  exists m' r, fork_areas m parent child l = Ok (m', r) /\
    fork_result m0 m' parent child
      (fun q => seen q \/ exists v, v ∈ l /\ pages_of v 0 (Z.to_nat (size_pages v)) q) r.
Proof.
  intros Hne Honce. induction l as [|v l IH]; intros Hl m seen Hfk; cbn [fork_areas].
  { exists m, (inl tt). split; [done|]. apply (forking_seen m0 m parent child seen); [|done].
    intros q. split; [by left|]. intros [?|(v & Hv & _)]; [done|by apply elem_of_nil in Hv]. }
  destruct (Hl v ltac:(apply list_elem_of_here)) as [Hv Hagree].
  destruct (fork_pages_ok m0 parent child v (Z.to_nat (size_pages v)) Hne Honce Hagree m 0 seen Hfk) as (m1 & r & -> & Hr).
  { lia. }
  { rewrite Z2Nat.id by apply Hv. lia. }
  destruct r as [u|e]; cbn [try_]; [|exists m1, (inr e); split; [done|exact Hr]].
  destruct (IH ltac:(intros w Hw; apply Hl; by apply list_elem_of_further) m1 _ Hr) as (m' & r & He & Hr').
  exists m', r. split; [done|]. eapply fork_result_seen; [|exact Hr']. intros q.
  setoid_rewrite elem_of_cons. split.
  - intros [[?|?]|(w & ? & ?)]; [by left|right; exists v; auto|right; exists w; auto].
  - intros [?|(w & [->|?] & ?)]; [by left; left|by left; right|right; by exists w].
Qed.

(** What the processes see while a fork runs. *)
Lemma forking_view m0 m parent child seen sp x : forking m0 m parent child seen -> sp <> child ->
  view m sp x = view m0 sp x.
Proof.
  intros [H1 H2 H3 H4 H5 H6 H7 H8 H9 H10] Hne. unfold view, locate. rewrite H2, H4.
  destruct (decide (sp = parent)) as [->|Hnp]; [|by rewrite H5].
  specialize (H6 (page_of x)).
  destruct (entry m parent (page_of x)) as [[f fl]|], (entry m0 parent (page_of x)) as [[g flg]|]; try done.
  injection H6 as ->. done.
Qed.

(** A page number is one of the pages of an area exactly if its addresses are
    in the area. *)
Lemma pages_of_in v x : vma_ok v -> pages_of v 0 (Z.to_nat (size_pages v)) (page_of x) <-> in_vma v x.
Proof.
  intros [Hs Ha Hn He]. pose proof (mod_page x). pose proof (page_split x) as Hx.
  assert (page_of x mod 4096 = 0) as Hm by (apply (align_down_mod 12); lia).
  pose proof (Z.div_mod (start v) 4096 ltac:(lia)). pose proof (Z.div_mod (page_of x) 4096 ltac:(lia)).
  unfold pages_of, in_vma. rewrite Z2Nat.id by done. split.
  - intros (j & Hj & Hq). lia.
  - intros Hin. exists (page_of x / 4096 - start v / 4096). lia.
Qed.

(** The bytes of [x] in a copy of the areas [l] of an address space. *)
Definition copied_view m (parent : Z) (l : list Vma) (x : Z) : option Z :=
  if decide (Exists (fun v => start v <= x < start v + size_pages v * 4096) l)
  then match entry m parent (page_of x) with Some _ => view m parent x | None => None end
  else None.

Lemma forking_child_view m0 m parent child l x : parent <> child -> (forall v, v ∈ l -> vma_ok v) ->
  entry2m m0 child (align_down 21 x) = None ->
  forking m0 m parent child (fun q => False \/ exists v, v ∈ l /\ pages_of v 0 (Z.to_nat (size_pages v)) q) ->
  view m child x = copied_view m0 parent l x.
Proof.
  intros Hne Hl Hh Hfk. unfold copied_view.
  destruct (entry m child (page_of x)) as [[g fl]|] eqn:Hg.
  - destruct (fk_child _ _ _ _ _ Hfk _ _ _ Hg) as (_ & [[]|(v & Hin & Hpg)] & fl0 & He0).
    rewrite decide_True, He0.
    + by rewrite (view_entry m child x g fl Hg), (fk_phys _ _ _ _ _ Hfk), (view_entry m0 parent x g fl0 He0).
    + apply Exists_exists. exists v. split; [done|]. apply pages_of_in in Hpg; [done|by apply Hl].
  - rewrite (view_none m child x Hg) by (by rewrite (fk_huge _ _ _ _ _ Hfk)).
    case_decide as Hex; [|done]. destruct (entry m0 parent (page_of x)) as [e|] eqn:He; [|done].
    exfalso. apply Exists_exists in Hex as (v & Hin & Hx).
    apply (fk_seen _ _ _ _ _ Hfk (page_of x)); [|by rewrite He|done].
    right. exists v. split; [done|]. apply pages_of_in; [by apply Hl|done].
Qed.

Lemma copied_view_quiet m m' parent l x : quiet m m' -> copied_view m' parent l x = copied_view m parent l x.
Proof. intros Hq. unfold copied_view. rewrite (view_quiet m m' parent x Hq). by rewrite (proj1 Hq). Qed.

(** What a fork asks of the parent. *)
Record forkable m (parent child : Z) : Prop := {
  fa_ne : parent <> child;
  fa_new : spaces m !! child = None;
  fa_vmas : vmas_ok (vmas (space m parent));
  fa_once : mapped_once m parent;
  fa_agree : forall v, v ∈ iter (vmas (space m parent)) -> flags_agree m parent v;
  fa_refs : forall p f fl, entry m parent p = Some (f, fl) -> f <> zero_phys m -> get_ref m f < 255;
}.

Lemma fork_ok m parent child : mm_ok m -> forkable m parent child ->
  exists m' r, fork m parent child = Ok (m', r) /\ mm_ok m' /\
    (forall sp x, sp <> child -> view m' sp x = view m sp x) /\
    (r = inl () -> forall x, view m' child x = copied_view m parent (iter (vmas (space m parent))) x).
Proof.
  intros Hm [Hne Hnew Hv Honce Hagree Href]. unfold fork.
  destruct (alloc_frame_spec m 12 Hm ltac:(by split)) as (m1 & r & -> & Hm1 & Hq & Hsp & Hr).
  cbn [mbind outcome_bind fst snd].
  destruct r as [f|]; [|eexists m1, (inr _); split_and!; [done|done|intros; by apply view_quiet|done]].
  rewrite Hsp. set (m0 := set_space m1 child _).
  assert (forall q, entry m child q = None /\ entry2m m child q = None) as Hchild.
  { intros q. unfold entry, entry2m, space. rewrite Hnew. cbn. apply new_table_law. }
  pose proof Hq as (Qe & Qh & Qr & Qp & Qz & Qs & Qa).
  assert (quiet m m0) as Hq0.
  { split_and!; try done.
    - intros sp q. unfold entry, m0. rewrite space_set. case_decide as Hd; [|apply Qe].
      subst sp. cbn. rewrite (proj1 (new_table_law q)). symmetry. apply Hchild.
    - intros sp q. unfold entry2m, m0. rewrite space_set. case_decide as Hd; [|apply Qh].
      subst sp. cbn. rewrite (proj2 (new_table_law q)). symmetry. apply Hchild. }
  pose proof Hq0 as (Ze & Zh & Zr & Zp & Zz & _). pose proof (quiet_ok m m0 Hm Hq0) as Hm0.
  assert (forking m0 m0 parent child (fun _ => False)) as Hstart.
  { split; try done.
    - intros q g fl Hg Hw. by exists fl.
    - intros q g fl. rewrite Ze. by rewrite (proj1 (Hchild q)).
    - intros q g fl Hg Hz _. rewrite Ze in Hg. rewrite Zz in Hz. unfold get_ref. rewrite Zr. by apply (Href q g fl). }
  destruct (fork_areas_ok m0 parent child (iter (vmas (space m parent))) Hne) with m0 (fun _ : Z => False)
    as (m' & r & -> & Hres); [| |done|].
  { intros p p' g fl fl'. rewrite !Ze, Zz. apply Honce. }
  { intros v Hin. split; [by apply Hv|]. intros i g fl Hi. rewrite Ze. by apply (Hagree v Hin i g fl). }
  assert (exists seen, forking m0 m' parent child seen) as [seen Hfk] by (destruct r; [eexists; exact Hres|exact Hres]).
  exists m', r. split; [done|]. split; [apply Hfk|]. split.
  - intros sp x Hnc. rewrite (forking_view m0 m' parent child seen sp x Hfk Hnc). by apply view_quiet.
  - intros -> x. rewrite <- (copied_view_quiet m m0 _ _ _ Hq0).
    apply (forking_child_view m0 m' parent child); [done|by apply Hv| |exact Hres]. rewrite Zh. apply Hchild.
Qed.

(** *** Faults *)

Lemma vmas_quiet m sp l : mm_ok m -> quiet m (set_vmas m sp l).
Proof.
  intros Hm. split_and!; try done; [intros; apply entry_vmas|intros; apply entry2m_vmas|apply Hm].
Qed.

(** A fault that is handled, whatever comes of it, is invisible to the other
    address spaces, and once resolved takes nothing from the faulting one. *)
Lemma fault_step_ok m cur addr ec m' r : mm_ok m -> page_fault_handler m cur addr ec = Ok (m', r) ->
  mm_ok m' /\ (forall sp x, sp <> cur -> view m' sp x = view m sp x) /\
  (r = Resolved -> view m' cur addr <> None /\ forall x b, view m cur x = Some b -> view m' cur x = Some b).
Proof.
  intros Hm. unfold page_fault_handler. destruct (_ && _).
  - destruct (find_vma m cur addr) as [[v|]|[]|]; cbn [mbind outcome_bind]; [| |done].
    + destruct (handle_cow_fault_ok m cur addr (flags v) Hm) as (m1 & q & -> & Hm1 & Hoth & Hq).
      cbn [mbind outcome_bind].
      assert (forall sp x, sp <> cur -> view m1 sp x = view m sp x) as Hv by (intros; apply Hoth; by intros [? _]).
      destruct q as [u|e]; intros [= <- <-]; split_and!; try done.
      destruct Hq as [[f He] Hsame]. intros _. split.
      * by rewrite (view_entry m1 cur addr f (flags v) He).
      * intros x b Hb. destruct (decide (page_of x = page_of addr)) as [Hx|Hx]; [by rewrite Hsame|].
        rewrite Hoth; [done|]. by intros [_ ?].
    + by intros [= <- <-].
  - destruct (is_demand_pageable ec); [unfold unresolved; case_match; [|done]; by intros [= <- <-]|].
    assert (forall m1 (w : option Vma), find_vma_or_grow m cur addr = Ok (m1, w) -> mm_ok m1 /\
      forall sp x, view m1 sp x = view m sp x) as Hgrow.
    { intros m1 w. unfold find_vma_or_grow. destruct (find_vma m cur addr) as [[v|]|[]|]; cbn [mbind outcome_bind]; [| |done].
      - by intros [= <- <-].
      - destruct (grow_stack _ addr) as [[l g]|[]|]; cbn [mbind outcome_bind]; [|done]. intros [= <- <-].
        pose proof (vmas_quiet m cur l Hm) as Hq. split; [by apply (quiet_ok m)|]. intros. by apply view_quiet. }
    destruct (find_vma_or_grow m cur addr) as [[m1 w]|[]|]; cbn [mbind outcome_bind]; [|done].
    destruct (Hgrow m1 w eq_refl) as [Hm1 Hv1].
    destruct w as [v|]; [|unfold unresolved; case_match; [|done]; intros [= <- <-]; split_and!; auto; done].
    destruct (map_demand_page_ok m1 cur addr v (negb (Z.land ec PF_WRITE =? 0)) Hm1)
      as (m2 & q & -> & Hm2 & Hkeep & Hoth & Hq). cbn [mbind outcome_bind].
    destruct q as [u|e]; [intros [= <- <-]|unfold unresolved; case_match; [|done]; intros [= <- <-]];
      (split; [done|]; split; [intros; rewrite Hoth; auto|]); [|done].
    intros _. split; [by rewrite Hq|]. intros x b Hb. apply Hkeep. by rewrite Hv1.
Qed.

End invariant.
End PagingInv.
