(* ===== verification/Unmap.v ===== *)
(** Unmapping and the return of frames ([unmap_page_and_free] and its 2 MiB
    variant), and the boot of memory management ([init_zero_frame]): what they
    do to the invariant of [PagingInv]. *)

From Stdlib Require Import ZArith Lia.
From stdpp Require Import base numbers gmap strings list.
From S2P Require Import Prelude Bits Buddy Frames Vma Paging PagingInv.

Local Open Scope string_scope.
Local Open Scope list_scope.
Local Open Scope Z_scope.

Module Unmap.
Import Vma Paging PagingInv.

Section unmapping.
Context {PT A : Type} `{Mapper PT A}.
Implicit Types m : @MM PT A.

(** Frames no page uses may be given back. *)
Lemma mm_ok_freed m a o f : mm_ok m -> source_ok a -> low o f ->
  (forall x, available a x -> available (frames m) x \/ in_frame o f x) ->
  Buddy.apart o f 12 (zero_phys m) ->
  (forall sp p g fl, entry m sp p = Some (g, fl) -> Buddy.apart o f 12 g) ->
  (forall sp p g fl, entry2m m sp p = Some (g, fl) -> Buddy.apart o f 21 g) ->
  mm_ok (m <| frames := a |>).
Proof.
  intros [H1 H2 H3 H4 H5 H6 H7 H8] Hs [Hb Hlow] Hx Hz He Hh.
  assert (forall o' g, Buddy.apart o f o' g -> taken m o' g -> taken (m <| frames := a |>) o' g) as Ht.
  { intros o' g Hap Htk x Hin Hav. destruct (Hx x Hav) as [Hav'|Hf]; [by apply (Htk x)|].
    by apply (apart_frame o f o' g x). }
  split; try done.
  - intros x Hav. destruct (Hx x Hav) as [Hav'|Hf]; [by apply H2|]. unfold in_frame in Hf. lia.
  - destruct H3 as (? & ? & ?). split_and!; auto.
  - intros sp p g fl Hg. destruct (H5 sp p g fl Hg). split; [done|]. apply Ht; [by apply (He sp p g fl)|done].
  - intros sp p g fl Hg. destruct (H8 sp p g fl Hg) as (? & ? & ? & ? & ?).
    split_and!; try done. apply Ht; [by apply (Hh sp p g fl)|done].
Qed.

(** Fewer huge mappings do no harm. *)
Lemma mm_ok_fewer m m' : mm_ok m -> (forall sp q, entry m' sp q = entry m sp q) ->
  (forall sp q e, entry2m m' sp q = Some e -> entry2m m sp q = Some e) ->
  refcounts m' = refcounts m -> phys m' = phys m -> zero_phys m' = zero_phys m -> frames m' = frames m -> mm_ok m'.
Proof.
  intros [H1 H2 H3 H4 H5 H6 H7 H8] He He2 Hr Hp Hz Hf.
  split; unfold taken, counted, get_ref in *; rewrite ?Hp, ?Hz, ?Hf; try done.
  - intros sp p f fl. rewrite He. apply H5.
  - intros sp p f fl. rewrite He. intros Hg Hw. destruct (H6 _ _ _ _ Hg Hw) as [? Hu].
    split; [done|]. intros sp' p' fl'. rewrite He. apply Hu.
  - intros f Hl Hnz. rewrite Hr. destruct (H7 f Hl Hnz) as (l & Hl' & Hin). exists l. split; [done|].
    intros sp p fl. rewrite He. apply Hin.
  - intros sp p f fl Hg%He2. destruct (H8 _ _ _ _ Hg) as (? & ? & ? & Hx & Hy).
    split_and!; auto; intros sp' p' g fl'; [rewrite He; apply Hx|]. intros Hg'%He2. by apply (Hy _ _ _ _ Hg').
Qed.

(** *** One page *)

Lemma counted_none m f sp p fl : counted m f 0 -> entry m sp p <> Some (f, fl).
Proof. intros (l & Hl & Hin) He. apply Hin in He. destruct l; [by apply elem_of_nil in He|cbn in Hl; lia]. Qed.

(** A share of a frame is dropped: the frame goes back to the allocator with
    the last one. *)
Lemma release_frame_ok m f : mm_ok m -> ready (frames m) -> low 12 f -> taken m 12 f -> f <> zero_phys m ->
  counted m f (get_ref m f - 1) ->
  (forall sp p g fl, entry2m m sp p = Some (g, fl) -> Buddy.apart 12 f 21 g) ->
  exists m', release_frame m f = Ok m' /\ mm_ok m' /\
    (forall sp q, entry m' sp q = entry m sp q) /\ (forall sp q, entry2m m' sp q = entry2m m sp q) /\
    phys m' = phys m /\
    forall x, available (frames m') x <-> available (frames m) x \/ (get_ref m f = 1 /\ in_frame 12 f x).
Proof.
  intros Hm Hready Hlow Htk Hnz Hcnt Hhuge. pose proof (counted_nonneg _ _ _ Hcnt) as Hge.
  unfold release_frame, dec_ref. rewrite idx_low, Z.max_r by (done || lia).
  destruct (set_ref_rest m f (get_ref m f - 1)) as (He & He2 & Ha & Hp & Hz & _).
  pose proof (set_ref_ok m f (get_ref m f - 1) Hm Hlow ltac:(done)) as Hm1.
  destruct (Z.eqb_spec (get_ref m f - 1) 0) as [Hone|Hn].
  - unfold free_frame. rewrite Ha.
    destruct (free_law (frames m) f 12 (ok_source _ Hm) Hready (proj1 Hlow) Htk) as (a & -> & Hs & Hx).
    cbn [mbind outcome_bind]. eexists. split; [done|]. split; [|split_and!; [intros; by rewrite <- He|intros; by rewrite <- He2|by rewrite <- Hp|]].
    + apply (mm_ok_freed _ a 12 f); [done|done|done| |rewrite Hz; apply frames_apart; [done|apply Hm|done]|rewrite He|by rewrite He2].
      * intros x Hav. rewrite Ha. by apply Hx.
      * intros sp p g fl Hg. apply frames_apart; [done|by apply (ok_frame _ Hm sp p g fl)|]. intros ->.
        rewrite Hone in Hcnt. by apply (counted_none m g sp p fl).
    + intros x. cbn. rewrite Hx. intuition lia.
  - eexists. split; [done|]. split; [done|].
    split_and!; [intros; by rewrite <- He|intros; by rewrite <- He2|by rewrite <- Hp|]. intros x. rewrite Ha. intuition lia.
Qed.

(** The frame the page [p] of [sp] was the last to map. *)
Definition last_share m (sp p x : Z) : Prop :=
  exists f fl, entry m sp p = Some (f, fl) /\ f <> zero_phys m /\ get_ref m f = 1 /\ in_frame 12 f x.

Lemma unmap_page_ok m sp p : mm_ok m -> ready (frames m) ->
  exists m', unmap_page_and_free m sp p = Ok (m', inl ()) /\ mm_ok m' /\
    (forall sp' q, entry m' sp' q = if decide (sp' = sp /\ q = p) then None else entry m sp' q) /\
    (forall sp' q, entry2m m' sp' q = entry2m m sp' q) /\ phys m' = phys m /\
    forall x, available (frames m') x <-> available (frames m) x \/ last_share m sp p x.
Proof.
  intros Hm Hready. unfold unmap_page_and_free, translate_page.
  pose proof (unmap_spec m sp p (ok_source _ Hm)) as Hu.
  destruct (entry m sp p) as [[f fl]|] eqn:He; cbn [fmap option_fmap option_map fst].
  - destruct Hu as (pt & -> & Hc). set (m1 := set_table m sp pt) in *.
    pose proof (mm_ok_unmap m m1 sp p Hm Hc) as Hm1. rewrite (is_zero_frame_spec m1 f Hm1).
    pose proof (ch_entry _ _ _ _ _ Hc) as Hent. pose proof (ch_huge _ _ _ _ _ Hc) as Hent2.
    assert (frames m1 = frames m) as Hfr by done. assert (zero_phys m1 = zero_phys m) as Hz by done.
    case_bool_decide as Hzero.
    + exists m1. split_and!; try done. intros x. split; [by left|]. intros [Hav|(g & fl' & Hg & Hnz & _)]; [done|]. congruence.
    + destruct (ok_frame _ Hm sp p f fl He) as [Hlow Htk].
      destruct (release_frame_ok m1 f Hm1) as (m2 & -> & Hm2 & H1 & H2 & H3 & H4); try done.
      * change (get_ref m1 f) with (get_ref m f). apply (counted_less m m1 sp p f fl _ None); try done. apply Hm; [done|congruence].
      * intros sp' p' g fl'. rewrite Hent2. intros Hg. destruct (ok_huge _ Hm sp' p' g fl' Hg) as (_ & _ & _ & Hx & _).
        specialize (Hx _ _ _ _ He). unfold Buddy.apart in *. lia.
      * cbn [mbind outcome_bind]. exists m2. split_and!; try done.
        -- intros sp' q. by rewrite H1.
        -- intros sp' q. by rewrite H2.
        -- intros x. rewrite H4, Hfr. change (get_ref m1 f) with (get_ref m f). split.
           ++ intros [?|[? ?]]; [by left|]. right. exists f, fl. split_and!; try done; congruence.
           ++ intros [?|(g & fl' & Hg & _ & ? & ?)]; [by left|]. right. assert (g = f) as -> by congruence. done.
  - exists m. split_and!; try done.
    + intros sp' q. case_decide as Hd; [|done]. by destruct Hd as [-> ->].
    + intros x. split; [by left|]. intros [?|(g & fl' & Hg & _)]; [done|]. congruence.
Qed.

Lemma view_unmapped m m' sp p sp' x : 
  (forall sp' q, entry m' sp' q = if decide (sp' = sp /\ q = p) then None else entry m sp' q) ->
  (forall sp' q, entry2m m' sp' q = entry2m m sp' q) -> phys m' = phys m ->
  ~ (sp' = sp /\ page_of x = p) -> view m' sp' x = view m sp' x.
Proof. intros He He2 Hp Hne. unfold view, locate. rewrite He, He2, Hp. by rewrite decide_False. Qed.

(** *** One huge page *)

Lemma unmap_huge_ok m sp p : mm_ok m -> ready (frames m) ->
  exists m', unmap_page_and_free_2m m sp p = Ok (m', inl ()) /\ mm_ok m' /\
    (forall sp' q, entry m' sp' q = entry m sp' q) /\
    (forall sp' q, entry2m m' sp' q = if decide (sp' = sp /\ q = p) then None else entry2m m sp' q) /\
    phys m' = phys m /\
    forall x, available (frames m') x <->
      available (frames m) x \/ exists f fl, entry2m m sp p = Some (f, fl) /\ in_frame 21 f x.
Proof.
  intros Hm Hready. unfold unmap_page_and_free_2m.
  pose proof (unmap_2m_law (page_table (space m sp)) p) as Hu.
  change (leaf2m (page_table (space m sp)) p) with (entry2m m sp p) in Hu.
  destruct (entry2m m sp p) as [[f fl]|] eqn:He.
  - destruct Hu as (pt & -> & Hl2 & Hl). set (m1 := set_table m sp pt).
    assert (forall sp' q, entry2m m1 sp' q = if decide (sp' = sp /\ q = p) then None else entry2m m sp' q) as H2.
    { intros sp' q. unfold m1. rewrite entry2m_set. destruct (decide (sp = sp')) as [<-|Hne].
      - rewrite Hl2. destruct (Z.eqb_spec q p) as [->|]; [by rewrite decide_True|]. rewrite decide_False by tauto. done.
      - rewrite decide_False by (intros [? _]; congruence). done. }
    assert (forall sp' q, entry m1 sp' q = entry m sp' q) as H1.
    { intros sp' q. unfold m1. rewrite entry_set. destruct (decide (sp = sp')) as [<-|Hne]; [apply Hl|done]. }
    assert (mm_ok m1) as Hm1.
    { apply (mm_ok_fewer m m1); try done. intros sp' q e. rewrite H2. by case_decide. }
    destruct (ok_huge _ Hm sp p f fl He) as (Hlow & Htk & Hz & Hx & Hy).
    unfold free_frame. change (frames m1) with (frames m).
    destruct (free_law (frames m) f 21 (ok_source _ Hm) Hready (proj1 Hlow) Htk) as (a & -> & Hs & Hav).
    cbn [mbind outcome_bind]. eexists. split; [done|]. split; [|split_and!; try done].
    + apply (mm_ok_freed m1 a 21 f); try done.
      * intros x. apply Hav.
      * intros sp' q g fl'. rewrite H1. apply Hx.
      * intros sp' q g fl'. rewrite H2. case_decide as Hd; [done|]. intros Hg. by destruct (Hy _ _ _ _ Hg).
    + intros x. cbn. rewrite Hav. split; [intros [?|?]; [by left|]; right; by exists f, fl|].
      intros [?|(g & fl' & Hg & ?)]; [by left|]. right. assert (g = f) as -> by congruence. done.
  - exists m. rewrite Hu. split_and!; try done.
    + intros sp' q. case_decide as Hd; [|done]. by destruct Hd as [-> ->].
    + intros x. split; [by left|]. intros [?|(g & fl' & Hg & _)]; [done|]. congruence.
Qed.

(** ** Boot *)

(** Before the first page is mapped, and with no frame at address 0 free. *)
Record unmapped m : Prop := {
  un_source : source_ok (frames m);
  un_avail : forall x, available (frames m) x -> 4096 <= x < 2 ^ 29;
  un_refs : refcounts m = ∅;
  un_entry : forall sp q, entry m sp q = None /\ entry2m m sp q = None;
}.

Lemma init_zero_frame_ok m : unmapped m ->
  (exists m', init_zero_frame m = Ok m' /\ mm_ok m' /\ spaces m' = spaces m) \/ init_zero_frame m = Panic.
Proof.
  intros [Hs Ha Hrefs He]. unfold init_zero_frame, alloc_frame.
  destruct (alloc_law (frames m) 12 Hs ltac:(by split)) as (a & r & -> & Hs' & Hr).
  cbn [mbind outcome_bind fst snd]. destruct r as [f|]; [left|by right]. destruct Hr as (Hb & Hin & Hx).
  eexists. split; [reflexivity|]. split; [|reflexivity].
  assert (4096 <= f) as Hf by (apply (Ha f), Hin; unfold in_frame; rewrite pow12; lia).
  assert (low 12 f) as Hlow.
  { split; [done|]. rewrite pow12. cut (f + 4095 < 2 ^ 29); [lia|]. apply Ha, Hin. unfold in_frame. rewrite pow12. lia. }
  unfold zero_page. remember (replicate 4096 0) as bs eqn:Hbs. split; cbn.
  - done.
  - intros x Hav. apply Ha. by apply Hx.
  - split; [lia|]. split; [done|]. intros x Hfx Hav. by apply Hx in Hav as [_ []].
  - intros x Hfx. unfold in_frame in Hfx. rewrite pow12 in Hfx. replace x with (f + (x - f)) by lia.
    rewrite Hbs. apply read_byte_zeros. lia.
  - intros sp p g fl Hg. change (entry m sp p = Some (g, fl)) in Hg. by rewrite (proj1 (He sp p)) in Hg.
  - intros sp p g fl Hg. change (entry m sp p = Some (g, fl)) in Hg. by rewrite (proj1 (He sp p)) in Hg.
  - intros g _ _. exists []. split.
    + unfold get_ref. cbn. rewrite Hrefs, lookup_empty. by case_match.
    + intros sp p fl Hg. change (entry m sp p = Some (g, fl)) in Hg. by rewrite (proj1 (He sp p)) in Hg.
  - intros sp p g fl Hg. change (entry2m m sp p = Some (g, fl)) in Hg. by rewrite (proj2 (He sp p)) in Hg.
Qed.

End unmapping.
End Unmap.
