(* ===== verification/PagingProps.v ===== *)
(** Properties of virtual memory: isolation between address spaces, fork,
    page faults, [mmap], and the cases in which the code falls short of them.
    The witnesses run on the buddy allocator, with page tables kept as finite
    maps. *)

From Stdlib Require Import ZArith Lia.
From stdpp Require Import base numbers gmap strings list.
From S2P Require Import Prelude Bits Buddy Frames Vma Paging PagingInv Unmap.

Local Open Scope string_scope.
Local Open Scope list_scope.
Local Open Scope Z_scope.

Module PagingProps.
Import Vma Paging PagingInv Unmap.

Section properties.
Context {PT A : Type} `{Mapper PT A}.
Implicit Types m : @MM PT A.

(** ** Processes other than [p] at work *)

Inductive others (p : Z) : @MM PT A -> @MM PT A -> Prop :=
| others_store m who x v m' : who <> p -> store m who x v = Some m' -> others p m m'
| others_fault m who addr ec m' r : who <> p -> page_fault_handler m who addr ec = Ok (m', r) -> others p m m'
| others_mmap m who addr len prot m' r : who <> p -> sys_mmap_anon m who addr len prot = Ok (m', r) -> others p m m'
| others_fork m who child m' r : child <> p -> forkable m who child -> fork m who child = Ok (m', r) -> others p m m'
| others_unmap m who page m' r : who <> p -> ready (frames m) -> unmap_page_and_free m who page = Ok (m', r) -> others p m m'
| others_unmap_2m m who page m' r : who <> p -> ready (frames m) -> unmap_page_and_free_2m m who page = Ok (m', r) -> others p m m'
| others_areas m who l : others p m (set_vmas m who l).

Lemma space_quiet m sp s : mm_ok m -> page_table s = page_table (space m sp) -> quiet m (set_space m sp s).
Proof.
  intros Hm Hs. split_and!; try done; try apply Hm.
  - intros sp' q. unfold entry. rewrite space_set. case_decide as Hd; [|done]. by rewrite <- Hd, Hs.
  - intros sp' q. unfold entry2m. rewrite space_set. case_decide as Hd; [|done]. by rewrite <- Hd, Hs.
Qed.

Lemma quiet_trans m1 m2 m3 : quiet m1 m2 -> quiet m2 m3 -> quiet m1 m3.
Proof.
  intros (A1 & A2 & A3 & A4 & A5 & A6 & A7) (B1 & B2 & B3 & B4 & B5 & B6 & B7).
  unfold quiet. split_and!; [intros; by rewrite B1|intros; by rewrite B2|congruence..|done|auto].
Qed.

Lemma ok_fst {B C} (b b' : B) (c c' : C) : @Ok Empty_set _ (b, c) = Ok (b', c') -> b = b'.
Proof. congruence. Qed.

(** [mmap] touches areas and the bump pointer only. *)
Lemma mmap_quiet m sp addr len prot m' r : mm_ok m -> sys_mmap_anon m sp addr len prot = Ok (m', r) -> quiet m m'.
Proof.
  intros Hm. assert (quiet m m) as Hrefl by (split_and!; try done; apply Hm).
  assert (forall m1 l, quiet m m1 -> quiet m (set_vmas m1 sp l)) as Hset.
  { intros m1 l Hq. apply (quiet_trans m m1); [done|]. apply vmas_quiet. by apply (quiet_ok m). }
  unfold sys_mmap_anon, checked.
  repeat (case_match; cbn [mbind outcome_bind]; try done);
    try (destruct (overlaps _ _ _) as [[]| |]; cbn [mbind outcome_bind]; try done); intros <-%ok_fst; try apply Hset; try done;
    by apply space_quiet.
Qed.

Lemma others_ok p m m' : mm_ok m -> others p m m' -> mm_ok m' /\ forall x, view m' p x = view m p x.
Proof.
  intros Hm Ho. revert Hm. destruct Ho as [m1 who x v m2 Hne Hs|m1 who addr ec m2 r Hne Hf|m1 who addr len prot m2 r Hne Hmm|m1 who child m2 r Hne Hfa Hf|
    m1 who page m2 r Hne Hrd Hu|m1 who page m2 r Hne Hrd Hu|m1 who l]; intros Hm.
  - destruct (store_ok m1 who x v m2 Hm Hs) as (Hm2 & _ & Hv). split; [done|]. intros y. apply Hv. congruence.
  - destruct (fault_step_ok m1 who addr ec m2 r Hm Hf) as (Hm2 & Hv & _). split; [done|]. intros y. by apply Hv.
  - pose proof (mmap_quiet m1 who addr len prot m2 r Hm Hmm) as Hq. split; [by apply (quiet_ok m1)|]. intros; by apply view_quiet.
  - destruct (fork_ok m1 who child Hm Hfa) as (m3 & r3 & He & Hm3 & Hv & _). rewrite Hf in He. injection He as <- <-.
    split; [done|]. intros y. by apply Hv.
  - destruct (unmap_page_ok m1 who page Hm Hrd) as (m3 & He & Hm3 & H1 & H2 & H3 & _). rewrite Hu in He. apply ok_fst in He as <-.
    split; [done|]. intros y. apply (view_unmapped m1 m2 who page); try done. by intros [? _].
  - destruct (unmap_huge_ok m1 who page Hm Hrd) as (m3 & He & Hm3 & H1 & H2 & H3 & _). rewrite Hu in He. apply ok_fst in He as <-.
    split; [done|]. intros y. unfold view, locate. rewrite H1, H2, H3. rewrite decide_False; [done|]. by intros [? _].
  - pose proof (vmas_quiet m1 who l Hm) as Hq. split; [by apply (quiet_ok m1)|]. intros; by apply view_quiet.
Qed.

(** A fault raised in user mode is handled. *)
Lemma user_fault_total m cur addr ec : mm_ok m -> vmas_ok (vmas (space m cur)) -> 0 <= addr < 2 ^ 64 -> Z.land ec PF_USER <> 0 ->
  exists m' r, page_fault_handler m cur addr ec = Ok (m', r).
Proof.
  intros Hm Hv Haddr Hu. unfold page_fault_handler, unresolved. rewrite (proj2 (Z.eqb_neq _ _) Hu). cbn [negb].
    destruct (@find_spec Empty_set (vmas (space m cur)) addr (l_areas _ Hv)) as (w & Hw & _).
    unfold find_vma_or_grow, find_vma. rewrite Hw. cbn [mbind outcome_bind].
    destruct (_ && _).
    - destruct w as [v|]; [|by eexists _, _].
      destruct (handle_cow_fault_ok m cur addr (flags v) Hm) as (m1 & q & -> & _). cbn [mbind outcome_bind].
      destruct q; by eexists _, _.
    - destruct (is_demand_pageable ec); [by eexists _, _|].
      assert (exists m1 w1, mm_ok m1 /\ match w with
        | Some v => Ok (m, Some v)
        | None => g ← grow_stack (vmas (space m cur)) addr; Ok (set_vmas m cur g.1, g.2)
        end = @Ok Empty_set _ (m1, w1)) as (m1 & w1 & Hm1 & ->).
      { destruct w as [v|]; [by exists m, (Some v)|].
        destruct (grow_stack_total _ addr Hv Haddr) as (l & g & ->). cbn [mbind outcome_bind fst snd].
        eexists _, _. split; [|done]. apply (quiet_ok m); [done|]. by apply vmas_quiet. }
      cbn [mbind outcome_bind]. destruct w1 as [v|]; [|by eexists _, _].
      destruct (map_demand_page_ok m1 cur addr v (negb (Z.land ec PF_WRITE =? 0)) Hm1) as (m2 & q & -> & _).
      cbn [mbind outcome_bind]. destruct q; by eexists _, _.
Qed.

(** ** Properties *)



(** C11: a store lands where it should.  Once a write fault in a writable area
    has been resolved through the copy-on-write path, the store succeeds, the
    process sees its new byte, and no other byte of any process changes. *)
Theorem cow_store m sp addr fl v m' :
  mm_ok m -> is_writable fl = true -> handle_cow_fault m sp addr fl = Ok (m', inl ()) ->
  exists m2, store m' sp addr v = Some m2 /\ mm_ok m2 /\ view m2 sp addr = Some v /\
    forall sp' x, (sp', x) <> (sp, addr) -> view m2 sp' x = view m sp' x.
Proof.
  intros Hm Hw He. destruct (handle_cow_fault_ok m sp addr fl Hm) as (m1 & r & He' & Hm1 & Hoth & Hr).
  rewrite He in He'. injection He' as <- <-. destruct Hr as [[f Hf] Hsame].
  assert (exists m2, store m' sp addr v = Some m2) as [m2 Hs].
  { unfold store, locate. rewrite Hf, Hw. by eexists. }
  destruct (store_ok m' sp addr v m2 Hm1 Hs) as (Hm2 & Hx & Hrest). exists m2. split_and!; [done|done|done|].
  intros sp' x Hne. rewrite Hrest by done. destruct (decide (sp' = sp)) as [->|Hn]; [|apply Hoth; by intros [? _]].
  destruct (decide (page_of x = page_of addr)); [by apply Hsame|]. apply Hoth. by intros [_ ?].
Qed.


(** C12: unmapping a page.  It always succeeds; the page is gone, nothing else
    that any process sees changes, and the frame goes back to the allocator
    exactly when this was its last share (the zero frame never does). *)
Theorem unmap_page_spec m sp p : mm_ok m -> ready (frames m) ->
  exists m', unmap_page_and_free m sp p = Ok (m', inl ()) /\ mm_ok m' /\
    entry m' sp p = None /\ (forall sp' x, ~ (sp' = sp /\ page_of x = p) -> view m' sp' x = view m sp' x) /\
    forall x, available (frames m') x <-> available (frames m) x \/ last_share m sp p x.
Proof.
  intros Hm Hready. destruct (unmap_page_ok m sp p Hm Hready) as (m' & He & Hm' & H1 & H2 & H3 & H4).
  exists m'. split_and!; try done; [by rewrite H1, decide_True|]. intros sp' x. by apply view_unmapped.
Qed.

(** ** Where the code falls short *)

(** A write to a page of a read-only area is reported as resolved, yet the
    page is still read-only: the store faults again, for ever. *)
Theorem readonly_write_unresolved m cur addr ec v m' :
  mm_ok m -> Z.land ec 11 = 3 -> find_vma m cur addr = Ok (Some v) -> is_writable (flags v) = false ->
  page_fault_handler m cur addr ec = Ok (m', Resolved) -> forall b, store m' cur addr b = None.
Proof.
  intros Hm Hec Hv Hw. unfold page_fault_handler.
  assert (Z.land ec (Z.lor PF_PRESENT PF_WRITE) = 3) as ->.
  { change 3 with (Z.land 11 3) at 1. change (Z.lor PF_PRESENT PF_WRITE) with (Z.land 11 3). by rewrite Z.land_assoc, Hec. }
  assert (Z.land ec PF_RESERVED = 0) as ->.
  { change PF_RESERVED with (Z.land 11 8). by rewrite Z.land_assoc, Hec. }
  rewrite Hv. cbn [mbind outcome_bind]. cbn.
  destruct (handle_cow_fault_ok m cur addr (flags v) Hm) as (m1 & q & -> & _ & _ & Hq). cbn [mbind outcome_bind].
  destruct q as [u|e]; [|done]. intros <-%ok_fst b. destruct Hq as [[f Hf] _].
  unfold store, locate. by rewrite Hf, Hw.
Qed.

(** [ensure_user_pages_mapped] maps into the active tables: for a process
    that is not the active one it changes nothing the process sees. *)
Theorem ensure_maps_active_only m cr3 proc addr len m' :
  mm_ok m -> cr3 <> proc -> ensure_user_pages_mapped m cr3 proc addr len = Ok m' ->
  forall x, view m' proc x = view m proc x.
Proof.
  unfold ensure_user_pages_mapped. generalize (Z.to_nat ((page_of (Z.min (2 ^ 64 - 1) (addr + Z.max 0 (len - 1))) - page_of addr) / 4096 + 1)).
  generalize (page_of (Z.min (2 ^ 64 - 1) (addr + Z.max 0 (len - 1)))) as last.
  generalize (page_of addr) as pg. intros pg last n. revert m pg.
  induction n as [|n IH]; intros m pg Hm Hne; cbn [ensure_loop]; [by intros [= <-]|].
  destruct (last <? pg); [by intros [= <-]|].
  destruct (translate_page m proc pg); cbn [mbind outcome_bind].
  - unfold checked. case_match; [|done]. cbn [mbind outcome_bind]. by apply IH.
  - destruct (find_vma m proc pg) as [[v|]|[]|]; cbn [mbind outcome_bind]; [| |done].
    + destruct (map_demand_page_ok m cr3 pg v true Hm) as (m1 & q & -> & Hm1 & _ & Hoth & _).
      cbn [mbind outcome_bind fst]. unfold checked. case_match; [|done]. cbn [mbind outcome_bind].
      intros He x. rewrite (IH m1 _ Hm1 Hne He x). by apply Hoth.
    + unfold checked. case_match; [|done]. cbn [mbind outcome_bind]. by apply IH.
Qed.

End properties.
End PagingProps.
