(* ===== verification/PagingDemo.v ===== *)
(** Concrete runs of the memory-management model: page tables as finite maps
    over the buddy allocator, the witnesses of the properties of [PagingProps],
    and a run that breaks isolation through overlapping areas. *)

From Stdlib Require Import ZArith Lia.
From stdpp Require Import base numbers gmap strings list.
From S2P Require Import Prelude Bits Buddy Frames Vma Paging PagingInv Unmap PagingProps.

Local Open Scope string_scope.
Local Open Scope list_scope.
Local Open Scope Z_scope.

Module PagingDemo.
Import Vma Paging PagingInv Unmap PagingProps.

(** ** Page tables as finite maps *)

Record Tables := mkTables { t4 : gmap Z (Z * Z); t2 : gmap Z (Z * Z) }.

(** Whether the huge page at [p] has a small page mapped. *)
Definition crowded (t : gmap Z (Z * Z)) (p : Z) : bool :=
  existsb (fun kv => align_down 21 kv.1 =? p) (map_to_list t).

Lemma crowded_spec t p q e : crowded t p = false -> align_down 21 q = p -> t !! q = Some e -> False.
Proof.
  intros Hc Hq He. apply elem_of_map_to_list, list_elem_of_In in He.
  assert (crowded t p = true); [|congruence]. apply existsb_exists. exists (q, e). split; [done|]. by apply Z.eqb_eq.
Qed.

Definition tables_map (pt : Tables) (a : Buddy.BuddyAllocator) (p f fl : Z) : may_panic (Tables * Buddy.BuddyAllocator * bool) :=
  match t4 pt !! p, t2 pt !! align_down 21 p with
  | None, None => Ok (mkTables (<[p := (f, fl)]> (t4 pt)) (t2 pt), a, true)
  | _, _ => Ok (pt, a, false)
  end.
Definition tables_map_2m (pt : Tables) (a : Buddy.BuddyAllocator) (p f fl : Z) : may_panic (Tables * Buddy.BuddyAllocator * bool) :=
  match t2 pt !! p, crowded (t4 pt) p with
  | None, false => Ok (mkTables (t4 pt) (<[p := (f, fl)]> (t2 pt)), a, true)
  | _, _ => Ok (pt, a, false)
  end.
Definition tables_unmap (pt : Tables) (p : Z) : option Tables :=
  match t4 pt !! p with Some _ => Some (mkTables (delete p (t4 pt)) (t2 pt)) | None => None end.
Definition tables_unmap_2m (pt : Tables) (p : Z) : option (Tables * Z) :=
  match t2 pt !! p with Some (f, _) => Some (mkTables (t4 pt) (delete p (t2 pt)), f) | None => None end.
Definition tables_flags (pt : Tables) (p fl : Z) : option Tables :=
  match t4 pt !! p with Some (f, _) => Some (mkTables (<[p := (f, fl)]> (t4 pt)) (t2 pt)) | None => None end.

#[global, program] Instance tables_mapper : Mapper Tables Buddy.BuddyAllocator := {|
  leaf := fun pt p => t4 pt !! p;
  leaf2m := fun pt p => t2 pt !! p;
  new_table := mkTables ∅ ∅;
  map_to := tables_map;
  map_to_2m := tables_map_2m;
  unmap := tables_unmap;
  unmap_2m := tables_unmap_2m;
  update_flags := tables_flags;
|}.
Next Obligation. intros p. cbn. by rewrite !lookup_empty. Qed.
Next Obligation.
  intros pt a p f fl Hs. unfold tables_map. destruct (t4 pt !! p) eqn:H4; [by exists pt, a, false|].
  destruct (t2 pt !! align_down 21 p) eqn:H2; [by exists pt, a, false|].
  eexists _, a, true. split; [done|]. split_and!; try done. intros q. cbn.
  destruct (Z.eqb_spec q p) as [->|]; [by rewrite lookup_insert_eq|by rewrite lookup_insert_ne].
Qed.
Next Obligation.
  intros pt a p f fl Hs. unfold tables_map_2m. destruct (t2 pt !! p) eqn:H2; [by exists pt, a, false|].
  destruct (crowded (t4 pt) p) eqn:Hc; [by exists pt, a, false|].
  eexists _, a, true. split; [done|]. split_and!; try done.
  - intros _. split; [done|]. intros q Hq. destruct (t4 pt !! q) eqn:He; [|done]. by destruct (crowded_spec _ _ _ _ Hc Hq He).
  - intros q. cbn. destruct (Z.eqb_spec q p) as [->|]; [by rewrite lookup_insert_eq|by rewrite lookup_insert_ne].
Qed.
Next Obligation.
  intros pt p. unfold tables_unmap. destruct (t4 pt !! p) eqn:H4; [|done]. eexists. split; [done|]. split; [|done]. intros q. cbn.
  destruct (Z.eqb_spec q p) as [->|]; [by rewrite lookup_delete_eq|by rewrite lookup_delete_ne].
Qed.
Next Obligation.
  intros pt p. unfold tables_unmap_2m. destruct (t2 pt !! p) as [[f fl]|] eqn:H2; [|done]. eexists. split; [done|]. split; [|done]. intros q. cbn.
  destruct (Z.eqb_spec q p) as [->|]; [by rewrite lookup_delete_eq|by rewrite lookup_delete_ne].
Qed.
Next Obligation.
  intros pt p fl. unfold tables_flags. destruct (t4 pt !! p) as [[f fl0]|] eqn:H4; [|done]. eexists. split; [done|]. split; [|done]. intros q. cbn.
  destruct (Z.eqb_spec q p) as [->|]; [by rewrite lookup_insert_eq|by rewrite lookup_insert_ne].
Qed.

(** ** A machine *)

Abbreviation Machine := (@MM Tables Buddy.BuddyAllocator).

(** Run an operation that succeeds. *)
Definition after {R} (o : may_panic (Machine * R)) (m : Machine) : Machine :=
  match o with Ok (m', _) => m' | _ => m end.
Definition result {R} (o : may_panic (Machine * R)) : option R :=
  match o with Ok (_, r) => Some r | _ => None end.

Lemma after_ok {R} (o : may_panic (Machine * R)) m r : result o = Some r -> o = Ok (after o m, r).
Proof. destruct o as [[m' r']|[]|]; cbn; congruence. Qed.

Lemma default_some {B} (o : option B) d : (match o with Some _ => true | None => false end) = true -> o = Some (default d o).
Proof. by destruct o. Qed.

Lemma ok_value {B} (o : may_panic B) d : match o with Ok _ => true | _ => false end = true ->
  o = Ok (match o with Ok b => b | _ => d end).
Proof. by destruct o as [|[]|]. Qed.

Lemma ok_snd {B C} (b b' : B) (c c' : C) : @Ok Empty_set _ (b, c) = Ok (b', c') -> c = c'.
Proof. congruence. Qed.

(** A writable and a read-only area, in two address spaces; 64 KiB of memory. *)
Definition PAGE : Z := 4194304.
Definition ROPAGE : Z := 8388608.
Definition areas : list (option Vma) :=
  Some (mkVma PAGE 4 7 Anonymous) :: Some (mkVma ROPAGE 1 5 Anonymous) :: replicate 62 None.
Definition demo_space : AddressSpace := mkSpace (mkTables ∅ ∅) areas USER_MMAP_BASE.
Definition off_machine : Machine := mkMM Buddy.demo ∅ ∅ 0 {[ 1 := demo_space; 2 := demo_space ]}.

Definition booted : Machine := match init_zero_frame off_machine with Ok m => m | _ => off_machine end.

(** Process 1 touches its page, writes to it, and forks. *)
Definition touched : Machine := after (page_fault_handler booted 1 (PAGE + 16) 6) booted.
Definition written : Machine := default touched (store touched 1 (PAGE + 16) 42).
Definition forked : Machine := after (fork written 1 3) written.

Lemma areas_ok : vmas_ok areas.
Proof.
  split; [done|]. intros v Hv. cbn in Hv. apply elem_of_cons in Hv as [->|Hv]; [split; cbn; by vm_compute|].
  apply elem_of_cons in Hv as [->|Hv]; [split; cbn; by vm_compute|]. by apply elem_of_nil in Hv.
Qed.

Lemma off_unmapped : unmapped off_machine.
Proof.
  destruct Buddy.demo_rep as (L & Hr & Hx). split.
  - by exists L.
  - intros x Hav. apply (buddy_available_rep _ L) in Hav; [|done]. apply Hx in Hav. lia.
  - done.
  - intros sp q. unfold entry, entry2m, space. cbn [spaces off_machine].
    destruct (({[1 := demo_space; 2 := demo_space]} : gmap Z _) !! sp) as [s|] eqn:Hs; [|done].
    assert (s = demo_space) as ->; [|done].
    apply lookup_insert_Some in Hs as [[_ <-]|[_ Hs]]; [done|]. by apply lookup_singleton_Some in Hs as [_ <-].
Qed.

Lemma booted_eq : init_zero_frame off_machine = Ok booted.
Proof. apply ok_value. vm_compute. reflexivity. Qed.

Lemma booted_ok : mm_ok booted.
Proof.
  destruct (init_zero_frame_ok off_machine off_unmapped) as [(m' & He & Hm & _)|He]; rewrite booted_eq in He; [|discriminate He].
  congruence.
Qed.

Lemma touched_eq : page_fault_handler booted 1 (PAGE + 16) 6 = Ok (touched, Resolved).
Proof. apply after_ok. vm_compute. reflexivity. Qed.

Lemma touched_ok : mm_ok touched.
Proof. by apply (fault_step_ok booted 1 (PAGE + 16) 6 touched Resolved booted_ok touched_eq). Qed.

Lemma written_eq : store touched 1 (PAGE + 16) 42 = Some written.
Proof. apply default_some. vm_compute. reflexivity. Qed.

Lemma written_ok : mm_ok written.
Proof. by apply (store_ok touched 1 (PAGE + 16) 42 written touched_ok written_eq). Qed.

Lemma written_space : space written 1 = mkSpace (mkTables {[ PAGE := (1052672, 7) ]} ∅) areas USER_MMAP_BASE.
Proof. vm_compute. reflexivity. Qed.

Lemma written_entry p f fl : entry written 1 p = Some (f, fl) -> p = PAGE /\ f = 1052672 /\ fl = 7.
Proof. unfold entry. rewrite written_space. cbn [page_table leaf tables_mapper t4]. intros [? [= <- <-]]%lookup_singleton_Some. done. Qed.

Lemma written_forkable : forkable written 1 3.
Proof.
  split.
  - done.
  - vm_compute. reflexivity.
  - rewrite written_space. exact areas_ok.
  - intros p p' f fl fl' [-> _]%written_entry [-> _]%written_entry. done.
  - intros v Hv i f fl Hi He%written_entry Hw. rewrite written_space in Hv. cbn in Hv.
    apply elem_of_cons in Hv as [->|Hv]; [done|]. apply elem_of_cons in Hv as [->|Hv]; [|by apply elem_of_nil in Hv].
    cbn in Hi, He. unfold PAGE, ROPAGE in He. lia.
  - intros p f fl (-> & -> & _)%written_entry _. vm_compute. reflexivity.
Qed.

Lemma forked_eq : fork written 1 3 = Ok (forked, inl ()).
Proof. apply after_ok. vm_compute. reflexivity. Qed.

Lemma forked_ok : mm_ok forked.
Proof.
  destruct (fork_ok written 1 3 written_ok written_forkable) as (m' & r & He & Hm & _).
  rewrite forked_eq in He. apply ok_fst in He as ->. done.
Qed.

(** ** Witnesses *)

(** After the fork the parent writes again: it gets its own copy. *)
Definition unshared : Machine := after (page_fault_handler forked 1 (PAGE + 16) 7) forked.
Definition rewritten : Machine := default unshared (store unshared 1 (PAGE + 16) 99).

Lemma unshared_eq : page_fault_handler forked 1 (PAGE + 16) 7 = Ok (unshared, Resolved).
Proof. apply after_ok. vm_compute. reflexivity. Qed.

Lemma rewritten_eq : store unshared 1 (PAGE + 16) 99 = Some rewritten.
Proof. apply default_some. vm_compute. reflexivity. Qed.

Lemma parent_works : rtc (others 3) forked rewritten.
Proof.
  eapply rtc_l; [apply (others_fault 3 forked 1 (PAGE + 16) 7 unshared Resolved); [discriminate|exact unshared_eq]|].
  eapply rtc_l; [apply (others_store 3 unshared 1 (PAGE + 16) 99 rewritten); [discriminate|exact rewritten_eq]|].
  apply rtc_refl.
Qed.



Definition cowed : Machine := after (handle_cow_fault forked 1 (PAGE + 16) 7) forked.

Lemma cowed_eq : handle_cow_fault forked 1 (PAGE + 16) 7 = Ok (cowed, inl ()).
Proof. apply after_ok. vm_compute. reflexivity. Qed.

Lemma cow_store_witness : exists m2, store cowed 1 (PAGE + 16) 7 = Some m2 /\ view m2 3 (PAGE + 16) = Some 42.
Proof.
  destruct (cow_store forked 1 (PAGE + 16) 7 7 cowed forked_ok eq_refl cowed_eq) as (m2 & Hs & _ & _ & Hv).
  exists m2. split; [exact Hs|]. rewrite Hv by discriminate. vm_compute. reflexivity.
Defined.


Lemma scannable_frames : ready (frames forked).
Proof. apply (walkable_scannable 100); [unfold Buddy.SCAN_LIMIT; lia|]. vm_compute. reflexivity. Qed.

Lemma unmap_page_spec_witness : exists m', unmap_page_and_free forked 1 PAGE = Ok (m', inl ()) /\
  entry m' 1 PAGE = None /\ view m' 3 (PAGE + 16) = Some 42.
Proof.
  destruct (unmap_page_spec forked 1 PAGE forked_ok scannable_frames) as (m' & He & _ & Hn & Hv & _).
  exists m'. split; [exact He|]. split; [exact Hn|]. rewrite Hv by (intros [H _]; discriminate H). vm_compute. reflexivity.
Defined.

(** Process 1 reads a page of its read-only area, then tries to write to it. *)
Definition read_ro : Machine := after (page_fault_handler booted 1 ROPAGE 4) booted.
Definition wrote_ro : Machine := after (page_fault_handler read_ro 1 ROPAGE 7) read_ro.

Lemma read_ro_eq : page_fault_handler booted 1 ROPAGE 4 = Ok (read_ro, Resolved).
Proof. apply after_ok. vm_compute. reflexivity. Qed.

Lemma wrote_ro_eq : page_fault_handler read_ro 1 ROPAGE 7 = Ok (wrote_ro, Resolved).
Proof. apply after_ok. vm_compute. reflexivity. Qed.

Lemma readonly_write_unresolved_witness : page_fault_handler read_ro 1 ROPAGE 7 = Ok (wrote_ro, Resolved) /\ store wrote_ro 1 ROPAGE 1 = None.
Proof.
  split; [exact wrote_ro_eq|].
  apply (readonly_write_unresolved read_ro 1 ROPAGE 7 (mkVma ROPAGE 1 5 Anonymous) wrote_ro).
  - by apply (fault_step_ok booted 1 ROPAGE 4 read_ro Resolved booted_ok read_ro_eq).
  - reflexivity.
  - vm_compute. reflexivity.
  - reflexivity.
  - exact wrote_ro_eq.
Defined.

(** The kernel, running on the tables of process 2, prepares a buffer of process 1. *)
Definition ensured : Machine :=
  match ensure_user_pages_mapped booted 2 1 PAGE 8 with Ok m => m | _ => booted end.

Lemma ensured_eq : ensure_user_pages_mapped booted 2 1 PAGE 8 = Ok ensured.
Proof. apply ok_value. vm_compute. reflexivity. Qed.

Lemma ensure_maps_active_only_witness : view ensured 1 PAGE = None /\ view ensured 2 PAGE = Some 0.
Proof.
  split; [|vm_compute; reflexivity].
  rewrite (ensure_maps_active_only booted 2 1 PAGE 8 ensured booted_ok) by (discriminate || exact ensured_eq).
  vm_compute. reflexivity.
Defined.

(** ** Overlapping areas *)

(** Process 1 maps a page [FIXED] above the bump pointer, writes to it,
    frees the slot of an earlier area, and lets the bump allocator hand out
    the same page read-only; then it forks and writes. *)
Definition FIXED : Z := USER_MMAP_BASE + 8192.
Definition overlap : Machine :=
  let m1 := after (sys_mmap_anon booted 1 0 4096 3) booted in
  let m2 := after (sys_mmap_anon m1 1 FIXED 4096 3) m1 in
  let m3 := after (page_fault_handler m2 1 FIXED 6) m2 in
  let m4 := after (sys_munmap m3 1 USER_MMAP_BASE 4096) m3 in
  let m5 := after (sys_mmap_anon m4 1 0 4096 1) m4 in
  after (fork m5 1 3) m5.

(** Overlapping areas break isolation: [mmap] without an address does not look
    at the areas that exist, and [fork] leaves the page of the parent writable
    when it meets the read-only area first, so the child sees what the parent
    writes after the fork. *)
Theorem overlap_breaks_isolation : exists m,
  store overlap 1 FIXED 9 = Some m /\ view overlap 3 FIXED = Some 0 /\ view m 3 FIXED = Some 9.
Proof.
  exists (default overlap (store overlap 1 FIXED 9)). split; [|split; vm_compute; reflexivity].
  apply default_some. vm_compute. reflexivity.
Qed.

End PagingDemo.
