(* ===== verification/HrTimer.v ===== *)
(** High-resolution timer queue: [kernel/src/time/hrtimer.rs].

    The queue behind the global [QUEUE] mutex is a record; [start], [cancel]
    and [tick] are state-passing functions over it.  A [KernelFn] callback is
    an opaque function identifier, and [tick] returns the calls it made in
    order.  [pids_out], the fixed array the interrupt handler passes in, is a
    list that [tick] overwrites in place. *)

From stdpp Require Import base list numbers sorting.
From S2P Require Import Prelude.

Local Open Scope Z_scope.

Module HrTimer.

(** ** Model *)

Inductive HrTimerAction :=
| WakePid (pid : Z)
| KernelFn (f : nat).

Record HrTimer := mkHrTimer {
  id : Z;
  expiry_ns : Z;
  action : HrTimerAction;
}.

Record HrTimerQueue := mkQueue {
  timers : list HrTimer;
  next_id : Z;
}.

Definition new : HrTimerQueue := mkQueue [] 1.

(** [start]: the id is the counter, which wraps at 2^32 and skips 0. *)
Definition start (q : HrTimerQueue) (expiry : Z) (act : HrTimerAction)
    : HrTimerQueue * Z :=
  let i := next_id q in
  let n := Z.max (wrap 32 (next_id q + 1)) 1 in
  let pos := partition_point (fun t => expiry_ns t <=? expiry) (timers q) in
  (mkQueue (vec_insert pos (mkHrTimer i expiry act) (timers q)) n, i).

Definition cancel (q : HrTimerQueue) (i : Z) : HrTimerQueue * bool :=
  match position (fun t => id t =? i) (timers q) with
  | Some pos => (mkQueue (delete pos (timers q)) (next_id q), true)
  | None => (q, false)
  end.

(** The [while let Some(t) = q.timers.first()] loop of [tick]. *)
Fixpoint tick_loop (now : Z) (ts : list HrTimer) (count : nat)
    (pids_out : list Z) (calls : list nat)
    : list HrTimer * nat * list Z * list nat :=
  match ts with
  | [] => (ts, count, pids_out, calls)
  | t :: rest =>
      if now <? expiry_ns t then (ts, count, pids_out, calls)
      else match action t with
           | KernelFn f => tick_loop now rest count pids_out (calls ++ [f])
           | WakePid pid =>
               if (count <? 8)%nat
               then tick_loop now rest (S count) (<[count := pid]> pids_out) calls
               else tick_loop now rest count pids_out calls
           end
  end.

Definition tick (q : HrTimerQueue) (now : Z) (pids_out : list Z)
    : HrTimerQueue * nat * list Z * list nat :=
  let '(ts, count, pids, calls) := tick_loop now (timers q) 0 pids_out [] in
  (mkQueue ts (next_id q), count, pids, calls).

(** ** Specification vocabulary *)

(** The queue is kept sorted by expiry, ids are never 0. *)
Definition expires_before (a b : HrTimer) : Prop := expiry_ns a <= expiry_ns b.

Record queue_ok (q : HrTimerQueue) : Prop := {
  queue_sorted : StronglySorted expires_before (timers q);
  queue_next_id : 1 <= next_id q < 2 ^ 32;
}.

Definition expired (now : Z) (ts : list HrTimer) : list HrTimer :=
  filter (fun t => expiry_ns t <= now) ts.

Definition wake_pids (ts : list HrTimer) : list Z :=
  omap (fun t => match action t with WakePid p => Some p | KernelFn _ => None end) ts.

Definition kernel_calls (ts : list HrTimer) : list nat :=
  omap (fun t => match action t with KernelFn f => Some f | WakePid _ => None end) ts.

(** Overwriting the front of the caller's array. *)
Definition write_front (ps out : list Z) : list Z := ps ++ drop (length ps) out.

(** ** Lemmas *)

Lemma expired_prefix now ts :
  StronglySorted expires_before ts ->
  exists live, ts = expired now ts ++ live /\ Forall (fun t => now < expiry_ns t) live.
Proof.
  induction 1 as [|t ts Hs IH Hall]; [by exists []|].
  unfold expired; rewrite filter_cons. destruct (decide _) as [Hle|Hgt].
  - destruct IH as (live & Heq & Hlive). exists live. split; [|done].
    simpl. by f_equal.
  - assert (Forall (fun x => ~ expiry_ns x <= now) ts) as Hlate.
    { eapply Forall_impl; [exact Hall|]. unfold expires_before; simpl; lia. }
    exists (t :: ts). rewrite (filter_all_false _ ts) by done.
    split; [done|]. constructor; [lia|].
    eapply Forall_impl; [exact Hlate|]. simpl; lia.
Qed.

Lemma tick_loop_expired now es live count out calls :
  Forall (fun t => expiry_ns t <= now) es ->
  Forall (fun t => now < expiry_ns t) live ->
  (count <= 8)%nat -> length out = 8%nat ->
  tick_loop now (es ++ live) count out calls =
    (live,
     Nat.min 8 (count + length (wake_pids es))%nat,
     take count out ++ take (8 - count) (wake_pids es)
       ++ drop (Nat.min 8 (count + length (wake_pids es))) out,
     calls ++ kernel_calls es).
Proof.
  intros Hes Hlive. revert count out calls.
  induction Hes as [|t es Ht _ IH]; intros count out calls Hc Hlen; cbn [app tick_loop].
  - change (wake_pids []) with (@nil Z); change (kernel_calls []) with (@nil nat).
    rewrite Nat.add_0_r, Nat.min_r, take_nil, app_nil_r, app_nil_l, take_drop by lia.
    destruct Hlive as [|t live Ht _]; [done|]; simpl.
    by rewrite (proj2 (Z.ltb_lt _ _) Ht).
  - rewrite (proj2 (Z.ltb_ge now (expiry_ns t))) by lia.
    unfold wake_pids, kernel_calls in *; cbn [omap list_omap].
    destruct (action t) as [pid|f]; cbn [length].
    + destruct (Nat.ltb_spec count 8).
      * rewrite IH by (rewrite ?length_insert; lia).
        rewrite Nat.add_succ_comm. do 2 f_equal.
        rewrite (take_S_r _ _ pid) by (apply list_lookup_insert_eq; lia).
        rewrite take_insert_ge, drop_insert_lt by lia.
        replace (8 - count)%nat with (S (8 - S count)) by lia.
        by rewrite <- (assoc_L (++)).
      * assert (count = 8%nat) as -> by lia.
        by rewrite IH by lia.
    + rewrite IH by lia. by rewrite <- (assoc_L (++)).
Qed.

Lemma vec_insert_sorted t ts :
  StronglySorted expires_before ts ->
  StronglySorted expires_before
    (vec_insert (partition_point (fun x => expiry_ns x <=? expiry_ns t) ts) t ts).
Proof.
  unfold vec_insert.
  induction 1 as [|x ts Hs IH Hall]; simpl; [by repeat constructor|].
  destruct (Z.leb_spec (expiry_ns x) (expiry_ns t)) as [Hle|Hgt]; simpl.
  - constructor; [done|].
    change (Forall (expires_before x) (vec_insert
      (partition_point (fun x => expiry_ns x <=? expiry_ns t) ts) t ts)).
    rewrite vec_insert_perm. by constructor.
  - constructor; [by constructor|]. constructor; [unfold expires_before; lia|].
    eapply Forall_impl; [exact Hall|]. unfold expires_before; simpl; lia.
Qed.

Lemma next_id_range n : 1 <= n < 2 ^ 32 -> 1 <= Z.max (wrap 32 (n + 1)) 1 < 2 ^ 32.
Proof.
  intros. unfold wrap. pose proof (Z.mod_pos_bound (n + 1) (2 ^ 32) ltac:(lia)). lia.
Qed.

Lemma new_ok : queue_ok new.
Proof. split; [constructor|simpl; lia]. Qed.

(** ** Properties *)

(** [start] keeps the queue sorted by expiry with a valid id counter, adds
    exactly the new timer, and places it after every timer that expires at or
    before it (first-in first-out among equal deadlines). *)
Theorem start_ok q expiry act :
  queue_ok q ->
  let '(q', i) := start q expiry act in
  queue_ok q' /\ i = next_id q /\ i <> 0 /\
  exists before after,
    timers q = before ++ after /\
    timers q' = before ++ mkHrTimer i expiry act :: after /\
    Forall (fun t => expiry_ns t <= expiry) before /\
    Forall (fun t => expiry < expiry_ns t) after.
Proof.
  intros [Hs Hid]. unfold start.
  set (t := mkHrTimer (next_id q) expiry act).
  set (pos := partition_point _ _).
  split_and!; [split; simpl|done|lia|].
  - apply (vec_insert_sorted t), Hs.
  - by apply next_id_range.
  - exists (take pos (timers q)), (drop pos (timers q)).
    split_and!; [by rewrite take_drop|done| |].
    + eapply Forall_impl; [apply partition_point_take|]. simpl; lia.
    + destruct (drop pos (timers q)) as [|x l] eqn:Hd; [constructor|].
      pose proof (partition_point_drop _ _ _ _ Hd) as Hx. simpl in Hx.
      assert (StronglySorted expires_before (x :: l)) as Hsd.
      { rewrite <- Hd. rewrite <- (take_drop pos (timers q)) in Hs.
        by apply StronglySorted_app in Hs as (_ & _ & ?). }
      inversion Hsd as [|?? _ Hall]; subst.
      constructor; [lia|]. eapply Forall_impl; [exact Hall|].
      unfold expires_before; simpl; lia.
Qed.

Lemma start_ok_witness :
  let q := fst (start new 50 (WakePid 7)) in
  queue_ok q /\ queue_ok (fst (start q 20 (WakePid 8))).
Proof.
  pose proof (start_ok new 50 (WakePid 7) new_ok) as (Hq & _).
  pose proof (start_ok _ 20 (WakePid 8) Hq) as (Hq' & _).
  split; [exact Hq|exact Hq'].
Defined.

(** Cancelling a timer that was just started removes exactly that timer:
    the queue is the one before [start], as long as no pending timer still
    carries the id the 32-bit counter handed out. *)
Theorem start_cancel q expiry act :
  Forall (fun t => id t <> next_id q) (timers q) ->
  let '(q', i) := start q expiry act in
  exists q'', cancel q' i = (q'', true) /\ timers q'' = timers q /\
    cancel q'' i = (q'', false).
Proof.
  intros Hfresh. unfold start, cancel; simpl. set (pos := partition_point _ _).
  set (t := mkHrTimer _ _ _). unfold vec_insert.
  assert (forall l, Forall (fun t => id t <> next_id q) l ->
    Forall (fun t => (id t =? next_id q) = false) l) as Hb.
  { intros l Hl. eapply Forall_impl; [exact Hl|]. simpl; lia. }
  rewrite position_app_r by (by apply Hb, Forall_take). simpl.
  rewrite Z.eqb_refl. simpl.
  eexists; split; [done|]. simpl. rewrite Nat.add_0_r, delete_middle, take_drop.
  split; [done|]. by rewrite (proj2 (position_None _ _)) by by apply Hb.
Qed.

Lemma start_cancel_witness :
  let q := fst (start (fst (start new 50 (WakePid 7))) 20 (KernelFn 1)) in
  exists q'', cancel (fst (start q 30 (WakePid 9))) 3 = (q'', true) /\ timers q'' = timers q.
Proof.
  set (q := fst _). cbv zeta.
  assert (Forall (fun t => id t <> next_id q) (timers q)) as H.
  { vm_compute. repeat constructor; discriminate. }
  destruct (start_cancel q 30 (WakePid 9) H) as (q'' & H1 & H2 & _).
  exists q''. split; [exact H1|exact H2].
Defined.

(** One [tick] over a well-formed queue removes exactly the expired timers,
    keeps every future one in order, runs the callbacks of the expired
    [KernelFn] timers in deadline order, and stores the pids of the first
    eight expired [WakePid] timers, in deadline order, at the front of
    [pids_out], leaving the rest of that array alone. *)
Theorem tick_spec q now out :
  queue_ok q -> length out = 8%nat ->
  let es := expired now (timers q) in
  exists q' woken,
    tick q now out =
      (q', length woken, write_front woken out, kernel_calls es) /\
    queue_ok q' /\
    timers q' = filter (fun t => now < expiry_ns t) (timers q) /\
    woken = take 8 (wake_pids es).
Proof.
  intros [Hs Hid] Hlen es. unfold tick.
  destruct (expired_prefix now (timers q) Hs) as (live & Heq & Hlive).
  assert (Forall (fun t => expiry_ns t <= now) es) as Hes.
  { apply Forall_forall. intros x Hx. by apply list_elem_of_filter in Hx as [? _]. }
  fold es in Heq. clearbody es.
  rewrite Heq, (tick_loop_expired now es live 0 out []) by (done || lia).
  rewrite app_nil_l, Nat.add_0_l, Nat.sub_0_r.
  eexists _, (take 8 (wake_pids es)); split_and!.
  - unfold write_front. rewrite length_take. by f_equal.
  - split; simpl; [|done]. rewrite Heq in Hs. by apply StronglySorted_app in Hs as (_ & _ & ?).
  - simpl. rewrite filter_app, filter_all_false, filter_all_true; [done..|].
    eapply Forall_impl; [exact Hes|]. simpl; lia.
  - done.
Qed.

(** A queue with nine timers due at the same time, pids 100..108. *)
Definition nine_due : HrTimerQueue :=
  foldl (fun q p => fst (start q 10 (WakePid p))) new (seqZ 100 9).

Lemma nine_due_ok : queue_ok nine_due.
Proof. split; [|vm_compute; done]. vm_compute. repeat constructor; done. Qed.

Lemma tick_spec_witness :
  exists q' woken,
    tick nine_due 10 (replicate 8 0) = (q', length woken, write_front woken (replicate 8 0), []) /\
    woken = seqZ 100 8.
Proof.
  destruct (tick_spec nine_due 10 (replicate 8 0) nine_due_ok eq_refl)
    as (q' & woken & H1 & _ & _ & H2).
  exists q', woken. split; [exact H1|]. rewrite H2. vm_compute. reflexivity.
Defined.

(** When more than eight [WakePid] timers are due in one tick, the pids past
    the eighth are lost: they are not reported by this tick, their timers are
    no longer in the queue, and no later tick, at any time, reports any pid of
    an expired timer again.  (The source comment says such a pid "will be
    retried next tick".) *)
Theorem tick_drops_wakeups q now out :
  queue_ok q -> length out = 8%nat ->
  (8 < length (wake_pids (expired now (timers q))))%nat ->
  exists q' woken lost,
    tick q now out = (q', 8%nat, write_front woken out, kernel_calls (expired now (timers q))) /\
    wake_pids (expired now (timers q)) = woken ++ lost /\
    length woken = 8%nat /\ lost <> [] /\
    Forall (fun t => now < expiry_ns t) (timers q') /\
    forall later pids, length pids = 8%nat ->
      exists q'' reported calls,
        tick q' later pids = (q'', length reported, write_front reported pids, calls) /\
        reported = take 8 (wake_pids (filter (fun t => now < expiry_ns t <= later) (timers q))).
Proof.
  intros Hq Hlen Hmany.
  destruct (tick_spec q now out Hq Hlen) as (q' & woken & Htick & Hq' & Hts & Hw).
  exists q', woken, (drop 8 (wake_pids (expired now (timers q)))).
  assert (length woken = 8%nat) as Hw8 by (rewrite Hw, length_take; lia).
  split_and!; [by rewrite Htick, Hw8|by rewrite Hw, take_drop|done| | |].
  - intros Hnil. apply (f_equal length) in Hnil. rewrite length_drop in Hnil. simpl in Hnil. lia.
  - rewrite Hts. apply Forall_forall. intros x Hx. by apply list_elem_of_filter in Hx as [? _].
  - intros later pids Hpids.
    destruct (tick_spec q' later pids Hq' Hpids) as (q'' & reported & Htick' & _ & _ & Hr).
    exists q'', reported, (kernel_calls (expired later (timers q'))).
    split; [done|]. rewrite Hr, Hts. unfold expired. rewrite list_filter_filter.
    do 2 f_equal. apply list_filter_iff. intros; simpl; lia.
Qed.

Lemma tick_drops_wakeups_witness :
  exists q' woken lost,
    tick nine_due 10 (replicate 8 0) = (q', 8%nat, write_front woken (replicate 8 0), []) /\
    wake_pids (expired 10 (timers nine_due)) = woken ++ lost /\ lost <> [] /\
    Forall (fun t => 10 < expiry_ns t) (timers q').
Proof.
  destruct (tick_drops_wakeups nine_due 10 (replicate 8 0) nine_due_ok eq_refl)
    as (q' & woken & lost & H1 & H2 & _ & H3 & H4 & _); [vm_compute; lia|].
  exists q', woken, lost. split_and!; [exact H1|exact H2|exact H3|exact H4].
Defined.

End HrTimer.
