(* ===== verification/Channel.v ===== *)
(** IPC channels: [kernel/src/ipc/channel.rs].

    Fixed-size messages, the 16-slot ring buffer of each channel, the channel
    operations, and the global channel table with its id allocator and path
    lookup.  The ring buffer is refined to a bounded FIFO queue, the table to
    a partial map from ids to channels. *)

From Stdlib Require Import ZArith Lia.
From stdpp Require Import base list numbers.
From S2P Require Import Prelude Ring.

Local Open Scope Z_scope.

Module Channel.

(** ** Messages *)

Record Message := mkMessage {
  tag : Z;
  msg_len : Z;
  data : list Z;
}.

Definition empty : Message := mkMessage 0 0 (replicate 56 0).

#[export] Instance Message_inhabited : Inhabited Message := populate empty.

(** [Message::new]: the payload is truncated to 56 bytes, the rest is zero. *)
Definition new (t : Z) (payload : list Z) : Message :=
  let n := Nat.min (length payload) 56 in
  mkMessage t (Z.of_nat n) (splice 0 (take n payload) (replicate 56 0)).

(** [Message::payload]: [&self.data[..self.len as usize]]. *)
Definition payload (m : Message) : may_panic (list Z) :=
  unwrap (slice 0 (Z.to_nat (msg_len m)) (data m)).

(** ** Ring buffer *)

Definition RING_CAP : nat := 16.

Record RingBuf := mkRing {
  buf : list Message;
  head : nat;
  tail : nat;
  len : nat;
}.

Definition ring_new : RingBuf := mkRing (replicate RING_CAP empty) 0 0 0.

Definition is_empty (r : RingBuf) : bool := (len r =? 0)%nat.
Definition is_full (r : RingBuf) : bool := (len r =? RING_CAP)%nat.

Definition push (r : RingBuf) (m : Message) : RingBuf * bool :=
  if is_full r then (r, false)
  else (mkRing (<[tail r := m]> (buf r)) (head r) ((tail r + 1) mod RING_CAP) (len r + 1), true).

Definition pop (r : RingBuf) : RingBuf * option Message :=
  if is_empty r then (r, None)
  else (mkRing (buf r) ((head r + 1) mod RING_CAP) (tail r) (len r - 1),
        Some (buf r !!! head r)).

(** ** Channel endpoints *)

Inductive ServerState :=
| Listening
| PendingConnect (peer : nat).

Record Channel := mkChannel {
  rx : RingBuf;
  read_waiters : list Z;
  accept_waiters : list Z;
  peer : option nat;
  server_state : option ServerState;
  bound_path : option (list Z);
}.

Definition channel_new : Channel := mkChannel ring_new [] [] None None None.

Definition has_messages (c : Channel) : bool := negb (is_empty (rx c)).
Definition is_rx_full (c : Channel) : bool := is_full (rx c).

Definition set_rx (c : Channel) (r : RingBuf) : Channel :=
  mkChannel r (read_waiters c) (accept_waiters c) (peer c) (server_state c) (bound_path c).

Definition enqueue (c : Channel) (m : Message) : Channel * bool :=
  let '(r, ok) := push (rx c) m in (set_rx c r, ok).

Definition dequeue (c : Channel) : Channel * option Message :=
  let '(r, m) := pop (rx c) in (set_rx c r, m).

Definition contains (pid : Z) (l : list Z) : bool := existsb (Z.eqb pid) l.

Definition add_read_waiter (c : Channel) (pid : Z) : Channel :=
  if contains pid (read_waiters c) then c
  else mkChannel (rx c) (read_waiters c ++ [pid]) (accept_waiters c)
         (peer c) (server_state c) (bound_path c).

Definition take_read_waiters (c : Channel) : Channel * list Z :=
  (mkChannel (rx c) [] (accept_waiters c) (peer c) (server_state c) (bound_path c),
   read_waiters c).

Definition add_accept_waiter (c : Channel) (pid : Z) : Channel :=
  if contains pid (accept_waiters c) then c
  else mkChannel (rx c) (read_waiters c) (accept_waiters c ++ [pid])
         (peer c) (server_state c) (bound_path c).

Definition take_accept_waiters (c : Channel) : Channel * list Z :=
  (mkChannel (rx c) (read_waiters c) [] (peer c) (server_state c) (bound_path c),
   accept_waiters c).

(** ** Channel table *)

Definition MAX_CHANNELS : nat := 64.

Record ChannelTable := mkTable {
  slots : list (option Channel);
  next_id : nat;
}.

Definition table_new : ChannelTable := mkTable (replicate MAX_CHANNELS None) 1.

(** The [for _ in 0..MAX_CHANNELS] loop of [alloc]: [n] iterations left. *)
Fixpoint alloc_loop (n : nat) (t : ChannelTable) : may_panic (ChannelTable * option nat) :=
  match n with
  | O => Ok (t, None)
  | S n' =>
      let i := next_id t in
      let nxt := (next_id t mod (MAX_CHANNELS - 1) + 1)%nat in
      match slots t !! i with
      | None => Panic
      | Some None => Ok (mkTable (<[i := Some channel_new]> (slots t)) nxt, Some i)
      | Some (Some _) => alloc_loop n' (mkTable (slots t) nxt)
      end
  end.

Definition alloc (t : ChannelTable) : may_panic (ChannelTable * option nat) :=
  alloc_loop MAX_CHANNELS t.

Definition free (t : ChannelTable) (i : nat) : ChannelTable :=
  if (i <? MAX_CHANNELS)%nat then mkTable (<[i := None]> (slots t)) (next_id t) else t.

Definition get (t : ChannelTable) (i : nat) : option Channel := mjoin (slots t !! i).

(** [get_mut]: the channel and how to store it back. *)
Definition update (t : ChannelTable) (i : nat) (c : Channel) : ChannelTable :=
  mkTable (<[i := Some c]> (slots t)) (next_id t).

(** The comparison of [find_by_path]; [bound] is a 64-byte array. *)
Definition path_matches (bound path : list Z) : bool :=
  let n := Nat.min (length path) 64 in
  bool_decide (take n bound = take n path) &&
  ((n =? 64)%nat || (default 1 (bound !! n) =? 0)).

Definition slot_matches (path : list Z) (s : option Channel) : bool :=
  match s with
  | Some c => match bound_path c with
              | Some bound => path_matches bound path
              | None => false
              end
  | None => false
  end.

Definition find_by_path (t : ChannelTable) (path : list Z) : option nat :=
  position (slot_matches path) (slots t).

(** ** Specification vocabulary *)

(** The array representation invariant of a ring buffer. *)
Record ring_ok (r : RingBuf) : Prop := {
  ring_buf : length (buf r) = RING_CAP;
  ring_head : (head r < RING_CAP)%nat;
  ring_len : (len r <= RING_CAP)%nat;
  ring_tail : tail r = slot RING_CAP (head r) (len r);
}.

(** The queue of messages a ring buffer stands for. *)
Definition queue (r : RingBuf) : list Message := contents RING_CAP (buf r) (head r) (len r).

Record table_ok (t : ChannelTable) : Prop := {
  table_slots : length (slots t) = MAX_CHANNELS;
  table_next : (1 <= next_id t < MAX_CHANNELS)%nat;
}.

(** The 64-byte image [bind] stores for a path. *)
Definition pad64 (path : list Z) : list Z := path ++ replicate (64 - length path) 0.

(** Ids in the order the allocator tries them. *)
Definition probe (start k : nat) : nat := ((start - 1 + k) mod (MAX_CHANNELS - 1) + 1)%nat.

(** The abstract bounded queue and the operations on it. *)
Inductive queue_op :=
| OpPush (m : Message)
| OpPop.

Inductive queue_out :=
| Pushed (ok : bool)
| Popped (m : option Message).

Definition spec_step (q : list Message) (op : queue_op) : list Message * queue_out :=
  match op, q with
  | OpPush m, _ => if (length q <? RING_CAP)%nat then (q ++ [m], Pushed true) else (q, Pushed false)
  | OpPop, [] => ([], Popped None)
  | OpPop, m :: q' => (q', Popped (Some m))
  end.

Definition ring_step (r : RingBuf) (op : queue_op) : RingBuf * queue_out :=
  match op with
  | OpPush m => let '(r', ok) := push r m in (r', Pushed ok)
  | OpPop => let '(r', m) := pop r in (r', Popped m)
  end.

Fixpoint run {S : Type} (step : S -> queue_op -> S * queue_out) (s : S) (ops : list queue_op)
    : S * list queue_out :=
  match ops with
  | [] => (s, [])
  | op :: ops' =>
      let '(s1, o) := step s op in
      let '(s2, os) := run step s1 ops' in (s2, o :: os)
  end.

(** ** Lemmas *)

Lemma ring_new_ok : ring_ok ring_new.
Proof. by split; vm_compute; try lia. Qed.

Lemma length_queue r : length (queue r) = len r.
Proof. apply length_contents. Qed.

Lemma ring_step_refines r op :
  ring_ok r ->
  let '(r', o) := ring_step r op in
  let '(q', o') := spec_step (queue r) op in
  ring_ok r' /\ queue r' = q' /\ o = o'.
Proof.
  intros [Hbuf Hhead Hlen Htail]. destruct op as [m|]; simpl.
  - unfold push, is_full. rewrite length_queue.
    destruct (Nat.eqb_spec (len r) RING_CAP) as [Hfull|Hfull].
    + rewrite (proj2 (Nat.ltb_ge _ _)) by lia. done.
    + rewrite (proj2 (Nat.ltb_lt _ _)) by lia. split_and!; [|simpl|done].
      * split; cbn [buf head tail len]; [by rewrite length_insert|done|lia|].
        rewrite Htail. apply slot_next.
      * rewrite Htail. unfold queue; cbn [buf head len]. rewrite Nat.add_1_r.
        apply contents_push; lia.
  - unfold pop, is_empty. destruct (Nat.eqb_spec (len r) 0) as [H0|H0].
    + assert (queue r = []) as -> by (apply nil_length_inv; by rewrite length_queue). done.
    + unfold queue at 1. rewrite contents_head by lia. cbn [spec_step].
      unfold slot at 1. rewrite Nat.add_0_r, (Nat.mod_small (head r)) by lia.
      split_and!; [|done..].
      split; cbn [buf head tail len]; [done|by apply Nat.mod_upper_bound|lia|].
      rewrite Htail, slot_add. f_equal. lia.
Qed.

Lemma run_refines ops r :
  ring_ok r ->
  let '(r', os) := run ring_step r ops in
  let '(q', os') := run spec_step (queue r) ops in
  ring_ok r' /\ queue r' = q' /\ os = os'.
Proof.
  revert r; induction ops as [|op ops IH]; intros r Hr; simpl; [done|].
  pose proof (ring_step_refines r op Hr) as Hstep.
  destruct (ring_step r op) as [r1 o], (spec_step (queue r) op) as [q1 o'].
  destruct Hstep as (Hr1 & <- & <-). specialize (IH r1 Hr1).
  destruct (run ring_step r1 ops) as [r2 os], (run spec_step (queue r1) ops) as [q2 os'].
  destruct IH as (? & ? & ->). done.
Qed.

Lemma table_new_ok : table_ok table_new.
Proof. split; [done|vm_compute; lia]. Qed.

Lemma probe_next start k :
  (1 <= start < MAX_CHANNELS)%nat ->
  probe (start mod (MAX_CHANNELS - 1) + 1) k = probe start (S k).
Proof.
  intros H. unfold probe. rewrite Nat.add_sub, Nat.Div0.add_mod_idemp_l. do 2 f_equal. lia.
Qed.

Lemma probe_0 start : (1 <= start < MAX_CHANNELS)%nat -> probe start 0 = start.
Proof.
  unfold probe, MAX_CHANNELS. intros H. rewrite Nat.add_0_r, Nat.mod_small by lia. lia.
Qed.

Lemma probe_range start k : (1 <= probe start k < MAX_CHANNELS)%nat.
Proof.
  unfold probe, MAX_CHANNELS.
  pose proof (Nat.mod_upper_bound (start - 1 + k) (64 - 1) ltac:(lia)). lia.
Qed.

(** Every id but 0 is probed within 63 steps. *)
Lemma probe_complete start i :
  (1 <= start < MAX_CHANNELS)%nat -> (1 <= i < MAX_CHANNELS)%nat ->
  exists k, (k < MAX_CHANNELS - 1)%nat /\ probe start k = i.
Proof.
  unfold probe, MAX_CHANNELS. intros Hs Hi. simpl Nat.sub.
  destruct (decide (start <= i)%nat).
  - exists (i - start)%nat. split; [lia|].
    rewrite Nat.mod_small by lia. lia.
  - exists (i + 63 - start)%nat. split; [lia|].
    replace (start - 1 + (i + 63 - start))%nat with ((i - 1) + 1 * 63)%nat by lia.
    rewrite Nat.Div0.mod_add, Nat.mod_small by lia. lia.
Qed.

Lemma alloc_loop_spec n t :
  table_ok t ->
  exists t' r, alloc_loop n t = Ok (t', r) /\ table_ok t' /\
    match r with
    | Some i => exists k, (k < n)%nat /\ i = probe (next_id t) k /\
        slots t !! i = Some None /\ slots t' = <[i := Some channel_new]> (slots t)
    | None => slots t' = slots t /\
        forall k, (k < n)%nat -> slots t !! probe (next_id t) k <> Some None
    end.
Proof.
  revert t; induction n as [|n IH]; intros t [Hlen Hnext]; cbn [alloc_loop].
  - exists t, None. split; [done|]. split; [done|]. split; [done|]. lia.
  - set (nxt := (next_id t mod (MAX_CHANNELS - 1) + 1)%nat).
    assert (1 <= nxt < MAX_CHANNELS)%nat as Hnxt.
    { unfold nxt. rewrite <- (Nat.add_sub (next_id t) 0), Nat.sub_0_r.
      pose proof (Nat.mod_upper_bound (next_id t + 0) (MAX_CHANNELS - 1) ltac:(vm_compute; lia)).
      unfold MAX_CHANNELS in *. lia. }
    destruct (slots t !! next_id t) as [[c|]|] eqn:Hs.
    + destruct (IH (mkTable (slots t) nxt)) as (t' & r & Heq & Hok & Hr); [by split|].
      exists t', r. split_and!; [done|done|]. simpl in Hr. destruct r as [i|].
      * destruct Hr as (k & Hk & -> & Hfree & Hst). exists (S k).
        subst nxt. rewrite probe_next in * by done. split_and!; [lia|done..].
      * destruct Hr as [Hst Hall]. split; [done|].
        intros [|k] Hk; [by rewrite probe_0, Hs|].
        rewrite <- probe_next by done. apply Hall. lia.
    + eexists _, (Some (next_id t)). split_and!; [done| |].
      * split; simpl; [by rewrite length_insert|done].
      * exists 0%nat. rewrite probe_0 by done. split_and!; [lia|done..].
    + apply lookup_ge_None in Hs. lia.
Qed.

Lemma take_pad64 path n :
  (n <= length path)%nat -> take n (pad64 path) = take n path.
Proof. intros. unfold pad64. by rewrite take_app_le. Qed.

(** A path as [bind] accepts it: at most 63 non-zero bytes. *)
Definition path_ok (path : list Z) : Prop :=
  (length path <= 63)%nat /\ Forall (fun b => b <> 0) path.

(** Bound paths in a table are images of paths accepted by [bind]. *)
Definition bound_to (t : ChannelTable) (i : nat) (path : list Z) : Prop :=
  exists c, get t i = Some c /\ bound_path c = Some (pad64 path).

Lemma path_matches_pad64 p q :
  path_ok p -> path_ok q -> path_matches (pad64 p) q = bool_decide (p = q).
Proof.
  intros [Hp Hpz] [Hq Hqz]. unfold path_matches.
  rewrite (Nat.min_l (length q)), firstn_all by lia.
  rewrite (proj2 (Nat.eqb_neq (length q) 64)) by lia. simpl.
  apply eq_true_iff_eq. rewrite andb_true_iff, !bool_decide_eq_true, Z.eqb_eq.
  split.
  - intros [Ht H0].
    destruct (Nat.lt_trichotomy (length p) (length q)) as [Hlt|[Heq|Hgt]].
    + exfalso.
      assert (q !! length p = Some 0) as Hz.
      { rewrite <- Ht, lookup_take_lt by done. unfold pad64.
        rewrite lookup_app_r, Nat.sub_diag by done. apply lookup_replicate; split; [done|lia]. }
      rewrite Forall_lookup in Hqz. by apply (Hqz _ _ Hz).
    + rewrite <- Ht, <- Heq. unfold pad64. by rewrite take_app_length.
    + exfalso. unfold pad64 in H0. rewrite lookup_app_l in H0 by done.
      destruct (lookup_lt_is_Some_2 p (length q) Hgt) as [z Hz].
      rewrite Hz in H0. simpl in H0. rewrite Forall_lookup in Hpz. by apply (Hpz _ _ Hz).
  - intros ->. split; [by unfold pad64; rewrite take_app_length|].
    unfold pad64. rewrite lookup_app_r, Nat.sub_diag by done.
    by rewrite (proj2 (lookup_replicate _ _ _ _)) by (split; [done|lia]).
Qed.

Lemma payload_new_app (p : list Z) :
  (length p <= 56)%nat -> splice 0 p (replicate 56 0) = p ++ replicate (56 - length p) 0.
Proof. intros. unfold splice. by rewrite take_0, app_nil_l, Nat.add_0_l, drop_replicate. Qed.

(** ** Properties *)

(** The ring buffer of a channel implements a bounded FIFO queue of 16
    messages: started empty, any sequence of [push] and [pop] returns exactly
    what the abstract queue returns (accepted or full, the oldest message or
    nothing), and the array still represents that queue afterwards. *)
Theorem ring_refines_fifo ops :
  let '(r, outs) := run ring_step ring_new ops in
  let '(q, spec_outs) := run spec_step [] ops in
  outs = spec_outs /\ queue r = q /\ ring_ok r.
Proof.
  pose proof (run_refines ops ring_new ring_new_ok) as H.
  change (queue ring_new) with (@nil Message) in H.
  destruct (run ring_step ring_new ops), (run spec_step [] ops). tauto.
Qed.

(** A message carries its payload: [Message::new] followed by [payload] never
    panics and returns the first 56 bytes of what was sent, in a 56-byte data
    array padded with zeros. *)
Theorem message_payload t p :
  payload (new t p) = Ok (take 56 p) /\ length (data (new t p)) = 56%nat /\ tag (new t p) = t.
Proof.
  unfold payload, new; cbn [data msg_len tag].
  set (k := Nat.min (length p) 56).
  assert (length (take k p) = k) as Hk by (rewrite length_take; lia).
  assert (k <= 56)%nat as Hk56 by lia.
  rewrite payload_new_app by lia. unfold slice.
  rewrite Nat2Z.id, decide_True by len_lia.
  split_and!; [|len_lia|done].
  cbn [unwrap]. rewrite Nat.sub_0_r, drop_0, take_app_le, firstn_all2 by lia.
  f_equal. unfold k. destruct (decide (length p <= 56)%nat).
  - rewrite Nat.min_l, !firstn_all2 by lia. done.
  - by rewrite Nat.min_r by lia.
Qed.

(** The id allocator is sound and complete.  On a well-formed table [alloc]
    never panics; it returns an id between 1 and 63 whose slot was free,
    changing only that slot to a fresh channel, and it fails only when every
    id from 1 to 63 is in use.  Id 0, the "not a socket" sentinel, is never
    handed out. *)
Theorem alloc_spec t :
  table_ok t ->
  exists t' r, alloc t = Ok (t', r) /\ table_ok t' /\
    match r with
    | Some i => (1 <= i < MAX_CHANNELS)%nat /\ get t i = None /\
        get t' i = Some channel_new /\ forall j, j <> i -> get t' j = get t j
    | None => slots t' = slots t /\ forall i, (1 <= i < MAX_CHANNELS)%nat -> is_Some (get t i)
    end.
Proof.
  intros Ht. destruct (alloc_loop_spec MAX_CHANNELS t Ht) as (t' & r & Heq & Hok & Hr).
  exists t', r. split_and!; [done|done|]. destruct Ht as [Hlen Hnext]. unfold get.
  destruct r as [i|].
  - destruct Hr as (k & _ & -> & Hfree & Hst). pose proof (probe_range (next_id t) k).
    rewrite Hfree, Hst. split_and!; [lia|lia|done| |].
    + by rewrite list_lookup_insert_eq by lia.
    + intros j Hj. by rewrite list_lookup_insert_ne by done.
  - destruct Hr as [Hst Hall]. split; [done|]. intros i Hi.
    destruct (probe_complete (next_id t) i Hnext Hi) as (k & Hk & <-).
    specialize (Hall k ltac:(lia)).
    destruct (lookup_lt_is_Some_2 (slots t) (probe (next_id t) k)) as [[c|] Hc]; [lia| |congruence].
    rewrite Hc. by eexists.
Qed.

Lemma alloc_spec_witness :
  exists t' i, alloc table_new = Ok (t', Some i) /\ get t' i = Some channel_new.
Proof.
  destruct (alloc_spec table_new table_new_ok) as (t' & [i|] & Heq & _ & Hr).
  - exists t', i. split; [exact Heq|]. destruct Hr as (_ & _ & H & _). exact H.
  - exfalso. destruct Hr as [_ Hall]. destruct (Hall 1%nat) as [c Hc]; [vm_compute; lia|discriminate].
Defined.

(** Path lookup is exact.  In a table whose bound channels hold the 64-byte
    images of paths accepted by [bind], [find_by_path] of such a path returns
    the lowest id bound to that very path, and [None] only when no channel is
    bound to it: the fixed-size buffer never makes two different paths match. *)
Theorem find_by_path_spec t path :
  path_ok path ->
  (forall i c b, get t i = Some c -> bound_path c = Some b -> exists p, path_ok p /\ b = pad64 p) ->
  match find_by_path t path with
  | Some i => bound_to t i path /\ forall j, (j < i)%nat -> ~ bound_to t j path
  | None => forall j, ~ bound_to t j path
  end.
Proof.
  intros Hpath Hbound.
  assert (forall i s, slots t !! i = Some s ->
    (slot_matches path s = true <-> bound_to t i path)) as Hmatch.
  { intros i s Hs. unfold bound_to, get. rewrite Hs. simpl. unfold slot_matches.
    destruct s as [c|]; [|by split; [|intros (? & ? & _)]].
    destruct (bound_path c) as [b|] eqn:Hb; [|by split; [|intros (? & [= <-] & ?); congruence]].
    destruct (Hbound i c b) as (p & Hp & ->); [unfold get; by rewrite Hs|done|].
    rewrite path_matches_pad64, bool_decide_eq_true by done. split.
    - intros ->. eauto.
    - intros (c' & [= <-] & Hpad). rewrite Hb in Hpad. injection Hpad as Hpad.
      assert (path_matches (pad64 p) path = path_matches (pad64 path) path) as Hm by by rewrite Hpad.
      rewrite !path_matches_pad64, (bool_decide_eq_true_2 (path = path)) in Hm by done.
      by apply bool_decide_eq_true in Hm. }
  assert (forall j, bound_to t j path -> exists s, slots t !! j = Some s) as Hin.
  { intros j (c & Hc & _). unfold get in Hc. destruct (slots t !! j); [eauto|done]. }
  unfold find_by_path. destruct (position _ _) as [i|] eqn:Hpos.
  - apply position_Some in Hpos as (s & Hs & Hm & Hbefore). split; [by apply (Hmatch i s)|].
    intros j Hj Hb. destruct (Hin j Hb) as [s' Hs'].
    apply (Hmatch _ _ Hs') in Hb. rewrite (Hbefore j s' Hj Hs') in Hb. done.
  - apply position_None in Hpos. intros j Hb. destruct (Hin j Hb) as [s' Hs'].
    apply (Hmatch _ _ Hs') in Hb. rewrite Forall_lookup in Hpos.
    specialize (Hpos j s' Hs'). simpl in Hpos. congruence.
Qed.

(** A table with one channel bound to the path [/a] (bytes 47, 97). *)
Definition bound_table : ChannelTable :=
  update table_new 3
    (mkChannel ring_new [] [] None (Some Listening) (Some (pad64 [47; 97]))).

Lemma find_by_path_spec_witness :
  find_by_path bound_table [47; 97] = Some 3%nat /\ bound_to bound_table 3 [47; 97].
Proof.
  split; [reflexivity|].
  assert (path_ok [47; 97]) as Hp by (split; [simpl; lia|repeat constructor; lia]).
  pose proof (find_by_path_spec bound_table [47; 97] Hp) as H.
  change (find_by_path bound_table [47; 97]) with (Some 3%nat) in H. apply H.
  intros i c b Hget Hb.
  assert (i = 3%nat) as ->.
  { destruct (decide (i = 3%nat)) as [|Hne]; [done|]. exfalso.
    unfold get, bound_table, update in Hget; cbn [slots] in Hget.
    rewrite list_lookup_insert_ne in Hget by done.
    change (slots table_new) with (replicate MAX_CHANNELS (@None Channel)) in Hget.
    destruct (replicate MAX_CHANNELS None !! i) as [o|] eqn:Ho; [|done].
    apply lookup_replicate in Ho as [-> _]. done. }
  injection Hget as <-. injection Hb as <-. by exists [47; 97].
Defined.

End Channel.
