(* ===== verification/Process.v ===== *)
(** Processes, trap frames and signals: [kernel/src/process/mod.rs],
    [trapframe.rs], [signal.rs] and [syscall/signal.rs].

    A [Process] is the record of the source.  What it only points to is kept
    as an identity: the address space ([Arc<AddressSpace>]) and the descriptor
    table ([Arc<Mutex<..>>]) are numbers, two processes sharing one when the
    numbers are equal.  User memory is byte addressed ([mem]); the kernel
    writes to it only in the address space that is active.

    Integers keep their width: signals and masks are [u64] bit sets handled
    with [Z.lor]/[Z.ldiff]/[Z.testbit], status words are [i32]. *)

From Stdlib Require Import ZArith Lia.
From stdpp Require Import base gmap list numbers.
From S2P Require Import Prelude.

Local Open Scope Z_scope.

Module Process.

(** ** Trap frames *)

Record TrapFrame := mkTrapFrame {
  r15 : Z; r14 : Z; r13 : Z; r12 : Z; r11 : Z; r10 : Z; r9 : Z; r8 : Z;
  rbp : Z; rdi : Z; rsi : Z; rdx : Z; rcx : Z; rbx : Z; rax : Z;
  rip : Z; cs : Z; rflags : Z; rsp : Z; ss : Z;
}.

#[export] Instance TrapFrame_fields : Fields TrapFrame := fun t =>
  mkTrapFrame (r15 t) (r14 t) (r13 t) (r12 t) (r11 t) (r10 t) (r9 t) (r8 t)
    (rbp t) (rdi t) (rsi t) (rdx t) (rcx t) (rbx t) (rax t)
    (rip t) (cs t) (rflags t) (rsp t) (ss t).

(** [TrapFrame::default()]. *)
Definition tf_zero : TrapFrame := mkTrapFrame 0 0 0 0 0 0 0 0 0 0 0 0 0 0 0 0 0 0 0 0.

(** The registers in [repr(C)] order. *)
Definition tf_words (t : TrapFrame) : list Z :=
  [r15 t; r14 t; r13 t; r12 t; r11 t; r10 t; r9 t; r8 t;
   rbp t; rdi t; rsi t; rdx t; rcx t; rbx t; rax t;
   rip t; cs t; rflags t; rsp t; ss t].

Definition tf_of_words (w : nat -> Z) : TrapFrame :=
  mkTrapFrame (w 0%nat) (w 1%nat) (w 2%nat) (w 3%nat) (w 4%nat) (w 5%nat) (w 6%nat) (w 7%nat)
    (w 8%nat) (w 9%nat) (w 10%nat) (w 11%nat) (w 12%nat) (w 13%nat) (w 14%nat)
    (w 15%nat) (w 16%nat) (w 17%nat) (w 18%nat) (w 19%nat).

Definition USER_CS : Z := 35 (* 0x23 *).

(** ** Process control block *)

Inductive ProcessState := Ready | Running | Blocked | Zombie | Stopped.

#[export] Instance ProcessState_eq_dec : EqDecision ProcessState.
Proof. solve_decision. Defined.

Inductive WaitTarget :=
| WaitPid (pid : Z)
| WaitPgid (pgid : Z)
| AnyChild.

Definition matches (t : WaitTarget) (pid pgid : Z) : bool :=
  match t with
  | WaitPid p => p =? pid
  | WaitPgid g => g =? pgid
  | AnyChild => true
  end.

Inductive PrivilegeLevel := Kernel | User.

#[export] Instance PrivilegeLevel_eq_dec : EqDecision PrivilegeLevel.
Proof. solve_decision. Defined.

Inductive SignalAction :=
| Default
| Ignore
| Handler (addr : Z).

Record Process := mkProcess {
  pid : Z;
  parent_pid : option Z;
  exit_status : Z;
  state : ProcessState;
  privilege : PrivilegeLevel;
  priority : Z;
  effective_priority : Z;
  name : list Z;
  trapframe : TrapFrame;
  kernel_stack : Z;
  address_space : Z;
  files : Z;
  waiting_for : option WaitTarget;
  waiting_options : Z;
  waiting_status_ptr : Z;
  pending_wait_status : option Z;
  killed_by_signal : option Z;
  pgid : Z;
  stopped_by_signal : option Z;
  stop_reported : bool;
  fs_base : Z;
  fpu_state : list Z;
  is_thread : bool;
  owned_stack_vma : option (Z * Z);
  cwd : list Z;
  exe_name : list Z;
  signal_handlers : list SignalAction;
  blocked_signals : Z;
  pending_signals : Z;
}.

#[export] Instance Process_fields : Fields Process := fun p =>
  mkProcess (pid p) (parent_pid p) (exit_status p) (state p) (privilege p) (priority p)
    (effective_priority p) (name p) (trapframe p) (kernel_stack p) (address_space p) (files p)
    (waiting_for p) (waiting_options p) (waiting_status_ptr p) (pending_wait_status p)
    (killed_by_signal p) (pgid p) (stopped_by_signal p) (stop_reported p) (fs_base p)
    (fpu_state p) (is_thread p) (owned_stack_vma p) (cwd p) (exe_name p)
    (signal_handlers p) (blocked_signals p) (pending_signals p).

Definition NUM_SIGNALS : nat := 64.

(** ** Constructors *)

Section constructors.
(** What the environment hands to a new process: the default FXSAVE image
    ([fpu::default_state]) and the identity of a fresh descriptor table. *)
Variables (fpu_default : list Z) (fresh_files : Z).

Definition root_path : list Z := [47].

Definition new_kernel (p entry kstack aspace : Z) : Process :=
  mkProcess p None 0 Ready Kernel 5 5 (replicate 16 0)
    (tf_zero <| rip := entry |> <| cs := 8 |> <| rflags := 512 |>
             <| rsp := kstack - 8 |> <| ss := 16 |>)
    kstack aspace fresh_files None 0 0 None None (wrap 32 p) None false 0 fpu_default
    false None root_path [] (replicate NUM_SIGNALS Default) 0 0.

Definition new_user (p entry user_stack kstack aspace : Z) : Process :=
  mkProcess p None 0 Ready User 5 5 (replicate 16 0)
    (tf_zero <| rip := entry |> <| cs := USER_CS |> <| rflags := 512 |>
             <| rsp := user_stack |> <| ss := 27 |>)
    kstack aspace fresh_files None 0 0 None None (wrap 32 p) None false 0 fpu_default
    false None root_path [] (replicate NUM_SIGNALS Default) 0 0.

(** The child of [fork]: the caller's frame, its own address space and table,
    the parent's group, directory, program name and live FPU registers. *)
Definition new_user_from_fork (p parent : Z) (tf : TrapFrame) (kstack aspace child_files : Z)
    (dir : list Z) (parent_pgid : Z) (exe fpu : list Z) : Process :=
  mkProcess p (Some parent) 0 Ready User 5 5 (replicate 16 0) tf
    kstack aspace child_files None 0 0 None None parent_pgid None false 0 fpu
    false None dir exe (replicate NUM_SIGNALS Default) 0 0.

(** A thread of [clone]: shares the caller's address space and table. *)
Definition new_thread (p parent entry stack kstack aspace shared_files : Z)
    (stack_vma : option (Z * Z)) (dir : list Z) (parent_pgid : Z) (exe : list Z) : Process :=
  mkProcess p (Some parent) 0 Ready User 5 5 (replicate 16 0)
    (tf_zero <| rip := entry |> <| cs := USER_CS |> <| rflags := 512 |>
             <| rsp := stack |> <| ss := 27 |>)
    kstack aspace shared_files None 0 0 None None parent_pgid None false 0 fpu_default
    true stack_vma dir exe (replicate NUM_SIGNALS Default) 0 0.

End constructors.

Definition set_name (p : Process) (bytes : list Z) : Process :=
  let n := Nat.min (length bytes) 15 in
  p <| name := splice 0 (take n bytes) (name p) |>.

Definition set_priority (p : Process) (pri : Z) : Process :=
  let v := Z.min pri 10 in p <| priority := v |> <| effective_priority := v |>.

(** Reading an [i32] bit pattern back as a signed value. *)
Definition to_i32 (z : Z) : Z :=
  let u := wrap 32 z in if u <? 2 ^ 31 then u else u - 2 ^ 32.

Definition wait_status_word (p : Process) : Z :=
  match killed_by_signal p with
  | Some sig => to_i32 (Z.lor (Z.shiftl (Z.land (to_i32 sig) 255) 24) 1024)
  | None => Z.lor 512 (Z.land (exit_status p) 255)
  end.

Definition stop_status_word (p : Process) : Z :=
  match stopped_by_signal p with
  | Some sig => Z.lor 2048 (Z.shiftl (Z.land (to_i32 sig) 255) 16)
  | None => 512
  end.

(** The macros of [abi-bits/wait.h] that user programs decode a status with;
    the argument is an [int], the mask constants are unsigned. *)
Definition WIFEXITED (x : Z) : bool := negb (Z.land x 512 =? 0).
Definition WIFSIGNALED (x : Z) : bool := negb (Z.land x 1024 =? 0).
Definition WIFSTOPPED (x : Z) : bool := negb (Z.land x 2048 =? 0).
Definition WEXITSTATUS (x : Z) : Z := Z.land x 255.
Definition WSTOPSIG (x : Z) : Z := Z.shiftr (Z.land x 16711680) 16.
Definition WTERMSIG (x : Z) : Z := Z.shiftr (Z.land (wrap 32 x) 4278190080) 24.

(** ** Properties *)

Lemma land_255_bound z : 0 <= Z.land z 255 < 256.
Proof. change 255 with (Z.ones 8). rewrite Z.land_ones by lia. apply Z.mod_pos_bound. lia. Qed.

(** One status byte decodes as claimed in each of the three encodings. *)
Definition status_decodes (b : Z) : bool :=
  let e := Z.lor 512 b in
  let k := to_i32 (Z.lor (Z.shiftl b 24) 1024) in
  let s := Z.lor 2048 (Z.shiftl b 16) in
  WIFEXITED e && negb (WIFSIGNALED e) && negb (WIFSTOPPED e) && (WEXITSTATUS e =? b) &&
  WIFSIGNALED k && negb (WIFEXITED k) && negb (WIFSTOPPED k) && (WTERMSIG k =? b) &&
  WIFSTOPPED s && negb (WIFEXITED s) && negb (WIFSIGNALED s) && (WSTOPSIG s =? b).

Lemma status_bytes_decode b : 0 <= b < 256 -> status_decodes b = true.
Proof.
  intros Hb. assert (forallb (fun n => status_decodes (Z.of_nat n)) (seq 0 256) = true) as Hd
    by (vm_compute; reflexivity).
  rewrite forallb_forall in Hd. specialize (Hd (Z.to_nat b)). rewrite Z2Nat.id in Hd by lia.
  apply Hd, List.in_seq. lia.
Qed.

(** The status word [waitpid] reports decodes, with the macros user programs
    use, to what happened to the child: exactly one of "exited", "killed" and
    "stopped" holds, with the low byte of the exit status or the signal
    number. *)
Theorem wait_status_roundtrip p :
  (let w := wait_status_word p in
   match killed_by_signal p with
   | None => WIFEXITED w = true /\ WIFSIGNALED w = false /\ WIFSTOPPED w = false /\
             WEXITSTATUS w = exit_status p mod 256
   | Some sig => WIFSIGNALED w = true /\ WIFEXITED w = false /\ WIFSTOPPED w = false /\
             WTERMSIG w = to_i32 sig mod 256
   end) /\
  (let w := stop_status_word p in
   match stopped_by_signal p with
   | None => True
   | Some sig => WIFSTOPPED w = true /\ WIFEXITED w = false /\ WIFSIGNALED w = false /\
             WSTOPSIG w = to_i32 sig mod 256
   end).
Proof.
  assert (forall z, Z.land z 255 = z mod 256) as Hm by (intros; by apply (Z.land_ones _ 8)).
  unfold wait_status_word, stop_status_word. split.
  - destruct (killed_by_signal p) as [sig|].
    + pose proof (status_bytes_decode _ (land_255_bound (to_i32 sig))) as Hall; unfold status_decodes in Hall. rewrite <- Hm.
      repeat (apply andb_prop in Hall as [Hall ?]). rewrite ?negb_true_iff in *.
      split_and!; auto. by apply Z.eqb_eq.
    + pose proof (status_bytes_decode _ (land_255_bound (exit_status p))) as Hall; unfold status_decodes in Hall. rewrite <- Hm.
      repeat (apply andb_prop in Hall as [Hall ?]). rewrite ?negb_true_iff in *.
      split_and!; auto. by apply Z.eqb_eq.
  - destruct (stopped_by_signal p) as [sig|]; [|done].
    pose proof (status_bytes_decode _ (land_255_bound (to_i32 sig))) as Hall; unfold status_decodes in Hall. rewrite <- Hm.
    repeat (apply andb_prop in Hall as [Hall ?]). rewrite ?negb_true_iff in *.
    split_and!; auto. by apply Z.eqb_eq.
Qed.

End Process.
