(* ===== verification/Signal.v ===== *)
(** Signal delivery: [kernel/src/process/signal.rs] and the signal system
    calls of [kernel/src/process/syscall/signal.rs].

    [deliver_pending] takes the user memory of the active address space, the
    running process and the trap frame about to be restored, and returns them
    updated with the action the caller must take.  The subtractions on the
    user stack pointer are checked: underflow is a panic. *)

From Stdlib Require Import ZArith Lia.
From stdpp Require Import base gmap list numbers.
From S2P Require Import Prelude Process.

Local Open Scope Z_scope.

Module Signal.
Import Process.

(** ** Model *)

Definition SIGKILL : Z := 9.
Definition SIGUSR1 : Z := 10.
Definition SIGTERM : Z := 15.
Definition SIGCHLD : Z := 17.
Definition SIGCONT : Z := 18.
Definition SIGSTOP : Z := 19.
Definition SIGTSTP : Z := 20.
Definition SIGTTIN : Z := 21.
Definition SIGTTOU : Z := 22.

Definition TRAMPOLINE_VA : Z := 70918499987456. (* 0x0000_407F_FFFF_F000 *)

Inductive SignalOutcome :=
| NoSignal
| Delivered
| Terminate (sig : Z)
| Stop (sig : Z).

Definition bit (sig : Z) : Z := Z.shiftl 1 sig.

Definition default_terminates (sig : Z) : bool :=
  negb (sig =? SIGCHLD) && negb (sig =? SIGCONT).

Definition queue_signal (p : Process) (sig : Z) : Process :=
  if (sig =? 0) || (Z.of_nat NUM_SIGNALS <=? sig) then p
  else p <| pending_signals := Z.lor (pending_signals p) (bit sig) |>.

(** [SignalFrame], [repr(C)]: the saved mask, then the trap frame. *)
Definition frame_words (mask : Z) (tf : TrapFrame) : list Z := mask :: tf_words tf.

Definition frame_bytes (mask : Z) (tf : TrapFrame) : list Z :=
  words_bytes (frame_words mask tf).

Definition FRAME_SIZE : Z := 168.

(** [saturating_sub] of a [u64]. *)
Definition sat_sub (a b : Z) : Z := Z.max 0 (a - b).

Definition push_signal_frame (m : mem) (p : Process) (tf : TrapFrame) (sig handler : Z)
    : may_panic (mem * Process * TrapFrame) :=
  let base := align_down 4 (sat_sub (rsp tf) 128) in
  if base <? FRAME_SIZE then Panic else
  let frame_base := align_down 4 (base - FRAME_SIZE) in
  if frame_base <? 8 then Panic else
  let tramp_slot := frame_base - 8 in
  let m1 := write_bytes m frame_base (frame_bytes (blocked_signals p) tf) in
  let m2 := write_bytes m1 tramp_slot (to_le 8 TRAMPOLINE_VA) in
  Ok (m2,
      p <| blocked_signals := Z.lor (blocked_signals p) (bit sig) |>,
      tf <| rdi := sig |> <| rip := handler |> <| rsp := tramp_slot |>).

Definition pop_signal_frame (m : mem) (p : Process) (user_rsp : Z) : Process * TrapFrame :=
  (p <| blocked_signals := read_word m user_rsp |>,
   tf_of_words (fun i => read_word m (user_rsp + 8 + 8 * Z.of_nat i))).

Definition deliver_pending (m : mem) (p : Process) (tf : TrapFrame)
    : may_panic (mem * Process * TrapFrame * SignalOutcome) :=
  let deliverable := Z.ldiff (pending_signals p) (blocked_signals p) in
  if deliverable =? 0 then Ok (m, p, tf, NoSignal) else
  let sig := trailing_zeros 64 deliverable in
  let p1 := p <| pending_signals := Z.ldiff (pending_signals p) (bit sig) |> in
  match signal_handlers p1 !! Z.to_nat sig with
  | None => Panic
  | Some act =>
      if sig =? SIGSTOP then Ok (m, p1, tf, Stop sig) else
      match act with
      | Ignore => Ok (m, p1, tf, NoSignal)
      | Default =>
          if (sig =? SIGTSTP) || (sig =? SIGTTIN) || (sig =? SIGTTOU)
          then Ok (m, p1, tf, Stop sig)
          else if default_terminates sig then Ok (m, p1, tf, Terminate sig)
          else Ok (m, p1, tf, NoSignal)
      | Handler addr =>
          '(m', p', tf') ← push_signal_frame m p1 tf sig addr;
          Ok (m', p', tf', Delivered)
      end
  end.

(** *** System calls *)

Definition EFAULT : Z := -14.
Definition EINVAL : Z := -22.
Definition ESRCH : Z := -3.

Definition USER_SPACE_MAX : Z := 140737488355328. (* 0x0000_8000_0000_0000 *)

Definition validate_user_buffer (addr size : Z) : option Z :=
  if addr =? 0 then Some EFAULT
  else if 2 ^ 64 <=? addr + size then Some EFAULT
  else if (USER_SPACE_MAX <=? addr) || (USER_SPACE_MAX <? addr + size) then Some EFAULT
  else None.

(** [if ptr != 0 { validate_user_buffer(ptr, 8)?; }] *)
Definition validate_opt (ptr : Z) : option Z :=
  if ptr =? 0 then None else validate_user_buffer ptr 8.

Definition action_of_addr (a : Z) : SignalAction :=
  if a =? 0 then Default else if a =? 1 then Ignore else Handler a.

Definition addr_of_action (act : SignalAction) : Z :=
  match act with Default => 0 | Ignore => 1 | Handler a => a end.

(** [sys_sigaction] on the running process ([None]: no process, [ESRCH]). *)
Definition sys_sigaction (m : mem) (running : option Process) (sig act_ptr oldact_ptr : Z)
    : may_panic (mem * option Process * Z) :=
  if (sig =? 0) || (Z.of_nat NUM_SIGNALS <=? sig) || (sig =? SIGKILL) || (sig =? SIGSTOP)
  then Ok (m, running, EINVAL) else
  match validate_opt act_ptr, validate_opt oldact_ptr with
  | Some e, _ => Ok (m, running, e)
  | None, Some e => Ok (m, running, e)
  | None, None =>
      match running with
      | None => Ok (m, None, ESRCH)
      | Some p =>
          old ← unwrap (signal_handlers p !! Z.to_nat sig);
          let p' := if act_ptr =? 0 then p
                    else p <| signal_handlers :=
                           <[Z.to_nat sig := action_of_addr (read_word m act_ptr)]>
                             (signal_handlers p) |> in
          let m' := if oldact_ptr =? 0 then m
                    else write_bytes m oldact_ptr (to_le 8 (addr_of_action old)) in
          Ok (m', Some p', 0)
      end
  end.

Definition SIG_BLOCK : Z := 0.
Definition SIG_UNBLOCK : Z := 1.
Definition SIG_SETMASK : Z := 2.

Definition sys_sigprocmask (m : mem) (running : option Process) (how set_ptr oldset_ptr : Z)
    : mem * option Process * Z :=
  match validate_opt set_ptr, validate_opt oldset_ptr with
  | Some e, _ => (m, running, e)
  | None, Some e => (m, running, e)
  | None, None =>
      match running with
      | None => (m, None, ESRCH)
      | Some p =>
          let old_mask := blocked_signals p in
          let new_mask :=
            if set_ptr =? 0 then Some old_mask else
            let set := Z.ldiff (read_word m set_ptr) (bit SIGKILL) in
            if how =? SIG_BLOCK then Some (Z.lor old_mask set)
            else if how =? SIG_UNBLOCK then Some (Z.ldiff old_mask set)
            else if how =? SIG_SETMASK then Some set
            else None in
          match new_mask with
          | None => (m, running, EINVAL)
          | Some v =>
              let m' := if oldset_ptr =? 0 then m
                        else write_bytes m oldset_ptr (to_le 8 old_mask) in
              (m', Some (p <| blocked_signals := v |>), 0)
          end
      end
  end.

(** [sys_sigreturn]: the live frame [tf] is replaced; the result is its [rax]. *)
Definition sys_sigreturn (m : mem) (running : option Process) (tf : TrapFrame)
    : option Process * TrapFrame * Z :=
  match running with
  | None => (None, tf, ESRCH)
  | Some p => let '(p', tf') := pop_signal_frame m p (rsp tf) in (Some p', tf', rax tf')
  end.

(** ** Specification vocabulary *)

Definition tf_ok (tf : TrapFrame) : Prop := Forall (in_width 64) (tf_words tf).

(** The signal part of a process: 64 dispositions, [u64] masks. *)
Record signals_ok (p : Process) : Prop := {
  handlers_len : length (signal_handlers p) = NUM_SIGNALS;
  pending_width : in_width 64 (pending_signals p);
  blocked_width : in_width 64 (blocked_signals p);
}.

Definition pending (p : Process) (sig : Z) : bool := Z.testbit (pending_signals p) sig.
Definition blocked (p : Process) (sig : Z) : bool := Z.testbit (blocked_signals p) sig.
Definition deliverable (p : Process) (sig : Z) : bool := pending p sig && negb (blocked p sig).

(** ** Lemmas *)

Lemma bit_testbit sig i : 0 <= sig -> 0 <= i -> Z.testbit (bit sig) i = (i =? sig).
Proof.
  intros. unfold bit. rewrite Z.shiftl_1_l. case_bools; subst.
  - by apply Z.pow2_bits_true.
  - by apply Z.pow2_bits_false; lia.
Qed.

Lemma bit_width sig : 0 <= sig < 64 -> in_width 64 (bit sig).
Proof.
  intros. unfold bit, in_width. rewrite Z.shiftl_1_l. split; [lia|].
  apply Z.pow_lt_mono_r; lia.
Qed.

Lemma lor_width w a b : 0 <= w -> in_width w a -> in_width w b -> in_width w (Z.lor a b).
Proof.
  intros Hw Ha Hb. split; [apply Z.lor_nonneg; split; [apply Ha|apply Hb]|].
  apply bits_bound; [done|apply Z.lor_nonneg; split; [apply Ha|apply Hb]|].
  intros i. rewrite Z.lor_spec, orb_true_iff.
  intros [Hi|Hi]; [by apply (testbit_bound w a)|by apply (testbit_bound w b)].
Qed.

Lemma ldiff_width w a b : 0 <= w -> in_width w a -> in_width w (Z.ldiff a b).
Proof.
  intros Hw Ha. assert (0 <= Z.ldiff a b) by (apply Z.ldiff_nonneg; left; apply Ha).
  split; [done|]. apply bits_bound; [done..|].
  intros i. rewrite Z.ldiff_spec, andb_true_iff. intros [Hi _]. by apply (testbit_bound w a).
Qed.

Lemma length_frame_bytes mask tf : length (frame_bytes mask tf) = 168%nat.
Proof. unfold frame_bytes. by rewrite length_words_bytes. Qed.

Lemma sat_sub_eq a b : b <= a -> sat_sub a b = a - b.
Proof. unfold sat_sub. lia. Qed.

(** Where the frame goes, for any stack pointer with room for it. *)
Lemma frame_layout r :
  320 <= r ->
  let base := align_down 4 (sat_sub r 128) in
  FRAME_SIZE <= base /\ base <= r - 128 /\
  align_down 4 (base - FRAME_SIZE) = base - 176 /\ 16 <= base - 176 /\ base mod 16 = 0.
Proof.
  intros Hr base. unfold base. rewrite sat_sub_eq by lia.
  pose proof (align_down_bounds 4 (r - 128) ltac:(lia)) as Hb.
  pose proof (align_down_mod 4 (r - 128) ltac:(lia)) as Hm.
  change (2 ^ 4) with 16 in *. set (b := align_down 4 (r - 128)) in *.
  unfold FRAME_SIZE. rewrite !align_down_eq by lia. change (2 ^ 4) with 16.
  assert (b = 16 * (b / 16)) as Hb16 by (pose proof (Z.div_mod b 16); lia).
  set (q := b / 16) in *. split_and!; [lia|lia| |lia|done].
  rewrite Hb16. replace (16 * q - 168) with (8 + (q - 11) * 16) by lia.
  rewrite Z.div_add by lia. change (8 / 16) with 0. lia.
Qed.

Lemma push_signal_frame_ok m p tf sig h :
  320 <= rsp tf ->
  exists fb, push_signal_frame m p tf sig h =
    Ok (write_bytes (write_bytes m fb (frame_bytes (blocked_signals p) tf))
          (fb - 8) (to_le 8 TRAMPOLINE_VA),
        p <| blocked_signals := Z.lor (blocked_signals p) (bit sig) |>,
        tf <| rdi := sig |> <| rip := h |> <| rsp := fb - 8 |>) /\
    fb mod 16 = 0 /\ 16 <= fb /\ fb + FRAME_SIZE <= rsp tf - 128.
Proof.
  intros Hr. pose proof (frame_layout (rsp tf) Hr) as (H1 & H2 & H3 & H4 & H5).
  set (base := align_down 4 (sat_sub (rsp tf) 128)) in *.
  exists (base - 176). unfold push_signal_frame. fold base.
  rewrite (proj2 (Z.ltb_ge base FRAME_SIZE)) by done. cbv zeta. rewrite H3.
  rewrite (proj2 (Z.ltb_ge (base - 176) 8)) by lia.
  unfold FRAME_SIZE in *. split_and!; [done| |lia|lia].
  replace (base - 176) with (base + (-11) * 16) by lia. by rewrite Z.mod_add.
Qed.

(** Reading back a frame from memory that still holds it. *)
Lemma pop_pushed m m' fb mask tf p :
  tf_ok tf -> in_width 64 mask ->
  (forall x, fb <= x < fb + FRAME_SIZE ->
     m' !! x = write_bytes m fb (frame_bytes mask tf) !! x) ->
  pop_signal_frame m' p fb = (p <| blocked_signals := mask |>, tf).
Proof.
  intros Htf Hmask Hm'.
  assert (Forall (in_width 64) (frame_words mask tf)) as Hws by (by constructor).
  assert (forall i w, frame_words mask tf !! i = Some w ->
    read_word m' (fb + 8 * Z.of_nat i) = w) as Hw.
  { intros i w Hi. pose proof (lookup_lt_Some _ _ _ Hi) as Hlt. simpl in Hlt.
    rewrite <- (read_word_write m fb _ i w Hws Hi). apply read_word_ext.
    intros x Hx. apply Hm'. unfold FRAME_SIZE. lia. }
  unfold pop_signal_frame. f_equal.
  - rewrite <- (Hw 0%nat mask eq_refl). simpl. by rewrite Z.add_0_r.
  - destruct tf; unfold tf_of_words.
    f_equal; (match goal with |- read_word _ (?a + 8 + 8 * Z.of_nat ?i) = ?w =>
      rewrite <- (Hw (S i) w eq_refl); f_equal; lia end).
Qed.

(** A call that stops at a disposition other than a handler. *)
Definition delivery (m : mem) (p : Process) (tf : TrapFrame) (sig : Z)
    (m' : mem) (p' : Process) (tf' : TrapFrame) (out : SignalOutcome) : Prop :=
  (forall i, 0 <= i < sig -> deliverable p i = false) /\
  (forall i, 0 <= i -> pending p' i = pending p i && negb (i =? sig)) /\
  (forall s, out = Terminate s -> s = sig) /\ (forall s, out = Stop s -> s = sig) /\
  (out <> Delivered -> m' = m /\ tf' = tf /\ blocked_signals p' = blocked_signals p).

(** Selection of the signal: the scan of the deliverable mask. *)
Lemma select_signal p :
  signals_ok p ->
  let d := Z.ldiff (pending_signals p) (blocked_signals p) in
  (forall i, 0 <= i -> deliverable p i = Z.testbit d i) /\
  (d <> 0 -> let sig := trailing_zeros 64 d in
     0 <= sig < 64 /\ deliverable p sig = true /\
     (forall i, 0 <= i < sig -> deliverable p i = false) /\
     exists act, signal_handlers p !! Z.to_nat sig = Some act).
Proof.
  intros [Hlen Hpend Hblk] d.
  assert (forall i, 0 <= i -> deliverable p i = Z.testbit d i) as Hd.
  { intros i Hi. unfold d, deliverable, pending, blocked. by rewrite Z.ldiff_spec. }
  split; [done|]. intros H0 sig.
  assert (in_width 64 d) as Hdw by (apply ldiff_width; [lia|done]).
  destruct (trailing_zeros_spec 64 d) as (Hs0 & Hs1 & Hs2); [unfold in_width in *; lia|].
  fold sig in Hs0, Hs1, Hs2.
  assert (sig < 64) as Hs64 by (eapply testbit_bound; [|apply Hdw|done]; lia).
  split_and!; [done|done|by rewrite Hd| |].
  - intros i Hi. rewrite Hd by lia. by apply Hs2.
  - apply lookup_lt_is_Some_2. rewrite Hlen. unfold NUM_SIGNALS. lia.
Qed.

Lemma clear_pending p sig i :
  0 <= sig -> 0 <= i ->
  pending (p <| pending_signals := Z.ldiff (pending_signals p) (bit sig) |>) i =
    pending p i && negb (i =? sig).
Proof. intros. unfold pending; simpl. by rewrite Z.ldiff_spec, bit_testbit. Qed.

(** The lowest deliverable signal is unique. *)
Lemma lowest_unique p a b :
  0 <= a -> 0 <= b -> deliverable p a = true -> deliverable p b = true ->
  (forall i, 0 <= i < a -> deliverable p i = false) ->
  (forall i, 0 <= i < b -> deliverable p i = false) -> a = b.
Proof.
  intros Ha Hb Da Db La Lb. destruct (Z.lt_total a b) as [Hlt|[Heq|Hlt]]; [|done|].
  - rewrite Lb in Da by lia. done.
  - rewrite La in Db by lia. done.
Qed.

Lemma blocked_set p v i : blocked (p <| blocked_signals := v |>) i = Z.testbit v i.
Proof. done. Qed.

Lemma Ok_inj_process {E} (m m' : mem) (p p' : Process) (tf tf' : TrapFrame) (o o' : SignalOutcome) :
  Ok (E := E) (m, p, tf, o) = Ok (m', p', tf', o') -> p' = p.
Proof. by intros [= _ -> _ _]. Qed.

(** Delivery changes only the two masks of the process, and keeps their width. *)
Lemma deliver_pending_process m p tf m' p' tf' out :
  signals_ok p -> deliver_pending m p tf = Ok (m', p', tf', out) ->
  exists pend blk, p' = p <| pending_signals := pend |> <| blocked_signals := blk |> /\ signals_ok p'.
Proof.
  intros Hok. pose proof (select_signal p Hok) as [_ Hsel]. pose proof Hok as [Hl Hp Hb].
  unfold deliver_pending. set (d := Z.ldiff (pending_signals p) (blocked_signals p)) in *.
  destruct (Z.eqb_spec d 0) as [H0|H0].
  { intros [= <- <- <- <-]. exists (pending_signals p), (blocked_signals p). by destruct p. }
  destruct (Hsel H0) as (Hs & _ & _ & act & Hact). set (sig := trailing_zeros 64 d) in *. cbv zeta.
  set (p1 := p <| pending_signals := Z.ldiff (pending_signals p) (bit sig) |>).
  assert (signals_ok p1) as Hok1 by (split; [done|apply ldiff_width; [lia|done]|done]).
  assert (exists pend blk, p1 = p <| pending_signals := pend |> <| blocked_signals := blk |> /\
    signals_ok p1) as Hplain.
  { exists (Z.ldiff (pending_signals p) (bit sig)), (blocked_signals p). done. }
  change (signal_handlers p1) with (signal_handlers p). rewrite Hact. clearbody p1.
  destruct (sig =? SIGSTOP); [by intros ->%Ok_inj_process|].
  destruct act as [| |addr]; [|by intros ->%Ok_inj_process|].
  - destruct (_ || _); [by intros ->%Ok_inj_process|].
    destruct (default_terminates sig); by intros ->%Ok_inj_process.
  - unfold push_signal_frame. destruct (_ <? FRAME_SIZE); [done|]. cbv zeta.
    destruct (_ <? 8); [done|]. cbn [mbind outcome_bind]. intros ->%Ok_inj_process.
    destruct Hplain as (pend & blk & -> & _). eexists pend, _. split; [done|]. destruct Hok1.
    split; [done|done|]. apply lor_width; [lia|done|by apply bit_width].
Qed.

(** The result of delivery on every branch. *)
Lemma deliver_pending_total m p tf :
  signals_ok p -> 320 <= rsp tf ->
  exists m' p' tf' out, deliver_pending m p tf = Ok (m', p', tf', out) /\
    ((forall i, 0 <= i -> deliverable p i = false) /\ m' = m /\ p' = p /\ tf' = tf /\ out = NoSignal
     \/
     exists sig, 0 <= sig < 64 /\ deliverable p sig = true /\ delivery m p tf sig m' p' tf' out).
Proof.
  intros Hok Hrsp. pose proof (select_signal p Hok) as [Hd Hsel].
  unfold deliver_pending. set (d := Z.ldiff (pending_signals p) (blocked_signals p)) in *.
  destruct (Z.eqb_spec d 0) as [H0|H0].
  - eexists _, _, _, _. split; [done|]. left. split_and!; [|done..].
    intros i Hi. by rewrite Hd, H0, Z.bits_0.
  - destruct (Hsel H0) as (Hs & Hdel & Hlow & act & Hact).
    set (sig := trailing_zeros 64 d) in *. cbv zeta.
    set (p1 := p <| pending_signals := Z.ldiff (pending_signals p) (bit sig) |>).
    assert (forall out, (forall s, out = Terminate s -> s = sig) ->
      (forall s, out = Stop s -> s = sig) -> exists m' p' tf' out',
      Ok (E := Empty_set) (m, p1, tf, out) = Ok (m', p', tf', out') /\
      ((forall i, 0 <= i -> deliverable p i = false) /\ m' = m /\ p' = p /\ tf' = tf /\ out' = NoSignal
      \/ exists s, 0 <= s < 64 /\ deliverable p s = true /\ delivery m p tf s m' p' tf' out')) as Hplain.
    { intros out HT HS. exists m, p1, tf, out. split; [done|]. right. exists sig.
      unfold delivery. split_and!; auto; try lia. intros; apply clear_pending; lia. }
    change (signal_handlers p1) with (signal_handlers p).
    rewrite Hact. destruct (sig =? SIGSTOP); [apply Hplain; congruence|].
    destruct act as [| |addr].
    + destruct (_ || _); [apply Hplain; congruence|].
      destruct (default_terminates sig); apply Hplain; congruence.
    + apply Hplain; congruence.
    + destruct (push_signal_frame_ok m p1 tf sig addr Hrsp) as (fb & Heq & _).
      rewrite Heq. cbn [mbind outcome_bind].
      eexists _, _, _, Delivered. split; [done|]. right. exists sig.
      unfold delivery. split_and!; auto; try lia; try congruence.
      intros i Hi. exact (clear_pending p sig i ltac:(lia) Hi).
Qed.

(** ** Properties *)

(** Signal delivery looks only at signals that are pending and not blocked,
    takes the lowest-numbered one, clears just that pending bit, and leaves
    process, frame and memory untouched when there is none.  It never panics
    when the user stack pointer is at least 320. *)
Theorem deliver_pending_lowest m p tf :
  signals_ok p -> 320 <= rsp tf ->
  exists m' p' tf' out, deliver_pending m p tf = Ok (m', p', tf', out) /\
    ((forall i, 0 <= i -> deliverable p i = false) /\ m' = m /\ p' = p /\ tf' = tf /\ out = NoSignal
     \/
     exists sig, 0 <= sig < 64 /\ deliverable p sig = true /\ delivery m p tf sig m' p' tf' out).
Proof. apply deliver_pending_total. Qed.

(** A process with every disposition at its default, for the witnesses. *)
Definition sample_process : Process :=
  new_user (replicate 512 0) 1 7 4194304 70368744177664 0 3.

Definition sample_frame : TrapFrame :=
  tf_zero <| rip := 4194304 |> <| cs := USER_CS |> <| rsp := 70368744177656 |>.

Lemma deliver_pending_lowest_witness :
  let p := queue_signal (queue_signal sample_process SIGTERM) SIGCHLD in
  exists m' p' tf' out, deliver_pending ∅ p sample_frame = Ok (m', p', tf', out) /\
    ((forall i, 0 <= i -> deliverable p i = false) /\ m' = ∅ /\ p' = p /\
       tf' = sample_frame /\ out = NoSignal
     \/
     exists sig, 0 <= sig < 64 /\ deliverable p sig = true /\
       delivery ∅ p sample_frame sig m' p' tf' out).
Proof.
  apply deliver_pending_lowest; [|vm_compute; congruence].
  split; vm_compute; [done|split; congruence..].
Defined.



(** [sigprocmask] changes the running process's mask bit by bit as its
    [how] argument says (block, unblock, set), never starts blocking
    [SIGKILL], returns the previous mask through the old-set pointer, and
    leaves the mask alone when it reports an error. *)
Theorem sigprocmask_spec m p how set_ptr oldset_ptr :
  signals_ok p ->
  exists m' p' ret, sys_sigprocmask m (Some p) how set_ptr oldset_ptr = (m', Some p', ret) /\
    (ret = 0 \/ ret = EINVAL \/ ret = EFAULT) /\ (ret <> 0 -> m' = m /\ p' = p) /\
    (blocked p SIGKILL = false -> blocked p' SIGKILL = false) /\
    (ret = 0 -> set_ptr = 0 -> p' = p) /\
    (ret = 0 -> oldset_ptr <> 0 -> read_word m' oldset_ptr = blocked_signals p) /\
    (ret = 0 -> set_ptr <> 0 -> forall i, 0 <= i ->
       let arg := Z.testbit (read_word m set_ptr) i && negb (i =? SIGKILL) in
       blocked p' i =
         (if how =? SIG_BLOCK then blocked p i || arg
          else if how =? SIG_UNBLOCK then blocked p i && negb arg else arg)).
Proof.
  intros [_ _ Hblk].
  assert (forall z i, 0 <= i ->
    Z.testbit (Z.ldiff z (bit SIGKILL)) i = Z.testbit z i && negb (i =? SIGKILL)) as Hset.
  { intros. by rewrite Z.ldiff_spec, bit_testbit by (done || unfold SIGKILL; lia). }
  assert (forall a, validate_opt a = None \/ validate_opt a = Some EFAULT) as Hv.
  { intros a. unfold validate_opt, validate_user_buffer. repeat case_match; auto. }
  unfold sys_sigprocmask.
  destruct (Hv set_ptr) as [-> | ->]; [|eexists _, _, _; split; [done|]; split_and!; auto; done].
  destruct (Hv oldset_ptr) as [-> | ->]; [|eexists _, _, _; split; [done|]; split_and!; auto; done].
  assert (forall v, read_word (if oldset_ptr =? 0 then m else
     write_bytes m oldset_ptr (to_le 8 (blocked_signals p))) oldset_ptr = v ->
     oldset_ptr <> 0 -> v = blocked_signals p) as Hold.
  { intros v <- Hne. rewrite (proj2 (Z.eqb_neq _ _) Hne). unfold read_word.
    rewrite <- (length_to_le 8 (blocked_signals p)) at 2. rewrite read_write_bytes.
    by apply from_to_le. }
  destruct (Z.eqb_spec set_ptr 0) as [Hs|Hs].
  { eexists _, _, _; split; [done|]. split_and!; eauto; try done. by destruct p. }
  assert (0 <= SIGKILL) as Hk0 by (unfold SIGKILL; lia).
  destruct (Z.eqb_spec how SIG_BLOCK); [|destruct (Z.eqb_spec how SIG_UNBLOCK);
    [|destruct (Z.eqb_spec how SIG_SETMASK)]].
  - eexists _, _, _; split; [done|]; split_and!; eauto; try done.
    + intros Hk. rewrite blocked_set, Z.lor_spec, Hset, Z.eqb_refl by done.
      fold (blocked p SIGKILL). rewrite Hk. apply andb_false_r.
    + intros _ _ i Hi. by rewrite blocked_set, Z.lor_spec, Hset.
  - eexists _, _, _; split; [done|]; split_and!; eauto; try done.
    + intros Hk. rewrite blocked_set, Z.ldiff_spec. fold (blocked p SIGKILL). by rewrite Hk.
    + intros _ _ i Hi. by rewrite blocked_set, Z.ldiff_spec, Hset.
  - eexists _, _, _; split; [done|]; split_and!; eauto; try done.
    + intros Hk. rewrite blocked_set, Hset, Z.eqb_refl by done. apply andb_false_r.
    + intros _ _ i Hi. by rewrite blocked_set, Hset.
  - eexists _, _, _; split; [done|]; split_and!; auto; done.
Qed.

Lemma sigprocmask_spec_witness :
  signals_ok sample_process /\
  exists m' p' ret, sys_sigprocmask (write_bytes ∅ 4096 (to_le 8 1536)) (Some sample_process)
      SIG_BLOCK 4096 8192 = (m', Some p', ret) /\
    (blocked sample_process SIGKILL = false -> blocked p' SIGKILL = false).
Proof.
  assert (signals_ok sample_process) as Hok by (split; vm_compute; [done|split; congruence..]).
  split; [exact Hok|].
  destruct (sigprocmask_spec (write_bytes ∅ 4096 (to_le 8 1536)) sample_process
    SIG_BLOCK 4096 8192 Hok) as (m' & p' & ret & He & _ & _ & Hk & _).
  exists m', p', ret. split; [exact He|exact Hk].
Defined.

(** A disposition installed with [sigaction] is the one a later call reports
    as the old action, as the same pointer value; [SIGKILL] and [SIGSTOP] are
    refused, so their dispositions stay at what they were. *)
Theorem sigaction_roundtrip m m' p sig act_ptr old_ptr :
  signals_ok p -> in_width 64 sig -> bytes_ok (read_bytes m act_ptr 8) ->
  act_ptr <> 0 -> old_ptr <> 0 ->
  validate_user_buffer act_ptr 8 = None -> validate_user_buffer old_ptr 8 = None ->
  if (sig =? 0) || (Z.of_nat NUM_SIGNALS <=? sig) || (sig =? SIGKILL) || (sig =? SIGSTOP)
  then sys_sigaction m (Some p) sig act_ptr old_ptr = Ok (m, Some p, EINVAL)
  else exists p1 m2, sys_sigaction m (Some p) sig act_ptr 0 = Ok (m, Some p1, 0) /\
       signals_ok p1 /\
       (forall i, i <> Z.to_nat sig -> signal_handlers p1 !! i = signal_handlers p !! i) /\
       sys_sigaction m' (Some p1) sig 0 old_ptr = Ok (m2, Some p1, 0) /\
       read_word m2 old_ptr = read_word m act_ptr.
Proof.
  intros [Hlen Hp Hb] Hsig Hbytes Ha Ho Hva Hvo. unfold sys_sigaction.
  destruct (_ || _ || _ || _) eqn:Hbad; [done|].
  apply orb_false_elim in Hbad as [Hbad _]. apply orb_false_elim in Hbad as [Hbad _].
  apply orb_false_elim in Hbad as [_ Hn]. apply Z.leb_gt in Hn.
  assert (Z.to_nat sig < length (signal_handlers p))%nat as Hlt.
  { rewrite Hlen. unfold in_width in Hsig. lia. }
  destruct (lookup_lt_is_Some_2 _ _ Hlt) as [old Hold].
  unfold validate_opt. rewrite (proj2 (Z.eqb_neq _ _) Ha), (proj2 (Z.eqb_neq _ _) Ho), Hva, Hvo.
  rewrite Hold. cbn [unwrap mbind outcome_bind Z.eqb].
  set (act := action_of_addr (read_word m act_ptr)).
  set (p1 := p <| signal_handlers := <[Z.to_nat sig := act]> (signal_handlers p) |>).
  assert (signal_handlers p1 !! Z.to_nat sig = Some act) as H1 by by apply list_lookup_insert_eq.
  exists p1, (write_bytes m' old_ptr (to_le 8 (addr_of_action act))). split_and!.
  - done.
  - split; [|done..]. unfold p1. simpl signal_handlers. by rewrite length_insert.
  - intros i Hi. by apply list_lookup_insert_ne.
  - by rewrite H1.
  - unfold read_word at 1. rewrite <- (length_to_le 8 (addr_of_action act)) at 2.
    rewrite read_write_bytes, from_to_le.
    + unfold act, action_of_addr. case_bools; simpl; lia.
    + replace (addr_of_action act) with (read_word m act_ptr)
        by (unfold act, action_of_addr; case_bools; simpl; lia).
      unfold read_word. pose proof (from_le_bound _ Hbytes) as Hr. by rewrite length_read_bytes in Hr.
Qed.

Lemma sigaction_roundtrip_witness :
  let m := write_bytes ∅ 4096 (to_le 8 4198400) in
  exists p1 m2, sys_sigaction m (Some sample_process) SIGUSR1 4096 0 = Ok (m, Some p1, 0) /\
    signals_ok p1 /\
    (forall i, i <> Z.to_nat SIGUSR1 ->
       signal_handlers p1 !! i = signal_handlers sample_process !! i) /\
    sys_sigaction ∅ (Some p1) SIGUSR1 0 8192 = Ok (m2, Some p1, 0) /\
    read_word m2 8192 = read_word m 4096.
Proof.
  apply (sigaction_roundtrip (write_bytes ∅ 4096 (to_le 8 4198400)) ∅ sample_process
    SIGUSR1 4096 8192); [|split; vm_compute; congruence| |congruence|congruence|reflexivity..].
  - split; vm_compute; [done|split; congruence..].
  - repeat constructor; vm_compute; congruence.
Defined.

(** [rt_sigreturn] trusts the frame it finds on the user stack: for any
    register contents and any mask there is a user memory that makes the call
    install exactly those, a kernel code selector and a blocked [SIGKILL]
    included, whatever the process's own registers were. *)
Theorem sigreturn_trusts_frame p live forged mask :
  tf_ok forged -> in_width 64 mask ->
  exists m, sys_sigreturn m (Some p) live =
    (Some (p <| blocked_signals := mask |>), forged, rax forged).
Proof.
  intros Hf Hmask. exists (write_bytes ∅ (rsp live) (frame_bytes mask forged)).
  unfold sys_sigreturn. by rewrite (pop_pushed ∅ _ (rsp live) mask forged).
Qed.

Lemma sigreturn_trusts_frame_witness :
  let forged := sample_frame <| cs := 8 |> in
  exists m, sys_sigreturn m (Some sample_process) sample_frame =
    (Some (sample_process <| blocked_signals := bit SIGKILL |>), forged, rax forged).
Proof.
  apply sigreturn_trusts_frame.
  - repeat constructor; vm_compute; congruence.
  - vm_compute; split; congruence.
Defined.

End Signal.
