(* ===== verification/Waiters.v ===== *)
(** Side tables of blocked processes: the poll/epoll tables of
    [kernel/src/process/syscall/poll.rs] and the futex table of
    [kernel/src/process/syscall/sync.rs].

    Each table is a fixed array indexed by pid ([MAX_PROCS] slots); a pid past
    the end of it has no slot, and every access is guarded by that test.  The
    tables share one record with the timer queue because cancelling a poll
    waiter cancels its timer. *)

From Stdlib Require Import ZArith Lia.
From stdpp Require Import base numbers list.
From S2P Require Import Prelude HrTimer.

Local Open Scope Z_scope.

Module Waiters.

(** ** Model *)

Definition MAX_PROCS : Z := 32.
Definition MAX_FILES_PER_PROC : Z := 16.

Inductive PollWaiterKind :=
| Poll (nfds : Z)
| EpollWait (epoll_id maxevents : Z).

Record PollWaiter := mkPollWaiter {
  pw_pid : Z;
  phys_buf : Z;
  phys_len : Z;
  kind : PollWaiterKind;
  timer_id : option Z;
}.

Record FutexWaiter := mkFutexWaiter { uaddr : Z; as_id : Z }.

Record Tables := mkTables {
  poll_waiters : list (option PollWaiter);
  epoll_fd_map : list (list Z);
  futex_waiters : list (option FutexWaiter);
  hrtimers : HrTimer.HrTimerQueue;
}.

#[global] Instance Tables_fields : Fields Tables := fun t =>
  mkTables (poll_waiters t) (epoll_fd_map t) (futex_waiters t) (hrtimers t).

Definition tables_init : Tables :=
  mkTables (replicate 32 None) (replicate 32 (replicate 16 0)) (replicate 32 None) HrTimer.new.

(** *** Epoll instances *)

Record EpollWatch := mkEpollWatch {
  fd : Z; events : Z; data : Z; edge_triggered : bool; et_delivered : bool;
}.

Record EpollInstance := mkEpollInstance {
  watches : list (option EpollWatch);
  owner_pid : Z;
}.

(** [EpollInstanceTable::alloc]: the first free slot, ids are 1-based. *)
Fixpoint epoll_alloc_from (i : Z) (slots : list (option EpollInstance)) (owner : Z)
    : list (option EpollInstance) * option Z :=
  match slots with
  | [] => ([], None)
  | None :: rest => (Some (mkEpollInstance (replicate 16 None) owner) :: rest, Some (i + 1))
  | Some e :: rest =>
      let '(rest', r) := epoll_alloc_from (i + 1) rest owner in (Some e :: rest', r)
  end.

Definition epoll_alloc := epoll_alloc_from 0.

Definition epoll_free (slots : list (option EpollInstance)) (id : Z) : list (option EpollInstance) :=
  if (1 <=? id) && (id <=? 16) then <[Z.to_nat (id - 1) := None]> slots else slots.

Definition epoll_get (slots : list (option EpollInstance)) (id : Z) : option EpollInstance :=
  if (1 <=? id) && (id <=? 16) then slots !!! Z.to_nat (id - 1) else None.

Definition get_epoll_fd (t : Tables) (pid fd : Z) : Z :=
  if (pid <? MAX_PROCS) && (fd <? MAX_FILES_PER_PROC)
  then (epoll_fd_map t !!! Z.to_nat pid) !!! Z.to_nat fd else 0.

Definition set_epoll_fd (t : Tables) (pid fd epoll_id : Z) : Tables :=
  if (pid <? MAX_PROCS) && (fd <? MAX_FILES_PER_PROC)
  then t <| epoll_fd_map := alter (fun row => <[Z.to_nat fd := epoll_id]> row) (Z.to_nat pid)
                              (epoll_fd_map t) |>
  else t.

Definition clear_epoll_fd_all (t : Tables) (pid : Z) : Tables :=
  if pid <? MAX_PROCS
  then t <| epoll_fd_map := <[Z.to_nat pid := replicate 16 0]> (epoll_fd_map t) |> else t.

(** *** Cancelling *)

Definition poll_cancel_waiter (t : Tables) (pid : Z) : Tables :=
  if MAX_PROCS <=? pid then t else
  let w := poll_waiters t !!! Z.to_nat pid in
  let t1 := t <| poll_waiters := <[Z.to_nat pid := None]> (poll_waiters t) |> in
  match w with
  | Some pw =>
      match timer_id pw with
      | Some tid => t1 <| hrtimers := fst (HrTimer.cancel (hrtimers t1) tid) |>
      | None => t1
      end
  | None => t1
  end.

Definition poll_clear_on_timeout (t : Tables) (pid : Z) : Tables :=
  if MAX_PROCS <=? pid then t
  else t <| poll_waiters := <[Z.to_nat pid := None]> (poll_waiters t) |>.

Definition futex_cancel_waiter (t : Tables) (pid : Z) : Tables :=
  if pid <? MAX_PROCS
  then t <| futex_waiters := <[Z.to_nat pid := None]> (futex_waiters t) |> else t.

Definition cancel_all_waiters (t : Tables) (pid : Z) : Tables :=
  futex_cancel_waiter (clear_epoll_fd_all (poll_cancel_waiter t pid) pid) pid.

(** *** Futex table *)

(** Registration by FUTEX_WAIT. *)
Definition futex_register (t : Tables) (pid ua asid : Z) : Tables :=
  if pid <? MAX_PROCS
  then t <| futex_waiters := <[Z.to_nat pid := Some (mkFutexWaiter ua asid)]> (futex_waiters t) |>
  else t.

(** The scan of FUTEX_WAKE: [woken] already collected, 8 at most. *)
Fixpoint futex_scan (ua asid max_wake : Z) (pid : Z) (slots : list (option FutexWaiter))
    (woken : list Z) : list (option FutexWaiter) * list Z :=
  match slots with
  | [] => ([], woken)
  | slot :: rest =>
      if (8 <=? Z.of_nat (length woken)) || (max_wake <=? Z.of_nat (length woken))
      then (slots, woken)
      else match slot with
           | Some w =>
               if (uaddr w =? ua) && (as_id w =? asid)
               then let '(rest', r) := futex_scan ua asid max_wake (pid + 1) rest (woken ++ [pid])
                    in (None :: rest', r)
               else let '(rest', r) := futex_scan ua asid max_wake (pid + 1) rest woken
                    in (slot :: rest', r)
           | None => let '(rest', r) := futex_scan ua asid max_wake (pid + 1) rest woken
                     in (slot :: rest', r)
           end
  end.

Definition futex_collect (t : Tables) (ua asid val : Z) : Tables * list Z :=
  let max_wake := if val <=? 0 then 2 ^ 31 - 1 else val in
  let '(slots, woken) := futex_scan ua asid max_wake 0 (futex_waiters t) [] in
  (t <| futex_waiters := slots |>, woken).

(** ** Specification vocabulary *)

Record tables_ok (t : Tables) : Prop := {
  poll_len : length (poll_waiters t) = 32%nat;
  epoll_len : length (epoll_fd_map t) = 32%nat;
  futex_len : length (futex_waiters t) = 32%nat;
}.

(** The futex word [pid] sleeps on, if any. *)
Definition futex_of (t : Tables) (pid : Z) : option FutexWaiter :=
  if 0 <=? pid then mjoin (futex_waiters t !! Z.to_nat pid) else None.

(** Indices, from [base], of the slots waiting on a word. *)
Fixpoint waiting_on (ua asid base : Z) (slots : list (option FutexWaiter)) : list Z :=
  match slots with
  | [] => []
  | Some w :: rest =>
      if (uaddr w =? ua) && (as_id w =? asid) then base :: waiting_on ua asid (base + 1) rest
      else waiting_on ua asid (base + 1) rest
  | None :: rest => waiting_on ua asid (base + 1) rest
  end.

(** ** Lemmas *)

Lemma futex_scan_woken ua asid mx pid slots woken :
  snd (futex_scan ua asid mx pid slots woken) =
    woken ++ take (Z.to_nat (Z.min 8 mx) - length woken) (waiting_on ua asid pid slots).
Proof.
  revert pid woken; induction slots as [|slot rest IH]; intros pid woken; cbn [futex_scan waiting_on].
  - by rewrite take_nil, app_nil_r.
  - destruct (_ || _) eqn:Hfull.
    { replace (Z.to_nat (Z.min 8 mx) - length woken)%nat with 0%nat
        by (apply orb_true_iff in Hfull as [H|H]; apply Z.leb_le in H; lia).
      by rewrite take_0, app_nil_r. }
    apply orb_false_elim in Hfull as [H8 Hmx]. apply Z.leb_gt in H8, Hmx.
    destruct slot as [w|].
    + destruct (_ && _).
      * specialize (IH (pid + 1) (woken ++ [pid])). destruct (futex_scan _ _ _ _ _ _) as [r x].
        simpl in *. rewrite IH. rewrite length_app; cbn [length].
        destruct (Z.to_nat (Z.min 8 mx) - length woken)%nat as [|n] eqn:Hn; [lia|].
        cbn [take]. rewrite <- app_assoc. simpl. do 3 f_equal. lia.
      * specialize (IH (pid + 1) woken). destruct (futex_scan _ _ _ _ _ _). by simpl in *.
    + specialize (IH (pid + 1) woken). destruct (futex_scan _ _ _ _ _ _). by simpl in *.
Qed.

Lemma waiting_on_ge ua asid slots b : Forall (fun p => b <= p) (waiting_on ua asid b slots).
Proof.
  revert b; induction slots as [|slot rest IH]; intros b; simpl; [constructor|].
  assert (Forall (fun p => b <= p) (waiting_on ua asid (b + 1) rest)) as H.
  { eapply list.Forall_impl; [apply (IH (b + 1))|]. intros p ?; simpl in *; lia. }
  destruct slot as [w|]; [|done]. destruct (_ && _); [constructor; [lia|done]|done].
Qed.

Lemma futex_scan_slots ua asid mx pid slots woken i :
  Forall (fun p => p < pid) woken ->
  fst (futex_scan ua asid mx pid slots woken) !! i =
    (if decide (pid + Z.of_nat i ∈ snd (futex_scan ua asid mx pid slots woken))
     then (fun _ => None) <$> slots !! i else slots !! i).
Proof.
  revert pid woken i; induction slots as [|slot rest IH]; intros pid woken i Hlt; cbn [futex_scan].
  - simpl. rewrite lookup_nil. by case_decide.
  - destruct (_ || _).
    { simpl fst; simpl snd. rewrite decide_False; [done|].
      intros Hin. rewrite list.Forall_forall in Hlt. apply Hlt in Hin. lia. }
    assert (forall woken', Forall (fun p => p < pid + 1) woken' ->
      (pid ∈ woken' <-> pid ∈ snd (futex_scan ua asid mx (pid + 1) rest woken'))) as Hpid.
    { intros woken' Hw. rewrite futex_scan_woken, elem_of_app. split; [by left|].
      intros [|Hin]; [done|]. exfalso.
      apply list_elem_of_lookup in Hin as (k & Hk). rewrite lookup_take_Some in Hk. destruct Hk as [Hk _]. pose proof (waiting_on_ge ua asid rest (pid + 1)) as Hf.
      rewrite list.Forall_lookup in Hf. apply Hf in Hk. lia. }
    assert (Forall (fun p => p < pid + 1) woken) as Hlt' by (eapply list.Forall_impl; [exact Hlt|]; simpl; lia).
    assert (pid ∉ woken) as Hnot by (rewrite list.Forall_forall in Hlt; intros Hin; apply Hlt in Hin; lia).
    destruct slot as [w|]; [destruct (_ && _)|].
    + assert (Forall (fun p => p < pid + 1) (woken ++ [pid])) as Hlt2.
      { apply list.Forall_app. split; [done|]. constructor; [lia|constructor]. }
      specialize (Hpid _ Hlt2). pose proof (fun j => IH (pid + 1) (woken ++ [pid]) j Hlt2) as IH'.
      destruct (futex_scan _ _ _ _ _ _) as [r x]. simpl fst in *; simpl snd in *.
      destruct i as [|i]; simpl lookup.
      * rewrite Z.add_0_r, decide_True; [done|]. apply Hpid, elem_of_app. right. by left.
      * cbn. rewrite IH'. by replace (pid + 1 + Z.of_nat i) with (pid + Z.of_nat (S i)) by lia.
    + specialize (Hpid _ Hlt'). pose proof (fun j => IH (pid + 1) woken j Hlt') as IH'.
      destruct (futex_scan _ _ _ _ _ _) as [r x]. simpl fst in *; simpl snd in *.
      destruct i as [|i].
      * rewrite Z.add_0_r, decide_False by tauto. done.
      * cbn. rewrite IH'. by replace (pid + 1 + Z.of_nat i) with (pid + Z.of_nat (S i)) by lia.
    + specialize (Hpid _ Hlt'). pose proof (fun j => IH (pid + 1) woken j Hlt') as IH'.
      destruct (futex_scan _ _ _ _ _ _) as [r x]. simpl fst in *; simpl snd in *.
      destruct i as [|i].
      * rewrite Z.add_0_r, decide_False by tauto. done.
      * cbn. rewrite IH'. by replace (pid + 1 + Z.of_nat i) with (pid + Z.of_nat (S i)) by lia.
Qed.

Lemma elem_of_waiting_on ua asid slots b pid :
  pid ∈ waiting_on ua asid b slots ->
  b <= pid /\ slots !! Z.to_nat (pid - b) = Some (Some (mkFutexWaiter ua asid)).
Proof.
  revert b; induction slots as [|slot rest IH]; intros b; cbn [waiting_on]; [by intros ?%elem_of_nil|].
  assert (pid ∈ waiting_on ua asid (b + 1) rest ->
    b <= pid /\ (slot :: rest) !! Z.to_nat (pid - b) = Some (Some (mkFutexWaiter ua asid))) as Hrest.
  { intros Hin. destruct (IH _ Hin) as [Hle Hl]. split; [lia|].
    replace (Z.to_nat (pid - b)) with (S (Z.to_nat (pid - (b + 1)))) by lia. done. }
  destruct slot as [w|]; [|done].
  destruct (_ && _) eqn:Hw; [|done]. intros [->|Hin]%elem_of_cons; [|auto].
  split; [lia|]. rewrite Z.sub_diag. apply andb_prop in Hw as [H1 H2].
  apply Z.eqb_eq in H1, H2. destruct w; simpl in *; by subst.
Qed.

Lemma length_futex_scan ua asid mx pid slots woken :
  length (fst (futex_scan ua asid mx pid slots woken)) = length slots.
Proof.
  revert pid woken; induction slots as [|slot rest IH]; intros pid woken; cbn [futex_scan]; [done|].
  destruct (_ || _); [done|].
  destruct slot as [w|]; [destruct (_ && _)|];
    (match goal with |- context [futex_scan ?a ?b ?c ?d ?e ?f] =>
       specialize (IH d f); destruct (futex_scan a b c d e f) end; simpl in *; congruence).
Qed.

(** ** Properties *)

(** FUTEX_WAKE picks the lowest-numbered processes that sleep on exactly
    this word of exactly this address space, at most 8 of them and at most
    [val] when [val] is positive; it clears their table slots and no others. *)
Theorem futex_collect_spec t ua asid val :
  let '(t', woken) := futex_collect t ua asid val in
  woken = take (Z.to_nat (Z.min 8 (if val <=? 0 then 2 ^ 31 - 1 else val)))
            (waiting_on ua asid 0 (futex_waiters t)) /\
  (forall pid, pid ∈ woken -> futex_of t pid = Some (mkFutexWaiter ua asid)) /\
  (forall pid, futex_of t' pid = if decide (pid ∈ woken) then None else futex_of t pid) /\
  poll_waiters t' = poll_waiters t /\ epoll_fd_map t' = epoll_fd_map t /\ hrtimers t' = hrtimers t.
Proof.
  unfold futex_collect. set (mx := if val <=? 0 then 2 ^ 31 - 1 else val).
  pose proof (futex_scan_woken ua asid mx 0 (futex_waiters t) []) as Hw.
  pose proof (fun i => futex_scan_slots ua asid mx 0 (futex_waiters t) [] i (List.Forall_nil _)) as Hs.
  destruct (futex_scan _ _ _ _ _ _) as [slots woken]. simpl fst in *; simpl snd in *.
  rewrite Nat.sub_0_r in Hw. simpl in Hw. split; [done|].
  assert (forall pid, pid ∈ woken -> futex_of t pid = Some (mkFutexWaiter ua asid) /\ 0 <= pid) as Hin.
  { intros pid. rewrite Hw. intros Hp. apply list_elem_of_lookup in Hp as (k & Hk).
    rewrite lookup_take_Some in Hk. destruct Hk as [Hk _].
    apply list_elem_of_lookup_2, elem_of_waiting_on in Hk as [Hle Hk].
    rewrite Z.sub_0_r in Hk. unfold futex_of. rewrite (proj2 (Z.leb_le 0 pid)) by done.
    by rewrite Hk. }
  split; [by intros; apply Hin|]. split_and!; [|done..].
  intros pid. unfold futex_of. simpl futex_waiters.
  destruct (Z.leb_spec 0 pid) as [Hp|Hp].
  - rewrite Hs. rewrite Z.add_0_l, Z2Nat.id by done.
    destruct (decide (pid ∈ woken)); [|done]. by destruct (futex_waiters t !! Z.to_nat pid).
  - by destruct (decide _).
Qed.

End Waiters.
