(* ===== verification/Scheduler.v ===== *)
(** The process scheduler: [kernel/src/process/scheduler.rs].

    [Scheduler] is the record of the source (the content of one CPU's
    [SCHEDULERS] mutex).  What its methods do to the processor is explicit in
    [Cpu]: the FS base register, the FPU registers, the active page table, the
    stack of the TSS, the per-CPU fast-path pointers, and the register frame
    the entry code pushed on the kernel stack ([live_tf]).  A
    [*const TrapFrame] is one of two places: that live frame, or the boxed
    frame of the process in [running].

    User memory is kept per address space; the kernel reaches the one that is
    active.  [resolve_signals] also touches the side tables of blocked
    processes ([Waiters]).  Loops that are not structural take fuel, and
    running out of it is the outcome [Err OutOfFuel]; the theorems show that
    the fuel given always suffices.  Log output and the lock's assertions are
    left out: every method runs with the lock held and interrupts off. *)

From Stdlib Require Import ZArith Lia.
From stdpp Require Import base numbers gmap list.
From S2P Require Import Prelude Process Signal HrTimer Waiters.

Local Open Scope Z_scope.

Module Scheduler.
Import Process Signal.

(** ** Model *)

Definition NUM_PRIORITIES : nat := 11.
Definition BASE_QUANTUM : Z := 2.
Definition PRIORITY_QUANTUM_BONUS : Z := 1.
Definition AGING_EPOCH : Z := 50.
Definition MIN_EFFECTIVE_PRIORITY : Z := 1.

Record Scheduler := mkScheduler {
  run_queues : list (list Process);
  wait_queue : list Process;
  running : option Process;
  remaining_ticks : Z;
  global_ticks : Z;
  next_pid : Z;
  pending_stack_frees : list Z;
  pending_vma_frees : list (Z * Z * Z);
}.

#[export] Instance Scheduler_fields : Fields Scheduler := fun s =>
  mkScheduler (run_queues s) (wait_queue s) (running s) (remaining_ticks s)
    (global_ticks s) (next_pid s) (pending_stack_frees s) (pending_vma_frees s).

Definition new : Scheduler := mkScheduler (replicate NUM_PRIORITIES []) [] None 0 0 1 [] [].

Record Cpu := mkCpu {
  msr_fs_base : Z;
  fpu_regs : list Z;
  active_as : Z;
  tss_rsp0 : Z;
  current_as_ptr : option Z;
  current_pid_fast : Z;
  live_tf : TrapFrame;
}.

#[export] Instance Cpu_fields : Fields Cpu := fun c =>
  mkCpu (msr_fs_base c) (fpu_regs c) (active_as c) (tss_rsp0 c)
    (current_as_ptr c) (current_pid_fast c) (live_tf c).

(** [*const TrapFrame]. *)
Inductive TfPtr := Live | Saved.

Inductive stuck := OutOfFuel.

(** A boxed frame exists only while a process is running: reading one
    otherwise is a dangling dereference. *)
Definition deref (s : Scheduler) (c : Cpu) (p : TfPtr) : outcome stuck TrapFrame :=
  match p with
  | Live => Ok (live_tf c)
  | Saved => unwrap (trapframe <$> running s)
  end.

Definition store (s : Scheduler) (c : Cpu) (p : TfPtr) (tf : TrapFrame) : Scheduler * Cpu :=
  match p with
  | Live => (s, c <| live_tf := tf |>)
  | Saved => (s <| running := (fun q => q <| trapframe := tf |>) <$> running s |>, c)
  end.

Definition read_fs_base (c : Cpu) : Z := msr_fs_base c.
Definition write_fs_base (c : Cpu) (v : Z) : Cpu := c <| msr_fs_base := v |>.

Definition update_current_fast (c : Cpu) (p : Process) : Cpu :=
  c <| current_as_ptr := Some (address_space p) |> <| current_pid_fast := pid p |>.

Definition clear_current_fast (c : Cpu) : Cpu :=
  c <| current_as_ptr := None |> <| current_pid_fast := 0 |>.

Definition quantum_for (eff : Z) : Z := BASE_QUANTUM + eff * PRIORITY_QUANTUM_BONUS.

(** The queue index of a process: [(eff as usize).min(NUM_PRIORITIES - 1)]. *)
Definition queue_of (p : Process) : nat := Nat.min (Z.to_nat (effective_priority p)) 10.

(** [self.run_queues[pri].push_back(proc)]. *)
Definition push_ready (s : Scheduler) (p : Process) : Scheduler :=
  s <| run_queues := alter (fun q => q ++ [p]) (queue_of p) (run_queues s) |>.

Definition push_wait (s : Scheduler) (p : Process) : Scheduler :=
  s <| wait_queue := wait_queue s ++ [p] |>.

Definition allocate_pid (s : Scheduler) : Scheduler * Z :=
  (s <| next_pid := next_pid s + 1 |>, next_pid s).

Definition add_process (s : Scheduler) (p : Process) : Scheduler :=
  push_ready s (p <| effective_priority := priority p |>).

Definition current_pid (s : Scheduler) : option Z := pid <$> running s.

(** All processes: running, then the run queues, then the wait queue. *)
Definition iter_all (s : Scheduler) : list Process :=
  option_list (running s) ++ concat (run_queues s) ++ wait_queue s.

(** [queue.iter_mut().find(..)] with an update of the process found. *)
Fixpoint update_first (f : Process -> bool) (g : Process -> Process) (l : list Process)
    : option (list Process) :=
  match l with
  | [] => None
  | p :: l' => if f p then Some (g p :: l') else cons p <$> update_first f g l'
  end.

Fixpoint update_queues (f : Process -> bool) (g : Process -> Process) (qs : list (list Process))
    : option (list (list Process)) :=
  match qs with
  | [] => None
  | q :: qs' =>
      match update_first f g q with
      | Some q' => Some (q' :: qs')
      | None => cons q <$> update_queues f g qs'
      end
  end.

(** [find_process_mut(pid)] followed by [g] on what it returned; [None] when
    no process of the queues has the pid. *)
Definition find_process_mut (s : Scheduler) (target : Z) (g : Process -> Process) : option Scheduler :=
  let f := fun p => pid p =? target in
  match update_queues f g (run_queues s) with
  | Some qs => Some (s <| run_queues := qs |>)
  | None => (fun w => s <| wait_queue := w |>) <$> update_first f g (wait_queue s)
  end.

(** *** Killing, stopping, blocking *)

Definition kill_current (s : Scheduler) : Scheduler * bool :=
  match running s with
  | Some proc =>
      let s1 := s <| running := None |> in
      if is_thread proc then
        let s2 := s1 <| pending_stack_frees := pending_stack_frees s1 ++ [kernel_stack proc] |> in
        match owned_stack_vma proc with
        | Some (start, size_pages) =>
            (s2 <| pending_vma_frees :=
                   pending_vma_frees s2 ++ [(address_space proc, start, size_pages)] |>, true)
        | None => (s2, true)
        end
      else (push_wait s1 (proc <| state := Zombie |>), true)
  | None => (s, false)
  end.

(** [for priority in (0..n).rev() { if let Some(p) = queue.pop_front() .. }] *)
Fixpoint pop_highest (n : nat) (qs : list (list Process)) : option (Process * list (list Process)) :=
  match n with
  | O => None
  | S k =>
      match qs !!! k with
      | p :: q => Some (p, <[k := q]> qs)
      | [] => pop_highest k qs
      end
  end.

(** The part of a dispatch every switch shares: the process becomes [running]
    with its page table, kernel stack, FPU image, time slice and fast-path
    pointers installed.  (The FS base is not among them: see the callers.) *)
Definition install (p : Process) (s : Scheduler) (c : Cpu) : Scheduler * Cpu :=
  (s <| remaining_ticks := quantum_for (effective_priority p) |>
     <| running := Some (p <| state := Running |>) |>,
   update_current_fast
     (c <| active_as := address_space p |> <| tss_rsp0 := kernel_stack p |>
        <| fpu_regs := fpu_state p |>) p).

Definition kill_and_switch_tf (s : Scheduler) (c : Cpu) : outcome stuck (Scheduler * Cpu * TfPtr) :=
  let s1 := fst (kill_current s) in
  match pop_highest NUM_PRIORITIES (run_queues s1) with
  | Some (p, qs) => Ok (install p (s1 <| run_queues := qs |>) c, Saved)
  | None => Panic
  end.

(** Saving the outgoing process: its frame, FS base and FPU registers. *)
Definition save_context (p : Process) (tf : TrapFrame) (c : Cpu) : Process :=
  p <| trapframe := tf |> <| fs_base := read_fs_base c |> <| fpu_state := fpu_regs c |>.

(** Dispatch of the next process with its FS base, after a block or stop. *)
Definition switch_after_park (s : Scheduler) (c : Cpu) : outcome stuck (Scheduler * Cpu * TfPtr) :=
  let c1 := clear_current_fast c in
  match pop_highest NUM_PRIORITIES (run_queues s) with
  | Some (p, qs) =>
      Ok (install p (s <| run_queues := qs |>) (write_fs_base c1 (fs_base p)), Saved)
  | None => Panic
  end.

Definition stop_and_switch_tf (s : Scheduler) (c : Cpu) (tf : TfPtr)
    : outcome stuck (Scheduler * Cpu * TfPtr) :=
  match running s with
  | Some proc =>
      frame ← deref s c tf;
      switch_after_park
        (push_wait (s <| running := None |>) ((save_context proc frame c) <| state := Stopped |>)) c
  | None => switch_after_park s c
  end.

Definition block_current (s : Scheduler) (c : Cpu) (tf : TfPtr)
    : outcome stuck (Scheduler * Cpu * TfPtr) :=
  match running s with
  | Some proc =>
      frame ← deref s c tf;
      switch_after_park
        (push_wait (s <| running := None |>) ((save_context proc frame c) <| state := Blocked |>)) c
  | None => switch_after_park s c
  end.

Definition queue_signal_to_group (s : Scheduler) (group sig : Z) : Scheduler :=
  let f := fun p => if pgid p =? group then queue_signal p sig else p in
  s <| running := fmap (M := option) f (running s) |>
    <| run_queues := fmap (M := list) (fmap (M := list) f) (run_queues s) |>
    <| wait_queue := fmap (M := list) f (wait_queue s) |>.

(** *** Wakeups *)

(** Remove the first process of the wait queue with [target] and [st], apply
    [g], and make it ready. *)
Definition wake_where (s : Scheduler) (target : Z) (st : ProcessState) (g : Process -> Process)
    : Scheduler * bool :=
  match position (fun p => (pid p =? target) && bool_decide (state p = st)) (wait_queue s) with
  | Some pos =>
      match wait_queue s !! pos with
      | Some proc =>
          (push_ready (s <| wait_queue := delete pos (wait_queue s) |>)
             (g (proc <| state := Ready |>)), true)
      | None => (s, true)
      end
  | None => (s, false)
  end.

Definition wake_stopped (s : Scheduler) (target : Z) : Scheduler * bool :=
  wake_where s target Stopped (fun p => p <| stopped_by_signal := None |>).

Definition wake (s : Scheduler) (target : Z) : Scheduler :=
  fst (wake_where s target Blocked id).

Definition wake_with_retval (s : Scheduler) (target rax_ : Z) : Scheduler :=
  fst (wake_where s target Blocked
         (fun p => p <| trapframe := (trapframe p) <| rax := rax_ |> |>)).

(** SIGCHLD to the parent, wherever it is. *)
Definition signal_parent (s : Scheduler) (parent : option Z) : Scheduler :=
  match parent with
  | Some ppid =>
      if bool_decide (current_pid s = Some ppid) then
        s <| running := (fun p => queue_signal p SIGCHLD) <$> running s |>
      else default s (find_process_mut s ppid (fun p => queue_signal p SIGCHLD))
  | None => s
  end.

Definition WUNTRACED : Z := 4.
Definition WNOHANG : Z := 2.

Definition target_matches (p : Process) (who group : Z) : bool :=
  match waiting_for p with Some t => matches t who group | None => false end.

(** The scan that finds the blocked parent, hands it the result and wakes it;
    [None] when no process of the wait queue qualifies. *)
Definition wait_result (who status : Z) (p : Process) : Process :=
  p <| trapframe := (trapframe p) <| rax := who |> |>
    <| waiting_for := None |> <| pending_wait_status := Some status |>.

Definition notify_child_death (s : Scheduler) (dead : Z) (parent : option Z) : Scheduler :=
  let s1 := signal_parent s parent in
  let z := List.find (fun p => (pid p =? dead) && bool_decide (state p = Zombie)) (wait_queue s1) in
  let status_word := match z with Some p => wait_status_word p | None => 512 end in
  let dead_pgid := match z with Some p => pgid p | None => 0 end in
  let qualifies := fun p => bool_decide (Some (pid p) = parent) &&
    bool_decide (state p = Blocked) && target_matches p dead dead_pgid in
  match List.find qualifies (wait_queue s1),
        update_first qualifies (wait_result dead status_word) (wait_queue s1) with
  | Some p, Some w => wake (s1 <| wait_queue := w |>) (pid p)
  | _, _ => s1
  end.

Definition notify_child_stopped (s : Scheduler) (who : Z) (parent : option Z) : Scheduler :=
  let s1 := signal_parent s parent in
  match List.find (fun p => (pid p =? who) && bool_decide (state p = Stopped)) (wait_queue s1) with
  | None => s1
  | Some st =>
      let qualifies := fun p => bool_decide (Some (pid p) = parent) &&
        bool_decide (state p = Blocked) && negb (Z.land (waiting_options p) WUNTRACED =? 0) &&
        target_matches p who (pgid st) in
      match List.find qualifies (wait_queue s1),
            update_first qualifies (wait_result who (stop_status_word st)) (wait_queue s1) with
      | Some p, Some w =>
          let w' := default w (update_first (fun q => pid q =? who)
                                 (fun q => q <| stop_reported := true |>) w) in
          wake (s1 <| wait_queue := w' |>) (pid p)
      | _, _ => s1
      end
  end.

(** *** Time slices and aging *)

(** The [while] loop of [age_processes] over one queue. *)
Fixpoint age_queue (fuel : nat) (pri i : nat) (qs : list (list Process))
    : outcome stuck (list (list Process)) :=
  match (qs !!! pri) !! i with
  | None => Ok qs
  | Some p =>
      match fuel with
      | O => Err OutOfFuel
      | S n =>
          if pid p =? 0 then age_queue n pri (S i) qs
          else if effective_priority p <? priority p then
            let p' := p <| effective_priority := Z.min (effective_priority p + 1) (priority p) |> in
            age_queue n pri i
              (alter (fun q => q ++ [p']) (queue_of p') (<[pri := delete i (qs !!! pri)]> qs))
          else age_queue n pri (S i) qs
      end
  end.

Fixpoint age_queues (pris : list nat) (qs : list (list Process)) : outcome stuck (list (list Process)) :=
  match pris with
  | [] => Ok qs
  | pri :: rest => qs' ← age_queue (length (qs !!! pri)) pri 0 qs; age_queues rest qs'
  end.

Definition age_processes (s : Scheduler) : outcome stuck Scheduler :=
  qs ← age_queues (seq 0 NUM_PRIORITIES) (run_queues s); Ok (s <| run_queues := qs |>).

(** [tick].  Whether a deferred free finds the allocator's lock available is
    decided outside: [stack_freed] and [vma_freed] say so for each entry. *)
Definition tick (stack_freed : Z -> bool) (vma_freed : Z * Z * Z -> bool) (s : Scheduler)
    : outcome stuck (Scheduler * bool) :=
  let s1 := s <| global_ticks := wrap 32 (global_ticks s + 1) |>
              <| pending_stack_frees := filter (fun k => stack_freed k = false) (pending_stack_frees s) |>
              <| pending_vma_frees := filter (fun v => vma_freed v = false) (pending_vma_frees s) |> in
  s2 ← (if global_ticks s1 mod AGING_EPOCH =? 0 then age_processes s1 else Ok s1);
  let s3 := if 0 <? remaining_ticks s2 then s2 <| remaining_ticks := remaining_ticks s2 - 1 |> else s2 in
  Ok (s3, remaining_ticks s3 =? 0).

(** *** Context switch *)

Definition switch_to_next (s : Scheduler) (c : Cpu) (tf : TfPtr)
    : outcome stuck (Scheduler * Cpu * TfPtr) :=
  s1 ← match running s with
       | Some proc =>
           frame ← deref s c tf;
           let p := save_context proc frame c in
           let s0 := s <| running := None |> in
           match state p with
           | Running =>
               let p1 := p <| state := Ready |> in
               let p2 := if negb (pid p1 =? 0) && (MIN_EFFECTIVE_PRIORITY <? effective_priority p1)
                         then p1 <| effective_priority := effective_priority p1 - 1 |> else p1 in
               Ok (push_ready s0 p2)
           | Zombie | Blocked | Stopped => Ok (push_wait s0 p)
           | Ready => Ok (push_ready s0 p)
           end
       | None => Ok s
       end;
  match pop_highest NUM_PRIORITIES (run_queues s1) with
  | Some (p, qs) => Ok (install p (s1 <| run_queues := qs |>) (write_fs_base c (fs_base p)), Saved)
  | None => Ok (s1, c, tf)
  end.

(** [start_first]: the first ready process that is not idle. *)
Fixpoint first_startable (n : nat) (qs : list (list Process)) : option (Process * list (list Process)) :=
  match n with
  | O => None
  | S k =>
      match k with
      | O => None
      | _ =>
          match position (fun p => bool_decide (state p = Ready) && negb (pid p =? 0)) (qs !!! k) with
          | Some i => (fun p => (p, <[k := delete i (qs !!! k)]> qs)) <$> ((qs !!! k) !! i)
          | None => first_startable k qs
          end
      end
  end.

Definition start_first (s : Scheduler) (c : Cpu) : outcome stuck (Scheduler * Cpu * TfPtr) :=
  match first_startable NUM_PRIORITIES (run_queues s) with
  | Some (p, qs) => Ok (install p (s <| run_queues := qs |>) c, Saved)
  | None => Panic
  end.

(** *** Returning to user mode *)

Record World := mkWorld {
  sched : Scheduler;
  cpu : Cpu;
  umem : gmap Z mem;
  tables : Waiters.Tables;
}.

#[export] Instance World_fields : Fields World := fun w =>
  mkWorld (sched w) (cpu w) (umem w) (tables w).

(** User memory of the active address space. *)
Definition active_mem (w : World) : mem := default ∅ (umem w !! active_as (cpu w)).
Definition set_active_mem (w : World) (m : mem) : World :=
  w <| umem := <[active_as (cpu w) := m]> (umem w) |>.

(** The delivery step of one iteration of [resolve_signals]. *)
Definition deliver_running (w : World) (tf : TfPtr) (frame : TrapFrame)
    : outcome stuck (World * SignalOutcome) :=
  match running (sched w) with
  | Some proc =>
      if bool_decide (privilege proc = User) then
        match deliver_pending (active_mem w) proc frame with
        | Ok (m, proc', frame', out) =>
            let s1 := (sched w) <| running := Some proc' |> in
            let '(s2, c2) := store s1 (cpu w) tf frame' in
            Ok (set_active_mem (w <| sched := s2 |> <| cpu := c2 |>) m, out)
        | Err e => match e with end
        | Panic => Panic
        end
      else Ok (w, NoSignal)
  | None => Ok (w, NoSignal)
  end.

Definition terminate_running (w : World) (sig : Z) : outcome stuck (World * TfPtr) :=
  let s := sched w in
  let s1 := s <| running := (fun p => p <| killed_by_signal := Some sig |>) <$> running s |> in
  let dead := match running s with Some p => pid p | None => 0 end in
  let parent := match running s with
                | Some p => if is_thread p then None else parent_pid p
                | None => None
                end in
  '(s2, c2, tf) ← kill_and_switch_tf s1 (cpu w);
  Ok (w <| sched := notify_child_death s2 dead parent |> <| cpu := c2 |>
        <| tables := Waiters.cancel_all_waiters (tables w) dead |>, tf).

Definition stop_running (w : World) (tf : TfPtr) (sig : Z) : outcome stuck (World * TfPtr) :=
  let s := sched w in
  let s1 := s <| running := (fun p => p <| stopped_by_signal := Some sig |>
                                        <| stop_reported := false |>) <$> running s |> in
  let who := match running s with Some p => pid p | None => 0 end in
  let parent := match running s with Some p => parent_pid p | None => None end in
  '(s2, c2, tf') ← stop_and_switch_tf s1 (cpu w) tf;
  Ok (w <| sched := notify_child_stopped s2 who parent |> <| cpu := c2 |>, tf').

Fixpoint resolve_signals (fuel : nat) (w : World) (tf : TfPtr) : outcome stuck (World * TfPtr) :=
  frame ← deref (sched w) (cpu w) tf;
  if negb (cs frame =? USER_CS) then Ok (w, tf) else
  '(w1, out) ← deliver_running w tf frame;
  match out with
  | Terminate sig =>
      match fuel with
      | O => Err OutOfFuel
      | S n => '(w2, tf2) ← terminate_running w1 sig; resolve_signals n w2 tf2
      end
  | Stop sig =>
      match fuel with
      | O => Err OutOfFuel
      | S n => '(w2, tf2) ← stop_running w1 tf sig; resolve_signals n w2 tf2
      end
  | _ => Ok (w1, tf)
  end.

Definition resolve_wait_status (w : World) : World :=
  match running (sched w) with
  | Some proc =>
      match pending_wait_status proc with
      | Some status =>
          let w1 := w <| sched := (sched w) <| running :=
                      Some (proc <| pending_wait_status := None |> <| waiting_status_ptr := 0 |>) |> |> in
          if waiting_status_ptr proc =? 0 then w1
          else set_active_mem w1
                 (write_bytes (active_mem w) (waiting_status_ptr proc) (to_le 4 (wrap 32 status)))
      | None => w
      end
  | None => w
  end.

(** [jump_to_user], up to the register restore: the frame that will run. *)
Definition jump_to_user (w : World) (tf : TfPtr) : outcome stuck (World * TfPtr) :=
  '(w1, tf1) ← resolve_signals (length (iter_all (sched w))) w tf;
  Ok (resolve_wait_status w1, tf1).

End Scheduler.
