(* ===== verification/SchedulerInv.v ===== *)
(** Invariant and lemmas of the scheduler ([Scheduler]).

    [sched_ok] is what [kernel/src/process/scheduler.rs] promises of its
    containers.  The file shows that every operation preserves it, what each
    operation does to the set of processes (as permutations of [pids]), what
    a pass of priority aging computes, and that the signal-resolution loop
    always ends with a process to run. *)

From Stdlib Require Import ZArith Lia.
From stdpp Require Import base numbers gmap list.
From S2P Require Import Prelude Process Signal HrTimer Waiters Scheduler.

Local Open Scope Z_scope.

Module SchedulerInv.
Import Process Signal Scheduler.

(** ** Specification vocabulary *)

Record pri_ok (p : Process) : Prop := {
  eff_nonneg : 0 <= effective_priority p;
  eff_base : effective_priority p <= priority p;
  base_max : priority p <= 10;
}.

Definition proc_ok (p : Process) : Prop := pri_ok p /\ signals_ok p.

Definition parked (p : Process) : Prop :=
  state p = Blocked \/ state p = Zombie \/ state p = Stopped.

Definition pids (s : Scheduler) : list Z := pid <$> iter_all s.

(** What the doc comment of the file promises of the containers: run queues
    hold only ready processes, each in the queue of its effective priority;
    the wait queue holds only blocked, dead and stopped ones; the running slot
    holds the running one; no pid occurs twice, and pids come from the
    counter. *)
Record sched_ok (s : Scheduler) : Prop := {
  queues_len : length (run_queues s) = NUM_PRIORITIES;
  queues_ready : forall i q p, run_queues s !! i = Some q -> p ∈ q ->
    state p = Ready /\ queue_of p = i;
  wait_parked : forall p, p ∈ wait_queue s -> parked p;
  running_running : forall p, running s = Some p -> state p = Running;
  all_ok : forall p, p ∈ iter_all s -> proc_ok p;
  pids_nodup : NoDup (pids s);
  pids_bound : forall p, p ∈ iter_all s -> 0 <= pid p < next_pid s;
  next_nonneg : 0 <= next_pid s;
}.

(** A process that may be put into the containers. *)
Definition admissible (s : Scheduler) (p : Process) : Prop :=
  proc_ok p /\ (pid p ∉ pids s) /\ 0 <= pid p < next_pid s.

(** ** Lemmas *)

(** *** Containers *)

Lemma concat_alter_push {A} (qs : list (list A)) i p :
  (i < length qs)%nat -> concat (alter (fun q => q ++ [p]) i qs) ≡ₚ p :: concat qs.
Proof.
  revert i; induction qs as [|q qs IH]; intros i Hi; [simpl in Hi; lia|].
  destruct i as [|i]; cbn.
  - rewrite <- app_assoc. cbn [app]. symmetry. apply Permutation_middle.
  - rewrite IH by (simpl in Hi; lia). by rewrite Permutation_middle.
Qed.

Lemma concat_insert {A} (qs : list (list A)) i q q' :
  qs !! i = Some q -> exists a b, concat qs = a ++ q ++ b /\ concat (<[i := q']> qs) = a ++ q' ++ b.
Proof.
  revert i; induction qs as [|r qs IH]; intros i Hi; [done|].
  destruct i as [|i].
  - injection Hi as ->. by exists [], (concat qs).
  - destruct (IH i Hi) as (a & b & Ha & Hb). exists (r ++ a), b.
    change (<[S i := q']> (r :: qs)) with (r :: <[i := q']> qs).
    cbn [concat]. by rewrite Ha, Hb, !app_assoc.
Qed.

Lemma pop_highest_Some n qs p qs' :
  pop_highest n qs = Some (p, qs') ->
  exists k q, (k < n)%nat /\ qs !!! k = p :: q /\ qs' = <[k := q]> qs /\
    forall j, (k < j < n)%nat -> qs !!! j = [].
Proof.
  induction n as [|n IH]; simpl; [done|].
  destruct (qs !!! n) as [|x q] eqn:Hq.
  - intros H. destruct (IH H) as (k & q & Hk & Hl & Hqs & Hj). exists k, q.
    split_and!; [lia|done|done|]. intros j Hjn.
    destruct (decide (j = n)) as [->|]; [done|]. apply Hj. lia.
  - intros [= -> <-]. exists n, q. split_and!; [lia|done|done|]. intros; lia.
Qed.

Lemma pop_highest_None n qs :
  pop_highest n qs = None <-> forall j, (j < n)%nat -> qs !!! j = [].
Proof.
  induction n as [|n IH]; simpl; [split; [lia|done]|].
  destruct (qs !!! n) as [|x q] eqn:Hq.
  - rewrite IH. split; intros H j Hj; [|apply H; lia].
    destruct (decide (j = n)) as [->|]; [done|apply H; lia].
  - split; [done|]. intros H. rewrite H in Hq by lia. done.
Qed.

Lemma lookup_total_cons {A} (qs : list (list A)) k p q :
  qs !!! k = p :: q -> qs !! k = Some (p :: q).
Proof.
  rewrite list_lookup_total_alt. destruct (qs !! k) as [r|]; simpl; [by intros ->|done].
Qed.

Lemma concat_pop {A} (qs : list (list A)) k p q :
  qs !!! k = p :: q -> concat qs ≡ₚ p :: concat (<[k := q]> qs).
Proof.
  intros Hk%lookup_total_cons. destruct (concat_insert qs k _ q Hk) as (a & b & -> & ->).
  simpl. by rewrite <- Permutation_middle.
Qed.

Lemma iter_all_running s p :
  running s = Some p -> iter_all s = p :: iter_all (s <| running := None |>).
Proof. intros H. unfold iter_all. by rewrite H. Qed.

(** The fields the invariant reads. *)
Definition same_core (p q : Process) : Prop :=
  pid p = pid q /\ priority p = priority q /\ effective_priority p = effective_priority q /\
  signal_handlers p = signal_handlers q /\ blocked_signals p = blocked_signals q /\
  pending_signals p = pending_signals q.

Lemma proc_ok_same p q : same_core p q -> proc_ok p -> proc_ok q.
Proof.
  intros (_ & H1 & H2 & H3 & H4 & H5) [[] []]. split; split; rewrite <- ?H1, <- ?H2, <- ?H3, <- ?H4, <- ?H5; done.
Qed.

Lemma admissible_same s p q : same_core p q -> admissible s p -> admissible s q.
Proof.
  intros Hsame (Hok & Hnew & Hb). pose proof Hsame as (Hpid & _).
  unfold admissible. rewrite <- Hpid. split_and!; auto; try lia. by eapply proc_ok_same.
Qed.

(** *** Moving a process between containers *)

Lemma take_running s p :
  sched_ok s -> running s = Some p ->
  let s' := s <| running := None |> in
  sched_ok s' /\ admissible s' p /\ pids s = pid p :: pids s' /\ state p = Running.
Proof.
  intros [] Hrun s'. pose proof (iter_all_running s p Hrun) as Hall. fold s' in Hall.
  assert (pids s = pid p :: pids s') as Hp by (unfold pids; by rewrite Hall).
  rewrite Hp in pids_nodup0. apply list.NoDup_cons in pids_nodup0 as [Hnew Hnd].
  setoid_rewrite Hall in all_ok0. setoid_rewrite Hall in pids_bound0.
  split; [|split; [split_and!|split]]; auto.
  - split; auto; try done; intros x Hx; [apply all_ok0|apply pids_bound0]; by right.
  - apply all_ok0. by left.
  - apply (pids_bound0 p). by left.
  - apply (pids_bound0 p). by left.
Qed.

(** Adding one process to the containers. *)
Lemma sched_ok_add s s' p :
  sched_ok s -> admissible s p -> iter_all s' ≡ₚ p :: iter_all s -> next_pid s' = next_pid s ->
  length (run_queues s') = NUM_PRIORITIES ->
  (forall i q x, run_queues s' !! i = Some q -> x ∈ q -> state x = Ready /\ queue_of x = i) ->
  (forall x, x ∈ wait_queue s' -> parked x) ->
  (forall x, running s' = Some x -> state x = Running) ->
  sched_ok s' /\ pids s' ≡ₚ pid p :: pids s.
Proof.
  intros [] (Hok & Hnew & Hb) Hperm Hnext Hlen Hq Hw Hr.
  assert (pids s' ≡ₚ pid p :: pids s) as Hpids by (unfold pids; by rewrite Hperm).
  split; [|done]. split; auto.
  - intros x. rewrite Hperm. intros [->|]%elem_of_cons; auto.
  - rewrite Hpids. by constructor.
  - intros x. rewrite Hperm, Hnext. intros [->|]%elem_of_cons; auto.
  - by rewrite Hnext.
Qed.

Lemma queue_of_lt p : (queue_of p < NUM_PRIORITIES)%nat.
Proof. unfold queue_of, NUM_PRIORITIES. lia. Qed.

Lemma iter_all_push_ready s p :
  length (run_queues s) = NUM_PRIORITIES -> iter_all (push_ready s p) ≡ₚ p :: iter_all s.
Proof.
  intros Hlen. unfold iter_all, push_ready. cbn.
  rewrite concat_alter_push by (rewrite Hlen; apply queue_of_lt).
  by rewrite <- app_comm_cons, <- Permutation_middle.
Qed.

Lemma push_ready_ok s p :
  sched_ok s -> admissible s p -> state p = Ready ->
  sched_ok (push_ready s p) /\ pids (push_ready s p) ≡ₚ pid p :: pids s.
Proof.
  intros Hok Ha Hst. pose proof Hok as [].
  apply sched_ok_add; auto; [by apply iter_all_push_ready|by cbn; rewrite length_alter|].
  intros i q x. cbn. destruct (decide (i = queue_of p)) as [->|Hne].
  - rewrite list_lookup_alter_eq. destruct (run_queues s !! queue_of p) as [r|] eqn:Hr; [|done].
    intros [= <-]. intros [Hx| ->%list_elem_of_singleton]%elem_of_app; [|done]. eauto.
  - rewrite list_lookup_alter_ne by done. eauto.
Qed.

Lemma iter_all_push_wait s p : iter_all (push_wait s p) ≡ₚ p :: iter_all s.
Proof. unfold iter_all, push_wait. cbn. rewrite !app_assoc. symmetry. apply Permutation_cons_append. Qed.

Lemma push_wait_ok s p :
  sched_ok s -> admissible s p -> parked p ->
  sched_ok (push_wait s p) /\ pids (push_wait s p) ≡ₚ pid p :: pids s.
Proof.
  intros Hok Ha Hst. pose proof Hok as [].
  apply sched_ok_add; auto.
  - apply iter_all_push_wait.
  - intros x. cbn. rewrite elem_of_app, list_elem_of_singleton. intros [?| ->]; auto.
Qed.

(** Removing a process from a container. *)
Lemma sched_ok_remove s s' p :
  sched_ok s -> iter_all s ≡ₚ p :: iter_all s' -> next_pid s' = next_pid s ->
  length (run_queues s') = NUM_PRIORITIES ->
  (forall i q x, run_queues s' !! i = Some q -> x ∈ q -> state x = Ready /\ queue_of x = i) ->
  (forall x, x ∈ wait_queue s' -> parked x) ->
  (forall x, running s' = Some x -> state x = Running) ->
  sched_ok s' /\ admissible s' p /\ pids s ≡ₚ pid p :: pids s'.
Proof.
  intros [] Hperm Hnext Hlen Hq Hw Hr.
  assert (pids s ≡ₚ pid p :: pids s') as Hpids by (unfold pids; by rewrite Hperm).
  rewrite Hpids in pids_nodup0. apply list.NoDup_cons in pids_nodup0 as [Hnew Hnd].
  split; [|split; [|done]].
  - split; auto; rewrite ?Hnext; auto; intros x Hx; [apply all_ok0|apply pids_bound0]; rewrite Hperm; by right.
  - split_and!; auto; rewrite ?Hnext; [apply all_ok0|apply (pids_bound0 p)|apply (pids_bound0 p)];
      rewrite Hperm; by left.
Qed.

Lemma iter_all_pop n s p qs :
  pop_highest n (run_queues s) = Some (p, qs) -> iter_all s ≡ₚ p :: iter_all (s <| run_queues := qs |>).
Proof.
  intros (k & q & _ & Hq & -> & _)%pop_highest_Some. unfold iter_all. cbn.
  rewrite (concat_pop _ _ _ _ Hq). by rewrite <- app_comm_cons, <- Permutation_middle.
Qed.

Lemma pop_ready_ok s p qs :
  sched_ok s -> pop_highest NUM_PRIORITIES (run_queues s) = Some (p, qs) ->
  let s' := s <| run_queues := qs |> in
  sched_ok s' /\ admissible s' p /\ pids s ≡ₚ pid p :: pids s' /\ state p = Ready.
Proof.
  intros Hok Hpop s'. pose proof Hok as []. pose proof (iter_all_pop _ _ _ _ Hpop) as Hperm.
  apply pop_highest_Some in Hpop as (k & q & Hk & Hq & -> & _).
  pose proof (lookup_total_cons _ _ _ _ Hq) as Hqk.
  assert (state p = Ready) as Hst by (eapply queues_ready0; [exact Hqk|by left]).
  assert (sched_ok s' /\ admissible s' p /\ pids s ≡ₚ pid p :: pids s') as (? & ? & ?); [|done].
  apply sched_ok_remove; auto.
  - cbn. by rewrite length_insert.
  - intros i r x. cbn. rewrite list_lookup_insert_Some.
    intros [(-> & -> & _)|(_ & Hl)] Hx; [|eauto]. eapply queues_ready0; [exact Hqk|by right].
Qed.

Lemma install_ok s c p :
  sched_ok s -> running s = None -> admissible s p ->
  let s' := fst (install p s c) in
  sched_ok s' /\ pids s' = pid p :: pids s /\ running s' = Some (p <| state := Running |>).
Proof.
  intros Hok Hnone Ha s'. pose proof Hok as [].
  assert (iter_all s' = (p <| state := Running |>) :: iter_all s) as Hall.
  { unfold iter_all. by rewrite Hnone. }
  destruct (sched_ok_add s s' (p <| state := Running |>)) as [Hok' _]; auto.
  - by apply (admissible_same s p).
  - by rewrite Hall.
  - intros x. cbn. by intros [= <-].
  - split; [done|]. split; [|done]. unfold pids. by rewrite Hall.
Qed.

(** *** Updates in place *)

(** [q] is [p] with fields changed that the containers do not depend on. *)
Definition tracks (p q : Process) : Prop :=
  pid q = pid p /\ state q = state p /\ effective_priority q = effective_priority p /\
  (proc_ok p -> proc_ok q) /\ privilege q = privilege p /\
  rsp (trapframe q) = rsp (trapframe p) /\ cs (trapframe q) = cs (trapframe p).

Lemma tracks_refl p : tracks p p.
Proof. done. Qed.

Lemma tracks_core p q :
  same_core p q -> state q = state p -> privilege q = privilege p ->
  rsp (trapframe q) = rsp (trapframe p) -> cs (trapframe q) = cs (trapframe p) -> tracks p q.
Proof.
  intros Hs Hst Hv Hr Hc. unfold tracks. pose proof Hs as (? & ? & ? & _). split_and!; try congruence.
  by apply proc_ok_same.
Qed.

Lemma tracks_signal p sig : 0 <= sig -> tracks p (queue_signal p sig).
Proof.
  intros Hs. unfold queue_signal. destruct (_ || _) eqn:Hr; [done|].
  apply orb_false_elim in Hr as [_ Hr]. apply Z.leb_gt in Hr. unfold NUM_SIGNALS in Hr.
  split_and!; try done. intros [[] []]. split; split; try done.
  apply lor_width; [lia|done|apply bit_width; lia].
Qed.
#[export] Hint Resolve tracks_refl : core.

Lemma Forall2_tracks_refl l : Forall2 tracks l l.
Proof. induction l; by constructor. Qed.
#[export] Hint Resolve Forall2_tracks_refl : core.

Lemma Forall2_tracks_lookup l l' i q :
  Forall2 tracks l l' -> l' !! i = Some q -> exists p, l !! i = Some p /\ tracks p q.
Proof. intros H Hq. destruct (Forall2_lookup_r _ _ _ _ _ H Hq) as (p & Hp & Ht). eauto. Qed.

Lemma Forall2_tracks_elem l l' q :
  Forall2 tracks l l' -> q ∈ l' -> exists p, p ∈ l /\ tracks p q.
Proof.
  intros H Hq. apply list_elem_of_lookup in Hq as (i & Hi).
  destruct (Forall2_tracks_lookup _ _ _ _ H Hi) as (p & Hp & Ht).
  exists p. split; [by eapply list_elem_of_lookup_2|done].
Qed.

Lemma concat_tracks qs qs' :
  Forall2 (Forall2 tracks) qs qs' -> Forall2 tracks (concat qs) (concat qs').
Proof. induction 1; simpl; [constructor|by apply Forall2_app]. Qed.

Lemma pids_tracks l l' : Forall2 tracks l l' -> pid <$> l' = pid <$> l.
Proof.
  induction 1 as [|x y l l' (Hpid & _) _ IH]; [done|].
  rewrite !fmap_cons. by rewrite Hpid, IH.
Qed.

Lemma sched_ok_tracks s s' :
  sched_ok s -> option_Forall2 tracks (running s) (running s') ->
  Forall2 (Forall2 tracks) (run_queues s) (run_queues s') ->
  Forall2 tracks (wait_queue s) (wait_queue s') -> next_pid s' = next_pid s ->
  sched_ok s' /\ pids s' = pids s.
Proof.
  intros [] Hrun Hqs Hwq Hnext.
  assert (Forall2 tracks (iter_all s) (iter_all s')) as Hall.
  { unfold iter_all. apply Forall2_app; [|apply Forall2_app; [by apply concat_tracks|done]].
    destruct Hrun as [x y Hxy|]; cbn [option_list]; [by apply list.Forall2_cons|done]. }
  assert (pids s' = pids s) as Hp by by apply pids_tracks.
  split; [|done]. split.
  - by rewrite <- (Forall2_length _ _ _ Hqs).
  - intros i q' x Hq' Hx. destruct (Forall2_lookup_r _ _ _ _ _ Hqs Hq') as (q & Hq & Ht).
    destruct (Forall2_tracks_elem _ _ _ Ht Hx) as (p & Hpq & _ & Hst & Heff & _).
    destruct (queues_ready0 i q p Hq Hpq) as [H1 H2]. unfold queue_of in *. split; congruence.
  - intros x Hx. destruct (Forall2_tracks_elem _ _ _ Hwq Hx) as (p & Hpq & _ & Hst & _).
    unfold parked. rewrite Hst. by apply wait_parked0.
  - intros x Hx. rewrite Hx in Hrun. inversion Hrun as [p ? (_ & Hst & _) Heq|]; subst.
    rewrite Hst. by apply running_running0.
  - intros x Hx. destruct (Forall2_tracks_elem _ _ _ Hall Hx) as (p & Hpq & _ & _ & _ & Hok & _). auto.
  - by rewrite Hp.
  - intros x Hx. destruct (Forall2_tracks_elem _ _ _ Hall Hx) as (p & Hpq & Hpid & _).
    rewrite Hpid, Hnext. auto.
  - by rewrite Hnext.
Qed.

Lemma update_first_tracks f g l l' :
  (forall p, tracks p (g p)) -> update_first f g l = Some l' -> Forall2 tracks l l'.
Proof.
  intros Hg. revert l'; induction l as [|p l IH]; intros l'; simpl; [done|].
  destruct (f p); [intros [= <-]; by constructor|].
  destruct (update_first f g l); simpl; [|done]. intros [= <-]. constructor; auto.
Qed.

Lemma Forall2_queues_refl qs : Forall2 (Forall2 tracks) qs qs.
Proof. induction qs; by constructor. Qed.
#[export] Hint Resolve Forall2_queues_refl : core.

Lemma update_queues_tracks f g qs qs' :
  (forall p, tracks p (g p)) -> update_queues f g qs = Some qs' -> Forall2 (Forall2 tracks) qs qs'.
Proof.
  intros Hg. revert qs'; induction qs as [|q qs IH]; intros qs'; simpl; [done|].
  destruct (update_first f g q) as [q'|] eqn:Hq.
  - intros [= <-]. constructor; [by eapply update_first_tracks|done].
  - destruct (update_queues f g qs); simpl; [|done]. intros [= <-]. constructor; auto.
Qed.

Lemma option_tracks_refl (o : option Process) : option_Forall2 tracks o o.
Proof. destruct o; by constructor. Qed.
#[export] Hint Resolve option_tracks_refl : core.

Lemma option_tracks_fmap (o : option Process) g :
  (forall p, tracks p (g p)) -> option_Forall2 tracks o (g <$> o).
Proof. intros Hg. destruct o; constructor; auto. Qed.

Lemma find_process_mut_ok s target g s' :
  sched_ok s -> (forall p, tracks p (g p)) -> find_process_mut s target g = Some s' ->
  sched_ok s' /\ pids s' = pids s /\ running s' = running s.
Proof.
  intros Hok Hg. unfold find_process_mut.
  destruct (update_queues _ _ _) as [qs|] eqn:Hqs.
  - intros [= <-]. destruct (sched_ok_tracks s (s <| run_queues := qs |>)); auto.
    by eapply update_queues_tracks.
  - destruct (update_first _ _ _) as [w|] eqn:Hw; simpl; [|done]. intros [= <-].
    destruct (sched_ok_tracks s (s <| wait_queue := w |>)); auto. by eapply update_first_tracks.
Qed.

Lemma sched_ok_running s g :
  sched_ok s -> (forall p, tracks p (g p)) ->
  let s' := s <| running := g <$> running s |> in sched_ok s' /\ pids s' = pids s.
Proof. intros Hok Hg. apply sched_ok_tracks; auto. by apply option_tracks_fmap. Qed.

Lemma queue_signal_to_group_ok s group sig :
  sched_ok s -> 0 <= sig ->
  sched_ok (queue_signal_to_group s group sig) /\ pids (queue_signal_to_group s group sig) = pids s.
Proof.
  intros Hok Hs. set (f := fun p => if pgid p =? group then queue_signal p sig else p).
  assert (forall p, tracks p (f p)) as Hf
    by (intros p; unfold f; destruct (_ =? _); [by apply tracks_signal|done]).
  apply sched_ok_tracks; auto; cbn.
  - by apply option_tracks_fmap.
  - apply Forall2_fmap_r, Forall_Forall2_diag, Forall_true. intros q.
    by apply Forall2_fmap_r, Forall_Forall2_diag, Forall_true.
  - by apply Forall2_fmap_r, Forall_Forall2_diag, Forall_true.
Qed.

(** *** Operations preserve the invariant *)

Lemma iter_all_remove_wait s pos p :
  wait_queue s !! pos = Some p ->
  iter_all s ≡ₚ p :: iter_all (s <| wait_queue := delete pos (wait_queue s) |>).
Proof.
  intros Hp. unfold iter_all. cbn. rewrite (delete_Permutation _ _ _ Hp) at 1.
  rewrite !app_assoc. symmetry. apply Permutation_middle.
Qed.

Lemma remove_wait_ok s pos p :
  sched_ok s -> wait_queue s !! pos = Some p ->
  let s' := s <| wait_queue := delete pos (wait_queue s) |> in
  sched_ok s' /\ admissible s' p /\ pids s ≡ₚ pid p :: pids s' /\ parked p.
Proof.
  intros Hok Hp s'. pose proof Hok as [].
  assert (parked p) by (by eapply wait_parked0, list_elem_of_lookup_2).
  assert (wait_queue s ≡ₚ p :: delete pos (wait_queue s)) as Hw by by apply delete_Permutation.
  assert (sched_ok s' /\ admissible s' p /\ pids s ≡ₚ pid p :: pids s') as (? & ? & ?); [|done].
  apply sched_ok_remove; auto.
  - by apply iter_all_remove_wait.
  - intros x Hx. apply wait_parked0. rewrite Hw. by right.
Qed.

Lemma wake_where_ok s target st g :
  sched_ok s -> (forall p, tracks p (g p)) ->
  sched_ok (fst (wake_where s target st g)) /\ pids (fst (wake_where s target st g)) ≡ₚ pids s.
Proof.
  intros Hok Hg. unfold wake_where. destruct (position _ _) as [pos|] eqn:Hpos; [|done].
  apply position_Some in Hpos as (p & Hp & _). rewrite Hp. cbn [fst].
  destruct (remove_wait_ok s pos p Hok Hp) as (Hok' & Ha & Hpids & _).
  set (s' := s <| wait_queue := delete pos (wait_queue s) |>) in *.
  set (p1 := p <| state := Ready |>). destruct (Hg p1) as (H1 & H2 & H3 & H4 & _).
  assert (admissible s' p1) as Ha1 by by apply (admissible_same s' p).
  destruct (push_ready_ok s' (g p1)) as [? Hp']; [done| |by rewrite H2|].
  - destruct Ha1 as (? & ? & ?). unfold admissible. rewrite H1. auto.
  - split; [done|]. by rewrite Hp', H1, Hpids.
Qed.

Lemma wake_ok s target : sched_ok s -> sched_ok (wake s target) /\ pids (wake s target) ≡ₚ pids s.
Proof. intros. by apply wake_where_ok. Qed.

Lemma wake_with_retval_ok s target v :
  sched_ok s -> sched_ok (wake_with_retval s target v) /\ pids (wake_with_retval s target v) ≡ₚ pids s.
Proof. intros. apply wake_where_ok; [done|]. intros p. by apply tracks_core. Qed.

Lemma wake_stopped_ok s target :
  sched_ok s -> sched_ok (fst (wake_stopped s target)) /\ pids (fst (wake_stopped s target)) ≡ₚ pids s.
Proof. intros. apply wake_where_ok; [done|]. intros p. by apply tracks_core. Qed.

Lemma wait_result_tracks who status p : tracks p (wait_result who status p).
Proof. by apply tracks_core. Qed.

Lemma kill_current_ok s p :
  sched_ok s -> running s = Some p ->
  let s' := fst (kill_current s) in
  sched_ok s' /\ running s' = None /\
  pids s ≡ₚ (if is_thread p then [pid p] else []) ++ pids s'.
Proof.
  intros Hok Hrun. unfold kill_current. rewrite Hrun.
  destruct (take_running s p Hok Hrun) as (Hok1 & Ha & Hp & _).
  set (s1 := s <| running := None |>) in *. cbv zeta.
  assert (forall s', iter_all s' = iter_all s1 -> run_queues s' = run_queues s1 ->
    wait_queue s' = wait_queue s1 -> running s' = running s1 -> next_pid s' = next_pid s1 ->
    sched_ok s') as Hsame.
  { intros s' H1 H2 H3 H4 H5. destruct Hok1. split; unfold pids; rewrite ?H1, ?H2, ?H3, ?H4, ?H5; done. }
  destruct (is_thread p).
  - destruct (owned_stack_vma p) as [[a b]|]; cbn [fst];
      (split; [by apply Hsame|]; split; [done|]; by rewrite Hp).
  - cbn [fst]. destruct (push_wait_ok s1 (p <| state := Zombie |>)) as [Hok2 Hp2]; auto.
    + by apply (admissible_same s1 p).
    + unfold parked; simpl; auto.
    + split; [done|]. split; [done|]. rewrite Hp, Hp2. done.
Qed.

(** The dispatch of the next ready process. *)
Lemma dispatch_ok s c p qs :
  sched_ok s -> running s = None ->
  pop_highest NUM_PRIORITIES (run_queues s) = Some (p, qs) ->
  let s' := fst (install p (s <| run_queues := qs |>) c) in
  sched_ok s' /\ pids s' ≡ₚ pids s /\ running s' = Some (p <| state := Running |>).
Proof.
  intros Hok Hnone Hpop. destruct (pop_ready_ok s p qs Hok Hpop) as (Hok1 & Ha & Hp & _).
  destruct (install_ok (s <| run_queues := qs |>) c p Hok1 Hnone Ha) as (Hok2 & Hp2 & Hr).
  split; [done|]. split; [|done]. by rewrite Hp2, Hp.
Qed.

(** Leaving the processor: the outgoing process goes to the wait queue. *)
Lemma park_ok s c p frame st :
  sched_ok s -> running s = Some p -> st = Blocked \/ st = Zombie \/ st = Stopped ->
  let s' := push_wait (s <| running := None |>) ((save_context p frame c) <| state := st |>) in
  sched_ok s' /\ pids s' ≡ₚ pids s /\ running s' = None.
Proof.
  intros Hok Hrun Hst s'. destruct (take_running s p Hok Hrun) as (Hok1 & Ha & Hp & _).
  destruct (push_wait_ok (s <| running := None |>) ((save_context p frame c) <| state := st |>))
    as [Hok2 Hp2]; auto.
  - by apply (admissible_same _ p).
  - unfold s'. split; [done|]. split; [|done]. by rewrite Hp2, Hp.
Qed.

Lemma switch_after_park_ok s c s' c' tf :
  sched_ok s -> running s = None -> switch_after_park s c = Ok (s', c', tf) ->
  sched_ok s' /\ pids s' ≡ₚ pids s /\ tf = Saved.
Proof.
  intros Hok Hnone. unfold switch_after_park.
  destruct (pop_highest _ _) as [[p qs]|] eqn:Hpop; [|done].
  destruct (dispatch_ok s (write_fs_base (clear_current_fast c) (fs_base p)) p qs Hok Hnone Hpop)
    as (Hok1 & Hp1 & _).
  intros [= <- <- <-]. done.
Qed.

Lemma block_current_ok s c tf s' c' tf' :
  sched_ok s -> block_current s c tf = Ok (s', c', tf') -> sched_ok s' /\ pids s' ≡ₚ pids s /\ tf' = Saved.
Proof.
  intros Hok. unfold block_current. destruct (running s) as [p|] eqn:Hrun.
  - destruct (deref s c tf) as [frame|e|]; cbn [mbind outcome_bind]; [|done..].
    destruct (park_ok s c p frame Blocked Hok Hrun) as (Hok1 & Hp1 & Hn1); [by left|].
    intros H. destruct (switch_after_park_ok _ _ _ _ _ Hok1 Hn1 H) as (? & Hp2 & ?).
    split; [done|]. split; [by rewrite Hp2|done].
  - by apply switch_after_park_ok.
Qed.

Lemma stop_and_switch_tf_ok s c tf s' c' tf' :
  sched_ok s -> stop_and_switch_tf s c tf = Ok (s', c', tf') ->
  sched_ok s' /\ pids s' ≡ₚ pids s /\ tf' = Saved.
Proof.
  intros Hok. unfold stop_and_switch_tf. destruct (running s) as [p|] eqn:Hrun.
  - destruct (deref s c tf) as [frame|e|]; cbn [mbind outcome_bind]; [|done..].
    destruct (park_ok s c p frame Stopped Hok Hrun) as (Hok1 & Hp1 & Hn1); [auto|].
    intros H. destruct (switch_after_park_ok _ _ _ _ _ Hok1 Hn1 H) as (? & Hp2 & ?).
    split; [done|]. split; [by rewrite Hp2|done].
  - by apply switch_after_park_ok.
Qed.

Lemma kill_and_switch_tf_ok s c s' c' tf :
  sched_ok s -> kill_and_switch_tf s c = Ok (s', c', tf) ->
  sched_ok s' /\ tf = Saved /\
  pids s ≡ₚ (match running s with Some p => if is_thread p then [pid p] else [] | None => [] end) ++ pids s'.
Proof.
  intros Hok. unfold kill_and_switch_tf.
  set (gone := match running s with Some p => _ | None => _ end).
  assert (sched_ok (fst (kill_current s)) /\ running (fst (kill_current s)) = None /\
    pids s ≡ₚ gone ++ pids (fst (kill_current s))) as (Hok1 & Hn1 & Hp1).
  { unfold gone. destruct (running s) as [p|] eqn:Hrun.
    - by destruct (kill_current_ok s p Hok Hrun) as (? & ? & ?).
    - unfold kill_current. by rewrite Hrun. }
  destruct (pop_highest _ _) as [[p qs]|] eqn:Hpop; [|done].
  destruct (dispatch_ok _ c p qs Hok1 Hn1 Hpop) as (Hok2 & Hp2 & _).
  intros [= <- <- <-]. split; [exact Hok2|]. split; [done|]. rewrite Hp1. by rewrite <- Hp2.
Qed.

(** The save phase of [switch_to_next]. *)
Definition requeue (s : Scheduler) (c : Cpu) (proc : Process) (frame : TrapFrame) : Process :=
  let p := (save_context proc frame c) <| state := Ready |> in
  if negb (pid p =? 0) && (MIN_EFFECTIVE_PRIORITY <? effective_priority p)
  then p <| effective_priority := effective_priority p - 1 |> else p.

Lemma requeue_admissible s s' c p frame :
  admissible s' p -> admissible s' (requeue s c p frame) /\
  state (requeue s c p frame) = Ready /\ pid (requeue s c p frame) = pid p.
Proof.
  intros Ha. assert (pid (requeue s c p frame) = pid p) as Hpid
    by (unfold requeue; cbv zeta; by destruct (_ && _)).
  assert (state (requeue s c p frame) = Ready) by (unfold requeue; cbv zeta; by destruct (_ && _)).
  split; [|done]. destruct Ha as ([[He1 He2 He3] [Hs1 Hs2 Hs3]] & Hn & Hb).
  unfold admissible. rewrite Hpid. split_and!; auto; try lia.
  unfold requeue. cbv zeta. destruct (_ && _) eqn:Hd; [|by split; split].
  apply andb_prop in Hd as [_ Hd]. apply Z.ltb_lt in Hd. unfold MIN_EFFECTIVE_PRIORITY in Hd.
  simpl in Hd. split; [split|by split]; simpl; lia.
Qed.

Lemma switch_to_next_ok s c tf s' c' tf' :
  sched_ok s -> switch_to_next s c tf = Ok (s', c', tf') ->
  sched_ok s' /\ pids s' ≡ₚ pids s.
Proof.
  intros Hok. unfold switch_to_next. destruct (running s) as [p|] eqn:Hrun.
  - destruct (take_running s p Hok Hrun) as (Hok1 & Ha & Hp & Hst).
    set (s0 := s <| running := None |>) in *.
    destruct (deref s c tf) as [frame|e|]; cbn [mbind outcome_bind]; [|done..].
    change (state (save_context p frame c)) with (state p). rewrite Hst. cbn [mbind outcome_bind].
    fold (requeue s c p frame).
    destruct (requeue_admissible s s0 c p frame Ha) as (Ha1 & Hst1 & Hpid1).
    destruct (push_ready_ok s0 (requeue s c p frame) Hok1 Ha1 Hst1) as [Hok2 Hp2].
    change ((if _ && _ then _ else _)) with (requeue s c p frame).
    destruct (pop_highest _ _) as [[q qs]|] eqn:Hpop.
    + destruct (dispatch_ok (push_ready s0 (requeue s c p frame)) (write_fs_base c (fs_base q)) q qs)
        as (Hok3 & Hp3 & _); [done|done|done|].
      intros [= <- <- <-]. split; [done|]. etrans; [exact Hp3|]. by rewrite Hp2, Hpid1, Hp.
    + intros [= <- <- <-]. split; [done|]. by rewrite Hp2, Hpid1, Hp.
  - cbn [mbind outcome_bind]. destruct (pop_highest _ _) as [[q qs]|] eqn:Hpop.
    + destruct (dispatch_ok s (write_fs_base c (fs_base q)) q qs Hok Hrun Hpop) as (? & ? & _).
      intros [= <- <- <-]. done.
    + intros [= <- <- <-]. done.
Qed.

Lemma add_process_ok s p :
  sched_ok s -> state p = Ready -> 0 <= priority p <= 10 -> signals_ok p ->
  pid p ∉ pids s -> 0 <= pid p < next_pid s ->
  sched_ok (add_process s p) /\ pids (add_process s p) ≡ₚ pid p :: pids s.
Proof.
  intros Hok Hst Hpri [] Hnew Hb.
  destruct (push_ready_ok s (p <| effective_priority := priority p |>)) as [H1 H2]; auto.
  split; [|done]. split; split; simpl; auto; lia.
Qed.

(** *** Aging *)

Definition boostable (p : Process) : bool :=
  negb (pid p =? 0) && (effective_priority p <? priority p).
Definition boost (p : Process) : Process :=
  p <| effective_priority := Z.min (effective_priority p + 1) (priority p) |>.

(** A process at its base priority (idle keeps its own). *)
Definition raise (p : Process) : Process :=
  if pid p =? 0 then p else p <| effective_priority := priority p |>.

(** What one pass over queue [k] does. *)
Definition age_step (k : nat) (qs : list (list Process)) : list (list Process) :=
  alter (fun q => q ++ (boost <$> filter (fun p => boostable p = true) (qs !!! k))) (S k)
    (<[k := filter (fun p => boostable p = false) (qs !!! k)]> qs).

Definition aged_ok (k : nat) (p : Process) : Prop :=
  state p = Ready /\ queue_of p = k /\ pri_ok p.

Lemma boost_queue k p : aged_ok k p -> boostable p = true -> aged_ok (S k) (boost p).
Proof.
  intros (Hst & Hq & [He1 He2 He3]) Hb. apply andb_prop in Hb as [_ Hb]. apply Z.ltb_lt in Hb.
  unfold queue_of in Hq. split_and!; [done|unfold queue_of, boost; simpl; lia|].
  split; unfold boost; simpl; lia.
Qed.

Lemma raise_boost p : boostable p = true -> raise (boost p) = raise p.
Proof.
  intros Hb. apply andb_prop in Hb as [Hb _]. unfold raise. simpl pid.
  destruct (pid p =? 0); [done|]. done.
Qed.

Lemma raise_stay p : pri_ok p -> boostable p = false -> raise p = p.
Proof.
  intros [He1 He2 He3] Hb. unfold raise, boostable in *. destruct (pid p =? 0); [done|].
  simpl in Hb. apply Z.ltb_ge in Hb. assert (effective_priority p = priority p) as He by lia.
  destruct p; simpl in *; by subst.
Qed.

Lemma boostable_top p : aged_ok 10 p -> boostable p = false.
Proof.
  intros (_ & Hq & [He1 He2 He3]). unfold queue_of in Hq.
  apply andb_false_intro2, Z.ltb_ge. lia.
Qed.

(** The loop over one queue, from index [length front] on. *)
Lemma age_queue_loop k front todo n qs :
  (k < length qs)%nat -> qs !!! k = front ++ todo -> (length todo <= n)%nat ->
  Forall (aged_ok k) todo ->
  age_queue n k (length front) qs =
    Ok (alter (fun q => q ++ (boost <$> filter (fun p => boostable p = true) todo)) (S k)
          (<[k := front ++ filter (fun p => boostable p = false) todo]> qs)).
Proof.
  revert front n qs; induction todo as [|p todo IH]; intros front n qs Hlen Hk Hn Hall.
  - rewrite app_nil_r in Hk.
    assert (age_queue n k (length front) qs = Ok qs) as ->
      by (destruct n; cbn [age_queue]; by rewrite Hk, lookup_ge_None_2 by lia).
    change (filter (fun p => boostable p = false) []) with (@nil Process).
    change (boost <$> filter (fun p => boostable p = true) []) with (@nil Process).
    rewrite app_nil_r, <- Hk, list_insert_id by (by apply list_lookup_lookup_total_lt).
    f_equal. symmetry. apply list_alter_id. intros; apply app_nil_r.
  - apply list.Forall_cons in Hall as [Hp Hall]. destruct n as [|n]; [simpl in Hn; lia|].
    cbn [age_queue]. rewrite Hk, lookup_app_r, Nat.sub_diag by lia. cbn [lookup list_lookup].
    assert (boostable p = false -> age_queue n k (S (length front)) qs =
      Ok (alter (fun q => q ++ (boost <$> filter (fun p => boostable p = true) (p :: todo))) (S k)
        (<[k := front ++ filter (fun p => boostable p = false) (p :: todo)]> qs))) as Hstay.
    { intros Hb. rewrite !filter_cons.
      destruct (decide (boostable p = true)); [congruence|].
      destruct (decide (boostable p = false)); [|congruence].
      replace (S (length front)) with (length (front ++ [p])) by (rewrite length_app; simpl; lia).
      rewrite (IH (front ++ [p]) n qs); try done.
      - by rewrite <- app_assoc.
      - by rewrite <- app_assoc.
      - simpl in Hn; lia. }
    destruct (pid p =? 0) eqn:H0; [apply Hstay; unfold boostable; by rewrite H0|].
    destruct (effective_priority p <? priority p) eqn:Hlt;
      [|apply Hstay; unfold boostable; rewrite Hlt; apply andb_false_r].
    assert (boostable p = true) as Hb by (unfold boostable; by rewrite H0, Hlt).
    fold (boost p). destruct (boost_queue k p Hp Hb) as (_ & Hq & _). rewrite Hq.
    assert (k <> 10)%nat as Hk10 by (intros ->; by rewrite boostable_top in Hb).
    rewrite delete_middle.
    set (qs' := alter _ (S k) _).
    assert (qs' !!! k = front ++ todo) as Hk'.
    { unfold qs'. rewrite list_lookup_total_alter_ne by lia. by apply list_lookup_total_insert_eq. }
    rewrite (IH front n qs'); try done; [|by unfold qs'; rewrite length_alter, length_insert|simpl in Hn; lia].
    f_equal. rewrite !filter_cons.
    destruct (decide (boostable p = true)); [|congruence].
    destruct (decide (boostable p = false)); [congruence|].
    unfold qs'. rewrite !list_insert_alter, (list_alter_alter_ne _ _ _ k (S k)) by lia.
    rewrite !list_alter_alter_eq. apply list_alter_ext; [|done].
    intros q _. unfold compose. rewrite <- app_assoc. by rewrite fmap_cons.
Qed.

Definition queues_aged (qs : list (list Process)) : Prop :=
  length qs = NUM_PRIORITIES /\ forall i q p, qs !! i = Some q -> p ∈ q -> aged_ok i p.

Lemma queue_total (qs : list (list Process)) k q : length qs = NUM_PRIORITIES -> (k < 11)%nat -> qs !! k = Some q <-> qs !!! k = q.
Proof.
  intros Hlen Hk. destruct (lookup_lt_is_Some_2 qs k) as [r Hr]; [rewrite Hlen; done|].
  rewrite (list_lookup_total_correct _ _ _ Hr), Hr. naive_solver.
Qed.

Lemma list_alter_as_insert {A} (f : A -> A) (l : list A) (i : nat) x : l !! i = Some x -> alter f i l = <[i := f x]> l.
Proof. intros Hx. rewrite list_insert_alter. apply list_alter_ext; [|done]. intros y Hy. congruence. Qed.

Lemma queues_aged_total qs k : queues_aged qs -> (k < 11)%nat -> Forall (aged_ok k) (qs !!! k).
Proof.
  intros [Hlen H] Hk. apply Forall_forall. intros p Hp. apply (H k (qs !!! k)); [|done].
  by apply queue_total.
Qed.

Lemma age_step_ok k qs :
  queues_aged qs -> (k < 11)%nat ->
  age_queue (length (qs !!! k)) k 0 qs = Ok (age_step k qs) /\ queues_aged (age_step k qs) /\
  raise <$> concat (age_step k qs) ≡ₚ raise <$> concat qs /\
  (forall p, p ∈ age_step k qs !!! k -> boostable p = false) /\
  (forall j, (j < k)%nat -> age_step k qs !!! j = qs !!! j).
Proof.
  intros Hqs Hk. pose proof Hqs as [Hlen Hall]. pose proof (queues_aged_total qs k Hqs Hk) as Hq.
  unfold NUM_PRIORITIES in Hlen. set (q := qs !!! k) in *.
  assert (qs !! k = Some q) as Hqk by by apply queue_total.
  split_and!.
  - apply (age_queue_loop k [] q (length q) qs); [lia|done|done|done].
  - split; [unfold age_step; by rewrite length_alter, length_insert|].
    intros i r p. unfold age_step. fold q. destruct (decide (i = S k)) as [->|Hi].
    + rewrite list_lookup_alter_eq, list_lookup_insert_ne by lia.
      destruct (qs !! S k) as [x|] eqn:Hx; [|done]. intros [= <-] [Hp|Hp]%elem_of_app.
      { by apply (Hall (S k) x). }
      apply list_elem_of_fmap in Hp as (y & -> & Hy). apply list_elem_of_filter in Hy as [Hb Hy].
      apply boost_queue; [|done]. by apply (Hall k q).
    + rewrite list_lookup_alter_ne by lia. destruct (decide (i = k)) as [->|Hik].
      * rewrite list_lookup_insert_eq by lia. intros [= <-] [_ Hp]%list_elem_of_filter.
        by apply (Hall k q).
      * rewrite list_lookup_insert_ne by lia. apply Hall.
  - unfold age_step. fold q.
    set (stay := filter (fun p => boostable p = false) q).
    set (go := filter (fun p => boostable p = true) q).
    assert (stay ++ go ≡ₚ q) as Hsplit.
    { unfold stay, go. rewrite Permutation_app_comm.
      rewrite <- (filter_app_complement (fun p => boostable p = true) q) at 3.
      apply Permutation_app_head.
      rewrite (list_filter_iff _ (fun p => ~ boostable p = true)); [done|].
      intros x. destruct (boostable x); split; congruence. }
    assert (raise <$> (boost <$> go) = raise <$> go) as Hgo.
    { rewrite <- list_fmap_compose. apply list_fmap_ext. intros i x Hx.
      apply list_elem_of_lookup_2, list_elem_of_filter in Hx as [Hb _]. by apply raise_boost. }
    destruct (concat_insert qs k q stay Hqk) as (a & b & Ha & Hb).
    destruct (decide (k = 10%nat)) as [->|Hk10].
    + assert (go = []) as Hnil.
      { apply filter_all_false. eapply Forall_impl; [exact Hq|]. intros x Hx.
        by rewrite (boostable_top x Hx). }
      rewrite list_alter_id by (intros; by rewrite Hnil, app_nil_r). rewrite Hb, Ha.
      rewrite <- Hsplit, Hnil, app_nil_r. done.
    + destruct (lookup_lt_is_Some_2 qs (S k)) as [r Hr]; [lia|].
      rewrite (list_alter_as_insert _ _ _ r) by (by rewrite list_lookup_insert_ne by lia).
      destruct (concat_insert (<[k := stay]> qs) (S k) r (r ++ (boost <$> go))) as (a' & b' & Ha' & Hb').
      { by rewrite list_lookup_insert_ne by lia. }
      rewrite Hb', <- !app_assoc. rewrite !fmap_app, Hgo, <- !fmap_app.
      apply fmap_Permutation. transitivity (go ++ concat (<[k := stay]> qs)).
      { rewrite Ha'. rewrite !app_assoc. apply Permutation_app_tail.
        by rewrite Permutation_app_comm, !app_assoc. }
      rewrite Hb, Ha, <- Hsplit, <- !app_assoc. rewrite Permutation_app_comm, <- !app_assoc.
      apply Permutation_app_head, Permutation_app_head. by rewrite Permutation_app_comm.
  - intros p. unfold age_step. fold q. rewrite list_lookup_total_alter_ne by lia.
    rewrite list_lookup_total_insert_eq by lia. by intros [? _]%list_elem_of_filter.
  - intros j Hj. unfold age_step. rewrite list_lookup_total_alter_ne by lia.
    by rewrite list_lookup_total_insert_ne by lia.
Qed.

Lemma age_queues_ok n k qs :
  (k + n = 11)%nat -> queues_aged qs ->
  (forall j p, (j < k)%nat -> p ∈ qs !!! j -> boostable p = false) ->
  exists qs', age_queues (seq k n) qs = Ok qs' /\ queues_aged qs' /\
    raise <$> concat qs' ≡ₚ raise <$> concat qs /\
    (forall j p, (j < 11)%nat -> p ∈ qs' !!! j -> boostable p = false).
Proof.
  revert k qs; induction n as [|n IH]; intros k qs Hkn Hqs Hdone; cbn [seq age_queues].
  - exists qs. split_and!; [done|done|done|]. intros j p Hj. apply Hdone. lia.
  - destruct (age_step_ok k qs Hqs ltac:(lia)) as (-> & Hqs1 & Hp1 & Hstay & Hlow).
    cbn [mbind outcome_bind].
    destruct (IH (S k) (age_step k qs)) as (qs' & He & Hqs' & Hp' & Hall); [lia|done| |].
    + intros j p Hj Hin. destruct (decide (j = k)) as [->|]; [by apply Hstay|].
      rewrite Hlow in Hin by lia. apply (Hdone j); [lia|done].
    + exists qs'. split; [done|]. split; [done|]. split; [by rewrite Hp'|done].
Qed.

Lemma elem_of_concat_lookup (qs : list (list Process)) p :
  p ∈ concat qs <-> exists i q, qs !! i = Some q /\ p ∈ q.
Proof.
  rewrite list_elem_of_In, in_concat. split.
  - intros (q & Hq & Hp). apply list_elem_of_In, list_elem_of_lookup in Hq as (i & Hi).
    exists i, q. split; [done|]. by apply list_elem_of_In.
  - intros (i & q & Hi & Hp). exists q. split; [|by apply list_elem_of_In].
    apply list_elem_of_In. by eapply list_elem_of_lookup_2.
Qed.

Lemma sched_ok_aged s : sched_ok s -> queues_aged (run_queues s).
Proof.
  intros []. split; [done|]. intros i q p Hq Hp. destruct (queues_ready0 i q p Hq Hp) as [? ?].
  split_and!; [done|done|]. apply all_ok0. unfold iter_all. rewrite !elem_of_app. right; left.
  apply elem_of_concat_lookup. eauto.
Qed.

(** [age_processes] completes, and its effect on the ready processes. *)
Lemma age_processes_ok s :
  sched_ok s ->
  exists s', age_processes s = Ok s' /\ sched_ok s' /\ pids s' ≡ₚ pids s /\
    running s' = running s /\ wait_queue s' = wait_queue s /\ next_pid s' = next_pid s /\
    remaining_ticks s' = remaining_ticks s /\
    concat (run_queues s') ≡ₚ raise <$> concat (run_queues s).
Proof.
  intros Hok. pose proof (sched_ok_aged s Hok) as Hqs.
  destruct (age_queues_ok 11 0 (run_queues s) eq_refl Hqs) as (qs' & He & Hqs' & Hp & Hall); [intros; lia|].
  unfold age_processes, NUM_PRIORITIES. rewrite He. cbn [mbind outcome_bind].
  eexists. split; [done|]. pose proof Hqs' as [Hlen' Haged].
  assert (raise <$> concat qs' = concat qs') as Hid.
  { rewrite <- (list_fmap_id (concat qs')) at 2. apply list_fmap_ext. intros i p Hi.
    apply list_elem_of_lookup_2, elem_of_concat_lookup in Hi as (j & q & Hq & Hpq).
    destruct (Haged j q p Hq Hpq) as (_ & _ & Hpri). apply raise_stay; [done|].
    assert (j < 11)%nat by (apply lookup_lt_Some in Hq; by rewrite Hlen' in Hq).
    apply (Hall j p); [done|]. by rewrite (list_lookup_total_correct _ _ _ Hq). }
  rewrite Hid in Hp.
  assert (forall p, pid (raise p) = pid p) as Hrp by (intros p; unfold raise; by destruct (_ =? _)).
  assert (pid <$> concat qs' ≡ₚ pid <$> concat (run_queues s)) as Hpids.
  { rewrite Hp, <- list_fmap_compose. erewrite list_fmap_ext; [done|]. intros; apply Hrp. }
  set (s' := s <| run_queues := qs' |>).
  assert (pids s' ≡ₚ pids s) as Hps.
  { unfold pids, iter_all. rewrite !fmap_app. change (run_queues s') with qs'. by rewrite Hpids. }
  split; [|by split_and!]. destruct Hok.
  assert (forall p, p ∈ iter_all s' ->
    p ∈ iter_all s \/ exists x, x ∈ iter_all s /\ p = raise x) as Hsrc.
  { intros p. unfold iter_all. rewrite !elem_of_app. cbn.
    intros [|[Hin|]]; [tauto| |tauto]. rewrite Hp in Hin. apply list_elem_of_fmap in Hin as (x & -> & Hx).
    right. exists x. rewrite !elem_of_app. tauto. }
  split; auto.
  - intros i q p Hq Hpq. destruct (Haged i q p Hq Hpq) as (? & ? & _). done.
  - intros p [|(x & Hx & ->)]%Hsrc; [auto|]. destruct (all_ok0 x Hx) as [[] []].
    unfold raise. destruct (_ =? _); [by split; split|]. split; split; simpl; auto; lia.
  - by rewrite Hps.
  - intros p [|(x & Hx & ->)]%Hsrc; [auto|]. rewrite Hrp. auto.
Qed.

Lemma tick_ok sf vf s :
  sched_ok s -> exists s' b, tick sf vf s = Ok (s', b) /\ sched_ok s' /\ pids s' ≡ₚ pids s /\
    running s' = running s /\ wait_queue s' = wait_queue s /\ next_pid s' = next_pid s /\
    (0 <= remaining_ticks s -> remaining_ticks s' = Z.max 0 (remaining_ticks s - 1)) /\
    b = (remaining_ticks s' =? 0).
Proof.
  intros Hok. unfold tick. set (s1 := s <| global_ticks := _ |> <| pending_stack_frees := _ |>
    <| pending_vma_frees := _ |>).
  assert (sched_ok s1) as Hok1 by (destruct Hok; by split).
  set (aged := if _ =? 0 then age_processes s1 else Ok s1).
  assert (exists s2, aged = Ok s2 /\ sched_ok s2 /\ pids s2 ≡ₚ pids s /\ running s2 = running s /\
    wait_queue s2 = wait_queue s /\ next_pid s2 = next_pid s /\
    remaining_ticks s2 = remaining_ticks s) as (s2 & -> & Hok2 & Hp2 & Hr2 & Hw2 & Hn2 & Ht2).
  { unfold aged. destruct (_ =? 0); [|by exists s1].
    destruct (age_processes_ok s1 Hok1) as (s2 & -> & Hok2 & Hp2 & Hr2 & Hw2 & Hn2 & Ht2 & _).
    by exists s2. }
  cbn [mbind outcome_bind]. eexists _, _. split; [done|].
  destruct (Z.ltb_spec 0 (remaining_ticks s2)) as [Hpos|Hpos].
  - split; [destruct Hok2; by split|]. split_and!; auto. intros _. cbn. lia.
  - split; [done|]. split_and!; auto. intros H0. lia.
Qed.

Lemma start_first_ok s c s' c' tf :
  sched_ok s -> running s = None -> start_first s c = Ok (s', c', tf) ->
  sched_ok s' /\ pids s' ≡ₚ pids s.
Proof.
  intros Hok Hnone. unfold start_first.
  assert (forall n p qs, (n <= 11)%nat -> first_startable n (run_queues s) = Some (p, qs) ->
    exists k i, (k < 11)%nat /\ (run_queues s !!! k) !! i = Some p /\
      qs = <[k := delete i (run_queues s !!! k)]> (run_queues s)) as Hfs.
  { induction n as [|n IH]; intros p qs Hn; simpl; [done|]. destruct n as [|n]; [done|].
    destruct (position _ _) as [i|] eqn:Hi; [|intros; apply IH; auto; lia].
    apply position_Some in Hi as (x & Hx & _). rewrite Hx. intros [= -> <-]. exists (S n), i.
    split_and!; [lia|done|done]. }
  destruct (first_startable _ _) as [[p qs]|] eqn:Hf; [|done].
  destruct (Hfs NUM_PRIORITIES p qs) as (k & i & Hk & Hi & ->); [done|done|].
  set (s1 := s <| run_queues := <[k := delete i (run_queues s !!! k)]> (run_queues s) |>).
  pose proof Hok as [].
  assert (run_queues s !! k = Some (run_queues s !!! k)) as Hqk by by apply queue_total.
  destruct (sched_ok_remove s s1 p) as (Hok1 & Ha & Hp); auto.
  - unfold iter_all. cbn.
    destruct (concat_insert (run_queues s) k _ (delete i (run_queues s !!! k)) Hqk) as (a & b & Ha & Hb).
    rewrite Hb, Ha. rewrite (delete_Permutation _ _ _ Hi) at 1. rewrite !app_assoc.
    by rewrite <- Permutation_middle.
  - cbn. by rewrite length_insert.
  - intros j q x. cbn. rewrite list_lookup_insert_Some. intros [(-> & <- & _)|(_ & Hj)] Hx; [|eauto].
    apply (queues_ready0 j _ x Hqk). rewrite (delete_Permutation _ _ _ Hi). by right.
  - destruct (install_ok s1 c p Hok1 Hnone Ha) as (Hok2 & Hp2 & _).
    intros [= <- <- <-]. split; [done|]. by rewrite Hp, <- Hp2.
Qed.

(** *** Returning to user mode *)

(** A process that can still be scheduled, now or after a wakeup. *)
Definition alive (p : Process) : bool :=
  negb (bool_decide (state p = Zombie)) && negb (bool_decide (state p = Stopped)).

(** A user frame whose stack pointer leaves room for a signal frame. *)
Definition room (tf : TrapFrame) : bool := negb (cs tf =? USER_CS) || (320 <=? rsp tf).

Definition view (p : Process) : bool * bool := (alive p, room (trapframe p)).
Definition views (s : Scheduler) : list (bool * bool) := view <$> iter_all s.
Definition live_count (s : Scheduler) : nat := length (filter (fun v => v.1 = true) (views s)).

(** A kernel process (idle) that can run. *)
Definition idle_ok (s : Scheduler) : Prop :=
  exists p, p ∈ iter_all s /\ privilege p = Kernel /\ (state p = Ready \/ state p = Running).

Lemma view_tracks p q : tracks p q -> view q = view p.
Proof.
  intros (_ & Hst & _ & _ & _ & Hr & Hc). unfold view, alive, room. by rewrite Hst, Hr, Hc.
Qed.

Lemma views_tracks s s' : Forall2 tracks (iter_all s) (iter_all s') -> views s' = views s.
Proof.
  unfold views. induction 1 as [|x y l l' H _ IH]; [done|].
  rewrite !fmap_cons, IH. by rewrite (view_tracks x y).
Qed.

Lemma idle_tracks s s' : Forall2 tracks (iter_all s) (iter_all s') -> idle_ok s -> idle_ok s'.
Proof.
  intros H (p & Hp & Hk & Hst). apply list_elem_of_lookup in Hp as (i & Hi).
  destruct (Forall2_lookup_l _ _ _ _ _ H Hi) as (q & Hq & (_ & Hs & _ & _ & Hv & _)).
  exists q. split; [by eapply list_elem_of_lookup_2|]. rewrite Hs, Hv. done.
Qed.

Lemma iter_all_tracks s s' :
  option_Forall2 tracks (running s) (running s') ->
  Forall2 (Forall2 tracks) (run_queues s) (run_queues s') ->
  Forall2 tracks (wait_queue s) (wait_queue s') -> Forall2 tracks (iter_all s) (iter_all s').
Proof.
  intros Hrun Hqs Hwq. unfold iter_all.
  apply Forall2_app; [|apply Forall2_app; [by apply concat_tracks|done]].
  destruct Hrun as [x y Hxy|]; cbn [option_list]; [by apply list.Forall2_cons|done].
Qed.

Lemma wake_views s t :
  sched_ok s -> views (wake s t) ≡ₚ views s /\ (idle_ok s -> idle_ok (wake s t)) /\ running (wake s t) = running s.
Proof.
  intros Hok. unfold wake, wake_where. destruct (position _ _) as [pos|] eqn:Hpos; [|done].
  apply position_Some in Hpos as (p & Hp & Hst & _). rewrite Hp. cbn [fst].
  apply andb_prop in Hst as [_ Hst]. apply bool_decide_eq_true in Hst.
  pose proof (iter_all_remove_wait s pos p Hp) as Hr. set (s' := s <| wait_queue := _ |>) in *.
  assert (iter_all (push_ready s' (id (p <| state := Ready |>))) ≡ₚ (p <| state := Ready |>) :: iter_all s')
    as Hperm by (apply iter_all_push_ready; apply (queues_len s Hok)).
  split_and!; [|intros (x & Hx & Hk & Hs)|done].
  - unfold views. rewrite Hperm, Hr, !fmap_cons. f_equiv. unfold view, alive. rewrite Hst. done.
  - exists x. split; [|done]. rewrite Hperm. right. rewrite Hr in Hx.
    apply elem_of_cons in Hx as [->|]; [|done]. rewrite Hst in Hs. by destruct Hs.
Qed.

Ltac by_cases := repeat (case_match; simplify_eq/=; try done).

Lemma wake_where_next s t st g : next_pid (fst (wake_where s t st g)) = next_pid s.
Proof. unfold wake_where. by_cases. Qed.

(** What the notifications leave as it was. *)
Definition benign (s s' : Scheduler) : Prop :=
  sched_ok s' /\ views s' ≡ₚ views s /\ pids s' ≡ₚ pids s /\ (idle_ok s -> idle_ok s') /\
  (running s <> None -> running s' <> None) /\ next_pid s' = next_pid s.

Lemma benign_tracks s s' :
  sched_ok s -> option_Forall2 tracks (running s) (running s') ->
  Forall2 (Forall2 tracks) (run_queues s) (run_queues s') ->
  Forall2 tracks (wait_queue s) (wait_queue s') -> next_pid s' = next_pid s -> benign s s'.
Proof.
  intros Hok H1 H2 H3 H4. pose proof (iter_all_tracks s s' H1 H2 H3) as Ht.
  destruct (sched_ok_tracks s s') as [? Hp]; auto.
  split; [done|]. split; [by rewrite (views_tracks s s' Ht)|]. split; [by rewrite Hp|].
  split; [by apply idle_tracks|]. split; [by destruct H1|done].
Qed.

Lemma benign_trans s1 s2 s3 : benign s1 s2 -> benign s2 s3 -> benign s1 s3.
Proof.
  intros (? & Hv1 & Hp1 & Hi1 & Hr1 & Hn1) (? & Hv2 & Hp2 & Hi2 & Hr2 & Hn2).
  split; [done|]. split; [by rewrite Hv2|]. split; [by rewrite Hp2|].
  split; [auto|]. split; [auto|congruence].
Qed.

Lemma benign_wake s t : sched_ok s -> benign s (wake s t).
Proof.
  intros Hok. destruct (wake_views s t Hok) as (? & ? & Hr). destruct (wake_ok s t Hok).
  unfold benign. rewrite Hr. split_and!; auto. apply wake_where_next.
Qed.

Lemma benign_signal_parent s parent : sched_ok s -> benign s (signal_parent s parent).
Proof.
  intros Hok. assert (forall p, tracks p (queue_signal p SIGCHLD)) as Hg by (intros; by apply tracks_signal).
  assert (benign s s) as Hrefl by by apply benign_tracks.
  unfold signal_parent. destruct parent as [ppid|]; [|done].
  case_bool_decide; [apply benign_tracks; auto; by apply option_tracks_fmap|].
  unfold find_process_mut. destruct (update_queues _ _ _) as [qs|] eqn:Hqs; cbn [default].
  - apply benign_tracks; auto. eapply update_queues_tracks; [|exact Hqs]; exact Hg.
  - destruct (update_first _ _ _) as [w|] eqn:Hw; simpl; [|done].
    apply benign_tracks; auto. eapply update_first_tracks; [|exact Hw]; exact Hg.
Qed.

Lemma benign_wait s w :
  sched_ok s -> Forall2 tracks (wait_queue s) w -> benign s (s <| wait_queue := w |>).
Proof. intros. by apply benign_tracks. Qed.

Lemma notify_child_death_benign s dead parent : sched_ok s -> benign s (notify_child_death s dead parent).
Proof.
  intros Hok. unfold notify_child_death. pose proof (benign_signal_parent s parent Hok) as Hb1.
  set (s1 := signal_parent s parent) in *. cbv zeta.
  destruct (List.find _ _) as [p|]; [|done].
  destruct (update_first _ _ _) as [w|] eqn:Hw; [|done].
  apply update_first_tracks in Hw; [|intros; apply wait_result_tracks].
  pose proof (benign_wait s1 w (proj1 Hb1) Hw) as Hb2.
  eapply benign_trans; [exact Hb1|]. eapply benign_trans; [exact Hb2|]. apply benign_wake, Hb2.
Qed.

Lemma notify_child_stopped_benign s who parent : sched_ok s -> benign s (notify_child_stopped s who parent).
Proof.
  intros Hok. unfold notify_child_stopped. pose proof (benign_signal_parent s parent Hok) as Hb1.
  set (s1 := signal_parent s parent) in *. cbv zeta.
  destruct (List.find _ _) as [st|]; [|done].
  destruct (List.find _ _) as [p|]; [|done].
  destruct (update_first _ _ _) as [w|] eqn:Hw; [|done].
  apply update_first_tracks in Hw; [|intros; apply wait_result_tracks].
  pose proof (benign_wait s1 w (proj1 Hb1) Hw) as Hb2.
  set (w' := default w _).
  assert (Forall2 tracks (wait_queue (s1 <| wait_queue := w |>)) w') as Hw'.
  { unfold w'. destruct (update_first _ _ w) as [v|] eqn:Hv; [|done].
    eapply update_first_tracks; [|exact Hv]. intros; by apply tracks_core. }
  pose proof (benign_wait _ w' (proj1 Hb2) Hw') as Hb3.
  eapply benign_trans; [exact Hb1|]. eapply benign_trans; [exact Hb2|].
  change (s1 <| wait_queue := w |> <| wait_queue := w' |>) with (s1 <| wait_queue := w' |>) in Hb3.
  eapply benign_trans; [exact Hb3|]. apply benign_wake, Hb3.
Qed.

(** With idle around there is always a process to switch to. *)
Lemma idle_pop s :
  sched_ok s -> idle_ok s -> (forall p, running s = Some p -> privilege p = User) ->
  exists p qs, pop_highest NUM_PRIORITIES (run_queues s) = Some (p, qs).
Proof.
  intros Hok (x & Hx & Hk & Hst) Hrun.
  destruct (pop_highest NUM_PRIORITIES (run_queues s)) as [[p qs]|] eqn:Hpop; [by exists p, qs|].
  exfalso. rewrite pop_highest_None in Hpop. destruct Hok. unfold iter_all in Hx.
  rewrite !elem_of_app in Hx. destruct Hx as [Hx|[Hx|Hx]].
  - destruct (running s) as [p|]; [|by apply elem_of_nil in Hx].
    apply list_elem_of_singleton in Hx as ->. rewrite (Hrun p eq_refl) in Hk. done.
  - apply elem_of_concat_lookup in Hx as (i & q & Hi & Hxq).
    assert (i < 11)%nat as Hlt by (apply lookup_lt_Some in Hi; by rewrite queues_len0 in Hi).
    specialize (Hpop i Hlt). rewrite (list_lookup_total_correct _ _ _ Hi) in Hpop. subst.
    by apply elem_of_nil in Hxq.
  - destruct (wait_parked0 x Hx) as [H|[H|H]]; rewrite H in Hst; by destruct Hst.
Qed.

(** Effect of a dispatch on what the loop depends on. *)
Lemma dispatch_views s c p qs :
  sched_ok s -> running s = None -> pop_highest NUM_PRIORITIES (run_queues s) = Some (p, qs) ->
  let s' := fst (install p (s <| run_queues := qs |>) c) in
  iter_all s' ≡ₚ (p <| state := Running |>) :: iter_all (s <| run_queues := qs |>) /\
  views s' ≡ₚ views s /\ (idle_ok s -> idle_ok s').
Proof.
  intros Hok Hnone Hpop s'. pose proof (iter_all_pop _ _ _ _ Hpop) as Hp.
  destruct (pop_ready_ok s p qs Hok Hpop) as (_ & _ & _ & Hst).
  assert (iter_all s' = (p <| state := Running |>) :: iter_all (s <| run_queues := qs |>)) as Hi.
  { unfold iter_all, s'. cbn. by rewrite Hnone. }
  split; [by rewrite Hi|]. split.
  - unfold views. rewrite Hi, Hp, !fmap_cons. f_equiv. unfold view, alive. by rewrite Hst.
  - intros (x & Hx & Hk & Hs). rewrite Hp in Hx. apply elem_of_cons in Hx as [->|Hx].
    + exists (p <| state := Running |>). rewrite Hi. split; [by left|]. auto.
    + exists x. rewrite Hi. split; [by right|]. auto.
Qed.

Record resolvable (w : World) : Prop := {
  res_ok : sched_ok (sched w);
  res_idle : idle_ok (sched w);
  res_room : forall p, p ∈ iter_all (sched w) -> room (trapframe p) = true;
  res_live : room (live_tf (cpu w)) = true;
  res_running : running (sched w) <> None;
}.

Lemma room_views s : (forall p, p ∈ iter_all s -> room (trapframe p) = true) <->
  Forall (fun v => v.2 = true) (views s).
Proof.
  unfold views. rewrite Forall_fmap, Forall_forall. done.
Qed.

Lemma live_count_perm s s' : views s' ≡ₚ views s -> live_count s' = live_count s.
Proof. intros H. unfold live_count. by rewrite H. Qed.

(** Killing the running user process: the next one is dispatched, and one
    process fewer can still be scheduled. *)
Lemma kill_and_switch_views s c p :
  sched_ok s -> idle_ok s -> running s = Some p -> privilege p = User ->
  (forall x, x ∈ iter_all s -> room (trapframe x) = true) ->
  exists s' c', kill_and_switch_tf s c = Ok (s', c', Saved) /\ idle_ok s' /\
    (forall x, x ∈ iter_all s' -> room (trapframe x) = true) /\ live_tf c' = live_tf c /\
    (live_count s' + 1 = live_count s)%nat /\ running s' <> None.
Proof.
  intros Hok Hidle Hrun Huser Hroom. destruct (kill_current_ok s p Hok Hrun) as (Hok1 & Hn1 & _).
  set (s1 := fst (kill_current s)) in *.
  assert (exists dead, iter_all s ≡ₚ p :: iter_all (s <| running := None |>) /\
    iter_all s1 ≡ₚ dead ++ iter_all (s <| running := None |>) /\
    Forall (fun x => alive x = false /\ trapframe x = trapframe p) dead) as (dead & Hs & Hs1 & Hdead).
  { unfold s1, kill_current. rewrite Hrun. rewrite (iter_all_running s p Hrun).
    destruct (is_thread p); [exists []; by destruct (owned_stack_vma p) as [[]|]|].
    exists [p <| state := Zombie |>]. cbn [fst]. split; [done|]. split; [by rewrite iter_all_push_wait|].
    constructor; [done|constructor]. }
  assert (idle_ok s1) as Hidle1.
  { destruct Hidle as (x & Hx & Hk & Hst). exists x. split; [|done]. rewrite Hs in Hx. rewrite Hs1.
    apply elem_of_cons in Hx as [->|Hx]; [congruence|]. apply elem_of_app. by right. }
  destruct (idle_pop s1 Hok1 Hidle1) as (q & qs & Hpop); [by rewrite Hn1|].
  unfold kill_and_switch_tf. fold s1. rewrite Hpop.
  destruct (dispatch_views s1 c q qs Hok1 Hn1 Hpop) as (_ & Hv & Hi).
  eexists _, _. split; [done|]. split; [by apply Hi|]. split; [|split; [done|split; [|done]]].
  - apply room_views. change (views _) with (views (fst (install q (s1 <| run_queues := qs |>) c))).
    rewrite Hv. apply room_views. intros x. rewrite Hs1, elem_of_app. intros [Hx|Hx].
    + rewrite Forall_forall in Hdead. destruct (Hdead x Hx) as [_ ->]. apply Hroom. rewrite Hs. by left.
    + apply Hroom. rewrite Hs. by right.
  - rewrite (live_count_perm s1); [|exact Hv]. unfold live_count, views. rewrite Hs1, Hs.
    rewrite fmap_app, filter_app, fmap_cons, filter_cons.
    assert (alive p = true) as Ha by (unfold alive; by rewrite (running_running s Hok p Hrun)).
    rewrite (filter_all_false _ (view <$> dead)).
    + rewrite decide_True by done. simpl. lia.
    + apply Forall_fmap. eapply Forall_impl; [exact Hdead|]. intros x [Hx _]. simpl. congruence.
Qed.

Lemma stop_and_switch_views s c tf frame p :
  sched_ok s -> idle_ok s -> running s = Some p -> privilege p = User ->
  (forall x, x ∈ iter_all s -> room (trapframe x) = true) ->
  deref s c tf = Ok frame -> room frame = true ->
  exists s' c', stop_and_switch_tf s c tf = Ok (s', c', Saved) /\ idle_ok s' /\
    (forall x, x ∈ iter_all s' -> room (trapframe x) = true) /\ live_tf c' = live_tf c /\
    (live_count s' + 1 = live_count s)%nat /\ running s' <> None.
Proof.
  intros Hok Hidle Hrun Huser Hroom Hd Hf.
  destruct (park_ok s c p frame Stopped Hok Hrun) as (Hok1 & _ & Hn1); [auto|].
  set (p1 := (save_context p frame c) <| state := Stopped |>) in *.
  set (s1 := push_wait (s <| running := None |>) p1) in *.
  assert (iter_all s ≡ₚ p :: iter_all (s <| running := None |>)) as Hs by by rewrite (iter_all_running s p Hrun).
  assert (iter_all s1 ≡ₚ p1 :: iter_all (s <| running := None |>)) as Hs1 by apply iter_all_push_wait.
  assert (idle_ok s1) as Hidle1.
  { destruct Hidle as (x & Hx & Hk & Hst). exists x. split; [|done]. rewrite Hs in Hx. rewrite Hs1.
    apply elem_of_cons in Hx as [->|Hx]; [congruence|]. by right. }
  destruct (idle_pop s1 Hok1 Hidle1) as (q & qs & Hpop); [by rewrite Hn1|].
  unfold stop_and_switch_tf. rewrite Hrun, Hd. cbn [mbind outcome_bind].
  fold p1. fold s1. unfold switch_after_park. rewrite Hpop.
  set (c1 := write_fs_base (clear_current_fast c) (fs_base q)).
  destruct (dispatch_views s1 c1 q qs Hok1 Hn1 Hpop) as (_ & Hv & Hi).
  eexists _, _. split; [done|]. split; [by apply Hi|]. split; [|split; [done|split; [|done]]].
  - apply room_views. change (views _) with (views (fst (install q (s1 <| run_queues := qs |>) c1))).
    rewrite Hv. apply room_views. intros x. rewrite Hs1. intros [->|Hx]%elem_of_cons; [done|].
    apply Hroom. rewrite Hs. by right.
  - rewrite (live_count_perm s1); [|exact Hv]. unfold live_count, views. rewrite Hs1, Hs.
    rewrite !fmap_cons, !filter_cons.
    assert (alive p = true) as Ha by (unfold alive; by rewrite (running_running s Hok p Hrun)).
    rewrite decide_False by done. rewrite decide_True by done. simpl. lia.
Qed.

(** Marking the running process before it is killed or stopped. *)
Lemma benign_mark s g :
  sched_ok s -> (forall p, tracks p (g p)) -> benign s (s <| running := g <$> running s |>).
Proof. intros. apply benign_tracks; auto. by apply option_tracks_fmap. Qed.

Lemma benign_room s s' :
  benign s s' -> (forall p, p ∈ iter_all s -> room (trapframe p) = true) ->
  forall p, p ∈ iter_all s' -> room (trapframe p) = true.
Proof. intros (_ & Hv & _) H. apply room_views. rewrite Hv. by apply room_views. Qed.

Lemma terminate_running_ok w p sig :
  resolvable w -> running (sched w) = Some p -> privilege p = User ->
  exists w', terminate_running w sig = Ok (w', Saved) /\ resolvable w' /\
    (live_count (sched w') + 1 = live_count (sched w))%nat /\
    (forall x, x ∈ pids (sched w') -> x ∈ pids (sched w)).
Proof.
  intros [Hok Hidle Hroom Hlive Hne] Hrun Huser. unfold terminate_running. rewrite Hrun.
  set (s1 := (sched w) <| running := _ |>).
  assert (benign (sched w) s1) as Hb1.
  { unfold s1. rewrite <- Hrun. apply benign_mark; [done|]. intros; by apply tracks_core. }
  pose proof Hb1 as (Hok1 & Hv1 & Hp1 & Hi1 & _).
  destruct (kill_and_switch_views s1 (cpu w) (p <| killed_by_signal := Some sig |>))
    as (s2 & c2 & He & Hidle2 & Hroom2 & Hl2 & Hc2 & Hr2); auto; [by eapply benign_room|].
  rewrite He. cbn [mbind outcome_bind].
  destruct (kill_and_switch_tf_ok _ _ _ _ _ Hok1 He) as (Hok2 & _ & Hp2).
  set (parent := if is_thread p then None else parent_pid p).
  pose proof (notify_child_death_benign s2 (pid p) parent Hok2) as Hb3.
  eexists. split; [done|]. cbn. destruct Hb3 as (Hok3 & Hv3 & Hp3 & Hi3 & Hr3 & _).
  split; [split; cbn; auto; [|by rewrite Hl2]|split].
  - apply room_views. rewrite Hv3. by apply room_views.
  - rewrite (live_count_perm s2 _ Hv3), Hc2. by apply live_count_perm.
  - intros x. rewrite Hp3, <- Hp1, Hp2. intros. apply elem_of_app. by right.
Qed.

Lemma stop_running_ok w tf frame p sig :
  resolvable w -> running (sched w) = Some p -> privilege p = User ->
  deref (sched w) (cpu w) tf = Ok frame -> room frame = true ->
  exists w', stop_running w tf sig = Ok (w', Saved) /\ resolvable w' /\
    (live_count (sched w') + 1 = live_count (sched w))%nat /\
    (forall x, x ∈ pids (sched w') -> x ∈ pids (sched w)).
Proof.
  intros [Hok Hidle Hroom Hlive Hne] Hrun Huser Hd Hf. unfold stop_running. rewrite Hrun.
  set (s1 := (sched w) <| running := _ |>).
  assert (benign (sched w) s1) as Hb1.
  { unfold s1. rewrite <- Hrun. apply benign_mark; [done|]. intros; by apply tracks_core. }
  pose proof Hb1 as (Hok1 & Hv1 & Hp1 & Hi1 & _).
  assert (deref s1 (cpu w) tf = Ok frame) as Hd1.
  { destruct tf; [done|]. cbn in Hd |- *. by rewrite Hrun in Hd. }
  destruct (stop_and_switch_views s1 (cpu w) tf frame
    (p <| stopped_by_signal := Some sig |> <| stop_reported := false |>))
    as (s2 & c2 & He & Hidle2 & Hroom2 & Hl2 & Hc2 & Hr2); auto; [by eapply benign_room|].
  rewrite He. cbn [mbind outcome_bind].
  destruct (stop_and_switch_tf_ok _ _ _ _ _ _ Hok1 He) as (Hok2 & Hp2 & _).
  pose proof (notify_child_stopped_benign s2 (pid p) (parent_pid p) Hok2) as Hb3.
  eexists. split; [done|]. cbn. destruct Hb3 as (Hok3 & Hv3 & Hp3 & Hi3 & Hr3 & _).
  split; [split; cbn; auto; [|by rewrite Hl2]|split].
  - apply room_views. rewrite Hv3. by apply room_views.
  - rewrite (live_count_perm s2 _ Hv3), Hc2. by apply live_count_perm.
  - intros x. by rewrite Hp3, Hp2, Hp1.
Qed.

Lemma replace_running_ok s p q :
  sched_ok s -> running s = Some p -> pid q = pid p -> state q = state p -> proc_ok q ->
  let s' := s <| running := Some q |> in sched_ok s' /\ pids s' = pids s.
Proof.
  intros Hok Hrun Hpid Hst Hq s'. destruct (take_running s p Hok Hrun) as (Hok1 & (_ & Hn & Hb) & Hp & Hr).
  destruct (sched_ok_add (s <| running := None |>) s' q) as [Hok2 _]; auto.
  - unfold admissible. rewrite Hpid. done.
  - apply Hok.
  - apply Hok.
  - apply Hok.
  - intros x. cbn. intros [= <-]. congruence.
  - split; [done|]. rewrite Hp. unfold pids. by rewrite <- Hpid.
Qed.

Lemma deliver_running_ok w tf frame :
  resolvable w -> deref (sched w) (cpu w) tf = Ok frame -> cs frame = USER_CS ->
  exists w1 out, deliver_running w tf frame = Ok (w1, out) /\
    sched_ok (sched w1) /\ idle_ok (sched w1) /\ running (sched w1) <> None /\
    pids (sched w1) = pids (sched w) /\ room frame = true /\
    ((exists sig, out = Terminate sig \/ out = Stop sig) ->
       resolvable w1 /\ live_count (sched w1) = live_count (sched w) /\
       deref (sched w1) (cpu w1) tf = Ok frame /\
       exists p, running (sched w1) = Some p /\ privilege p = User).
Proof.
  intros [Hok Hidle Hroom Hlive Hne] Hd Hcs.
  destruct (running (sched w)) as [p|] eqn:Hrun; [|done].
  assert (p ∈ iter_all (sched w)) as Hin by (rewrite (iter_all_running _ _ Hrun); by left).
  assert (room frame = true) as Hf.
  { destruct tf; cbn in Hd; [injection Hd as <-; done|]. rewrite Hrun in Hd.
    injection Hd as <-. by apply Hroom. }
  unfold deliver_running. rewrite Hrun. case_bool_decide as Hpriv.
  2:{ exists w, NoSignal. split; [done|]. rewrite Hrun. split_and!; auto. intros (sig & [?|?]); done. }
  destruct (all_ok _ Hok p Hin) as [Hpri Hsig].
  destruct (deliver_pending_total (active_mem w) p frame Hsig) as (m' & p' & tf' & out & He & Hcase).
  { unfold room in Hf. rewrite Hcs in Hf. cbn in Hf. by apply Z.leb_le. }
  destruct (deliver_pending_process _ _ _ _ _ _ _ Hsig He) as (pend & blk & Hp' & Hsig').
  rewrite He. cbn [mbind outcome_bind].
  assert (proc_ok p') as Hokp' by (split; [rewrite Hp'; by destruct Hpri|done]).
  assert (idle_ok (sched w) -> forall q, idle_ok ((sched w) <| running := Some q |>)) as Hidle'.
  { intros (x & Hx & Hk & Hst) q. exists x. split; [|done].
    rewrite (iter_all_running _ _ Hrun) in Hx. apply elem_of_cons in Hx as [->|Hx]; [congruence|]. by right. }
  set (q := match tf with Live => p' | Saved => p' <| trapframe := tf' |> end).
  destruct (replace_running_ok (sched w) p q Hok Hrun) as [Hok1 Hp1];
    [by unfold q; destruct tf; rewrite Hp'|by unfold q; destruct tf; rewrite Hp'
    |unfold q; destruct tf; [done|by destruct Hokp' as [[] []]; split; split]|].
  assert ((exists sig, out = Terminate sig \/ out = Stop sig) -> tf' = frame) as Hsame.
  { intros Hout. destruct Hcase as [(_ & _ & _ & -> & _)|(sig & _ & _ & (_ & _ & _ & _ & Hnd))]; [done|].
    apply Hnd. destruct Hout as (? & [-> | ->]); done. }
  assert ((exists sig, out = Terminate sig \/ out = Stop sig) -> tracks p q) as Ht.
  { intros Hout. unfold q. destruct tf; [|rewrite (Hsame Hout)]; rewrite Hp'.
    - split_and!; try done. by rewrite <- Hp'.
    - cbn in Hd. rewrite Hrun in Hd. injection Hd as Hd. split_and!; try done; cbn; try (by rewrite Hd).
      intros _. rewrite Hp' in Hokp'. destruct Hokp' as [[] []]; split; by split. }
  assert (privilege q = User) as Hqu by (unfold q; destruct tf; by rewrite Hp').
  assert (exists w1, (let '(s2, c2) := store ((sched w) <| running := Some p' |>) (cpu w) tf tf' in
     Ok (E := stuck) (set_active_mem (w <| sched := s2 |> <| cpu := c2 |>) m', out)) = Ok (w1, out) /\
     sched w1 = (sched w) <| running := Some q |> /\
     live_tf (cpu w1) = match tf with Live => tf' | Saved => live_tf (cpu w) end) as (w1 & He1 & Hs1 & Hc1)
    by (unfold q; destruct tf; eexists; split_and!; done).
  exists w1, out. split; [exact He1|]. rewrite Hs1. split; [done|]. split; [by apply Hidle'|].
  split; [done|]. split; [done|]. split; [done|]. intros Hout.
  assert (benign (sched w) ((sched w) <| running := Some q |>)) as Hb
    by (apply benign_tracks; auto; rewrite Hrun; constructor; by apply Ht).
  split; [split; rewrite ?Hs1, ?Hc1; [exact Hok1|by apply Hidle'|by apply (benign_room _ _ Hb)|
    destruct tf; [by rewrite Hsame|done]|done]|].
  split; [apply (live_count_perm _ _ (proj1 (proj2 Hb)))|]. split; [|by exists q].
  destruct tf; cbn; [by rewrite Hc1, Hsame|by rewrite Hsame].
Qed.

Lemma resolve_signals_ok n w tf :
  resolvable w -> (live_count (sched w) <= n)%nat ->
  exists w' tf', resolve_signals n w tf = Ok (w', tf') /\
    sched_ok (sched w') /\ idle_ok (sched w') /\ running (sched w') <> None /\
    (forall x, x ∈ pids (sched w') -> x ∈ pids (sched w)).
Proof.
  revert w tf; induction n as [|n IH]; intros w tf Hres Hn.
  - exfalso. destruct Hres as [Hok Hidle _ _ _]. destruct Hidle as (x & Hx & _ & Hst).
    apply list_elem_of_lookup in Hx as (i & Hi). unfold live_count, views in Hn.
    assert (view x ∈ filter (fun v => v.1 = true) (view <$> iter_all (sched w))) as Hin.
    { apply list_elem_of_filter. split; [unfold view, alive; by destruct Hst as [-> | ->]|].
      apply list_elem_of_fmap. exists x. split; [done|]. by eapply list_elem_of_lookup_2. }
    destruct (filter _ _) as [|v l]; [by apply elem_of_nil in Hin|simpl in Hn; lia].
  - assert (exists frame, deref (sched w) (cpu w) tf = Ok frame) as [frame Hd].
    { destruct tf; [by eexists|]. cbn. destruct Hres as [_ _ _ _ Hr].
      destruct (running (sched w)); [by eexists|done]. }
    cbn [resolve_signals]. rewrite Hd. cbn [mbind outcome_bind].
    destruct (Z.eqb_spec (cs frame) USER_CS) as [Hcs|Hcs]; cbn [negb].
    2:{ exists w, tf. destruct Hres. done. }
    destruct (deliver_running_ok w tf frame Hres Hd Hcs)
      as (w1 & out & He & Hok1 & Hidle1 & Hr1 & Hp1 & Hf & Hcont).
    rewrite He. cbn [mbind outcome_bind].
    assert (forall w2, resolvable w2 -> (live_count (sched w2) + 1 = live_count (sched w))%nat ->
      (forall x, x ∈ pids (sched w2) -> x ∈ pids (sched w)) ->
      exists w' tf', resolve_signals n w2 Saved = Ok (w', tf') /\
        sched_ok (sched w') /\ idle_ok (sched w') /\ running (sched w') <> None /\
        (forall x, x ∈ pids (sched w') -> x ∈ pids (sched w))) as Hnext.
    { intros w2 Hres2 Hc2 Hp2. destruct (IH w2 Saved Hres2) as (w' & tf' & ? & ? & ? & ? & ?); [lia|].
      exists w', tf'. split_and!; auto. }
    destruct out as [| |sig|sig]; [exists w1, tf; rewrite <- Hp1; done..| |].
    + destruct Hcont as (Hres1 & Hc1 & _ & p & Hrun & Hu); [by eexists; left|].
      destruct (terminate_running_ok w1 p sig Hres1 Hrun Hu) as (w2 & He2 & Hres2 & Hc2 & Hp2).
      rewrite He2. cbn [mbind outcome_bind]. apply Hnext; [done|lia|]. rewrite <- Hp1. done.
    + destruct Hcont as (Hres1 & Hc1 & Hd1 & p & Hrun & Hu); [by eexists; right|].
      destruct (stop_running_ok w1 tf frame p sig Hres1 Hrun Hu Hd1 Hf) as (w2 & He2 & Hres2 & Hc2 & Hp2).
      rewrite He2. cbn [mbind outcome_bind]. apply Hnext; [done|lia|]. rewrite <- Hp1. done.
Qed.

Lemma live_count_le s : (live_count s <= length (iter_all s))%nat.
Proof. unfold live_count, views. rewrite length_filter. by rewrite length_fmap. Qed.

Lemma resolve_wait_status_ok w :
  sched_ok (sched w) -> sched_ok (sched (resolve_wait_status w)) /\
  pids (sched (resolve_wait_status w)) = pids (sched w).
Proof.
  intros Hok. unfold resolve_wait_status. destruct (running (sched w)) as [p|] eqn:Hrun; [|done].
  destruct (pending_wait_status p); [|done].
  destruct (replace_running_ok (sched w) p
    (p <| pending_wait_status := None |> <| waiting_status_ptr := 0 |>) Hok Hrun) as [H1 H2]; try done.
  - assert (proc_ok p) as Hp by (apply Hok; rewrite (iter_all_running _ _ Hrun); by left).
    destruct Hp as [[] []]. by split; split.
  - by destruct (_ =? 0).
Qed.

(** *** The pid counter *)

(** Evolution of the process set: well-formed containers, and no pid that was
    handed out before comes back. *)
Definition evolves (s s' : Scheduler) : Prop :=
  sched_ok s' /\ next_pid s <= next_pid s' /\
  forall x, x ∈ pids s' -> x ∈ pids s \/ next_pid s <= x.

Lemma evolves_refl s : sched_ok s -> evolves s s.
Proof. intros. split_and!; [done|lia|auto]. Qed.

Lemma evolves_trans s1 s2 s3 : evolves s1 s2 -> evolves s2 s3 -> evolves s1 s3.
Proof.
  intros (? & ? & H1) (? & ? & H2). split_and!; [done|lia|].
  intros x [Hx|?]%H2; [|right; lia]. apply H1 in Hx as [|]; [by left|right; lia].
Qed.

Lemma evolves_sub s s' :
  sched_ok s' -> next_pid s' = next_pid s -> (forall x, x ∈ pids s' -> x ∈ pids s) -> evolves s s'.
Proof. intros ? Hn ?. split_and!; [done|lia|auto]. Qed.

Lemma evolves_perm s s' :
  sched_ok s' -> next_pid s' = next_pid s -> pids s' ≡ₚ pids s -> evolves s s'.
Proof. intros ? ? Hp. apply evolves_sub; auto. intros x. by rewrite Hp. Qed.

Lemma evolves_eq s s' :
  sched_ok s' -> next_pid s' = next_pid s -> pids s' = pids s -> evolves s s'.
Proof. intros ? ? Hp. apply evolves_sub; auto. intros x. by rewrite Hp. Qed.

Lemma kill_current_next s : next_pid (fst (kill_current s)) = next_pid s.
Proof. unfold kill_current. by_cases. Qed.

Lemma kill_and_switch_next s c s' c' tf :
  kill_and_switch_tf s c = Ok (s', c', tf) -> next_pid s' = next_pid s.
Proof.
  unfold kill_and_switch_tf. rewrite <- (kill_current_next s).
  destruct (pop_highest _ _) as [[p qs]|]; [|done]. by intros [= <- <- <-].
Qed.

Lemma switch_after_park_next s c s' c' tf :
  switch_after_park s c = Ok (s', c', tf) -> next_pid s' = next_pid s.
Proof.
  unfold switch_after_park. destruct (pop_highest _ _) as [[p qs]|]; [|done]. by intros [= <- <- <-].
Qed.

Lemma block_current_next s c tf s' c' tf' :
  block_current s c tf = Ok (s', c', tf') -> next_pid s' = next_pid s.
Proof.
  unfold block_current. destruct (running s) as [p|].
  - destruct (deref s c tf); cbn [mbind outcome_bind]; [|done..]. by intros ->%switch_after_park_next.
  - apply switch_after_park_next.
Qed.

Lemma stop_and_switch_next s c tf s' c' tf' :
  stop_and_switch_tf s c tf = Ok (s', c', tf') -> next_pid s' = next_pid s.
Proof.
  unfold stop_and_switch_tf. destruct (running s) as [p|].
  - destruct (deref s c tf); cbn [mbind outcome_bind]; [|done..]. by intros ->%switch_after_park_next.
  - apply switch_after_park_next.
Qed.

Lemma switch_to_next_next s c tf s' c' tf' :
  switch_to_next s c tf = Ok (s', c', tf') -> next_pid s' = next_pid s.
Proof.
  unfold switch_to_next. destruct (running s) as [p|].
  - destruct (deref s c tf) as [fr| |]; cbn [mbind outcome_bind]; [|done..].
    destruct (state (save_context p fr c)); cbn [mbind outcome_bind];
      (destruct (pop_highest _ _) as [[q qs]|]; by intros [= <- <- <-]).
  - cbn [mbind outcome_bind]. destruct (pop_highest _ _) as [[q qs]|]; by intros [= <- <- <-].
Qed.

Lemma find_process_mut_next s t g s' : find_process_mut s t g = Some s' -> next_pid s' = next_pid s.
Proof.
  unfold find_process_mut. destruct (update_queues _ _ _); [by intros [= <-]|].
  destruct (update_first _ _ _); simpl; [by intros [= <-]|done].
Qed.

(** *** Operations as evolutions *)

Lemma evolves_benign s s' : benign s s' -> evolves s s'.
Proof. intros (? & _ & ? & _ & _ & ?). by apply evolves_perm. Qed.

Lemma kill_and_switch_evolves s c s' c' tf :
  sched_ok s -> kill_and_switch_tf s c = Ok (s', c', tf) -> evolves s s'.
Proof.
  intros Hok H. destruct (kill_and_switch_tf_ok _ _ _ _ _ Hok H) as (? & _ & Hp).
  apply evolves_sub; [done|by eapply kill_and_switch_next|].
  intros x Hx. rewrite Hp, elem_of_app. by right.
Qed.

Lemma block_current_evolves s c tf s' c' tf' :
  sched_ok s -> block_current s c tf = Ok (s', c', tf') -> evolves s s'.
Proof.
  intros Hok H. destruct (block_current_ok _ _ _ _ _ _ Hok H) as (? & ? & _).
  apply evolves_perm; [done|by eapply block_current_next|done].
Qed.

Lemma switch_to_next_evolves s c tf s' c' tf' :
  sched_ok s -> switch_to_next s c tf = Ok (s', c', tf') -> evolves s s'.
Proof.
  intros Hok H. destruct (switch_to_next_ok _ _ _ _ _ _ Hok H) as (? & ?).
  apply evolves_perm; [done|by eapply switch_to_next_next|done].
Qed.

Lemma wake_where_evolves s t st g :
  sched_ok s -> (forall p, tracks p (g p)) -> evolves s (fst (wake_where s t st g)).
Proof.
  intros Hok Hg. destruct (wake_where_ok s t st g Hok Hg).
  apply evolves_perm; [done|apply wake_where_next|done].
Qed.

Lemma deliver_running_evolves w tf frame w' out :
  sched_ok (sched w) -> deliver_running w tf frame = Ok (w', out) -> evolves (sched w) (sched w').
Proof.
  intros Hok. unfold deliver_running. destruct (running (sched w)) as [p|] eqn:Hrun;
    [|intros [= <- <-]; by apply evolves_refl].
  case_bool_decide; [|intros [= <- <-]; by apply evolves_refl].
  assert (proc_ok p) as Hp by (apply Hok; rewrite (iter_all_running _ _ Hrun); by left).
  destruct (deliver_pending _ _ _) as [[[[m p'] tf'] o]|e|] eqn:Hd; [|done|done].
  destruct Hp as [Hpri Hsig].
  destruct (deliver_pending_process _ _ _ _ _ _ _ Hsig Hd) as (pend & blk & Hp' & Hsig').
  assert (pri_ok p') as Hpri' by (rewrite Hp'; by destruct Hpri).
  destruct tf; cbn [store]; intros [= <- <-].
  - destruct (replace_running_ok (sched w) p p' Hok Hrun) as [? He]; [by rewrite Hp'..|done|].
    by apply evolves_eq.
  - destruct (replace_running_ok (sched w) p (p' <| trapframe := tf' |>) Hok Hrun) as [? He];
      [by rewrite Hp'..|by destruct Hpri', Hsig'; split; split|].
    by apply evolves_eq.
Qed.

Lemma terminate_running_evolves w sig w' tf :
  sched_ok (sched w) -> terminate_running w sig = Ok (w', tf) -> evolves (sched w) (sched w').
Proof.
  intros Hok. unfold terminate_running. set (s1 := (sched w) <| running := _ |>).
  assert (benign (sched w) s1) as Hb by (apply benign_mark; [done|]; intros; by apply tracks_core).
  destruct (kill_and_switch_tf s1 (cpu w)) as [[[s2 c2] t2]| |] eqn:Hk; cbn [mbind outcome_bind]; [|done..].
  pose proof (kill_and_switch_evolves _ _ _ _ _ (proj1 Hb) Hk) as Hev.
  intros [= <- <-]. cbn. eapply evolves_trans; [by apply (evolves_benign _ s1)|].
  eapply evolves_trans; [exact Hev|].
  apply evolves_benign, notify_child_death_benign, Hev.
Qed.

Lemma stop_running_evolves w tf sig w' tf' :
  sched_ok (sched w) -> stop_running w tf sig = Ok (w', tf') -> evolves (sched w) (sched w').
Proof.
  intros Hok. unfold stop_running. set (s1 := (sched w) <| running := _ |>).
  assert (benign (sched w) s1) as Hb by (apply benign_mark; [done|]; intros; by apply tracks_core).
  destruct (stop_and_switch_tf s1 (cpu w) tf) as [[[s2 c2] t2]| |] eqn:Hk; cbn [mbind outcome_bind]; [|done..].
  destruct (stop_and_switch_tf_ok _ _ _ _ _ _ (proj1 Hb) Hk) as (Hok2 & Hp2 & _).
  intros [= <- <-]. cbn. eapply evolves_trans; [by apply (evolves_benign _ s1)|].
  eapply (evolves_trans _ s2); [apply evolves_perm; [done|by eapply stop_and_switch_next|done]|].
  by apply evolves_benign, notify_child_stopped_benign.
Qed.

Lemma resolve_signals_evolves n w tf w' tf' :
  sched_ok (sched w) -> resolve_signals n w tf = Ok (w', tf') -> evolves (sched w) (sched w').
Proof.
  revert w tf; induction n as [|n IH]; intros w tf Hok; cbn [resolve_signals];
    (destruct (deref _ _ _) as [frame| |]; cbn [mbind outcome_bind]; [|done..];
     destruct (negb _); [intros [= <- <-]; by apply evolves_refl|];
     destruct (deliver_running w tf frame) as [[w1 out]| |] eqn:Hd; cbn [mbind outcome_bind]; [|done..];
     pose proof (deliver_running_evolves _ _ _ _ _ Hok Hd) as Hev).
  - destruct out; try done; by intros [= <- <-].
  - destruct out as [| |sig|sig]; [by intros [= <- <-]..| |].
    + destruct (terminate_running w1 sig) as [[w2 t2]| |] eqn:Ht; cbn [mbind outcome_bind]; [|done..].
      intros H. pose proof (terminate_running_evolves _ _ _ _ (proj1 Hev) Ht) as Hev2.
      eapply evolves_trans; [exact Hev|]. eapply evolves_trans; [exact Hev2|]. apply (IH _ _ (proj1 Hev2) H).
    + destruct (stop_running w1 tf sig) as [[w2 t2]| |] eqn:Ht; cbn [mbind outcome_bind]; [|done..].
      intros H. pose proof (stop_running_evolves _ _ _ _ _ (proj1 Hev) Ht) as Hev2.
      eapply evolves_trans; [exact Hev|]. eapply evolves_trans; [exact Hev2|]. apply (IH _ _ (proj1 Hev2) H).
Qed.

Lemma jump_to_user_evolves w tf w' tf' :
  sched_ok (sched w) -> jump_to_user w tf = Ok (w', tf') -> evolves (sched w) (sched w').
Proof.
  intros Hok. unfold jump_to_user.
  destruct (resolve_signals _ w tf) as [[w1 t1]| |] eqn:Hr; cbn [mbind outcome_bind]; [|done..].
  intros [= <- <-]. pose proof (resolve_signals_evolves _ _ _ _ _ Hok Hr) as Hev.
  eapply evolves_trans; [exact Hev|]. destruct (resolve_wait_status_ok w1 (proj1 Hev)) as [? Hp].
  apply evolves_eq; [done| |done].
  unfold resolve_wait_status. repeat case_match; done.
Qed.

(** *** Scheduling decisions *)

Lemma push_ready_queue s p k :
  length (run_queues s) = NUM_PRIORITIES -> (k < 11)%nat ->
  run_queues (push_ready s p) !!! k =
    if decide (k = queue_of p) then (run_queues s !!! k) ++ [p] else run_queues s !!! k.
Proof.
  intros Hlen Hk. unfold push_ready. cbn. destruct (decide _) as [->|Hne].
  - by rewrite list_lookup_total_alter_eq by (rewrite Hlen; apply queue_of_lt).
  - by rewrite list_lookup_total_alter_ne by done.
Qed.

(** No ready process left behind outranks the one that was picked. *)
Lemma pop_highest_priority s p qs :
  sched_ok s -> pop_highest NUM_PRIORITIES (run_queues s) = Some (p, qs) ->
  forall r, r ∈ concat qs -> effective_priority r <= effective_priority p.
Proof.
  intros Hok Hpop r Hr. pose proof (iter_all_pop _ _ _ _ Hpop) as Hperm. pose proof Hok as [].
  apply pop_highest_Some in Hpop as (k & q & Hk & Hq & -> & Hempty).
  pose proof (lookup_total_cons _ _ _ _ Hq) as Hqk.
  destruct (queues_ready0 k _ p Hqk ltac:(by left)) as [_ Hkp].
  apply elem_of_concat_lookup in Hr as (j & qj & Hj & Hrj).
  assert (exists q0, run_queues s !! j = Some q0 /\ r ∈ q0) as (q0 & Hj0 & Hr0).
  { apply list_lookup_insert_Some in Hj as [(-> & <- & _)|(_ & Hj)]; [|by exists qj].
    exists (p :: q). split; [done|by right]. }
  destruct (queues_ready0 j q0 r Hj0 Hr0) as [_ Hjr].
  assert (proc_ok p) as [[Hp1 Hp2 Hp3] _] by (apply all_ok0; rewrite Hperm; by left).
  assert (r ∈ iter_all s) as Hrin.
  { unfold iter_all. rewrite !elem_of_app. right; left. apply elem_of_concat_lookup. eauto. }
  destruct (all_ok0 r Hrin) as [[Hr1 Hr2 Hr3] _].
  assert (j <= k)%nat as Hjk.
  { destruct (Nat.le_gt_cases j k) as [|Hlt]; [done|]. exfalso.
    assert (j < 11)%nat by (apply lookup_lt_Some in Hj0; by rewrite queues_len0 in Hj0).
    specialize (Hempty j (conj Hlt ltac:(done))).
    rewrite (list_lookup_total_correct _ _ _ Hj0) in Hempty. subst. by apply elem_of_nil in Hr0. }
  unfold queue_of in Hkp, Hjr. lia.
Qed.

(** The hardware state of a dispatched process. *)
Definition dispatched (c : Cpu) (p : Process) : Prop :=
  fpu_regs c = fpu_state p /\ active_as c = address_space p /\ tss_rsp0 c = kernel_stack p /\
  current_as_ptr c = Some (address_space p) /\ current_pid_fast c = pid p.

(** What the scheduler saves of a process that leaves the processor. *)
Definition context_saved (c : Cpu) (p : Process) : Prop :=
  trapframe p = live_tf c /\ fs_base p = msr_fs_base c /\ fpu_state p = fpu_regs c.

Lemma requeue_saved s c p : context_saved c (requeue s c p (live_tf c)).
Proof. unfold requeue. cbv zeta. by destruct (_ && _). Qed.

(** The scan of a wake finds the process it is meant for. *)
Lemma wake_where_finds s p g st :
  sched_ok s -> p ∈ wait_queue s -> state p = st ->
  g (p <| state := Ready |>) ∈ concat (run_queues (fst (wake_where s (pid p) st g))).
Proof.
  intros Hok Hp Hst. unfold wake_where.
  destruct (position _ _) as [pos|] eqn:Hpos.
  - apply position_Some in Hpos as (q & Hq & Hf & _). apply andb_prop in Hf as [Hpid _].
    apply Z.eqb_eq in Hpid. rewrite Hq. cbn [fst].
    assert (q = p) as ->.
    { destruct Hok. apply list_elem_of_lookup in Hp as (j & Hj).
      assert (NoDup (pid <$> wait_queue s)) as Hnd.
      { unfold pids, iter_all in pids_nodup0. rewrite !fmap_app in pids_nodup0.
        apply NoDup_app in pids_nodup0 as (_ & _ & H). by apply NoDup_app in H as (_ & _ & H). }
      assert (pos = j) as ->; [|congruence].
      apply (NoDup_lookup (pid <$> wait_queue s) pos j (pid p)); [done|..];
        rewrite list_lookup_fmap, ?Hq, ?Hj; simpl; congruence. }
    unfold push_ready. cbn [run_queues update_field].
    pose proof (concat_alter_push (run_queues s) (queue_of (g (p <| state := Ready |>)))
      (g (p <| state := Ready |>))) as Hperm.
    rewrite (queues_len s Hok) in Hperm. rewrite (Hperm (queue_of_lt _)). by left.
  - exfalso. rewrite position_None, Forall_forall in Hpos. specialize (Hpos p Hp).
    rewrite Z.eqb_refl, bool_decide_true in Hpos by done. done.
Qed.

(** *** Death of a child *)

(** When exactly one element qualifies, the scan updates that one. *)
Lemma update_first_unique f g l x :
  x ∈ l -> f x = true -> (forall y, y ∈ l -> f y = true -> y = x) ->
  List.find f l = Some x /\ exists a b, l = a ++ x :: b /\ update_first f g l = Some (a ++ g x :: b).
Proof.
  intros Hx Hf Hu. induction l as [|y l IH]; [by apply elem_of_nil in Hx|]. cbn [List.find update_first].
  destruct (f y) eqn:Hy.
  - rewrite (Hu y ltac:(by left) Hy). split; [done|]. by exists [], l.
  - destruct IH as (H1 & a & b & -> & H2).
    + apply elem_of_cons in Hx as [->|]; [congruence|done].
    + intros z Hz. apply Hu. by right.
    + split; [done|]. exists (y :: a), b. rewrite H2. done.
Qed.

Lemma wait_pid_unique s p q :
  sched_ok s -> p ∈ wait_queue s -> q ∈ iter_all s -> pid q = pid p -> q = p.
Proof.
  intros Hok Hp Hq Hpid. destruct Hok as [_ _ _ _ _ Hnd _ _].
  assert (p ∈ iter_all s) as Hp' by (unfold iter_all; rewrite !elem_of_app; auto).
  apply list_elem_of_lookup in Hp' as (i & Hi). apply list_elem_of_lookup in Hq as (j & Hj).
  assert (i = j) as ->; [|congruence].
  apply (NoDup_lookup (pids s) i j (pid p)); [done|..]; unfold pids; rewrite list_lookup_fmap, ?Hi, ?Hj;
    simpl; congruence.
Qed.

Lemma update_first_None f g l : (forall y, y ∈ l -> f y = false) -> update_first f g l = None.
Proof.
  induction l as [|y l IH]; intros H; [done|]. cbn [update_first]. rewrite H by (by left).
  rewrite IH; [done|]. intros z Hz. apply H. by right.
Qed.

Lemma update_queues_None f g qs :
  (forall y, y ∈ concat qs -> f y = false) -> update_queues f g qs = None.
Proof.
  induction qs as [|q qs IH]; intros H; [done|]. cbn [update_queues].
  rewrite update_first_None by (intros y Hy; apply H; apply elem_of_app; by left).
  rewrite IH; [done|]. intros y Hy. apply H. apply elem_of_app. by right.
Qed.

(** SIGCHLD reaches a parent that waits, and nothing else changes. *)
Lemma signal_parent_waiting s p :
  sched_ok s -> p ∈ wait_queue s ->
  let s' := signal_parent s (Some (pid p)) in
  run_queues s' = run_queues s /\ running s' = running s /\
  exists a b, wait_queue s = a ++ p :: b /\ wait_queue s' = a ++ queue_signal p SIGCHLD :: b.
Proof.
  intros Hok Hp. pose proof (fun q => wait_pid_unique s p q Hok Hp) as Hu.
  unfold signal_parent. rewrite bool_decide_false.
  2:{ unfold current_pid. destruct (running s) as [r|] eqn:Hr; [|done]. intros [= Hpid].
      assert (r = p) as -> by (apply Hu; [rewrite (iter_all_running _ _ Hr); by left|done]).
      destruct (wait_parked s Hok p Hp) as [H|[H|H]]; by rewrite (running_running s Hok p Hr) in H. }
  unfold find_process_mut. rewrite update_queues_None.
  2:{ intros y Hy. apply Z.eqb_neq. intros Hpid. pose proof Hy as Hy'.
      assert (y = p) as -> by (apply Hu; [unfold iter_all; rewrite !elem_of_app; auto|done]).
      apply elem_of_concat_lookup in Hy' as (i & q & Hi & Hpq).
      destruct (queues_ready s Hok i q p Hi Hpq) as [Hst _].
      destruct (wait_parked s Hok p Hp) as [H|[H|H]]; by rewrite H in Hst. }
  destruct (update_first_unique (fun q => pid q =? pid p) (fun q => queue_signal q SIGCHLD)
    (wait_queue s) p Hp) as (_ & a & b & Hab & ->).
  - apply Z.eqb_refl.
  - intros y Hy Hpid. apply Z.eqb_eq in Hpid. apply Hu; [unfold iter_all; rewrite !elem_of_app; auto|done].
  - cbn. split; [done|]. split; [done|]. by exists a, b.
Qed.

(** *** A concrete system for the witnesses *)

Definition idle : Process := set_priority (new_kernel [] 0 0 4096 8192 0) 0.
Definition user_process (n : Z) : Process :=
  new_user [] n n 4194304 70368744177664 (4096 * n) n.

(** Idle, two ready user processes and a running one. *)
Definition demo_sched : Scheduler :=
  let s := add_process (add_process (add_process (new <| next_pid := 4 |>) idle)
             (user_process 2)) (user_process 3) in
  s <| running := Some ((user_process 1) <| state := Running |>) |> <| remaining_ticks := 7 |>.

Definition demo_cpu : Cpu :=
  mkCpu 1000 [] 1 4096 (Some 1) 1 (tf_zero <| rip := 5 |> <| cs := USER_CS |> <| rsp := 70368744177000 |>).

Definition sched_okb (s : Scheduler) : bool :=
  (length (run_queues s) =? 11)%nat &&
  forallb (fun i => forallb (fun p => bool_decide (state p = Ready) && (queue_of p =? i)%nat)
                      (run_queues s !!! i)) (seq 0 11) &&
  forallb (fun p => bool_decide (state p = Blocked) || bool_decide (state p = Zombie) ||
                    bool_decide (state p = Stopped)) (wait_queue s) &&
  match running s with Some p => bool_decide (state p = Running) | None => true end &&
  forallb (fun p => (0 <=? effective_priority p) && (effective_priority p <=? priority p) &&
      (priority p <=? 10) && (length (signal_handlers p) =? NUM_SIGNALS)%nat &&
      in_widthb 64 (pending_signals p) && in_widthb 64 (blocked_signals p) &&
      (0 <=? pid p) && (pid p <? next_pid s)) (iter_all s) &&
  bool_decide (NoDup (pids s)) && (0 <=? next_pid s).

(** The invariant is decidable: a check that concrete states pass. *)
Lemma sched_okb_ok s : sched_okb s = true -> sched_ok s.
Proof.
  unfold sched_okb. rewrite !andb_true_iff.
  intros ((((((Hlen & Hq) & Hw) & Hr) & Hall) & Hnd) & Hn).
  apply Nat.eqb_eq in Hlen. rewrite forallb_forall in Hq, Hw, Hall.
  apply bool_decide_eq_true in Hnd. apply Z.leb_le in Hn.
  assert (forall p, p ∈ iter_all s -> proc_ok p /\ 0 <= pid p < next_pid s) as Hp.
  { intros p Hp. specialize (Hall p ltac:(by apply list_elem_of_In)).
    rewrite !andb_true_iff in Hall. unfold in_widthb in Hall. rewrite !andb_true_iff in Hall.
    rewrite !Z.leb_le, !Z.ltb_lt, Nat.eqb_eq in Hall.
    destruct Hall as (((((((? & ?) & ?) & ?) & ?) & ?) & ?) & ?). split; [|lia].
    split; split; unfold in_width; auto; lia. }
  split; auto; try (intros p Hin; by apply Hp).
  - intros i q p Hi Hpq. assert (i < 11)%nat as Hlt by (apply lookup_lt_Some in Hi; lia).
    specialize (Hq i ltac:(apply in_seq; lia)). rewrite (list_lookup_total_correct _ _ _ Hi) in Hq.
    rewrite forallb_forall in Hq. specialize (Hq p ltac:(by apply list_elem_of_In)).
    apply andb_prop in Hq as [H1 H2]. apply bool_decide_eq_true in H1. by apply Nat.eqb_eq in H2.
  - intros p Hpw. specialize (Hw p ltac:(by apply list_elem_of_In)). unfold parked.
    rewrite !orb_true_iff, !bool_decide_eq_true in Hw. tauto.
  - intros p Hp'. rewrite Hp' in Hr. by apply bool_decide_eq_true in Hr.
Qed.

(** ** Properties *)

(** C6: a context switch requeues the running process one priority step lower
    (never below 1, idle never), then runs the first process of the highest
    non-empty queue: no ready process it leaves behind has a higher effective
    priority.  The outgoing process keeps its frame, FS base and FPU registers;
    the incoming one has all of them loaded, with its page table, kernel stack
    and a full time slice. *)
Theorem switch_to_next_spec s c p :
  sched_ok s -> running s = Some p ->
  let p1 := requeue s c p (live_tf c) in
  let s1 := push_ready (s <| running := None |>) p1 in
  exists q s' c', switch_to_next s c Live = Ok (s', c', Saved) /\
    running s' = Some (q <| state := Running |>) /\
    (exists k, head (run_queues s1 !!! k) = Some q /\ forall j, (k < j < 11)%nat -> run_queues s1 !!! j = []) /\
    (forall r, r ∈ concat (run_queues s') -> effective_priority r <= effective_priority q) /\
    remaining_ticks s' = 2 + effective_priority q /\
    dispatched c' q /\ msr_fs_base c' = fs_base q /\
    context_saved c p1 /\
    effective_priority p1 = (if (pid p =? 0) || (effective_priority p <=? 1)
                             then effective_priority p else effective_priority p - 1).
Proof.
  intros Hok Hrun p1 s1. destruct (take_running s p Hok Hrun) as (Hok0 & Ha & Hp & Hst).
  destruct (requeue_admissible s _ c p (live_tf c) Ha) as (Ha1 & Hst1 & Hpid1).
  destruct (push_ready_ok _ _ Hok0 Ha1 Hst1) as [Hok1 _]. fold p1 in Hok1. fold s1 in Hok1.
  unfold switch_to_next. rewrite Hrun. cbn [deref mbind outcome_bind].
  change (state (save_context p (live_tf c) c)) with (state p). rewrite Hst. cbn [mbind outcome_bind].
  change ((if _ && _ then _ else _)) with p1. fold s1.
  assert (pop_highest NUM_PRIORITIES (run_queues s1) <> None) as Hne.
  { rewrite pop_highest_None. intros Hall.
    specialize (Hall (queue_of p1) (queue_of_lt p1)). unfold s1 in Hall.
    rewrite push_ready_queue, decide_True in Hall; [by apply app_nil in Hall as [_ ?]|done|apply Hok0|apply queue_of_lt]. }
  destruct (pop_highest NUM_PRIORITIES (run_queues s1)) as [[q qs]|] eqn:Hpop; [|done].
  exists q. eexists _, _. split; [done|]. split; [done|].
  pose proof (pop_highest_priority s1 q qs Hok1 Hpop) as Hpri.
  apply pop_highest_Some in Hpop as (k & tl & Hk & Hq & -> & Hempty).
  split; [exists k; rewrite Hq; done|]. split; [done|].
  split; [cbn; unfold quantum_for, BASE_QUANTUM, PRIORITY_QUANTUM_BONUS; lia|].
  split; [done|]. split; [done|]. split; [apply requeue_saved|].
  unfold p1, requeue. cbv zeta. change (pid ((save_context p (live_tf c) c) <| state := Ready |>)) with (pid p). unfold MIN_EFFECTIVE_PRIORITY.
  change (effective_priority ((save_context p (live_tf c) c) <| state := Ready |>)) with (effective_priority p).
  destruct (Z.eqb_spec (pid p) 0), (Z.leb_spec (effective_priority p) 1),
    (Z.ltb_spec 1 (effective_priority p)); cbn [negb andb orb]; try lia; done.
Qed.

Lemma switch_to_next_spec_witness :
  sched_ok demo_sched /\
  exists q s' c', switch_to_next demo_sched demo_cpu Live = Ok (s', c', Saved) /\
    running s' = Some (q <| state := Running |>) /\ dispatched c' q /\ msr_fs_base c' = fs_base q.
Proof.
  assert (sched_ok demo_sched) as Hok by (apply sched_okb_ok; vm_compute; reflexivity).
  split; [exact Hok|].
  destruct (switch_to_next_spec demo_sched demo_cpu ((user_process 1) <| state := Running |>) Hok eq_refl)
    as (q & s' & c' & He & Hr & _ & _ & _ & Hd & Hf & _).
  exists q, s', c'. split; [exact He|]. split; [exact Hr|]. split; [exact Hd|exact Hf].
Defined.

(** A process that blocks resumes where it left off: its frame, FS base and
    FPU registers at the moment of blocking are the ones it is made ready
    with, [rax] apart, which holds the value the waker gave. *)
Theorem block_wake_roundtrip s c p s1 c1 tf1 v :
  sched_ok s -> running s = Some p -> block_current s c Live = Ok (s1, c1, tf1) ->
  exists p2, p2 ∈ concat (run_queues (wake_with_retval s1 (pid p) v)) /\
    pid p2 = pid p /\ state p2 = Ready /\
    trapframe p2 = (live_tf c) <| rax := v |> /\ fs_base p2 = msr_fs_base c /\ fpu_state p2 = fpu_regs c.
Proof.
  intros Hok Hrun. unfold block_current. rewrite Hrun. cbn [deref mbind outcome_bind].
  destruct (park_ok s c p (live_tf c) Blocked Hok Hrun) as (Hok1 & _ & Hn1); [auto|].
  set (p1 := (save_context p (live_tf c) c) <| state := Blocked |>) in *.
  set (s0 := push_wait (s <| running := None |>) p1) in *. intros He.
  destruct (switch_after_park_ok _ _ _ _ _ Hok1 Hn1 He) as (Hok2 & _ & _).
  assert (p1 ∈ wait_queue s1) as Hin.
  { unfold switch_after_park in He. destruct (pop_highest _ _) as [[q qs]|]; [|done].
    injection He as <- _ _. cbn. apply elem_of_app. right. by left. }
  pose proof (wake_where_finds s1 p1 (fun q => q <| trapframe := (trapframe q) <| rax := v |> |>)
    Blocked Hok2 Hin eq_refl) as Hfound.
  eexists. split; [exact Hfound|]. done.
Qed.

Lemma block_wake_roundtrip_witness :
  exists s1 c1 p2, block_current demo_sched demo_cpu Live = Ok (s1, c1, Saved) /\
    p2 ∈ concat (run_queues (wake_with_retval s1 1 42)) /\
    trapframe p2 = (live_tf demo_cpu) <| rax := 42 |>.
Proof.
  assert (sched_ok demo_sched) as Hok by (apply sched_okb_ok; vm_compute; reflexivity).
  eexists _, _.
  destruct (block_wake_roundtrip demo_sched demo_cpu ((user_process 1) <| state := Running |>) _ _ Saved 42
    Hok eq_refl eq_refl) as (p2 & Hin & _ & _ & Htf & _).
  exists p2. split; [reflexivity|]. split; [exact Hin|exact Htf].
Defined.

(** Killing the running process does not load the FS base of the process
    that runs next: the register keeps the dead process's value, although the
    page table, kernel stack and FPU registers of the next process are
    installed. *)
Theorem kill_keeps_fs_base s c s' c' tf :
  kill_and_switch_tf s c = Ok (s', c', tf) ->
  msr_fs_base c' = msr_fs_base c /\ exists q, running s' = Some q /\ dispatched c' q.
Proof.
  unfold kill_and_switch_tf. destruct (pop_highest _ _) as [[q qs]|]; [|done].
  intros [= <- <- <-]. split; [done|]. by exists (q <| state := Running |>).
Qed.

Lemma kill_keeps_fs_base_witness :
  exists s' c', kill_and_switch_tf demo_sched demo_cpu = Ok (s', c', Saved) /\
    msr_fs_base c' = 1000 /\ fs_base <$> running s' = Some 0.
Proof.
  eexists _, _. split; [reflexivity|]. split; [|reflexivity].
  exact (proj1 (kill_keeps_fs_base demo_sched demo_cpu _ _ Saved eq_refl)).
Defined.

(** An aging pass ends, keeps the containers well formed, touches neither
    the running process nor the waiting ones, and leaves every ready process
    except idle at its base priority, in one pass however far it had
    decayed. *)
Theorem aging_restores_base s :
  sched_ok s ->
  exists s', age_processes s = Ok s' /\ sched_ok s' /\ pids s' ≡ₚ pids s /\
    running s' = running s /\ wait_queue s' = wait_queue s /\
    concat (run_queues s') ≡ₚ raise <$> concat (run_queues s).
Proof.
  intros Hok. destruct (age_processes_ok s Hok) as (s' & ? & ? & ? & ? & ? & _ & _ & ?). by exists s'.
Qed.

Lemma aging_restores_base_witness :
  exists s', age_processes demo_sched = Ok s' /\ sched_ok s'.
Proof.
  assert (sched_ok demo_sched) as Hok by (apply sched_okb_ok; vm_compute; reflexivity).
  destruct (aging_restores_base demo_sched Hok) as (s' & He & Hs & _).
  exists s'. split; [exact He|exact Hs].
Defined.


(** Both runnable user processes have a fatal signal pending. *)
Definition demo_world : World :=
  mkWorld (queue_signal_to_group (queue_signal_to_group demo_sched 1 SIGTERM) 2 SIGKILL)
    demo_cpu ∅ Waiters.tables_init.


(** When a child dies while its parent is blocked in [waitpid] for it, the
    parent becomes ready with the child's pid as the call's result, the
    child's status word to be stored, and SIGCHLD pending; it no longer waits. *)
Theorem death_wakes_parent s parent child :
  sched_ok s -> parent ∈ wait_queue s -> state parent = Blocked ->
  child ∈ wait_queue s -> state child = Zombie ->
  target_matches parent (pid child) (pgid child) = true ->
  exists p, p ∈ concat (run_queues (notify_child_death s (pid child) (Some (pid parent)))) /\
    pid p = pid parent /\ state p = Ready /\ rax (trapframe p) = pid child /\
    pending_wait_status p = Some (wait_status_word child) /\ waiting_for p = None /\
    pending p SIGCHLD = true.
Proof.
  intros Hok Hp Hblk Hc Hz Hmatch. set (p0 := queue_signal parent SIGCHLD).
  destruct (signal_parent_waiting s parent Hok Hp) as (_ & _ & a & b & Hab & Hw).
  destruct (benign_signal_parent s (Some (pid parent)) Hok) as (Hok1 & _).
  unfold notify_child_death. set (s1 := signal_parent s (Some (pid parent))) in *. cbv zeta.
  assert (p0 ∈ wait_queue s1) as Hp1 by (rewrite Hw; apply elem_of_app; right; by left).
  assert (child ∈ wait_queue s1) as Hc1.
  { rewrite Hw. rewrite Hab in Hc. apply elem_of_app in Hc as [|[->|]%elem_of_cons]; [apply elem_of_app; by left| |].
    - congruence.
    - apply elem_of_app; right; by right. }
  assert (forall x q, x ∈ wait_queue s1 -> q ∈ wait_queue s1 -> pid q = pid x -> q = x) as Hu.
  { intros x q Hx Hq. apply (wait_pid_unique s1); auto. unfold iter_all; rewrite !elem_of_app; auto. }
  destruct (update_first_unique (fun p => (pid p =? pid child) && bool_decide (state p = Zombie))
    (fun p => p) (wait_queue s1) child Hc1) as (-> & _).
  { by rewrite Z.eqb_refl, bool_decide_true. }
  { intros y Hy Hf. apply andb_prop in Hf as [Hf _]. apply Z.eqb_eq in Hf. by apply Hu. }
  set (qualifies := fun p => _ && _ && _).
  destruct (update_first_unique qualifies (wait_result (pid child) (wait_status_word child))
    (wait_queue s1) p0 Hp1) as (-> & a' & b' & Hab' & ->).
  { unfold qualifies. by rewrite !bool_decide_true. }
  { intros y Hy Hf. unfold qualifies in Hf. rewrite !andb_true_iff in Hf. destruct Hf as [[Hf _] _].
    apply bool_decide_eq_true in Hf. injection Hf as Hf. by apply Hu. }
  set (p1 := wait_result (pid child) (wait_status_word child) p0).
  set (s2 := s1 <| wait_queue := a' ++ p1 :: b' |>).
  assert (sched_ok s2) as Hok2.
  { apply (benign_wait s1 (a' ++ p1 :: b') Hok1). rewrite Hab'.
    apply Forall2_app; [done|]. apply list.Forall2_cons. split; [apply wait_result_tracks|done]. }
  assert (p1 ∈ wait_queue s2) as Hin by (apply elem_of_app; right; by left).
  pose proof (wake_where_finds s2 p1 id Blocked Hok2 Hin Hblk) as Hfound.
  eexists. split; [exact Hfound|]. split_and!; try done.
  unfold pending, id. simpl pending_signals. rewrite Z.lor_spec, bit_testbit by done.
  apply orb_true_r.
Qed.

(** The parent of [demo_sched]'s process 3 waits for it, and 3 is dead. *)
Definition demo_wait : Scheduler :=
  let parent := (user_process 2) <| state := Blocked |> <| waiting_for := Some AnyChild |> in
  let child := (user_process 3) <| state := Zombie |> <| parent_pid := Some 2 |> <| exit_status := 7 |> in
  demo_sched <| run_queues := [idle] :: replicate 10 [] |> <| wait_queue := [child; parent] |>.

Lemma death_wakes_parent_witness :
  let parent := (user_process 2) <| state := Blocked |> <| waiting_for := Some AnyChild |> in
  let child := (user_process 3) <| state := Zombie |> <| parent_pid := Some 2 |> <| exit_status := 7 |> in
  exists p, p ∈ concat (run_queues (notify_child_death demo_wait 3 (Some 2))) /\
    pid p = 2 /\ state p = Ready /\ rax (trapframe p) = 3 /\
    pending_wait_status p = Some (wait_status_word child) /\ waiting_for p = None /\
    pending p SIGCHLD = true.
Proof.
  intros parent child.
  apply (death_wakes_parent demo_wait parent child); try reflexivity.
  - apply sched_okb_ok. vm_compute. reflexivity.
  - right. left.
  - left.
Defined.

(** [n] timer ticks in a row, with the answers they gave. *)
Fixpoint ticks (sf : Z -> bool) (vf : Z * Z * Z -> bool) (n : nat) (s : Scheduler)
    : outcome stuck (Scheduler * list bool) :=
  match n with
  | O => Ok (s, [])
  | S k =>
      '(s1, b) ← tick sf vf s; '(s2, bs) ← ticks sf vf k s1; Ok (s2, b :: bs)
  end.

(** A dispatched process keeps the processor for exactly its quantum,
    [2 + effective_priority] ticks: the timer asks for a switch at the last of
    them and not before, across aging epochs. *)
Theorem slice_is_quantum sf vf s c p :
  sched_ok s -> running s = None -> admissible s p ->
  let s0 := fst (install p s c) in
  let q := Z.to_nat (2 + effective_priority p) in
  exists s', ticks sf vf q s0 = Ok (s', replicate (q - 1) false ++ [true]) /\ running s' = running s0.
Proof.
  intros Hok Hnone Ha s0 q. destruct (install_ok s c p Hok Hnone Ha) as (Hok0 & _ & _). fold s0 in Hok0.
  assert (forall n s1, sched_ok s1 -> remaining_ticks s1 = Z.of_nat (S n) ->
    exists s', ticks sf vf (S n) s1 = Ok (s', replicate n false ++ [true]) /\ running s' = running s1) as Hn.
  { clear. induction n as [|n IH]; intros s1 Hok1 Hr;
      destruct (tick_ok sf vf s1 Hok1) as (s2 & b & He & Hok2 & _ & Hrun & _ & _ & Ht & Hb);
      specialize (Ht ltac:(lia)); cbn [ticks]; rewrite He; cbn [mbind outcome_bind].
    - exists s2. rewrite Hb, Ht, Hr. done.
    - destruct (IH s2 Hok2) as (s' & He' & Hr'); [lia|]. cbn [ticks] in He'. rewrite He'.
      cbn [mbind outcome_bind]. exists s'. split; [|congruence].
      rewrite Hb, Ht, Hr. rewrite (proj2 (Z.eqb_neq _ _)) by lia. done. }
  destruct Ha as ([[He _ _] _] & _). destruct (Hn (q - 1)%nat s0 Hok0) as (s' & Ht & Hr').
  - unfold s0, q. cbn. unfold quantum_for, BASE_QUANTUM, PRIORITY_QUANTUM_BONUS. lia.
  - exists s'. split; [|done]. replace q with (S (q - 1)) at 1 by (unfold q; lia). done.
Qed.

Lemma slice_is_quantum_witness :
  let s := demo_sched <| running := None |> in
  let p := user_process 1 in
  sched_ok s /\ admissible s p /\
  exists s', ticks (fun _ => true) (fun _ => true) 7 (fst (install p s demo_cpu)) =
    Ok (s', replicate 6 false ++ [true]) /\ running s' = Some (p <| state := Running |>).
Proof.
  intros s p. assert (sched_ok s) as Hok by (apply sched_okb_ok; vm_compute; reflexivity).
  assert (admissible s p) as Ha.
  { split; [|split; [apply (bool_decide_unpack (pid p ∉ pids s)); vm_compute; exact I
                    |vm_compute; split; congruence]].
    split; split; vm_compute; try (split; congruence); try congruence. }
  split; [exact Hok|]. split; [exact Ha|].
  apply (slice_is_quantum (fun _ => true) (fun _ => true) s demo_cpu p Hok eq_refl Ha).
Defined.

End SchedulerInv.
