(* ===== verification/ProcessCtl.v ===== *)
(** Process-control system calls and the timer interrupt:
    [kernel/src/process/syscall/process_ctl.rs], [sync.rs],
    [kernel/src/process/timer_preempt.rs] and the return path of
    [kernel/src/process/syscall/mod.rs].

    A system call maps a [World] to a [Return] with the caller's result or,
    when it gave up the processor, a [Jump] to the frame that runs next.
    Results of calls into components that are not modelled here are arguments:
    the copied address space of [fork], a fresh kernel stack, a fresh
    descriptor table, the VMA around a thread's stack.  What closing a
    descriptor table does to the rest of the system is the interface
    [FdTables].  The counters and log lines are left out. *)

From Stdlib Require Import ZArith Lia.
From stdpp Require Import base numbers gmap list.
From S2P Require Import Prelude Process Signal HrTimer Waiters Scheduler SchedulerInv.

Local Open Scope Z_scope.

(** ** What the descriptor tables promise *)

(** Dropping the last reference to a table closes its files; a pipe end that
    closes may deliver data to a process and wake it.  Whatever it does, the
    containers stay well formed, nobody is lost and the processor stays with
    the process that has it. *)
Class FdTables := {
  drop_files : Z -> Scheduler.World -> Scheduler.World;
  drop_files_benign files w :
    SchedulerInv.sched_ok (Scheduler.sched w) ->
    SchedulerInv.benign (Scheduler.sched w) (Scheduler.sched (drop_files files w));
  drop_files_cpu files w : Scheduler.cpu (drop_files files w) = Scheduler.cpu w;
}.

Module ProcessCtl.
Import Process Signal Scheduler SchedulerInv.

(** ** Model *)

Inductive sysret :=
| Return (w : World) (v : Z)
| Jump (w : World) (tf : TfPtr).

Definition EPERM : Z := -1.
Definition ECHILD : Z := -10.
Definition EAGAIN : Z := -11.
Definition ENOMEM : Z := -12.
Definition ENOSYS : Z := -38.

(** Storing [v] in the [rax] slot of the live frame. *)
Definition set_live_rax (w : World) (v : Z) : World :=
  w <| cpu := (cpu w) <| live_tf := (live_tf (cpu w)) <| rax := wrap 64 v |> |> |>.

Definition jump (r : outcome stuck (World * TfPtr)) : outcome stuck sysret :=
  '(w, tf) ← r; Ok (Jump w tf).

(** The common tail of the calls that give up the processor: run [op] on the
    scheduler with the live frame, then [jump_to_user]. *)
Definition switch_and_jump (w : World)
    (op : Scheduler -> Cpu -> TfPtr -> outcome stuck (Scheduler * Cpu * TfPtr)) : outcome stuck sysret :=
  '(s, c, tf) ← op (sched w) (cpu w) Live;
  jump (jump_to_user (w <| sched := s |> <| cpu := c |>) tf).

Definition sys_yield (w : World) : outcome stuck sysret :=
  switch_and_jump (set_live_rax w 0) switch_to_next.

Definition sys_nanosleep (w : World) (now ns : Z) : outcome stuck sysret :=
  if ns =? 0 then Ok (Return w 0) else
  let expiry := Z.min (now + ns) (2 ^ 64 - 1) in
  let w1 := set_live_rax w 0 in
  let who := default 0 (current_pid (sched w1)) in
  let t := tables w1 in
  let w2 := w1 <| tables := t <| Waiters.hrtimers :=
              fst (HrTimer.start (Waiters.hrtimers t) expiry (HrTimer.WakePid who)) |> |> in
  switch_and_jump w2 block_current.

Definition sys_getpid (w : World) : outcome stuck sysret :=
  Ok (Return w (default 0 (current_pid (sched w)))).

Definition ARCH_SET_FS : Z := 4098.
Definition ARCH_GET_FS : Z := 4099.

Definition sys_arch_prctl (w : World) (code addr : Z) : outcome stuck sysret :=
  if code =? ARCH_SET_FS then Ok (Return (w <| cpu := write_fs_base (cpu w) addr |>) 0)
  else if code =? ARCH_GET_FS then
    match validate_user_buffer addr 8 with
    | Some _ => Ok (Return w EFAULT)
    | None => Ok (Return (set_active_mem w
                 (write_bytes (active_mem w) addr (to_le 8 (read_fs_base (cpu w))))) 0)
    end
  else Ok (Return w EINVAL).

Section exit.
Context `{FdTables}.

Definition sys_exit (w : World) (status fresh_files : Z) : outcome stuck sysret :=
  let s := sched w in
  let s1 := s <| running := (fun p => p <| exit_status := status |> <| files := fresh_files |>)
                              <$> running s |> in
  let old_files := match running s with Some p => files p | None => fresh_files end in
  let parent := match running s with
                | Some p => if is_thread p then None else parent_pid p
                | None => None
                end in
  let dead := default 0 (current_pid s1) in
  '(s2, c2, tf) ← kill_and_switch_tf s1 (cpu w);
  let w2 := drop_files old_files (w <| sched := s2 |> <| cpu := c2 |>) in
  let w3 := w2 <| sched := notify_child_death (sched w2) dead parent |> in
  let w4 := w3 <| tables := Waiters.cancel_all_waiters (tables w3) dead |> in
  jump (jump_to_user w4 tf).
End exit.

(** [fork]: [child] is the copied address space with its memory, or [None]
    when the copy failed. *)
Definition sys_fork (w : World) (child : option (Z * mem)) (kstack child_files : Z)
    : outcome stuck sysret :=
  match running (sched w) with
  | None => Ok (Return w ESRCH)
  | Some proc =>
      match child with
      | None => Ok (Return w ENOMEM)
      | Some (child_as, child_mem) =>
          let tf_copy := (live_tf (cpu w)) <| rax := 0 |> in
          let '(s1, p) := allocate_pid (sched w) in
          let c := new_user_from_fork p (pid proc) tf_copy kstack child_as child_files
                     (cwd proc) (pgid proc) (exe_name proc) (fpu_regs (cpu w)) in
          let c1 := set_name (c <| fs_base := fs_base proc |>) [99; 104; 105; 108; 100] in
          Ok (Return (w <| sched := add_process s1 c1 |>
                        <| umem := <[child_as := child_mem]> (umem w) |>) p)
      end
  end.

(** [clone]: [stack_vma] is the huge-page mapping around [stack], if any. *)
Definition sys_clone (fpu_default : list Z) (w : World) (entry stack : Z)
    (stack_vma : option (Z * Z)) (kstack : Z) : outcome stuck sysret :=
  match running (sched w) with
  | None => Ok (Return w ESRCH)
  | Some proc =>
      let '(s1, p) := allocate_pid (sched w) in
      let t := new_thread fpu_default p (pid proc) entry stack kstack (address_space proc)
                 (files proc) stack_vma (cwd proc) (pgid proc) (exe_name proc) in
      let t1 := set_name t [116; 104; 114; 101; 97; 100] in
      Ok (Return (w <| sched := add_process s1 t1 |>) p)
  end.

(** The part of [sys_exec] that changes the process, once the new image is
    loaded: [image] is its address space, entry point and stack. *)
Definition exec_image (fpu_default : list Z) (w : World) (image entry stack : Z) (path : list Z)
    : outcome stuck sysret :=
  match running (sched w) with
  | None => Ok (Return w ESRCH)
  | Some proc =>
      let p := proc <| exe_name := path |> <| address_space := image |>
                    <| trapframe := tf_zero <| rip := entry |> <| rsp := stack |> <| cs := USER_CS |>
                                            <| ss := 27 |> <| rflags := 512 |> |>
                    <| fs_base := 0 |> <| fpu_state := fpu_default |> in
      let c := update_current_fast (cpu w) p in
      let c1 := (write_fs_base c 0) <| fpu_regs := fpu_default |> <| active_as := image |> in
      jump (jump_to_user (w <| sched := (sched w) <| running := Some p |> |> <| cpu := c1 |>) Saved)
  end.

(** *** waitpid *)

(** [-p] of an [i64]: negating the least value overflows. *)
Definition wait_target (pid_arg caller_pgid : Z) : outcome stuck WaitTarget :=
  if 0 <? pid_arg then Ok (WaitPid pid_arg)
  else if pid_arg =? 0 then Ok (WaitPgid caller_pgid)
  else if pid_arg =? -1 then Ok AnyChild
  else if pid_arg =? - 2 ^ 63 then Panic
  else Ok (WaitPgid (wrap 32 (- pid_arg))).

Definition is_child (caller : option Z) (t : WaitTarget) (p : Process) : bool :=
  bool_decide (parent_pid p = caller) && matches t (pid p) (pgid p).

Definition write_status (w : World) (ptr status : Z) : World :=
  if ptr =? 0 then w
  else set_active_mem w (write_bytes (active_mem w) ptr (to_le 4 (wrap 32 status))).

Definition sys_waitpid (w : World) (pid_arg status_ptr options : Z) : outcome stuck sysret :=
  match (if status_ptr =? 0 then None else validate_user_buffer status_ptr 4) with
  | Some e => Ok (Return w e)
  | None =>
      let s := sched w in
      let caller := current_pid s in
      let caller_pgid := match running s with Some p => pgid p | None => 0 end in
      target ← wait_target pid_arg caller_pgid;
      let zombie_pos := position (fun p => bool_decide (state p = Zombie) && is_child caller target p)
                          (wait_queue s) in
      let stopped_pos :=
        match zombie_pos with
        | None =>
            if negb (Z.land options WUNTRACED =? 0)
            then position (fun p => bool_decide (state p = Stopped) && negb (stop_reported p) &&
                                    is_child caller target p) (wait_queue s)
            else None
        | Some _ => None
        end in
      match zombie_pos, stopped_pos with
      | Some pos, _ =>
          proc ← unwrap (wait_queue s !! pos);
          let w1 := w <| sched := s <| wait_queue := delete pos (wait_queue s) |> |> in
          Ok (Return (write_status w1 status_ptr (wait_status_word proc)) (pid proc))
      | None, Some pos =>
          proc ← unwrap (wait_queue s !! pos);
          let w1 := w <| sched := s <| wait_queue :=
                      alter (fun p => p <| stop_reported := true |>) pos (wait_queue s) |> |> in
          Ok (Return (write_status w1 status_ptr (stop_status_word proc)) (pid proc))
      | None, None =>
          if negb (Z.land options WNOHANG =? 0) then Ok (Return w 0)
          else if negb (existsb (is_child caller target) (iter_all s)) then Ok (Return w ECHILD)
          else
            let s1 := s <| running := (fun p => p <| waiting_for := Some target |>
                              <| waiting_options := options |> <| waiting_status_ptr := status_ptr |>)
                              <$> running s |> in
            switch_and_jump (w <| sched := s1 |>) block_current
      end
  end.

(** *** kill and process groups *)

Definition sys_kill (w : World) (target sig : Z) : outcome stuck sysret :=
  if (sig =? 0) || (Z.of_nat NUM_SIGNALS <=? sig) then Ok (Return w EINVAL)
  else if target =? -1 then Ok (Return w EINVAL)
  else
  let s := sched w in
  if (target =? 0) || (target <? -1) then
    group ← (if target =? 0 then Ok (match running s with Some p => pgid p | None => 0 end)
             else if target =? - 2 ^ 63 then Panic else Ok (wrap 32 (- target)));
    let s1 := if sig =? SIGCONT then
                let stopped := pid <$> filter (fun p => pgid p = group /\ state p = Stopped) (wait_queue s) in
                foldl (fun s' p => fst (wake_stopped s' p)) s stopped
              else s in
    Ok (Return (w <| sched := queue_signal_to_group s1 group sig |>) 0)
  else if bool_decide (current_pid s = Some target) then
    Ok (Return (w <| sched := s <| running := (fun p => queue_signal p sig) <$> running s |> |>) 0)
  else
    let s1 := if sig =? SIGCONT then fst (wake_stopped s target) else s in
    match find_process_mut s1 target (fun p => queue_signal p sig) with
    | Some s2 => Ok (Return (w <| sched := s2 |>) 0)
    | None => Ok (Return (w <| sched := s1 |>) ESRCH)
    end.

Definition sys_setpgid (w : World) (who group : Z) : outcome stuck sysret :=
  if (who <? 0) || (group <? 0) then Ok (Return w EINVAL) else
  let s := sched w in
  let caller := default 0 (current_pid s) in
  let target := if who =? 0 then caller else who in
  let new_pgid := if group =? 0 then wrap 32 target else wrap 32 group in
  if target =? caller then
    match running s with
    | Some p => Ok (Return (w <| sched := s <| running := Some (p <| pgid := new_pgid |>) |> |>) 0)
    | None => Ok (Return w ESRCH)
    end
  else match find_process_mut s target (fun p => p <| pgid := new_pgid |>) with
       | Some s1 => Ok (Return (w <| sched := s1 |>) 0)
       | None => Ok (Return w ESRCH)
       end.

(** The process [find_process_mut] finds: run queues first, then waiters. *)
Definition find_process (s : Scheduler) (target : Z) : option Process :=
  List.find (fun p => pid p =? target) (concat (run_queues s) ++ wait_queue s).

Definition sys_getpgid (w : World) (who : Z) : outcome stuck sysret :=
  if who <? 0 then Ok (Return w EINVAL) else
  let s := sched w in
  let caller := default 0 (current_pid s) in
  let target := if who =? 0 then caller else who in
  let found := if target =? caller then running s else find_process s target in
  Ok (Return w (match found with Some p => pgid p | None => ESRCH end)).

Definition sys_setsid (w : World) : outcome stuck sysret :=
  match running (sched w) with
  | Some p =>
      if pgid p =? wrap 32 (pid p) then Ok (Return w EPERM)
      else Ok (Return (w <| sched := (sched w) <| running :=
                         Some (p <| pgid := wrap 32 (pid p) |>) |> |>) (pid p))
  | None => Ok (Return w ESRCH)
  end.

(** *** futex *)

Definition FUTEX_WAIT : Z := 0.
Definition FUTEX_WAKE : Z := 1.
Definition FUTEX_PRIVATE_FLAG : Z := 128.

Definition read_i32 (m : mem) (a : Z) : Z := to_i32 (from_le (read_bytes m a 4)).

Definition sys_futex (w : World) (uaddr futex_op val : Z) : outcome stuck sysret :=
  let op := Z.ldiff futex_op FUTEX_PRIVATE_FLAG in
  let s := sched w in
  if op =? FUTEX_WAIT then
    match validate_user_buffer uaddr 4 with
    | Some _ => Ok (Return w EFAULT)
    | None =>
        if negb (read_i32 (active_mem w) uaddr =? val) then Ok (Return w EAGAIN) else
        match running s with
        | None => Ok (Return w ESRCH)
        | Some p =>
            let w1 := w <| tables := Waiters.futex_register (tables w) (pid p) uaddr (address_space p) |> in
            switch_and_jump (set_live_rax w1 0) block_current
        end
    end
  else if op =? FUTEX_WAKE then
    match running s with
    | None => Ok (Return w ESRCH)
    | Some p =>
        let '(t, woken) := Waiters.futex_collect (tables w) uaddr (address_space p) val in
        let s1 := foldl (fun s' who => wake_with_retval s' who 0) s woken in
        Ok (Return (w <| sched := s1 |> <| tables := t |>) (Z.of_nat (length woken)))
    end
  else Ok (Return w ENOSYS).

(** *** Timer interrupt and return to user mode *)

(** Step 5 of the handler: the switch when the slice is used up. *)
Definition preempt (exhausted : bool) (w : World) : outcome stuck (World * TfPtr) :=
  if exhausted
  then '(s, c, tf) ← switch_to_next (sched w) (cpu w) Live; Ok (w <| sched := s |> <| cpu := c |>, tf)
  else Ok (w, Live).

(** [timer_preempt_handler]: expired timers wake their processes, the time
    slice is charged, and a process that used it up is switched out. *)
Definition timer_preempt_handler (stack_freed : Z -> bool) (vma_freed : Z * Z * Z -> bool)
    (w : World) (now_ns : Z) : outcome stuck (World * TfPtr) :=
  let '(q, count, pids, _) := HrTimer.tick (Waiters.hrtimers (tables w)) now_ns (replicate 8 0) in
  let wake_pids := take count pids in
  let s1 := foldl wake (sched w) wake_pids in
  '(s2, exhausted) ← tick stack_freed vma_freed s1;
  let w2 := w <| sched := s2 |> <| tables := (tables w) <| Waiters.hrtimers := q |> |> in
  '(w3, tf) ← preempt exhausted w2;
  '(w4, tf4) ← jump_to_user w3 tf;
  Ok (w4 <| tables := foldl Waiters.poll_clear_on_timeout (tables w4) wake_pids |>, tf4).

(** The tail of [syscall_handler_asm]: the result goes to the live frame, then
    signals and wait statuses are resolved; if the same frame still runs, the
    entry code stores the result in its [rax] slot again. *)
Definition syscall_return (r : sysret) : outcome stuck (World * TfPtr) :=
  match r with
  | Jump w tf => Ok (w, tf)
  | Return w v =>
      '(w1, tf) ← jump_to_user (set_live_rax w v) Live;
      match tf with
      | Live => Ok (set_live_rax w1 v, Live)
      | Saved => Ok (w1, Saved)
      end
  end.

(** *** The machine *)

(** What can enter the kernel here, with the results of the calls into parts
    that are modelled elsewhere. *)
Inductive Event :=
| EvTick (stack_freed : Z -> bool) (vma_freed : Z * Z * Z -> bool) (now_ns : Z)
| EvYield
| EvNanosleep (now ns : Z)
| EvGetpid
| EvArchPrctl (code addr : Z)
| EvExit (status fresh_files : Z)
| EvFork (child : option (Z * mem)) (kstack child_files : Z)
| EvClone (fpu_default : list Z) (entry stack : Z) (stack_vma : option (Z * Z)) (kstack : Z)
| EvExec (fpu_default : list Z) (image entry stack : Z) (path : list Z)
| EvWaitpid (pid_arg status_ptr options : Z)
| EvKill (target sig : Z)
| EvSetpgid (who group : Z)
| EvGetpgid (who : Z)
| EvSetsid
| EvFutex (uaddr op val : Z).

Section machine.
Context `{FdTables}.

Definition syscall (e : Event) (w : World) : outcome stuck sysret :=
  match e with
  | EvTick _ _ _ => Ok (Return w ENOSYS)
  | EvYield => sys_yield w
  | EvNanosleep now ns => sys_nanosleep w now ns
  | EvGetpid => sys_getpid w
  | EvArchPrctl code addr => sys_arch_prctl w code addr
  | EvExit status fresh => sys_exit w status fresh
  | EvFork child kstack child_files => sys_fork w child kstack child_files
  | EvClone fpu entry stack vma kstack => sys_clone fpu w entry stack vma kstack
  | EvExec fpu image entry stack path => exec_image fpu w image entry stack path
  | EvWaitpid p ptr options => sys_waitpid w p ptr options
  | EvKill target sig => sys_kill w target (wrap 32 sig)
  | EvSetpgid who group => sys_setpgid w who group
  | EvGetpgid who => sys_getpgid w who
  | EvSetsid => sys_setsid w
  | EvFutex uaddr op val => sys_futex w uaddr op val
  end.

Definition handle (e : Event) (w : World) : outcome stuck (World * TfPtr) :=
  match e with
  | EvTick sf vf now => timer_preempt_handler sf vf w now
  | _ => r ← syscall e w; syscall_return r
  end.

(** The running program, between two kernel entries: it changes its registers
    and its memory, and the next entry pushes a fresh frame. *)
Definition user_runs (w : World) (tf : TrapFrame) (fpu : list Z) (m : mem) : World :=
  set_active_mem (w <| cpu := (cpu w) <| live_tf := tf |> <| fpu_regs := fpu |> |>) m.

Inductive step : World -> World -> Prop :=
| step_kernel e w w' tf : handle e w = Ok (w', tf) -> step w w'
| step_user w tf fpu m : step w (user_runs w tf fpu m).

Inductive reachable (w0 : World) : World -> Prop :=
| reach_init : reachable w0 w0
| reach_step w w' : reachable w0 w -> step w w' -> reachable w0 w'.

End machine.

(** ** Lemmas *)

Lemma switch_and_jump_evolves w op r :
  sched_ok (sched w) ->
  (forall s' c' tf', op (sched w) (cpu w) Live = Ok (s', c', tf') -> evolves (sched w) s') ->
  switch_and_jump w op = Ok r -> exists w' tf, r = Jump w' tf /\ evolves (sched w) (sched w').
Proof.
  intros Hok Hop. unfold switch_and_jump.
  destruct (op _ _ _) as [[[s c] tf]| |]; cbn [mbind outcome_bind]; [|done..].
  specialize (Hop s c tf eq_refl). set (w1 := w <| sched := s |> <| cpu := c |>).
  destruct (jump_to_user w1 tf) as [[w2 tf2]| |] eqn:Hj; cbn [jump mbind outcome_bind]; [|done..].
  intros [= <-]. exists w2, tf2. split; [done|].
  eapply evolves_trans; [exact Hop|]. apply (jump_to_user_evolves w1 tf w2 tf2); [apply Hop|done].
Qed.

(** A system call that returned or jumped leaves an evolved scheduler. *)
Definition sysret_world (r : sysret) : World := match r with Return w _ => w | Jump w _ => w end.

Lemma block_jump_evolves w r :
  sched_ok (sched w) -> switch_and_jump w block_current = Ok r ->
  evolves (sched w) (sched (sysret_world r)).
Proof.
  intros Hok He. eapply switch_and_jump_evolves in He as (w' & tf & -> & Hev); [done|done|].
  intros s' c' tf' Hb. by eapply block_current_evolves.
Qed.

Lemma new_process_evolves s c :
  sched_ok s -> pid c = next_pid s -> state c = Ready -> 0 <= priority c <= 10 -> signals_ok c ->
  evolves s (add_process (fst (allocate_pid s)) c).
Proof.
  intros Hok Hpid Hst Hpri Hsig. pose proof (next_nonneg s Hok) as Hn. cbn [allocate_pid fst].
  set (s1 := s <| next_pid := next_pid s + 1 |>).
  assert (sched_ok s1) as Hok1.
  { destruct Hok as [? ? ? ? ? ? Hb ?]. split; auto; cbn; [|lia]. intros p Hp. specialize (Hb p Hp). lia. }
  assert (next_pid s ∉ pids s1) as Hnew.
  { intros (p & Hp & Hin)%list_elem_of_fmap. apply (pids_bound s Hok) in Hin. lia. }
  destruct (add_process_ok s1 c Hok1) as [Hok2 Hp2]; auto; rewrite ?Hpid; [done|cbn; lia|].
  split; [done|]. split; [cbn; lia|]. intros x. rewrite Hp2. intros [->|Hx]%elem_of_cons; [right; lia|by left].
Qed.

Lemma signals_ok_new p :
  signal_handlers p = replicate NUM_SIGNALS Default -> pending_signals p = 0 -> blocked_signals p = 0 ->
  signals_ok p.
Proof. intros H1 H2 H3. split; rewrite ?H1, ?H2, ?H3; [by rewrite length_replicate|done|done]. Qed.

Lemma fork_evolves w child kstack cf r :
  sched_ok (sched w) -> sys_fork w child kstack cf = Ok r ->
  evolves (sched w) (sched (sysret_world r)).
Proof.
  intros Hok. unfold sys_fork.
  destruct (running (sched w)) as [p|]; [|intros [= <-]; by apply evolves_refl].
  destruct child as [[cas cm]|]; [|intros [= <-]; by apply evolves_refl].
  cbn [allocate_pid]. intros [= <-]. cbn [sysret_world].
  by apply (new_process_evolves (sched w)); try apply signals_ok_new.
Qed.

Lemma clone_evolves fpu w entry stack vma kstack r :
  sched_ok (sched w) -> sys_clone fpu w entry stack vma kstack = Ok r ->
  evolves (sched w) (sched (sysret_world r)).
Proof.
  intros Hok. unfold sys_clone.
  destruct (running (sched w)) as [p|]; [|intros [= <-]; by apply evolves_refl].
  cbn [allocate_pid]. intros [= <-]. cbn [sysret_world].
  by apply (new_process_evolves (sched w)); try apply signals_ok_new.
Qed.

Lemma running_evolves s g :
  sched_ok s -> (forall p, tracks p (g p)) -> evolves s (s <| running := g <$> running s |>).
Proof.
  intros Hok Hg. destruct (sched_ok_running s g Hok Hg) as [? Hp]. by apply evolves_eq.
Qed.

Lemma exit_evolves `{FdTables} w status fresh r :
  sched_ok (sched w) -> sys_exit w status fresh = Ok r -> evolves (sched w) (sched (sysret_world r)).
Proof.
  intros Hok. unfold sys_exit. set (s1 := (sched w) <| running := _ |>).
  assert (evolves (sched w) s1) as Hev1 by (apply running_evolves; [done|]; intros; by apply tracks_core).
  destruct (kill_and_switch_tf s1 (cpu w)) as [[[s2 c2] tf]| |] eqn:Hk; cbn [mbind outcome_bind]; [|done..].
  pose proof (kill_and_switch_evolves _ _ _ _ _ (proj1 Hev1) Hk) as Hev2.
  set (files0 := match running (sched w) with Some p => files p | None => fresh end).
  set (w2 := w <| sched := s2 |> <| cpu := c2 |>).
  pose proof (drop_files_benign files0 w2 (proj1 Hev2)) as Hb. set (w3 := drop_files files0 w2) in *.
  set (parent := match running (sched w) with Some p => _ | None => None end).
  set (dead := default 0 (current_pid s1)).
  pose proof (notify_child_death_benign (sched w3) dead parent (proj1 Hb)) as Hb2.
  set (w4 := w3 <| sched := _ |> <| tables := _ |>).
  destruct (jump_to_user w4 tf) as [[w5 tf5]| |] eqn:Hj; cbn [jump mbind outcome_bind]; [|done..].
  intros [= <-]. cbn [sysret_world].
  eapply evolves_trans; [exact Hev1|]. eapply evolves_trans; [exact Hev2|].
  eapply (evolves_trans _ (sched w3)); [by apply (evolves_benign s2)|].
  eapply (evolves_trans _ (sched w4)); [by apply evolves_benign|].
  eapply jump_to_user_evolves; [|exact Hj]. apply Hb2.
Qed.

Lemma exec_evolves fpu w image entry stack path r :
  sched_ok (sched w) -> exec_image fpu w image entry stack path = Ok r ->
  evolves (sched w) (sched (sysret_world r)).
Proof.
  intros Hok. unfold exec_image.
  destruct (running (sched w)) as [p|] eqn:Hrun; [|intros [= <-]; by apply evolves_refl].
  set (q := p <| exe_name := _ |> <| address_space := _ |> <| trapframe := _ |> <| fs_base := _ |>
              <| fpu_state := _ |>).
  assert (proc_ok p) as Hp by (apply Hok; rewrite (iter_all_running _ _ Hrun); by left).
  destruct (replace_running_ok (sched w) p q Hok Hrun) as [Hok1 Hp1]; [done|done| |].
  { by apply (proc_ok_same p). }
  set (w1 := w <| sched := _ |> <| cpu := _ |>).
  destruct (jump_to_user w1 Saved) as [[w2 tf2]| |] eqn:Hj; cbn [jump mbind outcome_bind]; [|done..].
  intros [= <-]. cbn [sysret_world]. eapply (evolves_trans _ (sched w1)); [by apply evolves_eq|].
  by eapply jump_to_user_evolves; [|exact Hj].
Qed.

Lemma wait_tracks s wq :
  sched_ok s -> Forall2 tracks (wait_queue s) wq -> evolves s (s <| wait_queue := wq |>).
Proof. intros Hok Hw. destruct (sched_ok_tracks s (s <| wait_queue := wq |>)); auto. by apply evolves_eq. Qed.

Lemma write_status_sched w ptr v : sched (write_status w ptr v) = sched w.
Proof. unfold write_status. by destruct (_ =? 0). Qed.

Lemma active_mem_set w m : active_mem (set_active_mem w m) = m.
Proof. unfold active_mem, set_active_mem. cbn. by rewrite lookup_insert_eq. Qed.

Lemma waitpid_evolves w a ptr options r :
  sched_ok (sched w) -> sys_waitpid w a ptr options = Ok r ->
  evolves (sched w) (sched (sysret_world r)).
Proof.
  intros Hok. unfold sys_waitpid.
  destruct (if ptr =? 0 then None else _) as [e|]; [intros [= <-]; by apply evolves_refl|].
  destruct (wait_target _ _) as [t| |]; cbn [mbind outcome_bind]; [|done..].
  destruct (position _ (wait_queue (sched w))) as [pos|] eqn:Hz.
  - destruct (wait_queue (sched w) !! pos) as [p|] eqn:Hp; cbn [unwrap mbind outcome_bind]; [|done].
    intros [= <-]. cbn [sysret_world]. rewrite write_status_sched.
    destruct (remove_wait_ok (sched w) pos p Hok Hp) as (Hok1 & _ & Hp1 & _).
    apply evolves_sub; [done|done|]. intros x Hx. rewrite Hp1. by right.
  - set (stopped := if negb _ then _ else _). destruct stopped as [pos|].
    + destruct (wait_queue (sched w) !! pos) as [p|] eqn:Hp; cbn [unwrap mbind outcome_bind]; [|done].
      intros [= <-]. cbn [sysret_world]. rewrite write_status_sched. apply wait_tracks; [done|].
      rewrite (list_alter_as_insert _ _ _ p) by done.
      rewrite <- (list_insert_id (wait_queue (sched w)) pos p Hp) at 1.
      apply Forall2_insert; [apply Forall2_tracks_refl|by apply tracks_core].
    + destruct (negb _); [intros [= <-]; by apply evolves_refl|].
      destruct (negb _); [intros [= <-]; by apply evolves_refl|].
      set (w1 := w <| sched := _ |>). intros He.
      assert (evolves (sched w) (sched w1)) as Hev
        by (apply running_evolves; [done|]; intros; by apply tracks_core).
      eapply evolves_trans; [exact Hev|]. by apply block_jump_evolves; [apply Hev|].
Qed.

Lemma foldl_evolves {A} (f : Scheduler -> A -> Scheduler) (l : list A) s :
  (forall s' x, sched_ok s' -> evolves s' (f s' x)) -> sched_ok s -> evolves s (foldl f s l).
Proof.
  intros Hf. revert s; induction l as [|x l IH]; intros s Hok; simpl; [by apply evolves_refl|].
  pose proof (Hf s x Hok) as Hev. eapply evolves_trans; [exact Hev|]. apply IH, Hev.
Qed.

Lemma wake_stopped_evolves s t : sched_ok s -> evolves s (fst (wake_stopped s t)).
Proof. intros. apply wake_where_evolves; [done|]. intros; by apply tracks_core. Qed.

Lemma find_process_mut_evolves s t g s' :
  sched_ok s -> (forall p, tracks p (g p)) -> find_process_mut s t g = Some s' -> evolves s s'.
Proof.
  intros Hok Hg Hf. destruct (find_process_mut_ok s t g s' Hok Hg Hf) as (? & ? & _).
  apply evolves_eq; [done|by eapply find_process_mut_next|done].
Qed.

Lemma kill_evolves w target sig r :
  sched_ok (sched w) -> 0 <= sig -> sys_kill w target sig = Ok r ->
  evolves (sched w) (sched (sysret_world r)).
Proof.
  intros Hok Hsig. unfold sys_kill.
  assert (forall p, tracks p (queue_signal p sig)) as Ht by (intros; by apply tracks_signal).
  destruct (_ || _); [intros [= <-]; by apply evolves_refl|].
  destruct (target =? -1); [intros [= <-]; by apply evolves_refl|]. cbv zeta.
  destruct (_ || _).
  - set (grp := if target =? 0 then _ else _). destruct grp as [g| |]; cbn [mbind outcome_bind]; [|done..].
    intros [= <-]. cbn [sysret_world].
    set (s1 := if sig =? SIGCONT then _ else _).
    assert (evolves (sched w) s1) as Hev.
    { unfold s1. destruct (sig =? SIGCONT); [|by apply evolves_refl].
      apply foldl_evolves; [|done]. intros; by apply wake_stopped_evolves. }
    eapply evolves_trans; [exact Hev|].
    destruct (queue_signal_to_group_ok s1 g sig (proj1 Hev) Hsig). by apply evolves_eq.
  - case_bool_decide; [intros [= <-]; by apply running_evolves|].
    set (s1 := if sig =? SIGCONT then _ else _).
    assert (evolves (sched w) s1) as Hev.
    { unfold s1. destruct (sig =? SIGCONT); [by apply wake_stopped_evolves|by apply evolves_refl]. }
    destruct (find_process_mut s1 _ _) as [s2|] eqn:Hf; intros [= <-]; [|exact Hev].
    eapply evolves_trans; [exact Hev|]. by eapply find_process_mut_evolves; [apply Hev| |exact Hf].
Qed.

Lemma pgid_tracks p g : tracks p (p <| pgid := g |>).
Proof. by apply tracks_core. Qed.

Lemma set_pgid_evolves s p g :
  sched_ok s -> running s = Some p -> evolves s (s <| running := Some (p <| pgid := g |>) |>).
Proof.
  intros Hok Hrun. pose proof (running_evolves s (fun q => q <| pgid := g |>) Hok) as H.
  rewrite Hrun in H. apply H. intros; apply pgid_tracks.
Qed.

Lemma setpgid_evolves w who group r :
  sched_ok (sched w) -> sys_setpgid w who group = Ok r -> evolves (sched w) (sched (sysret_world r)).
Proof.
  intros Hok. unfold sys_setpgid. destruct (_ || _); [intros [= <-]; by apply evolves_refl|]. cbv zeta.
  destruct (_ =? default 0 _).
  - destruct (running (sched w)) as [p|] eqn:Hrun; intros [= <-]; [|by apply evolves_refl].
    by apply set_pgid_evolves.
  - destruct (find_process_mut _ _ _) as [s1|] eqn:Hf; intros [= <-]; [|by apply evolves_refl].
    eapply find_process_mut_evolves; [done| |exact Hf]. intros; apply pgid_tracks.
Qed.

Lemma setsid_evolves w r :
  sched_ok (sched w) -> sys_setsid w = Ok r -> evolves (sched w) (sched (sysret_world r)).
Proof.
  intros Hok. unfold sys_setsid. destruct (running (sched w)) as [p|] eqn:Hrun;
    [|intros [= <-]; by apply evolves_refl].
  destruct (_ =? _); intros [= <-]; [by apply evolves_refl|]. by apply set_pgid_evolves.
Qed.

Lemma wake_with_retval_evolves s t v : sched_ok s -> evolves s (wake_with_retval s t v).
Proof. intros. apply wake_where_evolves; [done|]. intros; by apply tracks_core. Qed.

Lemma futex_evolves w ua op val r :
  sched_ok (sched w) -> sys_futex w ua op val = Ok r -> evolves (sched w) (sched (sysret_world r)).
Proof.
  intros Hok. unfold sys_futex. cbv zeta. destruct (_ =? FUTEX_WAIT).
  - destruct (validate_user_buffer _ _); [intros [= <-]; by apply evolves_refl|].
    destruct (negb _); [intros [= <-]; by apply evolves_refl|].
    destruct (running (sched w)); [|intros [= <-]; by apply evolves_refl].
    intros He. by apply block_jump_evolves in He.
  - destruct (_ =? FUTEX_WAKE); [|intros [= <-]; by apply evolves_refl].
    destruct (running (sched w)); [|intros [= <-]; by apply evolves_refl].
    destruct (Waiters.futex_collect _ _ _ _) as [t woken]. intros [= <-]. cbn [sysret_world].
    apply (foldl_evolves (fun s' who => wake_with_retval s' who 0)); [|done].
    intros; by apply wake_with_retval_evolves.
Qed.

Lemma syscall_evolves `{FdTables} e w r :
  sched_ok (sched w) -> syscall e w = Ok r -> evolves (sched w) (sched (sysret_world r)).
Proof.
  intros Hok. destruct e; cbn [syscall].
  - intros [= <-]. by apply evolves_refl.
  - intros He. eapply switch_and_jump_evolves in He as (w' & tf & -> & Hev); [done|done|].
    intros s' c' tf' Hb. by eapply switch_to_next_evolves.
  - unfold sys_nanosleep. destruct (_ =? 0); [intros [= <-]; by apply evolves_refl|]. cbv zeta.
    intros He. by apply block_jump_evolves in He.
  - intros [= <-]. by apply evolves_refl.
  - unfold sys_arch_prctl. destruct (_ =? _); [intros [= <-]; by apply evolves_refl|].
    destruct (_ =? _); [|intros [= <-]; by apply evolves_refl].
    destruct (validate_user_buffer _ _); intros [= <-]; by apply evolves_refl.
  - by apply exit_evolves.
  - by apply fork_evolves.
  - by apply clone_evolves.
  - by apply exec_evolves.
  - by apply waitpid_evolves.
  - apply kill_evolves; [done|]. apply Z.mod_pos_bound. done.
  - by apply setpgid_evolves.
  - unfold sys_getpgid. destruct (_ <? 0); intros [= <-]; by apply evolves_refl.
  - by apply setsid_evolves.
  - by apply futex_evolves.
Qed.

Lemma timer_evolves sf vf w now w' tf :
  sched_ok (sched w) -> timer_preempt_handler sf vf w now = Ok (w', tf) -> evolves (sched w) (sched w').
Proof.
  intros Hok. unfold timer_preempt_handler.
  destruct (HrTimer.tick _ _ _) as [[[q count] ps] calls].
  set (s1 := foldl wake (sched w) (take count ps)).
  assert (evolves (sched w) s1) as Hev1.
  { apply foldl_evolves; [|done]. intros s x Hs. by apply evolves_benign, benign_wake. }
  destruct (tick_ok sf vf s1 (proj1 Hev1)) as (s2 & b & -> & Hok2 & Hp2 & _ & _ & Hn2 & _).
  cbn [mbind outcome_bind]. assert (evolves (sched w) s2) as Hev2
    by (eapply evolves_trans; [exact Hev1|by apply evolves_perm]).
  set (w2 := w <| sched := s2 |> <| tables := _ |>).
  assert (forall w3 t3, preempt b w2 = Ok (w3, t3) -> evolves s2 (sched w3)) as Hpre.
  { intros w3 t3. unfold preempt. destruct b; [|intros [= <- <-]; by apply evolves_refl].
    destruct (switch_to_next _ _ _) as [[[s3 c3] t]| |] eqn:Hsw; cbn [mbind outcome_bind]; [|done..].
    intros [= <- <-]. cbn. by apply switch_to_next_evolves in Hsw. }
  destruct (preempt b w2) as [[w3 t3]| |]; cbn [mbind outcome_bind]; [|done..].
  specialize (Hpre w3 t3 eq_refl).
  destruct (jump_to_user w3 t3) as [[w4 t4]| |] eqn:Hj; cbn [mbind outcome_bind]; [|done..].
  intros [= <- <-]. cbn. eapply evolves_trans; [exact Hev2|]. eapply evolves_trans; [exact Hpre|].
  eapply jump_to_user_evolves; [|exact Hj]. apply Hpre.
Qed.

Lemma handle_evolves `{FdTables} e w w' tf :
  sched_ok (sched w) -> handle e w = Ok (w', tf) -> evolves (sched w) (sched w').
Proof.
  intros Hok. assert (forall r, evolves (sched w) (sched (sysret_world r)) ->
    syscall_return r = Ok (w', tf) -> evolves (sched w) (sched w')) as Hret.
  { intros r Hev. destruct r as [w1 v|w1 t1]; cbn [syscall_return]; [|by intros [= <- <-]].
    destruct (jump_to_user _ _) as [[w2 t2]| |] eqn:Hj; cbn [mbind outcome_bind]; [|done..].
    apply jump_to_user_evolves in Hj; [|apply Hev].
    destruct t2; intros [= <- <-]; (eapply evolves_trans; [exact Hev|exact Hj]). }
  destruct e as [sf vf now| | | | | | | | | | | | | |]; [apply timer_evolves; done|..];
    (cbn [handle]; destruct (syscall _ w) as [r| |] eqn:Hs; cbn [mbind outcome_bind]; [|done..];
     apply Hret; by eapply syscall_evolves).
Qed.

(** *** Witnesses' system *)

(** Descriptor tables that hold nothing but files whose close has no effect on
    other processes. *)
#[local] Instance plain_files : FdTables.
Proof.
  refine {| drop_files := fun _ w => w |}; [|done].
  intros _ w Hok. by apply benign_tracks.
Defined.

Definition demo_boot : World := mkWorld demo_sched demo_cpu ∅ Waiters.tables_init.

Lemma demo_boot_ok : sched_ok (sched demo_boot).
Proof. apply sched_okb_ok. vm_compute. reflexivity. Qed.

(** The state after a list of events, [None] if one of them does not return. *)
Fixpoint run (es : list Event) (w : World) : option World :=
  match es with
  | [] => Some w
  | e :: es' => match handle e w with Ok (w', _) => run es' w' | _ => None end
  end.

Lemma run_reachable es w0 w w' : reachable w0 w -> run es w = Some w' -> reachable w0 w'.
Proof.
  revert w; induction es as [|e es IH]; intros w Hr; simpl; [by intros [= <-]|].
  destruct (handle e w) as [[w1 tf]| |] eqn:He; [|done..].
  apply IH. eapply reach_step; [exact Hr|]. by eapply step_kernel.
Qed.

Definition fork_event : Event := EvFork (Some (9, ∅)) 81920 77.

(** ** Properties *)


(** Pids are never reused: a pid the counter has passed and no process
    carries is carried by no process of any later state. *)
Theorem pid_never_reused `{FdTables} w0 w x :
  sched_ok (sched w0) -> reachable w0 w ->
  x < next_pid (sched w0) -> x ∉ pids (sched w0) -> x ∉ pids (sched w).
Proof.
  intros Hok Hr Hx Hnot. assert (evolves (sched w0) (sched w)) as (_ & _ & Hev).
  { induction Hr as [|w w' _ IH Hstep]; [by apply evolves_refl|].
    destruct Hstep as [e w w' tf He|w tf fpu m]; [|done].
    eapply evolves_trans; [exact IH|]. eapply handle_evolves; [apply IH|exact He]. }
  intros [|]%Hev; [done|lia].
Qed.


(** Pid 4 has been handed out and is gone. *)
Definition demo_gap : World :=
  demo_boot <| sched := (sched demo_boot) <| next_pid := 5 |> |>.

Lemma pid_never_reused_witness :
  exists w, reachable demo_gap w /\ (4 ∉ pids (sched w)) /\ pids (sched w) = [2; 0; 1; 3; 5].
Proof.
  set (es := [fork_event; EvYield]).
  assert ((fun v => pids (sched v)) <$> run es demo_gap = Some [2; 0; 1; 3; 5]) as Hp
    by (vm_compute; reflexivity).
  destruct (run es demo_gap) as [w|] eqn:Hrun; [|discriminate Hp]. injection Hp as Hp.
  pose proof (run_reachable _ demo_gap _ _ (reach_init demo_gap) Hrun) as Hr.
  exists w. split; [exact Hr|]. split; [|exact Hp].
  apply (pid_never_reused demo_gap w 4); [|exact Hr|reflexivity|].
  - apply sched_okb_ok. vm_compute. reflexivity.
  - apply (bool_decide_unpack (4 ∉ pids (sched demo_gap))). vm_compute. exact I.
Defined.

(** C38: [waitpid] answers only about the caller's own children that the target
    selects.  It returns an error or 0 without changing anything, [ECHILD]
    exactly when no such child exists; a dead child it reports is removed from
    the system and its status word is what the caller's pointer then holds; a
    stopped child stays and is marked as reported. *)
Theorem waitpid_spec w a ptr options p w' v :
  sched_ok (sched w) -> running (sched w) = Some p ->
  sys_waitpid w a ptr options = Ok (Return w' v) ->
  v = EFAULT /\ w' = w \/
  exists t, wait_target a (pgid p) = Ok t /\
  let child q := is_child (Some (pid p)) t q = true in
  (v = 0 /\ w' = w /\ Z.land options WNOHANG <> 0 \/
   v = ECHILD /\ w' = w /\ (forall q, q ∈ iter_all (sched w) -> ~ child q) \/
   exists q, q ∈ wait_queue (sched w) /\ child q /\ v = pid q /\
     (ptr <> 0 -> from_le (read_bytes (active_mem w') ptr 4) =
        wrap 32 (if bool_decide (state q = Zombie) then wait_status_word q else stop_status_word q)) /\
     (state q = Zombie /\ pids (sched w) ≡ₚ pid q :: pids (sched w') \/
      state q = Stopped /\ stop_reported q = false /\ pids (sched w') = pids (sched w) /\
      (q <| stop_reported := true |>) ∈ wait_queue (sched w'))).
Proof.
  intros Hok Hrun. unfold sys_waitpid, current_pid. rewrite Hrun. cbn [fmap option_fmap option_map].
  destruct (if ptr =? 0 then None else _) as [e|] eqn:Hptr.
  { intros [= <- <-]. left. split; [|done]. destruct (ptr =? 0); [done|].
    unfold validate_user_buffer in Hptr. repeat case_match; congruence. }
  destruct (wait_target a (pgid p)) as [t| |]; cbn [mbind outcome_bind]; [|done..].
  assert (forall w1 st, ptr <> 0 ->
    from_le (read_bytes (active_mem (write_status w1 ptr st)) ptr 4) = wrap 32 st) as Hst.
  { intros w1 st Hne. unfold write_status. rewrite (proj2 (Z.eqb_neq _ _) Hne).
    rewrite active_mem_set.
    rewrite <- (length_to_le 4 (wrap 32 st)) at 2. rewrite read_write_bytes.
    apply from_to_le. apply Z.mod_pos_bound. done. }
  destruct (position _ (wait_queue (sched w))) as [pos|] eqn:Hz.
  - apply position_Some in Hz as (q & Hq & Hf & _). rewrite Hq. cbn [unwrap mbind outcome_bind].
    apply andb_prop in Hf as [Hzq Hc]. apply bool_decide_eq_true in Hzq. intros [= <- <-].
    right. exists t. split; [done|]. right; right. exists q.
    split; [by eapply list_elem_of_lookup_2|]. split; [done|]. split; [done|].
    rewrite bool_decide_true by done. split; [apply Hst|]. left. split; [done|].
    rewrite write_status_sched. cbn.
    destruct (remove_wait_ok (sched w) pos q Hok Hq) as (_ & _ & Hp & _). exact Hp.
  - set (stopped := if negb _ then _ else _).
    assert (forall pos, stopped = Some pos -> exists q, wait_queue (sched w) !! pos = Some q /\
      state q = Stopped /\ stop_reported q = false /\ is_child (Some (pid p)) t q = true) as Hstop.
    { intros pos. unfold stopped. destruct (negb _); [|done]. intros (q & Hq & Hf & _)%position_Some.
      exists q. rewrite !andb_true_iff, bool_decide_eq_true, negb_true_iff in Hf. tauto. }
    destruct stopped as [pos|].
    + destruct (Hstop pos eq_refl) as (q & Hq & Hsq & Hnr & Hc). rewrite Hq.
      cbn [unwrap mbind outcome_bind]. intros [= <- <-]. right. exists t. split; [done|].
      right; right. exists q. split; [by eapply list_elem_of_lookup_2|]. split; [done|]. split; [done|].
      rewrite bool_decide_false by congruence. split; [apply Hst|]. right. split; [done|]. split; [done|].
      rewrite write_status_sched. cbn [sched update_field].
      rewrite (list_alter_as_insert _ _ _ q) by done. split.
      * destruct (sched_ok_tracks (sched w) ((sched w) <| wait_queue :=
          <[pos := q <| stop_reported := true |>]> (wait_queue (sched w)) |>)) as [_ He]; auto.
        cbn. rewrite <- (list_insert_id (wait_queue (sched w)) pos q Hq) at 1.
        apply Forall2_insert; [apply Forall2_tracks_refl|by apply tracks_core].
      * cbn. apply (list_elem_of_lookup_2 _ pos). apply list_lookup_insert_eq. by eapply lookup_lt_Some.
    + destruct (Z.eqb_spec (Z.land options WNOHANG) 0) as [H0|H0]; cbn [negb].
      * destruct (existsb _ _) eqn:Hex; cbn [negb].
        { unfold switch_and_jump. destruct (block_current _ _ _) as [[[s c] tf]| |]; cbn; [|done..].
          destruct (jump_to_user _ _) as [[]| |]; done. }
        intros [= <- <-]. right. exists t. split; [done|]. right; left. split; [done|]. split; [done|].
        intros q Hq Hc. apply not_true_iff_false in Hex. apply Hex. apply existsb_exists.
        exists q. split; [by apply list_elem_of_In|done].
      * intros [= <- <-]. right. exists t. split; [done|]. left. done.
Qed.

(** The running process 1 has a dead child, 3. *)
Definition demo_parent : World :=
  mkWorld (demo_sched <| run_queues := [idle] :: replicate 10 [] |> <| next_pid := 4 |>
     <| wait_queue := [(user_process 3) <| state := Zombie |> <| parent_pid := Some 1 |>
                                        <| exit_status := 7 |>] |>)
    demo_cpu ∅ Waiters.tables_init.

Lemma waitpid_spec_witness :
  exists w', sys_waitpid demo_parent (-1) 4096 0 = Ok (Return w' 3) /\ sched_ok (sched demo_parent) /\
    (3 = EFAULT /\ w' = demo_parent \/
     exists t, wait_target (-1) 1 = Ok t /\
     let child q := is_child (Some 1) t q = true in
     (3 = 0 /\ w' = demo_parent /\ Z.land 0 WNOHANG <> 0 \/
      3 = ECHILD /\ w' = demo_parent /\ (forall q, q ∈ iter_all (sched demo_parent) -> ~ child q) \/
      exists q, q ∈ wait_queue (sched demo_parent) /\ child q /\ 3 = pid q /\
        (4096 <> 0 -> from_le (read_bytes (active_mem w') 4096 4) =
           wrap 32 (if bool_decide (state q = Zombie) then wait_status_word q else stop_status_word q)) /\
        (state q = Zombie /\ pids (sched demo_parent) ≡ₚ pid q :: pids (sched w') \/
         state q = Stopped /\ stop_reported q = false /\ pids (sched w') = pids (sched demo_parent) /\
         (q <| stop_reported := true |>) ∈ wait_queue (sched w')))).
Proof.
  assert (sched_ok (sched demo_parent)) as Hok by (apply sched_okb_ok; vm_compute; reflexivity).
  assert (match sys_waitpid demo_parent (-1) 4096 0 with Ok (Return _ v) => v | _ => 0 end = 3) as Hv
    by (vm_compute; reflexivity).
  destruct (sys_waitpid demo_parent (-1) 4096 0) as [[w' v|]| |] eqn:He; [|discriminate Hv..].
  subst v. exists w'. split; [reflexivity|]. split; [exact Hok|].
  exact (waitpid_spec demo_parent (-1) 4096 0 ((user_process 1) <| state := Running |>) w' 3
    Hok eq_refl He).
Defined.

(** A child whose death wakes a parent blocked in [waitpid] is reported a
    second time by the next [waitpid].  Process 1 forks 4, waits for it and
    blocks; 4 is scheduled and exits, which makes 1 ready with result 4; 1 runs
    again and asks once more without blocking: the answer is 4 again, the dead
    child was never removed. *)
Theorem wait_reports_twice :
  match run [fork_event; EvGetpid; EvWaitpid 4 0 0] demo_boot,
        run [fork_event; EvGetpid; EvWaitpid 4 0 0; EvYield; EvYield; EvExit 7 90; EvYield] demo_boot with
  | Some w1, Some w2 =>
      (fun p => (pid p, state p)) <$> List.find (fun p => pid p =? 1) (wait_queue (sched w1))
        = Some (1, Blocked) /\
      (fun p => (pid p, rax (trapframe p))) <$> running (sched w2) = Some (1, 4) /\
      match sys_waitpid w2 4 0 WNOHANG with
      | Ok (Return _ v) => v = 4
      | _ => False
      end
  | _, _ => False
  end.
Proof. vm_compute. split; [reflexivity|]. split; reflexivity. Qed.

(** [fork] returns the fresh pid to the parent, which is otherwise untouched,
    and makes ready a child with the parent's live frame except for a result of
    0, its live FPU registers, group, directory and program name, no signal
    state, and its own address space and descriptor table.  The FS base it gets
    is the parent's saved one, not the live register: a base set with
    [arch_prctl] since the parent was last switched out is not inherited. *)
Theorem fork_spec w p child_as child_mem kstack child_files :
  sched_ok (sched w) -> running (sched w) = Some p ->
  exists w' c, sys_fork w (Some (child_as, child_mem)) kstack child_files =
      Ok (Return w' (next_pid (sched w))) /\
    running (sched w') = Some p /\ cpu w' = cpu w /\
    concat (run_queues (sched w')) ≡ₚ c :: concat (run_queues (sched w)) /\
    wait_queue (sched w') = wait_queue (sched w) /\ next_pid (sched w') = next_pid (sched w) + 1 /\
    pid c = next_pid (sched w) /\ (pid c ∉ pids (sched w)) /\ parent_pid c = Some (pid p) /\
    state c = Ready /\ trapframe c = (live_tf (cpu w)) <| rax := 0 |> /\
    fpu_state c = fpu_regs (cpu w) /\ fs_base c = fs_base p /\
    address_space c = child_as /\ files c = child_files /\ pgid c = pgid p /\ cwd c = cwd p /\
    exe_name c = exe_name p /\ pending_signals c = 0 /\ blocked_signals c = 0 /\
    umem w' !! child_as = Some child_mem.
Proof.
  intros Hok Hrun. unfold sys_fork. rewrite Hrun. cbn [allocate_pid].
  eexists _, _. split; [reflexivity|]. split; [exact Hrun|]. split; [reflexivity|].
  split.
  { unfold add_process, push_ready. cbn [sched run_queues update_field].
    apply concat_alter_push. rewrite (queues_len _ Hok). apply queue_of_lt. }
  split; [reflexivity|]. split; [reflexivity|]. split; [reflexivity|]. split.
  { intros (q & Hq & Hin)%list_elem_of_fmap. apply (pids_bound _ Hok) in Hin. cbn in Hq. lia. }
  repeat (split; [reflexivity|]). cbn. apply lookup_insert_eq.
Qed.

Lemma fork_spec_witness :
  sched_ok (sched demo_boot) /\
  exists w' c, sys_fork demo_boot (Some (9, ∅)) 81920 77 = Ok (Return w' 4) /\
    concat (run_queues (sched w')) ≡ₚ c :: concat (run_queues (sched demo_boot)) /\
    fs_base c = 0 /\ msr_fs_base (cpu demo_boot) = 1000.
Proof.
  split; [exact demo_boot_ok|].
  destruct (fork_spec demo_boot ((user_process 1) <| state := Running |>) 9 ∅ 81920 77 demo_boot_ok eq_refl)
    as (w' & c & He & _ & _ & Hp & _ & _ & _ & _ & _ & _ & _ & _ & Hf & _).
  exists w', c. split; [exact He|]. split; [exact Hp|]. split; [exact Hf|reflexivity].
Defined.

(** A process with pid 32 or more that blocks in FUTEX_WAIT has no slot in
    the futex table, so no FUTEX_WAKE on any word ever selects it. *)
Theorem futex_wait_unregistered t who ua asid ua' asid' val :
  Waiters.tables_ok t -> Waiters.MAX_PROCS <= who ->
  who ∉ snd (Waiters.futex_collect (Waiters.futex_register t who ua asid) ua' asid' val).
Proof.
  intros Hok Hwho. unfold Waiters.futex_register. rewrite (proj2 (Z.ltb_ge who Waiters.MAX_PROCS)) by done.
  unfold Waiters.futex_collect. set (mx := if val <=? 0 then _ else _).
  pose proof (Waiters.futex_scan_woken ua' asid' mx 0 (Waiters.futex_waiters t) []) as Hw.
  destruct (Waiters.futex_scan _ _ _ _ _ _) as [slots woken]. cbn [snd] in *.
  rewrite Hw. intros Hin. cbn [app] in Hin. apply list_elem_of_lookup in Hin as (k & Hk).
  apply lookup_take_Some in Hk as [Hk _]. apply list_elem_of_lookup_2 in Hk.
  apply Waiters.elem_of_waiting_on in Hk as [_ Hk]. apply lookup_lt_Some in Hk.
  rewrite (Waiters.futex_len t Hok) in Hk. unfold Waiters.MAX_PROCS in Hwho. lia.
Qed.

Lemma futex_wait_unregistered_witness :
  33 ∉ snd (Waiters.futex_collect (Waiters.futex_register Waiters.tables_init 33 4096 1) 4096 1 1).
Proof.
  apply futex_wait_unregistered; [split; reflexivity|vm_compute; congruence].
Defined.

End ProcessCtl.
