(* ===== verification/Pipe.v ===== *)
(** Pipes: [kernel/src/process/pipe.rs].

    [PipeBuffer] is the shared object behind both ends.  Reading and writing
    take it with the [World], because completing a transfer copies bytes to or
    from the memory of a blocked process and wakes it.  The caller's buffer is
    a range of the active address space.

    [mapped] stands for the page tables: whether [translate_page] finds a
    frame for a page of an address space, which a call does not change.  Memory
    is kept per address space, so frames shared
    between address spaces are not represented. *)

From Stdlib Require Import ZArith Lia.
From stdpp Require Import base numbers gmap list.
From S2P Require Import Prelude Ring Process Signal Scheduler SchedulerInv.

Local Open Scope Z_scope.

Module Pipe.
Import Process Scheduler SchedulerInv.

(** ** Model *)

Definition PIPE_CAPACITY : nat := 4096.
#[global] Arguments PIPE_CAPACITY : simpl never.
#[local] Arguments Nat.modulo : simpl never.

Record PipeWaiter := mkWaiter { w_pid : Z; user_buf : Z; count : nat }.

Record PipeBuffer := mkPipe {
  data : list Z;
  head : nat;
  len : nat;
  readers : Z;
  writers : Z;
  read_waiter : option PipeWaiter;
  write_waiter : option PipeWaiter;
}.

#[export] Instance PipeBuffer_fields : Fields PipeBuffer := fun p =>
  mkPipe (data p) (head p) (len p) (readers p) (writers p) (read_waiter p) (write_waiter p).

Inductive FileError := WouldBlock | BrokenPipe.

Definition pipe_new : PipeBuffer := mkPipe (replicate PIPE_CAPACITY 0) 0 0 1 1 None None.

(** [try_read] into a buffer of [size] bytes: the bytes it stored. *)
Definition try_read (p : PipeBuffer) (size : nat) : PipeBuffer * list Z :=
  let n := Nat.min size (len p) in
  let bytes := (fun i => data p !!! ((head p + i) mod PIPE_CAPACITY)%nat) <$> seq 0 n in
  (p <| head := ((head p + n) mod PIPE_CAPACITY)%nat |> <| len := (len p - n)%nat |>, bytes).

(** The store loop of [try_write]. *)
Fixpoint write_loop (d : list Z) (tail i : nat) (bytes : list Z) : list Z :=
  match bytes with
  | [] => d
  | b :: rest => write_loop (<[((tail + i) mod PIPE_CAPACITY)%nat := b]> d) tail (S i) rest
  end.

Definition try_write (p : PipeBuffer) (buf : list Z) : PipeBuffer * nat :=
  let space := (PIPE_CAPACITY - len p)%nat in
  let n := Nat.min (length buf) space in
  let tail := ((head p + len p) mod PIPE_CAPACITY)%nat in
  (p <| data := write_loop (data p) tail 0 (take n buf) |> <| len := (len p + n)%nat |>, n).

Section transfer.
Variable mapped : Z -> Z -> bool.

(** The page loop of [copy_to_user] from [done]: bytes go out one page at a
    time, up to the first page without a frame. *)
Fixpoint copy_to_user_loop (fuel : nat) (space : Z) (m : mem) (addr : Z) (src : list Z) (done : nat)
    : mem * nat :=
  match fuel with
  | O => (m, done)
  | S f =>
      if (length src <=? done)%nat then (m, done) else
      let vaddr := addr + Z.of_nat done in
      let page_off := Z.land vaddr 4095 in
      let chunk := Nat.min (length src - done) (Z.to_nat (4096 - page_off)) in
      if mapped space (vaddr - page_off)
      then copy_to_user_loop f space (write_bytes m vaddr (take chunk (drop done src))) addr src (done + chunk)
      else (m, done)
  end.

Definition copy_to_user (space : Z) (m : mem) (addr : Z) (src : list Z) : mem * nat :=
  copy_to_user_loop (S (length src)) space m addr src 0.

(** The page loop of [copy_from_user]; the bytes read so far come first. *)
Fixpoint copy_from_user_loop (fuel : nat) (space : Z) (m : mem) (addr : Z) (size : nat) (got : list Z)
    : list Z :=
  match fuel with
  | O => got
  | S f =>
      let done := length got in
      if (size <=? done)%nat then got else
      let vaddr := addr + Z.of_nat done in
      let page_off := Z.land vaddr 4095 in
      let chunk := Nat.min (size - done) (Z.to_nat (4096 - page_off)) in
      if mapped space (vaddr - page_off)
      then copy_from_user_loop f space m addr size (got ++ read_bytes m vaddr chunk)
      else got
  end.

Definition copy_from_user (space : Z) (m : mem) (addr : Z) (size : nat) : list Z :=
  copy_from_user_loop (S size) space m addr size [].

Definition mem_of (w : World) (space : Z) : mem := default ∅ (umem w !! space).

(** The position of a blocked process in the wait queue. *)
Definition blocked_pos (s : Scheduler) (who : Z) : option nat :=
  position (fun p => (pid p =? who) && bool_decide (state p = Blocked)) (wait_queue s).

Definition set_rax (v : Z) (p : Process) : Process :=
  p <| trapframe := (trapframe p) <| rax := wrap 64 v |> |>.

(** [deliver_and_wake] with the effect [f] has on the process's memory. *)
Definition deliver_and_wake (w : World) (who : Z) (f : Process -> mem -> mem * Z) : World :=
  let s := sched w in
  match blocked_pos s who with
  | Some idx =>
      match wait_queue s !! idx with
      | Some proc =>
          let '(m, v) := f proc (mem_of w (address_space proc)) in
          let s1 := s <| wait_queue := alter (set_rax v) idx (wait_queue s) |> in
          w <| umem := <[address_space proc := m]> (umem w) |> <| sched := wake s1 who |>
      | None => w <| sched := wake s who |>
      end
  | None => w <| sched := wake s who |>
  end.

Definition wake_reader (w : World) (waiter : PipeWaiter) (bytes : list Z) : World :=
  let n := Nat.min (length bytes) (count waiter) in
  deliver_and_wake w (w_pid waiter) (fun proc m =>
    let '(m', copied) := copy_to_user (address_space proc) m (user_buf waiter) (take n bytes) in
    (m', Z.of_nat copied)).

Definition collect_from_writer (w : World) (waiter : PipeWaiter) (size : nat) : World * list Z :=
  let want := Nat.min size (count waiter) in
  let s := sched w in
  match blocked_pos s (w_pid waiter) with
  | Some idx =>
      match wait_queue s !! idx with
      | Some proc =>
          let got := copy_from_user (address_space proc) (mem_of w (address_space proc))
                       (user_buf waiter) want in
          let s1 := s <| wait_queue := alter (set_rax (Z.of_nat (length got))) idx (wait_queue s) |> in
          (w <| sched := wake s1 (w_pid waiter) |>, got)
      | None => (w <| sched := wake s (w_pid waiter) |>, [])
      end
  | None => (w <| sched := wake s (w_pid waiter) |>, [])
  end.

Definition EPIPE : Z := -32.

Definition wake_writer_error (w : World) (waiter : PipeWaiter) (errno : Z) : World :=
  deliver_and_wake w (w_pid waiter) (fun _ m => (m, errno)).

(** [PipeReadEnd::read] into the [size] bytes at [buf] of the caller. *)
Definition pipe_read (p : PipeBuffer) (w : World) (buf : Z) (size : nat)
    : PipeBuffer * World * (nat + FileError) :=
  if (size =? 0)%nat then (p, w, inl 0%nat) else
  if (0 <? len p)%nat then
    let '(p1, bytes) := try_read p size in
    let w1 := set_active_mem w (write_bytes (active_mem w) buf bytes) in
    let p2 := p1 <| write_waiter := None |> in
    match write_waiter p1 with
    | Some wt =>
        let '(w2, got) := collect_from_writer w1 wt PIPE_CAPACITY in
        let p3 := if (0 <? length got)%nat then fst (try_write p2 got) else p2 in
        (p3, w2, inl (length bytes))
    | None => (p2, w1, inl (length bytes))
    end
  else if writers p =? 0 then (p, w, inl 0%nat)
  else
    let who := default 0 (current_pid (sched w)) in
    (p <| read_waiter := Some (mkWaiter who buf size) |>, w, inr WouldBlock).

(** [PipeWriteEnd::write] of the [size] bytes at [buf] of the caller. *)
Definition pipe_write (p : PipeBuffer) (w : World) (buf : Z) (size : nat)
    : PipeBuffer * World * (nat + FileError) :=
  if (size =? 0)%nat then (p, w, inl 0%nat) else
  if readers p =? 0 then (p, w, inr BrokenPipe) else
  let '(p1, n) := try_write p (read_bytes (active_mem w) buf size) in
  if (0 <? n)%nat then
    match read_waiter p1 with
    | Some wt =>
        let '(p2, tmp) := try_read (p1 <| read_waiter := None |>) PIPE_CAPACITY in
        (p2, wake_reader w wt tmp, inl n)
    | None => (p1, w, inl n)
    end
  else
    let who := default 0 (current_pid (sched w)) in
    (p1 <| write_waiter := Some (mkWaiter who buf size) |>, w, inr WouldBlock).

(** [dup] of an end, and its [Drop]. *)
Definition dup_read_end (p : PipeBuffer) : PipeBuffer := p <| readers := readers p + 1 |>.
Definition dup_write_end (p : PipeBuffer) : PipeBuffer := p <| writers := writers p + 1 |>.

Definition drop_read_end (p : PipeBuffer) (w : World) : may_panic (PipeBuffer * World) :=
  if readers p =? 0 then Panic else
  let p1 := p <| readers := readers p - 1 |> in
  if readers p1 =? 0 then
    let p2 := p1 <| write_waiter := None |> in
    match write_waiter p1 with
    | Some wt => Ok (p2, wake_writer_error w wt EPIPE)
    | None => Ok (p2, w)
    end
  else Ok (p1, w).

Definition drop_write_end (p : PipeBuffer) (w : World) : may_panic (PipeBuffer * World) :=
  if writers p =? 0 then Panic else
  let p1 := p <| writers := writers p - 1 |> in
  if writers p1 =? 0 then
    let p2 := p1 <| read_waiter := None |> in
    match read_waiter p1 with
    | Some wt => Ok (p2, wake_reader w wt [])
    | None => Ok (p2, w)
    end
  else Ok (p1, w).

End transfer.

(** ** Specification vocabulary *)

Record pipe_ok (p : PipeBuffer) : Prop := {
  data_len : length (data p) = PIPE_CAPACITY;
  head_lt : (head p < PIPE_CAPACITY)%nat;
  len_le : (len p <= PIPE_CAPACITY)%nat;
}.

(** The bytes in the pipe, oldest first. *)
Definition stored (p : PipeBuffer) : list Z := contents PIPE_CAPACITY (data p) (head p) (len p).

(** ** Lemmas *)

Lemma length_stored p : length (stored p) = len p.
Proof. apply length_contents. Qed.

Lemma try_read_spec p size :
  pipe_ok p ->
  let '(p', bytes) := try_read p size in
  pipe_ok p' /\ bytes = take size (stored p) /\ stored p' = drop size (stored p) /\
  readers p' = readers p /\ writers p' = writers p /\
  read_waiter p' = read_waiter p /\ write_waiter p' = write_waiter p.
Proof.
  intros [Hd Hh Hl]. unfold try_read. set (n := Nat.min size (len p)).
  assert (n <= len p)%nat as Hn by lia.
  split_and!; try done.
  - split; cbn; [done|by apply Nat.mod_upper_bound|lia].
  - change (_ <$> seq 0 n) with (contents PIPE_CAPACITY (data p) (head p) n).
    rewrite <- (take_contents _ _ _ (len p)) by done. unfold stored.
    destruct (Nat.le_ge_cases size (len p)).
    + unfold n. by rewrite Nat.min_l.
    + unfold n. rewrite Nat.min_r by done. rewrite !take_ge; rewrite ?length_contents; lia || done.
  - change (contents PIPE_CAPACITY (data p) ((head p + n) mod PIPE_CAPACITY) (len p - n) = drop size (stored p)).
    unfold stored. rewrite contents_advance by done.
    destruct (Nat.le_ge_cases size (len p)).
    + unfold n. by rewrite Nat.min_l.
    + unfold n. rewrite Nat.min_r by done. rewrite !drop_ge; rewrite ?length_contents; lia || done.
Qed.

Lemma write_loop_spec d h l i bytes :
  length d = PIPE_CAPACITY -> (l + i + length bytes <= PIPE_CAPACITY)%nat ->
  length (write_loop d ((h + l) mod PIPE_CAPACITY) i bytes) = PIPE_CAPACITY /\
  contents PIPE_CAPACITY (write_loop d ((h + l) mod PIPE_CAPACITY) i bytes) h (l + i + length bytes) =
    contents PIPE_CAPACITY d h (l + i) ++ bytes.
Proof.
  revert d i; induction bytes as [|b bytes IH]; intros d i Hd Hlen; cbn [write_loop length].
  - rewrite Nat.add_0_r, app_nil_r. done.
  - set (d' := <[_ := b]> d).
    assert (length d' = PIPE_CAPACITY) as Hd' by (unfold d'; by rewrite length_insert).
    destruct (IH d' (S i) Hd') as [H1 H2]; [cbn [length] in Hlen; lia|].
    split; [done|]. replace (l + i + S (length bytes))%nat with (l + S i + length bytes)%nat by lia.
    rewrite H2. replace (l + S i)%nat with (S (l + i)) by lia.
    assert (d' = <[slot PIPE_CAPACITY h (l + i) := b]> d) as ->.
    { unfold d', slot. by rewrite Nat.Div0.add_mod_idemp_l, <- Nat.add_assoc. }
    rewrite contents_push by (try done; cbn [length] in Hlen; lia). by rewrite <- app_assoc.
Qed.

Lemma try_write_spec p buf :
  pipe_ok p ->
  let '(p', n) := try_write p buf in
  pipe_ok p' /\ n = Nat.min (length buf) (PIPE_CAPACITY - len p) /\
  stored p' = stored p ++ take n buf /\
  readers p' = readers p /\ writers p' = writers p /\
  read_waiter p' = read_waiter p /\ write_waiter p' = write_waiter p.
Proof.
  intros [Hd Hh Hl]. unfold try_write. set (n := Nat.min (length buf) (PIPE_CAPACITY - len p)).
  assert (length (take n buf) = n) as Ht by (rewrite length_take; lia).
  destruct (write_loop_spec (data p) (head p) (len p) 0 (take n buf) Hd) as [H1 H2]; [lia|].
  rewrite Nat.add_0_r, Ht in H2.
  split_and!; try done. split; cbn; [done|done|lia].
Qed.

(** *** Copies across address spaces *)

Definition page_of (v : Z) : Z := v - Z.land v 4095.

Lemma page_off_bound v : 0 <= Z.land v 4095 < 4096.
Proof. change 4095 with (Z.ones 12). rewrite Z.land_ones by lia. apply Z.mod_pos_bound. lia. Qed.

Lemma page_of_same v i : 0 <= i < 4096 - Z.land v 4095 -> page_of (v + i) = page_of v.
Proof.
  intros Hi. unfold page_of. change 4095 with (Z.ones 12) in *. rewrite !Z.land_ones in * by lia.
  change (2 ^ 12) with 4096 in *. pose proof (Z.div_mod v 4096 ltac:(lia)). pose proof (Z.mod_pos_bound v 4096 ltac:(lia)).
  replace (v + i) with (v mod 4096 + i + (v / 4096) * 4096) by lia.
  rewrite Z.mod_add, (Z.mod_small (v mod 4096 + i)) by lia. lia.
Qed.

(** A copy runs through a mapped prefix of the buffer and stops at the first
    page without a frame. *)
Definition copied (mapped : Z -> Z -> bool) (space addr : Z) (size n : nat) : Prop :=
  (n <= size)%nat /\
  (forall i, (i < n)%nat -> mapped space (page_of (addr + Z.of_nat i)) = true) /\
  ((n < size)%nat -> mapped space (page_of (addr + Z.of_nat n)) = false).

Lemma chunk_mapped (mapped : Z -> Z -> bool) space addr done chunk (size : nat) :
  (forall i, (i < done)%nat -> mapped space (page_of (addr + Z.of_nat i)) = true) ->
  let v := addr + Z.of_nat done in
  mapped space (v - Z.land v 4095) = true ->
  (chunk <= Z.to_nat (4096 - Z.land v 4095))%nat ->
  forall i, (i < done + chunk)%nat -> mapped space (page_of (addr + Z.of_nat i)) = true.
Proof.
  intros Hd v Hm Hc i Hi. pose proof (page_off_bound v).
  destruct (Nat.lt_ge_cases i done) as [|Hge]; [auto|].
  replace (addr + Z.of_nat i) with (v + Z.of_nat (i - done)) by (unfold v; lia).
  by rewrite page_of_same by lia.
Qed.

Lemma copy_to_user_loop_spec mapped fuel space m0 addr src done :
  (done <= length src)%nat -> (length src - done < fuel)%nat ->
  (forall i, (i < done)%nat -> mapped space (page_of (addr + Z.of_nat i)) = true) ->
  let '(m', n) := copy_to_user_loop mapped fuel space (write_bytes m0 addr (take done src)) addr src done in
  m' = write_bytes m0 addr (take n src) /\ copied mapped space addr (length src) n.
Proof.
  revert done; induction fuel as [|fuel IH]; intros done Hd Hf Hm; [lia|]. cbn [copy_to_user_loop].
  destruct (Nat.leb_spec (length src) done).
  { split; [done|]. split_and!; [lia|done|lia]. }
  set (v := addr + Z.of_nat done). pose proof (page_off_bound v) as Hoff.
  destruct (mapped space (v - Z.land v 4095)) eqn:Hmap.
  - set (chunk := Nat.min _ _). assert (chunk <= length src - done)%nat by lia.
    assert (take (done + chunk) src = take done src ++ take chunk (drop done src)) as Ht
      by (symmetry; apply take_take_drop).
    assert (write_bytes (write_bytes m0 addr (take done src)) v (take chunk (drop done src)) =
      write_bytes m0 addr (take (done + chunk) src)) as ->.
    { rewrite Ht, write_bytes_app. f_equal. rewrite length_take, Nat.min_l by lia. done. }
    apply IH; [lia|lia|]. apply (chunk_mapped mapped space addr done chunk (length src) Hm Hmap). apply Nat.le_min_r.
  - split; [done|]. split_and!; [done|done|]. intros _. exact Hmap.
Qed.

Lemma copy_to_user_spec mapped space m addr src :
  let '(m', n) := copy_to_user mapped space m addr src in
  m' = write_bytes m addr (take n src) /\ copied mapped space addr (length src) n.
Proof.
  unfold copy_to_user. apply (copy_to_user_loop_spec mapped _ space m addr src 0); [lia|lia|lia].
Qed.

Lemma copy_from_user_loop_spec mapped fuel space m addr size done :
  (done <= size)%nat -> (size - done < fuel)%nat ->
  (forall i, (i < done)%nat -> mapped space (page_of (addr + Z.of_nat i)) = true) ->
  exists n, copy_from_user_loop mapped fuel space m addr size (read_bytes m addr done) = read_bytes m addr n /\
    copied mapped space addr size n.
Proof.
  revert done; induction fuel as [|fuel IH]; intros done Hd Hf Hm; [lia|].
  cbn [copy_from_user_loop]. rewrite length_read_bytes.
  destruct (Nat.leb_spec size done).
  { exists done. split; [done|]. split_and!; [lia|done|lia]. }
  set (v := addr + Z.of_nat done). pose proof (page_off_bound v) as Hoff.
  destruct (mapped space (v - Z.land v 4095)) eqn:Hmap.
  - set (chunk := Nat.min _ _). unfold v. rewrite <- read_bytes_app. apply IH; [lia|lia|].
    apply (chunk_mapped mapped space addr done chunk size Hm Hmap). apply Nat.le_min_r.
  - exists done. split; [done|]. split_and!; [done|done|]. intros _. exact Hmap.
Qed.

Lemma copy_from_user_spec mapped space m addr size :
  exists n, copy_from_user mapped space m addr size = read_bytes m addr n /\
    copied mapped space addr size n.
Proof.
  apply (copy_from_user_loop_spec mapped (S size) space m addr size 0); [lia|lia|lia].
Qed.

(** With every page there, the whole buffer is copied. *)
Lemma copied_all mapped space addr size n :
  copied mapped space addr size n ->
  (forall i, (i < size)%nat -> mapped space (page_of (addr + Z.of_nat i)) = true) -> n = size.
Proof.
  intros (Hle & _ & Hstop) Hall. destruct (Nat.lt_ge_cases n size) as [Hlt|]; [|lia].
  specialize (Hstop Hlt). rewrite Hall in Hstop by done. done.
Qed.

(** *** Delivery *)

Lemma set_rax_tracks v p : tracks p (set_rax v p).
Proof. by apply tracks_core. Qed.

Lemma alter_tracks g (l : list Process) i : (forall p, tracks p (g p)) -> Forall2 tracks l (alter g i l).
Proof.
  intros Hg. destruct (l !! i) as [p|] eqn:Hp.
  - rewrite (list_alter_as_insert _ _ _ p) by done. rewrite <- (list_insert_id l i p Hp) at 1.
    by apply Forall2_insert.
  - assert (alter g i l = l) as ->; [|done]. apply list_eq. intros j.
    destruct (decide (i = j)) as [->|]; [by rewrite list_lookup_alter_eq, Hp|by rewrite list_lookup_alter_ne].
Qed.

Lemma benign_set_rax s v i :
  sched_ok s -> benign s (s <| wait_queue := alter (set_rax v) i (wait_queue s) |>).
Proof. intros. apply benign_wait; [done|]. apply alter_tracks, set_rax_tracks. Qed.

Lemma deliver_and_wake_benign w who f :
  sched_ok (sched w) -> benign (sched w) (sched (deliver_and_wake w who f)) /\
  cpu (deliver_and_wake w who f) = cpu w.
Proof.
  intros Hok. unfold deliver_and_wake. destruct (blocked_pos _ _) as [idx|];
    [|split; [by apply benign_wake|done]].
  destruct (wait_queue (sched w) !! idx) as [p|]; [|split; [by apply benign_wake|done]].
  destruct (f p _) as [m v]. split; [|done]. cbn.
  pose proof (benign_set_rax (sched w) v idx Hok) as Hb.
  eapply benign_trans; [exact Hb|]. apply benign_wake, Hb.
Qed.

(** The process a delivery is meant for, when it is blocked. *)
Lemma deliver_and_wake_found w p f m v :
  sched_ok (sched w) -> p ∈ wait_queue (sched w) -> state p = Blocked ->
  f p (mem_of w (address_space p)) = (m, v) ->
  let w' := deliver_and_wake w (pid p) f in
  (set_rax v p) <| state := Ready |> ∈ concat (run_queues (sched w')) /\
  umem w' = <[address_space p := m]> (umem w).
Proof.
  intros Hok Hp Hst Hf. unfold deliver_and_wake, blocked_pos.
  destruct (position _ _) as [idx|] eqn:Hpos.
  - apply position_Some in Hpos as (q & Hq & Hsel & _). apply andb_prop in Hsel as [Hpid _].
    apply Z.eqb_eq in Hpid.
    assert (q = p) as ->.
    { apply (wait_pid_unique (sched w)); auto. apply list_elem_of_lookup_2 in Hq.
      unfold iter_all. rewrite !elem_of_app. auto. }
    rewrite Hq, Hf. cbn [sched umem update_field]. split; [|done].
    set (s1 := (sched w) <| wait_queue := alter (set_rax v) idx (wait_queue (sched w)) |>).
    assert (sched_ok s1) as Hok1 by apply (benign_set_rax (sched w) v idx Hok).
    assert (set_rax v p ∈ wait_queue s1) as Hin.
    { apply (list_elem_of_lookup_2 _ idx). cbn. by rewrite list_lookup_alter_eq, Hq. }
    exact (wake_where_finds s1 (set_rax v p) id Blocked Hok1 Hin Hst).
  - exfalso. rewrite position_None, Forall_forall in Hpos. specialize (Hpos p Hp).
    rewrite Z.eqb_refl, bool_decide_true in Hpos by done. done.
Qed.

(** What [collect_from_writer] takes from a blocked writer whose buffer is
    mapped, and what it leaves of the writer. *)
Lemma collect_from_writer_found mapped w p wt size :
  sched_ok (sched w) -> p ∈ wait_queue (sched w) -> state p = Blocked -> w_pid wt = pid p ->
  (forall i, (i < Nat.min size (count wt))%nat ->
     mapped (address_space p) (page_of (user_buf wt + Z.of_nat i)) = true) ->
  let got := read_bytes (mem_of w (address_space p)) (user_buf wt) (Nat.min size (count wt)) in
  exists w', collect_from_writer mapped w wt size = (w', got) /\ umem w' = umem w /\ cpu w' = cpu w /\
    (set_rax (Z.of_nat (length got)) p) <| state := Ready |> ∈ concat (run_queues (sched w')).
Proof.
  intros Hok Hp Hst Hpid Hmap. cbn zeta.
  set (m := mem_of w (address_space p)).
  assert (copy_from_user mapped (address_space p) m (user_buf wt) (Nat.min size (count wt)) =
    read_bytes m (user_buf wt) (Nat.min size (count wt))) as Hcopy.
  { destruct (copy_from_user_spec mapped (address_space p) m (user_buf wt) (Nat.min size (count wt)))
      as (n & Hn & Hc). rewrite Hn. by rewrite (copied_all _ _ _ _ _ Hc Hmap). }
  unfold collect_from_writer, blocked_pos. rewrite Hpid.
  destruct (position _ _) as [idx|] eqn:Hpos.
  - apply position_Some in Hpos as (q & Hq & Hsel & _). apply andb_prop in Hsel as [Hqp _].
    apply Z.eqb_eq in Hqp.
    assert (q = p) as ->.
    { apply (wait_pid_unique (sched w)); auto. apply list_elem_of_lookup_2 in Hq.
      unfold iter_all. rewrite !elem_of_app. auto. }
    rewrite Hq. fold m. rewrite Hcopy. eexists. do 3 (split; [done|]).
    cbn [sched update_field].
    set (v := Z.of_nat _).
    set (s1 := (sched w) <| wait_queue := alter (set_rax v) idx (wait_queue (sched w)) |>).
    assert (sched_ok s1) as Hok1 by apply (benign_set_rax (sched w) v idx Hok).
    assert (set_rax v p ∈ wait_queue s1) as Hin.
    { apply (list_elem_of_lookup_2 _ idx). cbn. by rewrite list_lookup_alter_eq, Hq. }
    exact (wake_where_finds s1 (set_rax v p) id Blocked Hok1 Hin Hst).
  - exfalso. rewrite position_None, Forall_forall in Hpos. specialize (Hpos p Hp).
    rewrite Z.eqb_refl, bool_decide_true in Hpos by done. done.
Qed.

(** *** The ring as a byte stream *)

(** A use of the ring: a read into a buffer of some size, or a write. *)
Inductive RingOp := RRead (size : nat) | RWrite (bytes : list Z).

(** Run a sequence of uses: the ring, the bytes accepted from writers and the
    bytes handed to readers, in order. *)
Fixpoint run_ring (p : PipeBuffer) (ops : list RingOp) : PipeBuffer * list Z * list Z :=
  match ops with
  | [] => (p, [], [])
  | RRead size :: rest =>
      let '(p1, bytes) := try_read p size in
      let '(p2, acc, out) := run_ring p1 rest in (p2, acc, bytes ++ out)
  | RWrite bytes :: rest =>
      let '(p1, n) := try_write p bytes in
      let '(p2, acc, out) := run_ring p1 rest in (p2, take n bytes ++ acc, out)
  end.

Lemma run_ring_spec p ops :
  pipe_ok p ->
  let '(p', acc, out) := run_ring p ops in
  pipe_ok p' /\ stored p ++ acc = out ++ stored p'.
Proof.
  revert p; induction ops as [|[size|bytes] ops IH]; intros p Hok; cbn [run_ring].
  - by rewrite app_nil_r.
  - pose proof (try_read_spec p size Hok) as Hr. destruct (try_read p size) as [p1 got].
    destruct Hr as (Hok1 & -> & Hst & _). specialize (IH p1 Hok1).
    destruct (run_ring p1 ops) as [[p2 acc] out]. destruct IH as [Hok2 Heq]. split; [done|].
    rewrite <- app_assoc, <- Heq, Hst, app_assoc, take_drop. done.
  - pose proof (try_write_spec p bytes Hok) as Hw. destruct (try_write p bytes) as [p1 n].
    destruct Hw as (Hok1 & _ & Hst & _). specialize (IH p1 Hok1).
    destruct (run_ring p1 ops) as [[p2 acc] out]. destruct IH as [Hok2 Heq]. split; [done|].
    by rewrite app_assoc, <- Hst.
Qed.

(** ** Properties *)

(** C9: the ring of a pipe is a byte stream.  From a fresh pipe, after any
    sequence of [try_read] and [try_write] calls, the bytes accepted from
    writers are exactly the bytes handed to readers followed by the bytes
    still stored, in order, and no more than [PIPE_CAPACITY] are stored. *)
Theorem pipe_is_stream ops :
  let '(p', accepted, handed_out) := run_ring pipe_new ops in
  accepted = handed_out ++ stored p' /\ (length (stored p') <= PIPE_CAPACITY)%nat.
Proof.
  assert (pipe_ok pipe_new) as Hok by (split; vm_compute; [done|lia|lia]).
  pose proof (run_ring_spec pipe_new ops Hok) as H.
  destruct (run_ring pipe_new ops) as [[p' acc] out]. destruct H as [Hok' Heq].
  split; [exact Heq|]. rewrite length_stored. apply Hok'.
Qed.

(** A write that finds a reader waiting on an empty pipe.  The write
    reports every byte it could put through the ring as written; the reader
    gets, in its own memory and in its return value, only as many as its read
    asked for, and the pipe is left empty: the rest of the write is in neither
    place. *)
Theorem pipe_write_to_waiting_reader mapped pb w buf size wt r :
  pipe_ok pb -> len pb = 0%nat -> (0 < size)%nat -> readers pb <> 0 ->
  read_waiter pb = Some wt -> w_pid wt = pid r ->
  sched_ok (sched w) -> r ∈ wait_queue (sched w) -> state r = Blocked ->
  (forall i, (i < count wt)%nat ->
     mapped (address_space r) (page_of (user_buf wt + Z.of_nat i)) = true) ->
  let n := Nat.min size PIPE_CAPACITY in
  let given := take (Nat.min n (count wt)) (read_bytes (active_mem w) buf size) in
  exists pb' w', pipe_write mapped pb w buf size = (pb', w', inl n) /\
    stored pb' = [] /\ read_waiter pb' = None /\
    umem w' = <[address_space r :=
                  write_bytes (mem_of w (address_space r)) (user_buf wt) given]> (umem w) /\
    (set_rax (Z.of_nat (Nat.min n (count wt))) r) <| state := Ready |>
      ∈ concat (run_queues (sched w')).
Proof.
  intros Hok Hlen Hsize Hr Hwt Hpid Hs Hin Hst Hmap n given. unfold pipe_write.
  rewrite (proj2 (Nat.eqb_neq _ _)), (proj2 (Z.eqb_neq _ _)) by lia || done.
  set (bytes := read_bytes (active_mem w) buf size).
  assert (length bytes = size) as Hbl by apply length_read_bytes.
  pose proof (try_write_spec pb bytes Hok) as Hw. destruct (try_write pb bytes) as [p1 n1].
  destruct Hw as (Hok1 & Hn1 & Hs1 & _ & _ & Hrw & _).
  rewrite Hlen, Nat.sub_0_r, Hbl in Hn1. fold n in Hn1. subst n1.
  assert (0 < n)%nat as Hn by (unfold n, PIPE_CAPACITY; lia).
  rewrite (proj2 (Nat.ltb_lt _ _) Hn), Hrw, Hwt.
  assert (stored pb = []) as Hnil by (apply nil_length_inv; by rewrite length_stored).
  rewrite Hnil in Hs1. cbn [app] in Hs1.
  set (p1' := p1 <| read_waiter := None |>).
  assert (pipe_ok p1') as Hok1' by (destruct Hok1; by split).
  pose proof (try_read_spec p1' PIPE_CAPACITY Hok1') as Hrd.
  destruct (try_read p1' PIPE_CAPACITY) as [p2 tmp].
  destruct Hrd as (_ & Htmp & Hs2 & _ & _ & Hrw2 & _).
  change (stored p1') with (stored p1) in *. rewrite Hs1 in Htmp, Hs2.
  assert (length (take n bytes) = n) as Htl by (rewrite length_take; lia).
  rewrite take_ge in Htmp by (rewrite Htl; apply Nat.le_min_r).
  rewrite drop_ge in Hs2 by (rewrite Htl; apply Nat.le_min_r).
  exists p2, (wake_reader mapped w wt tmp). split; [done|]. split; [done|]. split; [done|].
  assert (take (Nat.min (length tmp) (count wt)) tmp = given) as Hgiven.
  { subst tmp. rewrite Htl, take_take. unfold given. f_equal. lia. }
  unfold wake_reader. rewrite Hgiven, Hpid.
  assert (length given = Nat.min n (count wt)) as Hgl by (unfold given; rewrite length_take; fold bytes; lia).
  set (f := fun (proc : Process) (m : mem) => _).
  destruct (deliver_and_wake_found w r f
    (write_bytes (mem_of w (address_space r)) (user_buf wt) given) (Z.of_nat (length given)) Hs Hin Hst)
    as [H1 H2].
  - unfold f. pose proof (copy_to_user_spec mapped (address_space r) (mem_of w (address_space r))
      (user_buf wt) given) as Hc.
    destruct (copy_to_user mapped _ _ _ given) as [m' k]. destruct Hc as [-> Hc].
    assert (k = length given) as ->.
    { apply (copied_all _ _ _ _ _ Hc). intros i Hi. apply Hmap. lia. }
    by rewrite firstn_all.
  - split; [exact H2|]. rewrite <- Hgl. exact H1.
Qed.

(** Process 1 runs, process 2 waits. *)
Definition demo_waiting : World :=
  demo_world <| sched := demo_sched
    <| run_queues := run_queues (add_process (new <| next_pid := 4 |>) idle) |>
    <| wait_queue := [(user_process 2) <| state := Blocked |>] |> |>.

Lemma demo_waiting_ok : sched_ok (sched demo_waiting).
Proof. apply sched_okb_ok. vm_compute. reflexivity. Qed.

(** A reader that asked for 2 bytes, a write of 5: 5 reported, 2 delivered. *)
Lemma pipe_write_to_waiting_reader_witness :
  exists pb' w', pipe_write (fun _ _ => true) (pipe_new <| read_waiter := Some (mkWaiter 2 8192 2) |>)
      demo_waiting 4096 5 = (pb', w', inl 5%nat) /\ stored pb' = [].
Proof.
  destruct (pipe_write_to_waiting_reader (fun _ _ => true)
    (pipe_new <| read_waiter := Some (mkWaiter 2 8192 2) |>) demo_waiting 4096 5 (mkWaiter 2 8192 2)
    ((user_process 2) <| state := Blocked |>))
    as (pb' & w' & H1 & H2 & _).
  - split; vm_compute; [reflexivity|lia|lia].
  - reflexivity.
  - lia.
  - cbn. lia.
  - reflexivity.
  - reflexivity.
  - exact demo_waiting_ok.
  - apply list_elem_of_singleton. reflexivity.
  - reflexivity.
  - reflexivity.
  - exists pb', w'. split; [exact H1|exact H2].
Defined.

(** A read that frees space while a writer waits.  The reader gets the
    oldest bytes of the pipe, and the writer is woken with the number of bytes
    taken from its buffer (at most a full pipe) as its return value; of those
    only what fits behind the bytes still stored enters the pipe. *)
Theorem pipe_read_collects_writer mapped pb w buf size wt q :
  pipe_ok pb -> (0 < len pb)%nat -> (0 < size)%nat ->
  write_waiter pb = Some wt -> w_pid wt = pid q ->
  sched_ok (sched w) -> q ∈ wait_queue (sched w) -> state q = Blocked ->
  address_space q <> active_as (cpu w) ->
  (forall i, (i < count wt)%nat ->
     mapped (address_space q) (page_of (user_buf wt + Z.of_nat i)) = true) ->
  let taken := Nat.min PIPE_CAPACITY (count wt) in
  let left := drop size (stored pb) in
  exists pb' w', pipe_read mapped pb w buf size = (pb', w', inl (length (take size (stored pb)))) /\
    write_waiter pb' = None /\
    stored pb' = left ++ take (PIPE_CAPACITY - length left)
                           (read_bytes (mem_of w (address_space q)) (user_buf wt) taken) /\
    active_mem w' = write_bytes (active_mem w) buf (take size (stored pb)) /\
    (set_rax (Z.of_nat taken) q) <| state := Ready |> ∈ concat (run_queues (sched w')).
Proof.
  intros Hok Hlen Hsize Hwt Hpid Hs Hin Hst Hsp Hmap taken left. unfold pipe_read.
  rewrite (proj2 (Nat.eqb_neq _ _)), (proj2 (Nat.ltb_lt _ _)) by lia.
  pose proof (try_read_spec pb size Hok) as Hr. destruct (try_read pb size) as [p1 bytes].
  destruct Hr as (Hok1 & -> & Hs1 & _ & _ & _ & Hww). rewrite Hww, Hwt.
  set (w1 := set_active_mem w _). set (p2 := p1 <| write_waiter := None |>).
  assert (mem_of w1 (address_space q) = mem_of w (address_space q)) as Hmem.
  { unfold mem_of, w1, set_active_mem. cbn. by rewrite lookup_insert_ne. }
  destruct (collect_from_writer_found mapped w1 q wt PIPE_CAPACITY Hs Hin Hst Hpid) as (w2 & Hcol & Hum & Hcpu & Hrun).
  { intros i Hi. apply Hmap. lia. }
  rewrite Hmem in Hcol, Hrun. fold taken in Hcol, Hrun. rewrite Hcol.
  rewrite length_read_bytes in Hrun |- *.
  set (got := read_bytes _ (user_buf wt) taken) in *.
  assert (length got = taken) as Hgl by apply length_read_bytes.
  eexists _, w2. split; [done|].
  assert (active_mem w2 = write_bytes (active_mem w) buf (take size (stored pb))) as Hact.
  { unfold active_mem at 1. rewrite Hcpu, Hum. unfold w1, set_active_mem. cbn. by rewrite lookup_insert_eq. }
  assert (pipe_ok p2) as Hok2 by (destruct Hok1; by split).
  assert (stored p2 = left) as Hs2 by exact Hs1.
  destruct (Nat.ltb_spec 0 taken) as [Hpos|Hzero].
  - pose proof (try_write_spec p2 got Hok2) as Hw. destruct (try_write p2 got) as [p3 n3].
    destruct Hw as (_ & Hn3 & Hs3 & _ & _ & _ & Hww3). cbn [fst].
    split; [done|]. split; [|done]. rewrite Hs3, Hs2. f_equal.
    rewrite Hn3, <- (length_stored p2), Hs2.
    destruct (Nat.le_ge_cases (length got) (PIPE_CAPACITY - length left));
      [rewrite Nat.min_l, !take_ge by lia; done|by rewrite Nat.min_r].
  - split; [done|]. split; [|done]. rewrite Hs2.
    rewrite (nil_length_inv got), take_nil, app_nil_r by lia. done.
Qed.

(** A full pipe with a writer of 3 bytes waiting, a read of 1: the writer is
    told 3 and only one of its bytes is in the pipe. *)
Definition demo_full : PipeBuffer :=
  pipe_new <| len := PIPE_CAPACITY |> <| write_waiter := Some (mkWaiter 2 8192 3) |>.

Lemma pipe_read_collects_writer_witness :
  exists pb' w', pipe_read (fun _ _ => true) demo_full demo_waiting 4096 1 = (pb', w', inl 1%nat) /\
    length (stored pb') = PIPE_CAPACITY /\
    (set_rax 3 ((user_process 2) <| state := Blocked |>)) <| state := Ready |>
      ∈ concat (run_queues (sched w')).
Proof.
  destruct (pipe_read_collects_writer (fun _ _ => true) demo_full demo_waiting 4096 1 (mkWaiter 2 8192 3)
    ((user_process 2) <| state := Blocked |>))
    as (pb' & w' & H1 & _ & H3 & _ & H5).
  - split; vm_compute; [reflexivity|lia|lia].
  - vm_compute. lia.
  - lia.
  - reflexivity.
  - reflexivity.
  - exact demo_waiting_ok.
  - apply list_elem_of_singleton. reflexivity.
  - reflexivity.
  - vm_compute. discriminate.
  - reflexivity.
  - exists pb', w'. split; [|split].
    + rewrite H1. do 2 f_equal.
    + rewrite H3, length_app, length_take, length_drop, length_stored. vm_compute. reflexivity.
    + exact H5.
Defined.

(** Closing the last end wakes whoever waits on the other.  A reader
    blocked on the pipe becomes ready with return value 0 (end of file), a
    writer with [EPIPE]; its memory is untouched and every other process keeps
    its place in the scheduler ([benign]). *)
Theorem pipe_close_wakes mapped pb w wt r :
  sched_ok (sched w) -> r ∈ wait_queue (sched w) -> state r = Blocked -> w_pid wt = pid r ->
  (writers pb = 1 -> read_waiter pb = Some wt ->
   exists pb' w', drop_write_end mapped pb w = Ok (pb', w') /\
     writers pb' = 0 /\ read_waiter pb' = None /\ stored pb' = stored pb /\
     benign (sched w) (sched w') /\ mem_of w' (address_space r) = mem_of w (address_space r) /\
     (set_rax 0 r) <| state := Ready |> ∈ concat (run_queues (sched w'))) /\
  (readers pb = 1 -> write_waiter pb = Some wt ->
   exists pb' w', drop_read_end pb w = Ok (pb', w') /\
     readers pb' = 0 /\ write_waiter pb' = None /\ stored pb' = stored pb /\
     benign (sched w) (sched w') /\ mem_of w' (address_space r) = mem_of w (address_space r) /\
     (set_rax EPIPE r) <| state := Ready |> ∈ concat (run_queues (sched w'))).
Proof.
  intros Hs Hin Hst Hpid. split; intros H1 Hwt.
  - unfold drop_write_end. rewrite H1. cbn -[wake_reader]. rewrite Hwt.
    eexists _, _. split; [done|]. do 3 (split; [done|]).
    unfold wake_reader. rewrite Hpid. cbn [length Nat.min take].
    set (f := fun (proc : Process) (m : mem) => _).
    split; [by apply deliver_and_wake_benign|].
    destruct (deliver_and_wake_found w r f (mem_of w (address_space r)) 0 Hs Hin Hst) as [Ha Hb]; [done|].
    split; [|exact Ha]. unfold mem_of at 1. by rewrite Hb, lookup_insert_eq.
  - unfold drop_read_end. rewrite H1. cbn -[wake_writer_error]. rewrite Hwt.
    eexists _, _. split; [done|]. do 3 (split; [done|]).
    unfold wake_writer_error. rewrite Hpid.
    set (f := fun (proc : Process) (m : mem) => _).
    split; [by apply deliver_and_wake_benign|].
    destruct (deliver_and_wake_found w r f (mem_of w (address_space r)) EPIPE Hs Hin Hst) as [Ha Hb]; [done|].
    split; [|exact Ha]. unfold mem_of at 1. by rewrite Hb, lookup_insert_eq.
Qed.

Lemma pipe_close_wakes_witness :
  exists pb' w', drop_write_end (fun _ _ => true)
      (pipe_new <| read_waiter := Some (mkWaiter 2 8192 2) |>) demo_waiting = Ok (pb', w') /\
    (set_rax 0 ((user_process 2) <| state := Blocked |>)) <| state := Ready |>
      ∈ concat (run_queues (sched w')).
Proof.
  destruct (pipe_close_wakes (fun _ _ => true) (pipe_new <| read_waiter := Some (mkWaiter 2 8192 2) |>)
    demo_waiting (mkWaiter 2 8192 2) ((user_process 2) <| state := Blocked |>) demo_waiting_ok) as [H _].
  - apply list_elem_of_singleton. reflexivity.
  - reflexivity.
  - reflexivity.
  - destruct (H eq_refl eq_refl) as (pb' & w' & H1 & _ & _ & _ & _ & _ & H2).
    exists pb', w'. split; [exact H1|exact H2].
Defined.

End Pipe.
