(* ===== verification/Bytes.v ===== *)
(** Byte buffers indexed by [Z]: slices, overwriting, and the little-endian
    fields of on-disk records.  [get]/[put] are the checked accesses of the
    source (a slice out of range is a panic); [sub]/[over] are their total
    counterparts, in which the lemmas are stated. *)

From Stdlib Require Import ZArith Lia.
From stdpp Require Import base numbers gmap list.
From S2P Require Import Prelude Bits.

Local Open Scope Z_scope.

Module Bytes.

Abbreviation bytes := (list Z).

Definition size (l : bytes) : Z := Z.of_nat (length l).

(** [&l[a..a + n]] and [l[a..a + src.len()].copy_from_slice(src)]. *)
Definition sub (a n : Z) (l : bytes) : bytes := take (Z.to_nat n) (drop (Z.to_nat a) l).
Definition over (a : Z) (src l : bytes) : bytes := splice (Z.to_nat a) src l.

Definition in_range (a n : Z) (l : bytes) : bool := (0 <=? a) && (0 <=? n) && (a + n <=? size l).

Definition get {E} (a n : Z) (l : bytes) : outcome E bytes := if in_range a n l then Ok (sub a n l) else Panic.
Definition put {E} (a : Z) (src l : bytes) : outcome E bytes :=
  if in_range a (size src) l then Ok (over a src l) else Panic.

(** [uN::from_le_bytes(l[a..a + n].try_into().unwrap())]. *)
Definition field (a n : Z) (l : bytes) : Z := from_le (sub a n l).
Definition get_le {E} (a n : Z) (l : bytes) : outcome E Z := b ← get a n l; Ok (from_le b).
Definition put_le {E} (a : Z) (n : nat) (v : Z) (l : bytes) : outcome E bytes := put a (to_le n v) l.

(** [l[i]]. *)
Definition byte {E} (l : bytes) (i : Z) : outcome E Z := if i <? 0 then Panic else unwrap (l !! Z.to_nat i).

(** Arithmetic that panics on overflow. *)
Definition chk {E} (w z : Z) : outcome E Z := if in_widthb w z then Ok z else Panic.

(** ** Lemmas *)

Lemma size_nonneg l : 0 <= size l.
Proof. unfold size. lia. Qed.

Lemma in_range_spec a n l : in_range a n l = true <-> 0 <= a /\ 0 <= n /\ a + n <= size l.
Proof. unfold in_range. rewrite !andb_true_iff, !Z.leb_le. tauto. Qed.

Lemma get_ok {E} a n l : 0 <= a -> 0 <= n -> a + n <= size l -> @get E a n l = Ok (sub a n l).
Proof. intros. unfold get. by rewrite (proj2 (in_range_spec a n l)). Qed.

Lemma put_ok {E} a src l : 0 <= a -> a + size src <= size l -> @put E a src l = Ok (over a src l).
Proof. intros. unfold put. rewrite (proj2 (in_range_spec a (size src) l)); [done|]. pose proof (size_nonneg src). lia. Qed.

Lemma get_le_ok {E} a n l : 0 <= a -> 0 <= n -> a + n <= size l -> @get_le E a n l = Ok (field a n l).
Proof. intros. unfold get_le. by rewrite get_ok. Qed.

Lemma size_to_le n v : size (to_le n v) = Z.of_nat n.
Proof. unfold size. by rewrite length_to_le. Qed.

Lemma put_le_ok {E} a n v l : 0 <= a -> a + Z.of_nat n <= size l -> @put_le E a n v l = Ok (over a (to_le n v) l).
Proof. intros. unfold put_le. apply put_ok; [done|]. by rewrite size_to_le. Qed.

Lemma chk_ok {E} w z : 0 <= z < 2 ^ w -> @chk E w z = Ok z.
Proof.
  intros [H1 H2]. unfold chk, in_widthb. by rewrite (proj2 (Z.leb_le _ _) H1), (proj2 (Z.ltb_lt _ _) H2).
Qed.

Lemma size_sub a n l : 0 <= a -> 0 <= n -> a + n <= size l -> size (sub a n l) = n.
Proof. unfold size, sub. intros. rewrite length_take, length_drop. lia. Qed.

Lemma size_app l k : size (l ++ k) = size l + size k.
Proof. unfold size. rewrite length_app. lia. Qed.

Lemma size_over a src l : 0 <= a -> a + size src <= size l -> size (over a src l) = size l.
Proof. unfold size, over. intros. rewrite length_splice by lia. done. Qed.

Lemma size_replicate n v : 0 <= n -> size (replicate (Z.to_nat n) v) = n.
Proof. unfold size. intros. rewrite length_replicate. lia. Qed.

Lemma lookup_sub a n l (i : nat) : 0 <= a -> 0 <= n -> Z.of_nat i < n -> sub a n l !! i = l !! (Z.to_nat a + i)%nat.
Proof. intros. unfold sub. rewrite lookup_take_lt by lia. by rewrite lookup_drop. Qed.

Lemma lookup_sub_ge a n l (i : nat) : 0 <= n -> n <= Z.of_nat i -> sub a n l !! i = None.
Proof. intros. unfold sub. apply lookup_take_ge. lia. Qed.

Lemma lookup_over a src l (i : nat) : 0 <= a -> a + size src <= size l ->
  over a src l !! i = if decide (a <= Z.of_nat i < a + size src) then src !! (i - Z.to_nat a)%nat else l !! i.
Proof.
  unfold size, over, splice. intros Ha Hl.
  destruct (Nat.lt_ge_cases i (Z.to_nat a)) as [Hi|Hi].
  - rewrite decide_False by lia. rewrite lookup_app_l by (rewrite length_take; lia). apply lookup_take_lt. lia.
  - rewrite lookup_app_r by (rewrite length_take; lia).
    replace (length (take (Z.to_nat a) l)) with (Z.to_nat a) by (rewrite length_take; lia).
    destruct (Nat.lt_ge_cases (i - Z.to_nat a) (length src)) as [Hj|Hj].
    + rewrite decide_True by lia. by apply lookup_app_l.
    + rewrite decide_False by lia. rewrite lookup_app_r by lia. rewrite lookup_drop. f_equal. lia.
Qed.

(** Slices of an overwritten buffer: disjoint, equal, inside, around. *)
Lemma sub_over_ne a n b src l : 0 <= a -> 0 <= n -> 0 <= b -> b + size src <= size l ->
  a + n <= b \/ b + size src <= a -> sub a n (over b src l) = sub a n l.
Proof.
  intros Ha Hn Hb Hl Hd. apply list_eq. intros i. destruct (Z.lt_ge_cases (Z.of_nat i) n) as [Hi|Hi].
  - rewrite !lookup_sub, lookup_over by lia. by rewrite decide_False by lia.
  - by rewrite !lookup_sub_ge by lia.
Qed.

Lemma sub_over_eq a n src l : 0 <= a -> n = size src -> a + n <= size l -> sub a n (over a src l) = src.
Proof.
  intros Ha -> Hl. pose proof (size_nonneg src). apply list_eq. intros i.
  destruct (Z.lt_ge_cases (Z.of_nat i) (size src)) as [Hi|Hi].
  - rewrite lookup_sub, lookup_over by lia. rewrite decide_True by lia. f_equal. lia.
  - rewrite lookup_sub_ge by lia. symmetry. apply lookup_ge_None_2. unfold size in Hi. lia.
Qed.

Lemma sub_over_in a n b src l : 0 <= a -> 0 <= n -> a <= b -> b + size src <= a + n -> a + n <= size l ->
  sub a n (over b src l) = over (b - a) src (sub a n l).
Proof.
  intros Ha Hn Hb Hbn Hl. pose proof (size_nonneg src). apply list_eq. intros i.
  destruct (Z.lt_ge_cases (Z.of_nat i) n) as [Hi|Hi].
  - rewrite lookup_sub, !lookup_over by (rewrite ?size_sub; lia).
    destruct (decide (b - a <= Z.of_nat i < b - a + size src)).
    + rewrite decide_True by lia. f_equal. lia.
    + rewrite decide_False by lia. by rewrite lookup_sub by lia.
  - rewrite lookup_sub_ge by lia. symmetry. apply lookup_ge_None_2.
    assert (size (over (b - a) src (sub a n l)) = n) as Hs by (rewrite size_over, size_sub; rewrite ?size_sub; lia).
    unfold size in Hs at 1. lia.
Qed.

Lemma sub_sub a n b k l : 0 <= a -> 0 <= b -> 0 <= k -> b + k <= n -> sub b k (sub a n l) = sub (a + b) k l.
Proof.
  intros. apply list_eq. intros i. destruct (Z.lt_ge_cases (Z.of_nat i) k) as [Hi|Hi].
  - rewrite !lookup_sub by lia. f_equal. lia.
  - by rewrite !lookup_sub_ge by lia.
Qed.

Lemma sub_all n l : n = size l -> sub 0 n l = l.
Proof. unfold size, sub. intros ->. cbn. apply take_ge. lia. Qed.

Lemma over_all src l : size src = size l -> over 0 src l = src.
Proof. unfold size, over, splice. intros H. cbn. rewrite drop_ge by lia. by rewrite app_nil_r. Qed.

(** *** Fields *)

Lemma field_over_ne a n b src l : 0 <= a -> 0 <= n -> 0 <= b -> b + size src <= size l ->
  a + n <= b \/ b + size src <= a -> field a n (over b src l) = field a n l.
Proof. intros. unfold field. by rewrite sub_over_ne. Qed.

Lemma field_over_eq a n v l : 0 <= a -> 0 <= v < 256 ^ Z.of_nat n -> a + Z.of_nat n <= size l ->
  field a (Z.of_nat n) (over a (to_le n v) l) = v.
Proof. intros. unfold field. rewrite sub_over_eq by (rewrite ?size_to_le; done). by apply from_to_le. Qed.

Lemma field_sub a n b k l : 0 <= a -> 0 <= b -> 0 <= k -> b + k <= n -> field b k (sub a n l) = field (a + b) k l.
Proof. intros. unfold field. by rewrite sub_sub. Qed.

(** *** Bytes stay bytes *)

Lemma sub_bytes a n l : bytes_ok l -> bytes_ok (sub a n l).
Proof. intros. by apply Forall_take, Forall_drop. Qed.

Lemma over_bytes a src l : bytes_ok src -> bytes_ok l -> bytes_ok (over a src l).
Proof.
  intros. unfold over, splice. apply Forall_app; split; [by apply Forall_take|].
  apply Forall_app; split; [done|by apply Forall_drop].
Qed.

Lemma field_bound a n l : bytes_ok l -> 0 <= a -> 0 <= n -> a + n <= size l -> 0 <= field a n l < 256 ^ n.
Proof.
  intros Hb Ha Hn Hl. unfold field. pose proof (from_le_bound _ (sub_bytes a n l Hb)) as Hf.
  pose proof (size_sub a n l Ha Hn Hl) as Hs. unfold size in Hs. by rewrite Hs in Hf.
Qed.

Lemma zeros_bytes n : bytes_ok (replicate n 0).
Proof. apply Forall_replicate. lia. Qed.

Lemma field_zeros n a k : 0 <= a -> 0 <= k -> a + k <= n -> field a k (replicate (Z.to_nat n) 0) = 0.
Proof.
  intros. unfold field, sub. rewrite drop_replicate, take_replicate.
  generalize (Z.to_nat k `min` (Z.to_nat n - Z.to_nat a))%nat. intros j. induction j as [|j IH]; [done|].
  cbn [replicate from_le]. by rewrite IH.
Qed.

End Bytes.
