(* ===== verification/FsTypes.v ===== *)
(** Types shared by the file systems ([kernel/src/fs/types.rs],
    [kernel/src/process/file.rs]): error numbers, file types, [Stat], directory
    entries and the [linux_dirent64] records that [getdents64] packs
    ([kernel/src/fs/vfs.rs]), and the monad of operations on a file system.

    [getdents64_ok] describes one call exactly (what is written, where the
    listing stops), [parse_records] reads the records the way user space walks
    them, and [list_all_ok] shows that calling until 0 lists every entry
    once. *)

From Stdlib Require Import ZArith Lia.
From stdpp Require Import base numbers gmap list.
From S2P Require Import Prelude Bits Bytes.

Local Open Scope Z_scope.

Module FsTypes.
Import Bytes.

(** ** Errors *)

Definition Errno : Type := Z.
Definition EPERM : Errno := 1.
Definition ENOENT : Errno := 2.
Definition EIO : Errno := 5.
Definition EBADF : Errno := 9.
Definition EEXIST : Errno := 17.
Definition ENOTDIR : Errno := 20.
Definition EISDIR : Errno := 21.
Definition EINVAL : Errno := 22.
Definition EFBIG : Errno := 27.
Definition ENOSPC : Errno := 28.
Definition EROFS : Errno := 30.
Definition ENOSYS : Errno := 38.
Definition ENOTEMPTY : Errno := 39.
Definition ELOOP : Errno := 40.

(** [Errno::as_i64]. *)
Definition errno_i64 (e : Errno) : Z := - e.

(** [process/file.rs]. *)
Inductive FileError :=
| BadFileDescriptor | InvalidArgument | IOError | NotSupported | EndOfFile | BrokenPipe | NoSpaceLeft | WouldBlock.

#[global] Instance FileError_eq_dec : EqDecision FileError.
Proof. solve_decision. Defined.

(** [as i64]. *)
Definition as_i64 (z : Z) : Z := if z <? 2 ^ 63 then z else z - 2 ^ 64.

(** The arithmetic of [lseek] on 64-bit signed positions. *)
Definition compute_seek (current size offset whence : Z) : Z + FileError :=
  let base := if whence =? 0 then Some 0 else if whence =? 1 then Some current else if whence =? 2 then Some size else None in
  match base with
  | None => inr InvalidArgument
  | Some b =>
      let new_pos := b + offset in
      if (new_pos <? - 2 ^ 63) || (2 ^ 63 <=? new_pos) then inr InvalidArgument
      else if new_pos <? 0 then inr InvalidArgument else inl new_pos
  end.

(** ** File types and open flags *)

Inductive FileType := Regular | Directory | CharDevice | BlockDev | Symlink.

#[global] Instance FileType_eq_dec : EqDecision FileType.
Proof. solve_decision. Defined.

Definition as_dt_type (k : FileType) : Z :=
  match k with Regular => 8 | Directory => 4 | CharDevice => 2 | BlockDev => 6 | Symlink => 10 end.

(** [0o100000], [0o040000], [0o020000], [0o060000], [0o120000]. *)
Definition as_mode_bits (k : FileType) : Z :=
  match k with Regular => 32768 | Directory => 16384 | CharDevice => 8192 | BlockDev => 24576 | Symlink => 40960 end.

(** [Inode::file_type] of a mode ([mode & 0o170000]). *)
Definition type_of_mode (mode : Z) : FileType :=
  let t := Z.land mode 61440 in
  if t =? 16384 then Directory else if t =? 8192 then CharDevice else if t =? 24576 then BlockDev
  else if t =? 40960 then Symlink else Regular.

Definition WRONLY : Z := 1.
Definition CREAT : Z := 64.
Definition TRUNC : Z := 512.
Definition APPEND : Z := 1024.
Definition is_write (flags : Z) : bool := negb (Z.land flags 3 =? 0).

(** ** [Stat] *)

Record Stat := mkStat {
  st_dev : Z; st_ino : Z; st_nlink : Z; st_mode : Z; st_uid : Z; st_gid : Z; st_rdev : Z;
  st_size : Z; st_blksize : Z; st_blocks : Z;
  st_atime : Z; st_atime_nsec : Z; st_mtime : Z; st_mtime_nsec : Z; st_ctime : Z; st_ctime_nsec : Z;
}.
#[global] Instance Stat_fields : Fields Stat := fun r =>
  mkStat (st_dev r) (st_ino r) (st_nlink r) (st_mode r) (st_uid r) (st_gid r) (st_rdev r) (st_size r) (st_blksize r)
    (st_blocks r) (st_atime r) (st_atime_nsec r) (st_mtime r) (st_mtime_nsec r) (st_ctime r) (st_ctime_nsec r).

Definition stat_base (ino mode nlink size blocks : Z) : Stat :=
  mkStat 1 ino nlink mode 0 0 0 size 4096 blocks 0 0 0 0 0 0.

(** [0o7777]. *)
Definition with_perm_bits (s : Stat) (bits : Z) : Stat :=
  s <| st_mode := Z.lor (Z.ldiff (st_mode s) 4095) (Z.land bits 4095) |>.
Definition with_nlink (s : Stat) (nlink : Z) : Stat := s <| st_nlink := nlink |>.

(** [0o755], [0o444], [0o644], [0o555], [0o777], [0o666]. *)
Definition stat_dir (ino : Z) : Stat := stat_base ino (Z.lor (as_mode_bits Directory) 493) 2 0 0.
(** [(size + 511) / 512] on [i64]. *)
Definition stat_regular (ino size : Z) : may_panic Stat :=
  if 2 ^ 63 <=? size + 511 then Panic
  else Ok (stat_base ino (Z.lor (as_mode_bits Regular) 292) 1 size (Z.quot (size + 511) 512)).
Definition stat_regular_writable (ino size : Z) : may_panic Stat :=
  s ← stat_regular ino size; Ok (s <| st_mode := Z.lor (as_mode_bits Regular) 420 |>).
Definition stat_executable (ino size : Z) : may_panic Stat :=
  s ← stat_regular ino size; Ok (s <| st_mode := Z.lor (as_mode_bits Regular) 365 |>).
Definition stat_symlink (ino target_len : Z) : Stat := stat_base ino (Z.lor (as_mode_bits Symlink) 511) 1 target_len 0.
Definition stat_chardev (ino : Z) : Stat := stat_base ino (Z.lor (as_mode_bits CharDevice) 438) 1 0 0.

(** ** Directory entries *)

Record DirEntry := mkDirEntry { de_ino : Z; de_kind : FileType; de_name : bytes; de_name_len : Z }.

(** [DirEntry::new]: a 256-byte name buffer, the name cut to 255 bytes. *)
Definition new_entry (ino : Z) (kind : FileType) (name : bytes) : DirEntry :=
  let len := Z.min (size name) 255 in
  mkDirEntry ino kind (over 0 (sub 0 len name) (replicate 256 0)) len.

(** [(raw + 7) & !7]. *)
Definition dirent64_size (e : DirEntry) : Z := align_down 3 (19 + de_name_len e + 1 + 7).

Definition write_dirent64 (e : DirEntry) (next_off : Z) (buf : bytes) : may_panic bytes :=
  let reclen := dirent64_size e mod 2 ^ 16 in
  buf ← put_le 0 8 (de_ino e) buf;
  buf ← put_le 8 8 (next_off mod 2 ^ 64) buf;
  buf ← put_le 16 2 reclen buf;
  buf ← put 18 [as_dt_type (de_kind e)] buf;
  name ← get 0 (de_name_len e) (de_name e);
  buf ← put 19 name buf;
  buf ← put (19 + de_name_len e) [0] buf;
  pad ← get (20 + de_name_len e) (reclen - (20 + de_name_len e)) buf;
  put (20 + de_name_len e) (replicate (length pad) 0) buf.

(** [getdents64_from_snapshot]: the buffer, the offset and the result. *)
Fixpoint snapshot_loop (rest : list DirEntry) (offset written : Z) (buf : bytes) : may_panic (bytes * Z * Z) :=
  match rest with
  | [] => Ok (buf, offset, written)
  | e :: rest' =>
      let needed := dirent64_size e in
      if size buf <? written + needed then Ok (buf, offset, written) else
      part ← get written needed buf;
      part ← write_dirent64 e (offset + 1) part;
      buf ← put written part buf;
      snapshot_loop rest' (offset + 1) (written + needed) buf
  end.
Definition getdents64_from_snapshot (entries : list DirEntry) (offset : Z) (buf : bytes) : may_panic (bytes * Z * Z) :=
  snapshot_loop (drop (Z.to_nat offset) entries) offset 0 buf.

(** ** Operations on a file system *)

(** An operation keeps its effects when it fails. *)
Definition Fs (D A : Type) : Type := D -> may_panic (D * (A + Errno)).

#[global] Instance fs_ret {D} : MRet (Fs D) := fun A a d => Ok (d, inl a).
#[global] Instance fs_bind {D} : MBind (Fs D) := fun A B f m d =>
  match m d with
  | Ok (d1, inl a) => f a d1
  | Ok (d1, inr e) => Ok (d1, inr e)
  | Err e => match e with end
  | Panic => Panic
  end.

Definition err {D A} (e : Errno) : Fs D A := fun d => Ok (d, inr e).
Definition pure {D A} (o : may_panic A) : Fs D A := fun d => a ← o; Ok (d, inl a).
Definition ok_or {D A} (e : Errno) (o : option A) : Fs D A := match o with Some a => mret a | None => err e end.
(** The result as a value, for [if let Err(e) = ...] and [let _ = ...]. *)
Definition attempt {D A} (m : Fs D A) : Fs D (A + Errno) := fun d =>
  match m d with Ok (d1, r) => Ok (d1, inl r) | Err e => match e with end | Panic => Panic end.
Definition rethrow {D A} (r : A + Errno) : Fs D A := match r with inl a => mret a | inr e => err e end.

(** [getdents64_via_readdir]: every record takes at least 24 bytes, so
    [length buf + 1] rounds are enough ([via_readdir_eq]); the result is
    [None] if they were not. *)
Fixpoint readdir_loop {D} (readdir : Z -> Fs D (option DirEntry)) (fuel : nat) (offset written : Z) (buf : bytes)
    : Fs D (option (bytes * Z * Z)) :=
  match fuel with
  | O => mret None
  | S fuel =>
      r ← attempt (readdir offset);
      match r with
      | inr e => mret (Some (buf, offset, errno_i64 e))
      | inl None => mret (Some (buf, offset, written))
      | inl (Some e) =>
          let needed := dirent64_size e in
          if size buf <? written + needed then mret (Some (buf, offset, written)) else
          part ← pure (get written needed buf);
          part ← pure (write_dirent64 e (offset + 1) part);
          buf ← pure (put written part buf);
          readdir_loop readdir fuel (offset + 1) (written + needed) buf
      end
  end.
Definition getdents64_via_readdir {D} (readdir : Z -> Fs D (option DirEntry)) (offset : Z) (buf : bytes)
    : Fs D (option (bytes * Z * Z)) :=
  readdir_loop readdir (S (length buf)) offset 0 buf.

(** ** Running operations *)

Section run.
Context {D A B : Type}.

Lemma fs_run (m : Fs D A) (f : A -> Fs D B) d d1 a : m d = Ok (d1, inl a) -> (m ≫= f) d = f a d1.
Proof. unfold mbind, fs_bind. by intros ->. Qed.

Lemma fs_bind_err (m : Fs D A) (f : A -> Fs D B) d d1 e : m d = Ok (d1, inr e) -> (m ≫= f) d = Ok (d1, inr e).
Proof. unfold mbind, fs_bind. by intros ->. Qed.

Lemma fs_bind_inl (m : Fs D A) (f : A -> Fs D B) d d2 b :
  (m ≫= f) d = Ok (d2, inl b) -> exists d1 a, m d = Ok (d1, inl a) /\ f a d1 = Ok (d2, inl b).
Proof. unfold mbind, fs_bind. destruct (m d) as [[d1 [a|e]]|[]|]; [|done..]. by exists d1, a. Qed.

Lemma fs_bind_inv (m : Fs D A) (f : A -> Fs D B) d d2 (r : B + Errno) :
  (m ≫= f) d = Ok (d2, r) ->
  (exists d1 a, m d = Ok (d1, inl a) /\ f a d1 = Ok (d2, r)) \/ (exists e, m d = Ok (d2, inr e) /\ r = inr e).
Proof.
  unfold mbind, fs_bind. destruct (m d) as [[d1 [a|e]]|[]|]; [|intros [= -> <-]; right; by exists e|done].
  intros. left. by exists d1, a.
Qed.

Lemma attempt_ok (m : Fs D A) d d1 r : m d = Ok (d1, r) -> attempt m d = Ok (d1, inl r).
Proof. unfold attempt. by intros ->. Qed.

Lemma attempt_inv (m : Fs D A) d d1 r : attempt m d = Ok (d1, inl r) -> m d = Ok (d1, r).
Proof. unfold attempt. destruct (m d) as [[]|[]|]; by intros [= -> ->]. Qed.
Lemma attempt_no_err (m : Fs D A) d d1 e : ~ attempt m d = Ok (d1, inr e).
Proof. unfold attempt. by destruct (m d) as [[]|[]|]. Qed.
End run.

(** ** What one record is *)

(** [struct linux_dirent64] as the entry is packed. *)
Definition record_bytes (e : DirEntry) (next_off : Z) : bytes :=
  to_le 8 (de_ino e) ++ to_le 8 next_off ++ to_le 2 (dirent64_size e) ++ [as_dt_type (de_kind e)] ++
  sub 0 (de_name_len e) (de_name e) ++ replicate (Z.to_nat (dirent64_size e - 19 - de_name_len e)) 0.

Definition name_ok (name : bytes) : Prop := size name <= 255 /\ Forall (fun b => 0 < b < 256) name.

Definition entry_ok (e : DirEntry) : Prop :=
  0 <= de_ino e < 2 ^ 64 /\ size (de_name e) = 256 /\ 0 <= de_name_len e <= 255 /\
  Forall (fun b => 0 < b < 256) (sub 0 (de_name_len e) (de_name e)).

Definition entry_name (e : DirEntry) : bytes := sub 0 (de_name_len e) (de_name e).

Lemma new_entry_ok ino kind name : 0 <= ino < 2 ^ 64 -> name_ok name ->
  entry_ok (new_entry ino kind name) /\ entry_name (new_entry ino kind name) = name.
Proof.
  intros Hi [Hl Hb]. unfold new_entry, entry_ok, entry_name. pose proof (size_nonneg name). cbn [de_ino de_name de_name_len].
  rewrite Z.min_l by done. rewrite (sub_all (size name) name) by done.
  assert (size (replicate 256 0) = 256) as Hr by done.
  assert (sub 0 (size name) (over 0 name (replicate 256 0)) = name) as Hs by (apply sub_over_eq; lia).
  rewrite Hs, size_over by lia. done.
Qed.

Lemma dirent64_size_bounds e : 0 <= de_name_len e <= 255 ->
  20 + de_name_len e <= dirent64_size e <= 27 + de_name_len e /\ 24 <= dirent64_size e <= 280 /\ dirent64_size e mod 8 = 0.
Proof.
  intros H. unfold dirent64_size. pose proof (align_down_bounds 3 (19 + de_name_len e + 1 + 7) ltac:(lia)).
  pose proof (align_down_mod 3 (19 + de_name_len e + 1 + 7) ltac:(lia)).
  change (2 ^ 3) with 8 in *. set (z := align_down 3 _) in *.
  pose proof (Z.div_mod z 8 ltac:(lia)). split_and!; lia.
Qed.

Lemma size_one (x : Z) : size [x] = 1.
Proof. done. Qed.

Lemma size_replicate_nat n v : size (replicate n v) = Z.of_nat n.
Proof. unfold size. by rewrite length_replicate. Qed.

Lemma size_entry_name e : entry_ok e -> size (entry_name e) = de_name_len e.
Proof. intros (_ & Hs & Hl & _). unfold entry_name. apply size_sub; lia. Qed.

Lemma size_record e next : entry_ok e -> size (record_bytes e next) = dirent64_size e.
Proof.
  intros He. pose proof (size_entry_name e He) as Hn. destruct He as (_ & Hs & Hl & _).
  destruct (dirent64_size_bounds e Hl) as [Hb _].
  unfold record_bytes. rewrite !size_app, !size_to_le. fold (entry_name e). rewrite Hn, size_replicate_nat.
  change (size [as_dt_type (de_kind e)]) with 1. lia.
Qed.

(** Writing at the end of what has been written. *)
Lemma put_at {E} a pre src rest : a = size pre -> size src <= size rest ->
  @put E a src (pre ++ rest) = Ok ((pre ++ src) ++ drop (length src) rest).
Proof.
  intros -> Hs. pose proof (size_nonneg pre). rewrite put_ok by (rewrite ?size_app; lia). f_equal. unfold over, splice, size.
  rewrite Nat2Z.id, take_app_length, <- app_assoc. do 2 f_equal.
  rewrite <- drop_drop, drop_app_length. done.
Qed.

Lemma size_drop (n : nat) l : size (drop n l) = Z.max 0 (size l - Z.of_nat n).
Proof. unfold size. rewrite length_drop. lia. Qed.

Lemma write_dirent64_ok e next buf : entry_ok e -> 0 <= next < 2 ^ 63 -> size buf = dirent64_size e ->
  write_dirent64 e next buf = Ok (record_bytes e next).
Proof.
  intros He Hnext Hbuf. pose proof (size_entry_name e He) as Hn. destruct He as (_ & Hs & Hl & _).
  destruct (dirent64_size_bounds e Hl) as (Hb & Hb' & _).
  unfold write_dirent64, put_le. rewrite (Z.mod_small (dirent64_size e)), (Z.mod_small next) by lia.
  change buf with ([] ++ buf) at 1. rewrite put_at; [|done|rewrite size_to_le; lia]. cbn [app].
  do 3 (cbn [mbind outcome_bind]; rewrite put_at; [|rewrite ?size_app, ?size_to_le; done|rewrite ?size_to_le, ?size_one, ?size_drop, ?length_to_le; lia]).
  cbn [mbind outcome_bind]. rewrite get_ok by lia. fold (entry_name e).
  cbn [mbind outcome_bind]. rewrite put_at; [|rewrite !size_app, !size_to_le; done|
    rewrite Hn, !size_drop, ?length_to_le; cbn [length]; lia].
  cbn [mbind outcome_bind]. rewrite put_at; [|rewrite !size_app, !size_to_le, Hn, size_one; lia|
    rewrite size_one, !size_drop, ?length_to_le; unfold size in Hn; cbn [length]; lia].
  cbn [mbind outcome_bind].
  assert (size (entry_name e) = Z.of_nat (length (entry_name e))) as Hnl by done.
  set (R := drop (length [0]) _).
  assert (size R = dirent64_size e - (20 + de_name_len e)) as HR.
  { unfold R. rewrite !size_drop, ?length_to_le. cbn [length]. lia. }
  rewrite get_ok by (rewrite ?size_app, ?size_to_le, ?Hn, ?HR, ?size_one; lia).
  cbn [mbind outcome_bind].
  assert (forall n, length (sub (20 + de_name_len e) (dirent64_size e - (20 + de_name_len e)) n) = Z.to_nat (dirent64_size e - (20 + de_name_len e)) \/
    size n < dirent64_size e) as Hpad.
  { intros n. destruct (Z.lt_ge_cases (size n) (dirent64_size e)); [by right|left].
    pose proof (size_sub (20 + de_name_len e) (dirent64_size e - (20 + de_name_len e)) n) as Hz. unfold size in Hz at 2. lia. }
  match goal with |- context [length (sub _ _ ?b)] => destruct (Hpad b) as [->|Hlt] end.
  2: { rewrite !size_app, !size_to_le, Hn, HR, !size_one in Hlt. lia. }
  rewrite put_at; [|rewrite !size_app, !size_to_le, Hn, !size_one; lia|rewrite size_replicate_nat; lia].
  f_equal. rewrite length_replicate, drop_ge, app_nil_r by (unfold size in HR; lia).
  unfold record_bytes. fold (entry_name e). rewrite <- !app_assoc. do 5 f_equal.
  replace (Z.to_nat (dirent64_size e - 19 - de_name_len e)) with (S (Z.to_nat (dirent64_size e - (20 + de_name_len e)))) by lia.
  done.
Qed.

(** ** One call *)

(** The records of consecutive entries, the first at position [off]. *)
Fixpoint records (es : list DirEntry) (off : Z) : bytes :=
  match es with
  | [] => []
  | e :: es' => record_bytes e (off + 1) ++ records es' (off + 1)
  end.

Lemma sub_app_r a n pre rest : a = size pre -> sub a n (pre ++ rest) = take (Z.to_nat n) rest.
Proof. intros ->. unfold sub, size. by rewrite Nat2Z.id, drop_app_length. Qed.

Lemma snapshot_loop_ok es off pre rest :
  Forall entry_ok es -> 0 <= off -> off + Z.of_nat (length es) < 2 ^ 63 ->
  exists k : nat, (k <= length es)%nat /\
    snapshot_loop es off (size pre) (pre ++ rest) =
      Ok (pre ++ records (take k es) off ++ drop (length (records (take k es) off)) rest, off + Z.of_nat k,
          size pre + size (records (take k es) off)) /\
    size (records (take k es) off) <= size rest /\
    (k = length es \/ exists e, es !! k = Some e /\ size rest < size (records (take k es) off) + dirent64_size e).
Proof.
  intros Hes. revert off pre rest. induction Hes as [|e es He Hes IH]; intros off pre rest Hoff Hlen.
  { exists 0%nat. cbn [take records snapshot_loop app length drop]. change (size []) with 0. rewrite !Z.add_0_r.
    pose proof (size_nonneg rest). split_and!; auto with lia. }
  pose proof He as (_ & _ & Hl & _). destruct (dirent64_size_bounds e Hl) as (_ & Hb & _).
  cbn [snapshot_loop length] in *. rewrite size_app. case_bools.
  { exists 0%nat. cbn [take records app length drop]. change (size []) with 0. rewrite !Z.add_0_r.
    pose proof (size_nonneg rest). split_and!; try done; try lia. right. exists e. split; [done|lia]. }
  rewrite get_ok by (rewrite ?size_app; pose proof (size_nonneg pre); lia). cbn [mbind outcome_bind].
  rewrite write_dirent64_ok by (try done; try lia; rewrite size_sub; rewrite ?size_app; pose proof (size_nonneg pre); lia).
  cbn [mbind outcome_bind].
  rewrite put_at by (rewrite ?size_record by done; auto with lia). cbn [mbind outcome_bind].
  pose proof (size_record e (off + 1) He) as Hr. set (r := record_bytes e (off + 1)) in *.
  replace (size pre + dirent64_size e) with (size (pre ++ r)) by (rewrite size_app; lia).
  destruct (IH (off + 1) (pre ++ r) (drop (length r) rest)) as (k & Hk & Heq & Hsz & Hend); [lia..|].
  exists (S k). cbn [take records]. fold r. rewrite Heq, size_drop in *.
  assert (Z.of_nat (length r) = size r) as Hlr by done. split_and!.
  - lia.
  - rewrite length_app, <- drop_drop, !size_app, <- !app_assoc. do 2 f_equal; [f_equal; lia|lia].
  - rewrite size_app. lia.
  - destruct Hend as [->|(e' & He' & Hlt)]; [by left|right]. exists e'. split; [done|]. rewrite size_app. lia.
Qed.

(** What one call of [getdents64] does: it packs a run of entries from the
    offset on into the front of the buffer, leaves the rest of the buffer,
    moves the offset past them, and stops only at the end of the listing or in
    front of an entry that does not fit. *)
Lemma getdents64_ok entries offset buf :
  Forall entry_ok entries -> 0 <= offset -> Z.of_nat (length entries) < 2 ^ 62 -> offset < 2 ^ 62 ->
  exists k : nat, let rest := drop (Z.to_nat offset) entries in
    (k <= length rest)%nat /\
    getdents64_from_snapshot entries offset buf =
      Ok (records (take k rest) offset ++ drop (length (records (take k rest) offset)) buf, offset + Z.of_nat k,
          size (records (take k rest) offset)) /\
    size (records (take k rest) offset) <= size buf /\
    (k = length rest \/ exists e, rest !! k = Some e /\ size buf < size (records (take k rest) offset) + dirent64_size e).
Proof.
  intros Hes Hoff Hlen Hoff2. destruct (snapshot_loop_ok (drop (Z.to_nat offset) entries) offset [] buf) as (k & Hk & Heq & H);
    [by apply Forall_drop|done|rewrite length_drop; lia|].
  exists k. split; [done|]. split; [|done]. unfold getdents64_from_snapshot. by apply Heq.
Qed.

(** ** Reading the records *)

Record Dirent64 := mkDirent64 { d_ino : Z; d_off : Z; d_type : Z; d_name : bytes }.

(** A C string: up to the first NUL. *)
Fixpoint c_str (l : bytes) : bytes :=
  match l with [] => [] | b :: l' => if b =? 0 then [] else b :: c_str l' end.

(** User space walks the buffer by [d_reclen]. *)
Fixpoint parse_records (fuel : nat) (l : bytes) : list Dirent64 :=
  match fuel, l with
  | O, _ | _, [] => []
  | S fuel, _ =>
      let reclen := field 16 2 l in
      mkDirent64 (field 0 8 l) (field 8 8 l) (field 18 1 l) (c_str (sub 19 (reclen - 19) l))
        :: parse_records fuel (drop (Z.to_nat reclen) l)
  end.

Definition dirent_of (e : DirEntry) (next_off : Z) : Dirent64 :=
  mkDirent64 (de_ino e) next_off (as_dt_type (de_kind e)) (entry_name e).

Fixpoint dirents_of (es : list DirEntry) (off : Z) : list Dirent64 :=
  match es with [] => [] | e :: es' => dirent_of e (off + 1) :: dirents_of es' (off + 1) end.

Lemma c_str_app name (n : nat) rest : Forall (fun b => 0 < b < 256) name -> (0 < n)%nat ->
  c_str (name ++ replicate n 0 ++ rest) = name.
Proof.
  intros Hn Hpos. induction Hn as [|b name Hb _ IH]; cbn.
  - destruct n; [lia|]. done.
  - case_bools; [lia|]. by rewrite IH.
Qed.

Lemma field_at a n v pre rest : a = size pre -> 0 <= v < 256 ^ Z.of_nat n ->
  field a (Z.of_nat n) (pre ++ to_le n v ++ rest) = v.
Proof.
  intros Ha Hv. unfold field. rewrite sub_app_r by done.
  rewrite Nat2Z.id, take_app_le by (rewrite length_to_le; lia). rewrite take_ge by (rewrite length_to_le; lia). by apply from_to_le.
Qed.

Lemma parse_record e next rest fuel : entry_ok e -> 0 <= next < 2 ^ 64 ->
  parse_records (S fuel) (record_bytes e next ++ rest) = dirent_of e next :: parse_records fuel rest.
Proof.
  intros He Hnext. pose proof (size_record e next He) as Hsz. pose proof (size_entry_name e He) as Hn.
  destruct He as (Hi & Hs & Hl & Hb). destruct (dirent64_size_bounds e Hl) as (Hb1 & Hb2 & _).
  set (l := record_bytes e next ++ rest).
  assert (l = to_le 8 (de_ino e) ++ to_le 8 next ++ to_le 2 (dirent64_size e) ++ to_le 1 (as_dt_type (de_kind e)) ++
    (entry_name e ++ replicate (Z.to_nat (dirent64_size e - 19 - de_name_len e)) 0) ++ rest) as Hl'.
  { unfold l, record_bytes. fold (entry_name e). rewrite <- !app_assoc. do 3 f_equal. by destruct (de_kind e). }
  assert (field 16 2 l = dirent64_size e) as Hrec.
  { rewrite Hl', app_assoc. apply (field_at 16 2); [by rewrite size_app, !size_to_le|lia]. }
  cbn [parse_records]. destruct l as [|b l0] eqn:E; [by apply (f_equal size) in Hl'; rewrite !size_app, size_to_le in Hl';
    pose proof (size_nonneg rest); change (size []) with 0 in Hl'; rewrite !size_to_le, Hn, size_replicate_nat in Hl'; lia|].
  rewrite <- E in *. unfold dirent_of. f_equal; [f_equal|].
  - rewrite Hl'. apply (field_at 0 8 _ []); [done|lia].
  - rewrite Hl'. apply (field_at 8 8); [by rewrite size_to_le|lia].
  - rewrite Hl', 2!app_assoc. apply (field_at 18 1); [by rewrite !size_app, !size_to_le|destruct (de_kind e); cbn; lia].
  - rewrite Hrec, Hl', 3!app_assoc, sub_app_r by (by rewrite !size_app, !size_to_le).
    rewrite take_app_le by (rewrite length_app, length_replicate; unfold size in Hn; lia).
    rewrite take_ge by (rewrite length_app, length_replicate; unfold size in Hn; lia).
    rewrite <- (app_nil_r (replicate _ _)). apply c_str_app; [done|lia].
  - f_equal. rewrite Hrec, <- Hsz. unfold size, l. rewrite Nat2Z.id. apply drop_app_length.
Qed.

Lemma parse_records_ok es off fuel : Forall entry_ok es -> 0 <= off -> off + Z.of_nat (length es) < 2 ^ 63 ->
  (length es <= fuel)%nat -> parse_records fuel (records es off) = dirents_of es off.
Proof.
  intros Hes. revert off fuel. induction Hes as [|e es He Hes IH]; intros off fuel Hoff Hlen Hfuel; cbn [records dirents_of length] in *.
  { by destruct fuel. }
  destruct fuel as [|fuel]; [lia|]. rewrite parse_record by (done || lia). f_equal. apply IH; lia.
Qed.

(** ** The whole listing *)

(** User space: [getdents64] into a buffer until it returns 0, collecting the
    records of each call. *)
Fixpoint list_all (fuel : nat) (entries : list DirEntry) (offset : Z) (buf : bytes) : option (list Dirent64) :=
  match fuel with
  | O => None
  | S fuel =>
      match getdents64_from_snapshot entries offset buf with
      | Ok (buf', offset', n) =>
          if n =? 0 then Some [] else
          app (parse_records (length buf') (sub 0 n buf')) <$> list_all fuel entries offset' buf'
      | _ => None
      end
  end.

Lemma dirents_of_app es es' off : dirents_of (es ++ es') off = dirents_of es off ++ dirents_of es' (off + Z.of_nat (length es)).
Proof.
  revert off; induction es as [|e es IH]; intros off; cbn [app dirents_of length]; [by rewrite Z.add_0_r|].
  rewrite IH. do 3 f_equal. lia.
Qed.

Lemma size_records es off : Forall entry_ok es -> 24 * Z.of_nat (length es) <= size (records es off).
Proof.
  intros Hes. revert off; induction Hes as [|e es He _ IH]; intros off; cbn [records length]; [done|].
  pose proof He as (_ & _ & Hl & _). pose proof (dirent64_size_bounds e Hl).
  rewrite size_app, size_record by done. specialize (IH (off + 1)). lia.
Qed.

Lemma list_all_ok fuel entries offset buf :
  Forall entry_ok entries -> 0 <= offset <= Z.of_nat (length entries) -> Z.of_nat (length entries) < 2 ^ 62 -> 280 <= size buf ->
  (length entries < fuel + Z.to_nat offset)%nat ->
  list_all fuel entries offset buf = Some (dirents_of (drop (Z.to_nat offset) entries) offset).
Proof.
  intros Hes. revert offset buf. induction fuel as [|fuel IH]; intros offset buf Hoff Hlen Hbuf Hfuel; [lia|].
  cbn [list_all]. destruct (getdents64_ok entries offset buf) as (k & Hk & Heq & Hsz & Hend); [done|lia..|].
  rewrite Heq. set (rest := drop (Z.to_nat offset) entries) in *. set (rs := records (take k rest) offset) in *.
  assert (Forall entry_ok (take k rest)) as Hok by by apply Forall_take, Forall_drop.
  pose proof (size_records (take k rest) offset Hok) as Hrs. fold rs in Hrs. rewrite length_take, Nat.min_l in Hrs by done.
  assert (length rest = length entries - Z.to_nat offset)%nat as Hrest by apply length_drop.
  case_bools.
  { destruct Hend as [->|(e1 & He & Hlt)]; [by destruct rest; [|cbn in *; lia]|].
    assert (entry_ok e1) as (_ & _ & Hl & _) by (eapply Forall_lookup_1, He; by apply Forall_drop).
    pose proof (dirent64_size_bounds e1 Hl). lia. }
  destruct k as [|k]; [done|]. replace (offset + Z.of_nat (S k)) with (Z.of_nat (Z.to_nat offset + S k)) by lia.
  rewrite IH by (rewrite ?size_app, ?size_drop; unfold size in *; lia). cbn [fmap option_fmap option_map]. f_equal.
  assert (dirents_of rest offset = dirents_of (take (S k) rest) offset ++ dirents_of (drop (S k) rest) (offset + Z.of_nat (length (take (S k) rest)))) as ->
    by by rewrite <- dirents_of_app, take_drop.
  f_equal.
  - unfold sub, size. cbn [Z.to_nat]. rewrite Nat2Z.id, drop_0, take_app_length. apply parse_records_ok; [done|lia|rewrite length_take; lia|].
    rewrite length_app, length_take. unfold size in Hrs. lia.
  - rewrite Nat2Z.id, length_take, Nat.min_l by done. unfold rest. rewrite drop_drop. f_equal. lia.
Qed.

(** ** The two packing loops agree *)

Lemma readdir_loop_eq {D} (readdir : Z -> Fs D (option DirEntry)) (d : D) entries :
  (forall i, 0 <= i -> readdir i d = Ok (d, inl (entries !! Z.to_nat i))) -> Forall entry_ok entries ->
  forall rest fuel offset written buf,
  rest = drop (Z.to_nat offset) entries -> 0 <= offset -> offset + Z.of_nat (length rest) < 2 ^ 63 -> 0 <= written <= size buf ->
  size buf - written < 24 * Z.of_nat fuel ->
  readdir_loop readdir fuel offset written buf d =
    match snapshot_loop rest offset written buf with Ok r => Ok (d, inl (Some r)) | Err e => match e with end | Panic => Panic end.
Proof.
  intros Hrd Hes rest. induction rest as [|e rest IH]; intros fuel offset written buf Hrest Hoff Hlen Hw Hfuel;
    (destruct fuel as [|fuel]; [lia|]); cbn [readdir_loop]; unfold mbind, fs_bind, attempt; rewrite Hrd by done.
  - rewrite lookup_ge_None_2; [done|]. apply (f_equal length) in Hrest. rewrite length_drop in Hrest. cbn in Hrest. lia.
  - assert (entries !! Z.to_nat offset = Some e) as Hlk.
    { rewrite <- (Nat.add_0_r (Z.to_nat offset)), <- lookup_drop, <- Hrest. done. }
    rewrite Hlk. cbn [snapshot_loop]. pose proof (Forall_lookup_1 _ _ _ _ Hes Hlk) as He. pose proof He as (_ & _ & Hl & _).
    pose proof (dirent64_size_bounds e Hl). case_bools; [done|]. cbn [length] in Hlen.
    unfold pure. rewrite get_ok by lia. cbn [mbind outcome_bind].
    rewrite write_dirent64_ok by (try done; try lia; rewrite size_sub; lia). cbn [mbind outcome_bind].
    rewrite put_ok by (rewrite ?size_record by done; lia). cbn [mbind outcome_bind].
    apply IH; try lia; [|rewrite size_over; rewrite ?size_record by done; lia..].
    replace (Z.to_nat (offset + 1)) with (Z.to_nat offset + 1)%nat by lia. rewrite <- drop_drop, <- Hrest. done.
Qed.

(** The rounds of [getdents64_via_readdir] are enough, and on a directory
    whose [readdir] reads a fixed listing it does what
    [getdents64_from_snapshot] does. *)
Lemma via_readdir_eq {D} (readdir : Z -> Fs D (option DirEntry)) (d : D) entries offset buf :
  (forall i, 0 <= i -> readdir i d = Ok (d, inl (entries !! Z.to_nat i))) -> Forall entry_ok entries ->
  0 <= offset < 2 ^ 62 -> Z.of_nat (length entries) < 2 ^ 62 ->
  exists r, getdents64_from_snapshot entries offset buf = Ok r /\
            getdents64_via_readdir readdir offset buf d = Ok (d, inl (Some r)).
Proof.
  intros Hrd Hes Hoff Hlen. destruct (getdents64_ok entries offset buf) as (k & _ & Heq & _); [done|lia..|].
  eexists. split; [exact Heq|]. unfold getdents64_via_readdir.
  rewrite (readdir_loop_eq readdir d entries Hrd Hes (drop (Z.to_nat offset) entries)); try done.
  - unfold getdents64_from_snapshot in Heq. by rewrite Heq.
  - lia.
  - rewrite length_drop. lia.
  - unfold size. lia.
  - unfold size. lia.
Qed.

End FsTypes.
