(* ===== verification/Path.v ===== *)
(** Path strings ([normalize_path], [split_parent] and the string operations
    that [kernel/src/fs/vfs.rs] uses): a Rust [str] is its UTF-8 bytes, and
    the only characters the code looks for are the ASCII ['/'] and ['.'].

    A path is [clean] when it is absolute, has no empty, ["."] or [".."]
    component and no trailing slash; [normalize_path] yields clean paths
    ([normalize_clean]), computes the lexical walk over the components
    ([components_normalize]), fixes clean paths and composes
    ([normalize_compose]). *)

From Stdlib Require Import ZArith Lia.
From stdpp Require Import base numbers gmap list.
From S2P Require Import Prelude Bits Bytes FsTypes.

Local Open Scope Z_scope.

Module Path.
Import Bytes FsTypes.

Definition SLASH : Z := 47.
Definition DOT : bytes := [46].
Definition DOTDOT : bytes := [46; 46].
Definition ROOT : bytes := [SLASH].

(** [str::split('/')]: one more piece than there are slashes. *)
Fixpoint split (l : bytes) : list bytes :=
  match l with
  | [] => [[]]
  | b :: l' =>
      if b =? SLASH then [] :: split l'
      else match split l' with c :: cs => (b :: c) :: cs | [] => [[b]] end
  end.

(** [.split('/').filter(|s| !s.is_empty())]. *)
Definition components (l : bytes) : list bytes := filter (fun c => c <> []) (split l).

(** [[_].join("/")]. *)
Fixpoint join (cs : list bytes) : bytes :=
  match cs with
  | [] => []
  | [c] => c
  | c :: cs' => c ++ SLASH :: join cs'
  end.

Definition starts_with (p l : bytes) : bool := bool_decide (take (length p) l = p).
Definition is_absolute (l : bytes) : bool := starts_with ROOT l.

(** [str::strip_prefix]. *)
Definition strip_prefix (p l : bytes) : option bytes := if starts_with p l then Some (drop (length p) l) else None.

(** [trim_start_matches('/')]. *)
Fixpoint trim_slashes (l : bytes) : bytes :=
  match l with b :: l' => if b =? SLASH then trim_slashes l' else l | [] => [] end.

(** One round of [normalize_path]'s loop ([Vec::push], [Vec::pop]). *)
Definition normalize_step (stack : list bytes) (c : bytes) : list bytes :=
  if bool_decide (c = DOT) then stack
  else if bool_decide (c = DOTDOT) then take (length stack - 1) stack
  else stack ++ [c].

Definition normalize_path (cwd path : bytes) : bytes :=
  let stack := if is_absolute path then [] else components cwd in
  let stack := foldl normalize_step stack (components path) in
  match stack with
  | [] => ROOT
  | _ => ROOT ++ join stack
  end.

(** [str::rfind('/')]. *)
Fixpoint rfind_slash (l : bytes) : option nat :=
  match l with
  | [] => None
  | b :: l' =>
      match rfind_slash l' with
      | Some i => Some (S i)
      | None => if b =? SLASH then Some O else None
      end
  end.

Definition split_parent (path : bytes) : bytes * bytes + Errno :=
  match rfind_slash path with
  | None => inr EINVAL
  | Some idx =>
      let leaf := drop (S idx) path in
      match leaf with
      | [] => inr EINVAL
      | _ => inl (match idx with O => ROOT | _ => take idx path end, leaf)
      end
  end.

(** ** Components *)

Definition no_slash (c : bytes) : Prop := Forall (fun b => b <> SLASH) c.
Definition comp_ok (c : bytes) : Prop := c <> [] /\ no_slash c.
(** A name a directory can hold. *)
Definition name_comp (c : bytes) : Prop := comp_ok c /\ c <> DOT /\ c <> DOTDOT.

Definition clean (p : bytes) : Prop := exists cs, Forall name_comp cs /\ p = ROOT ++ join cs.

Lemma split_no_slash l : Forall no_slash (split l).
Proof.
  induction l as [|b l IH]; cbn; [by repeat constructor|]. case_bools.
  - by constructor; [constructor|].
  - destruct (split l) as [|c cs]; [by repeat constructor|]. inversion IH; subst. constructor; [by constructor|done].
Qed.

Lemma components_ok l : Forall comp_ok (components l).
Proof.
  unfold components. apply Forall_forall. intros c [Hc Hin]%list_elem_of_filter. split; [done|].
  by apply (proj1 (Forall_forall _ _) (split_no_slash l)).
Qed.

Lemma split_piece c l : no_slash c -> split (c ++ l) = match split l with d :: ds => (c ++ d) :: ds | [] => [c] end.
Proof.
  induction 1 as [|b c Hb _ IH]; cbn [app split].
  - destruct l as [|b l]; cbn; [done|]. case_bools; [done|]. by destruct (split l).
  - case_bools; [done|]. rewrite IH. by destruct (split l).
Qed.

Lemma split_slash l : split (SLASH :: l) = [] :: split l.
Proof. done. Qed.

Lemma components_slash l : components (SLASH :: l) = components l.
Proof. unfold components. rewrite split_slash, filter_cons_False by (intros H; by apply H). done. Qed.

Lemma components_cons c l : comp_ok c -> components (c ++ SLASH :: l) = c :: components l.
Proof.
  intros [Hne Hns]. unfold components. rewrite split_piece, split_slash, app_nil_r by done.
  by rewrite filter_cons_True.
Qed.

Lemma components_piece c : comp_ok c -> components c = [c].
Proof.
  intros [Hne Hns]. unfold components. rewrite <- (app_nil_r c) at 1. rewrite split_piece by done. cbn [split].
  rewrite app_nil_r, filter_cons_True by done. done.
Qed.

Lemma components_join cs : Forall comp_ok cs -> components (join cs) = cs.
Proof.
  induction 1 as [|c cs Hc Hcs IH]; [done|]. destruct cs as [|d cs]; [by apply components_piece|].
  change (join (c :: d :: cs)) with (c ++ SLASH :: join (d :: cs)). by rewrite components_cons, IH.
Qed.

Lemma components_abs cs : Forall comp_ok cs -> components (ROOT ++ join cs) = cs.
Proof. intros. cbn [ROOT app]. by rewrite components_slash, components_join. Qed.

Lemma name_comps cs : Forall name_comp cs -> Forall comp_ok cs.
Proof. intros H. eapply Forall_impl; [exact H|]. by intros ? [? _]. Qed.
#[local] Hint Resolve name_comps : core.

Lemma is_absolute_cons l : is_absolute (SLASH :: l) = true.
Proof. unfold is_absolute, starts_with. by rewrite bool_decide_true. Qed.

Lemma is_absolute_inv l : is_absolute l = true -> exists l', l = SLASH :: l'.
Proof.
  unfold is_absolute, starts_with. rewrite bool_decide_eq_true. destruct l as [|b l]; [done|]. intros [= ->]. by exists l.
Qed.

Lemma is_absolute_abs cs : is_absolute (ROOT ++ join cs) = true.
Proof. apply is_absolute_cons. Qed.

(** The lexical walk: from a list of components, along others. *)
Definition lexical (start path : list bytes) : list bytes := foldl normalize_step start path.

(** The path of a list of components. *)
Definition abs_path (cs : list bytes) : bytes := ROOT ++ join cs.

Lemma normalize_path_eq cwd p :
  normalize_path cwd p = abs_path (lexical (if is_absolute p then [] else components cwd) (components p)).
Proof. unfold normalize_path, abs_path, lexical. by destruct (foldl _ _ _). Qed.

Lemma normalize_step_ok stack c : Forall comp_ok stack -> comp_ok c -> Forall comp_ok (normalize_step stack c).
Proof.
  intros Hs Hc. unfold normalize_step. repeat case_bool_decide; [done|by apply Forall_take|].
  apply Forall_app. split; [done|]. by constructor.
Qed.

Lemma normalize_step_name stack c : Forall name_comp stack -> comp_ok c -> Forall name_comp (normalize_step stack c).
Proof.
  intros Hs Hc. unfold normalize_step. repeat case_bool_decide; [done|by apply Forall_take|].
  apply Forall_app. split; [done|]. by constructor.
Qed.

Lemma lexical_ok start cs : Forall comp_ok start -> Forall comp_ok cs -> Forall comp_ok (lexical start cs).
Proof.
  intros Hs Hcs. revert start Hs. induction Hcs as [|c cs Hc _ IH]; intros start Hs; cbn; [done|].
  apply IH. by apply normalize_step_ok.
Qed.

Lemma lexical_name start cs : Forall name_comp start -> Forall comp_ok cs -> Forall name_comp (lexical start cs).
Proof.
  intros Hs Hcs. revert start Hs. induction Hcs as [|c cs Hc _ IH]; intros start Hs; cbn; [done|].
  apply IH. by apply normalize_step_name.
Qed.

Lemma lexical_names start cs : Forall name_comp cs -> lexical start cs = start ++ cs.
Proof.
  intros Hcs. revert start. induction Hcs as [|c cs (_ & Hd & Hdd) _ IH]; intros start; cbn; [by rewrite app_nil_r|].
  fold (lexical (normalize_step start c) cs). rewrite IH. unfold normalize_step.
  rewrite !bool_decide_false by done. by rewrite <- app_assoc.
Qed.

Lemma components_normalize cwd p :
  components (normalize_path cwd p) = lexical (if is_absolute p then [] else components cwd) (components p).
Proof.
  rewrite normalize_path_eq. unfold abs_path. apply components_abs, lexical_ok; [|apply components_ok].
  destruct (is_absolute p); [done|apply components_ok].
Qed.

Lemma clean_components p : clean p -> p = abs_path (components p) /\ Forall name_comp (components p).
Proof. intros (cs & Hcs & ->). unfold abs_path. by rewrite components_abs by eauto. Qed.

Lemma clean_abs_path cs : Forall name_comp cs -> clean (abs_path cs).
Proof. intros. by exists cs. Qed.

Lemma clean_absolute p : clean p -> is_absolute p = true.
Proof. intros (cs & _ & ->). apply is_absolute_cons. Qed.

(** The working directory matters only for relative paths. *)
Lemma normalize_clean cwd p : is_absolute p = true \/ Forall name_comp (components cwd) -> clean (normalize_path cwd p).
Proof.
  intros H. rewrite normalize_path_eq. apply clean_abs_path, lexical_name; [|apply components_ok].
  destruct (is_absolute p); [done|]. by destruct H.
Qed.

Lemma normalize_fix cwd p : clean p -> normalize_path cwd p = p.
Proof.
  intros Hp. destruct (clean_components p Hp) as [Heq Hcs]. rewrite normalize_path_eq, clean_absolute by done.
  by rewrite lexical_names, app_nil_l, <- Heq by done.
Qed.

Lemma components_app_slash p q : components (p ++ SLASH :: q) = components p ++ components q.
Proof.
  unfold components. rewrite <- filter_app. f_equal. induction p as [|b p IH]; [done|].
  cbn [app split]. rewrite IH. case_bools; [done|]. destruct (split p) as [|c cs] eqn:E; [|done].
  exfalso. destruct p; cbn in E; [done|]. by repeat case_match.
Qed.

Lemma lexical_app start cs ds : lexical start (cs ++ ds) = lexical (lexical start cs) ds.
Proof. apply foldl_app. Qed.

(** Following [p] and then the relative path [q] is following [p/q]. *)
Lemma normalize_compose cwd p q : p <> [] -> is_absolute q = false ->
  normalize_path (normalize_path cwd p) q = normalize_path cwd (p ++ SLASH :: q).
Proof.
  intros Hp Hq. rewrite (normalize_path_eq _ q), (normalize_path_eq _ (p ++ _)). rewrite Hq, components_normalize, components_app_slash.
  rewrite lexical_app. by destruct p as [|b p].
Qed.

(** ** Parent and leaf *)

Lemma rfind_slash_spec l pre c : no_slash c -> l = pre ++ SLASH :: c -> rfind_slash l = Some (length pre).
Proof.
  intros Hc ->. assert (rfind_slash c = None) as Hn.
  { induction Hc as [|b c Hb _ IH]; [done|]. cbn. rewrite IH. by case_bools. }
  induction pre as [|b pre IH]; cbn [app rfind_slash length]; [by rewrite Hn|]. by rewrite IH.
Qed.

Lemma join_snoc cs c : cs <> [] -> join (cs ++ [c]) = join cs ++ SLASH :: c.
Proof.
  induction cs as [|d cs IH]; [done|]. intros _. destruct cs as [|e cs]; [done|].
  change (join ((d :: e :: cs) ++ [c])) with (d ++ SLASH :: join ((e :: cs) ++ [c])). rewrite IH by done.
  change (join (d :: e :: cs)) with (d ++ SLASH :: join (e :: cs)). by rewrite <- app_assoc.
Qed.

Lemma split_parent_snoc cs c : Forall comp_ok cs -> comp_ok c ->
  split_parent (abs_path (cs ++ [c])) = inl (abs_path cs, c).
Proof.
  intros Hcs [Hne Hns]. unfold split_parent.
  assert (abs_path (cs ++ [c]) = match cs with [] => [] | _ => abs_path cs end ++ SLASH :: c) as Heq.
  { unfold abs_path. destruct cs as [|d cs]; [done|]. by rewrite join_snoc, <- app_assoc. }
  rewrite (rfind_slash_spec _ _ c Hns Heq), Heq.
  replace (drop (S (length _)) _) with c; [|by rewrite <- Nat.add_1_r, <- drop_drop, drop_app_length].
  destruct c as [|b c]; [done|]. do 2 f_equal. destruct cs as [|d cs]; [done|].
  rewrite take_app_length. done.
Qed.

Lemma clean_snoc p : clean p -> p <> ROOT ->
  exists cs c, Forall name_comp cs /\ name_comp c /\ p = abs_path (cs ++ [c]).
Proof.
  intros (cs & Hcs & ->) Hne. destruct cs as [|c cs _] using rev_ind; [done|].
  apply Forall_app in Hcs as [Hcs Hc]. inversion Hc; subst. by exists cs, c.
Qed.

End Path.
