(* ===== verification/Vfs.v ===== *)
(** The virtual file system ([kernel/src/fs/vfs.rs], [kernel/src/fs/mod.rs]):
    the traits a file system implements, the mount table and path resolution.

    [Inodes] is the [Inode] trait and [FileHandles] the [FileHandle] trait,
    over a state [S] that all the file systems share and the inodes [I] and
    handles [H] they hand out ([Arc<dyn Inode>], [Box<dyn FileHandle>]).  The
    mount table is a list of prefixes with the [root] operation of the file
    system mounted there.

    [find_mount_longest] is the longest-prefix match, [walk_lookups] relates
    resolution without symbolic links to iterated [lookup], [resolve_mono]
    shows that what resolved keeps resolving to the same inode when the file
    systems only gain entries. *)

From Stdlib Require Import ZArith Lia Sorting.Sorted.
From stdpp Require Import base numbers gmap list.
From S2P Require Import Prelude Bits Bytes FsTypes Path.

Local Open Scope Z_scope.

Module Vfs.
Import Bytes FsTypes Path.

(** ** The traits *)

Class Inodes (S I H : Type) := {
  i_stat : I -> S -> may_panic Stat;
  i_open : I -> Z -> Fs S H;
  i_lookup : I -> bytes -> Fs S I;
  i_create : I -> bytes -> Fs S I;
  i_mkdir : I -> bytes -> Fs S I;
  i_unlink : I -> bytes -> Fs S unit;
  i_rmdir : I -> bytes -> Fs S unit;
  i_take_child : I -> bytes -> Fs S I;
  i_insert_child : I -> bytes -> I -> Fs S unit;
  i_readlink : I -> Fs S bytes;
  i_symlink : I -> bytes -> bytes -> Fs S I;
  i_chmod : I -> Z -> Fs S unit;
}.

(** [FileHandle]: every operation may change the handle itself ([&mut self])
    and the state; [h_read] is given the length of the buffer. *)
Class FileHandles (S H : Type) := {
  h_read : H -> Z -> S -> may_panic (S * H * (bytes + FileError));
  h_write : H -> bytes -> S -> may_panic (S * H * (Z + FileError));
  h_close : H -> S -> may_panic (S * H * (unit + FileError));
  h_stat : H -> S -> may_panic (option Stat);
  h_getdents64 : H -> bytes -> S -> may_panic (S * H * (bytes * Z));
  h_dup : H -> S -> may_panic (S * option H);
  h_seek : H -> Z -> Z -> S -> may_panic (S * H * (Z + FileError));
  h_chmod : H -> Z -> S -> may_panic (S * H * (unit + FileError));
  h_name : H -> bytes;
  h_drop : H -> S -> may_panic S;
}.

(** The default bodies of the traits. *)
Definition readonly {S A} : Fs S A := err EROFS.
Definition not_a_directory {S A} : Fs S A := err ENOTDIR.
Definition not_a_symlink {S A} : Fs S A := err EINVAL.

Section vfs.
Context {S I H : Type} `{Inodes S I H}.

(** Reading the state without changing it. *)
Definition reads {A} (f : S -> may_panic A) : Fs S A := fun s => a ← f s; Ok (s, inl a).

(** [Inode::file_type]. *)
Definition file_type (i : I) (s : S) : may_panic FileType := st ← i_stat i s; Ok (type_of_mode (st_mode st)).

(** ** The mount table *)

Record MountEntry := mkMount { prefix : bytes; fs_root : Fs S I }.

(** [sort_by] on descending prefix length is stable. *)
Fixpoint insert_entry (e : MountEntry) (table : list MountEntry) : list MountEntry :=
  match table with
  | [] => [e]
  | x :: table' => if (length (prefix x) <=? length (prefix e))%nat then e :: table else x :: insert_entry e table'
  end.
Definition mount (p : bytes) (root : Fs S I) (table : list MountEntry) : list MountEntry :=
  foldr insert_entry [] (table ++ [mkMount p root]).

(** The condition of the longest-prefix search. *)
Definition mount_matches (path : bytes) (e : MountEntry) : bool :=
  bool_decide (path = prefix e) ||
  (starts_with (prefix e) path && (bool_decide (prefix e = ROOT) || starts_with ROOT (drop (length (prefix e)) path))).
Definition find_mount (table : list MountEntry) (path : bytes) : option MountEntry :=
  snd <$> list_find (fun e => mount_matches path e = true) table.

Definition direct_children (table : list MountEntry) (parent : bytes) : list bytes :=
  omap (fun e =>
    if bool_decide (prefix e = parent) then None else
    rel ← (if bool_decide (parent = ROOT) then strip_prefix ROOT (prefix e)
           else r ← strip_prefix parent (prefix e); strip_prefix ROOT r);
    if bool_decide (rel = []) || bool_decide (SLASH ∈ rel) then None else Some rel) table.

(** ** Path resolution *)

(** The part of [path] below the mount. *)
Definition mount_rel (e : MountEntry) (path : bytes) : bytes :=
  if bool_decide (prefix e = ROOT) then drop 1 path else trim_slashes (drop (length (prefix e)) path).

(** [dir_path]: the mount prefix and the components consumed so far. *)
Definition dir_path (p : bytes) (consumed : list bytes) : bytes := p ++ concat (cons SLASH <$> consumed).

(** The loop over the components: [follow] resolves the target of a symbolic
    link, or is [None] when no hop is left. *)
Fixpoint walk (follow : option (bytes -> Fs S I)) (p : bytes) (follow_final : bool)
    (consumed rest : list bytes) (node : I) : Fs S I :=
  match rest with
  | [] => mret node
  | c :: rest' =>
      if bool_decide (c = DOT) then walk follow p follow_final (consumed ++ [c]) rest' node
      else if bool_decide (c = DOTDOT) then err EINVAL
      else
        node ← i_lookup node c;
        t ← reads (file_type node);
        if bool_decide (t = Symlink) && (negb (bool_decide (rest' = [])) || follow_final) then
          match follow with
          | None => err ELOOP
          | Some resolve =>
              target ← i_readlink node;
              let abs_target := if is_absolute target then target else normalize_path (dir_path p consumed) target in
              node ← resolve abs_target;
              walk follow p follow_final (consumed ++ [c]) rest' node
          end
        else walk follow p follow_final (consumed ++ [c]) rest' node
  end.

Section resolution.
Variable table : list MountEntry.

Fixpoint resolve_inner (hops_left : nat) (path : bytes) (follow_final : bool) : Fs S I :=
  if negb (is_absolute path) then err EINVAL else
  entry ← ok_or ENOENT (find_mount table path);
  node ← fs_root entry;
  walk (match hops_left with O => None | Datatypes.S h => Some (fun p => resolve_inner h p follow_final) end)
    (prefix entry) follow_final [] (components (mount_rel entry path)) node.

Definition MAX_SYMLINK_HOPS : nat := 8.

Definition resolve (path : bytes) : Fs S I := resolve_inner MAX_SYMLINK_HOPS path true.
Definition resolve_no_follow (path : bytes) : Fs S I := resolve_inner MAX_SYMLINK_HOPS path false.

(** ** Operations on paths *)

Definition parent_and_leaf (path : bytes) : Fs S (bytes * bytes) := rethrow (split_parent path).

Definition create_and_open (path : bytes) (flags : Z) : Fs S H :=
  pl ← parent_and_leaf path;
  dir ← resolve pl.1;
  inode ← i_create dir pl.2;
  i_open inode flags.

Definition open (path : bytes) (flags : Z) : Fs S H :=
  r ← attempt (resolve path);
  match r with
  | inl inode => i_open inode flags
  | inr e => if (e =? ENOENT) && negb (Z.land flags CREAT =? 0) then create_and_open path flags else err e
  end.

Definition stat (path : bytes) : Fs S Stat := node ← resolve path; reads (i_stat node).
Definition lstat (path : bytes) : Fs S Stat := node ← resolve_no_follow path; reads (i_stat node).
Definition readlink (path : bytes) : Fs S bytes := node ← resolve_no_follow path; i_readlink node.

Definition mkdir (path : bytes) : Fs S unit :=
  pl ← parent_and_leaf path; dir ← resolve pl.1; _ ← i_mkdir dir pl.2; mret ().
Definition symlink (target path : bytes) : Fs S unit :=
  pl ← parent_and_leaf path; dir ← resolve pl.1; _ ← i_symlink dir pl.2 target; mret ().
Definition unlink (path : bytes) : Fs S unit :=
  pl ← parent_and_leaf path; dir ← resolve pl.1; i_unlink dir pl.2.
Definition rmdir (path : bytes) : Fs S unit :=
  pl ← parent_and_leaf path; dir ← resolve pl.1; i_rmdir dir pl.2.

(** [take_child], then [insert_child], and back when that fails. *)
Definition rename_nodes (old_parent : I) (old_leaf : bytes) (new_parent : I) (new_leaf : bytes) : Fs S unit :=
  node ← i_take_child old_parent old_leaf;
  r ← attempt (i_insert_child new_parent new_leaf node);
  match r with
  | inl _ => mret ()
  | inr e => _ ← attempt (i_insert_child old_parent old_leaf node); err e
  end.

Definition rename (old_path new_path : bytes) : Fs S unit :=
  old ← parent_and_leaf old_path;
  new ← parent_and_leaf new_path;
  old_parent ← resolve old.1;
  new_parent ← resolve new.1;
  rename_nodes old_parent old.2 new_parent new.2.

End resolution.
End vfs.
(** ** The longest-prefix match *)

Section mounts.
Context {S I : Type}.
Implicit Types (e : MountEntry (S := S) (I := I)) (table : list (MountEntry (S := S) (I := I))).

Definition longer e e' : Prop := (length (prefix e') <= length (prefix e))%nat.
Definition table_ok table : Prop := StronglySorted longer table /\ Forall (fun e => clean (prefix e)) table.

Lemma insert_entry_perm e table : insert_entry e table ≡ₚ e :: table.
Proof. induction table as [|x table IH]; cbn; [done|]. case_match; [done|]. rewrite IH. constructor. Qed.

Lemma insert_entry_sorted e table : StronglySorted longer table -> StronglySorted longer (insert_entry e table).
Proof.
  induction 1 as [|x table Hs IH Hx]; cbn; [by repeat constructor|]. case_bools.
  - constructor; [by constructor|]. constructor; [done|]. eapply Forall_impl; [exact Hx|]. unfold longer. lia.
  - constructor; [done|]. rewrite insert_entry_perm. constructor; [unfold longer; lia|done].
Qed.

Lemma foldr_insert_ok table : Forall (fun e => clean (prefix e)) table -> table_ok (foldr insert_entry [] table).
Proof.
  induction 1 as [|e table He _ [Hs Hc]]; [by repeat constructor|]. cbn [foldr]. split; [by apply insert_entry_sorted|].
  rewrite insert_entry_perm. by constructor.
Qed.

Lemma mount_ok p root table : clean p -> table_ok table -> table_ok (mount p root table).
Proof. intros Hp [_ Hc]. apply foldr_insert_ok, Forall_app. by repeat constructor. Qed.

Lemma mount_perm p root table : mount p root table ≡ₚ mkMount p root :: table.
Proof.
  unfold mount. transitivity (table ++ [mkMount p root]); [|by rewrite Permutation_app_comm].
  generalize (table ++ [mkMount p root]). clear. intros l. induction l as [|e l IH]; [done|]. cbn. by rewrite insert_entry_perm, IH.
Qed.

(** The entry found matches, and no entry that matches has a longer prefix. *)
Lemma find_mount_longest table path e : StronglySorted longer table -> find_mount table path = Some e ->
  e ∈ table /\ mount_matches path e = true /\
  forall e', e' ∈ table -> mount_matches path e' = true -> (length (prefix e') <= length (prefix e))%nat.
Proof.
  unfold find_mount. intros Hs. rewrite fmap_Some. intros ([i e0] & Hf & ->). cbn.
  apply list_find_Some in Hf as (Hi & Hm & Hbefore). split_and!; [by eapply list_elem_of_lookup_2|done|].
  intros e' [j Hj]%list_elem_of_lookup Hm'.
  destruct (decide (j < i)%nat) as [Hlt|Hge]; [by specialize (Hbefore j e' Hj Hlt)|].
  destruct (decide (j = i)) as [->|]; [simplify_eq; done|].
  assert (i < j)%nat as Hij by lia. clear -Hs Hi Hj Hij. revert i j Hi Hj Hij.
  induction Hs as [|x table Hs IH Hx]; intros i j Hi Hj Hij; [done|]. destruct j as [|j]; [lia|].
  destruct i as [|i]; cbn in *; [|by eapply (IH i j); try done; lia]. simplify_eq. by eapply (Forall_lookup_1 _ _ _ _ Hx).
Qed.

(** *** In terms of components *)

Lemma join_cons c cs : join (c :: cs) = c ++ match cs with [] => [] | _ => SLASH :: join cs end.
Proof. destruct cs; cbn; [by rewrite app_nil_r|done]. Qed.

Lemma join_app cs ds : cs <> [] -> join (cs ++ ds) = join cs ++ match ds with [] => [] | _ => SLASH :: join ds end.
Proof.
  induction cs as [|c cs IH]; [done|]. intros _. cbn [app]. rewrite !join_cons. rewrite <- app_assoc. f_equal.
  destruct cs as [|d cs]; [by destruct ds|]. cbn [app]. rewrite <- app_comm_cons in IH. rewrite IH by done. done.
Qed.

(** More components, longer path. *)
Lemma abs_path_longer ps x xs : Forall name_comp (ps ++ x :: xs) -> (length (abs_path ps) < length (abs_path (ps ++ x :: xs)))%nat.
Proof.
  intros Hall. apply Forall_app in Hall as [_ Hx]. apply Forall_cons in Hx as [[[Hx _] _] _]. unfold abs_path. rewrite !length_app.
  destruct ps as [|p ps]; [|rewrite join_app, length_app by done; cbn; lia].
  change ([] ++ x :: xs) with (x :: xs). rewrite join_cons, length_app. destruct x; [done|]. cbn. lia.
Qed.

Lemma no_slash_app_inj c d l k : no_slash c -> no_slash d ->
  c ++ SLASH :: l = d ++ SLASH :: k -> c = d /\ l = k.
Proof.
  intros Hc. revert d. induction Hc as [|b c Hb _ IH]; intros d Hd Heq; destruct Hd as [|b' d Hb' Hd]; cbn in Heq; simplify_eq; try done.
  destruct (IH d Hd) as [-> ->]; done.
Qed.

(** A clean prefix followed by the end or a slash is a prefix of the
    components. *)
Lemma clean_prefix ps qs : Forall comp_ok ps -> Forall comp_ok qs -> ps <> [] ->
  (abs_path ps = abs_path qs \/ exists l, abs_path qs = abs_path ps ++ SLASH :: l) <-> ps `prefix_of` qs.
Proof.
  intros Hps Hqs Hne. split.
  - intros [Heq|[l Heq]].
    + apply (f_equal components) in Heq. unfold abs_path in Heq. rewrite !components_abs in Heq by done. by subst.
    + apply (f_equal components) in Heq. rewrite components_app_slash in Heq. unfold abs_path in Heq.
      rewrite !components_abs in Heq by done. rewrite Heq. by apply prefix_app_r.
  - intros [ds ->]. destruct ds as [|d ds]; [left; by rewrite app_nil_r|right]. exists (join (d :: ds)).
    unfold abs_path. rewrite join_app by done. by rewrite app_assoc.
Qed.

Lemma starts_with_true p l : starts_with p l = true <-> exists k, l = p ++ k.
Proof.
  unfold starts_with. rewrite bool_decide_eq_true. split.
  - intros Heq. exists (drop (length p) l). rewrite <- Heq at 1. by rewrite take_drop.
  - intros [k ->]. by rewrite take_app_length.
Qed.

Lemma mount_matches_clean e ps qs : prefix e = abs_path ps -> Forall name_comp ps -> Forall name_comp qs ->
  mount_matches (abs_path qs) e = true <-> ps `prefix_of` qs.
Proof.
  intros Hp Hps Hqs. unfold mount_matches. rewrite Hp. rewrite orb_true_iff, andb_true_iff, orb_true_iff, !bool_decide_eq_true, !starts_with_true.
  destruct (decide (ps = [])) as [->|Hne].
  - split; [intros _; apply prefix_nil|]. intros _. right. split; [by exists (join qs)|]. by left.
  - rewrite <- (clean_prefix ps qs) by (by try apply name_comps). split.
    + intros [Heq|[[k Hk] [Hr|[l Hl]]]]; [by left| |].
      * exfalso. apply (f_equal components) in Hr. unfold abs_path in Hr. rewrite components_abs in Hr by by apply name_comps.
        change ROOT with (ROOT ++ join []) in Hr. rewrite components_abs in Hr by constructor. done.
      * right. exists l. rewrite Hk in *. rewrite drop_app_length in Hl. by subst.
    + intros [Heq|[l Hl]]; [by left|right]. split; [by eexists|]. right. exists l. by rewrite Hl, drop_app_length.
Qed.

Lemma trim_comp c l : no_slash c -> c <> [] -> trim_slashes (c ++ l) = c ++ l.
Proof. intros Hc Hne. destruct Hc as [|b c Hb _]; [done|]. cbn. by case_bools. Qed.

(** What is left to walk below the mount. *)
Lemma mount_rel_clean e ps qs : prefix e = abs_path ps -> Forall name_comp ps -> Forall name_comp qs -> ps `prefix_of` qs ->
  components (mount_rel e (abs_path qs)) = drop (length ps) qs.
Proof.
  intros Hp Hps Hqs [ds ->]. rewrite drop_app_length. apply Forall_app in Hqs as [_ Hds]. unfold mount_rel. rewrite Hp.
  destruct (decide (ps = [])) as [->|Hne].
  - rewrite bool_decide_true by done. cbn [app]. unfold abs_path. cbn. apply components_join, name_comps, Hds.
  - rewrite bool_decide_false.
    2: { intros Hr. apply (f_equal components) in Hr. unfold abs_path in Hr. rewrite components_abs in Hr by by apply name_comps.
         change ROOT with (ROOT ++ join []) in Hr. rewrite components_abs in Hr by constructor. done. }
    assert (abs_path (ps ++ ds) = abs_path ps ++ match ds with [] => [] | _ => SLASH :: join ds end) as ->
      by (unfold abs_path; by rewrite join_app, app_assoc).
    rewrite drop_app_length. destruct Hds as [|d ds [[Hd1 Hd2] Hd] Hds]; [done|]. cbn [trim_slashes]. rewrite Z.eqb_refl.
    rewrite join_cons, trim_comp, <- join_cons by done. apply components_join, name_comps. by constructor.
Qed.

Lemma find_mount_same table qs c : table_ok table -> Forall name_comp qs -> name_comp c ->
  (forall e, e ∈ table -> prefix e <> abs_path (qs ++ [c])) ->
  find_mount table (abs_path (qs ++ [c])) = find_mount table (abs_path qs).
Proof.
  intros [_ Hcl] Hqs Hc Hnm. unfold find_mount. induction table as [|e table IH]; [done|].
  apply Forall_cons in Hcl as [(ps & Hps & He) Hcl]. cbn [list_find].
  assert (mount_matches (abs_path (qs ++ [c])) e = mount_matches (abs_path qs) e) as ->.
  { assert (Forall name_comp (qs ++ [c])) by (apply Forall_app; split; [done|by constructor]).
    apply eq_true_iff_eq. rewrite !(mount_matches_clean e ps) by done.
    split.
    - intros [ds Hds]. destruct ds as [|d ds _] using rev_ind.
      + exfalso. rewrite app_nil_r in Hds. apply (Hnm e); [constructor|]. by rewrite He, <- Hds.
      + rewrite app_assoc in Hds. apply app_inj_tail in Hds as [-> _]. by apply prefix_app_r.
    - intros Hpre. by apply prefix_app_r. }
  case_decide; [done|]. specialize (IH Hcl ltac:(intros; apply Hnm; by constructor)).
  by destruct (list_find _ table) as [[]|], (list_find _ table) as [[]|].
Qed.

End mounts.

(** ** What the VFS relies on *)

Section laws.
Context {S I H : Type} `{Inodes S I H}.

(** A state that has gained entries: what was found is still found. *)
Record extends (s s' : S) : Prop := {
  ext_lookup i n j : i_lookup i n s = Ok (s, inl j) -> i_lookup i n s' = Ok (s', inl j);
  ext_type i t : file_type i s = Ok t -> file_type i s' = Ok t;
  ext_readlink i b : i_readlink i s = Ok (s, inl b) -> i_readlink i s' = Ok (s', inl b);
}.

(** What a file system promises: looking does not change it, and a new entry
    can be looked up under its name and takes nothing away. *)
Class FsLaws := {
  fs_ok : S -> Prop;
  lookup_pure i n s s' r : i_lookup i n s = Ok (s', r) -> s' = s;
  readlink_pure i s s' r : i_readlink i s = Ok (s', r) -> s' = s;
  lookup_errno i n s s' e : i_lookup i n s = Ok (s', inr e) -> 0 < e;
  readlink_errno i s s' e : i_readlink i s = Ok (s', inr e) -> 0 < e;
  mkdir_law d n s s' j : fs_ok s -> i_mkdir d n s = Ok (s', inl j) ->
    fs_ok s' /\ extends s s' /\ i_lookup d n s' = Ok (s', inl j) /\ file_type j s' = Ok Directory;
  create_law d n s s' j : fs_ok s -> i_create d n s = Ok (s', inl j) ->
    fs_ok s' /\ extends s s' /\ i_lookup d n s' = Ok (s', inl j) /\ exists t, file_type j s' = Ok t /\ t <> Directory;
  symlink_law d n target s s' j : fs_ok s -> i_symlink d n target s = Ok (s', inl j) ->
    fs_ok s' /\ extends s s' /\ i_lookup d n s' = Ok (s', inl j) /\ file_type j s' = Ok Symlink /\
    i_readlink j s' = Ok (s', inl target);
}.

(** [Filesystem::root]. *)
Definition root_law (e : MountEntry (S := S) (I := I)) : Prop :=
  (forall s s' r, fs_root e s = Ok (s', r) -> s' = s /\ forall x, r = inr x -> 0 < x) /\
  (forall s s' i, extends s s' -> fs_root e s = Ok (s, inl i) -> fs_root e s' = Ok (s', inl i)).

Context `{!FsLaws}.

Lemma extends_refl s : extends s s.
Proof. by constructor. Qed.

Lemma extends_trans s1 s2 s3 : extends s1 s2 -> extends s2 s3 -> extends s1 s3.
Proof. intros [L1 T1 R1] [L2 T2 R2]. constructor; eauto. Qed.

Lemma reads_inv {A} (f : S -> may_panic A) s s' r : reads f s = Ok (s', r) -> s' = s /\ exists a, f s = Ok a /\ r = inl a.
Proof. unfold reads, mbind, outcome_bind. destruct (f s) as [a|[]|]; [|done]. intros [= <- <-]. eauto. Qed.

(** *** Resolution only reads *)

Definition pure_op (m : bytes -> Fs S I) : Prop := forall p s s' r, m p s = Ok (s', r) -> s' = s.

Lemma walk_pure follow p ff consumed rest node s s' r : (forall m, follow = Some m -> pure_op m) ->
  walk follow p ff consumed rest node s = Ok (s', r) -> s' = s.
Proof.
  intros Hf. revert consumed node. induction rest as [|c rest IH]; intros consumed node; cbn [walk].
  { by intros [= <- _]. }
  case_bool_decide; [apply IH|]. case_bool_decide; [by intros [= <- _]|].
  intros [(s1 & n1 & Hl & Hrun)|(e & Hl & _)]%fs_bind_inv; [|by apply lookup_pure in Hl].
  apply lookup_pure in Hl as ->. apply fs_bind_inv in Hrun as [(s1 & t & Ht & Hrun)|(e & Ht & _)]; [|by apply reads_inv in Ht as [-> _]].
  apply reads_inv in Ht as [-> _]. case_match; [|by eapply IH]. destruct follow as [m|]; [|by injection Hrun].
  apply fs_bind_inv in Hrun as [(s1 & tg & Hr & Hrun)|(e & Hr & _)]; [|by apply readlink_pure in Hr].
  apply readlink_pure in Hr as ->. apply fs_bind_inv in Hrun as [(s1 & n2 & Hr & Hrun)|(e & Hr & _)]; [|by apply Hf in Hr].
  apply Hf in Hr as ->; [|done]. by eapply IH.
Qed.

Lemma resolve_pure table hops path ff s s' r : Forall root_law table ->
  resolve_inner table hops path ff s = Ok (s', r) -> s' = s.
Proof.
  intros Ht. revert path s s' r. induction hops as [|hops IH]; intros path s s' r; cbn [resolve_inner];
    (case_match; [by intros [= <- _]|]); (destruct (find_mount table path) as [e|] eqn:Hm; [|by intros [= <- _]]);
    assert (root_law e) as [Hp _] by (apply (proj1 (Forall_forall _ _) Ht); unfold find_mount in Hm; apply fmap_Some in Hm as ([i e0] & Hf & ->);
      apply list_find_Some in Hf as [Hf _]; by eapply list_elem_of_lookup_2);
    (intros [(s1 & e1 & He & Hrun)|(? & ? & _)]%fs_bind_inv; [|done]); injection He as <- <-;
    (apply fs_bind_inv in Hrun as [(s1 & n & Hr & Hrun)|(x & Hr & _)]; [|by apply Hp in Hr as [-> _]]);
    apply Hp in Hr as [-> _]; (eapply walk_pure; [|exact Hrun]); intros m [= <-]; intros ????; apply IH.
Qed.

(** The errors of resolution are error numbers. *)
Lemma walk_errno follow p ff consumed rest node s s' e : (forall m, follow = Some m -> forall q s s' e, m q s = Ok (s', inr e) -> 0 < e) ->
  walk follow p ff consumed rest node s = Ok (s', inr e) -> 0 < e.
Proof.
  intros Hf. revert consumed node s. induction rest as [|c rest IH]; intros consumed node s; cbn [walk]; [done|].
  case_bool_decide; [apply IH|]. case_bool_decide; [by intros [= _ <-]|].
  intros [(s1 & n1 & Hl & Hrun)|(e1 & Hl & [= <-])]%fs_bind_inv; [|by eapply lookup_errno].
  apply fs_bind_inv in Hrun as [(s2 & t & Ht & Hrun)|(e1 & Ht & _)]; [|by apply reads_inv in Ht as (_ & ? & _ & [=])].
  case_match; [|by eapply IH]. destruct follow as [m|]; [|by injection Hrun as _ <-].
  apply fs_bind_inv in Hrun as [(s3 & tg & Hr & Hrun)|(e1 & Hr & [= <-])]; [|by eapply readlink_errno].
  apply fs_bind_inv in Hrun as [(s4 & n2 & Hr2 & Hrun)|(e1 & Hr2 & [= <-])]; [by eapply IH|by eapply Hf].
Qed.

Lemma find_mount_elem (table : list (MountEntry (S := S) (I := I))) path e : find_mount table path = Some e -> e ∈ table.
Proof.
  unfold find_mount. intros ([i e0] & Hf & ->)%fmap_Some. apply list_find_Some in Hf as [Hf _]. by eapply list_elem_of_lookup_2.
Qed.

Lemma resolve_errno table hops path ff s s' e : Forall root_law table ->
  resolve_inner table hops path ff s = Ok (s', inr e) -> 0 < e.
Proof.
  intros Ht. revert path s s' e. induction hops as [|hops IH]; intros path s s' e; cbn [resolve_inner];
    (case_match; [by intros [= _ <-]|]); (destruct (find_mount table path) as [en|] eqn:Hm; [|by intros [= _ <-]]);
    assert (root_law en) as [Hp _] by (by apply (proj1 (Forall_forall _ _) Ht), (find_mount_elem table path));
    (intros [(s1 & e1 & He & Hrun)|(? & ? & _)]%fs_bind_inv; [|done]); injection He as <- <-;
    (apply fs_bind_inv in Hrun as [(s1 & n & Hr & Hrun)|(x & Hr & [= <-])]; [|by eapply Hp in Hr as [_ Hr]; eapply Hr]);
    (eapply walk_errno; [|exact Hrun]); intros m [= <-]; intros ????; apply IH.
Qed.

(** *** What resolved keeps resolving *)

Lemma walk_mono follow follow' p ff consumed rest node s s' j : extends s s' ->
  (forall m, follow = Some m -> pure_op m /\ exists m', follow' = Some m' /\ forall q i, m q s = Ok (s, inl i) -> m' q s' = Ok (s', inl i)) ->
  walk follow p ff consumed rest node s = Ok (s, inl j) -> walk follow' p ff consumed rest node s' = Ok (s', inl j).
Proof.
  intros Hext Hf. revert consumed node. induction rest as [|c rest IH]; intros consumed node; cbn [walk].
  { by intros [= ->]. }
  case_bool_decide; [apply IH|]. case_bool_decide; [done|].
  intros (s1 & n1 & Hl & Hrun)%fs_bind_inl. pose proof (lookup_pure _ _ _ _ _ Hl) as ->.
  apply fs_bind_inl in Hrun as (s1 & t & Ht & Hrun). apply reads_inv in Ht as (-> & t' & Ht & [= <-]).
  erewrite fs_run by by eapply ext_lookup. erewrite fs_run; [|unfold reads; by erewrite ext_type by done].
  case_match; [|by eapply IH]. destruct follow as [m|]; [|done]. destruct (Hf m eq_refl) as (Hpm & m' & -> & Hm).
  apply fs_bind_inl in Hrun as (s1 & tg & Hr & Hrun). pose proof (readlink_pure _ _ _ _ Hr) as ->.
  apply fs_bind_inl in Hrun as (s1 & n2 & Hr2 & Hrun). pose proof (Hpm _ _ _ _ Hr2) as ->.
  erewrite fs_run by by eapply ext_readlink. erewrite fs_run by by eapply Hm. by eapply IH.
Qed.

Lemma resolve_mono table hops path ff s s' j : Forall root_law table -> extends s s' ->
  resolve_inner table hops path ff s = Ok (s, inl j) -> resolve_inner table hops path ff s' = Ok (s', inl j).
Proof.
  intros Ht Hext. revert path j. induction hops as [|hops IH]; intros path j; cbn [resolve_inner];
    (case_match; [done|]); (destruct (find_mount table path) as [e|] eqn:Hm; [|done]);
    assert (root_law e) as [Hp Hx] by (by apply (proj1 (Forall_forall _ _) Ht), (find_mount_elem table path));
    (intros (s1 & e1 & He & Hrun)%fs_bind_inl); injection He as <- <-;
    apply fs_bind_inl in Hrun as (s1 & n & Hr & Hrun); pose proof (proj1 (Hp _ _ _ Hr)) as ->;
    (erewrite fs_run by done); (erewrite fs_run by by eapply Hx); (eapply walk_mono; [done| |exact Hrun]).
  - done.
  - intros m [= <-]. split; [intros ????; by apply resolve_pure|]. eexists. split; [done|]. intros q i. apply IH.
Qed.

(** *** A path is its parent and one more component *)

Lemma walk_app follow p consumed cs ds node s :
  walk follow p true consumed (cs ++ ds) node s = (walk follow p true consumed cs node ≫= walk follow p true (consumed ++ cs) ds) s.
Proof.
  revert consumed node s. induction cs as [|c cs IH]; intros consumed node s; [by rewrite app_nil_r|].
  cbn [app walk]. replace (consumed ++ c :: cs) with ((consumed ++ [c]) ++ cs) by by rewrite <- app_assoc.
  case_bool_decide; [apply IH|]. case_bool_decide; [done|]. unfold mbind, fs_bind.
  destruct (i_lookup node c s) as [[s1 [n1|e]]|[]|]; [|done..]. destruct (reads _ _) as [[s2 [t|e]]|[]|]; [|done..].
  rewrite !orb_true_r, !andb_true_r. case_bool_decide; [|apply IH]. destruct follow as [m|]; [|done].
  destruct (i_readlink n1 s2) as [[s3 [tg|e]]|[]|]; [|done..]. destruct (m _ _) as [[s4 [n2|e]]|[]|]; [|done..]. apply IH.
Qed.

(** Resolving below a parent that resolves, at a path that is no mount point. *)
Lemma resolve_snoc table qs c s d j t : table_ok table -> Forall root_law table -> Forall name_comp qs -> name_comp c ->
  (forall e, e ∈ table -> prefix e <> abs_path (qs ++ [c])) ->
  resolve table (abs_path qs) s = Ok (s, inl d) ->
  i_lookup d c s = Ok (s, inl j) -> file_type j s = Ok t -> t <> Symlink ->
  resolve table (abs_path (qs ++ [c])) s = Ok (s, inl j).
Proof.
  intros Htab Hroots Hqs Hc Hnm Hd Hl Ht Hns. unfold resolve in *. change MAX_SYMLINK_HOPS with 8%nat in *. cbn [resolve_inner] in *.
  change (is_absolute (abs_path (qs ++ [c]))) with (is_absolute (ROOT ++ join (qs ++ [c]))). rewrite is_absolute_abs.
  change (is_absolute (abs_path qs)) with (is_absolute (ROOT ++ join qs)) in Hd. rewrite is_absolute_abs in Hd. cbn [negb] in *.
  rewrite find_mount_same by done. destruct (find_mount table (abs_path qs)) as [e|] eqn:Hm; [|done].
  pose proof (find_mount_elem _ _ _ Hm) as Hin. pose proof (proj1 (Forall_forall _ _) (proj2 Htab) e Hin) as (ps & Hps & He).
  assert (ps `prefix_of` qs) as Hpre.
  { apply (mount_matches_clean e ps qs He Hps Hqs). apply fmap_Some in Hm as ([i e0] & Hf & ->). by apply list_find_Some in Hf as (_ & Hf & _). }
  apply fs_bind_inl in Hd as (s1 & e1 & He1 & Hd). injection He1 as <- <-. erewrite fs_run by done.
  apply fs_bind_inl in Hd as (s1 & n & Hr & Hd). pose proof (proj1 (proj1 (proj1 (Forall_forall _ _) Hroots e Hin) _ _ _ Hr)) as ->.
  erewrite fs_run by done.
  rewrite (mount_rel_clean e ps qs) in Hd by done.
  assert (Forall name_comp (qs ++ [c])) by (apply Forall_app; split; [done|by constructor]).
  assert (ps `prefix_of` qs ++ [c]) by by apply prefix_app_r.
  rewrite (mount_rel_clean e ps (qs ++ [c])) by done.
  rewrite drop_app_le by (by apply prefix_length). rewrite walk_app. erewrite fs_run by exact Hd.
  destruct Hc as (_ & Hdot & Hdd). cbn [walk]. rewrite !bool_decide_false by done. erewrite fs_run by done.
  erewrite fs_run; [|unfold reads; by rewrite Ht]. by rewrite bool_decide_false.
Qed.

End laws.

End Vfs.
