(* ===== verification/RamFs.v ===== *)
(** The in-memory file system mounted at [/tmp] ([kernel/src/fs/ramfs.rs]).

    The nodes live in a heap: an [Arc<RamDirNode>], [Arc<RamFileNode>] or
    [Arc<RamSymlinkNode>] is its index there, and the position that
    [dup]-related handles share is an index into [offsets].  A directory holds
    [Arc<dyn Inode>]s, which may be nodes of this file system ([Own]) or of
    another one ([Foreign]; [insert_child] does not look).  [BTreeMap] iterates
    in the order of the keys ([sorted_entries]).

    A [Box<dyn FileHandle>] of this file system is a [RamHandle].  An index
    that is not in the heap cannot occur in the source (an [Arc] keeps its node
    alive); the operations are [Panic] there, and [ram_ok] excludes it. *)

From Stdlib Require Import ZArith Lia.
From stdpp Require Import base numbers gmap list sorting.
From S2P Require Import Prelude Bits Bytes FsTypes Path Vfs.

Local Open Scope Z_scope.

Module RamFs.
Import Bytes FsTypes Path Vfs.

(** ** The heap *)

(** The inodes [F] of the other file systems, over their state [O], and what
    this one asks of them: [stat().st_ino], [file_type()],
    [readdir(2)?.is_some()], and [insert_child] with a node that is not theirs. *)
Class ForeignInode (O F : Type) := {
  foreign_ino : F -> Z;
  foreign_type : F -> FileType;
  foreign_has_entries : F -> Fs O bool;
  foreign_insert_alien : F -> bytes -> Fs O unit;
}.

Section ramfs.
Context {O F : Type} `{ForeignInode O F}.

Inductive Child := Own (id : nat) | Foreign (f : F).

Record RamDirNode := mkRamDir { d_ino : Z; entries : gmap bytes Child; d_mode : Z }.
Record RamFileNode := mkRamFile { f_ino : Z; data : bytes; f_mode : Z }.
Record RamSymlinkNode := mkRamSymlink { l_ino : Z; target : bytes }.

Inductive Node := ADir (d : RamDirNode) | AFile (f : RamFileNode) | ALink (l : RamSymlinkNode).

(** The heap, the counter, the shared positions, and the other file systems. *)
Record RamState := mkRam { nodes : gmap nat Node; NEXT_INO : Z; offsets : list Z; others : O }.
#[global] Instance RamState_fields : Fields RamState := fun r => mkRam (nodes r) (NEXT_INO r) (offsets r) (others r).

Definition ROOT_INO : Z := 1.
Definition root_id : nat := 0.

Definition new_dir (ino : Z) : RamDirNode := mkRamDir ino ∅ 493.

(** [RamFs::new], with the counter as it is at boot. *)
Definition ramfs_new (o : O) : RamState := mkRam {[ root_id := ADir (new_dir ROOT_INO) ]} (ROOT_INO + 1) [] o.
Definition ramfs_root : Fs RamState Child := mret (Own root_id).

(** An operation of another file system. *)
Definition on_others {A} (m : Fs O A) : Fs RamState A := fun s =>
  match m (others s) with
  | Ok (o1, r) => Ok (s <| others := o1 |>, r)
  | Err e => match e with end
  | Panic => Panic
  end.

(** [NEXT_INO.fetch_add(1)]. *)
Definition alloc_ino : Fs RamState Z := fun s =>
  Ok (s <| NEXT_INO := wrap 64 (NEXT_INO s + 1) |>, inl (NEXT_INO s)).

(** [Arc::new]: an index that is not in use. *)
Definition new_node (n : Node) : Fs RamState nat := fun s =>
  let id := fresh (dom (nodes s)) in Ok (s <| nodes := <[id := n]> (nodes s) |>, inl id).

Definition get_node (id : nat) : Fs RamState Node := fun s => n ← unwrap (nodes s !! id); Ok (s, inl n).
Definition put_node (id : nat) (n : Node) : Fs RamState unit := fun s => Ok (s <| nodes := <[id := n]> (nodes s) |>, inl ()).
(** The directory [id], or what the trait's default body answers. *)
Definition dir_node {A} (id : nat) (default : Fs RamState A) (f : RamDirNode -> Fs RamState A) : Fs RamState A :=
  n ← get_node id;
  match n with ADir d => f d | _ => default end.

Definition set_entries (id : nat) (d : RamDirNode) (m : gmap bytes Child) : Fs RamState unit :=
  put_node id (ADir (mkRamDir (d_ino d) m (d_mode d))).

(** ** Types and metadata *)

Definition node_type (n : Node) : FileType :=
  match n with ADir _ => Directory | AFile _ => Regular | ALink _ => Symlink end.
Definition node_ino (n : Node) : Z := match n with ADir d => d_ino d | AFile f => f_ino f | ALink l => l_ino l end.

(** [file_type()] and [stat().st_ino] of an entry: the type bits of a mode do
    not depend on the rest of the metadata ([node_type_stat]). *)
Definition child_type (s : RamState) (c : Child) : may_panic FileType :=
  match c with Own id => n ← unwrap (nodes s !! id); Ok (node_type n) | Foreign f => Ok (foreign_type f) end.
Definition child_ino (s : RamState) (c : Child) : may_panic Z :=
  match c with Own id => n ← unwrap (nodes s !! id); Ok (node_ino n) | Foreign f => Ok (foreign_ino f) end.

Definition is_dir_child (s : RamState) (c : Child) : bool :=
  match child_type s c with Ok Directory => true | _ => false end.

(** [Inode::stat]. *)
Definition node_stat (s : RamState) (n : Node) : may_panic Stat :=
  match n with
  | ADir d =>
      let nlink := 2 + Z.of_nat (length (filter (fun e => is_dir_child s e.2 = true) (map_to_list (entries d)))) in
      Ok (with_nlink (with_perm_bits (stat_dir (d_ino d)) (d_mode d)) nlink)
  | AFile f => st ← stat_regular_writable (f_ino f) (size (data f)); Ok (with_perm_bits st (f_mode f))
  | ALink l => Ok (stat_symlink (l_ino l) (size (target l)))
  end.

(** ** Directories *)

(** The order of [BTreeMap<String, _>]: byte-wise lexicographic. *)
Fixpoint bytes_leb (a b : bytes) : bool :=
  match a, b with
  | [], _ => true
  | _ :: _, [] => false
  | x :: a', y :: b' => if x <? y then true else if y <? x then false else bytes_leb a' b'
  end.
Definition key_le (a b : bytes * Child) : Prop := bytes_leb a.1 b.1 = true.
#[global] Instance key_le_dec a b : Decision (key_le a b) := decide (bytes_leb a.1 b.1 = true).
Definition sorted_entries (m : gmap bytes Child) : list (bytes * Child) := merge_sort key_le (map_to_list m).

(** [DirEntry::new(node.stat().st_ino, node.file_type(), name.as_bytes())]. *)
Definition listed (s : RamState) (e : bytes * Child) : may_panic DirEntry :=
  ino ← child_ino s e.2; kind ← child_type s e.2; Ok (new_entry ino kind e.1).

Definition dots (d : RamDirNode) : list DirEntry := [new_entry (d_ino d) Directory DOT; new_entry (d_ino d) Directory DOTDOT].

Fixpoint listing (s : RamState) (es : list (bytes * Child)) : may_panic (list DirEntry) :=
  match es with [] => Ok [] | e :: es' => x ← listed s e; xs ← listing s es'; Ok (x :: xs) end.

Definition readdir (id : nat) (offset : Z) : Fs RamState (option DirEntry) :=
  dir_node id not_a_directory (fun d s =>
    if offset =? 0 then Ok (s, inl (dots d !! 0%nat))
    else if offset =? 1 then Ok (s, inl (dots d !! 1%nat))
    else match sorted_entries (entries d) !! Z.to_nat (offset - 2) with
         | None => Ok (s, inl None)
         | Some e => x ← listed s e; Ok (s, inl (Some x))
         end).

Definition lookup (id : nat) (name : bytes) : Fs RamState Child :=
  dir_node id not_a_directory (fun d => ok_or ENOENT (entries d !! name)).

Definition create (id : nat) (name : bytes) : Fs RamState Child :=
  dir_node id readonly (fun d =>
    match entries d !! name with
    | Some existing =>
        t ← reads (fun s => child_type s existing);
        if bool_decide (t = Directory) then err EISDIR else mret existing
    | None =>
        ino ← alloc_ino;
        node ← new_node (AFile (mkRamFile ino [] 420));
        _ ← set_entries id d (<[name := Own node]> (entries d));
        mret (Own node)
    end).

Definition mkdir (id : nat) (name : bytes) : Fs RamState Child :=
  dir_node id readonly (fun d =>
    match entries d !! name with
    | Some _ => err EEXIST
    | None =>
        ino ← alloc_ino;
        node ← new_node (ADir (new_dir ino));
        _ ← set_entries id d (<[name := Own node]> (entries d));
        mret (Own node)
    end).

Definition unlink (id : nat) (name : bytes) : Fs RamState unit :=
  dir_node id readonly (fun d =>
    match entries d !! name with
    | None => err ENOENT
    | Some node =>
        t ← reads (fun s => child_type s node);
        if bool_decide (t = Directory) then err EISDIR else set_entries id d (delete name (entries d))
    end).

(** [node.readdir(2)?.is_some()]. *)
Definition has_entries (node : Child) : Fs RamState bool :=
  match node with
  | Own id => r ← readdir id 2; mret (bool_decide (r <> None))
  | Foreign f => on_others (foreign_has_entries f)
  end.

Definition rmdir (id : nat) (name : bytes) : Fs RamState unit :=
  dir_node id readonly (fun d =>
    match entries d !! name with
    | None => err ENOENT
    | Some node =>
        t ← reads (fun s => child_type s node);
        if negb (bool_decide (t = Directory)) then err ENOTDIR else
        some ← has_entries node;
        if some : bool then err ENOTEMPTY else set_entries id d (delete name (entries d))
    end).

Definition take_child (id : nat) (name : bytes) : Fs RamState Child :=
  dir_node id readonly (fun d =>
    match entries d !! name with
    | None => err ENOENT
    | Some node => _ ← set_entries id d (delete name (entries d)); mret node
    end).

Definition insert_child (id : nat) (name : bytes) (node : Child) : Fs RamState unit :=
  dir_node id readonly (fun d =>
    match entries d !! name with
    | Some _ => err EEXIST
    | None => set_entries id d (<[name := node]> (entries d))
    end).

Definition symlink (id : nat) (name tgt : bytes) : Fs RamState Child :=
  dir_node id readonly (fun d =>
    match entries d !! name with
    | Some _ => err EEXIST
    | None =>
        ino ← alloc_ino;
        node ← new_node (ALink (mkRamSymlink ino tgt));
        _ ← set_entries id d (<[name := Own node]> (entries d));
        mret (Own node)
    end).

Definition readlink (id : nat) : Fs RamState bytes :=
  n ← get_node id;
  match n with ALink l => mret (target l) | _ => not_a_symlink end.

(** [0o7777]. *)
Definition chmod (id : nat) (mode : Z) : Fs RamState unit :=
  n ← get_node id;
  match n with
  | ADir d => put_node id (ADir (mkRamDir (d_ino d) (entries d) (Z.land mode 4095)))
  | AFile f => put_node id (AFile (mkRamFile (f_ino f) (data f) (Z.land mode 4095)))
  | ALink _ => mret ()
  end.

(** ** Handles *)

Inductive RamHandle :=
| RamFileHandle (h_ino : Z) (h_node : nat) (h_offset : nat)
| RamDirHandle (snapshot : list DirEntry) (offset : Z).

(** [Arc::new(Mutex::new(offset))]. *)
Definition new_offset (off : Z) : Fs RamState nat := fun s =>
  Ok (s <| offsets := offsets s ++ [off] |>, inl (length (offsets s))).

Definition open (id : nat) (flags : Z) : Fs RamState RamHandle :=
  n ← get_node id;
  match n with
  | ADir d => es ← reads (fun s => listing s (sorted_entries (entries d))); mret (RamDirHandle (dots d ++ es) 0)
  | AFile f =>
      let f1 := if negb (Z.land flags TRUNC =? 0) then mkRamFile (f_ino f) [] (f_mode f) else f in
      _ ← put_node id (AFile f1);
      off ← new_offset (if negb (Z.land flags APPEND =? 0) then size (data f1) else 0);
      mret (RamFileHandle (f_ino f) id off)
  | ALink _ => err EINVAL
  end.

(** The file and the position of a handle. *)
Definition file_of (s : RamState) (node off : nat) : may_panic (RamFileNode * Z) :=
  n ← unwrap (nodes s !! node);
  o ← unwrap (offsets s !! off);
  match n with AFile f => Ok (f, o) | _ => Panic end.

Definition set_file (s : RamState) (node : nat) (f : RamFileNode) (d : bytes) : RamState :=
  s <| nodes := <[node := AFile (mkRamFile (f_ino f) d (f_mode f))]> (nodes s) |>.
Definition set_offset (s : RamState) (off : nat) (o : Z) : RamState := s <| offsets := <[off := o]> (offsets s) |>.

(** [Vec::resize(n, 0)], growing. *)
Definition resize (n : Z) (l : bytes) : bytes := l ++ replicate (Z.to_nat (n - size l)) 0.

Definition handle_read (h : RamHandle) (len : Z) (s : RamState) : may_panic (RamState * RamHandle * (bytes + FileError)) :=
  match h with
  | RamFileHandle _ node off =>
      fo ← file_of s node off;
      let '(f, o) := fo in
      if size (data f) <=? o then Ok (s, h, inl []) else
      let n := Z.min len (size (data f) - o) in
      bs ← get o n (data f);
      Ok (set_offset s off (o + n), h, inl bs)
  | RamDirHandle _ _ => Ok (s, h, inr InvalidArgument)
  end.

Definition handle_write (h : RamHandle) (buf : bytes) (s : RamState) : may_panic (RamState * RamHandle * (Z + FileError)) :=
  match h with
  | RamFileHandle _ node off =>
      fo ← file_of s node off;
      let '(f, o) := fo in
      end_ ← chk 64 (o + size buf);
      let d := if size (data f) <? end_ then resize end_ (data f) else data f in
      d ← put o buf d;
      Ok (set_offset (set_file s node f d) off end_, h, inl (size buf))
  | RamDirHandle _ _ => Ok (s, h, inr InvalidArgument)
  end.

Definition handle_stat (h : RamHandle) (s : RamState) : may_panic (option Stat) :=
  match h with
  | RamFileHandle ino node off =>
      fo ← file_of s node off;
      st ← stat_regular_writable ino (size (data fo.1));
      Ok (Some (with_perm_bits st (f_mode fo.1)))
  | RamDirHandle _ _ => Ok (Some (stat_dir ROOT_INO))
  end.

Definition handle_getdents64 (h : RamHandle) (buf : bytes) (s : RamState) : may_panic (RamState * RamHandle * (bytes * Z)) :=
  match h with
  | RamFileHandle _ _ _ => Ok (s, h, (buf, errno_i64 ENOTDIR))
  | RamDirHandle snapshot offset =>
      r ← getdents64_from_snapshot snapshot offset buf;
      let '(buf', offset', n) := r in
      Ok (s, RamDirHandle snapshot offset', (buf', n))
  end.

Definition handle_dup (h : RamHandle) (s : RamState) : may_panic (RamState * option RamHandle) :=
  match h with RamFileHandle _ _ _ => Ok (s, Some h) | RamDirHandle _ _ => Ok (s, None) end.

Definition handle_seek (h : RamHandle) (offset whence : Z) (s : RamState) : may_panic (RamState * RamHandle * (Z + FileError)) :=
  match h with
  | RamFileHandle _ node off =>
      fo ← file_of s node off;
      let '(f, o) := fo in
      match compute_seek (as_i64 o) (size (data f)) offset whence with
      | inl new_pos => Ok (set_offset s off new_pos, h, inl new_pos)
      | inr e => Ok (s, h, inr e)
      end
  | RamDirHandle _ _ => Ok (s, h, inr NotSupported)
  end.

Definition handle_chmod (h : RamHandle) (mode : Z) (s : RamState) : may_panic (RamState * RamHandle * (unit + FileError)) :=
  match h with
  | RamFileHandle _ node off =>
      fo ← file_of s node off;
      Ok (s <| nodes := <[node := AFile (mkRamFile (f_ino fo.1) (data fo.1) (Z.land mode 4095))]> (nodes s) |>, h, inl ())
  | RamDirHandle _ _ => Ok (s, h, inl ())
  end.

End ramfs.
Global Arguments Child : clear implicits.
Global Arguments Node : clear implicits.
Global Arguments RamDirNode : clear implicits.
Global Arguments RamState : clear implicits.

(** ** The traits *)

Section instances.
Context {O F HO : Type} `{!ForeignInode O F} `{!Inodes O F HO} `{!FileHandles O HO}.

(** [Arc<dyn Inode>] dispatches on what it points to. *)
#[global] Instance ram_inodes : Inodes (RamState O F) (Child F) (RamHandle + HO) := {
  i_stat c s :=
    match c with Own id => n ← unwrap (nodes s !! id); node_stat s n | Foreign f => i_stat f (others s) end;
  i_open c flags :=
    match c with Own id => h ← open id flags; mret (inl h) | Foreign f => h ← on_others (i_open f flags); mret (inr h) end;
  i_lookup c name :=
    match c with Own id => lookup id name | Foreign f => g ← on_others (i_lookup f name); mret (Foreign g) end;
  i_create c name :=
    match c with Own id => create id name | Foreign f => g ← on_others (i_create f name); mret (Foreign g) end;
  i_mkdir c name :=
    match c with Own id => mkdir id name | Foreign f => g ← on_others (i_mkdir f name); mret (Foreign g) end;
  i_unlink c name := match c with Own id => unlink id name | Foreign f => on_others (i_unlink f name) end;
  i_rmdir c name := match c with Own id => rmdir id name | Foreign f => on_others (i_rmdir f name) end;
  i_take_child c name :=
    match c with Own id => take_child id name | Foreign f => g ← on_others (i_take_child f name); mret (Foreign g) end;
  i_insert_child c name node :=
    match c, node with
    | Own id, _ => insert_child id name node
    | Foreign f, Foreign g => on_others (i_insert_child f name g)
    | Foreign f, Own _ => on_others (foreign_insert_alien f name)
    end;
  i_readlink c := match c with Own id => readlink id | Foreign f => on_others (i_readlink f) end;
  i_symlink c name tgt :=
    match c with Own id => symlink id name tgt | Foreign f => g ← on_others (i_symlink f name tgt); mret (Foreign g) end;
  i_chmod c mode := match c with Own id => chmod id mode | Foreign f => on_others (i_chmod f mode) end;
}.

(** A handle of another file system runs on that state. *)
Definition other_handle {A} (m : HO -> O -> may_panic (O * HO * A)) (h : HO) (s : RamState O F)
    : may_panic (RamState O F * (RamHandle + HO) * A) :=
  r ← m h (others s); Ok (s <| others := r.1.1 |>, inr r.1.2, r.2).
Definition ram_handle {A} (m : RamState O F -> may_panic (RamState O F * RamHandle * A)) (s : RamState O F)
    : may_panic (RamState O F * (RamHandle + HO) * A) :=
  r ← m s; Ok (r.1.1, inl r.1.2, r.2).

Definition any_dup (h : RamHandle + HO) (s : RamState O F) : may_panic (RamState O F * option (RamHandle + HO)) :=
  match h with
  | inl h => r ← handle_dup h s; Ok (r.1, option_map inl r.2)
  | inr h => r ← h_dup h (others s); Ok (s <| others := r.1 |>, option_map inr r.2)
  end.
Definition any_drop (h : RamHandle + HO) (s : RamState O F) : may_panic (RamState O F) :=
  match h with inl _ => Ok s | inr h => o ← h_drop h (others s); Ok (s <| others := o |>) end.

(** ["ramfs"], ["ramfs/dir"]. *)
Definition ram_handle_name (h : RamHandle) : bytes :=
  match h with RamFileHandle _ _ _ => [114; 97; 109; 102; 115] | RamDirHandle _ _ => [114; 97; 109; 102; 115; 47; 100; 105; 114] end.

#[global] Instance ram_handles : FileHandles (RamState O F) (RamHandle + HO) := {
  h_read h len s := match h with inl h => ram_handle (handle_read h len) s | inr h => other_handle (fun h => h_read h len) h s end;
  h_write h buf s := match h with inl h => ram_handle (handle_write h buf) s | inr h => other_handle (fun h => h_write h buf) h s end;
  h_close h s := match h with inl _ => Ok (s, h, inl ()) | inr h => other_handle h_close h s end;
  h_stat h s := match h with inl h => handle_stat h s | inr h => h_stat h (others s) end;
  h_getdents64 h buf s :=
    match h with inl h => ram_handle (handle_getdents64 h buf) s | inr h => other_handle (fun h => h_getdents64 h buf) h s end;
  h_dup := any_dup;
  h_seek h off wh s := match h with inl h => ram_handle (handle_seek h off wh) s | inr h => other_handle (fun h => h_seek h off wh) h s end;
  h_chmod h mode s := match h with inl h => ram_handle (handle_chmod h mode) s | inr h => other_handle (fun h => h_chmod h mode) h s end;
  h_name h := match h with inl h => ram_handle_name h | inr h => h_name h end;
  h_drop := any_drop;
}.

End instances.
End RamFs.
