(* ===== verification/RamFsInv.v ===== *)
(** Invariants of the in-memory file system: the directory tree stays well
    formed ([ram_ok]), open files survive [unlink] ([handle_ok]), and the file
    system keeps the promises of [FsLaws] to the VFS. *)

From Stdlib Require Import ZArith Lia.
From stdpp Require Import base numbers gmap list sorting.
From S2P Require Import Prelude Bits Bytes FsTypes Path Vfs RamFs.

Local Open Scope Z_scope.

Module RamFsInv.
Import Bytes FsTypes Path Vfs RamFs.

Section inv.
Context {O F : Type} `{!ForeignInode O F}.
Implicit Types (s : RamState O F) (d : RamDirNode F) (c : Child F) (id : nat) (name : bytes).

(** ** The tree *)

(** Directory [id] has the entry [name], for [c]. *)
Definition linked s id name c : Prop := exists d, nodes s !! id = Some (ADir d) /\ entries d !! name = Some c.

(** The root is a directory that no entry names; entries name live nodes; a
    node has at most one entry (there are no hard links). *)
Record ram_ok s : Prop := {
  ok_root : exists d, nodes s !! root_id = Some (ADir d);
  ok_closed id name j : linked s id name (Own j) -> is_Some (nodes s !! j);
  ok_single i1 n1 i2 n2 j : linked s i1 n1 (Own j) -> linked s i2 n2 (Own j) -> i1 = i2 /\ n1 = n2;
  ok_root_free id name : ~ linked s id name (Own root_id);
}.

(** Inode numbers are distinct. *)
Record inos_ok s : Prop := {
  ino_next : 2 <= NEXT_INO s < 2 ^ 64;
  ino_bound id n : nodes s !! id = Some n -> 1 <= node_ino n < NEXT_INO s;
  ino_inj i j n m : nodes s !! i = Some n -> nodes s !! j = Some m -> node_ino n = node_ino m -> i = j;
}.

(** A handle on a file of the heap. *)
Definition handle_ok s (h : RamHandle) : Prop :=
  match h with
  | RamFileHandle ino node off =>
      exists f o, nodes s !! node = Some (AFile f) /\ offsets s !! off = Some o /\ f_ino f = ino /\ 0 <= o < 2 ^ 64
  | RamDirHandle snapshot offset => 0 <= offset
  end.

Lemma ram_new_ok (o : O) : ram_ok (ramfs_new (F := F) o) /\ inos_ok (ramfs_new (F := F) o).
Proof.
  assert (forall id n, nodes (ramfs_new (F := F) o) !! id = Some n -> id = 0%nat /\ n = ADir (new_dir ROOT_INO)) as Hn.
  { intros id n Hi. cbn in Hi. by apply lookup_singleton_Some in Hi as [<- <-]. }
  assert (forall id name c, ~ linked (ramfs_new (F := F) o) id name c) as Hl.
  { intros id name c (d & [_ [= ->]]%Hn & Hd). cbn in Hd. by rewrite lookup_empty in Hd. }
  split; constructor; intros.
  - by eexists.
  - by apply Hl in H.
  - by apply Hl in H.
  - by apply Hl.
  - cbn. unfold ROOT_INO. lia.
  - apply Hn in H as [_ ->]. cbn. unfold ROOT_INO. lia.
  - by apply Hn in H as [-> _], H0 as [-> _].
Qed.

(** ** Changing a directory *)

Definition with_entries s id d (m : gmap bytes (Child F)) : RamState O F :=
  s <| nodes := <[id := ADir (mkRamDir (d_ino d) m (d_mode d))]> (nodes s) |>.

Lemma linked_with s id d m i n c : nodes s !! id = Some (ADir d) ->
  linked (with_entries s id d m) i n c <-> (i = id /\ m !! n = Some c) \/ (i <> id /\ linked s i n c).
Proof.
  intros Hd. unfold linked, with_entries. cbn [nodes update_field Fields RamState_fields]. destruct (decide (i = id)) as [->|Hne].
  - split.
    + intros (d' & Hl & He). cbn in Hl. rewrite lookup_insert_eq in Hl. injection Hl as <-. by left.
    + intros [[_ He]|[? _]]; [|done]. eexists. cbn. rewrite lookup_insert_eq. by split.
  - split.
    + intros (d' & Hl & He). cbn in Hl. rewrite lookup_insert_ne in Hl by done. right. split; [done|]. by exists d'.
    + intros [[? _]|[_ (d' & Hl & He)]]; [done|]. exists d'. cbn. by rewrite lookup_insert_ne.
Qed.

Lemma nodes_with s id d m j n : nodes s !! id = Some (ADir d) -> nodes s !! j = Some n ->
  exists n', nodes (with_entries s id d m) !! j = Some n' /\ node_ino n' = node_ino n /\ node_type n' = node_type n.
Proof.
  intros Hd Hj. cbn. destruct (decide (j = id)) as [->|].
  - rewrite lookup_insert_eq. simplify_eq. by eexists.
  - rewrite lookup_insert_ne by done. by eexists.
Qed.

Lemma nodes_with_inv s id d m j n : nodes s !! id = Some (ADir d) -> nodes (with_entries s id d m) !! j = Some n ->
  exists n', nodes s !! j = Some n' /\ node_ino n = node_ino n'.
Proof.
  intros Hd. cbn. destruct (decide (j = id)) as [->|].
  - rewrite lookup_insert_eq. intros [= <-]. by eexists.
  - rewrite lookup_insert_ne by done. by eexists.
Qed.

Lemma with_inos_ok s id d m : nodes s !! id = Some (ADir d) -> inos_ok s -> inos_ok (with_entries s id d m).
Proof.
  intros Hd [Hn Hb Hi]. constructor; [done| |].
  - intros j n (n' & Hj & ->)%nodes_with_inv; [|done]. by eapply Hb.
  - intros i j n n' (a & Ha & Hna)%nodes_with_inv (b & Hb' & Hnb)%nodes_with_inv Heq; [|done..]. eapply Hi; [done..|congruence].
Qed.

(** Removing entries keeps the tree. *)
Lemma delete_entry_ok s id d name : nodes s !! id = Some (ADir d) -> ram_ok s -> ram_ok (with_entries s id d (delete name (entries d))).
Proof.
  intros Hd [Hr Hc Hs Hf].
  assert (forall i n c, linked (with_entries s id d (delete name (entries d))) i n c -> linked s i n c) as Hsub.
  { intros i n c. rewrite linked_with by done. intros [[-> Hl]|[_ Hl]]; [|done]. apply lookup_delete_Some in Hl as [_ Hl]. by exists d. }
  constructor.
  - destruct (decide (root_id = id)) as [<-|]; cbn; [rewrite lookup_insert_eq; by eexists|by rewrite lookup_insert_ne].
  - intros i n j Hl%Hsub. apply Hc in Hl as [nd Hj]. destruct (nodes_with s id d (delete name (entries d)) j nd Hd Hj) as (n' & -> & _). by eexists.
  - intros i1 n1 i2 n2 j Hl1%Hsub Hl2%Hsub. by eapply Hs.
  - intros i n Hl%Hsub. by eapply Hf.
Qed.

(** Adding an entry for a live node that has none keeps the tree. *)
Lemma insert_entry_ok s id d name c : nodes s !! id = Some (ADir d) -> entries d !! name = None -> ram_ok s ->
  (forall j, c = Own j -> is_Some (nodes s !! j) /\ j <> root_id /\ forall i n, ~ linked s i n (Own j)) ->
  ram_ok (with_entries s id d (<[name := c]> (entries d))).
Proof.
  intros Hd Hnone [Hr Hc Hs Hf] Hnew.
  assert (forall i n c', linked (with_entries s id d (<[name := c]> (entries d))) i n c' -> linked s i n c' \/ (i = id /\ n = name /\ c' = c)) as Hsub.
  { intros i n c'. rewrite linked_with by done. intros [[-> Hl]|[_ Hl]]; [|by left].
    apply lookup_insert_Some in Hl as [[<- <-]|[_ Hl]]; [by right|]. left. by exists d. }
  constructor.
  - destruct (decide (root_id = id)) as [<-|]; cbn; [rewrite lookup_insert_eq; by eexists|by rewrite lookup_insert_ne].
  - intros i n j Hl%Hsub.
    assert (is_Some (nodes s !! j)) as [nd Hj] by (destruct Hl as [Hl|(_ & _ & Heq)]; [by eapply Hc|by apply Hnew]).
    destruct (nodes_with s id d (<[name := c]> (entries d)) j nd Hd Hj) as (n' & -> & _). by eexists.
  - intros i1 n1 i2 n2 j [Hl1|(-> & -> & H1)]%Hsub [Hl2|(-> & -> & H2)]%Hsub; [by eapply Hs| | |done].
    + exfalso. by apply (Hnew j) in Hl1.
    + exfalso. by apply (Hnew j) in Hl2.
  - intros i n [Hl|(_ & _ & Heq)]%Hsub; [by eapply Hf|]. by apply (Hnew root_id).
Qed.

(** A new node in the heap. *)
Definition with_node s (j : nat) (n : Node F) (ino : Z) : RamState O F :=
  (s <| NEXT_INO := ino |>) <| nodes := <[j := n]> (nodes s) |>.

Definition leaf_node (n : Node F) : Prop := match n with ADir d => entries d = ∅ | _ => True end.

Lemma linked_with_node s j n ino i name c : nodes s !! j = None -> leaf_node n ->
  linked (with_node s j n ino) i name c <-> linked s i name c.
Proof.
  intros Hj Hn. unfold linked, with_node. cbn. destruct (decide (i = j)) as [->|].
  - rewrite lookup_insert_eq. split.
    + intros (d & [= ->] & Hd). cbn in Hn. by rewrite Hn, lookup_empty in Hd.
    + intros (d & Hd & _). by rewrite Hj in Hd.
  - by rewrite lookup_insert_ne.
Qed.

Lemma with_node_ok s j n ino : nodes s !! j = None -> leaf_node n -> ram_ok s -> ram_ok (with_node s j n ino).
Proof.
  intros Hj Hn [Hr Hc Hs Hf]. constructor.
  - destruct Hr as [d Hd]. exists d. cbn. rewrite lookup_insert_ne; [done|]. by intros ->; rewrite Hj in Hd.
  - intros i name k Hl%linked_with_node%Hc; [|done..]. cbn. destruct Hl as [m Hm].
    rewrite lookup_insert_ne; [by eexists|]. by intros ->; rewrite Hj in Hm.
  - intros i1 n1 i2 n2 k Hl1%linked_with_node Hl2%linked_with_node; [|done..]. by eapply Hs.
  - intros i name Hl%linked_with_node; [|done..]. by eapply Hf.
Qed.

Lemma with_node_inos s j n : nodes s !! j = None -> node_ino n = NEXT_INO s -> NEXT_INO s + 1 < 2 ^ 64 ->
  inos_ok s -> inos_ok (with_node s j n (wrap 64 (NEXT_INO s + 1))).
Proof.
  intros Hj Hn Hlt [Hnx Hb Hi]. unfold wrap. rewrite Z.mod_small by lia. constructor; cbn [with_node NEXT_INO].
  - cbn. lia.
  - intros i m Hm. cbn in *. apply lookup_insert_Some in Hm as [[_ <-]|[_ Hm]]; [lia|]. specialize (Hb _ _ Hm). lia.
  - intros i k m m' Hm Hm' Heq. cbn in *. apply lookup_insert_Some in Hm as [[<- <-]|[Hne Hm]], Hm' as [[<- <-]|[Hne' Hm']]; try done.
    + specialize (Hb _ _ Hm'). lia.
    + specialize (Hb _ _ Hm). lia.
    + by eapply Hi.
Qed.

(** What [create], [mkdir] and [symlink] do when the name is free. *)
Definition add_node s id d name (n : Node F) : RamState O F :=
  let j := fresh (dom (nodes s)) in
  with_entries (with_node s j n (wrap 64 (NEXT_INO s + 1))) id d (<[name := Own j]> (entries d)).

Lemma fresh_node s : nodes s !! fresh (dom (nodes s)) = None.
Proof. apply not_elem_of_dom, is_fresh. Qed.

Lemma with_node_lookup s id n j m ino : nodes s !! id = Some n -> nodes s !! j = None -> nodes (with_node s j m ino) !! id = Some n.
Proof. intros Hd Hj. cbn. rewrite lookup_insert_ne; [done|]. by intros ->; rewrite Hj in Hd. Qed.

Lemma add_node_ok s id d name n : nodes s !! id = Some (ADir d) -> entries d !! name = None -> leaf_node n ->
  ram_ok s -> ram_ok (add_node s id d name n).
Proof.
  intros Hd Hnone Hn Hok. unfold add_node. pose proof (fresh_node s) as Hf. set (j := fresh (dom (nodes s))) in *.
  apply insert_entry_ok; [by apply with_node_lookup|done|by apply with_node_ok|].
  intros k [= <-]. split_and!.
  - cbn. rewrite lookup_insert_eq. by eexists.
  - intros ->. destruct (ok_root s Hok) as [r Hr]. by rewrite Hf in Hr.
  - intros i m Hl%linked_with_node; [|done..]. apply (ok_closed s Hok) in Hl as [? Hl]. by rewrite Hf in Hl.
Qed.

Lemma add_node_inos s id d name n : nodes s !! id = Some (ADir d) -> node_ino n = NEXT_INO s -> NEXT_INO s + 1 < 2 ^ 64 ->
  inos_ok s -> inos_ok (add_node s id d name n).
Proof.
  intros Hd Hn Hlt Hok. unfold add_node. pose proof (fresh_node s) as Hf.
  apply with_inos_ok; [by apply with_node_lookup|by apply with_node_inos].
Qed.

(** ** Outcomes of the operations *)

Lemma dir_node_run {A} id (default : Fs (RamState O F) A) f s d : nodes s !! id = Some (ADir d) -> dir_node id default f s = f d s.
Proof. intros Hd. unfold dir_node. erewrite fs_run; [|unfold get_node; by rewrite Hd]. done. Qed.

Lemma dir_node_inv {A} id (default : Fs (RamState O F) A) f s s' r : dir_node id default f s = Ok (s', r) ->
  exists n, nodes s !! id = Some n /\ match n with ADir d => f d s = Ok (s', r) | _ => default s = Ok (s', r) end.
Proof.
  unfold dir_node, get_node, mbind, fs_bind, unwrap. destruct (nodes s !! id) as [n|]; [|done]. cbn. intros Hr. exists n. by destruct n.
Qed.

Lemma get_node_inv {A} id (f : Node F -> Fs (RamState O F) A) s s' r : (n ← get_node id; f n) s = Ok (s', r) ->
  exists n, nodes s !! id = Some n /\ f n s = Ok (s', r).
Proof. unfold get_node, mbind, fs_bind, unwrap. destruct (nodes s !! id) as [n|]; [|done]. intros Hf. by exists n. Qed.

(** The three ways to add a node. *)
Lemma create_new s id d name : nodes s !! id = Some (ADir d) -> entries d !! name = None ->
  create id name s = Ok (add_node s id d name (AFile (mkRamFile (NEXT_INO s) [] 420)), inl (Own (fresh (dom (nodes s))))).
Proof. intros Hd Hn. unfold create. rewrite (dir_node_run _ _ _ _ d Hd), Hn. done. Qed.

Lemma mkdir_new s id d name : nodes s !! id = Some (ADir d) -> entries d !! name = None ->
  mkdir id name s = Ok (add_node s id d name (ADir (new_dir (NEXT_INO s))), inl (Own (fresh (dom (nodes s))))).
Proof. intros Hd Hn. unfold mkdir. rewrite (dir_node_run _ _ _ _ d Hd), Hn. done. Qed.

Lemma symlink_new s id d name tgt : nodes s !! id = Some (ADir d) -> entries d !! name = None ->
  symlink id name tgt s = Ok (add_node s id d name (ALink (mkRamSymlink (NEXT_INO s) tgt)), inl (Own (fresh (dom (nodes s))))).
Proof. intros Hd Hn. unfold symlink. rewrite (dir_node_run _ _ _ _ d Hd), Hn. done. Qed.

Lemma mkdir_inv id name s s' j : mkdir id name s = Ok (s', inl j) ->
  exists d, nodes s !! id = Some (ADir d) /\ entries d !! name = None /\
    s' = add_node s id d name (ADir (new_dir (NEXT_INO s))) /\ j = Own (fresh (dom (nodes s))).
Proof.
  intros Hr. pose proof Hr as (n & Hn & Hf)%dir_node_inv. destruct n as [d|f|l]; [|done..]. exists d.
  destruct (entries d !! name) eqn:He; [done|]. rewrite (mkdir_new s id d name Hn He) in Hr. by injection Hr as <- <-.
Qed.

Lemma symlink_inv id name tgt s s' j : symlink id name tgt s = Ok (s', inl j) ->
  exists d, nodes s !! id = Some (ADir d) /\ entries d !! name = None /\
    s' = add_node s id d name (ALink (mkRamSymlink (NEXT_INO s) tgt)) /\ j = Own (fresh (dom (nodes s))).
Proof.
  intros Hr. pose proof Hr as (n & Hn & Hf)%dir_node_inv. destruct n as [d|f|l]; [|done..]. exists d.
  destruct (entries d !! name) eqn:He; [done|]. rewrite (symlink_new s id d name tgt Hn He) in Hr. by injection Hr as <- <-.
Qed.

Lemma create_inv id name s s' j : create id name s = Ok (s', inl j) ->
  exists d, nodes s !! id = Some (ADir d) /\
    ((entries d !! name = None /\ s' = add_node s id d name (AFile (mkRamFile (NEXT_INO s) [] 420)) /\ j = Own (fresh (dom (nodes s)))) \/
     (entries d !! name = Some j /\ s' = s /\ exists t, child_type s j = Ok t /\ t <> Directory)).
Proof.
  intros Hr. pose proof Hr as (n & Hn & Hf)%dir_node_inv. destruct n as [d|f|l]; [|done..]. exists d. split; [done|].
  destruct (entries d !! name) as [e|] eqn:He.
  - right. apply fs_bind_inl in Hf as (s1 & t & Ht & Hf). apply reads_inv in Ht as (-> & t' & Ht & [= <-]).
    case_bool_decide; [done|]. injection Hf as <- <-. eauto.
  - left. rewrite (create_new s id d name Hn He) in Hr. by injection Hr as <- <-.
Qed.

(** ** File types *)

Lemma perm_type st bits : type_of_mode (st_mode (with_perm_bits st bits)) = type_of_mode (Z.ldiff (st_mode st) 4095).
Proof.
  unfold type_of_mode, with_perm_bits. cbn [st_mode update_field]. 
  assert (Z.land (Z.lor (Z.ldiff (st_mode st) 4095) (Z.land bits 4095)) 61440 = Z.land (Z.ldiff (st_mode st) 4095) 61440) as Heq.
  { rewrite Z.land_lor_distr_l, <- Z.land_assoc. change (Z.land 4095 61440) with 0. by rewrite Z.land_0_r, Z.lor_0_r. }
  cbn. by rewrite Heq.
Qed.

(** The type of a node's metadata is the type of the node. *)
Lemma node_type_stat s n st : node_stat s n = Ok st -> type_of_mode (st_mode st) = node_type n.
Proof.
  destruct n as [d|f|l]; cbn [node_stat node_type].
  - intros [= <-]. transitivity (type_of_mode (st_mode (with_perm_bits (stat_dir (d_ino d)) (d_mode d)))); [done|by rewrite perm_type].
  - unfold stat_regular_writable, stat_regular. case_match; [done|]. cbn [mbind outcome_bind]. intros [= <-]. by rewrite perm_type.
  - by intros [= <-].
Qed.

Lemma node_stat_dir s d : exists st, node_stat s (ADir d) = Ok st /\ type_of_mode (st_mode st) = Directory.
Proof. eexists. split; [done|]. by apply (node_type_stat s (ADir d)). Qed.

End inv.

(** ** The promises to the VFS *)

Section laws.
Context {O F HO : Type} `{!ForeignInode O F} `{!Inodes O F HO}.

(** The other file systems keep theirs, and a file's type is what its
    metadata says. *)
Class ForeignLaws := {
  foreign_laws :: FsLaws (S := O) (I := F) (H := HO);
  foreign_type_law (f : F) (o : O) : file_type f o = Ok (foreign_type f);
}.
Context `{!ForeignLaws}.
Implicit Types (s : RamState O F) (d : RamDirNode F) (c : Child F) (id : nat) (name : bytes).

(** File sizes stay in the range of [i64]. *)
Definition files_small s : Prop := forall id f, nodes s !! id = Some (AFile f) -> size (data f) + 511 < 2 ^ 63.

Definition ram_fs_ok s : Prop := ram_ok s /\ files_small s /\ fs_ok (others s).

Lemma set_others_same s : s <| others := others s |> = s.
Proof. by destruct s. Qed.

Lemma on_others_inv {A} (m : Fs O A) s s' r : on_others m s = Ok (s', r) -> m (others s) = Ok (others s', r) /\ s' = s <| others := others s' |>.
Proof. unfold on_others. destruct (m (others s)) as [[o1 r1]|[]|]; [|done]. by intros [= <- <-]. Qed.

Lemma on_others_run {A} (m : Fs O A) s o r : m (others s) = Ok (o, r) -> on_others m s = Ok (s <| others := o |>, r).
Proof. unfold on_others. by intros ->. Qed.

Lemma on_others_pure {A} (m : Fs O A) s r : m (others s) = Ok (others s, r) -> on_others m s = Ok (s, r).
Proof. intros Hm. rewrite (on_others_run _ _ _ _ Hm). by rewrite set_others_same. Qed.

Lemma lookup_run s id name c : linked s id name c -> lookup id name s = Ok (s, inl c).
Proof. intros (d & Hd & He). unfold lookup. rewrite (dir_node_run _ _ _ _ d Hd), He. done. Qed.

Lemma lookup_inv s s' id name r : lookup id name s = Ok (s', r) -> s' = s /\ forall c, r = inl c -> linked s id name c.
Proof.
  intros (n & Hn & Hr)%dir_node_inv. destruct n as [d|f|l]; [|by injection Hr as <- <-..].
  destruct (entries d !! name) as [c|] eqn:He; injection Hr as <- <-; (split; [done|]); [|done]. intros ? [= <-]. by exists d.
Qed.

Lemma readlink_inv s s' id r : readlink id s = Ok (s', r) ->
  s' = s /\ forall b, r = inl b -> exists l, nodes s !! id = Some (ALink l) /\ target l = b.
Proof.
  intros [(s1 & n & Hn & Hr)|(e & Hn & _)]%fs_bind_inv.
  - unfold get_node, unwrap in Hn. destruct (nodes s !! id) as [n'|] eqn:E; [|done]. injection Hn as <- <-.
    destruct n'; injection Hr as <- <-; (split; [done|]); intros b [= <-]. by eexists.
  - unfold get_node, unwrap in Hn. by destruct (nodes s !! id).
Qed.

Lemma readlink_run s id l : nodes s !! id = Some (ALink l) -> readlink id s = Ok (s, inl (target l)).
Proof. intros Hl. unfold readlink. erewrite fs_run; [|unfold get_node; by rewrite Hl]. done. Qed.

Definition stat_fits (n : Node F) : Prop := match n with AFile f => size (data f) + 511 < 2 ^ 63 | _ => True end.

Lemma file_type_own s id t : file_type (Own id) s = Ok t <-> exists n, nodes s !! id = Some n /\ stat_fits n /\ t = node_type n.
Proof.
  unfold file_type. cbn [i_stat ram_inodes]. unfold unwrap. destruct (nodes s !! id) as [n|]; [|split; [done|by intros (n & ? & _)]].
  cbn [mbind outcome_bind]. split.
  - destruct (node_stat s n) as [st|[]|] eqn:Hst; [|done]. intros [= <-]. exists n. split_and!; [done| |by apply (node_type_stat s)].
    destruct n as [d|f|l]; [done| |done]. cbn in *. unfold stat_regular_writable, stat_regular in Hst. case_match; [done|]. lia.
  - intros (n' & [= <-] & Hfit & ->).
    assert (exists st, node_stat s n = Ok st) as [st Hst].
    { destruct n as [d|f|l]; [by eexists| |by eexists]. cbn in *. unfold stat_regular_writable, stat_regular.
      case_match; [lia|]. by eexists. }
    rewrite Hst. cbn. f_equal. by apply (node_type_stat s).
Qed.

Lemma file_type_foreign s f : file_type (Foreign f) s = Ok (foreign_type f).
Proof. apply (foreign_type_law f (others s)). Qed.

(** Gaining a node under a free name. *)
Lemma add_node_linked s id d name n i m c : nodes s !! id = Some (ADir d) -> entries d !! name = None -> leaf_node n ->
  linked s i m c \/ (i = id /\ m = name /\ c = Own (fresh (dom (nodes s)))) -> linked (add_node s id d name n) i m c.
Proof.
  intros Hd Hnone Hn Hl. unfold add_node. pose proof (fresh_node s) as Hf. set (j := fresh (dom (nodes s))) in *.
  apply linked_with; [by apply with_node_lookup|]. destruct Hl as [Hl|(-> & -> & ->)].
  - destruct (decide (i = id)) as [->|].
    + left. split; [done|]. destruct Hl as (d' & Hd' & He). simplify_eq. rewrite lookup_insert_ne; [done|]. by intros ->; simplify_eq.
    + right. split; [done|]. by apply linked_with_node.
  - left. split; [done|]. apply lookup_insert_eq.
Qed.

Lemma add_node_nodes s id d name n i m : nodes s !! id = Some (ADir d) ->
  nodes s !! i = Some m \/ (i = fresh (dom (nodes s)) /\ m = n) ->
  exists m', nodes (add_node s id d name n) !! i = Some m' /\ node_type m' = node_type m /\
    (stat_fits m -> stat_fits m') /\ (forall l, m = ALink l -> m' = ALink l).
Proof.
  intros Hd Hi. unfold add_node. pose proof (fresh_node s) as Hf. set (j := fresh (dom (nodes s))) in *. cbn.
  destruct (decide (i = id)) as [->|].
  - rewrite lookup_insert_eq. destruct Hi as [Hi|[-> _]]; [|by rewrite Hf in Hd]. simplify_eq. by eexists.
  - rewrite lookup_insert_ne by done. destruct Hi as [Hi|[-> ->]].
    + rewrite lookup_insert_ne; [by eexists|]. by intros <-; rewrite Hf in Hi.
    + rewrite lookup_insert_eq. by eexists.
Qed.

Lemma add_node_extends s id d name n : nodes s !! id = Some (ADir d) -> entries d !! name = None -> leaf_node n ->
  extends s (add_node s id d name n).
Proof.
  intros Hd Hnone Hn. constructor.
  - intros [i|f] m c Hl; cbn in *.
    + apply lookup_inv in Hl as [_ Hl]. apply lookup_run, add_node_linked; auto.
    + apply fs_bind_inl in Hl as (s1 & g & Hl & [= -> <-]). pose proof Hl as [Hl' _]%on_others_inv.
      erewrite fs_run; [done|]. by apply on_others_pure.
  - intros [i|f] t; [|by rewrite !file_type_foreign]. rewrite !file_type_own. intros (m & Hm & Hfit & ->).
    destruct (add_node_nodes s id d name n i m Hd ltac:(by left)) as (m' & Hm' & Ht & Hf' & _). exists m'. auto.
  - intros [i|f] b Hl; cbn in *.
    + apply readlink_inv in Hl as [_ Hl]. destruct (Hl b eq_refl) as (l & Hl' & <-). apply readlink_run.
      destruct (add_node_nodes s id d name n i (ALink l) Hd ltac:(by left)) as (m' & Hm' & _ & _ & He). by rewrite <- (He l eq_refl).
    + apply on_others_inv in Hl as [Hl' _]. by apply on_others_pure.
Qed.

Lemma add_node_fs_ok s id d name n : nodes s !! id = Some (ADir d) -> entries d !! name = None -> leaf_node n -> stat_fits n ->
  ram_fs_ok s -> ram_fs_ok (add_node s id d name n).
Proof.
  intros Hd Hnone Hn Hfit (Hok & Hsm & Hfs). split_and!; [by apply add_node_ok| |done].
  intros i f Hf. unfold add_node in Hf. cbn in Hf. apply lookup_insert_Some in Hf as [[_ Hf]|[_ Hf]]; [done|].
  apply lookup_insert_Some in Hf as [[_ ->]|[_ Hf]]; [done|by eapply Hsm].
Qed.

(** Everything the laws say of a new node. *)
Lemma add_node_law s id d name n : nodes s !! id = Some (ADir d) -> entries d !! name = None -> leaf_node n -> stat_fits n ->
  ram_fs_ok s -> let s' := add_node s id d name n in let j := Own (fresh (dom (nodes s))) in
  ram_fs_ok s' /\ extends s s' /\ lookup id name s' = Ok (s', inl j) /\ file_type j s' = Ok (node_type n).
Proof.
  intros Hd Hnone Hn Hfit Hok s' j. split_and!; [by apply add_node_fs_ok|by apply add_node_extends| |].
  - apply lookup_run, add_node_linked; auto.
  - apply file_type_own. destruct (add_node_nodes s id d name n (fresh (dom (nodes s))) n Hd ltac:(by right)) as (m' & Hm' & Ht & Hf' & _).
    exists m'. auto.
Qed.

(** An operation of another file system that gains entries there. *)
Lemma others_extends s (o : O) : extends (others s) o -> extends s (s <| others := o |>).
Proof.
  intros [L T R]. constructor.
  - intros [i|f] m c Hl; cbn in *.
    + apply lookup_inv in Hl as [_ Hl]. apply lookup_run. by apply Hl.
    + apply fs_bind_inl in Hl as (s1 & g & Hl & [= -> <-]). apply on_others_inv in Hl as [Hl _]. erewrite fs_run; [done|].
      apply on_others_pure. cbn. by apply L.
  - intros [i|f] t; [|by rewrite !file_type_foreign]. by rewrite !file_type_own.
  - intros [i|f] b Hl; cbn in *.
    + apply readlink_inv in Hl as [_ Hl]. destruct (Hl b eq_refl) as (l & Hl' & <-). by apply readlink_run.
    + apply on_others_inv in Hl as [Hl _]. apply on_others_pure. cbn. by apply R.
Qed.

Lemma foreign_new (m : Fs O F) (f : F) name s s' j : (g ← on_others m; mret (Foreign g)) s = Ok (s', inl j) -> ram_fs_ok s ->
  (forall o g, m (others s) = Ok (o, inl g) -> fs_ok o /\ extends (others s) o /\ i_lookup f name o = Ok (o, inl g)) ->
  exists g, j = Foreign g /\ m (others s) = Ok (others s', inl g) /\
    ram_fs_ok s' /\ extends s s' /\ i_lookup (Foreign f) name s' = Ok (s', inl (Foreign g)).
Proof.
  intros (s1 & g & Hm & [= -> <-])%fs_bind_inl (Hok & Hsm & Hfs) Hlaw. apply on_others_inv in Hm as [Hm Hs].
  destruct (Hlaw _ _ Hm) as (Hfs' & Hext & Hl). exists g. split_and!; [done|done| |rewrite Hs; by apply others_extends|].
  - rewrite Hs. destruct s as [ns ino offs o0]. split_and!; [by constructor; destruct Hok|done|]. cbn. by rewrite Hs in Hfs'.
  - cbn. erewrite fs_run; [done|]. by apply on_others_pure.
Qed.

#[global, refine] Instance ram_laws : FsLaws (S := RamState O F) (I := Child F) (H := RamHandle + HO) := { fs_ok := ram_fs_ok }.
Proof.
  - intros [i|f] m s s' r; cbn.
    + by intros [-> _]%lookup_inv.
    + intros [(s1 & g & Hl & [= <- _])|(e & Hl & _)]%fs_bind_inv; apply on_others_inv in Hl as [Hl ->];
        apply lookup_pure in Hl; rewrite Hl; apply set_others_same.
  - intros [i|f] s s' r; cbn.
    + by intros [-> _]%readlink_inv.
    + intros [Hl ->]%on_others_inv. apply readlink_pure in Hl. rewrite Hl. apply set_others_same.
  - intros [i|f] m s s' e; cbn.
    + intros (n & Hn & Hr)%dir_node_inv. destruct n as [d|f|l]; [|by injection Hr as _ <-..].
      destruct (entries d !! m); [done|]. by injection Hr as _ <-.
    + intros [(s1 & g & _ & [=])|(e' & Hl & [= <-])]%fs_bind_inv. apply on_others_inv in Hl as [Hl _]. by eapply lookup_errno.
  - intros [i|f] s s' e; cbn.
    + intros (n & Hn & Hr)%get_node_inv. by destruct n; [injection Hr as _ <-|injection Hr as _ <-|].
    + intros [Hl _]%on_others_inv. by eapply readlink_errno.
  - intros [i|f] m s s' j Hok Hr.
    + apply mkdir_inv in Hr as (d & Hd & Hn & -> & ->). by apply (add_node_law s i d m (ADir (new_dir (NEXT_INO s)))).
    + destruct (foreign_new _ f m _ _ _ Hr Hok) as (g & -> & Hm & H1 & H2 & H3).
      { intros o g Hm. apply mkdir_law in Hm; [|apply Hok]. by destruct Hm as (? & ? & ? & _). }
      apply mkdir_law in Hm as (_ & _ & _ & Ht); [|apply Hok]. rewrite foreign_type_law in Ht. by rewrite file_type_foreign.
  - intros [i|f] m s s' j Hok Hr.
    + apply create_inv in Hr as (d & Hd & [(Hn & -> & ->)|(He & -> & t & Ht & Hne)]).
      * destruct (add_node_law s i d m (AFile (mkRamFile (NEXT_INO s) [] 420))) as (H1 & H2 & H3 & H4); try done.
        split_and!; try done. by exists Regular.
      * split_and!; [done|apply extends_refl|apply lookup_run; by exists d|]. exists t. split; [|done].
        destruct j as [k|g]; [|by rewrite file_type_foreign]. unfold child_type, unwrap in Ht.
        destruct (nodes s !! k) as [n|] eqn:Hk; [|done]. injection Ht as <-. apply file_type_own. exists n. split_and!; [done| |done].
        destruct n as [dd|ff|l]; [done| |done]. by eapply (proj1 (proj2 Hok)).
    + destruct (foreign_new _ f m _ _ _ Hr Hok) as (g & -> & Hm & H1 & H2 & H3).
      { intros o g Hm. apply create_law in Hm; [|apply Hok]. by destruct Hm as (? & ? & ? & _). }
      split_and!; try done. apply create_law in Hm as (_ & _ & _ & t & Ht & Hne); [|apply Hok].
      rewrite foreign_type_law in Ht. rewrite file_type_foreign. eauto.
  - intros [i|f] m tgt s s' j Hok Hr.
    + apply symlink_inv in Hr as (d & Hd & Hn & -> & ->).
      destruct (add_node_law s i d m (ALink (mkRamSymlink (NEXT_INO s) tgt))) as (H1 & H2 & H3 & H4); try done.
      split_and!; try done. cbn.
      destruct (add_node_nodes s i d m (ALink (mkRamSymlink (NEXT_INO s) tgt)) (fresh (dom (nodes s))) _ Hd ltac:(by right)) as (m' & Hm' & _ & _ & He).
      rewrite (He _ eq_refl) in Hm'. by apply (readlink_run _ _ _ Hm').
    + destruct (foreign_new _ f m _ _ _ Hr Hok) as (g & -> & Hm & H1 & H2 & H3).
      { intros o g Hm. apply symlink_law in Hm; [|apply Hok]. by destruct Hm as (? & ? & ? & _). }
      apply symlink_law in Hm as (_ & _ & _ & Ht & Hrl); [|apply Hok]. rewrite foreign_type_law in Ht.
      split_and!; try done; [by rewrite file_type_foreign|]. cbn. by apply on_others_pure.
Defined.

End laws.
(** ** Edits of the heap *)

Section edits.
Context {O F : Type} `{!ForeignInode O F}.
Implicit Types (s : RamState O F) (d : RamDirNode F) (c : Child F) (id : nat) (name : bytes).

(** A node rewritten in place: its number, its type and its entries stay. *)
Definition same_shape (n n' : Node F) : Prop :=
  match n, n' with
  | ADir d, ADir d' => d_ino d = d_ino d' /\ entries d = entries d'
  | AFile f, AFile f' => f_ino f = f_ino f'
  | ALink l, ALink l' => l_ino l = l_ino l'
  | _, _ => False
  end.

Definition set_node s id (n : Node F) : RamState O F := s <| nodes := <[id := n]> (nodes s) |>.

(** The changes that add no node. *)
Inductive edit s : RamState O F -> Prop :=
| ed_delete id d name : nodes s !! id = Some (ADir d) -> edit s (with_entries s id d (delete name (entries d)))
| ed_insert id d name c : nodes s !! id = Some (ADir d) -> entries d !! name = None ->
    (forall j, c = Own j -> is_Some (nodes s !! j) /\ j <> root_id /\ forall i n, ~ linked s i n (Own j)) ->
    edit s (with_entries s id d (<[name := c]> (entries d)))
| ed_node id n n' : nodes s !! id = Some n -> same_shape n n' -> edit s (set_node s id n')
| ed_offset off o : 0 <= o < 2 ^ 64 -> edit s (s <| offsets := <[off := o]> (offsets s) |>)
| ed_new_offset o : 0 <= o < 2 ^ 64 -> edit s (s <| offsets := offsets s ++ [o] |>)
| ed_others o : edit s (s <| others := o |>).

Lemma linked_nodes s s' i n c : nodes s' = nodes s -> linked s' i n c <-> linked s i n c.
Proof. unfold linked. by intros ->. Qed.

Lemma ram_ok_nodes s s' : nodes s' = nodes s -> ram_ok s -> ram_ok s'.
Proof. intros Hn [H1 H2 H3 H4]. constructor; unfold linked in *; rewrite Hn; done. Qed.

Lemma linked_set_node s id n n' i m c : nodes s !! id = Some n -> same_shape n n' ->
  linked (set_node s id n') i m c <-> linked s i m c.
Proof.
  intros Hn Hsh. unfold linked, set_node. cbn. destruct (decide (i = id)) as [->|]; [|by rewrite lookup_insert_ne].
  rewrite lookup_insert_eq, Hn. split; intros (d & [= ->] & Hd).
  - destruct n as [d0|f0|l0]; cbn in Hsh; [|done..]. destruct Hsh as [_ Heq]. exists d0. by rewrite Heq.
  - destruct n' as [d0|f0|l0]; cbn in Hsh; [|done..]. destruct Hsh as [_ Heq]. exists d0. by rewrite <- Heq.
Qed.

Lemma same_shape_ino n n' : same_shape n n' -> node_ino n' = node_ino n /\ node_type n' = node_type n.
Proof. destruct n, n'; cbn; naive_solver. Qed.

Lemma edit_ram_ok s s' : edit s s' -> ram_ok s -> ram_ok s'.
Proof.
  intros He Hok. destruct He as [id d name Hd|id d name c Hd Hnone Hc|id n n' Hn Hsh|off o Ho|o Ho|o].
  - by apply delete_entry_ok.
  - by apply insert_entry_ok.
  - destruct Hok as [[r Hr] Hc Hs Hf]. constructor.
    + cbn. destruct (decide (root_id = id)) as [<-|]; [rewrite lookup_insert_eq|rewrite lookup_insert_ne by done; by eexists].
      simplify_eq. destruct n' as [d'|f'|l']; cbn in Hsh; [|done..]. by eexists.
    + intros i m j Hl%(linked_set_node s id n n'); [|done..]. apply Hc in Hl as [x Hx]. cbn.
      destruct (decide (j = id)) as [->|]; [rewrite lookup_insert_eq|rewrite lookup_insert_ne by done]; by eexists.
    + intros i1 n1 i2 n2 j Hl1%(linked_set_node s id n n') Hl2%(linked_set_node s id n n'); [|done..]. by eapply Hs.
    + intros i m Hl%(linked_set_node s id n n'); [|done..]. by eapply Hf.
  - by eapply ram_ok_nodes, Hok.
  - by eapply ram_ok_nodes, Hok.
  - by eapply ram_ok_nodes, Hok.
Qed.

(** Edits keep the nodes, with number and type, and the counter. *)
Lemma edit_nodes s s' : edit s s' -> NEXT_INO s' = NEXT_INO s /\
  (forall j n, nodes s !! j = Some n -> exists n', nodes s' !! j = Some n' /\ node_ino n' = node_ino n /\ node_type n' = node_type n) /\
  (forall j n, nodes s' !! j = Some n -> exists n', nodes s !! j = Some n' /\ node_ino n = node_ino n').
Proof.
  intros He. destruct He as [id d name Hd|id d name c Hd Hnone Hc|id n n' Hn Hsh|off o Ho|o Ho|o];
    (split; [done|]); try (by split; intros; eexists).
  - split; intros j n Hj; [by eapply nodes_with|by eapply nodes_with_inv].
  - split; intros j n Hj; [by eapply nodes_with|by eapply nodes_with_inv].
  - destruct (same_shape_ino n n' Hsh) as [Hi Ht]. cbn. split; intros j m Hj; destruct (decide (j = id)) as [->|].
    + rewrite lookup_insert_eq. simplify_eq. by eexists.
    + rewrite lookup_insert_ne by done. by eexists.
    + rewrite lookup_insert_eq in Hj. simplify_eq. by eexists.
    + rewrite lookup_insert_ne in Hj by done. by eexists.
Qed.

Lemma edit_inos_ok s s' : edit s s' -> inos_ok s -> inos_ok s'.
Proof.
  intros (Hnx & _ & Hinv)%edit_nodes [Hn Hb Hi]. constructor.
  - by rewrite Hnx.
  - intros j n (n' & Hj & ->)%Hinv. rewrite Hnx. by eapply Hb.
  - intros i j n m (a & Ha & Hna)%Hinv (b & Hb' & Hnb)%Hinv Heq. eapply Hi; [done..|congruence].
Qed.

Lemma node_file s' id n : nodes s' !! id = Some n -> node_type n = Regular -> exists f, nodes s' !! id = Some (AFile f) /\ f_ino f = node_ino n.
Proof. intros Hn Ht. destruct n as [d|f|l]; [done| |done]. by exists f. Qed.

(** Open files stay open files. *)
Lemma edit_handle_ok s s' h : edit s s' -> handle_ok s h -> handle_ok s' h.
Proof.
  intros He Hh. destruct h as [ino node off|snap o]; [|done]. destruct Hh as (f & o & Hf & Ho & Hino & Hb).
  destruct (edit_nodes s s' He) as (_ & Hk & _). destruct (Hk _ _ Hf) as (n' & Hn' & Hi & Ht).
  destruct (node_file s' node n' Hn') as (f' & Hf' & Hi'); [by rewrite Ht|].
  assert (exists o', offsets s' !! off = Some o' /\ 0 <= o' < 2 ^ 64) as (o' & Ho' & Hb').
  { destruct He; cbn; try (by exists o).
    - destruct (decide (off0 = off)) as [->|]; [|rewrite list_lookup_insert_ne by done; by exists o].
      exists o0. split; [|done]. apply list_lookup_insert_eq. by eapply lookup_lt_Some.
    - exists o. split; [|done]. by apply lookup_app_l_Some. }
  exists f', o'. split_and!; try done; [|lia..]. rewrite Hi', Hi. done.
Qed.

Lemma add_node_handle_ok s id d name n h : nodes s !! id = Some (ADir d) -> handle_ok s h -> handle_ok (add_node s id d name n) h.
Proof.
  intros Hd Hh. destruct h as [ino node off|snap o]; [|done]. destruct Hh as (f & o & Hf & Ho & Hino & Hb).
  exists f, o. split_and!; try done; [|lia..]. unfold add_node. cbn. pose proof (fresh_node s) as Hfr.
  rewrite lookup_insert_ne, lookup_insert_ne; [done|by intros Heq; rewrite Heq, Hf in Hfr|by intros ->; simplify_eq].
Qed.

End edits.

(** ** Steps *)

Section steps.
Context {O F HO : Type} `{!ForeignInode O F} `{!Inodes O F HO}.
Implicit Types (s : RamState O F) (d : RamDirNode F) (c : Child F) (id : nat) (name : bytes).

(** Everything that changes the state: the operations of the inodes and of the
    handles that are open, and whatever the other file systems do. *)
Inductive ram_step (h : list RamHandle) s : RamState O F -> Prop :=
| step_create id name s' r : create id name s = Ok (s', r) -> ram_step h s s'
| step_mkdir id name s' r : mkdir id name s = Ok (s', r) -> ram_step h s s'
| step_symlink id name tgt s' r : symlink id name tgt s = Ok (s', r) -> ram_step h s s'
| step_unlink id name s' r : unlink id name s = Ok (s', r) -> ram_step h s s'
| step_rmdir id name s' r : rmdir id name s = Ok (s', r) -> ram_step h s s'
| step_rename c1 n1 c2 n2 s' r : rename_nodes c1 n1 c2 n2 s = Ok (s', r) -> ram_step h s s'
| step_chmod id mode s' r : chmod id mode s = Ok (s', r) -> ram_step h s s'
| step_open id flags s' r : open id flags s = Ok (s', r) -> ram_step h s s'
| step_read x len s' x' r : x ∈ h -> 0 <= len -> handle_read x len s = Ok (s', x', r) -> ram_step h s s'
| step_write x buf s' x' r : x ∈ h -> handle_write x buf s = Ok (s', x', r) -> ram_step h s s'
| step_seek x off wh s' x' r : x ∈ h -> handle_seek x off wh s = Ok (s', x', r) -> ram_step h s s'
| step_fchmod x mode s' x' r : x ∈ h -> handle_chmod x mode s = Ok (s', x', r) -> ram_step h s s'
| step_others o : ram_step h s (s <| others := o |>).


(** A step adds one node, or is a sequence of edits. *)
Definition changed s s' : Prop :=
  rtc edit s s' \/
  exists id d name n, nodes s !! id = Some (ADir d) /\ entries d !! name = None /\ leaf_node n /\ node_ino n = NEXT_INO s /\
    s' = add_node s id d name n.

Lemma unlink_changed id name s s' r : unlink id name s = Ok (s', r) -> rtc edit s s'.
Proof.
  intros (n & Hn & Hf)%dir_node_inv. destruct n as [d|f|l]; [|by injection Hf as <- <-..].
  destruct (entries d !! name) as [c|]; [|by injection Hf as <- <-].
  apply fs_bind_inv in Hf as [(s1 & t & [-> _]%reads_inv & Hf)|(e & [-> _]%reads_inv & _)]; [|done].
  case_bool_decide; injection Hf as <- <-; [done|]. by apply rtc_once, (ed_delete s id d name).
Qed.

Lemma take_child_changed id name s s' r : take_child id name s = Ok (s', r) ->
  (s' = s /\ exists e, r = inr e) \/
  exists d c, nodes s !! id = Some (ADir d) /\ entries d !! name = Some c /\ r = inl c /\ s' = with_entries s id d (delete name (entries d)).
Proof.
  intros (n & Hn & Hf)%dir_node_inv. destruct n as [d|f|l]; [|injection Hf as <- <-; left; eauto..].
  destruct (entries d !! name) as [c|] eqn:He; injection Hf as <- <-; [|left; eauto]. right. by exists d, c.
Qed.

Lemma insert_child_changed id name c s s' r : insert_child id name c s = Ok (s', r) ->
  (s' = s /\ exists e, r = inr e) \/
  exists d, nodes s !! id = Some (ADir d) /\ entries d !! name = None /\ r = inl () /\ s' = with_entries s id d (<[name := c]> (entries d)).
Proof.
  intros (n & Hn & Hf)%dir_node_inv. destruct n as [d|f|l]; [|injection Hf as <- <-; left; eauto..].
  destruct (entries d !! name) as [x|] eqn:He; injection Hf as <- <-; [left; eauto|]. right. by exists d.
Qed.

(** A child that has been taken out has no entry. *)
Lemma taken_unlinked s id d name j : ram_ok s -> nodes s !! id = Some (ADir d) -> entries d !! name = Some (Own j) ->
  let s1 := with_entries s id d (delete name (entries d)) in
  is_Some (nodes s1 !! j) /\ j <> root_id /\ forall i n, ~ linked s1 i n (Own j).
Proof.
  intros Hok Hd He s1. assert (linked s id name (Own j)) as Hl by by exists d. split_and!.
  - unfold s1. destruct (ok_closed s Hok _ _ _ Hl) as [n Hn]. destruct (nodes_with s id d (delete name (entries d)) j n Hd Hn) as (n' & -> & _). by eexists.
  - intros ->. by apply (ok_root_free s Hok) in Hl.
  - intros i n. unfold s1. rewrite linked_with by done. intros [[-> Hl']|[Hne Hl']].
    + apply lookup_delete_Some in Hl' as [Hne Hl']. destruct (ok_single s Hok id name id n j Hl) as [_ ->]; [by exists d|done].
    + destruct (ok_single s Hok id name i n j Hl Hl') as [-> _]. done.
Qed.

(** Taking a child out and putting it back is nothing. *)
Lemma put_back s id d name c : nodes s !! id = Some (ADir d) -> entries d !! name = Some c ->
  insert_child id name c (with_entries s id d (delete name (entries d))) = Ok (s, inl ()).
Proof.
  intros Hd He. unfold insert_child. erewrite dir_node_run by (cbn; by rewrite lookup_insert_eq). cbn [entries].
  rewrite lookup_delete_eq. unfold set_entries, put_node. do 2 f_equal. destruct s as [ns ino offs o]. cbn in *.
  unfold with_entries. cbn. f_equal. rewrite insert_insert_eq. apply insert_id. rewrite Hd. destruct d as [di de dm]. cbn in *.
  do 3 f_equal. rewrite insert_delete_eq. symmetry. by apply insert_id.
Qed.

(** [rename] within this file system: it moves the child, or it leaves
    everything as it was. *)
Lemma rename_own i1 n1 i2 n2 s s' r : rename_nodes (Own i1) n1 (Own i2) n2 s = Ok (s', r) ->
  (s' = s /\ exists e, r = inr e) \/
  exists d1 c d2, nodes s !! i1 = Some (ADir d1) /\ entries d1 !! n1 = Some c /\ r = inl () /\
    let s1 := with_entries s i1 d1 (delete n1 (entries d1)) in
    nodes s1 !! i2 = Some (ADir d2) /\ entries d2 !! n2 = None /\ s' = with_entries s1 i2 d2 (<[n2 := c]> (entries d2)).
Proof.
  unfold rename_nodes. cbn [i_take_child i_insert_child ram_inodes].
  intros [(s1 & c & Ht & Hr)|(e & Ht & ->)]%fs_bind_inv; apply take_child_changed in Ht as [[-> [? Hx]]|(d1 & c1 & Hd1 & He1 & Hx & Hs1)];
    try done; [|left; eauto]. injection Hx as <-.
  apply fs_bind_inv in Hr as [(s2 & [u|e] & Hi%attempt_inv & Hr)|(e & Hi & _)].
  - injection Hr as <- <-. apply insert_child_changed in Hi as [[_ [? [=]]]|(d2 & Hd2 & Hn2 & _ & ->)]. right. exists d1, c, d2. by subst.
  - left. apply insert_child_changed in Hi as [[-> _]|(d2 & _ & _ & [=] & _)]. subst.
    erewrite fs_run in Hr by by apply attempt_ok, put_back. injection Hr as <- <-. eauto.
  - by apply attempt_no_err in Hi.
Qed.

Lemma on_others_edit {A} (m : Fs O A) s s' r : on_others m s = Ok (s', r) -> rtc edit s s'.
Proof. unfold on_others. destruct (m (others s)) as [[o r1]|[]|]; [|done]. intros [= <- _]. apply rtc_once, ed_others. Qed.

Lemma insert_any_edit c n x s s' r : i_insert_child c n x s = Ok (s', r) ->
  (forall j, x = Own j -> is_Some (nodes s !! j) /\ j <> root_id /\ forall i m, ~ linked s i m (Own j)) -> rtc edit s s'.
Proof.
  intros Hi Hx. destruct c as [i|f]; cbn in Hi.
  - apply insert_child_changed in Hi as [[-> _]|(d & Hd & Hn & _ & ->)]; [done|]. by apply rtc_once, (ed_insert s i d n x).
  - destruct x; by apply on_others_edit in Hi.
Qed.

Lemma rename_changed c1 n1 c2 n2 s s' r : ram_ok s -> rename_nodes c1 n1 c2 n2 s = Ok (s', r) -> rtc edit s s'.
Proof.
  intros Hok. destruct c1 as [i1|f1].
  - destruct c2 as [i2|f2].
    + intros [[-> _]|(d1 & c & d2 & Hd1 & He1 & _ & Hd2 & Hn2 & ->)]%rename_own; [done|].
      eapply rtc_l; [by eapply (ed_delete s i1 d1 n1)|]. apply rtc_once, ed_insert; [done|done|].
      intros j ->. by apply taken_unlinked.
    + unfold rename_nodes. cbn [i_take_child i_insert_child ram_inodes].
      intros [(s1 & c & Ht & Hr)|(e & Ht & _)]%fs_bind_inv; apply take_child_changed in Ht as [[-> [? Hx]]|(d1 & c1 & Hd1 & He1 & Hx & Hs1)]; try done.
      injection Hx as <-. assert (edit s s1) as He by (subst; by apply ed_delete).
      apply fs_bind_inv in Hr as [(s2 & [u|e] & Hi%attempt_inv & Hr)|(e & Hi & _)].
      * injection Hr as <- _. eapply rtc_l; [exact He|]. destruct c; by apply on_others_edit in Hi.
      * assert (exists o, s2 = s1 <| others := o |>) as [o ->].
        { destruct c; unfold on_others in Hi; case_match; try done; case_match; injection Hi as <- _; by eexists. }
        assert (s1 <| others := o |> = with_entries (s <| others := o |>) i1 d1 (delete n1 (entries d1))) as Hs2 by by subst.
        rewrite Hs2 in Hr. erewrite fs_run in Hr; [|apply attempt_ok; by apply put_back].
        injection Hr as <- _. apply rtc_once, ed_others.
      * by apply attempt_no_err in Hi.
  - unfold rename_nodes. cbn [i_take_child ram_inodes].
    intros [(s1 & c & Ht & Hr)|(e & Ht & _)]%fs_bind_inv;
      [apply fs_bind_inl in Ht as (s0 & g & Ht%on_others_edit & [= -> <-])|
       apply fs_bind_inv in Ht as [(s0 & g & _ & [=])|(e' & Ht & _)]; by apply on_others_edit in Ht].
    apply fs_bind_inv in Hr as [(s2 & [u|e] & Hi%attempt_inv & Hr)|(e & Hi & _)].
    * injection Hr as <- _. etrans; [exact Ht|]. by apply insert_any_edit in Hi.
    * apply insert_any_edit in Hi; [|done]. etrans; [exact Ht|]. etrans; [exact Hi|].
      apply fs_bind_inv in Hr as [(s3 & [u|e'] & Hi2%attempt_inv & Hr)|(e' & Hi2 & _)].
      -- injection Hr as <- _. by apply insert_any_edit in Hi2.
      -- injection Hr as <- _. by apply insert_any_edit in Hi2.
      -- by apply attempt_no_err in Hi2.
    * by apply attempt_no_err in Hi.
Qed.

Lemma readdir_pure id off s s' r : readdir id off s = Ok (s', r) -> s' = s.
Proof.
  intros (n & Hn & Hf)%dir_node_inv. destruct n as [d|f|l]; [|by injection Hf as <- _..].
  repeat (case_match; [by injection Hf as <- _|]). case_match; [|by injection Hf as <- _].
  unfold mbind, outcome_bind in Hf. destruct (listed s p) as [x|[]|]; [|done]. by injection Hf as <- _.
Qed.

Lemma rmdir_changed id name s s' r : rmdir id name s = Ok (s', r) -> rtc edit s s'.
Proof.
  intros (n & Hn & Hf)%dir_node_inv. destruct n as [d|f|l]; [|by injection Hf as <- <-..].
  destruct (entries d !! name) as [c|]; [|by injection Hf as <- <-].
  apply fs_bind_inv in Hf as [(s1 & t & [-> _]%reads_inv & Hf)|(e & [-> _]%reads_inv & _)]; [|done].
  case_match; [by injection Hf as <- _|]. apply fs_bind_inv in Hf as [(s1 & b & Hb & Hf)|(e & Hb & _)].
  - assert (exists o, s1 = s <| others := o |>) as [o ->].
    { destruct c as [j|f]; cbn in Hb.
      - apply fs_bind_inl in Hb as (s0 & x & ->%readdir_pure & [= <- _]). exists (others s). by destruct s.
      - unfold on_others in Hb. destruct (foreign_has_entries f (others s)) as [[o0 x]|[]|]; [|done]. injection Hb as <- _. by eexists. }
    eapply rtc_l; [apply (ed_others s o)|]. destruct b; injection Hf as <- _; [done|].
    match goal with |- rtc edit ?x _ => apply rtc_once; exact (ed_delete x id d name Hn) end.
  - destruct c as [j|f]; cbn in Hb; [|by apply on_others_edit in Hb].
    apply fs_bind_inv in Hb as [(s0 & x & _ & [=])|(e' & ->%readdir_pure & _)]. done.
Qed.

Lemma chmod_changed id mode s s' r : chmod id mode s = Ok (s', r) -> rtc edit s s'.
Proof.
  intros (n & Hn & Hf)%get_node_inv. destruct n as [d|f|l]; injection Hf as <- _; [| |done]; by apply rtc_once, (ed_node s id _ _ Hn).
Qed.

(** No file is longer than the address space ([Vec<u8>]). *)
Definition files_fit s : Prop := forall id f, nodes s !! id = Some (AFile f) -> size (data f) < 2 ^ 64.

Lemma open_changed id flags s s' r : files_fit s -> open id flags s = Ok (s', r) -> rtc edit s s'.
Proof.
  intros Hfit (n & Hn & Hf)%get_node_inv. destruct n as [d|f|l]; [| |by injection Hf as <- _].
  - apply fs_bind_inv in Hf as [(s1 & x & [-> _]%reads_inv & [= <- _])|(e & [-> _]%reads_inv & _)]; done.
  - injection Hf as <- _. eapply rtc_l; [apply (ed_node s id _ (AFile (if negb (Z.land flags TRUNC =? 0) then mkRamFile (f_ino f) [] (f_mode f) else f)) Hn);
      by case_match|]. match goal with |- rtc edit ?x _ => apply rtc_once; refine (ed_new_offset x _ _) end. specialize (Hfit _ _ Hn). pose proof (size_nonneg (data f)).
    repeat case_match; cbn; try lia; unfold size; cbn; lia.
Qed.

Lemma file_of_inv s node off f o : file_of s node off = Ok (f, o) -> nodes s !! node = Some (AFile f) /\ offsets s !! off = Some o.
Proof.
  unfold file_of, unwrap, mbind, outcome_bind. destruct (nodes s !! node) as [[| |]|]; [|destruct (offsets s !! off)|..]; try done;
    [by destruct (offsets s !! off)|by intros [= <- <-]|by destruct (offsets s !! off)].
Qed.

Lemma read_changed h len s s' h' r : handle_ok s h -> files_fit s -> 0 <= len -> handle_read h len s = Ok (s', h', r) -> rtc edit s s'.
Proof.
  destruct h as [ino node off|snap o]; cbn; [|by intros _ _ _ [= <- _ _]]. intros (f & o & Hf & Ho & _ & Hb) Hfit Hlen.
  unfold file_of. rewrite Hf, Ho. cbn. specialize (Hfit _ _ Hf).
  case_bools; [by intros [= <- _ _]|]. rewrite get_ok by lia. cbn. intros [= <- _ _]. apply rtc_once, ed_offset. lia.
Qed.

Lemma chk_inv {E} w z x : @chk E w z = Ok x -> x = z /\ 0 <= z < 2 ^ w.
Proof. unfold chk, in_widthb. destruct (Z.leb_spec 0 z), (Z.ltb_spec z (2 ^ w)); cbn; intros [= <-]; lia. Qed.

Lemma write_changed h buf s s' h' r : handle_write h buf s = Ok (s', h', r) -> rtc edit s s'.
Proof.
  destruct h as [ino node off|snap o]; cbn; [|by intros [= <- _ _]].
  destruct (file_of s node off) as [[f o]|[]|] eqn:Hfo; [|done]. apply file_of_inv in Hfo as [Hf Ho]. cbn [mbind outcome_bind].
  destruct (chk 64 (o + size buf)) as [e|[]|] eqn:He; [|done]. apply chk_inv in He as [-> Hb]. cbn [mbind outcome_bind].
  destruct (put _ _ _) as [d|[]|]; [|done]. cbn. intros [= <- _ _].
  eapply rtc_l; [by apply (ed_node s node _ (AFile (mkRamFile (f_ino f) d (f_mode f))) Hf)|].
  apply rtc_once. by apply (ed_offset (set_node s node (AFile (mkRamFile (f_ino f) d (f_mode f)))) off).
Qed.

Lemma seek_changed h off wh s s' h' r : handle_seek h off wh s = Ok (s', h', r) -> rtc edit s s'.
Proof.
  destruct h as [ino node cur|snap o]; cbn; [|by intros [= <- _ _]].
  destruct (file_of s node cur) as [[f o]|[]|] eqn:Hfo; [|done]. cbn [mbind outcome_bind].
  destruct (compute_seek _ _ _ _) as [p|e] eqn:Hs; intros [= <- _ _]; [|done]. apply rtc_once, ed_offset.
  unfold compute_seek in Hs. repeat case_match; simplify_eq; apply orb_false_iff in H0; lia.
Qed.

Lemma fchmod_changed h mode s s' h' r : handle_chmod h mode s = Ok (s', h', r) -> rtc edit s s'.
Proof.
  destruct h as [ino node off|snap o]; cbn; [|by intros [= <- _ _]].
  destruct (file_of s node off) as [[f o]|[]|] eqn:Hfo; [|done]. apply file_of_inv in Hfo as [Hf _]. cbn. intros [= <- _ _].
  by apply rtc_once, (ed_node s node _ _ Hf).
Qed.

Lemma new_changed id name s s' r (op : Fs (RamState O F) (Child F)) n :
  (forall d, nodes s !! id = Some (ADir d) -> entries d !! name = None -> op s = Ok (add_node s id d name n, inl (Own (fresh (dom (nodes s)))))) ->
  (forall s1 j, op s = Ok (s1, inl j) -> s1 = s \/ exists d, nodes s !! id = Some (ADir d) /\ entries d !! name = None) ->
  (forall s1 e, op s = Ok (s1, inr e) -> s1 = s) -> leaf_node n -> node_ino n = NEXT_INO s ->
  op s = Ok (s', r) -> changed s s'.
Proof.
  intros Hnew Hinl Hinr Hl Hi Hop. destruct r as [j|e]; [|by apply Hinr in Hop as ->; left].
  destruct (Hinl _ _ Hop) as [->|(d & Hd & Hn)]; [by left|]. right. rewrite (Hnew d Hd Hn) in Hop. injection Hop as <- _.
  by exists id, d, name, n.
Qed.

Lemma dir_node_err {A} id (default : Fs (RamState O F) A) (f : RamDirNode F -> Fs (RamState O F) A) s s' e :
  (forall s' r, default s = Ok (s', r) -> s' = s) -> (forall d, nodes s !! id = Some (ADir d) -> f d s = Ok (s', inr e) -> s' = s) ->
  dir_node id default f s = Ok (s', inr e) -> s' = s.
Proof. intros Hd Hf (n & Hn & Hr)%dir_node_inv. destruct n; [by eapply Hf|by eapply Hd|by eapply Hd]. Qed.

(** Each step is one of the changes above. *)
Lemma step_changed h s s' : ram_ok s -> files_fit s -> Forall (handle_ok s) h -> ram_step h s s' -> changed s s'.
Proof.
  intros Hok Hfit Hh Hstep. destruct Hstep as [id name s' r Hr|id name s' r Hr|id name tgt s' r Hr|id name s' r Hr|id name s' r Hr
    |c1 n1 c2 n2 s' r Hr|id mode s' r Hr|id flags s' r Hr|x len s' x' r Hx Hlen Hr|x buf s' x' r Hx Hr|x off wh s' x' r Hx Hr|x mode s' x' r Hx Hr|o].
  - eapply (new_changed id name s s' r (create id name) (AFile (mkRamFile (NEXT_INO s) [] 420))); try done.
    + intros d. apply create_new.
    + intros s1 j (d & Hd & [(Hn & _)|(_ & -> & _)])%create_inv; [right; by exists d|by left].
    + intros s1 e. apply dir_node_err; [by intros ? ? [= <- _]|]. intros d Hd Hf. destruct (entries d !! name); [|done].
      apply fs_bind_inv in Hf as [(s2 & t & [-> _]%reads_inv & Hf)|(e' & [-> _]%reads_inv & _)]; [|done]. case_bool_decide; [by injection Hf as <- _|done].
  - eapply (new_changed id name s s' r (mkdir id name) (ADir (new_dir (NEXT_INO s)))); try done.
    + intros d. apply mkdir_new.
    + intros s1 j (d & Hd & Hn & _)%mkdir_inv. right. by exists d.
    + intros s1 e. apply dir_node_err; [by intros ? ? [= <- _]|]. intros d Hd Hf. destruct (entries d !! name); [|done]. by injection Hf as <- _.
  - eapply (new_changed id name s s' r (symlink id name tgt) (ALink (mkRamSymlink (NEXT_INO s) tgt))); try done.
    + intros d. apply symlink_new.
    + intros s1 j (d & Hd & Hn & _)%symlink_inv. right. by exists d.
    + intros s1 e. apply dir_node_err; [by intros ? ? [= <- _]|]. intros d Hd Hf. destruct (entries d !! name); [|done]. by injection Hf as <- _.
  - left. by eapply unlink_changed.
  - left. by eapply rmdir_changed.
  - left. by eapply rename_changed.
  - left. by eapply chmod_changed.
  - left. by eapply open_changed.
  - left. eapply read_changed; [|done..]. by eapply (proj1 (Forall_forall _ _) Hh).
  - left. by eapply write_changed.
  - left. by eapply seek_changed.
  - left. by eapply fchmod_changed.
  - left. apply rtc_once, ed_others.
Qed.

Lemma edits_keep (P : RamState O F -> Prop) s s' : (forall a b, edit a b -> P a -> P b) -> rtc edit s s' -> P s -> P s'.
Proof. intros Hp. induction 1; [done|]. intros HP. by eapply IHrtc, Hp. Qed.

Lemma changed_ok s s' : changed s s' -> ram_ok s -> ram_ok s'.
Proof.
  intros [He|(id & d & name & n & Hd & Hn & Hl & _ & ->)] Hok; [|by apply add_node_ok].
  by eapply (edits_keep ram_ok), Hok; [apply edit_ram_ok|].
Qed.

Lemma changed_inos s s' : changed s s' -> NEXT_INO s + 1 < 2 ^ 64 -> inos_ok s -> inos_ok s'.
Proof.
  intros [He|(id & d & name & n & Hd & Hn & Hl & Hi & ->)] Hlt Hok; [|by apply add_node_inos].
  by eapply (edits_keep inos_ok), Hok; [apply edit_inos_ok|].
Qed.

Lemma changed_handle s s' h : changed s s' -> handle_ok s h -> handle_ok s' h.
Proof.
  intros [He|(id & d & name & n & Hd & Hn & Hl & Hi & ->)] Hok; [|by apply add_node_handle_ok].
  by eapply (edits_keep (fun s => handle_ok s h)), Hok; [intros ? ?; apply edit_handle_ok|].
Qed.

(** ** Reading and writing *)

(** A file as an unbounded array of bytes, zero past its end. *)
Definition byte_at (l : bytes) (i : nat) : Z := default 0 (l !! i).

Definition write_at (o : Z) (buf l : bytes) : bytes :=
  over o buf (if size l <? o + size buf then resize (o + size buf) l else l).

Lemma size_resize n l : size l <= n -> size (resize n l) = n.
Proof. intros. unfold resize. rewrite size_app, size_replicate_nat. lia. Qed.

Lemma byte_at_resize n l i : byte_at (resize n l) i = byte_at l i.
Proof.
  unfold byte_at, resize. destruct (decide (i < length l)%nat); [by rewrite lookup_app_l|].
  rewrite lookup_app_r by lia. rewrite (lookup_ge_None_2 l) by lia. cbn.
  destruct (replicate _ 0 !! _) as [x|] eqn:E; [|done]. by apply lookup_replicate in E as [-> _].
Qed.

(** Writing replaces the bytes from the position on, grows the file if the end
    is past its end, and fills a gap with zeroes. *)
Lemma write_at_spec o buf l : 0 <= o ->
  size (write_at o buf l) = Z.max (size l) (o + size buf) /\
  forall i, byte_at (write_at o buf l) i = if decide (o <= Z.of_nat i < o + size buf) then byte_at buf (i - Z.to_nat o) else byte_at l i.
Proof.
  intros Ho. unfold write_at. pose proof (size_nonneg buf). pose proof (size_nonneg l).
  set (l1 := if size l <? o + size buf then resize (o + size buf) l else l).
  assert (size l1 = Z.max (size l) (o + size buf)) as Hs by (unfold l1; case_bools; rewrite ?size_resize; lia).
  assert (forall i, byte_at l1 i = byte_at l i) as Hb by (intros i; unfold l1; case_bools; [apply byte_at_resize|done]).
  split; [rewrite size_over; lia|]. intros i. unfold byte_at. rewrite lookup_over by lia. case_decide; [done|]. apply Hb.
Qed.

Lemma handle_write_run ino node off f o buf s : nodes s !! node = Some (AFile f) -> offsets s !! off = Some o -> 0 <= o ->
  o + size buf < 2 ^ 64 ->
  handle_write (RamFileHandle ino node off) buf s =
    Ok (set_offset (set_file s node f (write_at o buf (data f))) off (o + size buf), RamFileHandle ino node off, inl (size buf)).
Proof.
  intros Hf Ho Hpos Hlt. pose proof (size_nonneg buf). pose proof (size_nonneg (data f)). unfold handle_write, file_of. rewrite Hf, Ho. cbn [unwrap mbind outcome_bind].
  rewrite chk_ok by lia. cbn [mbind outcome_bind]. rewrite put_ok; [done|done|]. case_bools; [rewrite size_resize|]; lia.
Qed.

Lemma handle_read_run ino node off f o len s : nodes s !! node = Some (AFile f) -> offsets s !! off = Some o -> 0 <= o -> 0 <= len ->
  exists s', handle_read (RamFileHandle ino node off) len s =
    Ok (s', RamFileHandle ino node off, inl (sub o (Z.max 0 (Z.min len (size (data f) - o))) (data f))) /\
  s' = set_offset s off (o + Z.max 0 (Z.min len (size (data f) - o))).
Proof.
  intros Hf Ho Hpos Hlen. unfold handle_read, file_of. rewrite Hf, Ho. cbn [unwrap mbind outcome_bind]. case_bools.
  - rewrite Z.max_l by lia. eexists. split; [done|]. unfold set_offset. rewrite Z.add_0_r.
    destruct s as [ns ino0 offs oo]. cbn in *. f_equal. symmetry. by apply list_insert_id.
  - rewrite get_ok by lia. cbn [mbind outcome_bind]. rewrite Z.max_r by lia. by eexists.
Qed.

End steps.

End RamFsInv.
