(* ===== verification/VfsProps.v ===== *)
(** Properties of paths, the VFS, the in-memory file system and directory
    listings, with concrete inputs for their hypotheses.

    [tmp_table] is the mount table of a system with only the in-memory file
    system, at [/tmp]. *)

From Stdlib Require Import ZArith Lia.
From stdpp Require Import base numbers gmap list sorting.
From S2P Require Import Prelude Bits Bytes FsTypes Path Vfs RamFs RamFsInv.

Local Open Scope Z_scope.

Module VfsProps.
Import Bytes FsTypes Path Vfs RamFs RamFsInv.

(** ** A system with one file system *)

#[global] Instance no_foreign : ForeignInode unit Empty_set := {
  foreign_ino f := match f with end; foreign_type f := match f with end;
  foreign_has_entries f := match f with end; foreign_insert_alien f := match f with end;
}.
#[global] Instance no_inodes : Inodes unit Empty_set Empty_set := {
  i_stat f := match f with end; i_open f := match f with end; i_lookup f := match f with end; i_create f := match f with end;
  i_mkdir f := match f with end; i_unlink f := match f with end; i_rmdir f := match f with end; i_take_child f := match f with end;
  i_insert_child f := match f with end; i_readlink f := match f with end; i_symlink f := match f with end; i_chmod f := match f with end;
}.
#[global] Instance no_handles : FileHandles unit Empty_set := {
  h_read h := match h with end; h_write h := match h with end; h_close h := match h with end; h_stat h := match h with end;
  h_getdents64 h := match h with end; h_dup h := match h with end; h_seek h := match h with end; h_chmod h := match h with end;
  h_name h := match h with end; h_drop h := match h with end;
}.
#[global, refine] Instance no_fs_laws : FsLaws (S := unit) (I := Empty_set) (H := Empty_set) := { fs_ok _ := True }.
Proof. all: intros []. Defined.
#[global, refine] Instance no_foreign_laws : ForeignLaws (O := unit) (F := Empty_set) (HO := Empty_set) := { foreign_laws := no_fs_laws }.
Proof. intros []. Defined.

Abbreviation St := (RamState unit Empty_set).
Abbreviation Node_ := (Child Empty_set).

(** ["/tmp"]. *)
Definition TMP : bytes := [47; 116; 109; 112].
Definition tmp_table : list (MountEntry (S := St) (I := Node_)) := mount TMP ramfs_root [].
Definition boot : St := ramfs_new ().

(** A path of bytes below [/tmp], each component one letter. *)
Definition tmp_path (letters : list Z) : bytes := abs_path ([116; 109; 112] :: ((fun c => [c]) <$> letters)).

(** The state after an operation that succeeds. *)
Definition after {A} (m : Fs St A) (s : St) : St := match m s with Ok (s', inl _) => s' | _ => s end.
Definition result {A} (m : Fs St A) (s : St) : option (A + Errno) := match m s with Ok (_, r) => Some r | _ => None end.

Lemma tmp_clean : clean TMP.
Proof.
  exists [[116; 109; 112]]. split; [|done]. repeat constructor; try done.
Qed.

Lemma tmp_table_ok : table_ok tmp_table.
Proof. apply mount_ok; [apply tmp_clean|]. by repeat constructor. Qed.

Lemma ramfs_root_law p : root_law (mkMount p (ramfs_root : Fs St Node_)).
Proof. split; [by intros s s' r [= <- <-]|by intros s s' i _ [= <-]]. Qed.

Lemma tmp_roots : Forall root_law tmp_table.
Proof. constructor; [apply ramfs_root_law|constructor]. Qed.

Lemma boot_ok : ram_fs_ok boot.
Proof.
  split_and!; [by apply ram_new_ok| |done]. intros id f Hf. cbn in Hf. by apply lookup_singleton_Some in Hf as [_ [=]].
Qed.

(** ** Paths *)



(** The file system a clean path is looked up in is the one mounted at the
    longest prefix of its components, whatever the order of the [mount]s; what
    is walked below its root are the remaining components; no mount matches
    exactly when no mounted prefix is a prefix of the components. *)
Theorem resolve_longest_mount {S I : Type} (mounts : list (bytes * Fs S I)) qs :
  Forall (fun m => clean m.1) mounts -> Forall name_comp qs ->
  let table := foldl (fun t m => mount m.1 m.2 t) [] mounts in
  match find_mount table (abs_path qs) with
  | Some e =>
      exists ps, (prefix e, fs_root e) ∈ mounts /\ prefix e = abs_path ps /\ ps `prefix_of` qs /\
        components (mount_rel e (abs_path qs)) = drop (length ps) qs /\
        forall m ps', m ∈ mounts -> Forall name_comp ps' -> m.1 = abs_path ps' -> ps' `prefix_of` qs -> (length ps' <= length ps)%nat
  | None => forall m ps', m ∈ mounts -> Forall name_comp ps' -> m.1 = abs_path ps' -> ~ ps' `prefix_of` qs
  end.
Proof.
  intros Hm Hqs table.
  assert (forall t0, table_ok t0 -> table_ok (foldl (fun t m => mount m.1 m.2 t) t0 mounts) /\
    foldl (fun t m => mount m.1 m.2 t) t0 mounts ≡ₚ ((fun m => mkMount m.1 m.2) <$> mounts) ++ t0) as Hall.
  { clear Hqs table. induction Hm as [|m mounts Hc _ IH]; intros t0 Ht0; [done|]. cbn [foldl].
    destruct (IH (mount m.1 m.2 t0)) as [H1 H2]; [by apply mount_ok|]. split; [done|]. rewrite H2, mount_perm. cbn.
    by rewrite Permutation_middle. }
  destruct (Hall []) as [[Hs Hcl] Hperm]; [by repeat constructor|]. rewrite app_nil_r in Hperm.
  fold table in Hs, Hcl, Hperm.
  assert (forall m, m ∈ mounts -> mkMount m.1 m.2 ∈ table) as Hin.
  { intros m Hmm. rewrite Hperm. by apply (list_elem_of_fmap_2 (fun m => mkMount m.1 m.2)). }
  destruct (find_mount table (abs_path qs)) as [e|] eqn:He.
  - pose proof (find_mount_longest table (abs_path qs) e Hs He) as (Hel & Hme & Hlong).
    pose proof (proj1 (Forall_forall _ _) Hcl e Hel) as (ps & Hps & Hpe). pose proof Hme as Hpre.
    apply (mount_matches_clean e ps qs Hpe Hps Hqs) in Hpre. exists ps. split_and!; try done.
    + rewrite Hperm in Hel. apply list_elem_of_fmap in Hel as ([p r] & -> & Hpr). done.
    + by apply mount_rel_clean.
    + intros m ps' Hmm Hps' Heq Hpre'. specialize (Hlong (mkMount m.1 m.2) (Hin m Hmm)).
      rewrite (mount_matches_clean (mkMount m.1 m.2) ps' qs Heq Hps' Hqs) in Hlong. specialize (Hlong Hpre').
      cbn [prefix] in Hlong. rewrite Heq, Hpe in Hlong. destruct (prefix_weak_total _ _ _ Hpre Hpre') as [[d ->]|Hle]; [|by apply prefix_length].
      destruct d as [|x xs]; [by rewrite app_nil_r|]. pose proof (abs_path_longer ps x xs Hps') as Hlt. unfold abs_path in Hlt, Hlong. lia.
  - intros m ps' Hmm Hps' Heq Hpre'. unfold find_mount in He. apply fmap_None, list_find_None in He.
    pose proof (proj1 (Forall_forall _ _) He _ (Hin m Hmm)) as Hf. apply Hf.
    by apply (mount_matches_clean (mkMount m.1 m.2) ps' qs Heq Hps' Hqs).
Qed.
Lemma resolve_longest_mount_witness :
  let mounts := [(ROOT, ramfs_root : Fs St Node_); (TMP, ramfs_root); (tmp_path [97], ramfs_root)] in
  Forall (fun m => clean m.1) mounts /\
  prefix <$> find_mount (foldl (fun t m => mount m.1 m.2 t) [] mounts) (tmp_path [97; 98]) = Some (tmp_path [97]) /\
  prefix <$> find_mount (foldl (fun t m => mount m.1 m.2 t) [] mounts) (tmp_path [98]) = Some TMP /\
  match find_mount (foldl (fun t m => mount m.1 m.2 t) [] mounts) (tmp_path [97; 98]) with
  | Some e => exists ps, prefix e = abs_path ps /\ components (mount_rel e (tmp_path [97; 98])) = drop (length ps) [[116; 109; 112]; [97]; [98]]
  | None => False
  end.
Proof.
  intros mounts.
  assert (Forall (fun m => clean m.1) mounts) as Hm.
  { repeat constructor; [by exists []|apply tmp_clean|apply clean_abs_path; repeat constructor; done]. }
  assert (Forall name_comp [[116; 109; 112]; [97]; [98]]) as Hq by (repeat constructor; done).
  pose proof (resolve_longest_mount mounts [[116; 109; 112]; [97]; [98]] Hm Hq) as Hr. cbv zeta in Hr.
  split_and!; [exact Hm|vm_compute; reflexivity|vm_compute; reflexivity|]. unfold tmp_path. cbn [fmap list_fmap].
  change (match find_mount (foldl (fun t m => mount m.1 m.2 t) [] mounts) (abs_path [[116; 109; 112]; [97]; [98]]) with
    | Some e => exists ps, prefix e = abs_path ps /\ components (mount_rel e (abs_path [[116; 109; 112]; [97]; [98]])) = drop (length ps) [[116; 109; 112]; [97]; [98]]
    | None => False end).
  destruct (find_mount _ _) as [e|]; [|exfalso; apply (Hr (ROOT, (ramfs_root : Fs St Node_)) []); [by left|done|done|apply prefix_nil]].
  destruct Hr as (ps & _ & Hp & _ & Hc & _). by exists ps.
Defined.

(** ** Creating *)

Section create.
Context {S I H : Type} `{Inodes S I H} `{!FsLaws (S := S) (I := I) (H := H)}.

(** [mkdir] on any file systems that keep the promises of [FsLaws]: when
    it succeeds on a clean path that is not a mount point, the path resolves
    to a directory, and every path that resolved before, followed through
    symbolic links or not, still resolves to the same inode. *)
Theorem vfs_mkdir_spec (table : list (MountEntry (S := S) (I := I))) qs c s s' :
  table_ok table -> Forall root_law table -> fs_ok s -> Forall name_comp qs -> name_comp c ->
  (forall e, e ∈ table -> prefix e <> abs_path (qs ++ [c])) ->
  Vfs.mkdir table (abs_path (qs ++ [c])) s = Ok (s', inl ()) ->
  fs_ok s' /\
  (exists j, resolve table (abs_path (qs ++ [c])) s' = Ok (s', inl j) /\ file_type j s' = Ok Directory) /\
  (forall p ff i, resolve_inner table MAX_SYMLINK_HOPS p ff s = Ok (s, inl i) -> resolve_inner table MAX_SYMLINK_HOPS p ff s' = Ok (s', inl i)).
Proof.
  intros Ht Hroots Hok Hqs Hc Hnm. unfold Vfs.mkdir, parent_and_leaf.
  rewrite split_parent_snoc; [|by apply name_comps|apply Hc].
  intros (s1 & pl & [= <- <-] & Hr)%fs_bind_inl. cbn [fst snd] in Hr. apply fs_bind_inl in Hr as (s1 & d & Hd & Hr).
  pose proof (resolve_pure _ _ _ _ _ _ _ Hroots Hd) as ->.
  apply fs_bind_inl in Hr as (s1 & j & Hj & [= ->]). apply mkdir_law in Hj as (Hok' & Hext & Hl & Hty); [|done].
  split_and!; [done| |].
  - exists j. split; [|done]. eapply resolve_snoc; try done. by eapply resolve_mono.
  - intros p ff i. by apply resolve_mono.
Qed.
End create.

Lemma vfs_mkdir_spec_witness :
  Vfs.mkdir tmp_table (tmp_path [97]) boot = Ok (after (Vfs.mkdir tmp_table (tmp_path [97])) boot, inl ()) /\
  exists j, resolve tmp_table (tmp_path [97]) (after (Vfs.mkdir tmp_table (tmp_path [97])) boot) =
    Ok (after (Vfs.mkdir tmp_table (tmp_path [97])) boot, inl j) /\ file_type j (after (Vfs.mkdir tmp_table (tmp_path [97])) boot) = Ok Directory.
Proof.
  assert (Vfs.mkdir tmp_table (tmp_path [97]) boot = Ok (after (Vfs.mkdir tmp_table (tmp_path [97])) boot, inl ())) as Hr by (vm_compute; reflexivity).
  split; [exact Hr|].
  apply (vfs_mkdir_spec tmp_table [[116; 109; 112]] [97] boot); [apply tmp_table_ok|apply tmp_roots|apply boot_ok
    |repeat constructor; done|repeat constructor; done| |exact Hr].
  intros e He. apply list_elem_of_singleton in He as ->. vm_compute. done.
Defined.

(** ** The in-memory file system *)

(** The states of the file system, with the handles open on it. *)
Inductive ram_reach {O F HO} `{!ForeignInode O F} `{!Inodes O F HO} : RamState O F -> list RamHandle -> Prop :=
| reach_init (o : O) : ram_reach (ramfs_new o) []
| reach_step s hs s' : ram_reach s hs -> NEXT_INO s + 1 < 2 ^ 64 -> files_fit s -> ram_step hs s s' -> ram_reach s' hs
| reach_open s hs id flags s' x : ram_reach s hs -> NEXT_INO s + 1 < 2 ^ 64 -> files_fit s -> open id flags s = Ok (s', inl x) -> ram_reach s' (x :: hs).

Lemma open_handle_ok {O F HO} `{!ForeignInode O F} `{!Inodes O F HO} (s s' : RamState O F) id flags x :
  files_fit s -> open id flags s = Ok (s', inl x) -> handle_ok s' x.
Proof.
  intros Hfit (n & Hn & Hf)%get_node_inv. destruct n as [d|f|l]; [| |done].
  - apply fs_bind_inl in Hf as (s1 & es & _ & [= _ <-]). cbn. lia.
  - set (f1 := if negb (Z.land flags TRUNC =? 0) then mkRamFile (f_ino f) [] (f_mode f) else f) in Hf.
    set (o := if negb (Z.land flags APPEND =? 0) then size (data f1) else 0) in Hf. cbn in Hf. injection Hf as <- <-.
    exists f1, o. cbn. split_and!.
    + apply lookup_insert_eq.
    + apply list_lookup_middle. done.
    + unfold f1. by case_match.
    + unfold o. case_match; [apply size_nonneg|lia].
    + specialize (Hfit _ _ Hn). unfold o, f1. repeat case_match; cbn; try lia; unfold size; cbn; lia.
Qed.


(** Create a file, open it, unlink it: the handle is still good. *)
Definition s_created : St := after (create root_id [97]) boot.
Definition s_opened : St := after (open 1 0) s_created.
Definition s_unlinked : St := after (unlink root_id [97]) s_opened.

Definition all_empty (s : St) : bool :=
  forallb (fun p => match p.2 with AFile f => bool_decide (data f = []) | _ => true end) (map_to_list (nodes s)).

Lemma small_fit (s : St) : all_empty s = true -> files_fit s.
Proof.
  unfold all_empty. rewrite forallb_forall. intros Hs id f Hf. apply elem_of_map_to_list, list_elem_of_In, Hs in Hf. cbn in Hf.
  apply bool_decide_eq_true in Hf. rewrite Hf. unfold size. cbn. lia.
Qed.


(** C29: A write to a file of the in-memory file system puts the bytes at the
    position, grows the file to the end of the write if that is past its end
    and fills the gap with zeroes, and changes no other byte; any other handle
    on the file, whatever its position, then reads exactly these bytes back
    after seeking there. *)
Theorem ramfs_write_read {O F} `{!ForeignInode O F} (s : RamState O F) ino1 ino2 node off1 off2 f o o2 buf :
  nodes s !! node = Some (AFile f) -> offsets s !! off1 = Some o -> offsets s !! off2 = Some o2 ->
  0 <= o -> o + size buf < 2 ^ 63 -> size (data f) < 2 ^ 63 ->
  exists s1 f1 s2 s3,
    handle_write (RamFileHandle ino1 node off1) buf s = Ok (s1, RamFileHandle ino1 node off1, inl (size buf)) /\
    nodes s1 !! node = Some (AFile f1) /\ f_mode f1 = f_mode f /\
    size (data f1) = Z.max (size (data f)) (o + size buf) /\
    (forall i, byte_at (data f1) i = if decide (o <= Z.of_nat i < o + size buf) then byte_at buf (i - Z.to_nat o) else byte_at (data f) i) /\
    (forall id, id <> node -> nodes s1 !! id = nodes s !! id) /\
    handle_seek (RamFileHandle ino2 node off2) o 0 s1 = Ok (s2, RamFileHandle ino2 node off2, inl o) /\
    handle_read (RamFileHandle ino2 node off2) (size buf) s2 = Ok (s3, RamFileHandle ino2 node off2, inl buf).
Proof.
  intros Hf Ho Ho2 Hpos Hlt Hsz. pose proof (size_nonneg buf) as Hb. destruct (write_at_spec o buf (data f) Hpos) as [Hws Hwb].
  set (f1 := mkRamFile (f_ino f) (write_at o buf (data f)) (f_mode f)).
  set (s1 := set_offset (set_file s node f (write_at o buf (data f))) off1 (o + size buf)).
  assert (nodes s1 !! node = Some (AFile f1)) as Hn1 by (cbn; apply lookup_insert_eq).
  assert (exists o2', offsets s1 !! off2 = Some o2') as [o2' Ho2'].
  { cbn. destruct (decide (off1 = off2)) as [->|]; [exists (o + size buf); apply list_lookup_insert_eq; by eapply lookup_lt_Some|].
    exists o2. by rewrite list_lookup_insert_ne. }
  assert (compute_seek (as_i64 o2') (size (data f1)) o 0 = inl o) as Hseek.
  { unfold compute_seek. cbn -[Z.pow]. case_bools; cbn; try lia; done. }
  set (s2 := set_offset s1 off2 o).
  destruct (handle_read_run ino2 node off2 f1 o (size buf) s2) as (s3 & Hr & _); [done| |done|done|].
  { cbn. apply list_lookup_insert_eq. rewrite length_insert. apply lookup_lt_Some in Ho2. lia. }
  exists s1, f1, s2, s3. split_and!; try done.
  - by apply handle_write_run; [..|lia].
  - intros id Hne. cbn. by apply lookup_insert_ne.
  - unfold handle_seek, file_of. rewrite Hn1, Ho2'. cbn [unwrap mbind outcome_bind]. by rewrite Hseek.
  - rewrite Hr. do 2 f_equal. cbn [data f1] in *. rewrite Hws. rewrite Z.max_r, Z.min_l by lia.
    f_equal. unfold write_at. apply sub_over_eq; [done|done|]. case_bools; [rewrite size_resize|]; lia.
Qed.

(** Three bytes at position 2 of an empty file, read back through a second
    handle. *)
Definition s_two : St := after (open 1 0) s_opened.
Definition s_far : St := set_offset s_two 0 2.

Lemma ramfs_write_read_witness :
  exists s1 f1 s2 s3,
    handle_write (RamFileHandle 2 1 0) [7; 8; 9] s_far = Ok (s1, RamFileHandle 2 1 0, inl 3) /\
    nodes s1 !! 1%nat = Some (AFile f1) /\ data f1 = [0; 0; 7; 8; 9] /\
    handle_seek (RamFileHandle 2 1 1) 2 0 s1 = Ok (s2, RamFileHandle 2 1 1, inl 2) /\
    handle_read (RamFileHandle 2 1 1) 3 s2 = Ok (s3, RamFileHandle 2 1 1, inl [7; 8; 9]).
Proof.
  destruct (ramfs_write_read s_far 2 2 1 0 1 (mkRamFile 2 [] 420) 2 0 [7; 8; 9])
    as (s1 & f1 & s2 & s3 & Hw & Hn & _ & _ & _ & _ & Hs & Hr); try (vm_compute; done).
  exists s1, f1, s2, s3. split_and!; [exact Hw|exact Hn| |exact Hs|exact Hr].
  vm_compute in Hw. injection Hw as <-. vm_compute in Hn. injection Hn as <-. reflexivity.
Defined.

Section rename.
Context {O F HO : Type} `{!ForeignInode O F} `{!Inodes O F HO} `{!ForeignLaws (O := O) (F := F) (HO := HO)}.

End rename.

(** The file [/tmp/a] moves to [/tmp/b]; moving it onto itself under a taken
    name fails and changes nothing. *)
Definition s_ab : St := after (mkdir root_id [98]) s_created.


(** ** Directory listings *)

(** C32: A program that calls [getdents64] on a directory snapshot with a buffer
    of at least 280 bytes until it returns 0, walking the records by their
    lengths, reads every entry exactly once, in order, with its inode number,
    type and full name, and the calls end. *)
Theorem getdents_lists_all entries buf :
  Forall entry_ok entries -> Z.of_nat (length entries) < 2 ^ 62 -> 280 <= size buf ->
  list_all (S (length entries)) entries 0 buf = Some (dirents_of entries 0).
Proof. intros Hes Hlen Hbuf. rewrite list_all_ok by (try done; lia). by rewrite drop_0. Qed.

Lemma getdents_lists_all_witness :
  let es := [new_entry 1 Directory DOT; new_entry 1 Directory DOTDOT; new_entry 2 Regular [97; 98; 99]] in
  list_all 4 es 0 (replicate 280 255) = Some (dirents_of es 0) /\ dirents_of es 0 !! 2%nat = Some (mkDirent64 2 3 8 [97; 98; 99]).
Proof.
  intros es. split; [|vm_compute; reflexivity].
  apply (getdents_lists_all es (replicate 280 255)); [|vm_compute; reflexivity|vm_compute; done].
  repeat (apply Forall_cons; split; [apply new_entry_ok; [lia|split; [vm_compute; done|repeat constructor; lia]]|]). constructor.
Defined.

End VfsProps.
