(* ===== verification/VfsDemo.v ===== *)
(** Paths on which resolution, [rename] and [getdents64] do not do what their
    comments say, evaluated on small trees in [/tmp]. *)

From Stdlib Require Import ZArith Lia.
From stdpp Require Import base numbers gmap list sorting.
From S2P Require Import Prelude Bits Bytes FsTypes Path Vfs RamFs RamFsInv VfsProps.

Local Open Scope Z_scope.

Module VfsDemo.
Import Bytes FsTypes Path Vfs RamFs RamFsInv VfsProps.

(** One-letter names. *)
Definition a := 97.
Definition d := 100.
Definition e := 101.
Definition f := 102.
Definition l := 108.
Definition x := 120.
Definition y := 121.

(** A sequence of operations, all of which succeed. *)
Definition runs (ops : list (Fs St unit)) (s : St) : St := foldl (fun s op => after op s) s ops.
Definition mkd (p : list Z) : Fs St unit := Vfs.mkdir tmp_table (tmp_path p).
Definition mkf (p : list Z) : Fs St unit := _ ← create_and_open tmp_table (tmp_path p) CREAT; mret ().
Definition lnk (target : bytes) (p : list Z) : Fs St unit := Vfs.symlink tmp_table target (tmp_path p).
Definition kind_of (m : Fs St Stat) (s : St) : option (FileType + Errno) :=
  (fun r => match r with inl st => inl (type_of_mode (st_mode st)) | inr e => inr e end) <$> result m s.

(** [/tmp/d/f] is a file, [/tmp/y] a link to [/tmp/d], [/tmp/x] a link to
    [/tmp/y]. *)
Definition chain : St := runs [mkd [d]; mkf [d; f]; lnk (tmp_path [d]) [y]; lnk (tmp_path [y]) [x]] boot.

(** [resolve_no_follow] is documented to leave only the last component alone
    and to follow the others; through a link to a link it stops at the second
    one, so [lstat("/tmp/x/f")] is [ENOTDIR] where [stat] finds the file. *)
Theorem lstat_stops_inside_path :
  kind_of (Vfs.stat tmp_table (tmp_path [x; f])) chain = Some (inl Regular) /\
  kind_of (Vfs.lstat tmp_table (tmp_path [x; f])) chain = Some (inr ENOTDIR) /\
  kind_of (Vfs.lstat tmp_table (tmp_path [y; f])) chain = Some (inl Regular).
Proof. vm_compute. split_and!; reflexivity. Qed.

(** [/tmp/d/e/l] is the link [../f], which is [/tmp/d/f]; [/tmp/x] is a link
    to [/tmp/d/e]; [/tmp/f] is a directory. *)
Definition relative : St :=
  runs [mkd [d]; mkf [d; f]; mkd [d; e]; lnk [46; 46; 47; f] [d; e; l]; lnk (tmp_path [d; e]) [x]; mkd [f]] boot.

(** A relative target is resolved against the path that was typed, not against
    the directory that holds the link: the same link names a file through one
    path and a directory through the other. *)
Theorem relative_link_depends_on_path :
  kind_of (Vfs.stat tmp_table (tmp_path [d; e; l])) relative = Some (inl Regular) /\
  kind_of (Vfs.stat tmp_table (tmp_path [x; l])) relative = Some (inl Directory) /\
  result (resolve_no_follow tmp_table (tmp_path [d; e; l])) relative = result (resolve_no_follow tmp_table (tmp_path [x; l])) relative.
Proof. vm_compute. split_and!; reflexivity. Qed.

(** [/tmp/l] is the link [/tmp/d/../f]. *)
Definition dotted : St := runs [mkd [d]; mkf [f]; lnk (tmp_path [d] ++ [47; 46; 46; 47; f]) [l]] boot.

(** An absolute target is not normalized, so a link through [..] cannot be
    followed, although the path itself can be used. *)
Theorem absolute_link_with_dotdot :
  kind_of (Vfs.stat tmp_table (normalize_path ROOT (tmp_path [d] ++ [47; 46; 46; 47; f]))) dotted = Some (inl Regular) /\
  kind_of (Vfs.stat tmp_table (tmp_path [l])) dotted = Some (inr EINVAL).
Proof. vm_compute. split_and!; reflexivity. Qed.

(** [rename] of a directory to a path inside itself succeeds: the directory
    leaves the tree and becomes its own entry. *)
Definition swallowed : St := runs [mkd [a]; Vfs.rename tmp_table (tmp_path [a]) (tmp_path [a; x])] boot.

Theorem rename_into_itself :
  result (Vfs.rename tmp_table (tmp_path [a]) (tmp_path [a; x])) (runs [mkd [a]] boot) = Some (inl ()) /\
  kind_of (Vfs.stat tmp_table (tmp_path [a])) swallowed = Some (inr ENOENT) /\
  result (RamFs.lookup 1 [x]) swallowed = Some (inl (Own 1%nat)).
Proof. vm_compute. split_and!; reflexivity. Qed.

(** A buffer too small for the next record reads as the end of the directory. *)
Theorem short_buffer_ends_listing :
  let es := [new_entry 1 Directory DOT; new_entry 2 Regular [a; x; y; l; e; d; f]] in
  list_all 3 es 0 (replicate 31 0) = Some [dirent_of (new_entry 1 Directory DOT) 1] /\
  list_all 3 es 0 (replicate 280 0) = Some (dirents_of es 0).
Proof. vm_compute. split_and!; reflexivity. Qed.

Section cross.
Context {O F HO : Type} `{!ForeignInode O F} `{!Inodes O F HO}.

(** [vfs::rename] is documented not to work across file systems; into the
    in-memory file system it does: the entry leaves the other file system and
    the foreign inode is stored in the directory in memory. *)
Theorem rename_crosses_file_systems (s : RamState O F) (dir g : F) (o : O) i dd old_leaf new_leaf :
  i_take_child dir old_leaf (others s) = Ok (o, inl g) ->
  nodes s !! i = Some (ADir dd) -> entries dd !! new_leaf = None ->
  exists s', rename_nodes (Foreign dir) old_leaf (Own i) new_leaf s = Ok (s', inl ()) /\
    others s' = o /\ linked s' i new_leaf (Foreign g).
Proof.
  intros Ht Hi Hn. unfold rename_nodes. cbn [i_take_child i_insert_child ram_inodes].
  eexists. split_and!.
  - unfold mbind at 1, fs_bind at 1. unfold mbind at 1, fs_bind at 1. unfold on_others. rewrite Ht. cbn [mret fs_ret].
    etrans; [eapply fs_run, attempt_ok; unfold insert_child; etrans; [eapply dir_node_run; exact Hi|]; rewrite Hn; reflexivity|]. reflexivity.
  - done.
  - exists (mkRamDir (d_ino dd) (<[new_leaf := Foreign g]> (entries dd)) (d_mode dd)). cbn. by rewrite !lookup_insert_eq.
Qed.
End cross.

End VfsDemo.
