(* ===== verification/Ext2Format.v ===== *)
(** The on-disk formats of the [ext2] crate: [error.rs], [bitmap.rs],
    [superblock.rs], [bgd.rs], [inode.rs] and [dirent.rs].  Pure byte
    manipulation; a slice out of range and an arithmetic overflow are panics. *)

From Stdlib Require Import ZArith Lia.
From stdpp Require Import base numbers gmap list.
From S2P Require Import Prelude Bits Bytes.

Local Open Scope Z_scope.

Module Ext2Format.
Import Bytes.

Inductive Ext2Error := Io | BadMagic | UnsupportedFeature | NoSpace | TooLarge | NotFound | TooDeep.

#[global] Instance Ext2Error_eq_dec : EqDecision Ext2Error.
Proof. solve_decision. Defined.

(** ** [bitmap.rs] *)

(** The scan of [find_first_free_bit] from [bit], [n] bits left. *)
Fixpoint find_first_free_bit_from (n : nat) (bitmap : bytes) (bit : Z) : may_panic (option Z) :=
  match n with
  | O => Ok None
  | S n' =>
      b ← byte bitmap (bit / 8);
      if Z.land b (Bits.mask bit) =? 0 then Ok (Some bit) else find_first_free_bit_from n' bitmap (bit + 1)
  end.

Definition find_first_free_bit (bitmap : bytes) (valid_bits : Z) : may_panic (option Z) :=
  find_first_free_bit_from (Z.to_nat valid_bits) bitmap 0.

Definition set_bit (bitmap : bytes) (bit : Z) : may_panic bytes :=
  _ ← byte bitmap (bit / 8); Ok (Bits.set bitmap bit).

Definition clear_bit (bitmap : bytes) (bit : Z) : may_panic bytes :=
  _ ← byte bitmap (bit / 8); Ok (Bits.clear bitmap bit).

(** Out of range reads as clear. *)
Definition bit_is_set (bitmap : bytes) (bit : Z) : bool :=
  match bitmap !! Z.to_nat (bit / 8) with
  | Some b => negb (Z.land b (Bits.mask bit) =? 0)
  | None => false
  end.

Fixpoint count_free_from (n : nat) (bitmap : bytes) (bit free : Z) : may_panic Z :=
  match n with
  | O => Ok free
  | S n' =>
      b ← byte bitmap (bit / 8);
      count_free_from n' bitmap (bit + 1) (if Z.land b (Bits.mask bit) =? 0 then free + 1 else free)
  end.

(** The count is truncated to 16 bits. *)
Definition count_free_bits (bitmap : bytes) (valid_bits : Z) : may_panic Z :=
  free ← count_free_from (Z.to_nat valid_bits) bitmap 0 0; Ok (wrap 16 free).

(** ** [superblock.rs] *)

Definition EXT2_MAGIC : Z := 61267.
Definition ROOT_INO : Z := 2.
Definition FEATURE_INCOMPAT_FILETYPE : Z := 2.

Record Superblock := mkSuperblock {
  block_size : Z;
  inodes_count : Z;
  blocks_count : Z;
  inodes_per_group : Z;
  blocks_per_group : Z;
  first_data_block : Z;
  inode_size : Z;
  bgdt_block : Z;
  num_groups : Z;
  first_ino : Z;
}.

Definition parse_superblock (raw : bytes) : outcome Ext2Error Superblock :=
  if size raw <? 1024 then Err Io else
  magic ← get_le 56 2 raw;
  if negb (magic =? EXT2_MAGIC) then Err BadMagic else
  log_block_size ← get_le 24 4 raw;
  bs ← (if log_block_size <? 32 then Ok (wrap 32 (Z.shiftl 1024 log_block_size)) else Panic);
  bpg ← get_le 32 4 raw;
  ipg ← get_le 40 4 raw;
  inodes ← get_le 0 4 raw;
  blocks ← get_le 4 4 raw;
  first_data ← get_le 20 4 raw;
  rev_level ← get_le 76 4 raw;
  isize ← (if rev_level =? 0 then Ok 128 else get_le 88 2 raw);
  feature_incompat ← (if rev_level =? 0 then Ok 0 else get_le 96 4 raw);
  fino ← (if rev_level =? 0 then Ok 11 else get_le 84 4 raw);
  if negb (Z.ldiff feature_incompat FEATURE_INCOMPAT_FILETYPE =? 0) then Err UnsupportedFeature else
  sum ← chk 32 (blocks + bpg);
  top ← chk 32 (sum - 1);
  groups ← (if bpg =? 0 then Panic else Ok (top / bpg));
  bgdt ← chk 32 (first_data + 1);
  Ok {| block_size := bs; inodes_count := inodes; blocks_count := blocks;
        inodes_per_group := Z.max ipg 1; blocks_per_group := Z.max bpg 1;
        first_data_block := first_data; inode_size := if isize =? 0 then 128 else isize;
        bgdt_block := bgdt; num_groups := Z.max groups 1;
        first_ino := if fino =? 0 then 11 else fino |}.

(** ** [bgd.rs] *)

Record BlockGroupDesc := mkBgd {
  block_bitmap : Z;
  inode_bitmap : Z;
  inode_table : Z;
  free_blocks : Z;
  free_inodes : Z;
}.

Definition parse_bgd (buf : bytes) : may_panic BlockGroupDesc :=
  bb ← get_le 0 4 buf;
  ib ← get_le 4 4 buf;
  it ← get_le 8 4 buf;
  fb ← get_le 12 2 buf;
  fi ← get_le 14 2 buf;
  Ok (mkBgd bb ib it fb fi).

Definition bgd_location (sb : Superblock) (group : Z) : may_panic (Z * Z) :=
  let bgd_per_block := block_size sb / 32 in
  if bgd_per_block =? 0 then Panic else
  bgd_block ← chk 32 (bgdt_block sb + group / bgd_per_block);
  Ok (bgd_block, group mod bgd_per_block * 32).

(** ** [inode.rs] *)

(** A [RawInode] is its bytes. *)
Abbreviation RawInode := bytes.

Definition zeroed (n : Z) : RawInode := replicate (Z.to_nat n) 0.
Definition i_mode (raw : RawInode) : may_panic Z := get_le 0 2 raw.
Definition set_i_mode (raw : RawInode) (v : Z) : may_panic RawInode := put_le 0 2 v raw.
Definition links_count (raw : RawInode) : may_panic Z := get_le 26 2 raw.
Definition set_links_count (raw : RawInode) (v : Z) : may_panic RawInode := put_le 26 2 v raw.
Definition set_blocks_512 (raw : RawInode) (v : Z) : may_panic RawInode := put_le 28 4 v raw.
Definition set_dtime (raw : RawInode) (v : Z) : may_panic RawInode := put_le 20 4 v raw.

Definition has_type (raw : RawInode) (t : Z) : may_panic bool :=
  mode ← i_mode raw; Ok (Z.land mode 61440 =? t).
Definition is_dir (raw : RawInode) : may_panic bool := has_type raw 16384.
Definition is_reg (raw : RawInode) : may_panic bool := has_type raw 32768.
Definition is_symlink (raw : RawInode) : may_panic bool := has_type raw 40960.

Definition inode_size_of (raw : RawInode) : may_panic Z :=
  lo ← get_le 4 4 raw;
  reg ← is_reg raw;
  if reg : bool then hi ← get_le 108 4 raw; Ok (Z.lor (Z.shiftl hi 32) lo) else Ok lo.

Definition set_size (raw : RawInode) (v : Z) : may_panic RawInode :=
  raw1 ← put_le 4 4 (Z.land v (Z.ones 32)) raw;
  reg ← is_reg raw1;
  if reg : bool then put_le 108 4 (wrap 32 (Z.shiftr v 32)) raw1 else Ok raw1.

Definition i_block (raw : RawInode) (i : Z) : may_panic Z := get_le (40 + i * 4) 4 raw.
Definition set_i_block (raw : RawInode) (i v : Z) : may_panic RawInode := put_le (40 + i * 4) 4 v raw.

Definition is_fast_symlink (raw : RawInode) : may_panic bool :=
  sym ← is_symlink raw;
  if sym : bool then n ← inode_size_of raw; Ok (n <? 60) else Ok false.

Definition has_block_pointers (raw : RawInode) : may_panic bool :=
  d ← is_dir raw; r ← is_reg raw; s ← is_symlink raw;
  if d || r || s then f ← is_fast_symlink raw; Ok (negb f) else Ok false.

(** ** [dirent.rs] *)

(** [(8 + name_len + 3) & !3]. *)
Definition dirent_len (name_len : Z) : Z := align_down 2 (8 + name_len + 3).

Definition write_dirent {E} (buf : bytes) (ino rec_len : Z) (name : bytes) (file_type : Z) : outcome E bytes :=
  b1 ← put_le 0 4 ino buf;
  b2 ← put_le 4 2 rec_len b1;
  b3 ← put 6 [wrap 8 (size name)] b2;
  b4 ← put 7 [file_type] b3;
  put 8 name b4.

Record ParsedDirent := mkDirent { d_ino : Z; d_rec_len : Z; d_file_type : Z; d_name : bytes }.

Definition parse_dirent (buf : bytes) (off : Z) : may_panic (option ParsedDirent) :=
  if size buf <? off + 8 then Ok None else
  ino ← get_le off 4 buf;
  rec_len ← get_le (off + 4) 2 buf;
  if rec_len <? 8 then Ok None else
  name_len ← byte buf (off + 6);
  file_type ← byte buf (off + 7);
  if size buf <? off + 8 + name_len then Ok None else
  name ← get (off + 8) name_len buf;
  Ok (Some (mkDirent ino rec_len file_type name)).

(** ** Lemmas *)

Lemma byte_ok {E} l i : 0 <= i < size l -> @byte E l i = Ok (l !!! Z.to_nat i).
Proof.
  intros [H1 H2]. unfold byte. rewrite (proj2 (Z.ltb_ge _ _)) by lia.
  unfold size in H2. destruct (lookup_lt_is_Some_2 l (Z.to_nat i)) as [b Hb]; [lia|].
  by rewrite (list_lookup_total_correct _ _ _ Hb), Hb.
Qed.

(** *** Bitmaps *)

Lemma find_free_spec n l bit : 0 <= bit -> (bit + Z.of_nat n + 7) / 8 <= size l ->
  exists r, find_first_free_bit_from n l bit = Ok r /\
    match r with
    | Some i => bit <= i < bit + Z.of_nat n /\ Bits.get l i = false /\ forall j, bit <= j < i -> Bits.get l j = true
    | None => forall j, bit <= j < bit + Z.of_nat n -> Bits.get l j = true
    end.
Proof.
  revert bit. induction n as [|n IH]; intros bit Hb Hl; cbn [find_first_free_bit_from].
  - exists None. split; [done|]. intros; lia.
  - rewrite byte_ok; cycle 1.
    { pose proof (Z.div_pos bit 8 Hb ltac:(lia)).
      pose proof (Z.div_mod bit 8 ltac:(lia)). pose proof (Z.mod_pos_bound bit 8 ltac:(lia)).
      pose proof (Z.div_mod (bit + Z.of_nat (S n) + 7) 8 ltac:(lia)).
      pose proof (Z.mod_pos_bound (bit + Z.of_nat (S n) + 7) 8 ltac:(lia)). lia. }
    cbn [mbind outcome_bind].
    assert (Bits.get l bit = negb (Z.land (l !!! Z.to_nat (bit / 8)) (Bits.mask bit) =? 0)) as Hg by done.
    destruct (_ =? 0); cbn [negb] in Hg.
    + exists (Some bit). split; [done|]. split; [lia|]. split; [done|]. intros; lia.
    + destruct (IH (bit + 1)) as (r & He & Hr); [lia|by replace (bit + 1 + Z.of_nat n + 7) with (bit + Z.of_nat (S n) + 7) by lia|].
      exists r. split; [done|]. destruct r as [i|].
      * destruct Hr as (Hi & Hfree & Hbefore). split; [lia|]. split; [done|]. intros j Hj.
        destruct (decide (j = bit)) as [->|]; [done|]. apply Hbefore. lia.
      * intros j Hj. destruct (decide (j = bit)) as [->|]; [done|]. apply Hr. lia.
Qed.

(** The number of free bits among the first [n]. *)
Fixpoint free_bits (n : nat) (l : bytes) : Z :=
  match n with
  | O => 0
  | S n' => free_bits n' l + (if Bits.get l (Z.of_nat n') then 0 else 1)
  end.

Lemma free_bits_bound n l : 0 <= free_bits n l <= Z.of_nat n.
Proof. induction n as [|n IH]; [done|]. cbn [free_bits]. case_match; lia. Qed.

Lemma free_bits_ext n l l' : (forall i, 0 <= i < Z.of_nat n -> Bits.get l' i = Bits.get l i) -> free_bits n l' = free_bits n l.
Proof.
  induction n as [|n IH]; intros H; [done|]. cbn [free_bits]. rewrite IH by (intros; apply H; lia). by rewrite H by lia.
Qed.

Lemma free_bits_zero n l : free_bits n l = 0 <-> forall i, 0 <= i < Z.of_nat n -> Bits.get l i = true.
Proof.
  induction n as [|n IH]; cbn [free_bits]; [split; [intros; lia|done]|].
  pose proof (free_bits_bound n l). split.
  - intros H0 i Hi. destruct (Bits.get l (Z.of_nat n)) eqn:Hg; [|lia].
    destruct (decide (i = Z.of_nat n)) as [->|]; [done|]. apply IH; lia.
  - intros Hall. rewrite (Hall (Z.of_nat n)) by lia. rewrite (proj2 IH); [done|]. intros; apply Hall; lia.
Qed.

(** Setting a free bit takes one, clearing a used one gives one back. *)
Lemma free_bits_change n l l' i : 0 <= i < Z.of_nat n ->
  (forall j, 0 <= j -> j <> i -> Bits.get l' j = Bits.get l j) -> Bits.get l' i = true -> Bits.get l i = false ->
  free_bits n l' = free_bits n l - 1.
Proof.
  induction n as [|n IH]; intros Hi Hne H1 H0; [lia|]. cbn [free_bits].
  destruct (decide (i = Z.of_nat n)) as [->|].
  - rewrite H1, H0. rewrite (free_bits_ext n l l'); [lia|]. intros j Hj. apply Hne; lia.
  - rewrite IH by (done || lia). rewrite (Hne (Z.of_nat n)) by lia. lia.
Qed.

Lemma count_free_from_spec n l bit free : 0 <= bit -> (bit + Z.of_nat n + 7) / 8 <= size l ->
  exists r, count_free_from n l bit free = Ok r /\ r = free + (free_bits (Z.to_nat bit + n) l - free_bits (Z.to_nat bit) l).
Proof.
  revert bit free. induction n as [|n IH]; intros bit free Hb Hl; cbn [count_free_from].
  - eexists. split; [done|]. rewrite Nat.add_0_r. lia.
  - rewrite byte_ok; cycle 1.
    { pose proof (Z.div_pos bit 8 Hb ltac:(lia)).
      pose proof (Z.div_mod bit 8 ltac:(lia)). pose proof (Z.mod_pos_bound bit 8 ltac:(lia)).
      pose proof (Z.div_mod (bit + Z.of_nat (S n) + 7) 8 ltac:(lia)).
      pose proof (Z.mod_pos_bound (bit + Z.of_nat (S n) + 7) 8 ltac:(lia)). lia. }
    cbn [mbind outcome_bind].
    assert (Bits.get l bit = negb (Z.land (l !!! Z.to_nat (bit / 8)) (Bits.mask bit) =? 0)) as Hg by done.
    destruct (IH (bit + 1) (if Z.land (l !!! Z.to_nat (bit / 8)) (Bits.mask bit) =? 0 then free + 1 else free)) as (r & He & Hr);
      [lia|by replace (bit + 1 + Z.of_nat n + 7) with (bit + Z.of_nat (S n) + 7) by lia|].
    exists r. split; [done|]. rewrite Hr. replace (Z.to_nat (bit + 1)) with (S (Z.to_nat bit)) by lia.
    replace (S (Z.to_nat bit) + n)%nat with (Z.to_nat bit + S n)%nat by lia. cbn [free_bits].
    rewrite Z2Nat.id by lia. rewrite Hg. destruct (_ =? 0); cbn [negb]; lia.
Qed.

Lemma count_free_bits_spec l valid : 0 <= valid < 2 ^ 16 -> (valid + 7) / 8 <= size l ->
  count_free_bits l valid = Ok (free_bits (Z.to_nat valid) l).
Proof.
  intros Hv Hl. unfold count_free_bits.
  destruct (count_free_from_spec (Z.to_nat valid) l 0 0) as (r & -> & ->); [lia|by rewrite Z2Nat.id, Z.add_0_l by lia|].
  cbn [mbind outcome_bind]. f_equal. change (Z.to_nat 0) with 0%nat. cbn [Nat.add free_bits].
  pose proof (free_bits_bound (Z.to_nat valid) l). unfold wrap. rewrite Z.mod_small by lia. lia.
Qed.

End Ext2Format.
