(* ===== verification/Ext2Volume.v ===== *)
(** The device-backed half of the [ext2] crate ([volume.rs]) over the block
    device interface of the [hal] crate ([hal/src/block.rs]).

    An operation runs on a device and keeps its effects when it fails:
    [Vol A] is a state and error monad in which a panic ends everything. *)

From Stdlib Require Import ZArith Lia.
From stdpp Require Import base numbers gmap list.
From S2P Require Import Prelude Bits Bytes Ext2Format.

Local Open Scope Z_scope.

Import Bytes.

Definition SECTOR_SIZE : Z := 512.

(** [count == 0] means 256 sectors. *)
Definition sector_bytes (count : Z) : Z := (if count =? 0 then 256 else count) * SECTOR_SIZE.

(** The trait [BlockDevice].  [contents] is what is on the device; the laws
    are its contract for a request that fits the buffer and the device, and
    that a buffer keeps its length. *)
Class BlockDevice (D : Type) := {
  read_sectors : D -> Z -> Z -> bytes -> option bytes;
  write_sectors : D -> Z -> Z -> bytes -> option D;
  contents : D -> bytes;
  read_law : forall d lba count buf, 0 <= lba -> 0 <= count ->
    sector_bytes count <= size buf -> lba * SECTOR_SIZE + sector_bytes count <= size (contents d) ->
    read_sectors d lba count buf = Some (over 0 (sub (lba * SECTOR_SIZE) (sector_bytes count) (contents d)) buf);
  read_len : forall d lba count buf b, read_sectors d lba count buf = Some b -> size b = size buf;
  write_law : forall d lba count buf, 0 <= lba -> 0 <= count ->
    sector_bytes count <= size buf -> lba * SECTOR_SIZE + sector_bytes count <= size (contents d) ->
    exists d', write_sectors d lba count buf = Some d' /\
      contents d' = over (lba * SECTOR_SIZE) (sub 0 (sector_bytes count) buf) (contents d);
}.

(** [MemDisk], a device in memory. *)
Definition mem_read (data : bytes) (lba count : Z) (buf : bytes) : option bytes :=
  if size buf <? sector_bytes count then None else
  if size data <? lba * SECTOR_SIZE + sector_bytes count then None else
  Some (over 0 (sub (lba * SECTOR_SIZE) (sector_bytes count) data) buf).

Definition mem_write (data : bytes) (lba count : Z) (buf : bytes) : option bytes :=
  if size buf <? sector_bytes count then None else
  if size data <? lba * SECTOR_SIZE + sector_bytes count then None else
  Some (over (lba * SECTOR_SIZE) (sub 0 (sector_bytes count) buf) data).

#[global, program] Instance mem_disk : BlockDevice bytes := {|
  read_sectors := mem_read; write_sectors := mem_write; contents := fun data => data;
|}.
Next Obligation. intros d lba count buf ? ? ? ?. cbv beta in *. unfold mem_read. case_bools; (done || lia). Qed.
Next Obligation.
  intros d lba count buf b. unfold mem_read. pose proof (size_nonneg (sub (lba * SECTOR_SIZE) (sector_bytes count) d)).
  destruct (Z.ltb_spec (size buf) (sector_bytes count)) as [|Hb]; [done|]. destruct (_ <? _); [done|]. intros [= <-]. apply size_over; [done|].
  unfold size, sub in *. rewrite length_take. unfold sector_bytes, SECTOR_SIZE in *. lia.
Qed.
Next Obligation.
  intros d lba count buf ? ? ? ?. cbv beta in *. unfold mem_write. case_bools; (lia || by eexists).
Qed.

Module Ext2Volume.
Import Ext2Format.

(** ** The monad *)

Definition Vol (D A : Type) : Type := D -> may_panic (D * (A + Ext2Error)).

#[global] Instance vol_ret {D} : MRet (Vol D) := fun A a d => Ok (d, inl a).
#[global] Instance vol_bind {D} : MBind (Vol D) := fun A B f m d =>
  match m d with
  | Ok (d1, inl a) => f a d1
  | Ok (d1, inr e) => Ok (d1, inr e)
  | Err e => match e with end
  | Panic => Panic
  end.

Definition fail {D A} (e : Ext2Error) : Vol D A := fun d => Ok (d, inr e).
Definition lift {D A} (o : may_panic A) : Vol D A := fun d => a ← o; Ok (d, inl a).

(** [.map_err(|_| Ext2Error::Io)]. *)
Definition or_io {D A} (o : option A) : Vol D A :=
  match o with Some a => mret a | None => fail Io end.
(** [.ok_or(Ext2Error::NoSpace)]. *)
Definition or_no_space {D A} (o : option A) : Vol D A :=
  match o with Some a => mret a | None => fail NoSpace end.

(** Running a sequence. *)
Lemma bind_run {S A B} (m : Vol S A) (f : A -> Vol S B) s s1 a : m s = Ok (s1, inl a) -> (m ≫= f) s = f a s1.
Proof. unfold mbind, vol_bind. by intros ->. Qed.

Lemma bind_fail {S A B} (m : Vol S A) (f : A -> Vol S B) s s1 e : m s = Ok (s1, inr e) -> (m ≫= f) s = Ok (s1, inr e).
Proof. unfold mbind, vol_bind. by intros ->. Qed.

Lemma bind_lift {S A B} (o : may_panic A) (f : A -> Vol S B) s a : o = Ok a -> (lift o ≫= f) s = f a s.
Proof. intros ->. done. Qed.

Section volume.
Context {D : Type} `{BlockDevice D}.
Variable sb : Superblock.

Definition dev_read (lba count : Z) (buf : bytes) : Vol D bytes := fun d =>
  match read_sectors d lba count buf with Some b => Ok (d, inl b) | None => Ok (d, inr Io) end.
Definition dev_write (lba count : Z) (buf : bytes) : Vol D unit := fun d =>
  match write_sectors d lba count buf with Some d' => Ok (d', inl ()) | None => Ok (d, inr Io) end.

(** *** Blocks *)

Definition sectors_per_block : Z := wrap 8 (block_size sb / SECTOR_SIZE).

Definition read_block (block_num : Z) (buf : bytes) : Vol D bytes :=
  if size buf <? block_size sb then lift Panic else
  if blocks_count sb <=? block_num then fail Io else
  lba ← lift (chk 32 (block_num * sectors_per_block));
  dev_read lba sectors_per_block buf.

Definition block_vec (block_num : Z) : Vol D bytes :=
  read_block block_num (replicate (Z.to_nat (block_size sb)) 0).

Definition write_block (block_num : Z) (buf : bytes) : Vol D unit :=
  if size buf <? block_size sb then lift Panic else
  if blocks_count sb <=? block_num then fail Io else
  lba ← lift (chk 32 (block_num * sectors_per_block));
  dev_write lba sectors_per_block buf.

(** *** Block group descriptors *)

Definition read_bgd (group : Z) : Vol D BlockGroupDesc :=
  loc ← lift (bgd_location sb group);
  buf ← block_vec loc.1;
  tail ← lift (get loc.2 (size buf - loc.2) buf);
  lift (parse_bgd tail).

(** [cur += delta] on a 16-bit field, in place. *)
Definition adjust16 (off delta : Z) (buf : bytes) : may_panic bytes :=
  if delta =? 0 then Ok buf else
  cur ← get_le off 2 buf;
  put_le off 2 (wrap 16 (cur + delta)) buf.

Definition adjust_bgd_counts (group blocks_delta inodes_delta dirs_delta : Z) : Vol D unit :=
  loc ← lift (bgd_location sb group);
  buf ← block_vec loc.1;
  b1 ← lift (adjust16 (loc.2 + 12) blocks_delta buf);
  b2 ← lift (adjust16 (loc.2 + 14) inodes_delta b1);
  b3 ← lift (adjust16 (loc.2 + 16) dirs_delta b2);
  write_block loc.1 b3.

Definition adjust32 (off delta : Z) (buf : bytes) : may_panic bytes :=
  if delta =? 0 then Ok buf else
  cur ← get_le off 4 buf;
  put_le off 4 (wrap 32 (cur + delta)) buf.

Definition adjust_sb_counts (blocks_delta inodes_delta : Z) : Vol D unit :=
  raw ← dev_read 2 2 (replicate 1024 0);
  r1 ← lift (adjust32 12 blocks_delta raw);
  r2 ← lift (adjust32 16 inodes_delta r1);
  dev_write 2 2 r2.

(** [saturating_sub] then [min]. *)
Definition blocks_in_group (group : Z) : may_panic Z :=
  p ← chk 32 (group * blocks_per_group sb);
  start ← chk 32 (first_data_block sb + p);
  Ok (Z.min (Z.max 0 (blocks_count sb - start)) (blocks_per_group sb)).

Definition inodes_in_group (group : Z) : may_panic Z :=
  start ← chk 32 (group * inodes_per_group sb);
  Ok (Z.min (Z.max 0 (inodes_count sb - start)) (inodes_per_group sb)).

(** *** Allocation *)

(** The search of [alloc_block] from [group], [n] groups left. *)
Fixpoint alloc_block_from (n : nat) (group : Z) : Vol D (option Z) :=
  match n with
  | O => mret None
  | S n' =>
      bgd ← read_bgd group;
      if free_blocks bgd =? 0 then alloc_block_from n' (group + 1) else
      group_blocks ← lift (blocks_in_group group);
      bmap ← block_vec (block_bitmap bgd);
      found ← lift (find_first_free_bit bmap group_blocks);
      match found with
      | Some bit =>
          bmap1 ← lift (set_bit bmap bit);
          _ ← write_block (block_bitmap bgd) bmap1;
          _ ← adjust_bgd_counts group (-1) 0 0;
          _ ← adjust_sb_counts (-1) 0;
          p ← lift (chk 32 (group * blocks_per_group sb));
          base ← lift (chk 32 (first_data_block sb + p));
          block_num ← lift (chk 32 (base + bit));
          _ ← write_block block_num (replicate (Z.to_nat (block_size sb)) 0);
          mret (Some block_num)
      | None => alloc_block_from n' (group + 1)
      end
  end.

Definition alloc_block : Vol D (option Z) := alloc_block_from (Z.to_nat (num_groups sb)) 0.

Definition free_block (block_num : Z) : Vol D unit :=
  if (block_num <? first_data_block sb) || (blocks_count sb <=? block_num) then fail Io else
  let group := (block_num - first_data_block sb) / blocks_per_group sb in
  let bit := (block_num - first_data_block sb) mod blocks_per_group sb in
  bgd ← read_bgd group;
  bmap ← block_vec (block_bitmap bgd);
  bmap1 ← lift (clear_bit bmap bit);
  _ ← write_block (block_bitmap bgd) bmap1;
  _ ← adjust_bgd_counts group 1 0 0;
  adjust_sb_counts 1 0.

Fixpoint alloc_inode_from (n : nat) (group : Z) (is_dir : bool) : Vol D (option Z) :=
  match n with
  | O => mret None
  | S n' =>
      bgd ← read_bgd group;
      if free_inodes bgd =? 0 then alloc_inode_from n' (group + 1) is_dir else
      group_inodes ← lift (inodes_in_group group);
      bmap ← block_vec (inode_bitmap bgd);
      found ← lift (find_first_free_bit bmap group_inodes);
      match found with
      | Some bit =>
          bmap1 ← lift (set_bit bmap bit);
          _ ← write_block (inode_bitmap bgd) bmap1;
          _ ← adjust_bgd_counts group 0 (-1) (if is_dir then 1 else 0);
          _ ← adjust_sb_counts 0 (-1);
          p ← lift (chk 32 (group * inodes_per_group sb));
          q ← lift (chk 32 (p + bit));
          ino ← lift (chk 32 (q + 1));
          mret (Some ino)
      | None => alloc_inode_from n' (group + 1) is_dir
      end
  end.

Definition alloc_inode (is_dir : bool) : Vol D (option Z) := alloc_inode_from (Z.to_nat (num_groups sb)) 0 is_dir.

Definition free_inode (ino : Z) (is_dir : bool) : Vol D unit :=
  if (ino <? 1) || (inodes_count sb <? ino) then fail Io else
  let group := (ino - 1) / inodes_per_group sb in
  let bit := (ino - 1) mod inodes_per_group sb in
  bgd ← read_bgd group;
  bmap ← block_vec (inode_bitmap bgd);
  bmap1 ← lift (clear_bit bmap bit);
  _ ← write_block (inode_bitmap bgd) bmap1;
  _ ← adjust_bgd_counts group 0 1 (if is_dir then -1 else 0);
  adjust_sb_counts 0 1.

(** *** The inode table *)

Definition inode_location (ino : Z) : Vol D (Z * Z) :=
  if (ino <? 1) || (inodes_count sb <? ino) then fail Io else
  let group := (ino - 1) / inodes_per_group sb in
  if num_groups sb <=? group then fail Io else
  let index_in_group := (ino - 1) mod inodes_per_group sb in
  loc ← lift (bgd_location sb group);
  buf ← block_vec loc.1;
  table ← lift (get_le (loc.2 + 8) 4 buf);
  let inodes_per_block := block_size sb / inode_size sb in
  if inodes_per_block =? 0 then lift Panic else
  table_block ← lift (chk 32 (table + index_in_group / inodes_per_block));
  mret (table_block, index_in_group mod inodes_per_block * inode_size sb).

Definition read_inode (ino : Z) : Vol D RawInode :=
  loc ← inode_location ino;
  buf ← block_vec loc.1;
  lift (get loc.2 (inode_size sb) buf).

(** [copy_from_slice] panics unless the lengths agree. *)
Definition write_inode (ino : Z) (raw : RawInode) : Vol D unit :=
  loc ← inode_location ino;
  buf ← block_vec loc.1;
  if negb (size raw =? inode_size sb) then lift Panic else
  buf1 ← lift (put loc.2 raw buf);
  write_block loc.1 buf1.

(** *** Block pointers *)

Definition nonzero (b : Z) : option Z := if b =? 0 then None else Some b.

Definition read_block_ptr (block_num index : Z) : Vol D (option Z) :=
  buf ← block_vec block_num;
  off ← lift (chk 32 (index * 4));
  b ← lift (get_le off 4 buf);
  mret (nonzero b).

Definition block_for_index (raw : RawInode) (index : Z) : Vol D (option Z) :=
  if index <? 12 then b ← lift (i_block raw index); mret (nonzero b) else
  let ptrs_per_block := block_size sb / 4 in
  let indirect_index := index - 12 in
  if indirect_index <? ptrs_per_block then
    b ← lift (i_block raw 12);
    if b =? 0 then mret None else read_block_ptr b indirect_index
  else
  let dbl_index := indirect_index - ptrs_per_block in
  dbl_capacity ← lift (chk 32 (ptrs_per_block * ptrs_per_block));
  if dbl_index <? dbl_capacity then
    b ← lift (i_block raw 13);
    if b =? 0 then mret None else
    l1 ← read_block_ptr b (dbl_index / ptrs_per_block);
    match l1 with
    | None => mret None
    | Some first_level_block => read_block_ptr first_level_block (dbl_index mod ptrs_per_block)
    end
  else
  let tpl_index := dbl_index - dbl_capacity in
  tpl_capacity ← lift (chk 32 (dbl_capacity * ptrs_per_block));
  if tpl_index <? tpl_capacity then
    b ← lift (i_block raw 14);
    if b =? 0 then mret None else
    let rem := tpl_index mod dbl_capacity in
    l1 ← read_block_ptr b (tpl_index / dbl_capacity);
    match l1 with
    | None => mret None
    | Some first_level_block =>
        l2 ← read_block_ptr first_level_block (rem / ptrs_per_block);
        match l2 with
        | None => mret None
        | Some second_level_block => read_block_ptr second_level_block (rem mod ptrs_per_block)
        end
    end
  else mret None.

Definition get_or_alloc_ptr (container_block index : Z) : Vol D Z :=
  buf ← block_vec container_block;
  off ← lift (chk 32 (index * 4));
  existing ← lift (get_le off 4 buf);
  if negb (existing =? 0) then mret existing else
  a ← alloc_block;
  new_block ← or_no_space a;
  buf1 ← lift (put_le off 4 new_block buf);
  _ ← write_block container_block buf1;
  mret new_block.

(** *** Operations that also change the inode the caller holds *)

(** A device operation, leaving the other state alone; reading the inode; replacing it. *)
Definition on_dev {X A} (m : Vol D A) : Vol (D * X) A := fun s =>
  match m s.1 with
  | Ok (d, r) => Ok ((d, s.2), r)
  | Err e => match e with end
  | Panic => Panic
  end.
Definition inode : Vol (D * RawInode) RawInode := fun s => Ok (s, inl s.2).
Definition set_inode (raw : RawInode) : Vol (D * RawInode) unit := fun s => Ok ((s.1, raw), inl ()).

(** The pointer in slot [i] of the inode, allocated when it is zero. *)
Definition slot_or_alloc (i : Z) : Vol (D * RawInode) Z :=
  raw ← inode;
  b ← lift (i_block raw i);
  if negb (b =? 0) then mret b else
  a ← on_dev alloc_block;
  nb ← or_no_space a;
  raw1 ← lift (set_i_block raw i nb);
  _ ← set_inode raw1;
  mret nb.

Definition block_for_index_alloc (index : Z) : Vol (D * RawInode) Z :=
  if index <? 12 then slot_or_alloc index else
  let ptrs_per_block := block_size sb / 4 in
  let indirect_index := index - 12 in
  if indirect_index <? ptrs_per_block then
    indirect_block ← slot_or_alloc 12;
    on_dev (get_or_alloc_ptr indirect_block indirect_index)
  else
  let dbl_index := indirect_index - ptrs_per_block in
  dbl_capacity ← lift (chk 32 (ptrs_per_block * ptrs_per_block));
  if dbl_index <? dbl_capacity then
    dbl_block ← slot_or_alloc 13;
    l1 ← on_dev (get_or_alloc_ptr dbl_block (dbl_index / ptrs_per_block));
    on_dev (get_or_alloc_ptr l1 (dbl_index mod ptrs_per_block))
  else
  let tpl_index := dbl_index - dbl_capacity in
  tpl_capacity ← lift (chk 32 (dbl_capacity * ptrs_per_block));
  if tpl_index <? tpl_capacity then
    tpl_block ← slot_or_alloc 14;
    let rem := tpl_index mod dbl_capacity in
    l1 ← on_dev (get_or_alloc_ptr tpl_block (tpl_index / dbl_capacity));
    l2 ← on_dev (get_or_alloc_ptr l1 (rem / ptrs_per_block));
    on_dev (get_or_alloc_ptr l2 (rem mod ptrs_per_block))
  else fail TooLarge.

(** *** File data *)

(** The loop of [read_file_range]: the bytes from [pos] on, [left] of them,
    in at most [n] rounds. *)
Fixpoint read_loop (n : nat) (raw : RawInode) (pos left : Z) (acc : bytes) : Vol D bytes :=
  match n with
  | O => mret acc
  | S n' =>
      if left <=? 0 then mret acc else
      let bs := block_size sb in
      if bs =? 0 then lift Panic else
      _ ← lift (chk 64 pos);
      let block_off := pos mod bs in
      let k := Z.min (bs - block_off) left in
      found ← block_for_index raw (wrap 32 (pos / bs));
      chunk ← match found with
              | Some block_num => b ← block_vec block_num; lift (get block_off k b)
              | None => mret (replicate (Z.to_nat k) 0)
              end;
      read_loop n' raw (pos + k) (left - k) (acc ++ chunk)
  end.

(** [read_file_range]: the bytes that fill a buffer of [len] bytes. *)
Definition read_file_range (raw : RawInode) (offset len : Z) : Vol D bytes :=
  read_loop (Z.to_nat len) raw offset len [].

Fixpoint write_loop (n : nat) (pos : Z) (data : bytes) : Vol (D * RawInode) unit :=
  match n with
  | O => mret ()
  | S n' =>
      if size data <=? 0 then mret () else
      let bs := block_size sb in
      if bs =? 0 then lift Panic else
      _ ← lift (chk 64 pos);
      let block_off := pos mod bs in
      let k := Z.min (bs - block_off) (size data) in
      block_num ← block_for_index_alloc (wrap 32 (pos / bs));
      _ ← on_dev (if k =? bs then write_block block_num (sub 0 k data)
                  else b ← block_vec block_num;
                       b1 ← lift (put block_off (sub 0 k data) b);
                       write_block block_num b1);
      write_loop n' (pos + k) (sub k (size data - k) data)
  end.

Definition write_file_range (ino offset : Z) (data : bytes) : Vol (D * RawInode) Z :=
  if size data =? 0 then mret 0 else
  _ ← write_loop (length data) offset data;
  new_size ← lift (chk 64 (offset + size data));
  raw ← inode;
  cur ← lift (inode_size_of raw);
  _ ← (if cur <? new_size then raw1 ← lift (set_size raw new_size); set_inode raw1 else mret ());
  raw2 ← inode;
  _ ← on_dev (write_inode ino raw2);
  mret (size data).

(** *** The walk over the blocks of an inode *)

Section walk.
Context {X : Type} (visit : Z -> Vol (D * X) unit).

(** [for idx in idx..idx + n] over the pointers in [buf]. *)
Fixpoint for_ptrs (n : nat) (idx : Z) (buf : bytes) (f : Z -> Vol (D * X) unit) : Vol (D * X) unit :=
  match n with
  | O => mret ()
  | S n' =>
      b ← lift (get_le (idx * 4) 4 buf);
      _ ← (if b =? 0 then mret () else f b);
      for_ptrs n' (idx + 1) buf f
  end.

Definition visit_pointer_block_targets (block_num : Z) : Vol (D * X) unit :=
  buf ← on_dev (block_vec block_num);
  for_ptrs (Z.to_nat (block_size sb / 4)) 0 buf visit.

(** [for i in i..i + n] over the pointers in the inode. *)
Fixpoint for_slots (n : nat) (i : Z) (raw : RawInode) : Vol (D * X) unit :=
  match n with
  | O => mret ()
  | S n' =>
      b ← lift (i_block raw i);
      _ ← (if b =? 0 then mret () else visit b);
      for_slots n' (i + 1) raw
  end.

Definition visit_inode_blocks (raw : RawInode) : Vol (D * X) unit :=
  _ ← for_slots 12 0 raw;
  let ptrs_per_block := Z.to_nat (block_size sb / 4) in
  indirect ← lift (i_block raw 12);
  _ ← (if indirect =? 0 then mret () else
       _ ← visit indirect;
       visit_pointer_block_targets indirect);
  dbl ← lift (i_block raw 13);
  _ ← (if dbl =? 0 then mret () else
       _ ← visit dbl;
       buf ← on_dev (block_vec dbl);
       for_ptrs ptrs_per_block 0 buf (fun first_level =>
         _ ← visit first_level;
         visit_pointer_block_targets first_level));
  tpl ← lift (i_block raw 14);
  if tpl =? 0 then mret () else
  _ ← visit tpl;
  buf ← on_dev (block_vec tpl);
  for_ptrs ptrs_per_block 0 buf (fun second_level =>
    _ ← visit second_level;
    buf2 ← on_dev (block_vec second_level);
    for_ptrs ptrs_per_block 0 buf2 (fun first_level =>
      _ ← visit first_level;
      visit_pointer_block_targets first_level)).

End walk.

End volume.

(** [Ext2Core::mount]: the superblock at byte 1024. *)
Definition mount {D} `{BlockDevice D} : Vol D Superblock :=
  raw ← dev_read 2 2 (replicate 1024 0);
  match parse_superblock raw with Ok sb => mret sb | Err e => fail e | Panic => lift Panic end.

End Ext2Volume.
