(* ===== verification/Ext2Inv.v ===== *)
(** Correctness of block and inode allocation on an ext2 volume: the layout of
    the metadata, what is used and free, the invariant that ties bitmaps and
    free counts together, and what every operation of [Ext2Volume] below the
    block-pointer level does to it. *)

From Stdlib Require Import ZArith Lia.
From stdpp Require Import base numbers gmap list.
From S2P Require Import Prelude Bits Bytes Ext2Format Ext2Volume.

Local Open Scope Z_scope.

Module Ext2Inv.
Import Bytes Ext2Format Ext2Volume.

(** ** Geometry *)

Record geom_ok (sb : Superblock) : Prop := {
  g_bs : block_size sb = 1024 \/ block_size sb = 2048 \/ block_size sb = 4096;
  g_blocks : first_data_block sb < blocks_count sb /\ blocks_count sb * block_size sb < 2 ^ 41;
  g_first : first_data_block sb = (if block_size sb =? 1024 then 1 else 0);
  g_bgdt : bgdt_block sb = first_data_block sb + 1;
  g_bpg : 0 < blocks_per_group sb <= 8 * block_size sb /\ blocks_per_group sb < 2 ^ 16;
  g_groups : num_groups sb = (blocks_count sb + blocks_per_group sb - 1) / blocks_per_group sb;
  g_ipg : 0 < inodes_per_group sb <= 8 * block_size sb /\ inodes_per_group sb < 2 ^ 16;
  g_inodes : 0 < inodes_count sb <= num_groups sb * inodes_per_group sb /\ num_groups sb * inodes_per_group sb < 2 ^ 32;
  g_isize : 128 <= inode_size sb <= block_size sb;
}.

Section volume.
Context {D : Type} `{BlockDevice D}.
Variable sb : Superblock.
Hypothesis G : geom_ok sb.
Implicit Types d : D.

Let bs := block_size sb.

(** ** Blocks *)

(** The device holds the file system. *)
Record dev_ok d : Prop := {
  dev_size : blocks_count sb * bs <= size (contents d);
  dev_super : 2048 <= size (contents d);
  dev_bytes : bytes_ok (contents d);
}.

Definition blk d (b : Z) : bytes := sub (b * bs) bs (contents d).

Lemma bs_bounds : 1024 <= bs <= 4096 /\ bs mod 32 = 0 /\ bs mod 1024 = 0.
Proof. unfold bs. destruct (g_bs sb G) as [->|[->| ->]]; done. Qed.

Lemma spb_eq : sector_bytes (sectors_per_block sb) = bs /\ 0 < sectors_per_block sb /\ sectors_per_block sb * SECTOR_SIZE = bs.
Proof. unfold sectors_per_block, bs. destruct (g_bs sb G) as [->|[->| ->]]; done. Qed.

Lemma block_range d b : dev_ok d -> 0 <= b < blocks_count sb -> 0 <= b * bs /\ b * bs + bs <= size (contents d).
Proof. intros Hd Hb. pose proof (dev_size d Hd). pose proof bs_bounds. nia. Qed.

Lemma lba_chk {E} b : 0 <= b < blocks_count sb -> @chk E 32 (b * sectors_per_block sb) = Ok (b * sectors_per_block sb).
Proof.
  intros Hb. destruct spb_eq as (_ & Hp & Hs). destruct (g_blocks sb G) as [_ Hc]. fold bs in Hc.
  unfold SECTOR_SIZE in Hs. apply chk_ok. change (2 ^ 32) with 4294967296. change (2 ^ 41) with 2199023255552 in Hc. nia.
Qed.

Lemma size_blk d b : dev_ok d -> 0 <= b < blocks_count sb -> size (blk d b) = bs.
Proof. intros Hd Hb. destruct (block_range d b Hd Hb). pose proof bs_bounds. apply size_sub; lia. Qed.

Lemma blk_bytes d b : dev_ok d -> bytes_ok (blk d b).
Proof. intros Hd. apply sub_bytes, Hd. Qed.

Lemma block_vec_ok d b : dev_ok d -> 0 <= b < blocks_count sb -> block_vec sb b d = Ok (d, inl (blk d b)).
Proof.
  intros Hd Hb. unfold block_vec, read_block. pose proof bs_bounds as Hbs. fold bs. rewrite size_replicate by lia.
  rewrite Z.ltb_irrefl. rewrite (proj2 (Z.leb_gt _ _)) by lia.
  rewrite (bind_lift _ _ _ _ (lba_chk b Hb)).
  destruct spb_eq as (Hsec & Hp & Hs). destruct (block_range d b Hd Hb) as [Hr1 Hr2].
  assert (b * sectors_per_block sb * SECTOR_SIZE = b * bs) as Hlba by (rewrite <- Hs; lia).
  unfold dev_read. rewrite read_law.
  - rewrite Hsec, Hlba, over_all; [done|]. rewrite size_sub, size_replicate by lia. done.
  - nia.
  - lia.
  - rewrite Hsec, size_replicate by lia. lia.
  - rewrite Hsec, Hlba. done.
Qed.

(** [d'] is [d] with block [b] replaced. *)
Record block_written d d' (b : Z) (buf : bytes) : Prop := {
  bw_dev : dev_ok d';
  bw_eq : blk d' b = buf;
  bw_ne : forall b', 0 <= b' < blocks_count sb -> b' <> b -> blk d' b' = blk d b';
}.

Lemma write_block_ok d b buf : dev_ok d -> 0 <= b < blocks_count sb -> size buf = bs -> bytes_ok buf ->
  exists d', write_block sb b buf d = Ok (d', inl ()) /\ block_written d d' b buf.
Proof.
  intros Hd Hb Hbuf Hok. unfold write_block. pose proof bs_bounds as Hbs. fold bs. rewrite Hbuf, Z.ltb_irrefl.
  rewrite (proj2 (Z.leb_gt _ _)) by lia. rewrite (bind_lift _ _ _ _ (lba_chk b Hb)).
  destruct spb_eq as (Hsec & Hp & Hs). destruct (block_range d b Hd Hb) as [Hr1 Hr2].
  assert (b * sectors_per_block sb * SECTOR_SIZE = b * bs) as Hlba by (rewrite <- Hs; lia).
  unfold dev_write. destruct (write_law d (b * sectors_per_block sb) (sectors_per_block sb) buf) as (d' & -> & Hc).
  - nia.
  - lia.
  - lia.
  - rewrite Hsec, Hlba. done.
  - rewrite Hsec, Hlba, (sub_all bs buf) in Hc by done. exists d'. split; [done|]. split.
    + destruct Hd as [H1 H2 H3]. split; rewrite Hc.
      * rewrite size_over by lia. done.
      * rewrite size_over by lia. done.
      * by apply over_bytes.
    + unfold blk. rewrite Hc. by apply sub_over_eq.
    + intros b' Hb' Hne. unfold blk. rewrite Hc. apply sub_over_ne; [nia|lia|lia|lia|].
      rewrite Hbuf. destruct (Z.lt_ge_cases b b'); nia.
Qed.

(** ** Fields in place *)

(** [buf'] is [buf] with the [n] bytes at [off] changed to hold [v]. *)
Record field_set (off n v : Z) (buf buf' : bytes) : Prop := {
  fs_size : size buf' = size buf;
  fs_bytes : bytes_ok buf';
  fs_eq : field off n buf' = v;
  fs_ne : forall a k, 0 <= a -> 0 <= k -> a + k <= off \/ off + n <= a -> field a k buf' = field a k buf;
}.

Lemma over_field_set off n v buf : bytes_ok buf -> 0 <= off -> off + Z.of_nat n <= size buf -> 0 <= v < 256 ^ Z.of_nat n ->
  field_set off (Z.of_nat n) v buf (over off (to_le n v) buf).
Proof.
  intros Hb Ho Hl Hv. split.
  - apply size_over; [done|]. by rewrite size_to_le.
  - apply over_bytes; [apply to_le_ok|done].
  - by apply field_over_eq.
  - intros a k Ha Hk Hd. apply field_over_ne; try done; by rewrite size_to_le.
Qed.

Lemma adjust16_ok off delta buf : bytes_ok buf -> 0 <= off -> off + 2 <= size buf ->
  exists buf', adjust16 off delta buf = Ok buf' /\ field_set off 2 (wrap 16 (field off 2 buf + delta)) buf buf'.
Proof.
  intros Hb Ho Hl. unfold adjust16. pose proof (field_bound off 2 buf Hb Ho ltac:(lia) Hl) as Hf.
  destruct (Z.eqb_spec delta 0) as [->|Hne].
  - exists buf. split; [done|]. split; try done. rewrite Z.add_0_r. unfold wrap. by rewrite Z.mod_small.
  - rewrite get_le_ok by lia. cbn [mbind outcome_bind]. rewrite put_le_ok by lia. eexists. split; [done|].
    apply (over_field_set off 2); [done|done|done|]. unfold wrap. apply Z.mod_pos_bound. done.
Qed.

Lemma adjust32_ok off delta buf : bytes_ok buf -> 0 <= off -> off + 4 <= size buf ->
  exists buf', adjust32 off delta buf = Ok buf' /\ field_set off 4 (wrap 32 (field off 4 buf + delta)) buf buf'.
Proof.
  intros Hb Ho Hl. unfold adjust32. pose proof (field_bound off 4 buf Hb Ho ltac:(lia) Hl) as Hf.
  destruct (Z.eqb_spec delta 0) as [->|Hne].
  - exists buf. split; [done|]. split; try done. rewrite Z.add_0_r. unfold wrap. by rewrite Z.mod_small.
  - rewrite get_le_ok by lia. cbn [mbind outcome_bind]. rewrite put_le_ok by lia. eexists. split; [done|].
    apply (over_field_set off 4); [done|done|done|]. unfold wrap. apply Z.mod_pos_bound. done.
Qed.

(** ** Descriptors *)

Let dpb := bs / 32.
Definition dblk (g : Z) : Z := bgdt_block sb + g / dpb.
Definition doff (g : Z) : Z := g mod dpb * 32.

Definition dfield d (g off n : Z) : Z := field (doff g + off) n (blk d (dblk g)).
Definition bbm d g := dfield d g 0 4.
Definition ibm d g := dfield d g 4 4.
Definition itab d g := dfield d g 8 4.
Definition fbc d g := dfield d g 12 2.
Definition fic d g := dfield d g 14 2.

Definition group (g : Z) : Prop := 0 <= g < num_groups sb.
Definition valid (b : Z) : Prop := 0 <= b < blocks_count sb.

Lemma dpb_bounds : 32 <= dpb <= 128 /\ dpb * 32 = bs.
Proof. unfold dpb, bs. destruct (g_bs sb G) as [->|[->| ->]]; done. Qed.

Lemma doff_bounds g : 0 <= g -> 0 <= doff g /\ doff g + 32 <= bs.
Proof.
  intros Hg. pose proof dpb_bounds as [Hd1 Hd2]. pose proof (Z.mod_pos_bound g dpb ltac:(lia)). unfold doff. lia.
Qed.

Lemma descs_apart g g' : 0 <= g -> 0 <= g' -> g <> g' -> dblk g = dblk g' -> doff g + 32 <= doff g' \/ doff g' + 32 <= doff g.
Proof.
  intros Hg Hg' Hne Hb. pose proof dpb_bounds as [Hd1 Hd2]. unfold dblk, doff in *.
  pose proof (Z.div_mod g dpb ltac:(lia)). pose proof (Z.div_mod g' dpb ltac:(lia)).
  assert (g / dpb = g' / dpb) as Hq by lia. rewrite Hq in *. lia.
Qed.

Lemma blocks_small : blocks_count sb < 2 ^ 31.
Proof. destruct (g_blocks sb G) as [_ Hc]. fold bs in Hc. pose proof bs_bounds. change (2 ^ 41) with (2 ^ 31 * 1024) in Hc. nia. Qed.

Lemma bgd_location_ok g : 0 <= g -> valid (dblk g) -> bgd_location sb g = Ok (dblk g, doff g).
Proof.
  intros Hg Hv. pose proof dpb_bounds as [Hd1 Hd2]. pose proof blocks_small. unfold bgd_location. fold bs dpb.
  rewrite (proj2 (Z.eqb_neq _ _)) by lia. fold (dblk g). unfold valid in Hv.
  change (2 ^ 31) with 2147483648 in *. rewrite chk_ok by lia. done.
Qed.

Lemma read_bgd_ok d g : dev_ok d -> 0 <= g -> valid (dblk g) ->
  read_bgd sb g d = Ok (d, inl (mkBgd (bbm d g) (ibm d g) (itab d g) (fbc d g) (fic d g))).
Proof.
  intros Hd Hg Hv. unfold read_bgd. rewrite (bind_lift _ _ _ _ (bgd_location_ok g Hg Hv)). cbn [fst snd].
  rewrite (bind_run _ _ _ _ _ (block_vec_ok d _ Hd Hv)). pose proof (doff_bounds g Hg) as [Ho1 Ho2].
  pose proof (size_blk d _ Hd Hv) as Hs.
  rewrite (bind_lift _ _ _ (sub (doff g) (bs - doff g) (blk d (dblk g)))) by (rewrite Hs, get_ok; (done || lia)).
  unfold parse_bgd, lift.
  rewrite !get_le_ok by (rewrite ?size_sub; lia). cbn [mbind outcome_bind]. rewrite !field_sub by lia. done.
Qed.

(** What [adjust_bgd_counts] does. *)
Record desc_adjusted d d' (g x y : Z) : Prop := {
  da_dev : dev_ok d';
  da_blk : forall b, valid b -> b <> dblk g -> blk d' b = blk d b;
  da_ptr : forall g' off, 0 <= g' -> off = 0 \/ off = 4 \/ off = 8 -> valid (dblk g') -> dfield d' g' off 4 = dfield d g' off 4;
  da_fbc : forall g', 0 <= g' -> valid (dblk g') -> fbc d' g' = if g' =? g then wrap 16 (fbc d g + x) else fbc d g';
  da_fic : forall g', 0 <= g' -> valid (dblk g') -> fic d' g' = if g' =? g then wrap 16 (fic d g + y) else fic d g';
}.

Lemma adjust_bgd_counts_ok d g x y z : dev_ok d -> 0 <= g -> valid (dblk g) ->
  exists d', adjust_bgd_counts sb g x y z d = Ok (d', inl ()) /\ desc_adjusted d d' g x y.
Proof.
  intros Hd Hg Hv. unfold adjust_bgd_counts. rewrite (bind_lift _ _ _ _ (bgd_location_ok g Hg Hv)). cbn [fst snd].
  rewrite (bind_run _ _ _ _ _ (block_vec_ok d _ Hd Hv)). pose proof (doff_bounds g Hg) as [Ho1 Ho2].
  pose proof (size_blk d _ Hd Hv) as Hs. pose proof (blk_bytes d (dblk g) Hd) as Hb.
  destruct (adjust16_ok (doff g + 12) x (blk d (dblk g)) Hb) as (b1 & He1 & [S1 B1 E1 N1]); [lia|lia|].
  destruct (adjust16_ok (doff g + 14) y b1 B1) as (b2 & He2 & [S2 B2 E2 N2]); [lia|lia|].
  destruct (adjust16_ok (doff g + 16) z b2 B2) as (b3 & He3 & [S3 B3 E3 N3]); [lia|lia|].
  rewrite (bind_lift _ _ _ _ He1), (bind_lift _ _ _ _ He2), (bind_lift _ _ _ _ He3).
  destruct (write_block_ok d (dblk g) b3 Hd Hv) as (d' & -> & [W1 W2 W3]); [lia|done|].
  exists d'. split; [done|].
  assert (forall g' off k, 0 <= g' -> 0 <= off -> 0 <= k -> off + k <= 32 -> valid (dblk g') ->
    (g' = g -> off + k <= 12 \/ 18 <= off) -> dfield d' g' off k = dfield d g' off k) as Hrest.
  { intros g' off k Hg' Hoff Hk Hk32 Hv' Hsame. pose proof (doff_bounds g' Hg'). unfold dfield.
    destruct (decide (dblk g' = dblk g)) as [Heq|Hne]; [|by rewrite W3].
    rewrite Heq, W2. destruct (decide (g' = g)) as [->|Hng].
    - rewrite N3, N2, N1 by lia. done.
    - pose proof (descs_apart g g' Hg Hg' ltac:(congruence) (eq_sym Heq)). rewrite N3, N2, N1 by lia. done. }
  split; [done|done| | |].
  - intros g' off Hg' Hoff Hv'. apply Hrest; (done || lia).
  - intros g' Hg' Hv'. destruct (Z.eqb_spec g' g) as [->|Hne]; [|apply Hrest; (done || lia)].
    unfold fbc, dfield. rewrite W2, N3, N2 by lia. done.
  - intros g' Hg' Hv'. destruct (Z.eqb_spec g' g) as [->|Hne]; [|apply Hrest; (done || lia)].
    unfold fic, dfield. rewrite W2, N3 by lia. rewrite E2, N1 by lia. done.
Qed.

(** ** The superblock on disk *)

Definition sblk : Z := 1024 / bs.
Definition sb_free_blocks d : Z := field 1036 4 (contents d).
Definition sb_free_inodes d : Z := field 1040 4 (contents d).

Lemma sblk_spec : sblk = first_data_block sb /\ 0 <= sblk /\ sblk * bs <= 1024 /\ 2048 <= sblk * bs + bs.
Proof.
  pose proof (g_first sb G) as Hf. fold bs in Hf. unfold sblk. destruct (g_bs sb G) as [Hq|[Hq|Hq]]; fold bs in Hq; rewrite Hq in *;
    cbn in Hf; rewrite Hf; vm_compute; repeat split; congruence.
Qed.

Record super_adjusted d d' (x y : Z) : Prop := {
  sa_dev : dev_ok d';
  sa_blk : forall b, valid b -> b <> sblk -> blk d' b = blk d b;
  sa_blocks : sb_free_blocks d' = wrap 32 (sb_free_blocks d + x);
  sa_inodes : sb_free_inodes d' = wrap 32 (sb_free_inodes d + y);
}.

Lemma adjust_sb_counts_ok d x y : dev_ok d ->
  exists d', adjust_sb_counts x y d = Ok (d', inl ()) /\ super_adjusted d d' x y.
Proof.
  intros Hd. pose proof (dev_super d Hd) as Hsz. pose proof bs_bounds as [Hbs _]. unfold adjust_sb_counts.
  assert (dev_read 2 2 (replicate 1024 0) d = Ok (d, inl (sub 1024 1024 (contents d)))) as Hread.
  { unfold dev_read. rewrite read_law; [|lia|lia|done|done].
    change (2 * SECTOR_SIZE) with 1024. change (sector_bytes 2) with 1024. rewrite over_all; [done|].
    rewrite size_sub by lia. done. }
  rewrite (bind_run _ _ _ _ _ Hread).
  assert (bytes_ok (sub 1024 1024 (contents d))) as Hb by (apply sub_bytes, Hd).
  assert (size (sub 1024 1024 (contents d)) = 1024) as Hs by (apply size_sub; lia).
  destruct (adjust32_ok 12 x _ Hb) as (b1 & He1 & [S1 B1 E1 N1]); [lia|lia|].
  destruct (adjust32_ok 16 y b1 B1) as (b2 & He2 & [S2 B2 E2 N2]); [lia|lia|].
  rewrite (bind_lift _ _ _ _ He1), (bind_lift _ _ _ _ He2). unfold dev_write.
  destruct (write_law d 2 2 b2) as (d' & -> & Hc); [lia|lia|rewrite S2, S1, Hs; done|done|].
  change (2 * SECTOR_SIZE) with 1024 in Hc. change (sector_bytes 2) with 1024 in Hc.
  rewrite (sub_all 1024 b2) in Hc by lia. exists d'. split; [done|].
  assert (forall a k, 0 <= a -> 0 <= k -> a + k <= 1024 -> field (1024 + a) k (contents d') = field a k b2) as Hf.
  { intros a k Ha Hk Hak. rewrite <- (field_sub 1024 1024) by lia. rewrite Hc, sub_over_eq by lia. done. }
  split.
  - destruct Hd as [H1 H2 H3]. split; rewrite Hc; [rewrite size_over by lia; done|rewrite size_over by lia; done|by apply over_bytes].
  - intros b Hb' Hne. unfold blk. rewrite Hc. unfold valid in Hb'. apply sub_over_ne; [nia|lia|lia|lia|].
    rewrite S2, S1, Hs. destruct sblk_spec as (_ & _ & Hq1 & Hq2). nia.
  - unfold sb_free_blocks. change 1036 with (1024 + 12). rewrite Hf, N2, E1 by lia. by rewrite field_sub by lia.
  - unfold sb_free_inodes. change 1040 with (1024 + 16). rewrite Hf, E2, N1 by lia. by rewrite field_sub by lia.
Qed.

(** ** Layout *)

(** What the blocks of metadata are for, and where they are. *)
Inductive role := Super | Desc (i : Z) | BlockBitmap (g : Z) | InodeBitmap (g : Z) | Table (g i : Z).

(** Inodes per block of the table, and blocks per table. *)
Definition ipb : Z := bs / inode_size sb.
Definition table_blocks : Z := (inodes_per_group sb + ipb - 1) / ipb.

Definition role_ok (r : role) : Prop :=
  match r with
  | Super => True
  | Desc i => exists g, group g /\ i = g / dpb
  | BlockBitmap g | InodeBitmap g => group g
  | Table g i => group g /\ 0 <= i < table_blocks
  end.

Definition place d (r : role) : Z :=
  match r with
  | Super => sblk
  | Desc i => bgdt_block sb + i
  | BlockBitmap g => bbm d g
  | InodeBitmap g => ibm d g
  | Table g i => itab d g + i
  end.

(** Blocks that the block bitmaps describe. *)
Definition mapped (b : Z) : Prop := first_data_block sb <= b < blocks_count sb.

Record layout d : Prop := {
  l_mapped : forall r, role_ok r -> mapped (place d r);
  l_inj : forall r r', role_ok r -> role_ok r' -> place d r = place d r' -> r = r';
}.

Definition meta d (b : Z) : Prop := exists r, role_ok r /\ place d r = b.

(** Metadata other than the inode tables. *)
Definition is_table (r : role) : Prop := match r with Table _ _ => True | _ => False end.
Definition core_meta d (b : Z) : Prop := exists r, role_ok r /\ ~ is_table r /\ place d r = b.

Lemma core_is_meta d b : core_meta d b -> meta d b.
Proof. intros (r & Hr & _ & Hb). by exists r. Qed.

(** The group and bit of a block, and how many blocks and inodes a group has. *)
Definition grp (b : Z) : Z := (b - first_data_block sb) / blocks_per_group sb.
Definition bit (b : Z) : Z := (b - first_data_block sb) mod blocks_per_group sb.
Definition gstart (g : Z) : Z := first_data_block sb + g * blocks_per_group sb.
Definition gblocks (g : Z) : Z := Z.min (Z.max 0 (blocks_count sb - gstart g)) (blocks_per_group sb).
Definition ginodes (g : Z) : Z := Z.min (Z.max 0 (inodes_count sb - g * inodes_per_group sb)) (inodes_per_group sb).

Definition used d (b : Z) : bool := Bits.get (blk d (bbm d (grp b))) (bit b).
Definition inode_used d (ino : Z) : bool :=
  Bits.get (blk d (ibm d ((ino - 1) / inodes_per_group sb))) ((ino - 1) mod inodes_per_group sb).

(** ** The invariant *)

Record vol_ok d : Prop := {
  v_dev : dev_ok d;
  v_layout : layout d;
  v_meta : forall r, role_ok r -> used d (place d r) = true;
  v_fbc : forall g, group g -> fbc d g = free_bits (Z.to_nat (gblocks g)) (blk d (bbm d g));
  v_fic : forall g, group g -> fic d g = free_bits (Z.to_nat (ginodes g)) (blk d (ibm d g));
}.

Lemma mapped_valid b : mapped b -> valid b.
Proof. unfold mapped, valid. pose proof (g_first sb G) as Hf. destruct (_ =? _) in Hf; lia. Qed.

Lemma groups_cover : (num_groups sb - 1) * blocks_per_group sb < blocks_count sb <= num_groups sb * blocks_per_group sb.
Proof.
  destruct (g_bpg sb G) as [[Hp _] _]. rewrite (g_groups sb G).
  pose proof (Z.div_mod (blocks_count sb + blocks_per_group sb - 1) (blocks_per_group sb) ltac:(lia)).
  pose proof (Z.mod_pos_bound (blocks_count sb + blocks_per_group sb - 1) (blocks_per_group sb) Hp). nia.
Qed.

Lemma grp_ok b : mapped b -> group (grp b) /\ 0 <= bit b < gblocks (grp b) /\ b = gstart (grp b) + bit b.
Proof.
  intros Hb. unfold mapped in Hb. destruct (g_bpg sb G) as [[Hp _] _]. pose proof groups_cover as Hc.
  pose proof (Z.div_mod (b - first_data_block sb) (blocks_per_group sb) ltac:(lia)) as Hdm.
  pose proof (Z.mod_pos_bound (b - first_data_block sb) (blocks_per_group sb) Hp) as Hm.
  fold (grp b) in Hdm. fold (bit b) in Hdm, Hm.
  assert (0 <= grp b) by (apply Z.div_pos; lia). pose proof (g_first sb G) as Hf.
  assert (0 <= first_data_block sb) by (destruct (_ =? _) in Hf; lia).
  unfold group, gblocks, gstart. split; [nia|]. split; [|lia]. nia.
Qed.

Lemma block_of_bit g i : group g -> 0 <= i < gblocks g -> mapped (gstart g + i) /\ grp (gstart g + i) = g /\ bit (gstart g + i) = i.
Proof.
  intros Hg Hi. destruct (g_bpg sb G) as [[Hp _] _]. unfold gblocks in Hi. unfold mapped, grp, bit.
  replace (gstart g + i - first_data_block sb) with (i + g * blocks_per_group sb) by (unfold gstart; lia).
  rewrite Z.div_add, Z.mod_add, Z.div_small, Z.mod_small by lia. unfold gstart, group in *. split; [nia|]. lia.
Qed.

Lemma grp_inj b b' : mapped b -> mapped b' -> grp b = grp b' -> bit b = bit b' -> b = b'.
Proof. intros (_ & _ & H1)%grp_ok (_ & _ & H2)%grp_ok Hg Hb. rewrite H1, H2, Hg, Hb. done. Qed.

Lemma group_desc g : group g -> role_ok (Desc (g / dpb)).
Proof. intros Hg. by exists g. Qed.

Lemma layout_dblk d g : layout d -> group g -> valid (dblk g).
Proof. intros Hl Hg. apply mapped_valid. apply (l_mapped d Hl (Desc (g / dpb))). by apply group_desc. Qed.

Lemma layout_bbm d g : layout d -> group g -> valid (bbm d g).
Proof. intros Hl Hg. apply mapped_valid. by apply (l_mapped d Hl (BlockBitmap g)). Qed.

Lemma layout_ibm d g : layout d -> group g -> valid (ibm d g).
Proof. intros Hl Hg. apply mapped_valid. by apply (l_mapped d Hl (InodeBitmap g)). Qed.

Lemma gblocks_bits g : 0 <= gblocks g < 2 ^ 16 /\ (gblocks g + 7) / 8 <= bs.
Proof.
  destruct (g_bpg sb G) as [[Hp Hb] H16]. fold bs in Hb. pose proof bs_bounds. unfold gblocks.
  split; [lia|]. etransitivity; [apply (Z.div_le_mono _ (8 * bs + 7) 8); lia|].
  replace (8 * bs + 7) with (7 + bs * 8) by lia. rewrite Z.div_add by lia. done.
Qed.

(** ** Changing one bit of a bitmap *)

(** The bitmap and table pointers of the descriptors are the same. *)
Definition ptrs_same d d' : Prop :=
  forall g off, group g -> off = 0 \/ off = 4 \/ off = 8 -> dfield d' g off 4 = dfield d g off 4.

Lemma ptrs_refl d : ptrs_same d d. Proof. done. Qed.
Lemma ptrs_trans d1 d2 d3 : ptrs_same d1 d2 -> ptrs_same d2 d3 -> ptrs_same d1 d3.
Proof. intros H1 H2 g off Hg Ho. by rewrite H2, H1. Qed.

Lemma ptrs_bbm d d' g : ptrs_same d d' -> group g -> bbm d' g = bbm d g.
Proof. intros Hp Hg. apply Hp; auto. Qed.
Lemma ptrs_ibm d d' g : ptrs_same d d' -> group g -> ibm d' g = ibm d g.
Proof. intros Hp Hg. apply Hp; auto. Qed.
Lemma ptrs_itab d d' g : ptrs_same d d' -> group g -> itab d' g = itab d g.
Proof. intros Hp Hg. apply Hp; auto. Qed.

Lemma ptrs_place d d' r : ptrs_same d d' -> role_ok r -> place d' r = place d r.
Proof.
  intros Hp Hr. destruct r as [|i|g|g|g i]; cbn [place role_ok] in *; try done;
    [by apply ptrs_bbm|by apply ptrs_ibm|by rewrite (ptrs_itab d d' g Hp (proj1 Hr))].
Qed.

Lemma ptrs_layout d d' : ptrs_same d d' -> layout d -> layout d'.
Proof.
  intros Hp [H1 H2]. split.
  - intros r Hr. rewrite (ptrs_place d d' r Hp Hr). by apply H1.
  - intros r r' Hr Hr'. rewrite (ptrs_place d d' r Hp Hr), (ptrs_place d d' r' Hp Hr'). by apply H2.
Qed.

Lemma ptrs_meta d d' b : ptrs_same d d' -> meta d' b <-> meta d b.
Proof.
  intros Hp. split; intros (r & Hr & Hb); exists r; (split; [done|]); [rewrite <- (ptrs_place d d' r Hp Hr)|rewrite (ptrs_place d d' r Hp Hr)]; done.
Qed.

(** Different roles, different blocks. *)
Lemma roles_ne d r r' : layout d -> role_ok r -> role_ok r' -> r <> r' -> place d r <> place d r'.
Proof. intros Hl Hr Hr' Hne Heq. by apply Hne, (l_inj d Hl). Qed.

Lemma dblk_ne_bbm d g g' : layout d -> group g -> group g' -> dblk g <> bbm d g'.
Proof. intros Hl Hg Hg'. apply (roles_ne d (Desc (g / dpb)) (BlockBitmap g') Hl); [by apply group_desc|done|done]. Qed.
Lemma dblk_ne_ibm d g g' : layout d -> group g -> group g' -> dblk g <> ibm d g'.
Proof. intros Hl Hg Hg'. apply (roles_ne d (Desc (g / dpb)) (InodeBitmap g') Hl); [by apply group_desc|done|done]. Qed.
Lemma dblk_ne_super d g : layout d -> group g -> dblk g <> sblk.
Proof. intros Hl Hg. apply (roles_ne d (Desc (g / dpb)) Super Hl); [by apply group_desc|done|done]. Qed.
Lemma bbm_ne_super d g : layout d -> group g -> bbm d g <> sblk.
Proof. intros Hl Hg. by apply (roles_ne d (BlockBitmap g) Super Hl). Qed.
Lemma ibm_ne_super d g : layout d -> group g -> ibm d g <> sblk.
Proof. intros Hl Hg. by apply (roles_ne d (InodeBitmap g) Super Hl). Qed.
Lemma bbm_ne_ibm d g g' : layout d -> group g -> group g' -> bbm d g <> ibm d g'.
Proof. intros Hl Hg Hg'. by apply (roles_ne d (BlockBitmap g) (InodeBitmap g') Hl). Qed.
Lemma bbm_inj d g g' : layout d -> group g -> group g' -> bbm d g = bbm d g' -> g = g'.
Proof. intros Hl Hg Hg' He. by injection (l_inj d Hl (BlockBitmap g) (BlockBitmap g') Hg Hg' He). Qed.
Lemma ibm_inj d g g' : layout d -> group g -> group g' -> ibm d g = ibm d g' -> g = g'.
Proof. intros Hl Hg Hg' He. by injection (l_inj d Hl (InodeBitmap g) (InodeBitmap g') Hg Hg' He). Qed.

(** Writing a bitmap block, the counts of the group and of the superblock:
    what alloc and free have in common. *)
Record counted_write d d' (g at_ : Z) (bmap : bytes) (x y : Z) : Prop := {
  cw_dev : dev_ok d';
  cw_ptrs : ptrs_same d d';
  cw_map : blk d' at_ = bmap;
  cw_blk : forall b, valid b -> b <> sblk -> b <> dblk g -> b <> at_ -> blk d' b = blk d b;
  cw_fbc : forall g', group g' -> fbc d' g' = if g' =? g then wrap 16 (fbc d g + x) else fbc d g';
  cw_fic : forall g', group g' -> fic d' g' = if g' =? g then wrap 16 (fic d g + y) else fic d g';
  cw_sbb : at_ <> sblk -> sb_free_blocks d' = wrap 32 (sb_free_blocks d + x);
  cw_sbi : at_ <> sblk -> sb_free_inodes d' = wrap 32 (sb_free_inodes d + y);
}.

Lemma write_keeps_super d d' b buf : dev_ok d -> valid b -> b <> sblk -> block_written d d' b buf ->
  sb_free_blocks d' = sb_free_blocks d /\ sb_free_inodes d' = sb_free_inodes d.
Proof.
  intros Hd Hb Hne [W1 W2 W3]. pose proof bs_bounds as [Hbs _].
  assert (valid sblk) as Hs.
  { destruct sblk_spec as [Hq1 Hq2]. destruct (g_blocks sb G) as [Hc _]. unfold valid. lia. }
  assert (forall a, 1024 <= a -> a + 4 <= 2048 -> field a 4 (contents d') = field a 4 (contents d)) as Hf.
  { intros a Ha1 Ha2. assert (0 <= a - sblk * bs /\ a - sblk * bs + 4 <= bs) as [Hr1 Hr2].
    { pose proof sblk_spec. lia. }
    replace a with (sblk * bs + (a - sblk * bs)) by lia. unfold valid in Hs.
    rewrite <- !(field_sub (sblk * bs) bs) by nia. fold (blk d' sblk) (blk d sblk). rewrite W3; [done|done|congruence]. }
  split; apply Hf; lia.
Qed.

Lemma counted_write_ok d g r bmap x y z : vol_ok d -> group g -> role_ok r -> r <> Super ->
  (forall i, r <> Desc i) -> size bmap = bs -> bytes_ok bmap ->
  exists d1 d2 d3, write_block sb (place d r) bmap d = Ok (d1, inl ()) /\
    adjust_bgd_counts sb g x y z d1 = Ok (d2, inl ()) /\ adjust_sb_counts x y d2 = Ok (d3, inl ()) /\
    counted_write d d3 g (place d r) bmap x y.
Proof.
  intros Hv Hg Hr Hns Hnd Hsz Hbm. destruct Hv as [Hd Hl _ _ _].
  assert (valid (place d r)) as Hval by (by apply mapped_valid, l_mapped).
  destruct (write_block_ok d (place d r) bmap Hd Hval Hsz Hbm) as (d1 & He1 & Hw1).
  assert (place d r <> sblk) as Hps by (by apply (roles_ne d r Super Hl)).
  assert (forall g', group g' -> dblk g' <> place d r) as Hpd.
  { intros g' Hg'. apply (roles_ne d (Desc (g' / dpb)) r Hl); [by apply group_desc|done|]. intros <-. by destruct (Hnd (g' / dpb)). }
  destruct (write_keeps_super d d1 _ _ Hd Hval Hps Hw1) as [Hsb1 Hsi1]. destruct Hw1 as [W1 W2 W3].
  destruct (adjust_bgd_counts_ok d1 g x y z W1) as (d2 & He2 & [A1 A2 A3 A4 A5]); [apply Hg|by apply (layout_dblk d)|].
  destruct (adjust_sb_counts_ok d2 x y A1) as (d3 & He3 & [S1 S2 S3 S4]).
  assert (forall g' off k, group g' -> dfield d1 g' off k = dfield d g' off k) as D1.
  { intros g' off k Hg'. unfold dfield. rewrite W3; [done|by apply (layout_dblk d)|]. by apply Hpd. }
  assert (forall g' off k, group g' -> dfield d3 g' off k = dfield d2 g' off k) as D3.
  { intros g' off k Hg'. unfold dfield. rewrite S2; [done|by apply (layout_dblk d)|]. by apply (dblk_ne_super d). }
  assert (forall g', group g' -> 0 <= g') as Hpos by (intros g' [? _]; done).
  assert (forall b, valid b -> b <> dblk g -> b <> sblk -> blk d3 b = blk d1 b) as B3
    by (intros b Hb Hb1 Hb2; by rewrite S2, A2).
  assert (sb_free_blocks d2 = sb_free_blocks d1 /\ sb_free_inodes d2 = sb_free_inodes d1) as [Hsb2 Hsi2].
  { apply (write_keeps_super d1 d2 (dblk g) (blk d2 (dblk g))); [done|by apply (layout_dblk d)|by apply (dblk_ne_super d)|].
    split; [done|done|]. intros b' Hb' Hne. by apply A2. }
  exists d1, d2, d3. split; [done|]. split; [done|]. split; [done|]. split.
  - done.
  - intros g' off Hg' Ho. rewrite D3, A3, D1 by (done || auto || by apply (layout_dblk d)). done.
  - rewrite B3; [done|done|by apply not_eq_sym, Hpd|done].
  - intros b Hb H1 H2 H3. rewrite B3 by done. by apply W3.
  - intros g' Hg'. unfold fbc at 1. rewrite D3 by done. change (dfield d2 g' 12 2) with (fbc d2 g').
    rewrite A4 by (auto || by apply (layout_dblk d)). unfold fbc. rewrite !D1 by done. done.
  - intros g' Hg'. unfold fic at 1. rewrite D3 by done. change (dfield d2 g' 14 2) with (fic d2 g').
    rewrite A5 by (auto || by apply (layout_dblk d)). unfold fic. rewrite !D1 by done. done.
  - intros _. rewrite S3, Hsb2, Hsb1. done.
  - intros _. rewrite S4, Hsi2, Hsi1. done.
Qed.

(** A block is marked ([v]) or unmarked in its bitmap. *)
Record toggled d d' (b : Z) (v : bool) : Prop := {
  tg_ok : vol_ok d';
  tg_ptrs : ptrs_same d d';
  tg_used : forall b', mapped b' -> used d' b' = if b' =? b then v else used d b';
  tg_inodes : forall g, group g -> blk d' (ibm d g) = blk d (ibm d g);
  tg_blk : forall b', valid b' -> ~ meta d b' -> blk d' b' = blk d b';
  tg_table : forall g i, role_ok (Table g i) -> blk d' (itab d g + i) = blk d (itab d g + i);
  tg_free : sb_free_blocks d' = wrap 32 (sb_free_blocks d + (if v then -1 else 1));
}.

Lemma fic_bound d g : dev_ok d -> group g -> valid (dblk g) -> 0 <= fic d g < 2 ^ 16.
Proof.
  intros Hd Hg Hv. pose proof (doff_bounds g ltac:(apply Hg)). apply (field_bound _ 2); [by apply blk_bytes|lia|lia|].
  rewrite size_blk by done. lia.
Qed.

Lemma fbc_bound d g : dev_ok d -> group g -> valid (dblk g) -> 0 <= fbc d g < 2 ^ 16.
Proof.
  intros Hd Hg Hv. pose proof (doff_bounds g ltac:(apply Hg)). apply (field_bound _ 2); [by apply blk_bytes|lia|lia|].
  rewrite size_blk by done. lia.
Qed.

(** The count of a group follows its bitmap. *)
Lemma count_follows n l l' i v : 0 <= n < 2 ^ 16 -> 0 <= i < n ->
  (forall j, 0 <= j -> Bits.get l' j = if j =? i then v else Bits.get l j) -> Bits.get l i = negb v ->
  wrap 16 (free_bits (Z.to_nat n) l + (if v then -1 else 1)) = free_bits (Z.to_nat n) l'.
Proof.
  intros Hn Hi Hj Hv.
  assert (Bits.get l' i = v) as Hv' by (rewrite Hj by lia; by rewrite Z.eqb_refl).
  assert (forall j, 0 <= j -> j <> i -> Bits.get l' j = Bits.get l j) as Hne
    by (intros j Hj0 Hji; rewrite Hj by done; by rewrite (proj2 (Z.eqb_neq _ _))).
  pose proof (free_bits_bound (Z.to_nat n) l) as B1. pose proof (free_bits_bound (Z.to_nat n) l') as B2.
  destruct v; cbn [negb] in Hv.
  - assert (free_bits (Z.to_nat n) l' = free_bits (Z.to_nat n) l - 1) as Hc
      by (apply (free_bits_change _ _ _ i); [lia|done..]).
    unfold wrap. rewrite Z.mod_small; lia.
  - assert (free_bits (Z.to_nat n) l = free_bits (Z.to_nat n) l' - 1) as Hc
      by (apply (free_bits_change _ _ _ i); [lia|intros; symmetry; auto|done..]).
    unfold wrap. rewrite Z.mod_small; lia.
Qed.

Lemma toggle_ok d b v bmap : vol_ok d -> mapped b -> ~ meta d b -> used d b = negb v -> size bmap = bs -> bytes_ok bmap ->
  (forall j, 0 <= j -> Bits.get bmap j = if j =? bit b then v else Bits.get (blk d (bbm d (grp b))) j) ->
  exists d1 d2 d3, write_block sb (bbm d (grp b)) bmap d = Ok (d1, inl ()) /\
    adjust_bgd_counts sb (grp b) (if v then -1 else 1) 0 0 d1 = Ok (d2, inl ()) /\
    adjust_sb_counts (if v then -1 else 1) 0 d2 = Ok (d3, inl ()) /\ toggled d d3 b v.
Proof.
  intros Hv Hb Hnm Hu Hsz Hbm Hbits. destruct (grp_ok b Hb) as (Hg & Hbit & _). set (g := grp b) in *.
  destruct (counted_write_ok d g (BlockBitmap g) bmap (if v then -1 else 1) 0 0) as (d1 & d2 & d3 & E1 & E2 & E3 & W); try done.
  exists d1, d2, d3. split; [done|]. split; [done|]. split; [done|].
  destruct Hv as [Hd Hl Hmeta Hfbc Hfic]. destruct W as [C1 C2 C3 C4 C5 C6 C7 _]. cbn [place] in *.
  assert (forall g', group g' -> blk d3 (bbm d g') = if g' =? g then bmap else blk d (bbm d g')) as Hmaps.
  { intros g' Hg'. destruct (Z.eqb_spec g' g) as [->|Hne]; [done|]. apply C4; [by apply layout_bbm|by apply bbm_ne_super| |].
    - by apply not_eq_sym, dblk_ne_bbm.
    - intros He. by apply Hne, (bbm_inj d). }
  assert (forall g', group g' -> blk d3 (ibm d g') = blk d (ibm d g')) as Himaps.
  { intros g' Hg'. apply C4; [by apply layout_ibm|by apply ibm_ne_super|by apply not_eq_sym, dblk_ne_ibm|by apply not_eq_sym, bbm_ne_ibm]. }
  assert (forall b', mapped b' -> used d3 b' = if b' =? b then v else used d b') as Hused.
  { intros b' Hb'. unfold used. destruct (grp_ok b' Hb') as (Hg' & Hbit' & _). rewrite (ptrs_bbm d d3), Hmaps by done.
    destruct (Z.eqb_spec (grp b') g) as [Hgg|Hgg].
    - rewrite Hbits by lia. destruct (Z.eqb_spec b' b) as [->|Hne]; [by rewrite Z.eqb_refl|].
      rewrite (proj2 (Z.eqb_neq _ _)); [by rewrite Hgg|]. intros Hbb. by apply Hne, grp_inj.
    - rewrite (proj2 (Z.eqb_neq _ _)); [done|]. by intros ->. }
  split; [split| | | | | |]; try done.
  - by apply (ptrs_layout d).
  - intros r Hr. rewrite (ptrs_place d d3 r C2 Hr). rewrite Hused by (by apply Hl).
    rewrite (proj2 (Z.eqb_neq _ _)); [by apply Hmeta|]. intros He. apply Hnm. by exists r.
  - intros g' Hg'. rewrite C5 by done. rewrite (ptrs_bbm d d3), Hmaps by done. destruct (Z.eqb_spec g' g) as [->|]; [|by apply Hfbc].
    rewrite Hfbc by done. by apply (count_follows _ _ _ (bit b)); [apply gblocks_bits| |done|].
  - intros g' Hg'. rewrite C6 by done. rewrite (ptrs_ibm d d3), Himaps by done. rewrite <- Hfic by done.
    destruct (Z.eqb_spec g' g) as [->|]; [|done]. pose proof (fic_bound d g Hd Hg ltac:(by apply (layout_dblk d))).
    rewrite Z.add_0_r. unfold wrap. by rewrite Z.mod_small.
  - intros b' Hb' Hnm'. apply C4; [done| | |]; intros ->; apply Hnm';
      [by exists Super|exists (Desc (g / dpb)); split; [by apply group_desc|done]|by exists (BlockBitmap g)].
  - intros g' i Hr. apply C4.
    + apply mapped_valid. by apply (l_mapped d Hl (Table g' i)).
    + by apply (roles_ne d (Table g' i) Super Hl).
    + apply (roles_ne d (Table g' i) (Desc (g / dpb)) Hl); [done|by apply group_desc|done].
    + by apply (roles_ne d (Table g' i) (BlockBitmap g) Hl).
  - apply C7. by apply bbm_ne_super.
Qed.

(** ** Writing a data block or a block of the inode table *)

Record data_written d d' (b : Z) (buf : bytes) : Prop := {
  dw_ok : vol_ok d';
  dw_ptrs : ptrs_same d d';
  dw_used : forall b', mapped b' -> used d' b' = used d b';
  dw_inodes : forall g, group g -> blk d' (ibm d g) = blk d (ibm d g);
  dw_eq : blk d' b = buf;
  dw_ne : forall b', valid b' -> b' <> b -> blk d' b' = blk d b';
  dw_free : sb_free_blocks d' = sb_free_blocks d;
}.

Lemma write_data_ok d b buf : vol_ok d -> valid b -> ~ core_meta d b -> size buf = bs -> bytes_ok buf ->
  exists d', write_block sb b buf d = Ok (d', inl ()) /\ data_written d d' b buf.
Proof.
  intros [Hd Hl Hmeta Hfbc Hfic] Hb Hnm Hsz Hok.
  destruct (write_block_ok d b buf Hd Hb Hsz Hok) as (d' & He & W). exists d'. split; [done|].
  assert (forall r, role_ok r -> ~ is_table r -> place d r <> b) as Hne by (intros r Hr Ht Heq; apply Hnm; by exists r).
  destruct (write_keeps_super d d' b buf Hd Hb) as [Hsb _]; [apply not_eq_sym, (Hne Super); [done|by intros []]|done|].
  destruct W as [W1 W2 W3].
  assert (forall g, group g -> dblk g <> b) as Hdne by (intros g Hg; apply (Hne (Desc (g / dpb))); [by apply group_desc|by intros []]).
  assert (forall g off k, group g -> dfield d' g off k = dfield d g off k) as Hdf.
  { intros g off k Hg. unfold dfield. rewrite W3; [done|by apply (layout_dblk d)|by apply Hdne]. }
  assert (ptrs_same d d') as Hp by (intros g off Hg _; by apply Hdf).
  assert (forall g, group g -> blk d' (bbm d g) = blk d (bbm d g)) as Hbb
    by (intros g Hg; apply W3; [by apply layout_bbm|apply (Hne (BlockBitmap g)); [done|by intros []]]).
  assert (forall g, group g -> blk d' (ibm d g) = blk d (ibm d g)) as Hib
    by (intros g Hg; apply W3; [by apply layout_ibm|apply (Hne (InodeBitmap g)); [done|by intros []]]).
  assert (forall b', mapped b' -> used d' b' = used d b') as Hu.
  { intros b' Hb'. unfold used. destruct (grp_ok b' Hb') as (Hg & _). by rewrite (ptrs_bbm d d'), Hbb. }
  split; [split| | | | | |]; try done.
  - by apply (ptrs_layout d).
  - intros r Hr. rewrite (ptrs_place d d' r Hp Hr), Hu by (by apply Hl). by apply Hmeta.
  - intros g Hg. unfold fbc. rewrite Hdf, (ptrs_bbm d d'), Hbb by done. by apply Hfbc.
  - intros g Hg. unfold fic. rewrite Hdf, (ptrs_ibm d d'), Hib by done. by apply Hfic.
Qed.

(** ** Allocating a block *)

Record allocated d d' (b : Z) : Prop := {
  al_ok : vol_ok d';
  al_ptrs : ptrs_same d d';
  al_mapped : mapped b;
  al_free : used d b = false;
  al_used : forall b', mapped b' -> used d' b' = (b' =? b) || used d b';
  al_zero : blk d' b = replicate (Z.to_nat bs) 0;
  al_blk : forall b', valid b' -> ~ meta d b' -> b' <> b -> blk d' b' = blk d b';
  al_inodes : forall g, group g -> blk d' (ibm d g) = blk d (ibm d g);
  al_table : forall g i, role_ok (Table g i) -> blk d' (itab d g + i) = blk d (itab d g + i);
  al_count : sb_free_blocks d' = wrap 32 (sb_free_blocks d - 1);
}.

Lemma group_chk {E} g : group g ->
  @chk E 32 (g * blocks_per_group sb) = Ok (g * blocks_per_group sb) /\
  @chk E 32 (first_data_block sb + g * blocks_per_group sb) = Ok (gstart g).
Proof.
  intros Hg. destruct (g_bpg sb G) as [[Hp _] _]. pose proof groups_cover. pose proof blocks_small.
  destruct sblk_spec as (Hs & Hs0 & _). destruct (g_blocks sb G) as [Hc _]. unfold group in Hg. change (2 ^ 31) with 2147483648 in *.
  assert (0 <= g * blocks_per_group sb < 2147483648) by nia.
  split; apply chk_ok; unfold gstart; change (2 ^ 32) with 4294967296; lia.
Qed.

Lemma blocks_in_group_ok g : group g -> blocks_in_group sb g = Ok (gblocks g).
Proof. intros Hg. unfold blocks_in_group. destruct (@group_chk Empty_set g Hg) as [H1 H2]. rewrite H1. cbn [mbind outcome_bind]. rewrite H2. done. Qed.

Lemma bit_byte i n : 0 <= i < n -> (n + 7) / 8 <= bs -> 0 <= i / 8 < bs.
Proof.
  intros Hi Hn. pose proof (Z.div_mod i 8 ltac:(lia)). pose proof (Z.mod_pos_bound i 8 ltac:(lia)).
  pose proof (Z.div_mod (n + 7) 8 ltac:(lia)). pose proof (Z.mod_pos_bound (n + 7) 8 ltac:(lia)). lia.
Qed.

Lemma set_bit_ok l i n : size l = bs -> 0 <= i < n -> (n + 7) / 8 <= bs -> bytes_ok l ->
  set_bit l i = Ok (Bits.set l i) /\ size (Bits.set l i) = bs /\ bytes_ok (Bits.set l i) /\
  forall j, 0 <= j -> Bits.get (Bits.set l i) j = if j =? i then true else Bits.get l j.
Proof.
  intros Hl Hi Hn Hb. pose proof (bit_byte i n Hi Hn) as Hby. unfold set_bit. rewrite byte_ok by lia.
  split; [done|]. split; [unfold size in *; by rewrite Bits.length_set|]. split; [by apply Bits.set_ok|].
  intros j Hj. rewrite Bits.get_set; [|lia|done|unfold Bits.byte_ix; unfold size in Hl; lia].
  destruct (Z.eqb_spec j i) as [->|Hne]; [by rewrite bool_decide_true|by rewrite bool_decide_false].
Qed.

Lemma clear_bit_ok l i n : size l = bs -> 0 <= i < n -> (n + 7) / 8 <= bs -> bytes_ok l ->
  clear_bit l i = Ok (Bits.clear l i) /\ size (Bits.clear l i) = bs /\ bytes_ok (Bits.clear l i) /\
  forall j, 0 <= j -> Bits.get (Bits.clear l i) j = if j =? i then false else Bits.get l j.
Proof.
  intros Hl Hi Hn Hb. pose proof (bit_byte i n Hi Hn) as Hby. unfold clear_bit. rewrite byte_ok by lia.
  split; [done|]. split; [unfold size in *; by rewrite Bits.length_clear|]. split; [by apply Bits.clear_ok|].
  intros j Hj. rewrite Bits.get_clear; [|lia|done|unfold Bits.byte_ix; unfold size in Hl; lia].
  destruct (Z.eqb_spec j i) as [->|Hne]; [by rewrite bool_decide_true|by rewrite bool_decide_false].
Qed.

Lemma free_not_meta d b : vol_ok d -> used d b = false -> ~ meta d b.
Proof. intros Hv Hu (r & Hr & <-). by rewrite (v_meta d Hv r Hr) in Hu. Qed.

Lemma alloc_block_from_ok n g d : vol_ok d -> 0 <= g -> g + Z.of_nat n = num_groups sb ->
  exists d' r, alloc_block_from sb n g d = Ok (d', inl r) /\
    match r with
    | Some b => allocated d d' b
    | None => d' = d /\ forall b, mapped b -> g <= grp b -> used d b = true
    end.
Proof.
  intros Hv. revert g. induction n as [|n IH]; intros g Hg Hn; cbn [alloc_block_from].
  - exists d, None. split; [done|]. split; [done|]. intros b Hb Hgb. destruct (grp_ok b Hb) as ([_ Hlt] & _). lia.
  - assert (group g) as Hgg by (unfold group; lia). pose proof (v_dev d Hv) as Hd. pose proof (v_layout d Hv) as Hl.
    rewrite (bind_run _ _ _ _ _ (read_bgd_ok d g Hd Hg ltac:(by apply (layout_dblk d)))). cbn [free_blocks block_bitmap].
    assert (forall b, mapped b -> grp b = g -> (forall i, 0 <= i < gblocks g -> Bits.get (blk d (bbm d g)) i = true) -> used d b = true) as Hfull.
    { intros b Hb Hgb Hall. destruct (grp_ok b Hb) as (_ & Hbit & _). unfold used. rewrite Hgb in *. by apply Hall. }
    pose proof (gblocks_bits g) as [Hgb1 Hgb2].
    destruct (Z.eqb_spec (fbc d g) 0) as [H0|Hne].
    + destruct (IH (g + 1)) as (d' & r & He & Hr); [lia|lia|]. exists d', r. split; [done|]. destruct r as [b|]; [done|].
      destruct Hr as [-> Hr]. split; [done|]. intros b Hb Hge. destruct (decide (grp b = g)) as [Heq|]; [|apply Hr; [done|lia]].
      apply (Hfull b Hb Heq). rewrite (v_fbc d Hv g Hgg) in H0. intros i Hi. apply (proj1 (free_bits_zero _ _) H0). lia.
    + rewrite (bind_lift _ _ _ _ (blocks_in_group_ok g Hgg)).
      pose proof (layout_bbm d g Hl Hgg) as Hvb. rewrite (bind_run _ _ _ _ _ (block_vec_ok d _ Hd Hvb)).
      pose proof (size_blk d _ Hd Hvb) as Hsz. pose proof (blk_bytes d (bbm d g) Hd) as Hby.
      destruct (find_free_spec (Z.to_nat (gblocks g)) (blk d (bbm d g)) 0) as (r & Hf & Hr); [lia|rewrite Z2Nat.id, Hsz by lia; done|].
      rewrite Z2Nat.id in Hr by lia. rewrite (bind_lift _ _ _ _ Hf). destruct r as [i|].
      * destruct Hr as (Hi & Hfree & _). rewrite Z.add_0_l in Hi.
        destruct (set_bit_ok (blk d (bbm d g)) i (gblocks g) Hsz Hi Hgb2 Hby) as (Hset & Hs1 & Hs2 & Hs3).
        rewrite (bind_lift _ _ _ _ Hset). destruct (block_of_bit g i Hgg Hi) as (Hm & Hgrp & Hbit).
        set (b := gstart g + i) in *.
        assert (used d b = false) as Hub by (unfold used; by rewrite Hgrp, Hbit).
        pose proof (free_not_meta d b Hv Hub) as Hnm.
        destruct (toggle_ok d b true (Bits.set (blk d (bbm d g)) i)) as (d1 & d2 & d3 & E1 & E2 & E3 & T); try done;
          [by rewrite Hgrp, Hbit|].
        rewrite Hgrp in E1, E2. rewrite (bind_run _ _ _ _ _ E1), (bind_run _ _ _ _ _ E2), (bind_run _ _ _ _ _ E3).
        destruct (@group_chk Empty_set g Hgg) as [Hc1 Hc2]. rewrite (bind_lift _ _ _ _ Hc1), (bind_lift _ _ _ _ Hc2).
        assert (@chk Empty_set 32 (gstart g + i) = Ok b) as Hc3.
        { apply chk_ok. pose proof blocks_small. apply mapped_valid in Hm. unfold valid in Hm. change (2 ^ 31) with 2147483648 in *. fold b. lia. }
        rewrite (bind_lift _ _ _ _ Hc3). destruct T as [T1 T2 T3 T4 T5 T6 T7].
        pose proof bs_bounds as [Hbs _].
        destruct (write_data_ok d3 b (replicate (Z.to_nat bs) 0) T1) as (d4 & E4 & W).
        { by apply mapped_valid. }
        { intros Hcm. apply core_is_meta in Hcm. by rewrite (ptrs_meta d d3) in Hcm. }
        { apply size_replicate. lia. }
        { apply zeros_bytes. }
        rewrite (bind_run _ _ _ _ _ E4). destruct W as [W1 W2 W3 _ W4 W5 W6].
        exists d4, (Some b). split; [done|]. split; try done.
        -- by apply (ptrs_trans d d3).
        -- intros b' Hb'. rewrite W3, T3 by done. by destruct (b' =? b).
        -- intros b' Hb' Hnm' Hne'. rewrite W5, T5 by done. done.
        -- intros g' Hg'. rewrite W5, T4; [done|done|by apply layout_ibm|]. intros He. apply Hnm. by exists (InodeBitmap g').
        -- intros g' j Hr. rewrite W5, T6; [done|done| |].
           ++ apply mapped_valid. by apply (l_mapped d Hl (Table g' j)).
           ++ intros He. apply Hnm. by exists (Table g' j).
        -- rewrite W6, T7. done.
      * destruct (IH (g + 1)) as (d' & r & He & Hr'); [lia|lia|]. exists d', r. split; [done|]. destruct r as [b|]; [done|].
        destruct Hr' as [-> Hr']. split; [done|]. intros b Hb Hge. destruct (decide (grp b = g)) as [Heq|]; [|apply Hr'; [done|lia]].
        apply (Hfull b Hb Heq). intros i Hi. apply Hr. lia.
Qed.

Lemma alloc_block_ok d : vol_ok d ->
  exists d' r, alloc_block sb d = Ok (d', inl r) /\
    match r with
    | Some b => allocated d d' b
    | None => d' = d /\ forall b, mapped b -> used d b = true
    end.
Proof.
  intros Hv. assert (0 <= num_groups sb) as Hng.
  { pose proof groups_cover. destruct (g_bpg sb G) as [[Hp _] _]. destruct sblk_spec as (Hs & Hs0 & _). destruct (g_blocks sb G) as [Hc _]. nia. }
  destruct (alloc_block_from_ok (Z.to_nat (num_groups sb)) 0 d Hv) as (d' & r & He & Hr); [lia|lia|].
  exists d', r. split; [done|]. destruct r as [b|]; [done|]. destruct Hr as [-> Hr]. split; [done|].
  intros b Hb. apply Hr; [done|]. destruct (grp_ok b Hb) as ([? _] & _). done.
Qed.

(** ** Freeing a block *)

Lemma free_block_ok d b : vol_ok d -> mapped b -> ~ meta d b -> used d b = true ->
  exists d', free_block sb b d = Ok (d', inl ()) /\ toggled d d' b false.
Proof.
  intros Hv Hb Hnm Hu. unfold free_block. pose proof Hb as [Hb1 Hb2].
  rewrite (proj2 (Z.ltb_ge _ _)), (proj2 (Z.leb_gt _ _)) by lia. cbn [orb].
  fold (grp b) (bit b). destruct (grp_ok b Hb) as (Hg & Hbit & _).
  pose proof (v_dev d Hv) as Hd. pose proof (v_layout d Hv) as Hl.
  rewrite (bind_run _ _ _ _ _ (read_bgd_ok d (grp b) Hd ltac:(apply Hg) ltac:(by apply (layout_dblk d)))). cbn [block_bitmap].
  pose proof (layout_bbm d _ Hl Hg) as Hvb. rewrite (bind_run _ _ _ _ _ (block_vec_ok d _ Hd Hvb)).
  pose proof (gblocks_bits (grp b)) as [Hgb1 Hgb2].
  destruct (clear_bit_ok (blk d (bbm d (grp b))) (bit b) (gblocks (grp b))) as (Hc & Hc1 & Hc2 & Hc3);
    [by apply size_blk|done|done|by apply blk_bytes|].
  rewrite (bind_lift _ _ _ _ Hc).
  destruct (toggle_ok d b false _ Hv Hb Hnm Hu Hc1 Hc2 Hc3) as (d1 & d2 & d3 & E1 & E2 & E3 & T).
  rewrite (bind_run _ _ _ _ _ E1), (bind_run _ _ _ _ _ E2), E3. by exists d3.
Qed.

(** ** Inodes *)

Definition is_ino (ino : Z) : Prop := 1 <= ino <= inodes_count sb.
Definition igrp (ino : Z) : Z := (ino - 1) / inodes_per_group sb.
Definition ibit (ino : Z) : Z := (ino - 1) mod inodes_per_group sb.

Lemma igrp_ok ino : is_ino ino -> group (igrp ino) /\ 0 <= ibit ino < ginodes (igrp ino) /\
  ino = igrp ino * inodes_per_group sb + ibit ino + 1.
Proof.
  intros Hi. unfold is_ino in Hi. destruct (g_ipg sb G) as [[Hp _] _]. destruct (g_inodes sb G) as [[_ Hc] _].
  pose proof (Z.div_mod (ino - 1) (inodes_per_group sb) ltac:(lia)) as Hdm.
  pose proof (Z.mod_pos_bound (ino - 1) (inodes_per_group sb) Hp) as Hm.
  fold (igrp ino) in Hdm. fold (ibit ino) in Hdm, Hm. assert (0 <= igrp ino) by (apply Z.div_pos; lia).
  unfold group, ginodes. split; [nia|]. split; [|lia]. nia.
Qed.

Lemma ino_of_bit g i : group g -> 0 <= i < ginodes g ->
  is_ino (g * inodes_per_group sb + i + 1) /\ igrp (g * inodes_per_group sb + i + 1) = g /\ ibit (g * inodes_per_group sb + i + 1) = i.
Proof.
  intros Hg Hi. destruct (g_ipg sb G) as [[Hp _] _]. unfold ginodes in Hi. unfold is_ino, igrp, ibit.
  replace (g * inodes_per_group sb + i + 1 - 1) with (i + g * inodes_per_group sb) by lia.
  rewrite Z.div_add, Z.mod_add, Z.div_small, Z.mod_small by lia. unfold group in *. split; [nia|]. lia.
Qed.

Lemma igrp_inj i i' : is_ino i -> is_ino i' -> igrp i = igrp i' -> ibit i = ibit i' -> i = i'.
Proof. intros (_ & _ & H1)%igrp_ok (_ & _ & H2)%igrp_ok Hg Hb. rewrite H1, H2, Hg, Hb. done. Qed.

Lemma ginodes_bits g : 0 <= ginodes g < 2 ^ 16 /\ (ginodes g + 7) / 8 <= bs.
Proof.
  destruct (g_ipg sb G) as [[Hp Hb] H16]. fold bs in Hb. pose proof bs_bounds. unfold ginodes.
  split; [lia|]. etransitivity; [apply (Z.div_le_mono _ (8 * bs + 7) 8); lia|].
  replace (8 * bs + 7) with (7 + bs * 8) by lia. rewrite Z.div_add by lia. done.
Qed.

Record inode_toggled d d' (ino : Z) (v : bool) : Prop := {
  it_ok : vol_ok d';
  it_ptrs : ptrs_same d d';
  it_inodes : forall i, is_ino i -> inode_used d' i = if i =? ino then v else inode_used d i;
  it_used : forall b, mapped b -> used d' b = used d b;
  it_blk : forall b, valid b -> ~ meta d b -> blk d' b = blk d b;
  it_table : forall g i, role_ok (Table g i) -> blk d' (itab d g + i) = blk d (itab d g + i);
  it_free : sb_free_inodes d' = wrap 32 (sb_free_inodes d + (if v then -1 else 1));
}.

Lemma inode_toggle_ok d ino v z bmap : vol_ok d -> is_ino ino -> inode_used d ino = negb v -> size bmap = bs -> bytes_ok bmap ->
  (forall j, 0 <= j -> Bits.get bmap j = if j =? ibit ino then v else Bits.get (blk d (ibm d (igrp ino))) j) ->
  exists d1 d2 d3, write_block sb (ibm d (igrp ino)) bmap d = Ok (d1, inl ()) /\
    adjust_bgd_counts sb (igrp ino) 0 (if v then -1 else 1) z d1 = Ok (d2, inl ()) /\
    adjust_sb_counts 0 (if v then -1 else 1) d2 = Ok (d3, inl ()) /\ inode_toggled d d3 ino v.
Proof.
  intros Hv Hi Hu Hsz Hbm Hbits. destruct (igrp_ok ino Hi) as (Hg & Hbit & _). set (g := igrp ino) in *.
  destruct (counted_write_ok d g (InodeBitmap g) bmap 0 (if v then -1 else 1) z) as (d1 & d2 & d3 & E1 & E2 & E3 & W); try done.
  exists d1, d2, d3. split; [done|]. split; [done|]. split; [done|].
  destruct Hv as [Hd Hl Hmeta Hfbc Hfic]. destruct W as [C1 C2 C3 C4 C5 C6 _ C8]. cbn [place] in *.
  assert (forall g', group g' -> blk d3 (ibm d g') = if g' =? g then bmap else blk d (ibm d g')) as Hmaps.
  { intros g' Hg'. destruct (Z.eqb_spec g' g) as [->|Hne]; [done|]. apply C4; [by apply layout_ibm|by apply ibm_ne_super| |].
    - by apply not_eq_sym, dblk_ne_ibm.
    - intros He. by apply Hne, (ibm_inj d). }
  assert (forall g', group g' -> blk d3 (bbm d g') = blk d (bbm d g')) as Hbmaps.
  { intros g' Hg'. apply C4; [by apply layout_bbm|by apply bbm_ne_super|by apply not_eq_sym, dblk_ne_bbm|by apply bbm_ne_ibm]. }
  assert (forall b, mapped b -> used d3 b = used d b) as Hused.
  { intros b Hb. unfold used. destruct (grp_ok b Hb) as (Hgb & _). by rewrite (ptrs_bbm d d3), Hbmaps. }
  split; [split| | | | | |]; try done.
  - by apply (ptrs_layout d).
  - intros r Hr. rewrite (ptrs_place d d3 r C2 Hr), Hused by (by apply Hl). by apply Hmeta.
  - intros g' Hg'. rewrite C5 by done. rewrite (ptrs_bbm d d3), Hbmaps by done. rewrite <- Hfbc by done.
    destruct (Z.eqb_spec g' g) as [->|]; [|done]. pose proof (fbc_bound d g Hd Hg ltac:(by apply (layout_dblk d))).
    rewrite Z.add_0_r. unfold wrap. by rewrite Z.mod_small.
  - intros g' Hg'. rewrite C6 by done. rewrite (ptrs_ibm d d3), Hmaps by done. destruct (Z.eqb_spec g' g) as [->|]; [|by apply Hfic].
    rewrite Hfic by done. by apply (count_follows _ _ _ (ibit ino)); [apply ginodes_bits| |done|].
  - intros i' Hi'. unfold inode_used. fold (igrp i') (ibit i'). destruct (igrp_ok i' Hi') as (Hg' & Hbit' & _).
    rewrite (ptrs_ibm d d3), Hmaps by done. destruct (Z.eqb_spec (igrp i') g) as [Hgg|Hgg].
    + rewrite Hbits by lia. destruct (Z.eqb_spec i' ino) as [->|Hne]; [by rewrite Z.eqb_refl|].
      rewrite (proj2 (Z.eqb_neq _ _)); [by rewrite Hgg|]. intros Hbb. by apply Hne, igrp_inj.
    + rewrite (proj2 (Z.eqb_neq _ _)); [done|]. by intros ->.
  - intros b' Hb' Hnm'. apply C4; [done| | |]; intros ->; apply Hnm';
      [by exists Super|exists (Desc (g / dpb)); split; [by apply group_desc|done]|by exists (InodeBitmap g)].
  - intros g' i Hr. apply C4.
    + apply mapped_valid. by apply (l_mapped d Hl (Table g' i)).
    + by apply (roles_ne d (Table g' i) Super Hl).
    + apply (roles_ne d (Table g' i) (Desc (g / dpb)) Hl); [done|by apply group_desc|done].
    + by apply (roles_ne d (Table g' i) (InodeBitmap g) Hl).
  - apply C8. by apply ibm_ne_super.
Qed.

Lemma inodes_in_group_ok g : group g -> inodes_in_group sb g = Ok (ginodes g).
Proof.
  intros Hg. unfold inodes_in_group. destruct (g_ipg sb G) as [[Hp _] _]. destruct (g_inodes sb G) as [_ Hc].
  unfold group in Hg. rewrite chk_ok by nia. done.
Qed.

Lemma alloc_inode_from_ok n g is_dir d : vol_ok d -> 0 <= g -> g + Z.of_nat n = num_groups sb ->
  exists d' r, alloc_inode_from sb n g is_dir d = Ok (d', inl r) /\
    match r with
    | Some ino => is_ino ino /\ inode_used d ino = false /\ inode_toggled d d' ino true
    | None => d' = d /\ forall ino, is_ino ino -> g <= igrp ino -> inode_used d ino = true
    end.
Proof.
  intros Hv. revert g. induction n as [|n IH]; intros g Hg Hn; cbn [alloc_inode_from].
  - exists d, None. split; [done|]. split; [done|]. intros i Hi Hgi. destruct (igrp_ok i Hi) as ([_ Hlt] & _). lia.
  - assert (group g) as Hgg by (unfold group; lia). pose proof (v_dev d Hv) as Hd. pose proof (v_layout d Hv) as Hl.
    rewrite (bind_run _ _ _ _ _ (read_bgd_ok d g Hd Hg ltac:(by apply (layout_dblk d)))). cbn [free_inodes inode_bitmap].
    assert (forall i, is_ino i -> igrp i = g -> (forall j, 0 <= j < ginodes g -> Bits.get (blk d (ibm d g)) j = true) -> inode_used d i = true) as Hfull.
    { intros i Hi Hgi Hall. destruct (igrp_ok i Hi) as (_ & Hbit & _). unfold inode_used. fold (igrp i) (ibit i). rewrite Hgi in *. by apply Hall. }
    pose proof (ginodes_bits g) as [Hgb1 Hgb2].
    destruct (Z.eqb_spec (fic d g) 0) as [H0|Hne].
    + destruct (IH (g + 1)) as (d' & r & He & Hr); [lia|lia|]. exists d', r. split; [done|]. destruct r as [b|]; [done|].
      destruct Hr as [-> Hr]. split; [done|]. intros i Hi Hge. destruct (decide (igrp i = g)) as [Heq|]; [|apply Hr; [done|lia]].
      apply (Hfull i Hi Heq). rewrite (v_fic d Hv g Hgg) in H0. intros j Hj. apply (proj1 (free_bits_zero _ _) H0). lia.
    + rewrite (bind_lift _ _ _ _ (inodes_in_group_ok g Hgg)).
      pose proof (layout_ibm d g Hl Hgg) as Hvb. rewrite (bind_run _ _ _ _ _ (block_vec_ok d _ Hd Hvb)).
      pose proof (size_blk d _ Hd Hvb) as Hsz. pose proof (blk_bytes d (ibm d g) Hd) as Hby.
      destruct (find_free_spec (Z.to_nat (ginodes g)) (blk d (ibm d g)) 0) as (r & Hf & Hr); [lia|rewrite Z2Nat.id, Hsz by lia; done|].
      rewrite Z2Nat.id in Hr by lia. rewrite (bind_lift _ _ _ _ Hf). destruct r as [i|].
      * destruct Hr as (Hi & Hfree & _). rewrite Z.add_0_l in Hi.
        destruct (set_bit_ok (blk d (ibm d g)) i (ginodes g) Hsz Hi Hgb2 Hby) as (Hset & Hs1 & Hs2 & Hs3).
        rewrite (bind_lift _ _ _ _ Hset). destruct (ino_of_bit g i Hgg Hi) as (Hm & Hgrp & Hbit).
        set (ino := g * inodes_per_group sb + i + 1) in *.
        assert (inode_used d ino = false) as Hub by (unfold inode_used; fold (igrp ino) (ibit ino); by rewrite Hgrp, Hbit).
        destruct (inode_toggle_ok d ino true (if is_dir then 1 else 0) (Bits.set (blk d (ibm d g)) i)) as (d1 & d2 & d3 & E1 & E2 & E3 & T); try done;
          [by rewrite Hgrp, Hbit|].
        rewrite Hgrp in E1, E2. rewrite (bind_run _ _ _ _ _ E1), (bind_run _ _ _ _ _ E2), (bind_run _ _ _ _ _ E3).
        destruct (g_inodes sb G) as [[_ Hic] Hc32]. destruct (g_ipg sb G) as [[Hp _] _]. unfold is_ino in Hm. fold ino in Hm.
        assert (0 <= g * inodes_per_group sb) by nia.
        rewrite (bind_lift _ _ _ (g * inodes_per_group sb)) by (apply chk_ok; lia).
        rewrite (bind_lift _ _ _ (g * inodes_per_group sb + i)) by (apply chk_ok; lia).
        rewrite (bind_lift _ _ _ ino) by (apply chk_ok; fold ino; lia).
        by exists d3, (Some ino).
      * destruct (IH (g + 1)) as (d' & r & He & Hr'); [lia|lia|]. exists d', r. split; [done|]. destruct r as [b|]; [done|].
        destruct Hr' as [-> Hr']. split; [done|]. intros j Hj Hge. destruct (decide (igrp j = g)) as [Heq|]; [|apply Hr'; [done|lia]].
        apply (Hfull j Hj Heq). intros k Hk. apply Hr. lia.
Qed.

Lemma free_inode_ok d ino is_dir : vol_ok d -> is_ino ino -> inode_used d ino = true ->
  exists d', free_inode sb ino is_dir d = Ok (d', inl ()) /\ inode_toggled d d' ino false.
Proof.
  intros Hv Hi Hu. unfold free_inode. pose proof Hi as [Hi1 Hi2].
  rewrite !(proj2 (Z.ltb_ge _ _)) by lia. cbn [orb]. fold (igrp ino) (ibit ino). destruct (igrp_ok ino Hi) as (Hg & Hbit & _).
  pose proof (v_dev d Hv) as Hd. pose proof (v_layout d Hv) as Hl.
  rewrite (bind_run _ _ _ _ _ (read_bgd_ok d (igrp ino) Hd ltac:(apply Hg) ltac:(by apply (layout_dblk d)))). cbn [inode_bitmap].
  pose proof (layout_ibm d _ Hl Hg) as Hvb. rewrite (bind_run _ _ _ _ _ (block_vec_ok d _ Hd Hvb)).
  pose proof (ginodes_bits (igrp ino)) as [Hgb1 Hgb2].
  destruct (clear_bit_ok (blk d (ibm d (igrp ino))) (ibit ino) (ginodes (igrp ino))) as (Hc & Hc1 & Hc2 & Hc3);
    [by apply size_blk|done|done|by apply blk_bytes|].
  rewrite (bind_lift _ _ _ _ Hc).
  destruct (inode_toggle_ok d ino false (if is_dir then -1 else 0) _ Hv Hi Hu Hc1 Hc2 Hc3) as (d1 & d2 & d3 & E1 & E2 & E3 & T).
  rewrite (bind_run _ _ _ _ _ E1), (bind_run _ _ _ _ _ E2), E3. by exists d3.
Qed.

(** ** The inode table *)

Definition iblk d (ino : Z) : Z := itab d (igrp ino) + ibit ino / ipb.
Definition ioff (ino : Z) : Z := ibit ino mod ipb * inode_size sb.
Definition inode_at d (ino : Z) : bytes := sub (ioff ino) (inode_size sb) (blk d (iblk d ino)).

Lemma ipb_bounds : 0 < ipb /\ ipb * inode_size sb <= bs.
Proof.
  destruct (g_isize sb G) as [H1 H2]. fold bs in H2. unfold ipb. split; [apply Z.div_str_pos; lia|].
  rewrite Z.mul_comm. apply Z.mul_div_le. lia.
Qed.

Lemma ioff_bounds ino : 0 <= ioff ino /\ ioff ino + inode_size sb <= bs.
Proof.
  destruct ipb_bounds as [H1 H2]. destruct (g_isize sb G) as [H3 _]. unfold ioff.
  pose proof (Z.mod_pos_bound (ibit ino) ipb H1). nia.
Qed.

Lemma iblk_role ino : is_ino ino -> role_ok (Table (igrp ino) (ibit ino / ipb)).
Proof.
  intros Hi. destruct (igrp_ok ino Hi) as (Hg & Hbit & _). destruct ipb_bounds as [H1 _]. split; [done|].
  split; [apply Z.div_pos; lia|]. unfold table_blocks. apply Z.le_succ_l, Z.div_le_lower_bound; [done|].
  unfold ginodes in Hbit. pose proof (Z.div_mod (ibit ino) ipb ltac:(lia)) as Hd.
  pose proof (Z.mod_pos_bound (ibit ino) ipb H1). nia.
Qed.

Lemma iblk_valid d ino : layout d -> is_ino ino -> valid (iblk d ino) /\ ~ core_meta d (iblk d ino).
Proof.
  intros Hl Hi. pose proof (iblk_role ino Hi) as Hr. split.
  - apply mapped_valid. by apply (l_mapped d Hl (Table (igrp ino) (ibit ino / ipb))).
  - intros (r & Hr' & Hnt & Hb). apply Hnt. by rewrite (l_inj d Hl r (Table (igrp ino) (ibit ino / ipb)) Hr' Hr Hb).
Qed.

Lemma inode_location_ok d ino : vol_ok d -> is_ino ino -> inode_location sb ino d = Ok (d, inl (iblk d ino, ioff ino)).
Proof.
  intros Hv Hi. unfold inode_location. pose proof Hi as [Hi1 Hi2]. rewrite !(proj2 (Z.ltb_ge _ _)) by lia. cbn [orb].
  fold (igrp ino) (ibit ino). destruct (igrp_ok ino Hi) as (Hg & Hbit & _).
  rewrite (proj2 (Z.leb_gt _ _)) by apply Hg. pose proof (v_dev d Hv) as Hd. pose proof (v_layout d Hv) as Hl.
  assert (0 <= igrp ino) as Hg0 by apply Hg. pose proof (layout_dblk d _ Hl Hg) as Hvd.
  rewrite (bind_lift _ _ _ _ (bgd_location_ok _ Hg0 Hvd)). cbn [fst snd].
  rewrite (bind_run _ _ _ _ _ (block_vec_ok d _ Hd Hvd)). pose proof (doff_bounds _ Hg0).
  rewrite (bind_lift _ _ _ (itab d (igrp ino))) by (apply get_le_ok; [lia|lia|rewrite size_blk by done; lia]).
  fold bs ipb. destruct ipb_bounds as [Hp _]. rewrite (proj2 (Z.eqb_neq _ _)) by lia.
  destruct (iblk_valid d ino Hl Hi) as [Hval _]. pose proof blocks_small. unfold valid in Hval.
  rewrite (bind_lift _ _ _ (iblk d ino)); [done|]. apply chk_ok. fold (iblk d ino). change (2 ^ 31) with 2147483648 in *. lia.
Qed.

Lemma read_inode_ok d ino : vol_ok d -> is_ino ino -> read_inode sb ino d = Ok (d, inl (inode_at d ino)).
Proof.
  intros Hv Hi. unfold read_inode. rewrite (bind_run _ _ _ _ _ (inode_location_ok d ino Hv Hi)). cbn [fst snd].
  destruct (iblk_valid d ino (v_layout d Hv) Hi) as [Hval _].
  rewrite (bind_run _ _ _ _ _ (block_vec_ok d _ (v_dev d Hv) Hval)). pose proof (ioff_bounds ino).
  destruct (g_isize sb G). unfold lift. rewrite get_ok; [done|lia|lia|]. rewrite size_blk by (done || apply Hv). lia.
Qed.

Lemma same_inode_block d ino ino' : layout d -> is_ino ino -> is_ino ino' -> iblk d ino = iblk d ino' -> ino <> ino' ->
  ioff ino + inode_size sb <= ioff ino' \/ ioff ino' + inode_size sb <= ioff ino.
Proof.
  intros Hl Hi Hi' Hb Hne. pose proof (l_inj d Hl _ _ (iblk_role ino Hi) (iblk_role ino' Hi') Hb) as Hr. injection Hr as Hg Hq.
  destruct ipb_bounds as [Hp _]. destruct (g_isize sb G) as [Hs _]. unfold ioff.
  pose proof (Z.div_mod (ibit ino) ipb ltac:(lia)). pose proof (Z.div_mod (ibit ino') ipb ltac:(lia)). rewrite Hq in *.
  assert (ibit ino <> ibit ino') by (intros He; by apply Hne, igrp_inj). nia.
Qed.

(** Writing an inode changes that inode and nothing else. *)
Record inode_written d d' (ino : Z) (raw : bytes) : Prop := {
  iw_ok : vol_ok d';
  iw_ptrs : ptrs_same d d';
  iw_used : forall b, mapped b -> used d' b = used d b;
  iw_inodes : forall g, group g -> blk d' (ibm d g) = blk d (ibm d g);
  iw_eq : inode_at d' ino = raw;
  iw_ne : forall i, is_ino i -> i <> ino -> inode_at d' i = inode_at d i;
  iw_blk : forall b, valid b -> ~ meta d b -> blk d' b = blk d b;
}.

Lemma write_inode_ok d ino raw : vol_ok d -> is_ino ino -> size raw = inode_size sb -> bytes_ok raw ->
  exists d', write_inode sb ino raw d = Ok (d', inl ()) /\ inode_written d d' ino raw.
Proof.
  intros Hv Hi Hsz Hb. unfold write_inode. rewrite (bind_run _ _ _ _ _ (inode_location_ok d ino Hv Hi)). cbn [fst snd].
  pose proof (v_layout d Hv) as Hl. pose proof (v_dev d Hv) as Hd. destruct (iblk_valid d ino Hl Hi) as [Hval Hnc].
  rewrite (bind_run _ _ _ _ _ (block_vec_ok d _ Hd Hval)). rewrite (proj2 (Z.eqb_eq _ _) Hsz). cbn [negb].
  pose proof (ioff_bounds ino) as [Ho1 Ho2]. pose proof (size_blk d _ Hd Hval) as Hs. destruct (g_isize sb G) as [Hz _].
  rewrite (bind_lift _ _ _ (over (ioff ino) raw (blk d (iblk d ino)))) by (apply put_ok; lia).
  destruct (write_data_ok d (iblk d ino) (over (ioff ino) raw (blk d (iblk d ino))) Hv Hval Hnc) as (d' & -> & [W1 W2 W3 W4 W5 W6 _]).
  { rewrite size_over by lia. done. }
  { apply over_bytes; [done|by apply blk_bytes]. }
  assert (forall i, is_ino i -> iblk d' i = iblk d i) as Hib.
  { intros i Hii. unfold iblk. destruct (igrp_ok i Hii) as (Hg & _). by rewrite (ptrs_itab d d'). }
  exists d'. split; [done|]. split; try done.
  - unfold inode_at. rewrite Hib, W5 by done. by apply sub_over_eq; [|lia|lia].
  - intros i Hii Hne. unfold inode_at. rewrite Hib by done. destruct (iblk_valid d i Hl Hii) as [Hvi _].
    destruct (decide (iblk d i = iblk d ino)) as [He|He]; [|by rewrite W6].
    rewrite He, W5. pose proof (same_inode_block d i ino Hl Hii Hi He Hne). pose proof (ioff_bounds i).
    apply sub_over_ne; lia.
  - intros b Hb' Hnm. apply W6; [done|]. intros ->. apply Hnm. exists (Table (igrp ino) (ibit ino / ipb)).
    split; [by apply iblk_role|done].
Qed.

End volume.
End Ext2Inv.
