(* ===== verification/Ext2Files.v ===== *)
(** Files on an ext2 volume: the tree of block pointers of an inode, the
    contents it stands for, and what looking up, growing, reading and writing
    do to them.

    The blocks of a file are named by keys [(s, j, q)]: slot [s] of the inode,
    [j] pointer blocks further down, path [q] in base [P] (the number of
    pointers in a block).  [node] is the block with that name, 0 when there is
    none; the source's unrolled direct, single, double and triple levels are
    instances of it. *)

From Stdlib Require Import ZArith Lia.
From stdpp Require Import base numbers gmap list.
From S2P Require Import Prelude Bits Bytes Ext2Format Ext2Volume Ext2Inv.

Local Open Scope Z_scope.

Module Ext2Files.
Import Bytes Ext2Format Ext2Volume Ext2Inv.

Section files.
Context {D : Type} `{BlockDevice D}.
Variable sb : Superblock.
Hypothesis G : geom_ok sb.
Implicit Types (d : D) (raw : bytes).

Let bs := block_size sb.

(** ** Vocabulary *)

Definition P : Z := bs / 4.
Definition ptr d (b i : Z) : Z := field (i * 4) 4 (blk sb d b).
Definition slot raw (s : Z) : Z := field (40 + s * 4) 4 raw.

(** Pointer blocks between a slot and the data. *)
Definition depth (s : Z) : nat := if s <? 12 then 0%nat else Z.to_nat (s - 11).

Fixpoint node d raw (s : Z) (j : nat) (q : Z) : Z :=
  match j with
  | O => slot raw s
  | S j' => let b := node d raw s j' (q / P) in if b =? 0 then 0 else ptr d b (q mod P)
  end.

Definition key_ok (s : Z) (j : nat) (q : Z) : Prop := 0 <= s < 15 /\ (j <= depth s)%nat /\ 0 <= q < P ^ Z.of_nat j.

(** The tree of a file: its blocks are in use, hold no metadata, and no two
    places of the tree share one. *)
Record file_ok d raw : Prop := {
  f_size : size raw = inode_size sb;
  f_bytes : bytes_ok raw;
  f_data : forall s j q, key_ok s j q -> node d raw s j q <> 0 ->
    mapped sb (node d raw s j q) /\ used sb d (node d raw s j q) = true /\ ~ meta sb d (node d raw s j q);
  f_inj : forall s j q s' j' q', key_ok s j q -> key_ok s' j' q' -> node d raw s j q <> 0 ->
    node d raw s j q = node d raw s' j' q' -> s = s' /\ j = j' /\ q = q';
}.

(** The block of data at the end of slot [s] and path [q]; a hole reads as zeros. *)
Definition zeros : bytes := replicate (Z.to_nat bs) 0.
Definition data d raw (s q : Z) : bytes :=
  let b := node d raw s (depth s) q in if b =? 0 then zeros else blk sb d b.

(** ** Lemmas *)

Lemma P_bounds : 256 <= P <= 1024 /\ P * 4 = bs.
Proof. unfold P, bs. destruct (g_bs sb G) as [->|[->| ->]]; done. Qed.

Lemma key_parent s j q : key_ok s (S j) q -> key_ok s j (q / P) /\ 0 <= q mod P < P.
Proof.
  intros (Hs & Hj & Hq). pose proof P_bounds as [Hp _]. pose proof (Z.mod_pos_bound q P ltac:(lia)).
  split; [|done]. split; [done|]. split; [lia|]. split; [apply Z.div_pos; lia|].
  apply Z.div_lt_upper_bound; [lia|]. rewrite Nat2Z.inj_succ, Z.pow_succ_r in Hq by lia. lia.
Qed.

Lemma path_eq q q' : q / P = q' / P -> q mod P = q' mod P -> q = q'.
Proof.
  intros Hd Hm. pose proof P_bounds as [Hp _]. pose proof (Z.div_mod q P ltac:(lia)). pose proof (Z.div_mod q' P ltac:(lia)). lia.
Qed.

Lemma key_0 s q : key_ok s 0 q -> q = 0.
Proof. intros (_ & _ & Hq). cbn in Hq. lia. Qed.

Lemma ptr_zeros d b i : blk sb d b = zeros -> 0 <= i < P -> ptr d b i = 0.
Proof. intros Hb Hi. pose proof P_bounds as [_ Hp]. unfold ptr. rewrite Hb. apply field_zeros; lia. Qed.

Lemma slot_bound raw s : size raw = inode_size sb -> bytes_ok raw -> 0 <= s < 15 -> 0 <= slot raw s < 2 ^ 32.
Proof.
  intros Hs Hb Hr. destruct (g_isize sb G) as [Hi _]. unfold slot. apply (field_bound _ 4); [done|lia|lia|lia].
Qed.

(** *** Adding a node *)

(** The pointer to the node [(s, S j, q)], so far absent, is set to a block
    that was free and reads as zeros. *)
Lemma node_set d raw d' s j q nb : file_ok d raw -> key_ok s (S j) q -> node d raw s j (q / P) <> 0 -> node d raw s (S j) q = 0 ->
  used sb d nb = false -> blk sb d' nb = zeros ->
  (forall b, mapped sb b -> used sb d b = true -> ~ meta sb d b -> b <> node d raw s j (q / P) -> blk sb d' b = blk sb d b) ->
  (forall i, 0 <= i < P -> ptr d' (node d raw s j (q / P)) i = if i =? q mod P then nb else ptr d (node d raw s j (q / P)) i) ->
  nb <> 0 ->
  forall s' j' q', key_ok s' j' q' ->
    node d' raw s' j' q' = if decide (s' = s /\ j' = S j /\ q' = q) then nb else node d raw s' j' q'.
Proof.
  intros [F1 F2 F3 F4] Hk Hc H0 Hnb Hz Hblk Hptr Hnz. destruct (key_parent s j q Hk) as [Hkp Hqm].
  intros s' j'. induction j' as [|j' IH]; intros q' Hk'.
  - rewrite decide_False by (intros (_ & ? & _); done). done.
  - destruct (key_parent s' j' q' Hk') as [Hkp' Hqm']. cbn [node]. rewrite (IH (q' / P) Hkp'). clear IH.
    destruct (decide (s' = s /\ j' = S j /\ q' / P = q)) as [(-> & -> & Hq)|Hd].
    + rewrite (decide_False (P := s = s /\ S (S j) = S j /\ q' = q)) by (intros (_ & ? & _); lia).
      rewrite (proj2 (Z.eqb_neq _ _) Hnz), (ptr_zeros d' nb) by done.
      cbn [node] in H0. rewrite <- Hq in H0. cbn [node]. rewrite Hq in *. cbn [node] in H0 |- *.
      destruct (node d raw s j (q / P) =? 0); [done|]. rewrite H0. done.
    + destruct (Z.eqb_spec (node d raw s' j' (q' / P)) 0) as [Hb0|Hb0].
      * rewrite decide_False; [done|]. intros (-> & [= ->] & ->). done.
      * destruct (F3 s' j' (q' / P) Hkp' Hb0) as (M1 & M2 & M3).
        destruct (decide (node d raw s' j' (q' / P) = node d raw s j (q / P))) as [Heq|Hne].
        -- destruct (F4 s' j' (q' / P) s j (q / P) Hkp' Hkp Hb0 Heq) as (-> & -> & Hqq).
           rewrite Hqq, Hptr by done. destruct (Z.eqb_spec (q' mod P) (q mod P)) as [Hm|Hm].
           ++ rewrite decide_True; [done|]. split; [done|]. split; [done|]. by apply path_eq.
           ++ rewrite decide_False; [done|]. intros (_ & _ & ->). done.
        -- unfold ptr. rewrite Hblk by done. rewrite decide_False; [done|]. intros (-> & [= ->] & ->). done.
Qed.

(** *** Growing a file *)

(** The file may have more blocks; the blocks of other files are untouched. *)
Record evolves d raw d' raw' : Prop := {
  ev_vol : vol_ok sb d';
  ev_file : file_ok d' raw';
  ev_ptrs : ptrs_same sb d d';
  ev_used : forall b, mapped sb b -> used sb d b = true -> used sb d' b = true;
  ev_node : forall s j q, key_ok s j q -> node d raw s j q <> 0 -> node d' raw' s j q = node d raw s j q;
  ev_fresh : forall s j q, key_ok s j q -> node d raw s j q = 0 -> node d' raw' s j q <> 0 -> used sb d (node d' raw' s j q) = false;
  ev_frame : forall b, mapped sb b -> ~ meta sb d b -> used sb d b = true ->
    (forall s j q, key_ok s j q -> node d raw s j q <> b) -> blk sb d' b = blk sb d b;
  ev_table : forall g i, role_ok sb (Table g i) -> blk sb d' (itab sb d g + i) = blk sb d (itab sb d g + i);
  ev_inodes : forall g, group sb g -> blk sb d' (ibm sb d g) = blk sb d (ibm sb d g);
  ev_raw : forall a n, 0 <= a -> 0 <= n -> a + n <= 40 \/ 100 <= a -> field a n raw' = field a n raw;
}.

(** Growing keeps the contents. *)
Definition grows d raw d' raw' : Prop :=
  evolves d raw d' raw' /\ forall s q, key_ok s (depth s) q -> data d' raw' s q = data d raw s q.

Lemma file_evolves_refl d raw : vol_ok sb d -> file_ok d raw -> evolves d raw d raw.
Proof. intros Hv Hf. split; try done. Qed.

Lemma file_evolves_trans d1 raw1 d2 raw2 d3 raw3 : evolves d1 raw1 d2 raw2 -> evolves d2 raw2 d3 raw3 -> evolves d1 raw1 d3 raw3.
Proof.
  intros A B. pose proof (ev_ptrs _ _ _ _ A) as Hp.
  assert (forall s j q, key_ok s j q -> node d2 raw2 s j q <> 0 -> node d1 raw1 s j q = 0 -> used sb d1 (node d2 raw2 s j q) = false) as HA
    by (intros; by apply (ev_fresh _ _ _ _ A)).
  split.
  - apply B.
  - apply B.
  - apply (ptrs_trans sb d1 d2); [done|apply B].
  - intros b Hb Hu. by apply (ev_used _ _ _ _ B), (ev_used _ _ _ _ A).
  - intros s j q Hk Hn. rewrite (ev_node _ _ _ _ B), (ev_node _ _ _ _ A); try done. by rewrite (ev_node _ _ _ _ A).
  - intros s j q Hk Hn Hn3. destruct (decide (node d2 raw2 s j q = 0)) as [H2|H2].
    + destruct (f_data _ _ (ev_file _ _ _ _ B) s j q Hk Hn3) as (Hm & _).
      destruct (used sb d1 (node d3 raw3 s j q)) eqn:Hu; [|done].
      apply (ev_used _ _ _ _ A) in Hu; [|done]. by rewrite (ev_fresh _ _ _ _ B s j q Hk H2 Hn3) in Hu.
    + rewrite (ev_node _ _ _ _ B s j q Hk H2). by apply HA.
  - intros b Hb Hnm Hu Hno. rewrite (ev_frame _ _ _ _ B), (ev_frame _ _ _ _ A); try done.
    + by rewrite (ptrs_meta sb d1 d2).
    + by apply (ev_used _ _ _ _ A).
    + intros s j q Hk He. destruct (decide (node d1 raw1 s j q = 0)) as [H1|H1].
      * assert (node d2 raw2 s j q <> 0) as H2.
        { rewrite He. intros ->. apply (Hno s j q Hk). done. }
        rewrite <- He in Hu. by rewrite HA in Hu.
      * apply (Hno s j q Hk). by rewrite <- (ev_node _ _ _ _ A).
  - intros g i Hr. pose proof Hr as [Hg _]. rewrite <- (ptrs_itab sb d1 d2 g Hp Hg).
    rewrite (ev_table _ _ _ _ B) by done. rewrite (ptrs_itab sb d1 d2 g Hp Hg). by apply (ev_table _ _ _ _ A).
  - intros g Hg. rewrite <- (ptrs_ibm sb d1 d2 g Hp Hg). rewrite (ev_inodes _ _ _ _ B) by done.
    rewrite (ptrs_ibm sb d1 d2 g Hp Hg). by apply (ev_inodes _ _ _ _ A).
  - intros a n Ha Hn Hd. by rewrite (ev_raw _ _ _ _ B), (ev_raw _ _ _ _ A).
Qed.

Lemma grows_refl d raw : vol_ok sb d -> file_ok d raw -> grows d raw d raw.
Proof. intros Hv Hf. split; [by apply file_evolves_refl|done]. Qed.

Lemma grows_trans d1 raw1 d2 raw2 d3 raw3 : grows d1 raw1 d2 raw2 -> grows d2 raw2 d3 raw3 -> grows d1 raw1 d3 raw3.
Proof. intros [A1 A2] [B1 B2]. split; [by apply (file_evolves_trans d1 raw1 d2 raw2)|]. intros s q Hk. by rewrite B2, A2. Qed.

(** One new node. *)
Lemma grows_step d raw d' raw' s0 j0 q0 nb :
  vol_ok sb d' -> ptrs_same sb d d' -> file_ok d raw -> key_ok s0 j0 q0 -> node d raw s0 j0 q0 = 0 ->
  size raw' = inode_size sb -> bytes_ok raw' -> mapped sb nb -> used sb d nb = false -> ~ meta sb d nb -> nb <> 0 ->
  (forall b, mapped sb b -> used sb d' b = (b =? nb) || used sb d b) -> blk sb d' nb = zeros ->
  (forall s j q, key_ok s j q -> node d' raw' s j q = if decide (s = s0 /\ j = j0 /\ q = q0) then nb else node d raw s j q) ->
  (forall s q, key_ok s (depth s) q -> node d raw s (depth s) q <> 0 ->
     blk sb d' (node d raw s (depth s) q) = blk sb d (node d raw s (depth s) q)) ->
  (forall b, mapped sb b -> ~ meta sb d b -> used sb d b = true ->
    (forall s j q, key_ok s j q -> node d raw s j q <> b) -> blk sb d' b = blk sb d b) ->
  (forall g i, role_ok sb (Table g i) -> blk sb d' (itab sb d g + i) = blk sb d (itab sb d g + i)) ->
  (forall g, group sb g -> blk sb d' (ibm sb d g) = blk sb d (ibm sb d g)) ->
  (forall a n, 0 <= a -> 0 <= n -> a + n <= 40 \/ 100 <= a -> field a n raw' = field a n raw) ->
  grows d raw d' raw' /\ node d' raw' s0 j0 q0 = nb.
Proof.
  intros Hv Hp Hf Hk0 Hn0 Hs' Hb' Hm Hfree Hnm Hnz Hused Hz Hnode Hleaf Hframe Htab Hino Hraw.
  assert (forall s j q, key_ok s j q -> node d raw s j q <> nb) as Hnot.
  { intros s j q Hk He. destruct (f_data _ _ Hf s j q Hk) as (_ & Hu & _); [congruence|]. by rewrite He, Hfree in Hu. }
  split; [|rewrite Hnode by done; by rewrite decide_True]. split; [split|]; try done.
  - split; try done.
    + intros s j q Hk. rewrite Hnode by done. case_decide as Hd.
      * intros _. split; [done|]. split; [rewrite Hused, Z.eqb_refl; done|by rewrite (ptrs_meta sb d d')].
      * intros Hn. destruct (f_data _ _ Hf s j q Hk Hn) as (M1 & M2 & M3). split; [done|].
        split; [rewrite Hused, M2 by done; apply orb_true_r|by rewrite (ptrs_meta sb d d')].
    + intros s j q s' j' q' Hk Hk'. rewrite !Hnode by done.
      destruct (decide (s = s0 /\ j = j0 /\ q = q0)) as [(-> & -> & ->)|Hd]; destruct (decide (s' = s0 /\ j' = j0 /\ q' = q0)) as [(-> & -> & ->)|Hd'].
      * done.
      * intros _ He. by destruct (Hnot s' j' q' Hk').
      * intros _ He. by destruct (Hnot s j q Hk).
      * by apply (f_inj _ _ Hf).
  - intros b Hb Hu. rewrite Hused, Hu by done. apply orb_true_r.
  - intros s j q Hk Hn. rewrite Hnode by done. rewrite decide_False; [done|]. intros (-> & -> & ->). done.
  - intros s j q Hk Hn. rewrite Hnode by done. case_decide; [done|]. by rewrite Hn.
  - intros s q Hk. unfold data. rewrite Hnode by done. case_decide as Hd.
    + destruct Hd as (-> & Hj & ->). rewrite Hj, Hn0. rewrite (proj2 (Z.eqb_neq _ _) Hnz). done.
    + destruct (Z.eqb_spec (node d raw s (depth s) q) 0); [done|]. by apply Hleaf.
Qed.

(** *** Allocating on demand *)

Definition full d : Prop := forall b, mapped sb b -> used sb d b = true.

Lemma mapped_nonzero d b : mapped sb b -> ~ meta sb d b -> b <> 0.
Proof.
  intros Hm Hnm ->. destruct (sblk_spec sb G) as (Hs & Hs0 & _). apply Hnm. exists Super. split; [done|]. cbn.
  unfold mapped in Hm. lia.
Qed.

Lemma get_or_alloc_ptr_ok d raw s j q : vol_ok sb d -> file_ok d raw -> key_ok s (S j) q -> node d raw s j (q / P) <> 0 ->
  exists d' r, get_or_alloc_ptr sb (node d raw s j (q / P)) (q mod P) d = Ok (d', r) /\
    match r with
    | inl b => grows d raw d' raw /\ node d' raw s (S j) q = b /\ b <> 0
    | inr e => e = NoSpace /\ d' = d /\ full d
    end.
Proof.
  intros Hv Hf Hk Hc0. destruct (key_parent s j q Hk) as [Hkp Hqm]. set (c := node d raw s j (q / P)) in *.
  destruct (f_data _ _ Hf s j (q / P) Hkp Hc0) as (Cm & Cu & Cn). fold c in Cm, Cu, Cn.
  pose proof (mapped_valid sb G c Cm) as Cv. pose proof (v_dev sb d Hv) as Hd.
  pose proof (size_blk sb G d c Hd Cv) as Hsz. pose proof (blk_bytes sb d c Hd) as Hby. fold bs in Hsz.
  pose proof P_bounds as [HP1 HP2]. unfold get_or_alloc_ptr.
  rewrite (bind_run _ _ _ _ _ (block_vec_ok sb G d c Hd Cv)).
  rewrite (bind_lift _ _ _ (q mod P * 4)) by (apply chk_ok; lia).
  rewrite (bind_lift _ _ _ (ptr d c (q mod P))) by (apply get_le_ok; lia).
  assert (node d raw s (S j) q = ptr d c (q mod P)) as Hnode.
  { cbn [node]. fold c. by rewrite (proj2 (Z.eqb_neq _ _) Hc0). }
  destruct (Z.eqb_spec (ptr d c (q mod P)) 0) as [Hp0|Hpn]; cbn [negb].
  - destruct (alloc_block_ok sb G d Hv) as (d1 & r & He & Hr). rewrite (bind_run _ _ _ _ _ He).
    destruct r as [nb|]; [|destruct Hr as [-> Hfull]; by exists d, (inr NoSpace)]. destruct Hr as [A1 A2 A3 A4 A5 A6 A7 A8 A9 _].
    pose proof (free_not_meta sb d nb Hv A4) as Nm. pose proof (mapped_nonzero d nb A3 Nm) as Nz.
    assert (c <> nb) as Hcn by (intros ->; congruence).
    assert (blk sb d1 c = blk sb d c) as Hc1 by (by apply A7).
    pose proof (blocks_small sb G). pose proof (mapped_valid sb G nb A3) as Nv. change (2 ^ 31) with 2147483648 in *. unfold valid in Nv.
    rewrite (bind_run (or_no_space (Some nb)) _ d1 d1 nb) by done.
    rewrite (bind_lift _ _ _ (over (q mod P * 4) (to_le 4 nb) (blk sb d c))) by (apply put_le_ok; lia).
    destruct (over_field_set (q mod P * 4) 4 nb (blk sb d c)) as [O1 O2 O3 O4]; [done|lia|lia|lia|].
    destruct (write_data_ok sb G d1 c (over (q mod P * 4) (to_le 4 nb) (blk sb d c)) A1 Cv) as (d2 & E2 & [W1 W2 W3 W4 W5 W6 _]).
    { intros Hcm%core_is_meta. by rewrite (ptrs_meta sb d d1) in Hcm. }
    { by rewrite O1. }
    { done. }
    rewrite (bind_run _ _ _ _ _ E2). exists d2, (inl nb). split; [done|].
    assert (forall b, mapped sb b -> used sb d b = true -> ~ meta sb d b -> b <> c -> blk sb d2 b = blk sb d b) as Hrest.
    { intros b Hb Hu Hnm Hne. pose proof (mapped_valid sb G b Hb). rewrite W6, A7; try done. intros ->. congruence. }
    assert (blk sb d2 nb = zeros) as Hz2 by (rewrite W6; [exact A6|done|congruence]).
    pose proof (f_data _ _ Hf) as Hfd.
    destruct (grows_step d raw d2 raw s (S j) q nb) as [Hg Hn]; try done.
    + by apply (ptrs_trans sb d d1).
    + by rewrite Hnode.
    + apply Hf.
    + apply Hf.
    + intros b Hb. rewrite W3, A5 by done. done.
    + apply (node_set d raw d2 s j q nb); try done.
      * by rewrite Hnode.
      * intros i Hi. unfold ptr. fold c. rewrite W5. destruct (Z.eqb_spec i (q mod P)) as [->|Hne]; [done|]. apply O4; lia.
    + intros s' q' Hk' Hn'. destruct (Hfd s' _ q' Hk' Hn') as (M1 & M2 & M3). apply Hrest; try done.
      intros Hcc. destruct (f_inj _ _ Hf s' (depth s') q' s j (q / P) Hk' Hkp Hn' Hcc) as (-> & Hj & _).
      destruct Hk as (_ & Hle & _). lia.
    + intros b Hb Hnm Hu Hno. apply Hrest; try done. intros ->. by apply (Hno s j (q / P) Hkp).
    + intros g i Hr. rewrite W6; [by apply A9| |].
      * apply (mapped_valid sb G). by apply (l_mapped sb d (v_layout sb d Hv) (Table g i)).
      * intros <-. apply Cn. by exists (Table g i).
    + intros g Hg. rewrite W6; [by apply A8|by apply (layout_ibm sb G); [apply Hv|]|]. intros <-. apply Cn. by exists (InodeBitmap g).
  - exists d, (inl (ptr d c (q mod P))). split; [done|]. split; [by apply grows_refl|]. split; [done|done].
Qed.

Lemma slot_or_alloc_ok d raw s : vol_ok sb d -> file_ok d raw -> 0 <= s < 15 ->
  exists d' raw' r, slot_or_alloc sb s (d, raw) = Ok ((d', raw'), r) /\
    match r with
    | inl b => grows d raw d' raw' /\ node d' raw' s 0 0 = b /\ b <> 0
    | inr e => e = NoSpace /\ d' = d /\ raw' = raw /\ full d
    end.
Proof.
  intros Hv Hf Hs. destruct (g_isize sb G) as [Hi _]. pose proof (f_size _ _ Hf) as Hsz. pose proof (f_bytes _ _ Hf) as Hby.
  unfold slot_or_alloc. rewrite (bind_run inode _ (d, raw) (d, raw) raw) by done.
  rewrite (bind_lift _ _ _ (slot raw s)) by (apply get_le_ok; lia).
  destruct (Z.eqb_spec (slot raw s) 0) as [H0|Hn]; cbn [negb].
  - destruct (alloc_block_ok sb G d Hv) as (d1 & r & He & Hr).
    assert (on_dev (alloc_block sb) (d, raw) = Ok ((d1, raw), inl r)) as He' by (unfold on_dev; cbn [fst snd]; by rewrite He).
    rewrite (bind_run _ _ _ _ _ He').
    destruct r as [nb|]; [|destruct Hr as [-> Hfull]; by exists d, raw, (inr NoSpace)]. destruct Hr as [A1 A2 A3 A4 A5 A6 A7 A8 A9 _].
    pose proof (free_not_meta sb d nb Hv A4) as Nm. pose proof (mapped_nonzero d nb A3 Nm) as Nz.
    pose proof (blocks_small sb G). pose proof (mapped_valid sb G nb A3) as Nv. change (2 ^ 31) with 2147483648 in *. unfold valid in Nv.
    rewrite (bind_run (or_no_space (Some nb)) _ (d1, raw) (d1, raw) nb) by done.
    set (raw1 := over (40 + s * 4) (to_le 4 nb) raw).
    rewrite (bind_lift _ _ _ raw1) by (apply put_le_ok; lia).
    destruct (over_field_set (40 + s * 4) 4 nb raw) as [O1 O2 O3 O4]; [done|lia|lia|lia|]. fold raw1 in O1, O2, O3, O4.
    rewrite (bind_run (set_inode raw1) _ (d1, raw) (d1, raw1) tt) by done.
    exists d1, raw1, (inl nb). split; [done|].
    assert (forall s' j' q', key_ok s' j' q' -> node d1 raw1 s' j' q' = if decide (s' = s /\ j' = 0%nat /\ q' = 0) then nb else node d raw s' j' q') as Hnode.
    { intros s' j'. induction j' as [|j' IH]; intros q' Hk'.
      - pose proof (key_0 s' q' Hk') as ->. cbn [node]. destruct (decide (s' = s)) as [->|Hne]; [by rewrite decide_True|].
        rewrite decide_False by tauto. unfold slot. destruct Hk' as (Hs' & _). apply O4; lia.
      - rewrite decide_False by (intros (_ & ? & _); done). destruct (key_parent s' j' q' Hk') as [Hkp Hqm]. cbn [node].
        rewrite (IH (q' / P) Hkp). destruct (decide (s' = s /\ j' = 0%nat /\ q' / P = 0)) as [(-> & -> & Hq)|Hd].
        + cbn [node]. rewrite H0. cbn. rewrite (proj2 (Z.eqb_neq _ _) Nz). by apply ptr_zeros.
        + destruct (Z.eqb_spec (node d raw s' j' (q' / P)) 0) as [|Hb]; [done|]. destruct (f_data _ _ Hf s' j' (q' / P) Hkp Hb) as (M1 & M2 & M3).
          unfold ptr. rewrite A7; [done|by apply mapped_valid|done|]. intros He2. rewrite He2 in M2. congruence. }
    assert (key_ok s 0 0) as Hk by (split; [done|]; split; [lia|cbn; lia]).
    destruct (grows_step d raw d1 raw1 s 0 0 nb) as [Hg Hn]; try done.
    + by rewrite O1.
    + intros s' q' Hk' Hn'. destruct (f_data _ _ Hf s' _ q' Hk' Hn') as (M1 & M2 & M3). apply A7; [by apply mapped_valid|done|]. congruence.
    + intros b Hb Hnm Hu Hno. apply A7; [by apply mapped_valid|done|]. congruence.
    + intros a n Ha Hn Hdj. apply O4; [done|done|lia].
  - exists d, raw, (inl (slot raw s)). split; [done|]. split; [by apply grows_refl|]. split; [done|done].
Qed.

(** ** Block indices *)

(** The slot and path of the [idx]-th block of a file. *)
Definition find_slot (idx : Z) : option (Z * Z) :=
  if idx <? 12 then Some (idx, 0)
  else if idx - 12 <? P then Some (12, idx - 12)
  else if idx - 12 - P <? P * P then Some (13, idx - 12 - P)
  else if idx - 12 - P - P * P <? P * P * P then Some (14, idx - 12 - P - P * P)
  else None.

Definition max_blocks : Z := 12 + P + P * P + P * P * P.

Definition file_block d raw (idx : Z) : Z :=
  match find_slot idx with Some (s, q) => node d raw s (depth s) q | None => 0 end.

Lemma P_powers : P * P <= 2 ^ 20 /\ P * P * P <= 2 ^ 30 /\ 0 < P * P /\ 0 < P * P * P.
Proof. pose proof P_bounds as [HP _]. change (2 ^ 20) with 1048576. change (2 ^ 30) with 1073741824. nia. Qed.

Lemma find_slot_ok idx s q : 0 <= idx -> find_slot idx = Some (s, q) -> key_ok s (depth s) q.
Proof.
  intros Hi. pose proof P_bounds as [HP _]. unfold find_slot, key_ok.
  destruct (Z.ltb_spec idx 12) as [L0|L0].
  { intros [= <- <-]. unfold depth. rewrite (proj2 (Z.ltb_lt _ _) L0). cbn. lia. }
  case_bools; intros [= <- <-]; (split; [lia|]; split; [done|]).
  - change (Z.of_nat (depth 12)) with 1. lia.
  - change (Z.of_nat (depth 13)) with 2. lia.
  - change (Z.of_nat (depth 14)) with 3. replace (P ^ 3) with (P * P * P) by lia. lia.
Qed.

Lemma find_slot_None idx : 0 <= idx -> find_slot idx = None <-> max_blocks <= idx.
Proof.
  intros Hi. pose proof P_powers. pose proof P_bounds. unfold find_slot, max_blocks.
  case_bools; split; try done; intros; try lia; exfalso; lia.
Qed.

Lemma find_slot_inj idx idx' s q : 0 <= idx -> 0 <= idx' -> find_slot idx = Some (s, q) -> find_slot idx' = Some (s, q) -> idx = idx'.
Proof. intros Hi Hi'. unfold find_slot. case_bools; intros [= <- <-] Heq; simplify_eq; lia. Qed.

(** *** Looking up *)

Lemma read_ptr_ok d raw s j q : vol_ok sb d -> file_ok d raw -> key_ok s (S j) q -> node d raw s j (q / P) <> 0 ->
  read_block_ptr sb (node d raw s j (q / P)) (q mod P) d = Ok (d, inl (nonzero (node d raw s (S j) q))).
Proof.
  intros Hv Hf Hk Hc0. destruct (key_parent s j q Hk) as [Hkp Hqm].
  destruct (f_data _ _ Hf s j (q / P) Hkp Hc0) as (Cm & _). pose proof (mapped_valid sb G _ Cm) as Cv.
  pose proof (size_blk sb G d _ (v_dev sb d Hv) Cv) as Hsz. fold bs in Hsz. pose proof P_bounds as [HP1 HP2].
  unfold read_block_ptr. rewrite (bind_run _ _ _ _ _ (block_vec_ok sb G d _ (v_dev sb d Hv) Cv)).
  rewrite (bind_lift _ _ _ (q mod P * 4)) by (apply chk_ok; lia).
  rewrite (bind_lift _ _ _ (ptr d (node d raw s j (q / P)) (q mod P))) by (apply get_le_ok; lia).
  cbn [node]. by rewrite (proj2 (Z.eqb_neq _ _) Hc0).
Qed.

Lemma nonzero_0 : nonzero 0 = None. Proof. done. Qed.
Lemma nonzero_ne b : b <> 0 -> nonzero b = Some b.
Proof. intros Hb. unfold nonzero. by rewrite (proj2 (Z.eqb_neq _ _) Hb). Qed.

Lemma node_S_0 d raw s j q : node d raw s j (q / P) = 0 -> node d raw s (S j) q = 0.
Proof. intros Hn. cbn [node]. by rewrite Hn. Qed.

(** Paths in base [P]. *)
Lemma double_path q : 0 <= q < P * P -> q / P mod P = q / P.
Proof.
  intros Hq. pose proof P_bounds as [HP _]. apply Z.mod_small. split; [apply Z.div_pos; lia|]. apply Z.div_lt_upper_bound; lia.
Qed.

Lemma triple_path q : 0 <= q < P * P * P ->
  q / P / P mod P = q / (P * P) /\ q / P mod P = q mod (P * P) / P /\ q mod P = q mod (P * P) mod P.
Proof.
  intros Hq. pose proof P_bounds as [HP _]. rewrite Z.div_div by lia. split.
  - apply Z.mod_small. split; [apply Z.div_pos; lia|]. apply Z.div_lt_upper_bound; nia.
  - rewrite Z.rem_mul_r by lia. rewrite (Z.mul_comm P), Z.div_add, Z.mod_add by lia.
    rewrite (Z.div_small (q mod P)), Z.mod_mod by (pose proof (Z.mod_pos_bound q P); lia). done.
Qed.

Lemma block_for_index_ok d raw idx : vol_ok sb d -> file_ok d raw -> 0 <= idx ->
  block_for_index sb raw idx d = Ok (d, inl (nonzero (file_block d raw idx))).
Proof.
  intros Hv Hf Hi. pose proof P_bounds as [HP1 HP2]. pose proof P_powers as (HQ1 & HQ2 & HQ3 & HQ4).
  destruct (g_isize sb G) as [Hz _]. pose proof (f_size _ _ Hf) as Hsz.
  assert (forall s, 0 <= s < 15 -> i_block raw s = Ok (slot raw s)) as Hslot by (intros s Hs; apply get_le_ok; lia).
  pose proof (find_slot_ok idx) as Hkey. unfold block_for_index, file_block. fold bs P. unfold find_slot in *. revert Hkey.
  change (2 ^ 20) with 1048576 in *. change (2 ^ 30) with 1073741824 in *.
  destruct (Z.ltb_spec idx 12) as [L0|L0]; [|destruct (Z.ltb_spec (idx - 12) P) as [L1|L1]; [|
    rewrite (bind_lift _ _ _ (P * P)) by (apply chk_ok; change (2 ^ 32) with 4294967296; lia);
    destruct (Z.ltb_spec (idx - 12 - P) (P * P)) as [L2|L2]; [|
    rewrite (bind_lift _ _ _ (P * P * P)) by (apply chk_ok; change (2 ^ 32) with 4294967296; lia);
    destruct (Z.ltb_spec (idx - 12 - P - P * P) (P * P * P)) as [L3|L3]; [|done]]]]; intros Hkey;
    specialize (Hkey _ _ Hi eq_refl).
  - rewrite (bind_lift _ _ _ _ (Hslot idx ltac:(lia))). unfold depth. by rewrite (proj2 (Z.ltb_lt _ _) L0).
  - rewrite (bind_lift _ _ _ _ (Hslot 12 ltac:(lia))). change (depth 12) with 1%nat in *. set (q := idx - 12) in *.
    assert (q / P = 0 /\ q mod P = q) as [Hq1 Hq2] by (rewrite Z.div_small, Z.mod_small by lia; done).
    destruct (Z.eqb_spec (slot raw 12) 0) as [H0|Hn].
    + rewrite node_S_0; [done|]. done.
    + pose proof (read_ptr_ok d raw 12 0 q Hv Hf Hkey) as Hr. rewrite Hq2 in Hr. cbn [node] in Hr. rewrite Hr by done. cbn [node]. done.
  - rewrite (bind_lift _ _ _ _ (Hslot 13 ltac:(lia))). change (depth 13) with 2%nat in *. set (q := idx - 12 - P) in *.
    destruct (key_parent 13 1 q Hkey) as [Hk1 _]. pose proof (double_path q ltac:(lia)) as Hd.
    destruct (Z.eqb_spec (slot raw 13) 0) as [H0|Hn].
    + rewrite node_S_0; [done|]. apply node_S_0. done.
    + pose proof (read_ptr_ok d raw 13 0 (q / P) Hv Hf Hk1) as Hr. rewrite Hd in Hr. cbn [node] in Hr. rewrite (bind_run _ _ _ _ _ (Hr Hn)).
      destruct (decide (node d raw 13 1 (q / P) = 0)) as [H1|H1].
      * assert (ptr d (slot raw 13) (q / P) = 0) as Hp0.
        { cbn [node] in H1. rewrite (proj2 (Z.eqb_neq _ _) Hn), Hd in H1. done. }
        rewrite Hd, Hp0. rewrite (proj2 (Z.eqb_neq _ _) Hn). cbn [nonzero Z.eqb]. by rewrite node_S_0.
      * pose proof (read_ptr_ok d raw 13 1 q Hv Hf Hkey H1) as Hr2. rewrite <- Hr2.
        assert (nonzero (if slot raw 13 =? 0 then 0 else ptr d (slot raw 13) (q / P mod P)) = Some (node d raw 13 1 (q / P))) as ->; [|done].
        apply nonzero_ne in H1. cbn [node] in H1 |- *. done.
  - rewrite (bind_lift _ _ _ _ (Hslot 14 ltac:(lia))). change (depth 14) with 3%nat in *. set (q := idx - 12 - P - P * P) in *.
    destruct (key_parent 14 2 q Hkey) as [Hk2 _]. destruct (key_parent 14 1 (q / P) Hk2) as [Hk1 _].
    destruct (triple_path q ltac:(lia)) as (T1 & T2 & T3).
    destruct (Z.eqb_spec (slot raw 14) 0) as [H0|Hn].
    + rewrite node_S_0; [done|]. apply node_S_0, node_S_0. done.
    + rewrite <- T1, <- T2, <- T3.
      rewrite (bind_run _ _ _ _ _ (read_ptr_ok d raw 14 0 (q / P / P) Hv Hf Hk1 Hn)).
      destruct (decide (node d raw 14 1 (q / P / P) = 0)) as [H1|H1].
      * rewrite H1. cbn [nonzero Z.eqb]. rewrite node_S_0; [done|]. by apply node_S_0.
      * rewrite (nonzero_ne _ H1). rewrite (bind_run _ _ _ _ _ (read_ptr_ok d raw 14 1 (q / P) Hv Hf Hk2 H1)).
        destruct (decide (node d raw 14 2 (q / P) = 0)) as [H2|H2].
        -- rewrite H2. cbn [nonzero Z.eqb]. by rewrite node_S_0.
        -- rewrite (nonzero_ne _ H2). by apply read_ptr_ok.
Qed.

(** *** Growing to an index *)

(** What allocating the node [(s, j, q)] leaves. *)
Definition reached d raw (x : D * bytes) (s : Z) (j : nat) (q : Z) (r : Z + Ext2Error) : Prop :=
  grows d raw x.1 x.2 /\
  match r with
  | inl b => node x.1 x.2 s j q = b /\ b <> 0
  | inr e => e = NoSpace /\ full x.1
  end.

Lemma reach_slot d raw s : vol_ok sb d -> file_ok d raw -> 0 <= s < 15 ->
  exists x r, slot_or_alloc sb s (d, raw) = Ok (x, r) /\ reached d raw x s 0 0 r.
Proof.
  intros Hv Hf Hs. destruct (slot_or_alloc_ok d raw s Hv Hf Hs) as (d' & raw' & r & He & Hr).
  exists (d', raw'), r. split; [done|]. destruct r as [b|e].
  - destruct Hr as (Hg & Hn & Hb). by split.
  - destruct Hr as (-> & -> & -> & Hfull). split; [by apply grows_refl|done].
Qed.

Lemma reach_down d raw x s j q b : reached d raw x s j (q / P) (inl b) -> key_ok s (S j) q ->
  exists x' r, on_dev (get_or_alloc_ptr sb b (q mod P)) x = Ok (x', r) /\ reached d raw x' s (S j) q r.
Proof.
  intros (Hg & Hn & Hb) Hk. destruct x as [d1 raw1]. cbn [fst snd] in *. subst b.
  destruct (get_or_alloc_ptr_ok d1 raw1 s j q) as (d2 & r & He & Hr); [apply Hg|apply Hg|done|done|].
  exists (d2, raw1), r. unfold on_dev. cbn [fst snd]. rewrite He. split; [done|]. destruct r as [b2|e].
  - destruct Hr as (Hg2 & Hn2 & Hb2). split; [|done]. cbn. by apply (grows_trans d raw d1 raw1).
  - destruct Hr as (-> & -> & Hfull). split; done.
Qed.

Lemma block_for_index_alloc_ok d raw idx : vol_ok sb d -> file_ok d raw -> 0 <= idx < max_blocks ->
  exists x r, block_for_index_alloc sb idx (d, raw) = Ok (x, r) /\ grows d raw x.1 x.2 /\
    match r with
    | inl b => file_block x.1 x.2 idx = b /\ b <> 0
    | inr e => e = NoSpace /\ full x.1
    end.
Proof.
  intros Hv Hf [Hi Hmax]. pose proof P_bounds as [HP1 HP2]. pose proof P_powers as (HQ1 & HQ2 & HQ3 & HQ4).
  pose proof (find_slot_ok idx) as Hkey. unfold block_for_index_alloc, file_block. fold bs P. unfold max_blocks in Hmax. unfold find_slot in *. revert Hkey.
  change (2 ^ 20) with 1048576 in *. change (2 ^ 30) with 1073741824 in *.
  assert (@chk Empty_set 32 (P * P) = Ok (P * P)) as C2 by (apply chk_ok; change (2 ^ 32) with 4294967296; lia).
  assert (@chk Empty_set 32 (P * P * P) = Ok (P * P * P)) as C3 by (apply chk_ok; change (2 ^ 32) with 4294967296; lia).
  destruct (Z.ltb_spec idx 12) as [L0|L0]; [|destruct (Z.ltb_spec (idx - 12) P) as [L1|L1]; [|
    rewrite (bind_lift _ _ _ _ C2); destruct (Z.ltb_spec (idx - 12 - P) (P * P)) as [L2|L2]; [|
    rewrite (bind_lift _ _ _ _ C3);
    destruct (Z.ltb_spec (idx - 12 - P - P * P) (P * P * P)) as [L3|L3]; [|lia]]]]; intros Hkey;
    specialize (Hkey _ _ Hi eq_refl).
  - destruct (reach_slot d raw idx Hv Hf ltac:(lia)) as (x & r & -> & Hg & Hr). exists x, r. split; [done|]. split; [done|].
    unfold depth. by rewrite (proj2 (Z.ltb_lt _ _) L0).
  - change (depth 12) with 1%nat in *. set (q := idx - 12) in *.
    destruct (reach_slot d raw 12 Hv Hf ltac:(lia)) as (x & r & He & Hr).
    assert (q / P = 0 /\ q mod P = q) as [Hq1 Hq2] by (rewrite Z.div_small, Z.mod_small by lia; done).
    destruct r as [b|e]; [|rewrite (bind_fail _ _ _ _ _ He); by exists x, (inr e)]. rewrite (bind_run _ _ _ _ _ He).
    rewrite <- Hq1 in Hr. destruct (reach_down d raw x 12 0 q b Hr Hkey) as (x' & r' & He' & Hg & Hr'). rewrite Hq2 in He'.
    exists x', r'. by rewrite He'.
  - change (depth 13) with 2%nat in *. set (q := idx - 12 - P) in *. pose proof (double_path q ltac:(lia)) as Hd.
    destruct (key_parent 13 1 q Hkey) as [Hk1 _]. destruct (key_parent 13 0 (q / P) Hk1) as [Hk0 _].
    destruct (reach_slot d raw 13 Hv Hf ltac:(lia)) as (x & r & He & Hr).
    destruct r as [b|e]; [|rewrite (bind_fail _ _ _ _ _ He); by exists x, (inr e)]. rewrite (bind_run _ _ _ _ _ He).
    rewrite <- (key_0 _ _ Hk0) in Hr. destruct (reach_down d raw x 13 0 (q / P) b Hr Hk1) as (x1 & r1 & He1 & Hr1). rewrite Hd in He1.
    destruct r1 as [b1|e]; [|rewrite (bind_fail _ _ _ _ _ He1); by exists x1, (inr e)]. rewrite (bind_run _ _ _ _ _ He1).
    destruct (reach_down d raw x1 13 1 q b1 Hr1 Hkey) as (x2 & r2 & -> & Hg & Hr2). by exists x2, r2.
  - change (depth 14) with 3%nat in *. set (q := idx - 12 - P - P * P) in *. destruct (triple_path q ltac:(lia)) as (T1 & T2 & T3).
    destruct (key_parent 14 2 q Hkey) as [Hk2 _]. destruct (key_parent 14 1 (q / P) Hk2) as [Hk1 _].
    destruct (key_parent 14 0 (q / P / P) Hk1) as [Hk0 _].
    destruct (reach_slot d raw 14 Hv Hf ltac:(lia)) as (x & r & He & Hr).
    destruct r as [b|e]; [|rewrite (bind_fail _ _ _ _ _ He); by exists x, (inr e)]. rewrite (bind_run _ _ _ _ _ He).
    rewrite <- T1, <- T2, <- T3.
    rewrite <- (key_0 _ _ Hk0) in Hr. destruct (reach_down d raw x 14 0 (q / P / P) b Hr Hk1) as (x1 & r1 & He1 & Hr1).
    destruct r1 as [b1|e]; [|rewrite (bind_fail _ _ _ _ _ He1); by exists x1, (inr e)]. rewrite (bind_run _ _ _ _ _ He1).
    destruct (reach_down d raw x1 14 1 (q / P) b1 Hr1 Hk2) as (x2 & r2 & He2 & Hr2).
    destruct r2 as [b2|e]; [|rewrite (bind_fail _ _ _ _ _ He2); by exists x2, (inr e)]. rewrite (bind_run _ _ _ _ _ He2).
    destruct (reach_down d raw x2 14 2 q b2 Hr2 Hkey) as (x3 & r3 & -> & Hg & Hr3). by exists x3, r3.
Qed.

(** ** Contents *)

(** The byte at position [pos] of a file. *)
Definition content d raw (pos : Z) : Z :=
  match find_slot (pos / bs) with
  | Some (s, q) => data d raw s q !!! Z.to_nat (pos mod bs)
  | None => 0
  end.

Lemma grows_content d raw d' raw' pos : 0 <= pos -> grows d raw d' raw' -> content d' raw' pos = content d raw pos.
Proof.
  intros Hp Hg. unfold content. destruct (find_slot (pos / bs)) as [[s q]|] eqn:Hs; [|done].
  rewrite (proj2 Hg); [done|]. pose proof (bs_bounds sb G) as [Hbs _]. fold bs in Hbs.
  apply (find_slot_ok (pos / bs)); [apply Z.div_pos; lia|done].
Qed.

(** *** Writing a block of data *)

(** The data block at slot [s] and path [q] is replaced; everything else stays. *)
Record data_set d d' raw (s q : Z) (buf : bytes) : Prop := {
  ds_vol : vol_ok sb d';
  ds_file : file_ok d' raw;
  ds_ptrs : ptrs_same sb d d';
  ds_used : forall b, mapped sb b -> used sb d' b = used sb d b;
  ds_node : forall s' j q', key_ok s' j q' -> node d' raw s' j q' = node d raw s' j q';
  ds_data : forall s' q', key_ok s' (depth s') q' -> data d' raw s' q' = if decide (s' = s /\ q' = q) then buf else data d raw s' q';
  ds_frame : forall b, valid sb b -> b <> node d raw s (depth s) q -> blk sb d' b = blk sb d b;
}.

Lemma data_set_ok d raw s q buf : vol_ok sb d -> file_ok d raw -> key_ok s (depth s) q -> node d raw s (depth s) q <> 0 ->
  size buf = bs -> bytes_ok buf ->
  exists d', write_block sb (node d raw s (depth s) q) buf d = Ok (d', inl ()) /\ data_set d d' raw s q buf.
Proof.
  intros Hv Hf Hk Hn Hsz Hb. destruct (f_data _ _ Hf s _ q Hk Hn) as (Bm & Bu & Bn). pose proof (mapped_valid sb G _ Bm) as Bv.
  destruct (write_data_ok sb G d _ buf Hv Bv) as (d' & He & [W1 W2 W3 W4 W5 W6 _]); [by intros ?%core_is_meta|done|done|].
  exists d'. split; [done|].
  assert (forall s' j q', key_ok s' j q' -> node d' raw s' j q' = node d raw s' j q') as Hnode.
  { intros s' j. induction j as [|j IH]; intros q' Hk'; [done|]. destruct (key_parent s' j q' Hk') as [Hkp Hqm]. cbn [node].
    rewrite (IH _ Hkp). destruct (Z.eqb_spec (node d raw s' j (q' / P)) 0) as [|Hb0]; [done|]. unfold ptr.
    destruct (f_data _ _ Hf s' j (q' / P) Hkp Hb0) as (M1 & _). rewrite W6; [done|by apply mapped_valid|].
    intros Heq. destruct (f_inj _ _ Hf s' j (q' / P) s (depth s) q Hkp Hk Hb0 Heq) as (-> & -> & _). destruct Hk' as (_ & Hle & _). lia. }
  split; try done.
  - destruct Hf as [F1 F2 F3 F4]. split; try done.
    + intros s' j q' Hk'. rewrite Hnode by done. intros Hn'. destruct (F3 s' j q' Hk' Hn') as (M1 & M2 & M3).
      split; [done|]. split; [by rewrite W3|by rewrite (ptrs_meta sb d d')].
    + intros s1 j1 q1 s2 j2 q2 Hk1 Hk2. rewrite !Hnode by done. by apply F4.
  - intros s' q' Hk'. unfold data. rewrite Hnode by done. destruct (decide (s' = s /\ q' = q)) as [[-> ->]|Hd].
    + by rewrite (proj2 (Z.eqb_neq _ _) Hn).
    + destruct (Z.eqb_spec (node d raw s' (depth s') q') 0) as [|Hb0]; [done|]. apply W6.
      * apply (mapped_valid sb G). by apply (f_data _ _ Hf s' (depth s') q').
      * intros Heq. apply Hd. by destruct (f_inj _ _ Hf s' _ q' s _ q Hk' Hk Hb0 Heq) as (-> & _ & ->).
Qed.

Lemma data_set_evolves d d' raw s q buf : vol_ok sb d -> file_ok d raw -> key_ok s (depth s) q -> node d raw s (depth s) q <> 0 ->
  data_set d d' raw s q buf -> evolves d raw d' raw.
Proof.
  intros Hv Hf Hk Hn [S1 S2 S3 S4 S5 S6 S7]. destruct (f_data _ _ Hf s _ q Hk Hn) as (_ & _ & Bn).
  split; try done.
  - intros b Hb Hu. by rewrite S4.
  - intros s' j q' Hk' _. by apply S5.
  - intros s' j q' Hk' H0. rewrite S5 by done. congruence.
  - intros b Hb _ _ Hno. apply S7; [by apply mapped_valid|]. intros ->. by apply (Hno s (depth s) q Hk).
  - intros g i Hr. apply S7.
    + apply (mapped_valid sb G). by apply (l_mapped sb d (v_layout sb d Hv) (Table g i)).
    + intros Heq. apply Bn. by exists (Table g i).
  - intros g Hg. apply S7; [by apply (layout_ibm sb G); [apply Hv|]|]. intros Heq. apply Bn. by exists (InodeBitmap g).
Qed.

Lemma pos_index pos : 0 <= pos -> 0 <= pos / bs /\ 0 <= pos mod bs < bs /\ pos = pos / bs * bs + pos mod bs.
Proof.
  intros Hp. pose proof (bs_bounds sb G) as [Hbs _]. fold bs in Hbs. pose proof (Z.mod_pos_bound pos bs ltac:(lia)).
  pose proof (Z.div_mod pos bs ltac:(lia)). split; [apply Z.div_pos; lia|]. lia.
Qed.

(** Positions in the block of [pos]. *)
Lemma same_index pos i : 0 <= pos -> 0 <= i -> pos mod bs + i < bs -> (pos + i) / bs = pos / bs /\ (pos + i) mod bs = pos mod bs + i.
Proof.
  intros Hp Hi Hlt. pose proof (pos_index pos Hp) as (_ & Hm & He).
  assert (pos + i = (pos mod bs + i) + pos / bs * bs) as -> by lia.
  pose proof (bs_bounds sb G) as [Hbs _]. fold bs in Hbs.
  rewrite Z.div_add, Z.mod_add, Z.div_small, Z.mod_small by lia. lia.
Qed.

Lemma size_data d raw s q : vol_ok sb d -> file_ok d raw -> key_ok s (depth s) q -> size (data d raw s q) = bs.
Proof.
  intros Hv Hf Hk. pose proof (bs_bounds sb G) as [Hbs _]. fold bs in Hbs. unfold data.
  destruct (Z.eqb_spec (node d raw s (depth s) q) 0) as [|Hn].
  - apply size_replicate. lia.
  - apply (size_blk sb G); [apply Hv|]. apply (mapped_valid sb G). by apply (f_data _ _ Hf s _ q).
Qed.

Lemma data_bytes d raw s q : vol_ok sb d -> bytes_ok (data d raw s q).
Proof. intros Hv. unfold data. case_match; [apply zeros_bytes|]. apply blk_bytes, Hv. Qed.

(** The bytes of a range. *)
Definition range d raw (off len : Z) : bytes := (fun i => content d raw (off + Z.of_nat i)) <$> seq 0 (Z.to_nat len).

Lemma size_range d raw off len : 0 <= len -> size (range d raw off len) = len.
Proof. intros Hl. unfold size, range. rewrite length_fmap, length_seq. lia. Qed.

Lemma lookup_range d raw off len (i : nat) : Z.of_nat i < len -> range d raw off len !! i = Some (content d raw (off + Z.of_nat i)).
Proof. intros Hi. unfold range. rewrite list_lookup_fmap, lookup_seq_lt by lia. done. Qed.

Lemma range_split d raw off k len : 0 <= k <= len -> range d raw off len = range d raw off k ++ range d raw (off + k) (len - k).
Proof.
  intros Hk. apply list_eq. intros i. destruct (Z.lt_ge_cases (Z.of_nat i) k) as [Hi|Hi].
  - rewrite lookup_app_l by (pose proof (size_range d raw off k); unfold size in *; lia). rewrite !lookup_range by lia. done.
  - pose proof (size_range d raw off k ltac:(lia)) as Hs. unfold size in Hs. rewrite lookup_app_r by lia.
    destruct (Z.lt_ge_cases (Z.of_nat i) len) as [Hl|Hl].
    + rewrite !lookup_range by lia. do 2 f_equal. lia.
    + rewrite !lookup_ge_None_2; [done| |]; [pose proof (size_range d raw (off + k) (len - k))|pose proof (size_range d raw off len)]; unfold size in *; lia.
Qed.

(** The part of a range inside one block. *)
Lemma range_chunk d raw pos k : vol_ok sb d -> file_ok d raw -> 0 <= pos -> 0 <= k -> pos mod bs + k <= bs ->
  range d raw pos k = match find_slot (pos / bs) with
                      | Some (s, q) => sub (pos mod bs) k (data d raw s q)
                      | None => replicate (Z.to_nat k) 0
                      end.
Proof.
  intros Hv Hf Hp Hk Hfit. pose proof (pos_index pos Hp) as (Hi & Hm & _). apply list_eq. intros i.
  destruct (Z.lt_ge_cases (Z.of_nat i) k) as [Hlt|Hge].
  - rewrite lookup_range by done. destruct (same_index pos (Z.of_nat i) Hp ltac:(lia) ltac:(lia)) as [Hd Hm']. unfold content.
    rewrite Hd, Hm'. destruct (find_slot (pos / bs)) as [[s q]|] eqn:Hs.
    + pose proof (size_data d raw s q Hv Hf (find_slot_ok _ _ _ Hi Hs)) as Hsz. unfold size in Hsz.
      rewrite lookup_sub by lia. replace (Z.to_nat (pos mod bs + Z.of_nat i)) with (Z.to_nat (pos mod bs) + i)%nat by lia.
      symmetry. apply list_lookup_lookup_total_lt. lia.
    + symmetry. apply lookup_replicate. lia.
  - rewrite lookup_ge_None_2 by (pose proof (size_range d raw pos k Hk); unfold size in *; lia). symmetry.
    destruct (find_slot (pos / bs)) as [[s q]|]; [by apply lookup_sub_ge|]. apply lookup_ge_None_2. rewrite length_replicate. lia.
Qed.

(** ** Reading *)

Lemma read_loop_ok d raw n pos left acc : vol_ok sb d -> file_ok d raw -> 0 <= pos -> 0 <= left <= Z.of_nat n -> pos + left <= 2 ^ 32 * bs ->
  read_loop sb n raw pos left acc d = Ok (d, inl (acc ++ range d raw pos left)).
Proof.
  intros Hv Hf. pose proof (bs_bounds sb G) as [Hbs _]. fold bs in Hbs.
  revert pos left acc. induction n as [|n IH]; intros pos left acc Hp Hl Hmax; cbn [read_loop].
  { assert (left = 0) as -> by lia. cbn. by rewrite app_nil_r. }
  destruct (Z.leb_spec left 0) as [H0|Hpos]. { assert (left = 0) as -> by lia. cbn. by rewrite app_nil_r. }
  fold bs. rewrite (proj2 (Z.eqb_neq _ _)) by lia. rewrite (bind_lift _ _ _ pos) by (apply chk_ok; change (2 ^ 64) with (2 ^ 32 * 2 ^ 32); lia).
  pose proof (pos_index pos Hp) as (Hi & Hm & Hdec). set (k := Z.min (bs - pos mod bs) left).
  assert (0 < k <= left /\ pos mod bs + k <= bs) as [Hk1 Hk2] by (unfold k; lia).
  assert (wrap 32 (pos / bs) = pos / bs) as ->. { unfold wrap. apply Z.mod_small. split; [done|]. apply Z.div_lt_upper_bound; lia. }
  rewrite (bind_run _ _ _ _ _ (block_for_index_ok d raw (pos / bs) Hv Hf Hi)).
  assert ((match nonzero (file_block d raw (pos / bs)) with
     | Some block_num => b ← block_vec sb block_num; lift (get (pos mod bs) k b)
     | None => mret (replicate (Z.to_nat k) 0) end : Vol D bytes) d = Ok (d, inl (range d raw pos k))) as Hchunk.
  { rewrite (range_chunk d raw pos k) by (done || lia). unfold file_block.
    destruct (find_slot (pos / bs)) as [[s q]|] eqn:Hs; [|done]. pose proof (find_slot_ok _ _ _ Hi Hs) as Hkey.
    pose proof (size_data d raw s q Hv Hf Hkey) as Hsz. unfold nonzero, data in *.
    destruct (Z.eqb_spec (node d raw s (depth s) q) 0) as [H0|Hn].
    - assert (sub (pos mod bs) k zeros = replicate (Z.to_nat k) 0) as ->; [|done].
      unfold sub, zeros. rewrite drop_replicate, take_replicate. f_equal. lia.
    - pose proof (mapped_valid sb G _ (proj1 (f_data _ _ Hf s _ q Hkey Hn))) as Hval.
      rewrite (bind_run _ _ _ _ _ (block_vec_ok sb G d _ (v_dev sb d Hv) Hval)).
      unfold lift. rewrite get_ok by lia. done. }
  rewrite (bind_run _ _ _ _ _ Hchunk), IH by lia. rewrite <- app_assoc, <- range_split by lia. done.
Qed.

Lemma read_file_range_ok d raw offset len : vol_ok sb d -> file_ok d raw -> 0 <= offset -> 0 <= len -> offset + len <= 2 ^ 32 * bs ->
  read_file_range sb raw offset len d = Ok (d, inl (range d raw offset len)).
Proof. intros Hv Hf Ho Hl Hmax. unfold read_file_range. rewrite read_loop_ok by (done || lia). done. Qed.

(** ** Writing *)

(** [f] with [src] laid over it at [pos]. *)
Definition overlay (f : Z -> Z) (pos : Z) (src : bytes) (p : Z) : Z :=
  if (pos <=? p) && (p <? pos + size src) then src !!! Z.to_nat (p - pos) else f p.

Lemma overlay_in f pos src p : pos <= p < pos + size src -> overlay f pos src p = src !!! Z.to_nat (p - pos).
Proof. intros [H1 H2]. unfold overlay. by rewrite (proj2 (Z.leb_le _ _) H1), (proj2 (Z.ltb_lt _ _) H2). Qed.

Lemma overlay_out f pos src p : p < pos \/ pos + size src <= p -> overlay f pos src p = f p.
Proof. intros Hd. unfold overlay. case_bools; cbn [andb]; (done || lia). Qed.

Lemma overlay_ext f g pos src p : f p = g p -> overlay f pos src p = overlay g pos src p.
Proof. intros He. unfold overlay. by rewrite He. Qed.

Lemma sub_total a n l i : 0 <= a -> 0 <= i < n -> a + n <= size l -> sub a n l !!! Z.to_nat i = l !!! Z.to_nat (a + i).
Proof.
  intros Ha Hi Hl. apply list_lookup_total_correct. rewrite lookup_sub by lia.
  replace (Z.to_nat a + Z.to_nat i)%nat with (Z.to_nat (a + i)) by lia. apply list_lookup_lookup_total_lt. unfold size in Hl. lia.
Qed.

Lemma overlay_join f pos src k k' p : 0 <= k -> 0 <= k' -> k + k' <= size src ->
  overlay (overlay f pos (sub 0 k src)) (pos + k) (sub 0 k' (sub k (size src - k) src)) p = overlay f pos (sub 0 (k + k') src) p.
Proof.
  intros Hk Hk' Hl. rewrite sub_sub by lia. rewrite Z.add_0_r.
  pose proof (size_sub 0 k src ltac:(lia) Hk ltac:(lia)) as S1. pose proof (size_sub k k' src ltac:(lia) Hk' ltac:(lia)) as S2.
  pose proof (size_sub 0 (k + k') src ltac:(lia) ltac:(lia) ltac:(lia)) as S3.
  destruct (Z.lt_ge_cases p pos) as [H1|H1]; [rewrite !overlay_out by lia; done|].
  destruct (Z.lt_ge_cases p (pos + k)) as [H2|H2].
  { rewrite overlay_out, !overlay_in by lia. rewrite !sub_total by lia. done. }
  destruct (Z.lt_ge_cases p (pos + k + k')) as [H3|H3]; [|rewrite !overlay_out by lia; done].
  rewrite !overlay_in by lia. rewrite !sub_total by lia. do 2 f_equal. lia.
Qed.

(** Replacing part of one block overlays the contents. *)
Lemma content_set d d' raw s q pos src : vol_ok sb d -> file_ok d raw -> 0 <= pos -> find_slot (pos / bs) = Some (s, q) ->
  pos mod bs + size src <= bs -> data_set d d' raw s q (over (pos mod bs) src (data d raw s q)) ->
  forall p, 0 <= p -> content d' raw p = overlay (content d raw) pos src p.
Proof.
  intros Hv Hf Hp Hs Hfit Hset p Hpp. pose proof (pos_index pos Hp) as (Hi & Hm & Hdec). pose proof (pos_index p Hpp) as (Hi' & Hm' & Hdec').
  pose proof (find_slot_ok _ _ _ Hi Hs) as Hk. pose proof (size_data d raw s q Hv Hf Hk) as Hsz. unfold content at 1.
  destruct (decide (p / bs = pos / bs)) as [He|Hne].
  - rewrite He, Hs, (ds_data _ _ _ _ _ _ Hset) by done. rewrite decide_True by done.
    destruct (decide (pos mod bs <= p mod bs < pos mod bs + size src)) as [Hin|Hout].
    + rewrite overlay_in by (rewrite He in Hdec'; lia). rewrite list_lookup_total_alt, lookup_over by lia. rewrite decide_True by lia.
      rewrite list_lookup_total_alt. do 2 f_equal. rewrite He in Hdec'. lia.
    + rewrite overlay_out by (rewrite He in Hdec'; lia). unfold content. rewrite He, Hs.
      rewrite !list_lookup_total_alt, lookup_over by lia. by rewrite decide_False by lia.
  - assert (p < pos \/ pos + size src <= p) as Hout by nia. rewrite overlay_out by done. unfold content.
    destruct (find_slot (p / bs)) as [[s' q']|] eqn:Hs'; [|done].
    rewrite (ds_data _ _ _ _ _ _ Hset) by (by apply (find_slot_ok (p / bs))). rewrite decide_False; [done|].
    intros [-> ->]. apply Hne. by apply (find_slot_inj _ _ s q).
Qed.

Lemma write_loop_ok n : forall d raw pos src, vol_ok sb d -> file_ok d raw -> bytes_ok src -> 0 <= pos -> size src <= Z.of_nat n ->
  pos + size src <= max_blocks * bs ->
  exists x r k, write_loop sb n pos src (d, raw) = Ok (x, r) /\ evolves d raw x.1 x.2 /\ 0 <= k <= size src /\
    (forall p, 0 <= p -> content x.1 x.2 p = overlay (content d raw) pos (sub 0 k src) p) /\
    match r with inl _ => k = size src | inr e => e = NoSpace /\ full x.1 end.
Proof.
  pose proof (bs_bounds sb G) as [Hbs _]. fold bs in Hbs.
  induction n as [|n IH]; intros d raw pos src Hv Hf Hby Hp Hl Hmax; cbn [write_loop]; pose proof (size_nonneg src) as Hsn;
    (assert (size src = 0 -> exists x r k, @Ok Empty_set _ ((d, raw), inl ()) = Ok (x, r) /\ evolves d raw x.1 x.2 /\ 0 <= k <= size src /\
      (forall p, 0 <= p -> content x.1 x.2 p = overlay (content d raw) pos (sub 0 k src) p) /\
      match r with inl _ => k = size src | inr e => e = NoSpace /\ full x.1 end) as Hdone;
    [intros H0; exists (d, raw), (inl ()), 0; split; [done|]; split; [by apply file_evolves_refl|]; split; [lia|];
     split; [intros p _; rewrite overlay_out; [done|rewrite size_sub by lia; lia]|lia]|]).
  { apply Hdone. lia. }
  destruct (Z.leb_spec (size src) 0) as [H0|Hpos]; [apply Hdone; lia|]. clear Hdone.
  fold bs. rewrite (proj2 (Z.eqb_neq _ _)) by lia. pose proof P_powers as (HQ1 & HQ2 & _). pose proof P_bounds as [HP _].
  assert (max_blocks < 2 ^ 32) as Hmb by (unfold max_blocks; change (2 ^ 32) with 4294967296; change (2 ^ 20) with 1048576 in *; change (2 ^ 30) with 1073741824 in *; lia).
  rewrite (bind_lift _ _ _ pos) by (apply chk_ok; change (2 ^ 64) with (2 ^ 32 * 2 ^ 32); nia).
  pose proof (pos_index pos Hp) as (Hi & Hm & Hdec). set (k := Z.min (bs - pos mod bs) (size src)).
  assert (0 < k <= size src /\ pos mod bs + k <= bs) as [Hk1 Hk2] by (unfold k; lia).
  assert (pos / bs < max_blocks) as Hidx by (apply Z.div_lt_upper_bound; lia).
  assert (wrap 32 (pos / bs) = pos / bs) as -> by (unfold wrap; apply Z.mod_small; lia).
  destruct (block_for_index_alloc_ok d raw (pos / bs) Hv Hf ltac:(lia)) as ([d1 raw1] & r & He & Hg & Hr). cbn [fst snd] in *.
  destruct r as [b|e].
  2: { rewrite (bind_fail _ _ _ _ _ He). exists (d1, raw1), (inr e), 0. split; [done|]. split; [apply Hg|]. split; [lia|].
       split; [|done]. intros p Hpp. cbn. rewrite (grows_content d raw d1 raw1 p Hpp Hg). rewrite overlay_out; [done|]. rewrite size_sub by lia. lia. }
  rewrite (bind_run _ _ _ _ _ He). destruct Hr as [Hfb Hb0].
  destruct (find_slot (pos / bs)) as [[s q]|] eqn:Hs; [|apply find_slot_None in Hs; [lia|done]].
  assert (b = node d1 raw1 s (depth s) q) as Hbn by (unfold file_block in Hfb; by rewrite Hs in Hfb).
  pose proof (find_slot_ok _ _ _ Hi Hs) as Hkey. destruct Hg as [Hev Hdat].
  pose proof (ev_vol _ _ _ _ Hev) as Hv1. pose proof (ev_file _ _ _ _ Hev) as Hf1.
  assert (data d1 raw1 s q = blk sb d1 b) as Hblk. { unfold data. rewrite <- Hbn. by rewrite (proj2 (Z.eqb_neq _ _) Hb0). }
  pose proof (size_data d1 raw1 s q Hv1 Hf1 Hkey) as Hsz.
  pose proof (size_sub 0 k src ltac:(lia) ltac:(lia) ltac:(lia)) as Hsk.
  destruct (data_set_ok d1 raw1 s q (over (pos mod bs) (sub 0 k src) (data d1 raw1 s q)) Hv1 Hf1 Hkey) as (d2 & Hw & Hset).
  { congruence. }
  { rewrite size_over by lia. done. }
  { apply over_bytes; [by apply sub_bytes|]. by apply data_bytes. }
  assert (on_dev (if k =? bs then write_block sb b (sub 0 k src)
                  else b0 ← block_vec sb b; b1 ← lift (put (pos mod bs) (sub 0 k src) b0); write_block sb b b1) (d1, raw1)
          = Ok ((d2, raw1), inl ())) as Hstep.
  { unfold on_dev. cbn [fst snd]. rewrite <- Hbn in Hw. destruct (Z.eqb_spec k bs) as [Hkb|Hkb].
    - assert (pos mod bs = 0) as Hm0 by lia. rewrite Hm0, over_all in Hw by lia. rewrite Hw. done.
    - assert (valid sb b) as Hval.
      { rewrite Hbn. apply (mapped_valid sb G). apply (f_data _ _ Hf1 s _ q Hkey). congruence. }
      rewrite (bind_run _ _ _ _ _ (block_vec_ok sb G d1 b (v_dev sb d1 Hv1) Hval)). rewrite <- Hblk.
      rewrite (bind_lift _ _ _ _ (put_ok (pos mod bs) (sub 0 k src) (data d1 raw1 s q) ltac:(lia) ltac:(lia))).
      rewrite Hw. done. }
  rewrite (bind_run _ _ _ _ _ Hstep). pose proof (ds_vol _ _ _ _ _ _ Hset) as Hv2. pose proof (ds_file _ _ _ _ _ _ Hset) as Hf2.
  pose proof (data_set_evolves d1 d2 raw1 s q _ Hv1 Hf1 Hkey ltac:(congruence) Hset) as Hev2.
  pose proof (size_sub k (size src - k) src ltac:(lia) ltac:(lia) ltac:(lia)) as Hrest.
  destruct (IH d2 raw1 (pos + k) (sub k (size src - k) src) Hv2 Hf2) as (x & r & k' & He2 & Hx & Hk' & Hcont & Hr);
    [by apply sub_bytes|lia|lia|lia|].
  rewrite He2. exists x, r, (k + k'). split; [done|].
  split; [apply (file_evolves_trans d raw d1 raw1); [done|]; by apply (file_evolves_trans d1 raw1 d2 raw1)|]. split; [lia|]. split.
  - intros p Hpp. rewrite Hcont by done. rewrite <- overlay_join by lia. apply overlay_ext.
    rewrite (content_set d1 d2 raw1 s q pos (sub 0 k src)) by (done || lia). apply overlay_ext.
    by apply grows_content.
  - destruct r; [lia|done].
Qed.

(** ** The size of a file *)

Definition regular raw : bool := Z.land (field 0 2 raw) 61440 =? 32768.
Definition fsize raw : Z := if regular raw then Z.lor (Z.shiftl (field 108 4 raw) 32) (field 4 4 raw) else field 4 4 raw.

Lemma inode_size_ok raw : 128 <= size raw -> inode_size_of raw = Ok (fsize raw).
Proof.
  intros Hs. unfold inode_size_of, is_reg, has_type, i_mode, fsize, regular. rewrite !get_le_ok by lia. cbn [mbind outcome_bind].
  destruct (_ =? 32768); done.
Qed.

(** [raw'] is [raw] with another size. *)
Record resized raw raw' (v : Z) : Prop := {
  rs_size : size raw' = size raw;
  rs_bytes : bytes_ok raw';
  rs_slot : forall s, 0 <= s < 15 -> slot raw' s = slot raw s;
  rs_reg : regular raw' = regular raw;
  rs_fsize : regular raw = true \/ v < 2 ^ 32 -> fsize raw' = v;
}.

Lemma set_size_ok raw v : 128 <= size raw -> bytes_ok raw -> 0 <= v < 2 ^ 64 -> exists raw', set_size raw v = Ok raw' /\ resized raw raw' v.
Proof.
  intros Hs Hb Hv. unfold set_size.
  assert (0 <= Z.land v (Z.ones 32) < 2 ^ 32) as Hlo by (rewrite Z.land_ones by lia; apply Z.mod_pos_bound; done).
  assert (0 <= wrap 32 (Z.shiftr v 32) < 2 ^ 32) as Hhi by (unfold wrap; apply Z.mod_pos_bound; done).
  rewrite put_le_ok by lia. cbn [mbind outcome_bind].
  destruct (over_field_set 4 4 (Z.land v (Z.ones 32)) raw Hb) as [O1 O2 O3 O4]; [lia|lia|done|].
  set (raw1 := over 4 (to_le 4 (Z.land v (Z.ones 32))) raw) in *. change (Z.of_nat 4) with 4 in *.
  assert (regular raw1 = regular raw) as Hreg by (unfold regular; by rewrite O4 by lia).
  unfold is_reg, has_type, i_mode. rewrite get_le_ok by lia. cbn [mbind outcome_bind].
  change (Z.land (field 0 2 raw1) 61440 =? 32768) with (regular raw1). rewrite Hreg.
  destruct (regular raw) eqn:Hr.
  - rewrite put_le_ok by lia. destruct (over_field_set 108 4 (wrap 32 (Z.shiftr v 32)) raw1 O2) as [Q1 Q2 Q3 Q4]; [lia|lia|done|].
    set (raw2 := over 108 (to_le 4 (wrap 32 (Z.shiftr v 32))) raw1) in *. change (Z.of_nat 4) with 4 in *.
    exists raw2. split; [done|]. split; try done.
    + lia.
    + intros s Hs'. unfold slot. by rewrite Q4, O4 by lia.
    + unfold regular. rewrite Q4 by lia. fold (regular raw1). by rewrite Hreg.
    + intros _. unfold fsize. assert (regular raw2 = true) as -> by (unfold regular; rewrite Q4 by lia; fold (regular raw1); by rewrite Hreg).
      rewrite Q3, Q4 by lia. rewrite O3. unfold wrap. rewrite Z.shiftr_div_pow2, Z.land_ones, Z.shiftl_mul_pow2 by lia.
      rewrite (Z.mod_small (v / 2 ^ 32)) by (split; [apply Z.div_pos; lia|apply Z.div_lt_upper_bound; [lia|]; change (2 ^ 64) with (2 ^ 32 * 2 ^ 32) in *; lia]).
      rewrite <- (Z.shiftl_mul_pow2 (v / 2 ^ 32) 32) by lia. rewrite <- Z.shiftr_div_pow2, <- Z.land_ones by lia.
      apply Z.bits_inj'. intros i Hi. rewrite Z.lor_spec, Z.land_spec. destruct (Z.lt_ge_cases i 32) as [Hlt|Hge].
      * rewrite Z.shiftl_spec_low, Z.ones_spec_low by lia. by rewrite andb_true_r.
      * rewrite Z.shiftl_spec, Z.shiftr_spec, Z.ones_spec_high by lia. rewrite andb_false_r, orb_false_r. f_equal. lia.
  - exists raw1. split; [done|]. split; try done.
    + intros s Hs'. unfold slot. by rewrite O4 by lia.
    + by rewrite Hreg.
    + intros [?|Hsm]; [congruence|]. unfold fsize. rewrite Hreg. rewrite O3, Z.land_ones by lia. apply Z.mod_small. lia.
Qed.

(** Nodes depend on the pointers in the inode and in the blocks of the tree. *)
Lemma node_ext d raw d' raw' : (forall s, 0 <= s < 15 -> slot raw' s = slot raw s) ->
  (forall s j q, key_ok s j q -> (j < depth s)%nat -> node d raw s j q <> 0 -> blk sb d' (node d raw s j q) = blk sb d (node d raw s j q)) ->
  forall s j q, key_ok s j q -> node d' raw' s j q = node d raw s j q.
Proof.
  intros Hsl Hbl s j. induction j as [|j IH]; intros q Hk.
  - cbn [node]. apply Hsl, Hk.
  - destruct (key_parent s j q Hk) as [Hkp _]. cbn [node]. rewrite (IH _ Hkp).
    destruct (Z.eqb_spec (node d raw s j (q / P)) 0); [done|]. unfold ptr. rewrite Hbl; [done|done| |done]. destruct Hk as (_ & Hle & _). lia.
Qed.

(** A file whose blocks are untouched keeps its contents. *)
Lemma file_kept d raw d' raw' : vol_ok sb d -> file_ok d raw -> ptrs_same sb d d' -> size raw' = inode_size sb -> bytes_ok raw' ->
  (forall s, 0 <= s < 15 -> slot raw' s = slot raw s) -> (forall b, mapped sb b -> used sb d b = true -> used sb d' b = true) ->
  (forall s j q, key_ok s j q -> node d raw s j q <> 0 -> blk sb d' (node d raw s j q) = blk sb d (node d raw s j q)) ->
  file_ok d' raw' /\ (forall s j q, key_ok s j q -> node d' raw' s j q = node d raw s j q) /\
    forall p, 0 <= p -> content d' raw' p = content d raw p.
Proof.
  intros Hv Hf Hp Hs Hb Hsl Hu Hbl.
  assert (forall s j q, key_ok s j q -> node d' raw' s j q = node d raw s j q) as Hn
    by (intros; apply node_ext; [done| |done]; intros; by apply Hbl).
  split; [|split; [done|]].
  - destruct Hf as [_ _ F3 F4]. split; try done.
    + intros s j q Hk. rewrite Hn by done. intros Hnz. destruct (F3 s j q Hk Hnz) as (M1 & M2 & M3). split; [done|]. split; [by apply Hu|].
      by rewrite (ptrs_meta sb d d').
    + intros s j q s' j' q' Hk Hk'. rewrite !Hn by done. by apply F4.
  - intros p Hp0. unfold content. pose proof (pos_index p Hp0) as (Hpos & _).
    destruct (find_slot (p / bs)) as [[s q]|] eqn:Hfs; [|done]. pose proof (find_slot_ok _ _ _ Hpos Hfs) as Hk.
      unfold data. rewrite Hn by done. destruct (Z.eqb_spec (node d raw s (depth s) q) 0); [done|]. by rewrite Hbl.
Qed.

(** ** [write_file_range] *)

(** No block belongs to both files. *)
Definition disjoint d raw raw2 : Prop :=
  forall s j q s' j' q', key_ok s j q -> key_ok s' j' q' -> node d raw2 s' j' q' <> 0 -> node d raw s j q <> node d raw2 s' j' q'.

(** The file of inode [ino] has been changed: what other files have is as it was. *)
Record touched d raw d' raw' (ino : Z) : Prop := {
  to_vol : vol_ok sb d';
  to_file : file_ok d' raw';
  to_ptrs : ptrs_same sb d d';
  to_used : forall b, mapped sb b -> used sb d b = true -> used sb d' b = true;
  to_frame : forall b, mapped sb b -> ~ meta sb d b -> used sb d b = true ->
    (forall s j q, key_ok s j q -> node d raw s j q <> b) -> blk sb d' b = blk sb d b;
  to_inodes : forall i, is_ino sb i -> i <> ino -> inode_at sb d' i = inode_at sb d i;
  to_bitmaps : forall g, group sb g -> blk sb d' (ibm sb d g) = blk sb d (ibm sb d g);
}.

(** [k] bytes of [src] have been written at [pos] of the file of inode [ino]. *)
Definition file_written d raw d' raw' (ino pos : Z) (src : bytes) (k : Z) : Prop :=
  touched d raw d' raw' ino /\ forall p, 0 <= p -> content d' raw' p = overlay (content d raw) pos (sub 0 k src) p.

Lemma evolves_inode_at d raw d' raw' i : evolves d raw d' raw' -> is_ino sb i -> inode_at sb d' i = inode_at sb d i.
Proof.
  intros Hev Hi. unfold inode_at, iblk. destruct (igrp_ok sb G i Hi) as (Hg & _).
  rewrite (ptrs_itab sb d d'), (ev_table _ _ _ _ Hev) by (apply Hev || by apply iblk_role). done.
Qed.

Lemma evolves_touched d raw d' raw' ino : evolves d raw d' raw' -> touched d raw d' raw' ino.
Proof. intros Hev. split; try apply Hev. intros i Hi _. by apply (evolves_inode_at d raw d' raw'). Qed.

(** Then the inode is written back. *)
Lemma touched_write_back d raw d1 raw1 d2 raw2 ino : evolves d raw d1 raw1 -> inode_written sb d1 d2 ino raw2 -> file_ok d2 raw2 -> touched d raw d2 raw2 ino.
Proof.
  intros Hev [W1 W2 W3 W4 W5 W6 W7] Hf2. pose proof (ev_ptrs _ _ _ _ Hev) as Hp1. split; try done.
  - by apply (ptrs_trans sb d d1).
  - intros b Hm Hu. rewrite W3 by done. by apply (ev_used _ _ _ _ Hev).
  - intros b Hm Hnm Hu Hno. rewrite W7; [by apply (ev_frame _ _ _ _ Hev)|by apply (mapped_valid sb G)|by rewrite (ptrs_meta sb d d1)].
  - intros i Hii Hne. rewrite W6 by done. by apply (evolves_inode_at d raw d1 raw1).
  - intros g Hg. rewrite <- (ptrs_ibm sb d d1) by done. rewrite W4 by done. rewrite (ptrs_ibm sb d d1) by done. by apply (ev_inodes _ _ _ _ Hev).
Qed.

Lemma evolves_fsize d raw d' raw' : evolves d raw d' raw' -> regular raw' = regular raw /\ fsize raw' = fsize raw.
Proof. intros Hev. unfold fsize, regular. by rewrite !(ev_raw _ _ _ _ Hev) by lia. Qed.

(** Writing the inode back, with whatever size, keeps the contents. *)
Lemma write_back_ok d raw raw' ino : vol_ok sb d -> file_ok d raw -> is_ino sb ino -> size raw' = size raw -> bytes_ok raw' ->
  (forall s, 0 <= s < 15 -> slot raw' s = slot raw s) ->
  exists d', write_inode sb ino raw' d = Ok (d', inl ()) /\ inode_written sb d d' ino raw' /\ file_ok d' raw' /\
    (forall s j q, key_ok s j q -> node d' raw' s j q = node d raw s j q) /\
    forall p, 0 <= p -> content d' raw' p = content d raw p.
Proof.
  intros Hv Hf Hi Hs Hb Hsl. destruct (write_inode_ok sb G d ino raw' Hv Hi) as (d' & He & W); [rewrite Hs; apply Hf|done|].
  exists d'. split; [done|]. split; [done|]. destruct W as [W1 W2 W3 W4 W5 W6 W7].
  apply (file_kept d raw d' raw'); try done.
  - rewrite Hs. apply Hf.
  - intros b Hm. by rewrite W3.
  - intros s j q Hk Hn. destruct (f_data _ _ Hf s j q Hk Hn) as (M1 & _ & M3). apply W7; [by apply (mapped_valid sb G)|done].
Qed.

Lemma write_file_range_ok d raw ino pos src : vol_ok sb d -> file_ok d raw -> is_ino sb ino -> bytes_ok src -> 0 <= pos ->
  0 < size src -> pos + size src <= max_blocks * bs ->
  exists d' raw' r k, write_file_range sb ino pos src (d, raw) = Ok ((d', raw'), r) /\ 0 <= k <= size src /\
    file_written d raw d' raw' ino pos src k /\
    match r with
    | inl n => n = size src /\ k = size src /\ inode_at sb d' ino = raw' /\ regular raw' = regular raw /\
    (regular raw = true \/ pos + size src < 2 ^ 32 -> fsize raw' = Z.max (fsize raw) (pos + size src))
    | inr e => e = NoSpace /\ full d'
    end.
Proof.
  intros Hv Hf Hi Hb Hp Hs Hmax. unfold write_file_range. rewrite (proj2 (Z.eqb_neq _ _)) by lia.
  destruct (write_loop_ok (length src) d raw pos src Hv Hf Hb Hp) as ([d1 raw1] & r & k & He & Hev & Hk & Hc & Hr); [done|done|].
  cbn [fst snd] in *. destruct r as [[]|e].
  2: { rewrite (bind_fail _ _ _ _ _ He). exists d1, raw1, (inr e), k. split; [done|]. split; [done|].
       split; [split; [by apply evolves_touched|done]|done]. }
  rewrite (bind_run _ _ _ _ _ He). subst k. destruct (evolves_fsize d raw d1 raw1 Hev) as [Hreg Hfs].
  assert (0 <= pos + size src < 2 ^ 64) as H64.
  { pose proof P_powers as (HQ1 & HQ2 & _). pose proof P_bounds as [HP _]. pose proof (bs_bounds sb G) as [Hbs _]. fold bs in Hbs.
    assert (max_blocks < 2 ^ 32) by (unfold max_blocks; change (2 ^ 32) with 4294967296; change (2 ^ 20) with 1048576 in *; change (2 ^ 30) with 1073741824 in *; lia).
    change (2 ^ 64) with (2 ^ 32 * 2 ^ 32). change (2 ^ 32) with 4294967296 in *. nia. }
  rewrite (bind_lift _ _ _ (pos + size src)) by (by apply chk_ok).
  rewrite (bind_run _ _ (d1, raw1) (d1, raw1) raw1) by done.
  pose proof (ev_file _ _ _ _ Hev) as Hf1. pose proof (ev_vol _ _ _ _ Hev) as Hv1. destruct (g_isize sb G) as [Hz _].
  assert (128 <= size raw1) as Hs1 by (rewrite (f_size _ _ Hf1); lia).
  rewrite (bind_lift _ _ _ _ (inode_size_ok raw1 Hs1)).
  assert (exists raw2, (if fsize raw1 <? pos + size src then raw0 ← lift (set_size raw1 (pos + size src)); set_inode raw0 else mret ()) (d1, raw1)
      = Ok ((d1, raw2), inl ()) /\ size raw2 = size raw1 /\ bytes_ok raw2 /\ (forall s, 0 <= s < 15 -> slot raw2 s = slot raw1 s) /\
    regular raw2 = regular raw1 /\ (regular raw1 = true \/ pos + size src < 2 ^ 32 -> fsize raw2 = Z.max (fsize raw1) (pos + size src)))
    as (raw2 & Hsz & R1 & R2 & R3 & R4 & R5).
  { destruct (Z.ltb_spec (fsize raw1) (pos + size src)) as [Hlt|Hge].
    - destruct (set_size_ok raw1 (pos + size src) Hs1 (f_bytes _ _ Hf1) H64) as (raw2 & Hset & [S1 S2 S3 S4 S5]).
      rewrite (bind_lift _ _ _ _ Hset). exists raw2. split; [done|]. split_and!; try done. intros Hx. rewrite S5 by done. lia.
    - exists raw1. split; [done|]. split_and!; try done; [apply Hf1|]. intros _. lia. }
  rewrite (bind_run _ _ _ _ _ Hsz). rewrite (bind_run _ _ (d1, raw2) (d1, raw2) raw2) by done.
  destruct (write_back_ok d1 raw1 raw2 ino Hv1 Hf1 Hi R1 R2 R3) as (d2 & Hw & W & Hf2 & _ & Hc2).
  rewrite (bind_run _ _ (d1, raw2) (d2, raw2) ()) by (unfold on_dev; cbn [fst snd]; by rewrite Hw).
  exists d2, raw2, (inl (size src)), (size src). split; [done|]. split; [done|]. split.
  - split; [by apply (touched_write_back d raw d1 raw1)|]. intros p Hpp. by rewrite Hc2, Hc.
  - split; [done|]. split; [done|]. split; [apply W|]. split; [congruence|]. rewrite <- Hreg, <- Hfs. done.
Qed.

(** A file that shares no block with the changed one is unchanged. *)
Lemma touched_other d raw d' raw' ino raw2 : vol_ok sb d -> touched d raw d' raw' ino -> file_ok d raw2 -> disjoint d raw raw2 ->
  file_ok d' raw2 /\ (forall s j q, key_ok s j q -> node d' raw2 s j q = node d raw2 s j q) /\
    forall p, 0 <= p -> content d' raw2 p = content d raw2 p.
Proof.
  intros Hv W Hf Hd. apply (file_kept d raw2 d' raw2); try done; try apply W; try apply Hf.
  intros s j q Hk Hn. destruct (f_data _ _ Hf s j q Hk Hn) as (M1 & M2 & M3). apply (to_frame _ _ _ _ _ W); try done.
  intros s' j' q' Hk'. by apply Hd.
Qed.

End files.
End Ext2Files.
