(* ===== verification/Ext2Walk.v ===== *)
(** The walk over the blocks of an ext2 inode ([visit_inode_blocks]): which
    blocks it visits and in which order, and what it does when the visitor
    frees them. *)

From Stdlib Require Import ZArith Lia.
From stdpp Require Import base numbers gmap list.
From S2P Require Import Prelude Bits Bytes Ext2Format Ext2Volume Ext2Inv Ext2Files.

Local Open Scope Z_scope.

Module Ext2Walk.
Import Bytes Ext2Format Ext2Volume Ext2Inv Ext2Files.

Section walk.
Context {D : Type} `{BlockDevice D}.
Variable sb : Superblock.
Hypothesis G : geom_ok sb.
Implicit Types (d : D) (raw : bytes).

Let P := P sb.

(** ** The blocks of a file *)

(** The blocks at and under the node [(s, j, q)], [n] levels down, each
    before those under it. *)
Fixpoint subtree d raw (n : nat) (s : Z) (j : nat) (q : Z) : list Z :=
  let b := node sb d raw s j q in
  if b =? 0 then [] else
  b :: match n with O => [] | S n' => seqZ 0 P ≫= fun i => subtree d raw n' s (S j) (q * P + i) end.

Definition tree d raw : list Z := seqZ 0 15 ≫= fun s => subtree d raw (depth s) s 0 0.

Lemma key_child s j q i : key_ok sb s j q -> (j < depth s)%nat -> 0 <= i < P -> key_ok sb s (S j) (q * P + i) /\ (q * P + i) / P = q /\ (q * P + i) mod P = i.
Proof.
  intros (Hs & Hj & Hq) Hlt Hi. pose proof (P_bounds sb G) as [HP _]. fold P in HP.
  split; [|split; [rewrite Z.div_add_l by lia; rewrite Z.div_small by lia; lia|rewrite Z.add_comm, Z.mod_add by lia; by apply Z.mod_small]].
  split; [done|]. split; [lia|]. rewrite Nat2Z.inj_succ, Z.pow_succ_r by lia. fold P in Hq |- *. nia.
Qed.

Lemma node_child d raw s j q i : key_ok sb s j q -> (j < depth s)%nat -> 0 <= i < P -> node sb d raw s j q <> 0 ->
  node sb d raw s (S j) (q * P + i) = ptr sb d (node sb d raw s j q) i.
Proof.
  intros Hk Hlt Hi Hn. destruct (key_child s j q i Hk Hlt Hi) as (_ & Hd & Hm). cbn [node]. fold P. rewrite Hd, Hm.
  by rewrite (proj2 (Z.eqb_neq _ _) Hn).
Qed.

(** The blocks under a node are the nodes on paths that extend its path. *)
Lemma subtree_sound d raw n : forall s j q b, key_ok sb s j q -> (j + n = depth s)%nat -> b ∈ subtree d raw n s j q ->
  exists i q', key_ok sb s (j + i) q' /\ q' / P ^ Z.of_nat i = q /\ node sb d raw s (j + i) q' = b /\ b <> 0.
Proof.
  pose proof (P_bounds sb G) as [HP _]. fold P in HP.
  assert (forall s j q b, key_ok sb s j q -> b = node sb d raw s j q -> b <> 0 ->
    exists i q', key_ok sb s (j + i) q' /\ q' / P ^ Z.of_nat i = q /\ node sb d raw s (j + i) q' = b /\ b <> 0) as Hhere.
  { intros s j q b Hk -> Hn. exists 0%nat, q. rewrite Nat.add_0_r. split; [done|]. split; [apply Z.div_1_r|]. done. }
  induction n as [|n IH]; intros s j q b Hk Hd; cbn [subtree];
    (destruct (Z.eqb_spec (node sb d raw s j q) 0) as [|Hn]; [by intros ?%elem_of_nil|]).
  { intros ->%list_elem_of_singleton. by apply (Hhere s j q). }
  intros [->|Hin]%elem_of_cons; [by apply (Hhere s j q)|]. apply list_elem_of_bind in Hin as (i & Hin & Hi%elem_of_seqZ).
  destruct (key_child s j q i Hk ltac:(lia) ltac:(lia)) as (Hkc & Hdiv & _).
  destruct (IH s (S j) _ b Hkc ltac:(lia) Hin) as (m & q' & Hk' & Hq' & Hb & Hb0).
  exists (S m), q'. replace (j + S m)%nat with (S j + m)%nat by lia. split; [done|]. split; [|done].
  rewrite Nat2Z.inj_succ, Z.pow_succ_r by lia. rewrite Z.mul_comm, <- Z.div_div by lia. by rewrite Hq'.
Qed.

Lemma path_bound q i : 0 <= q -> 0 <= q / P ^ Z.of_nat i.
Proof. intros Hq. pose proof (P_bounds sb G) as [HP _]. fold P in HP. apply Z.div_pos; [done|]. apply Z.pow_pos_nonneg; lia. Qed.

(** An ancestor of a node that is there is there. *)
Lemma node_above d raw s j q : node sb d raw s (S j) q <> 0 -> node sb d raw s j (q / P) <> 0.
Proof. cbn [node]. fold P. destruct (Z.eqb_spec (node sb d raw s j (q / P)) 0); [done|]. done. Qed.

Lemma subtree_complete d raw n : forall s j q i q', key_ok sb s (j + i) q' -> (j + n = depth s)%nat -> (i <= n)%nat ->
  q' / P ^ Z.of_nat i = q -> node sb d raw s (j + i) q' <> 0 ->
  node sb d raw s j q <> 0 /\ node sb d raw s (j + i) q' ∈ subtree d raw n s j q.
Proof.
  pose proof (P_bounds sb G) as [HP _]. fold P in HP.
  induction n as [|n IH]; intros s j q i q' Hk Hd Hi Hq Hn.
  { assert (i = 0%nat) as -> by lia. rewrite Nat.add_0_r in *. rewrite Z.div_1_r in Hq. subst q'. split; [done|]. cbn [subtree].
    rewrite (proj2 (Z.eqb_neq _ _) Hn). by apply list_elem_of_singleton. }
  destruct i as [|i].
  { rewrite Nat.add_0_r in *. rewrite Z.div_1_r in Hq. subst q'. split; [done|]. cbn [subtree].
    rewrite (proj2 (Z.eqb_neq _ _) Hn). by left. }
  set (c := q' / P ^ Z.of_nat i). assert (0 <= c) as Hc0 by (apply path_bound; apply Hk).
  assert (c / P = q) as Hcq. { rewrite <- Hq. unfold c. rewrite Nat2Z.inj_succ, Z.pow_succ_r by lia. rewrite (Z.mul_comm P), Z.div_div by lia. done. }
  replace (j + S i)%nat with (S j + i)%nat in * by lia.
  destruct (IH s (S j) c i q' Hk ltac:(lia) ltac:(lia) eq_refl Hn) as [Hnc Hin].
  assert (node sb d raw s j q <> 0) as Hnq by (rewrite <- Hcq; by apply node_above).
  split; [done|]. cbn [subtree]. rewrite (proj2 (Z.eqb_neq _ _) Hnq). right. apply list_elem_of_bind.
  pose proof (Z.div_mod c P ltac:(lia)) as Hdm. pose proof (Z.mod_pos_bound c P ltac:(lia)).
  exists (c mod P). split; [|apply elem_of_seqZ; lia]. replace (q * P + c mod P) with c by lia. done.
Qed.

(** The walk covers exactly the blocks of the file. *)
Lemma elem_of_tree d raw b : b ∈ tree d raw <-> exists s j q, key_ok sb s j q /\ node sb d raw s j q = b /\ b <> 0.
Proof.
  unfold tree. rewrite list_elem_of_bind. split.
  - intros (s & Hin & Hs%elem_of_seqZ). assert (key_ok sb s 0 0) as Hk by (split; [lia|]; split; [lia|cbn; lia]).
    destruct (subtree_sound d raw (depth s) s 0 0 b Hk ltac:(lia) Hin) as (i & q' & Hk' & _ & Hb & Hb0). by exists s, i, q'.
  - intros (s & j & q & Hk & Hb & Hb0). exists s. split; [|apply elem_of_seqZ; destruct Hk; lia]. pose proof Hk as (_ & Hj & Hq).
    rewrite <- Hb in Hb0 |- *. apply (subtree_complete d raw (depth s) s 0 0 j q); [done|lia|lia| |done].
    apply Z.div_small. fold P in Hq. done.
Qed.

(** It visits none twice. *)
Lemma subtree_NoDup d raw n : file_ok sb d raw -> forall s j q, key_ok sb s j q -> (j + n = depth s)%nat -> NoDup (subtree d raw n s j q).
Proof.
  intros Hf. induction n as [|n IH]; intros s j q Hk Hd; cbn [subtree];
    (destruct (Z.eqb_spec (node sb d raw s j q) 0) as [|Hn]; [apply NoDup_nil_2|]); [apply NoDup_singleton|].
  apply NoDup_cons. split.
  - intros (i & Hin & Hi%elem_of_seqZ)%list_elem_of_bind. destruct (key_child s j q i Hk ltac:(lia) ltac:(lia)) as (Hkc & _).
    destruct (subtree_sound d raw n s (S j) _ _ Hkc ltac:(lia) Hin) as (m & q' & Hk' & _ & Hb & _).
    destruct (f_inj _ _ _ Hf s j q s (S j + m) q' Hk Hk' Hn (eq_sym Hb)) as (_ & Hj & _). lia.
  - apply NoDup_bind.
    + intros i i' b Hi%elem_of_seqZ Hi'%elem_of_seqZ Hin Hin'.
      destruct (key_child s j q i Hk ltac:(lia) ltac:(lia)) as (Hkc & _ & Hmi). destruct (key_child s j q i' Hk ltac:(lia) ltac:(lia)) as (Hkc' & _ & Hmi').
      destruct (subtree_sound d raw n s (S j) _ _ Hkc ltac:(lia) Hin) as (m & p & Hp & Hpd & Hb & Hb0).
      destruct (subtree_sound d raw n s (S j) _ _ Hkc' ltac:(lia) Hin') as (m' & p' & Hp' & Hpd' & Hb' & _).
      destruct (f_inj _ _ _ Hf s (S j + m) p s (S j + m') p' Hp Hp') as (_ & Hm & ->); [congruence|congruence|].
      assert (m = m') as -> by lia. rewrite <- Hmi, <- Hmi'. congruence.
    + intros i Hi%elem_of_seqZ. destruct (key_child s j q i Hk ltac:(lia) ltac:(lia)) as (Hkc & _). apply IH; [done|lia].
    + apply NoDup_seqZ.
Qed.

Lemma tree_NoDup d raw : file_ok sb d raw -> NoDup (tree d raw).
Proof.
  intros Hf. assert (forall s, 0 <= s < 15 -> key_ok sb s 0 0) as Hk by (intros s Hs; split; [lia|]; split; [lia|cbn; lia]).
  apply NoDup_bind; [|intros s Hs%elem_of_seqZ; apply subtree_NoDup; [done|apply Hk; lia|done]|apply NoDup_seqZ].
  intros s s' b Hs%elem_of_seqZ Hs'%elem_of_seqZ Hin Hin'.
  destruct (subtree_sound d raw (depth s) s 0 0 b (Hk s ltac:(lia)) ltac:(lia) Hin) as (m & p & Hp & _ & Hb & Hb0).
  destruct (subtree_sound d raw (depth s') s' 0 0 b (Hk s' ltac:(lia)) ltac:(lia) Hin') as (m' & p' & Hp' & _ & Hb' & _).
  destruct (f_inj _ _ _ Hf s (0 + m) p s' (0 + m') p' Hp Hp') as (Hss & _); [congruence|congruence|done].
Qed.

(** ** Running the walk *)

Section run.
Context {X : Type} (visit : Z -> Vol (D * X) unit).
Variables (d : D) (raw : bytes) (K : list Z -> D * X -> Prop).
Hypothesis Hf : file_ok sb d raw.

(** [K l x]: [x] is a state in which the blocks [l] have been visited.  The
    blocks of the file can still be read, and the next one visited. *)
Hypothesis K_read : forall l x b, K l x -> b ∈ tree d raw -> block_vec sb b x.1 = Ok (x.1, inl (blk sb d b)).
Hypothesis K_visit : forall l r b x, tree d raw = l ++ b :: r -> K l x -> exists x', visit b x = Ok (x', inl ()) /\ K (l ++ [b]) x'.

(** [m] visits the blocks [l], wherever they come in the walk. *)
Definition visits (m : Vol (D * X) unit) (l : list Z) : Prop :=
  forall pre post x, tree d raw = pre ++ l ++ post -> K pre x -> exists x', m x = Ok (x', inl ()) /\ K (pre ++ l) x'.

Lemma visits_none : visits (mret ()) [].
Proof. intros pre post x _ HK. exists x. rewrite app_nil_r. done. Qed.

Lemma visits_one b : visits (visit b) [b].
Proof. intros pre post x Ht HK. by apply (K_visit pre post). Qed.

Lemma visits_seq m (f : unit -> Vol (D * X) unit) l l' : visits m l -> visits (f ()) l' -> visits (m ≫= f) (l ++ l').
Proof.
  intros H1 H2 pre post x Ht HK. rewrite <- app_assoc in Ht. destruct (H1 pre (l' ++ post) x Ht HK) as (x1 & E1 & K1).
  rewrite (bind_run _ _ _ _ _ E1). destruct (H2 (pre ++ l) post x1) as (x2 & E2 & K2); [by rewrite <- app_assoc|done|].
  exists x2. by rewrite E2, app_assoc.
Qed.

Lemma visits_lift {A} (o : may_panic A) (f : A -> Vol (D * X) unit) a l : o = Ok a -> visits (f a) l -> visits (lift o ≫= f) l.
Proof. intros Ho Hm pre post x Ht HK. rewrite (bind_lift _ _ _ _ Ho). by apply (Hm pre post). Qed.

Lemma visits_read b (f : bytes -> Vol (D * X) unit) l : b ∈ tree d raw -> visits (f (blk sb d b)) l -> visits (on_dev (block_vec sb b) ≫= f) l.
Proof.
  intros Hb Hm pre post x Ht HK. rewrite (bind_run _ _ x x (blk sb d b)); [by apply (Hm pre post)|].
  unfold on_dev. rewrite (K_read pre x b HK Hb). by destruct x.
Qed.

Lemma visits_if b (m : Vol (D * X) unit) l : (b = 0 -> l = []) -> (b <> 0 -> visits m l) -> visits (if b =? 0 then mret () else m) l.
Proof. intros H0 Hn. destruct (Z.eqb_spec b 0) as [He|He]; [|by apply Hn]. rewrite (H0 He). apply visits_none. Qed.

Lemma visits_ptrs b (f : Z -> Vol (D * X) unit) (sub : Z -> list Z) : size (blk sb d b) = P * 4 ->
  (forall i, 0 <= i < P -> ptr sb d b i = 0 -> sub i = []) ->
  (forall i, 0 <= i < P -> ptr sb d b i <> 0 -> visits (f (ptr sb d b i)) (sub i)) ->
  forall n i, 0 <= i -> i + Z.of_nat n <= P -> visits (for_ptrs n i (blk sb d b) f) (seqZ i (Z.of_nat n) ≫= sub).
Proof.
  intros Hs H0 Hn n. induction n as [|n IH]; intros i Hi Hle; cbn [for_ptrs]; [apply visits_none|].
  rewrite (seqZ_cons i (Z.of_nat (S n))) by lia. cbn [mbind list_bind].
  apply (visits_lift _ _ (ptr sb d b i)); [apply get_le_ok; lia|]. apply visits_seq.
  - apply visits_if; [apply H0; lia|apply Hn; lia].
  - replace (Z.succ i) with (i + 1) by lia. replace (Z.pred (Z.of_nat (S n))) with (Z.of_nat n) by lia. apply IH; lia.
Qed.

(** A pointer block and what is under it. *)
Lemma visits_level (f : Z -> Vol (D * X) unit) n s j q : key_ok sb s j q -> (j + S n = depth s)%nat -> node sb d raw s j q <> 0 ->
  node sb d raw s j q ∈ tree d raw -> size (blk sb d (node sb d raw s j q)) = P * 4 ->
  (forall i, 0 <= i < P -> node sb d raw s (S j) (q * P + i) <> 0 ->
    visits (f (node sb d raw s (S j) (q * P + i))) (subtree d raw n s (S j) (q * P + i))) ->
  visits (_ ← visit (node sb d raw s j q); buf ← on_dev (block_vec sb (node sb d raw s j q)); for_ptrs (Z.to_nat (block_size sb / 4)) 0 buf f)
    (subtree d raw (S n) s j q).
Proof.
  intros Hk Hd Hn Hin Hsz Hsub. pose proof (P_bounds sb G) as [HP _]. fold P in HP. cbn [subtree]. fold P.
  rewrite (proj2 (Z.eqb_neq _ _) Hn). apply (visits_seq _ _ [_]); [apply visits_one|]. apply visits_read; [done|].
  change (block_size sb / 4) with P. replace (seqZ 0 P) with (seqZ 0 (Z.of_nat (Z.to_nat P))) by (f_equal; lia).
  apply visits_ptrs; [done| | |lia|lia]; intros i Hi; rewrite <- (node_child d raw s j q i Hk ltac:(lia) Hi Hn); intros Hc.
  - by destruct n; cbn [subtree]; rewrite Hc.
  - by apply Hsub.
Qed.

Lemma visits_leaf s j q : node sb d raw s j q <> 0 -> visits (visit (node sb d raw s j q)) (subtree d raw 0 s j q).
Proof. intros Hn. cbn [subtree]. rewrite (proj2 (Z.eqb_neq _ _) Hn). apply visits_one. Qed.

Lemma visits_slots n i : 0 <= i -> i + Z.of_nat n <= 12 -> visits (for_slots visit n i raw) (seqZ i (Z.of_nat n) ≫= fun s => subtree d raw (depth s) s 0 0).
Proof.
  revert i. destruct (g_isize sb G) as [Hz _]. pose proof (f_size _ _ _ Hf) as Hs.
  induction n as [|n IH]; intros i Hi Hle; cbn [for_slots]; [apply visits_none|].
  rewrite (seqZ_cons i (Z.of_nat (S n))) by lia. cbn [mbind list_bind].
  apply (visits_lift _ _ (slot raw i)); [apply get_le_ok; lia|]. apply visits_seq.
  - assert (depth i = 0%nat) as -> by (unfold depth; by rewrite (proj2 (Z.ltb_lt _ _)) by lia).
    apply visits_if; intros H0; [cbn [subtree node]; by rewrite H0|]. by apply (visits_leaf i 0 0).
  - replace (Z.succ i) with (i + 1) by lia. replace (Z.pred (Z.of_nat (S n))) with (Z.of_nat n) by lia. apply IH; lia.
Qed.

End run.

(** The walk visits the blocks of the file one after the other, once each. *)
Lemma visit_inode_blocks_ok {X} (visit : Z -> Vol (D * X) unit) d raw (K : list Z -> D * X -> Prop) x :
  vol_ok sb d -> file_ok sb d raw ->
  (forall l x b, K l x -> b ∈ tree d raw -> block_vec sb b x.1 = Ok (x.1, inl (blk sb d b))) ->
  (forall l r b x, tree d raw = l ++ b :: r -> K l x -> exists x', visit b x = Ok (x', inl ()) /\ K (l ++ [b]) x') ->
  K [] x -> exists x', visit_inode_blocks sb visit raw x = Ok (x', inl ()) /\ K (tree d raw) x'.
Proof.
  intros Hv Hf Kr Kv K0. destruct (g_isize sb G) as [Hz _]. pose proof (f_size _ _ _ Hf) as Hs. pose proof (P_bounds sb G) as [HP HP4]. fold P in HP, HP4.
  assert (forall s j q, key_ok sb s j q -> node sb d raw s j q <> 0 ->
    node sb d raw s j q ∈ tree d raw /\ size (blk sb d (node sb d raw s j q)) = P * 4) as Hnode.
  { intros s j q Hk Hn. split; [apply (elem_of_tree d raw); by exists s, j, q|]. rewrite HP4.
    apply (size_blk sb G); [apply Hv|]. apply (mapped_valid sb G), (f_data _ _ _ Hf s j q Hk Hn). }
  assert (forall s, 0 <= s < 15 -> key_ok sb s 0 0) as Hk0 by (intros s Hs'; split; [lia|]; split; [lia|cbn; lia]).
  assert (visits d raw K (visit_inode_blocks sb visit raw) (tree d raw)) as Hall.
  2: { destruct (Hall [] [] x) as (x' & E & K'); [by rewrite app_nil_r|done|]. by exists x'. }
  assert (forall s j q, (S j = depth s)%nat -> key_ok sb s j q -> node sb d raw s j q <> 0 ->
    visits d raw K (_ ← visit (node sb d raw s j q); visit_pointer_block_targets sb visit (node sb d raw s j q)) (subtree d raw 1 s j q)) as Hlast.
  { intros s j q Hd Hk Hn. destruct (Hnode s j q Hk Hn) as [Hin Hsz]. apply visits_level; try done; [lia|].
    intros i Hi Hc. by apply visits_leaf. }
  assert (forall s j q, (S (S j) = depth s)%nat -> key_ok sb s j q -> node sb d raw s j q <> 0 ->
    visits d raw K (_ ← visit (node sb d raw s j q); buf ← on_dev (block_vec sb (node sb d raw s j q));
      for_ptrs (Z.to_nat (block_size sb / 4)) 0 buf (fun b => _ ← visit b; visit_pointer_block_targets sb visit b)) (subtree d raw 2 s j q)) as Hmid.
  { intros s j q Hd Hk Hn. destruct (Hnode s j q Hk Hn) as [Hin Hsz]. apply visits_level; try done; [lia|].
    intros i Hi Hc. apply Hlast; [lia| |done]. apply (key_child s j q i); [done|lia|done]. }
  assert (seqZ 0 15 = seqZ 0 12 ++ [12; 13; 14]) as Hseq by done.
  unfold visit_inode_blocks, tree. rewrite Hseq, bind_app. apply (visits_seq d raw K); [by apply (visits_slots visit d raw K Hf Kv 12 0)|].
  cbn [mbind list_bind]. rewrite app_nil_r.
  apply (visits_lift _ _ _ _ _ (slot raw 12)); [apply get_le_ok; lia|]. apply visits_seq.
  { apply visits_if; intros H0; [cbn [subtree node]; change (depth 12) with 1%nat; cbn [subtree node]; by rewrite H0|].
    by apply (Hlast 12 0%nat 0); [|apply Hk0|]. }
  apply (visits_lift _ _ _ _ _ (slot raw 13)); [apply get_le_ok; lia|]. apply visits_seq.
  { apply visits_if; intros H0; [change (depth 13) with 2%nat; cbn [subtree node]; by rewrite H0|].
    by apply (Hmid 13 0%nat 0); [|apply Hk0|]. }
  apply (visits_lift _ _ _ _ _ (slot raw 14)); [apply get_le_ok; lia|].
  apply visits_if; intros H0; [change (depth 14) with 3%nat; cbn [subtree node]; by rewrite H0|].
  destruct (Hnode 14 0%nat 0 (Hk0 14 ltac:(lia)) H0) as [Hin Hsz].
  apply (visits_level visit d raw K Kr Kv _ 2 14 0 0); try done; [by apply Hk0|].
  intros i Hi Hc. apply Hmid; [done| |done]. apply (key_child 14 0 0 i); [by apply Hk0|unfold depth; cbn; lia|done].
Qed.

End walk.
End Ext2Walk.
