(* ===== verification/Ext2Dir.v ===== *)
(** Directories and symbolic links of the [ext2] crate ([dir.rs]).

    A directory is a file of blocks; a block is a chain of records, each
    giving its own length.  The [while] loops of the source advance by at
    least 8 bytes a round, so the length of the block bounds the rounds.
    Names and targets are byte strings; [String::from_utf8_lossy] is
    [lossy]. *)

From Stdlib Require Import ZArith Lia.
From stdpp Require Import base numbers gmap list.
From S2P Require Import Prelude Bits Bytes Ext2Format Ext2Volume.

Local Open Scope Z_scope.

Module Ext2Dir.
Import Bytes Ext2Format Ext2Volume.

(** ** [String::from_utf8_lossy] *)

Definition between (a x b : Z) : bool := (a <=? x) && (x <=? b).
Definition REPLACEMENT : bytes := [239; 191; 189].

(** Bytes after the first of a sequence, and the bounds of the second byte;
    [None] for a byte that starts no sequence. *)
Definition utf8_lead (b : Z) : option (nat * Z * Z) :=
  if between 194 b 223 then Some (1%nat, 128, 191)
  else if b =? 224 then Some (2%nat, 160, 191)
  else if between 225 b 236 || between 238 b 239 then Some (2%nat, 128, 191)
  else if b =? 237 then Some (2%nat, 128, 159)
  else if b =? 240 then Some (3%nat, 144, 191)
  else if between 241 b 243 then Some (3%nat, 128, 191)
  else if b =? 244 then Some (3%nat, 128, 143)
  else None.

(** [k] more continuation bytes of a sequence, the first within bounds: what
    is left after them, or after the longest valid prefix. *)
Fixpoint utf8_rest (k : nat) (lo hi : Z) (seen l : bytes) : bytes * bytes :=
  match k with
  | O => (seen, l)
  | S k' =>
      match l with
      | b :: r => if between lo b hi then utf8_rest k' 128 191 (seen ++ [b]) r else (REPLACEMENT, l)
      | [] => (REPLACEMENT, [])
      end
  end.

Fixpoint lossy_from (n : nat) (l : bytes) : bytes :=
  match n, l with
  | S n', b :: r =>
      if b <? 128 then b :: lossy_from n' r else
      match utf8_lead b with
      | None => REPLACEMENT ++ lossy_from n' r
      | Some (k, lo, hi) => let '(out, rest) := utf8_rest k lo hi [b] r in out ++ lossy_from n' rest
      end
  | _, _ => []
  end.

Definition lossy (l : bytes) : bytes := lossy_from (length l) l.

(** ** Directory entries *)

Record DirEntry := mkEntry { e_ino : Z; e_file_type : Z; e_name : bytes }.

#[global] Instance DirEntry_eq_dec : EqDecision DirEntry.
Proof. solve_decision. Defined.

Definition DOT : bytes := [46].
Definition DOTDOT : bytes := [46; 46].

(** A step that may return an error. *)
Definition of_outcome {S A} (o : outcome Ext2Error A) : Vol S A := fun s =>
  match o with Ok a => Ok (s, inl a) | Err e => Ok (s, inr e) | Panic => Panic end.

(** The entry at [off], unless it is deleted, nameless, "." or "..". *)
Definition listed (e : option ParsedDirent) : list DirEntry :=
  match e with
  | Some p =>
      if (d_ino p =? 0) || (size (d_name p) =? 0) then [] else
      let name := lossy (d_name p) in
      if bool_decide (name = DOT) || bool_decide (name = DOTDOT) then [] else [mkEntry (d_ino p) (d_file_type p) name]
  | None => []
  end.

(** The loop of [read_dir_entries] over one block. *)
Fixpoint list_scan (n : nat) (buf : bytes) (off : Z) (entries : list DirEntry) : may_panic (list DirEntry) :=
  match n with
  | O => Ok entries
  | S n' =>
      if size buf <? off + 8 then Ok entries else
      rec_len ← get_le (off + 4) 2 buf;
      if rec_len <? 8 then Ok entries else
      e ← parse_dirent buf off;
      list_scan n' buf (off + rec_len) (entries ++ listed e)
  end.

(** The loop of [add_dir_entry] over one block: the block with the entry in
    it, if there is room. *)
Fixpoint add_scan (n : nat) (needed : Z) (name : bytes) (ino file_type : Z) (buf : bytes) (off : Z) : outcome Ext2Error (option bytes) :=
  match n with
  | O => Ok None
  | S n' =>
      if size buf <? off + 8 then Ok None else
      entry_ino ← get_le off 4 buf;
      rec_len ← get_le (off + 4) 2 buf;
      if rec_len <? 8 then Err Io else
      name_len ← byte buf (off + 6);
      let used_len := if entry_ino =? 0 then 0 else dirent_len name_len in
      slack ← chk 64 (rec_len - used_len);
      if slack <? needed then add_scan n' needed name ino file_type buf (off + rec_len) else
      if negb (entry_ino =? 0) then
        buf1 ← put_le (off + 4) 2 (wrap 16 used_len) buf;
        tail ← get (off + used_len) slack buf1;
        tail1 ← write_dirent tail ino (wrap 16 slack) name file_type;
        buf2 ← put (off + used_len) tail1 buf1;
        Ok (Some buf2)
      else
        slot ← get off rec_len buf;
        slot1 ← write_dirent slot ino (wrap 16 rec_len) name file_type;
        buf1 ← put off slot1 buf;
        Ok (Some buf1)
  end.

(** The loop of [remove_dir_entry] over one block: the block without the
    entry, and the entry's inode and type. *)
Fixpoint remove_scan (n : nat) (name : bytes) (buf : bytes) (off : Z) (prev_off : option Z) : may_panic (option (bytes * (Z * Z))) :=
  match n with
  | O => Ok None
  | S n' =>
      if size buf <? off + 8 then Ok None else
      entry_ino ← get_le off 4 buf;
      rec_len ← get_le (off + 4) 2 buf;
      if rec_len <? 8 then Ok None else
      name_len ← byte buf (off + 6);
      file_type ← byte buf (off + 7);
      found ← (if negb (entry_ino =? 0) && (name_len =? size name) && (off + 8 + name_len <=? size buf)
               then stored ← get (off + 8) name_len buf; Ok (bool_decide (stored = name)) else Ok false);
      if found : bool then
        buf1 ← match prev_off with
               | Some p => p_rec_len ← get_le (p + 4) 2 buf; put_le (p + 4) 2 (wrap 16 (p_rec_len + rec_len)) buf
               | None => put_le off 4 0 buf
               end;
        Ok (Some (buf1, (entry_ino, file_type)))
      else remove_scan n' name buf (off + rec_len) (Some off)
  end.

(** The loop of [set_dotdot]. *)
Fixpoint dotdot_scan (n : nat) (new_parent_ino : Z) (buf : bytes) (off : Z) : may_panic (option bytes) :=
  match n with
  | O => Ok None
  | S n' =>
      if size buf <? off + 8 then Ok None else
      rec_len ← get_le (off + 4) 2 buf;
      if rec_len <? 8 then Ok None else
      name_len ← byte buf (off + 6);
      found ← (if (name_len =? 2) && (off + 8 + 2 <=? size buf) then stored ← get (off + 8) 2 buf; Ok (bool_decide (stored = DOTDOT)) else Ok false);
      if found : bool then buf1 ← put_le off 4 new_parent_ino buf; Ok (Some buf1)
      else dotdot_scan n' new_parent_ino buf (off + rec_len)
  end.

Section dir.
Context {D : Type} `{BlockDevice D}.
Variable sb : Superblock.

(** [(size + bs - 1) / bs]. *)
Definition dir_blocks (raw : RawInode) : may_panic Z :=
  n ← inode_size_of raw;
  sum ← chk 64 (n + block_size sb);
  top ← chk 64 (sum - 1);
  if block_size sb =? 0 then Panic else Ok (top / block_size sb).

(** [for block_index in block_index..block_index + n]; holes are skipped. *)
Fixpoint list_blocks (n : nat) (raw : RawInode) (block_index : Z) (entries : list DirEntry) : Vol D (list DirEntry) :=
  match n with
  | O => mret entries
  | S n' =>
      found ← block_for_index sb raw block_index;
      match found with
      | None => list_blocks n' raw (block_index + 1) entries
      | Some block_num =>
          buf ← block_vec sb block_num;
          entries1 ← lift (list_scan (length buf) buf 0 entries);
          list_blocks n' raw (block_index + 1) entries1
      end
  end.

Definition read_dir_entries (raw : RawInode) : Vol D (list DirEntry) :=
  num_blocks ← lift (dir_blocks raw);
  list_blocks (Z.to_nat (wrap 32 num_blocks)) raw 0 [].

(** Whether the entry found room in an existing block. *)
Fixpoint add_blocks (n : nat) (needed : Z) (name : bytes) (ino file_type : Z) (dir_raw : RawInode) (block_index : Z) : Vol D bool :=
  match n with
  | O => mret false
  | S n' =>
      found ← block_for_index sb dir_raw block_index;
      match found with
      | None => add_blocks n' needed name ino file_type dir_raw (block_index + 1)
      | Some block_num =>
          buf ← block_vec sb block_num;
          r ← of_outcome (add_scan (length buf) needed name ino file_type buf 0);
          match r with
          | Some buf1 => _ ← write_block sb block_num buf1; mret true
          | None => add_blocks n' needed name ino file_type dir_raw (block_index + 1)
          end
      end
  end.

Definition add_dir_entry (dir_ino : Z) (name : bytes) (ino file_type : Z) : Vol (D * RawInode) unit :=
  dir_raw ← inode;
  let needed := dirent_len (size name) in
  num_blocks ← lift (dir_blocks dir_raw);
  placed ← on_dev (add_blocks (Z.to_nat (wrap 32 num_blocks)) needed name ino file_type dir_raw 0);
  if placed : bool then mret () else
  let new_block_index := wrap 32 num_blocks in
  new_block ← block_for_index_alloc sb new_block_index;
  buf ← lift (write_dirent (replicate (Z.to_nat (block_size sb)) 0) ino (wrap 16 (block_size sb)) name file_type);
  _ ← on_dev (write_block sb new_block buf);
  raw1 ← inode;
  raw2 ← lift (set_size raw1 ((new_block_index + 1) * block_size sb));
  _ ← set_inode raw2;
  on_dev (write_inode sb dir_ino raw2).

Fixpoint remove_blocks (n : nat) (name : bytes) (dir_raw : RawInode) (block_index : Z) : Vol D (Z * Z) :=
  match n with
  | O => fail NotFound
  | S n' =>
      found ← block_for_index sb dir_raw block_index;
      match found with
      | None => remove_blocks n' name dir_raw (block_index + 1)
      | Some block_num =>
          buf ← block_vec sb block_num;
          r ← lift (remove_scan (length buf) name buf 0 None);
          match r with
          | Some (buf1, e) => _ ← write_block sb block_num buf1; mret e
          | None => remove_blocks n' name dir_raw (block_index + 1)
          end
      end
  end.

Definition remove_dir_entry (dir_raw : RawInode) (name : bytes) : Vol D (Z * Z) :=
  num_blocks ← lift (dir_blocks dir_raw);
  remove_blocks (Z.to_nat (wrap 32 num_blocks)) name dir_raw 0.

Definition set_dotdot (dir_raw : RawInode) (new_parent_ino : Z) : Vol D unit :=
  found ← block_for_index sb dir_raw 0;
  match found with
  | None => fail Io
  | Some block_num =>
      buf ← block_vec sb block_num;
      r ← lift (dotdot_scan (length buf) new_parent_ino buf 0);
      match r with
      | Some buf1 => write_block sb block_num buf1
      | None => fail Io
      end
  end.

(** ** Symbolic links *)

Definition read_symlink_target (raw : RawInode) : Vol D bytes :=
  n ← lift (inode_size_of raw);
  fast ← lift (is_fast_symlink raw);
  if fast : bool then t ← lift (get 40 n raw); mret (lossy t) else
  buf ← read_file_range sb raw 0 n;
  mret (lossy buf).

Definition write_symlink_target (ino : Z) (target : bytes) : Vol (D * RawInode) unit :=
  raw ← inode;
  if size target <? 60 then
    raw1 ← lift (put 40 target raw);
    _ ← set_inode raw1;
    raw2 ← lift (set_size raw1 (size target));
    _ ← set_inode raw2;
    on_dev (write_inode sb ino raw2)
  else
    _ ← on_dev (write_inode sb ino raw);
    _ ← write_file_range sb ino 0 target;
    mret ().

End dir.
End Ext2Dir.
