(* ===== verification/Ext2Repair.v ===== *)
(** Mount-time repair of the [ext2] crate ([repair.rs]): the free counts are
    recomputed from the bitmaps, and what is marked used but not reachable
    from the root directory is given back.

    [mark_reachable] recurses at most [depth_left] deep; the marks
    ([used_inodes], [used_blocks]) are the state beside the device. *)

From Stdlib Require Import ZArith Lia.
From stdpp Require Import base numbers gmap list.
From S2P Require Import Prelude Bits Bytes Ext2Format Ext2Volume Ext2Dir.

Local Open Scope Z_scope.

Module Ext2Repair.
Import Bytes Ext2Format Ext2Volume Ext2Dir.

(** ** Bitmaps of the whole file system *)

(** Out of range is ignored. *)
Definition mark_bit (bitmap : bytes) (n : Z) : bytes :=
  if n / 8 <? size bitmap then Bits.set bitmap n else bitmap.

Definition bit_set (bitmap : bytes) (n : Z) : bool :=
  match bitmap !! Z.to_nat (n / 8) with
  | Some b => negb (Z.land b (Bits.mask n) =? 0)
  | None => false
  end.

Definition mark_bit_1based (bitmap : bytes) (ino : Z) : bytes :=
  if 1 <=? ino then mark_bit bitmap (ino - 1) else bitmap.

Definition bit_set_1based (bitmap : bytes) (ino : Z) : bool := (1 <=? ino) && bit_set bitmap (ino - 1).

(** [for b in first..first + n { mark_bit(..) }]. *)
Definition mark_range (bitmap : bytes) (first n : Z) : bytes := foldl mark_bit bitmap (seqZ first n).
Definition mark_range_1based (bitmap : bytes) (first n : Z) : bytes := foldl mark_bit_1based bitmap (seqZ first n).

(** [as i32], and an [i32] result. *)
Definition as_i32 (z : Z) : Z := if z <? 2 ^ 31 then z else z - 2 ^ 32.
Definition chk_i32 (z : Z) : may_panic Z := if (- 2 ^ 31 <=? z) && (z <? 2 ^ 31) then Ok z else Panic.

(** [a / b], and [(a + b - 1) / b]. *)
Definition div_chk (a b : Z) : may_panic Z := if b =? 0 then Panic else Ok (a / b).
Definition ceil_div (a b : Z) : may_panic Z := s ← chk 32 (a + b); t ← chk 32 (s - 1); div_chk t b.

Section repair.
Context {D : Type} `{BlockDevice D}.
Variable sb : Superblock.

(** ** Free counts *)

Record ReconcileReport := mkReport { bgd_drift : bool; sb_drift : bool; total_free_blocks : Z; total_free_inodes : Z }.

(** The groups from [group] on, [n] of them; the totals so far. *)
Fixpoint reconcile_from (n : nat) (group tb ti : Z) (drift : bool) : Vol D (Z * Z * bool) :=
  match n with
  | O => mret (tb, ti, drift)
  | S n' =>
      bgd ← read_bgd sb group;
      bmap ← block_vec sb (block_bitmap bgd);
      nb ← lift (blocks_in_group sb group);
      real_free_blocks ← lift (count_free_bits bmap nb);
      imap ← block_vec sb (inode_bitmap bgd);
      ni ← lift (inodes_in_group sb group);
      real_free_inodes ← lift (count_free_bits imap ni);
      let differs := negb (real_free_blocks =? free_blocks bgd) || negb (real_free_inodes =? free_inodes bgd) in
      _ ← (if differs then
             adjust_bgd_counts sb group (real_free_blocks - free_blocks bgd) (real_free_inodes - free_inodes bgd) 0
           else mret ());
      tb ← lift (chk 32 (tb + real_free_blocks));
      ti ← lift (chk 32 (ti + real_free_inodes));
      reconcile_from n' (group + 1) tb ti (drift || differs)
  end.

Definition reconcile_free_counts : Vol D ReconcileReport :=
  raw ← dev_read 2 2 (replicate 1024 0);
  sb_free_blocks ← lift (get_le 12 4 raw);
  sb_free_inodes ← lift (get_le 16 4 raw);
  t ← reconcile_from (Z.to_nat (num_groups sb)) 0 0 0 false;
  let '(tb, ti, drift) := t in
  let differs := negb (tb =? sb_free_blocks) || negb (ti =? sb_free_inodes) in
  _ ← (if differs then
         db ← lift (chk_i32 (as_i32 tb - as_i32 sb_free_blocks));
         di ← lift (chk_i32 (as_i32 ti - as_i32 sb_free_inodes));
         adjust_sb_counts db di
       else mret ());
  mret (mkReport drift differs tb ti).

(** ** Marking what is reachable *)

(** [used_inodes] and [used_blocks]. *)
Definition Marks : Type := bytes * bytes.

Definition marks : Vol (D * Marks) Marks := fun s => Ok (s, inl s.2).
Definition set_marks (m : Marks) : Vol (D * Marks) unit := fun s => Ok ((s.1, m), inl ()).

Definition visit_mark (b : Z) : Vol (D * Marks) unit :=
  m ← marks; set_marks (m.1, mark_bit m.2 b).

Fixpoint for_entries (f : Z -> Vol (D * Marks) unit) (es : list DirEntry) : Vol (D * Marks) unit :=
  match es with
  | [] => mret ()
  | e :: es' => _ ← f (e_ino e); for_entries f es'
  end.

Fixpoint mark_reachable (depth_left : nat) (ino : Z) : Vol (D * Marks) unit :=
  m ← marks;
  if bit_set_1based m.1 ino then mret () else
  match depth_left with
  | O => fail TooDeep
  | S depth_left' =>
      _ ← set_marks (mark_bit_1based m.1 ino, m.2);
      raw ← on_dev (read_inode sb ino);
      ptrs ← lift (has_block_pointers raw);
      _ ← (if ptrs : bool then visit_inode_blocks sb visit_mark raw else mret ());
      dir ← lift (is_dir raw);
      if dir : bool then
        es ← on_dev (read_dir_entries sb raw);
        for_entries (mark_reachable depth_left') es
      else mret ()
  end.

(** ** Metadata *)

(** What the groups from [group] on own, [n] of them. *)
Fixpoint mark_groups (bgdt_blocks inodes_per_block : Z) (n : nat) (group : Z) (used_blocks : bytes) : Vol D bytes :=
  match n with
  | O => mret used_blocks
  | S n' =>
      bgd ← read_bgd sb group;
      let used_blocks := mark_bit (mark_bit used_blocks (block_bitmap bgd)) (inode_bitmap bgd) in
      inode_table_blocks ← lift (ceil_div (inodes_per_group sb) inodes_per_block);
      _ ← lift (chk 32 (inode_table bgd + inode_table_blocks));
      let used_blocks := mark_range used_blocks (inode_table bgd) inode_table_blocks in
      p ← lift (chk 32 (group * blocks_per_group sb));
      group_start ← lift (chk 32 (first_data_block sb + p));
      e ← lift (chk 32 (group_start + 1));
      _ ← lift (chk 32 (e + bgdt_blocks));
      mark_groups bgdt_blocks inodes_per_block n' (group + 1) (mark_range used_blocks group_start (1 + bgdt_blocks))
  end.

Definition mark_metadata (used_blocks : bytes) : Vol D bytes :=
  let used_blocks := mark_range used_blocks 0 (first_data_block sb + 1) in
  bgd_per_block ← lift (div_chk (block_size sb) 32);
  bgdt_blocks ← lift (ceil_div (num_groups sb) bgd_per_block);
  _ ← lift (chk 32 (bgdt_block sb + bgdt_blocks));
  let used_blocks := mark_range used_blocks (bgdt_block sb) bgdt_blocks in
  inodes_per_block ← lift (div_chk (block_size sb) (inode_size sb));
  mark_groups bgdt_blocks inodes_per_block (Z.to_nat (num_groups sb)) 0 used_blocks.

(** ** The sweep *)

(** The bits of one bitmap from [bit] on, [n] of them: those not to keep are
    cleared.  The bitmap, whether it changed, and how many were cleared. *)
Fixpoint sweep_bits (keep : Z -> may_panic bool) (n : nat) (bit : Z) (bmap : bytes) (changed : bool) (freed : Z)
  : may_panic (bytes * bool * Z) :=
  match n with
  | O => Ok (bmap, changed, freed)
  | S n' =>
      b ← byte bmap (bit / 8);
      if Z.land b (Bits.mask bit) =? 0 then sweep_bits keep n' (bit + 1) bmap changed freed else
      k ← keep bit;
      if k : bool then sweep_bits keep n' (bit + 1) bmap changed freed else
      freed ← chk 32 (freed + 1);
      sweep_bits keep n' (bit + 1) (Bits.clear bmap bit) true freed
  end.

Definition keep_block (used_blocks : bytes) (group bit : Z) : may_panic bool :=
  p ← chk 32 (group * blocks_per_group sb);
  q ← chk 32 (first_data_block sb + p);
  block_num ← chk 32 (q + bit);
  Ok (bit_set used_blocks block_num).

Definition keep_inode (used_inodes : bytes) (group bit : Z) : may_panic bool :=
  p ← chk 32 (group * inodes_per_group sb);
  q ← chk 32 (p + bit);
  ino ← chk 32 (q + 1);
  Ok (bit_set_1based used_inodes ino).

Fixpoint sweep_groups (n : nat) (group : Z) (m : Marks) (freed_blocks freed_inodes : Z) : Vol D (Z * Z) :=
  match n with
  | O => mret (freed_blocks, freed_inodes)
  | S n' =>
      bgd ← read_bgd sb group;
      bmap ← block_vec sb (block_bitmap bgd);
      nb ← lift (blocks_in_group sb group);
      r ← lift (sweep_bits (keep_block m.2 group) (Z.to_nat nb) 0 bmap false freed_blocks);
      _ ← (if r.1.2 : bool then write_block sb (block_bitmap bgd) r.1.1 else mret ());
      imap ← block_vec sb (inode_bitmap bgd);
      ni ← lift (inodes_in_group sb group);
      q ← lift (sweep_bits (keep_inode m.1 group) (Z.to_nat ni) 0 imap false freed_inodes);
      _ ← (if q.1.2 : bool then write_block sb (inode_bitmap bgd) q.1.1 else mret ());
      sweep_groups n' (group + 1) m r.2 q.2
  end.

Definition MAX_DEPTH : nat := 64.

Definition reclaim_orphans : Vol D (Z * Z) :=
  let used_blocks := replicate (Z.to_nat ((blocks_count sb + 7) / 8)) 0 in
  let used_inodes := replicate (Z.to_nat ((inodes_count sb + 7) / 8)) 0 in
  used_blocks ← mark_metadata used_blocks;
  m ← (fun d => match mark_reachable MAX_DEPTH ROOT_INO (d, (used_inodes, used_blocks)) with
                | Ok ((d', m), inl _) => Ok (d', inl m)
                | Ok ((d', _), inr e) => Ok (d', inr e)
                | Err e => match e with end
                | Panic => Panic
                end);
  let used_inodes := mark_range_1based m.1 1 (first_ino sb - 1) in
  freed ← sweep_groups (Z.to_nat (num_groups sb)) 0 (used_inodes, m.2) 0 0;
  _ ← (if (0 <? freed.1) || (0 <? freed.2) then _ ← reconcile_free_counts; mret () else mret ());
  mret freed.

(** ** Inspection *)

Definition inode_used (ino : Z) : Vol D bool :=
  i ← lift (chk 32 (ino - 1));
  group ← lift (div_chk i (inodes_per_group sb));
  bgd ← read_bgd sb group;
  bmap ← block_vec sb (inode_bitmap bgd);
  mret (bit_set bmap (i mod inodes_per_group sb)).

Definition block_used (block : Z) : Vol D bool :=
  i ← lift (chk 32 (block - first_data_block sb));
  group ← lift (div_chk i (blocks_per_group sb));
  bgd ← read_bgd sb group;
  bmap ← block_vec sb (block_bitmap bgd);
  mret (bit_set bmap (i mod blocks_per_group sb)).

Definition inode_mode (ino : Z) : Vol D Z := raw ← read_inode sb ino; lift (i_mode raw).

Definition sb_free_counts : Vol D (Z * Z) :=
  raw ← dev_read 2 2 (replicate 1024 0);
  b ← lift (get_le 12 4 raw);
  i ← lift (get_le 16 4 raw);
  mret (b, i).

Definition bgd_free_counts (group : Z) : Vol D (Z * Z) :=
  bgd ← read_bgd sb group; mret (free_blocks bgd, free_inodes bgd).

Definition true_free_counts_group0 : Vol D (Z * Z) :=
  bgd ← read_bgd sb 0;
  bmap ← block_vec sb (block_bitmap bgd);
  nb ← lift (blocks_in_group sb 0);
  real_free_blocks ← lift (count_free_bits bmap nb);
  imap ← block_vec sb (inode_bitmap bgd);
  ni ← lift (inodes_in_group sb 0);
  real_free_inodes ← lift (count_free_bits imap ni);
  mret (real_free_blocks, real_free_inodes).

End repair.

(** [mount_and_repair] of the kernel: any error refuses the mount. *)
Definition mount_and_repair {D} `{BlockDevice D} : Vol D Superblock :=
  sb ← mount;
  _ ← reconcile_free_counts sb;
  _ ← reclaim_orphans sb;
  mret sb.

End Ext2Repair.
