(* ===== verification/FdTable.v ===== *)
(** The per-process table of open files ([FileDescriptorTable] of
    [kernel/src/process/file.rs]): sixteen slots of [Box<dyn FileHandle>].

    A handle that leaves the table is closed and dropped, which may act on the
    state (a pipe end wakes its peer), so every operation passes the state. *)

From Stdlib Require Import ZArith Lia.
From stdpp Require Import base numbers gmap list.
From S2P Require Import Prelude Bits Bytes FsTypes Path Vfs.

Local Open Scope Z_scope.

Module FdTable.
Import Bytes FsTypes Path Vfs.

Definition MAX_FILES : nat := 16.

Section table.
Context {S H : Type} `{FileHandles S H}.
(** [drivers::open_device]. *)
Variable open_device : bytes -> S -> may_panic (S * option H).

Abbreviation Table := (list (option H)).

Definition new : Table := replicate MAX_FILES None.

(** [fd >= MAX_FILES] is [BadFileDescriptor], and so is a free slot. *)
Definition get (t : Table) (fd : Z) : H + FileError :=
  if (fd <? 0) || (Z.of_nat MAX_FILES <=? fd) then inr BadFileDescriptor
  else match t !! Z.to_nat fd with Some (Some h) => inl h | _ => inr BadFileDescriptor end.

(** The first free slot from [min] on. *)
Fixpoint free_slot (min : nat) (t : Table) : option nat :=
  match t with
  | [] => None
  | o :: t' =>
      match min, o with
      | O, None => Some O
      | O, Some _ => Datatypes.S <$> free_slot O t'
      | Datatypes.S m, _ => Datatypes.S <$> free_slot m t'
      end
  end.

Definition allocate (t : Table) (h : H) (s : S) : may_panic (S * Table * (Z + FileError)) :=
  match free_slot 0 t with
  | Some i => Ok (s, <[i := Some h]> t, inl (Z.of_nat i))
  | None => s ← h_drop h s; Ok (s, t, inr InvalidArgument)
  end.

Definition dup (t : Table) (fd min_fd : Z) (s : S) : may_panic (S * Table * (Z + FileError)) :=
  match get t fd with
  | inr e => Ok (s, t, inr e)
  | inl h =>
      r ← h_dup h s;
      match r.2 with
      | None => Ok (r.1, t, inr NotSupported)
      | Some cloned =>
          match (if Z.of_nat MAX_FILES <=? min_fd then None else free_slot (Z.to_nat min_fd) t) with
          | Some i => Ok (r.1, <[i := Some cloned]> t, inl (Z.of_nat i))
          | None => s ← h_drop cloned r.1; Ok (s, t, inr InvalidArgument)
          end
      end
  end.

(** [if let Some(mut old) = self.files[fd].take() { let _ = old.close(); }]:
    the handle is closed, then dropped; the result of [close]. *)
Definition release (t : Table) (fd : nat) (s : S) : may_panic (S * Table * (unit + FileError)) :=
  match t !! fd with
  | Some (Some old) =>
      r ← h_close old s;
      s ← h_drop r.1.2 r.1.1;
      Ok (s, <[fd := None]> t, r.2)
  | _ => Ok (s, t, inl ())
  end.

Definition dup2 (t : Table) (oldfd newfd : Z) (s : S) : may_panic (S * Table * (Z + FileError)) :=
  if (newfd <? 0) || (Z.of_nat MAX_FILES <=? newfd) then Ok (s, t, inr BadFileDescriptor) else
  if oldfd =? newfd then
    match get t oldfd with inl _ => Ok (s, t, inl newfd) | inr e => Ok (s, t, inr e) end
  else
    match get t oldfd with
    | inr e => Ok (s, t, inr e)
    | inl h =>
        r ← h_dup h s;
        match r.2 with
        | None => Ok (r.1, t, inr NotSupported)
        | Some cloned =>
            q ← release t (Z.to_nat newfd) r.1;
            Ok (q.1.1, <[Z.to_nat newfd := Some cloned]> q.1.2, inl newfd)
        end
    end.

Definition close (t : Table) (fd : Z) (s : S) : may_panic (S * Table * (unit + FileError)) :=
  if (fd <? 0) || (Z.of_nat MAX_FILES <=? fd) then Ok (s, t, inr BadFileDescriptor) else release t (Z.to_nat fd) s.

(** ["/dev/console"], ["/dev/fb"]. *)
Definition DEV_CONSOLE : bytes := [47; 100; 101; 118; 47; 99; 111; 110; 115; 111; 108; 101].
Definition DEV_FB : bytes := [47; 100; 101; 118; 47; 102; 98].

(** [Clone]: the table of a forked child.  Slots 0 to 2 fall back to a fresh
    device when the handle cannot be duplicated. *)
Definition fallback (i : nat) : option bytes := match i with O => Some DEV_CONSOLE | 1%nat | 2%nat => Some DEV_FB | _ => None end.

Fixpoint clone_from (i : nat) (t : Table) (s : S) : may_panic (S * Table) :=
  match t with
  | [] => Ok (s, [])
  | None :: t' => r ← clone_from (Datatypes.S i) t' s; Ok (r.1, None :: r.2)
  | Some h :: t' =>
      r ← h_dup h s;
      q ← match r.2, fallback i with
          | Some h', _ => Ok (r.1, Some h')
          | None, Some dev => open_device dev r.1
          | None, None => Ok (r.1, None)
          end;
      r ← clone_from (Datatypes.S i) t' q.1;
      Ok (r.1, q.2 :: r.2)
  end.
Definition clone (t : Table) (s : S) : may_panic (S * Table) := clone_from 0 t s.

(** ** The table *)

Definition table_wf (t : Table) : Prop := length t = MAX_FILES.

Lemma new_wf : table_wf new.
Proof. done. Qed.

(** The slot found is free, not below [min], and the first such. *)
Lemma free_slot_Some min t i : free_slot min t = Some i ->
  t !! i = Some None /\ (min <= i)%nat /\ forall j, (min <= j < i)%nat -> exists h, t !! j = Some (Some h).
Proof.
  revert min i. induction t as [|o t IH]; intros min i; cbn; [done|].
  destruct min as [|m].
  - destruct o as [h|].
    + intros (k & Hk & ->)%fmap_Some. destruct (IH _ _ Hk) as (H1 & H2 & H3). split_and!; [done|lia|].
      intros [|j] Hj; [by exists h|]. apply H3. lia.
    + intros [= <-]. split_and!; [done|lia|]. intros; lia.
  - intros (k & Hk & ->)%fmap_Some. destruct (IH _ _ Hk) as (H1 & H2 & H3). split_and!; [done|lia|].
    intros [|j] Hj; [lia|]. apply H3. lia.
Qed.

Lemma free_slot_None min t : free_slot min t = None -> forall j, (min <= j < length t)%nat -> exists h, t !! j = Some (Some h).
Proof.
  revert min. induction t as [|o t IH]; intros min; cbn; [intros _ j Hj; lia|].
  destruct min as [|m]; [destruct o as [h|]; [|done]|]; intros Hn%fmap_None [|j] Hj; cbn; try lia; try (by eexists);
    eapply IH; [done|lia|done|lia].
Qed.

Lemma get_Some t fd h : get t fd = inl h <-> 0 <= fd < 16 /\ t !! Z.to_nat fd = Some (Some h).
Proof.
  unfold get. change (Z.of_nat MAX_FILES) with 16. destruct (Z.ltb_spec fd 0), (Z.leb_spec 16 fd); cbn; split; try done; try lia.
  - destruct (t !! Z.to_nat fd) as [[h'|]|] eqn:E; try done. by intros [= ->].
  - by intros [_ ->].
Qed.

Lemma get_insert_eq t i o : table_wf t -> (i < MAX_FILES)%nat ->
  get (<[i := o]> t) (Z.of_nat i) = match o with Some h => inl h | None => inr BadFileDescriptor end.
Proof.
  intros Ht Hi. unfold get, table_wf, MAX_FILES in *. destruct (Z.ltb_spec (Z.of_nat i) 0), (Z.leb_spec (Z.of_nat 16) (Z.of_nat i)); cbn; try lia.
  rewrite Nat2Z.id, list_lookup_insert_eq by lia. by destruct o.
Qed.

Lemma get_insert_ne t i o fd : fd <> Z.of_nat i -> get (<[i := o]> t) fd = get t fd.
Proof.
  intros Hne. unfold get. destruct (Z.ltb_spec fd 0), (Z.leb_spec (Z.of_nat MAX_FILES) fd); cbn; try done.
  by rewrite list_lookup_insert_ne by lia.
Qed.

(** [open], [pipe] and [accept] get the lowest free descriptor. *)
Lemma allocate_ok t h s s' t' r : table_wf t -> allocate t h s = Ok (s', t', r) -> table_wf t' /\
  match r with
  | inl fd => s' = s /\ 0 <= fd < 16 /\ get t fd = inr BadFileDescriptor /\ get t' fd = inl h /\
              (forall fd', fd' <> fd -> get t' fd' = get t fd') /\ (forall fd', 0 <= fd' < fd -> exists h', get t fd' = inl h')
  | inr _ => t' = t /\ forall fd, 0 <= fd < 16 -> exists h', get t fd = inl h'
  end.
Proof.
  intros Ht. unfold allocate. destruct (free_slot 0 t) as [i|] eqn:Hf.
  - intros [= <- <- <-]. apply free_slot_Some in Hf as (Hi & _ & Hlow). pose proof (lookup_lt_Some _ _ _ Hi) as Hlt.
    unfold table_wf, MAX_FILES in *. rewrite length_insert. split; [done|]. split_and!; try done; try lia.
    + unfold get. rewrite Nat2Z.id, Hi. by destruct (_ || _).
    + by apply (get_insert_eq t i (Some h)); unfold table_wf, MAX_FILES; [|lia].
    + intros fd' Hne. by apply get_insert_ne.
    + intros fd' Hfd. destruct (Hlow (Z.to_nat fd')) as [h' Hh']; [lia|]. exists h'. apply get_Some. split; [lia|done].
  - unfold mbind, outcome_bind. destruct (h_drop h s) as [s1|[]|]; [|done]. intros [= <- <- <-]. split; [done|]. split; [done|].
    intros fd Hfd. destruct (free_slot_None _ _ Hf (Z.to_nat fd)) as [h' Hh']; [unfold table_wf, MAX_FILES in Ht; lia|].
    exists h'. by apply get_Some.
Qed.

(** [dup] and [fcntl(F_DUPFD)]. *)
Lemma dup_ok t fd min s s' t' fd' : table_wf t -> 0 <= min -> dup t fd min s = Ok (s', t', inl fd') ->
  exists h h', get t fd = inl h /\ h_dup h s = Ok (s', Some h') /\ table_wf t' /\
    min <= fd' < 16 /\ get t fd' = inr BadFileDescriptor /\ get t' fd' = inl h' /\
    (forall fd2, fd2 <> fd' -> get t' fd2 = get t fd2) /\ (forall fd2, min <= fd2 < fd' -> exists x, get t fd2 = inl x).
Proof.
  intros Ht Hmin. unfold dup. destruct (get t fd) as [h|e] eqn:Hg; [|done].
  destruct (h_dup h s) as [[s1 [h'|]]|[]|] eqn:Hd; cbn [mbind outcome_bind fst snd]; [|done..]. case_bools.
  { unfold mbind, outcome_bind. by destruct (h_drop h' s1) as [?|[]|]. }
  destruct (free_slot (Z.to_nat min) t) as [i|] eqn:Hf.
  2: { unfold mbind, outcome_bind. by destruct (h_drop h' s1) as [?|[]|]. }
  intros [= <- <- <-]. apply free_slot_Some in Hf as (Hi & Hge & Hlow). pose proof (lookup_lt_Some _ _ _ Hi) as Hlt.
  exists h, h'. unfold table_wf, MAX_FILES in *. rewrite length_insert. split_and!; try done; try lia.
  - unfold get. rewrite Nat2Z.id, Hi. by destruct (_ || _).
  - by apply (get_insert_eq t i (Some h')); unfold table_wf, MAX_FILES; [|lia].
  - intros fd2 Hne. by apply get_insert_ne.
  - intros fd2 Hfd. destruct (Hlow (Z.to_nat fd2)) as [x Hx]; [lia|]. exists x. apply get_Some. split; [lia|done].
Qed.

Lemma release_ok t fd s s' t' r : table_wf t -> (fd < MAX_FILES)%nat -> release t fd s = Ok (s', t', r) ->
  table_wf t' /\ get t' (Z.of_nat fd) = inr BadFileDescriptor /\ forall fd2, fd2 <> Z.of_nat fd -> get t' fd2 = get t fd2.
Proof.
  intros Ht Hfd. unfold release. destruct (t !! fd) as [[h|]|] eqn:Hl.
  - unfold mbind, outcome_bind. destruct (h_close h s) as [[[s1 h1] r1]|[]|]; [|done]. cbn. destruct (h_drop h1 s1) as [s2|[]|]; [|done].
    intros [= <- <- <-]. unfold table_wf. rewrite length_insert. split_and!; [done|by rewrite get_insert_eq|]. intros. by apply get_insert_ne.
  - intros [= <- <- <-]. split_and!; try done. unfold get. rewrite Nat2Z.id, Hl. by destruct (_ || _).
  - apply lookup_ge_None in Hl. unfold table_wf in Ht. lia.
Qed.

Lemma close_ok t fd s s' t' r : table_wf t -> close t fd s = Ok (s', t', r) ->
  table_wf t' /\ get t' fd = inr BadFileDescriptor /\ forall fd2, fd2 <> fd -> get t' fd2 = get t fd2.
Proof.
  intros Ht. unfold close. destruct (Z.ltb_spec fd 0); cbn [orb].
  { intros [= <- <- <-]. split_and!; try done. unfold get. by rewrite (proj2 (Z.ltb_lt fd 0)). }
  destruct (Z.leb_spec (Z.of_nat MAX_FILES) fd) as [Hge|Hlt].
  { intros [= <- <- <-]. split_and!; try done. unfold get. rewrite (proj2 (Z.leb_le _ _) Hge), orb_true_r. done. }
  intros Hr. destruct (release_ok t (Z.to_nat fd) s s' t' r) as (R1 & R2 & R3); [done|lia|done|]. rewrite Z2Nat.id in * by lia. done.
Qed.

(** [dup2]: the new descriptor names a duplicate, whatever it named before is
    closed, the others stay. *)
Lemma dup2_ok t oldfd newfd s s' t' r : table_wf t -> oldfd <> newfd -> dup2 t oldfd newfd s = Ok (s', t', inl r) ->
  exists h h' s1, get t oldfd = inl h /\ h_dup h s = Ok (s1, Some h') /\ r = newfd /\ table_wf t' /\ get t' newfd = inl h' /\
    forall fd2, fd2 <> newfd -> get t' fd2 = get t fd2.
Proof.
  intros Ht Hne. unfold dup2. destruct (Z.ltb_spec newfd 0); [done|]. destruct (Z.leb_spec (Z.of_nat MAX_FILES) newfd); [done|].
  cbn [orb]. rewrite (proj2 (Z.eqb_neq _ _) Hne). destruct (get t oldfd) as [h|e] eqn:Hg; [|done].
  destruct (h_dup h s) as [[s1 [h'|]]|[]|] eqn:Hd; cbn [mbind outcome_bind fst snd]; [|done..].
  destruct (release t (Z.to_nat newfd) s1) as [[[s2 t2] q]|[]|] eqn:Hr; cbn [mbind outcome_bind fst snd]; [|done].
  intros [= <- <- <-]. destruct (release_ok t (Z.to_nat newfd) s1 s2 t2 q Ht) as (R1 & R2 & R3); [lia|done|].
  exists h, h', s1. unfold table_wf. rewrite length_insert. split_and!; try done.
  - rewrite <- (Z2Nat.id newfd) at 2 by lia. by apply (get_insert_eq t2 (Z.to_nat newfd) (Some h')); [|lia].
  - intros fd2 Hne2. rewrite get_insert_ne by lia. apply R3. lia.
Qed.

End table.
End FdTable.
