(* ===== verification/SysFs.v ===== *)
(** The file system calls ([kernel/src/process/syscall/fs.rs] and the helpers
    of [kernel/src/process/syscall/mod.rs]): argument checks, paths relative to
    the working directory, the descriptor table, and the copies to and from
    user memory.

    [Sys] is what they act on: the file systems, the running process and its
    memory (the bytes at its addresses; faults on the way are resolved by
    demand paging).  A call returns a value or blocks the caller ([Blocked]:
    [block_current] and [jump_to_user]). *)

From Stdlib Require Import ZArith Lia.
From stdpp Require Import base numbers gmap list.
From S2P Require Import Prelude Bits Bytes FsTypes Path Vfs FdTable Signal Ext2Format Ext2Volume Ext2Dir.

Local Open Scope Z_scope.

Module SysFs.
Import Bytes FsTypes Path Vfs FdTable.

(** [errno] of [syscall/mod.rs]. *)
Definition E_SRCH : Z := -3.
Definition E_IO : Z := -5.
Definition E_BADF : Z := -9.
Definition E_ACCES : Z := -13.
Definition E_FAULT : Z := -14.
Definition E_NOTDIR : Z := -20.
Definition E_INVAL : Z := -22.
Definition E_NOSPC : Z := -28.
Definition E_SPIPE : Z := -29.
Definition E_PIPE : Z := -32.
Definition E_RANGE : Z := -34.

Definition validate_user_buffer := Signal.validate_user_buffer.

(** [core::str::from_utf8(_).unwrap_or("")]: a byte string is UTF-8 exactly
    when decoding it lossily changes nothing. *)
Definition utf8_or_empty (l : bytes) : bytes := if bool_decide (Ext2Dir.lossy l = l) then l else [].

(** ["serial"]. *)
Definition SERIAL : bytes := [115; 101; 114; 105; 97; 108].

(** [keyboard::read_key]. *)
Class Console (S : Type) := read_key : S -> S * option Z.

Inductive SysResult := Ret (v : Z) | Blocked.

Record StdinWaiter := mkStdinWaiter { w_pid : Z; user_buf : Z }.

(** The bytes of [struct stat]. *)
Definition stat_bytes (st : Stat) : bytes :=
  to_le 8 (st_dev st) ++ to_le 8 (st_ino st) ++ to_le 8 (st_nlink st) ++
  to_le 4 (st_mode st) ++ to_le 4 (st_uid st) ++ to_le 4 (st_gid st) ++ to_le 4 0 ++
  to_le 8 (st_rdev st) ++ to_le 8 (st_size st mod 2 ^ 64) ++ to_le 8 (st_blksize st) ++ to_le 8 (st_blocks st mod 2 ^ 64) ++
  to_le 8 (st_atime st) ++ to_le 8 (st_atime_nsec st) ++ to_le 8 (st_mtime st) ++ to_le 8 (st_mtime_nsec st) ++
  to_le 8 (st_ctime st) ++ to_le 8 (st_ctime_nsec st) ++ replicate 24 0.
Definition STAT_SIZE : Z := 144.

Section calls.
Context {S I H : Type} `{Inodes S I H} `{!FileHandles S H} `{!Console S}.
Variable table : list (MountEntry (S := S) (I := I)).

Record Proc := mkProc { pid : Z; files : list (option H); cwd : bytes }.
#[local] Instance Proc_fields : Fields Proc := fun r => mkProc (pid r) (files r) (cwd r).

Record Sys := mkSys { fs : S; running : option Proc; umem : mem; STDIN_WAITER : option StdinWaiter }.
#[local] Instance Sys_fields : Fields Sys := fun r => mkSys (fs r) (running r) (umem r) (STDIN_WAITER r).

(** A system call. *)
Definition Call : Type := Sys -> may_panic (Sys * SysResult).

Definition ret (v : Z) : Call := fun w => Ok (w, Ret v).

(** ** Helpers *)

Definition set_fs (w : Sys) (s : S) : Sys := mkSys s (running w) (umem w) (STDIN_WAITER w).
Definition set_mem (w : Sys) (m : mem) : Sys := mkSys (fs w) (running w) m (STDIN_WAITER w).
Definition set_proc (w : Sys) (p : Proc) : Sys := mkSys (fs w) (Some p) (umem w) (STDIN_WAITER w).

Definition with_current_process (f : Proc -> Call) : Call := fun w =>
  match running w with Some p => f p w | None => ret E_SRCH w end.

Definition current_cwd (w : Sys) : bytes := match running w with Some p => cwd p | None => ROOT end.

Definition read_user_str (ptr : Z) (w : Sys) : bytes := utf8_or_empty (c_str (read_bytes (umem w) ptr 255)).

Definition resolve_path (raw : bytes) (w : Sys) : bytes := normalize_path (current_cwd w) raw.

(** [if let Err(e) = validate_user_buffer(..) { return e; }]. *)
Definition validated (addr n : Z) (k : Call) : Call :=
  match validate_user_buffer addr n with Some e => ret e | None => k end.

(** The errors of the file systems are returned as negative numbers. *)
Definition run {A} (m : Fs S A) (k : A -> Call) : Call := fun w =>
  match m (fs w) with
  | Ok (s, inl a) => k a (set_fs w s)
  | Ok (s, inr e) => ret (errno_i64 e) (set_fs w s)
  | Err e => match e with end
  | Panic => Panic
  end.

(** A path argument: empty is [EINVAL]. *)
Definition with_path (ptr : Z) (k : bytes -> Call) : Call := fun w =>
  match read_user_str ptr w with
  | [] => ret E_INVAL w
  | p => k (resolve_path p w) w
  end.

(** ** Calls on paths *)

Definition sys_open (path_ptr flags : Z) : Call :=
  validated path_ptr 256 (with_path path_ptr (fun path =>
  run (open table path flags) (fun handle =>
  fun w =>
    match running w with
    | None => s ← h_drop handle (fs w); ret E_SRCH (set_fs w s)
    | Some p =>
        r ← allocate (files p) handle (fs w);
        let w := set_proc (set_fs w r.1.1) (mkProc (pid p) r.1.2 (cwd p)) in
        ret (match r.2 with inl fd => fd | inr _ => E_INVAL end) w
    end))).

(** [stat] and [lstat] do not reject an empty path. *)
Definition stat_impl (path_ptr stat_ptr : Z) (follow : bool) : Call :=
  validated path_ptr 1 (validated stat_ptr STAT_SIZE (fun w =>
  let path := resolve_path (read_user_str path_ptr w) w in
  run (if follow then stat table path else lstat table path) (fun st w =>
    ret 0 (set_mem w (write_bytes (umem w) stat_ptr (stat_bytes st)))) w)).
Definition sys_stat (path_ptr stat_ptr : Z) : Call := stat_impl path_ptr stat_ptr true.
Definition sys_lstat (path_ptr stat_ptr : Z) : Call := stat_impl path_ptr stat_ptr false.

Definition sys_mkdir (path_ptr : Z) : Call := validated path_ptr 1 (with_path path_ptr (fun p => run (mkdir table p) (fun _ => ret 0))).
Definition sys_rmdir (path_ptr : Z) : Call := validated path_ptr 1 (with_path path_ptr (fun p => run (rmdir table p) (fun _ => ret 0))).
Definition sys_unlink (path_ptr : Z) : Call := validated path_ptr 1 (with_path path_ptr (fun p => run (unlink table p) (fun _ => ret 0))).

Definition sys_readlink (path_ptr buf_ptr bufsiz : Z) : Call :=
  validated path_ptr 1 (validated buf_ptr bufsiz (with_path path_ptr (fun path =>
  run (readlink table path) (fun target w =>
    let n := Z.min (size target) bufsiz in
    ret n (set_mem w (write_bytes (umem w) buf_ptr (sub 0 n target))))))).

Definition sys_symlink (target_ptr linkpath_ptr : Z) : Call :=
  validated target_ptr 1 (validated linkpath_ptr 1 (fun w =>
  let target := read_user_str target_ptr w in
  let linkpath := read_user_str linkpath_ptr w in
  if bool_decide (target = []) || bool_decide (linkpath = []) then ret E_INVAL w else
  run (symlink table target (resolve_path linkpath w)) (fun _ => ret 0) w)).

(** [mode & W_OK]. *)
Definition sys_access (path_ptr mode : Z) : Call :=
  validated path_ptr 1 (with_path path_ptr (fun path =>
  if negb (Z.land mode 2 =? 0) then
    run (open table path WRONLY) (fun handle w =>
      r ← h_write handle [] (fs w);
      s ← h_drop r.1.2 r.1.1;
      ret (match r.2 with inl _ => 0 | inr _ => E_ACCES end) (set_fs w s))
  else run (stat table path) (fun _ => ret 0))).

Definition sys_rename (old_path_ptr new_path_ptr : Z) : Call :=
  validated old_path_ptr 1 (validated new_path_ptr 1 (fun w =>
  let old_path := read_user_str old_path_ptr w in
  let new_path := read_user_str new_path_ptr w in
  if bool_decide (old_path = []) || bool_decide (new_path = []) then ret E_INVAL w else
  run (rename table (resolve_path old_path w) (resolve_path new_path w)) (fun _ => ret 0) w)).

Definition sys_chmod (path_ptr mode : Z) : Call :=
  validated path_ptr 1 (with_path path_ptr (fun path =>
  run (inode ← resolve table path; i_chmod inode mode) (fun _ => ret 0))).

(** ** The working directory *)

Definition sys_getcwd (buf_ptr sz : Z) : Call :=
  if sz =? 0 then ret E_INVAL else
  validated buf_ptr sz (fun w =>
    let dir := current_cwd w in
    let needed := size dir + 1 in
    if sz <? needed then ret E_RANGE w
    else ret needed (set_mem w (write_bytes (umem w) buf_ptr (dir ++ [0])))).

Definition sys_chdir (path_ptr : Z) : Call :=
  validated path_ptr 1 (with_path path_ptr (fun path =>
  run (inode ← resolve table path; reads (file_type inode)) (fun t =>
  if negb (bool_decide (t = Directory)) then ret E_NOTDIR else
  with_current_process (fun p w => ret 0 (set_proc w (mkProc (pid p) (files p) path)))))).

(** ** Calls on descriptors *)

(** [i32] to [usize]: a negative descriptor is out of range. *)
Definition sys_close (fd : Z) : Call :=
  with_current_process (fun p w =>
    r ← close (files p) fd (fs w);
    ret (match r.2 with inl _ => 0 | inr _ => E_BADF end) (set_proc (set_fs w r.1.1) (mkProc (pid p) r.1.2 (cwd p)))).

Definition sys_fcntl_dup (fd min_fd : Z) : Call :=
  with_current_process (fun p w =>
    r ← dup (files p) fd min_fd (fs w);
    ret (match r.2 with inl newfd => newfd | inr _ => E_BADF end) (set_proc (set_fs w r.1.1) (mkProc (pid p) r.1.2 (cwd p)))).

Definition sys_dup (fd : Z) : Call := if fd <? 0 then ret E_BADF else sys_fcntl_dup fd 0.

Definition sys_dup2 (oldfd newfd : Z) : Call :=
  if (oldfd <? 0) || (newfd <? 0) then ret E_BADF else
  with_current_process (fun p w =>
    r ← dup2 (files p) oldfd newfd (fs w);
    ret (match r.2 with inl nf => nf | inr _ => E_BADF end) (set_proc (set_fs w r.1.1) (mkProc (pid p) r.1.2 (cwd p)))).

(** [F_DUPFD], [F_DUPFD_CLOEXEC]; [F_GETFD] to [F_SETFL]. *)
Definition sys_fcntl (fd cmd arg : Z) : Call :=
  if fd <? 0 then ret E_BADF
  else if (cmd =? 0) || (cmd =? 1030) then sys_fcntl_dup fd arg
  else if (1 <=? cmd) && (cmd <=? 4) then
    with_current_process (fun p => ret (match get (files p) fd with inl _ => 0 | inr _ => E_BADF end))
  else ret E_INVAL.

(** A call on the handle of [fd]: [EBADF] if it is not open. *)
Definition on_handle {A} (fd : Z) (m : H -> S -> may_panic (S * H * A)) (k : A -> Call) : Call :=
  with_current_process (fun p w =>
    match get (files p) fd with
    | inr _ => ret E_BADF w
    | inl h =>
        r ← m h (fs w);
        k r.2 (set_proc (set_fs w r.1.1) (mkProc (pid p) (<[Z.to_nat fd := Some r.1.2]> (files p)) (cwd p)))
    end).

Definition sys_fstat (fd stat_ptr : Z) : Call :=
  validated stat_ptr STAT_SIZE (fun w =>
    match running w with
    | None => ret E_BADF w
    | Some p =>
        match get (files p) fd with
        | inr _ => ret E_BADF w
        | inl h =>
            st ← h_stat h (fs w);
            match st with
            | None => ret E_BADF w
            | Some st => ret 0 (set_mem w (write_bytes (umem w) stat_ptr (stat_bytes st)))
            end
        end
    end).

Definition sys_getdents64 (fd buf_ptr count : Z) : Call :=
  validated buf_ptr count (fun w =>
  on_handle fd (fun h => h_getdents64 h (read_bytes (umem w) buf_ptr (Z.to_nat count)))
    (fun r w => ret r.2 (set_mem w (write_bytes (umem w) buf_ptr r.1))) w).

Definition sys_lseek (fd offset whence : Z) : Call :=
  if (fd <? 0) || (16 <=? fd) then ret E_BADF else
  on_handle fd (fun h => h_seek h offset whence)
    (fun r => ret (match r with inl pos => pos | inr NotSupported => E_SPIPE | inr _ => E_INVAL end)).

Definition sys_fchmod (fd mode : Z) : Call :=
  if fd <? 0 then ret E_BADF else
  on_handle fd (fun h => h_chmod h mode) (fun r => ret (match r with inl _ => 0 | inr _ => E_IO end)).

Definition sys_brk (addr : Z) : Call := ret 0.

(** ** Reading and writing *)

Definition stdin_is_console (w : Sys) : bool :=
  match running w with
  | Some p => match get (files p) 0 with inl h => bool_decide (h_name h = SERIAL) | inr _ => false end
  | None => false
  end.

Definition sys_read (fd buf count : Z) : Call :=
  if count =? 0 then ret 0 else
  validated buf count (fun w =>
    if (fd =? 0) && stdin_is_console w then
      let '(s, key) := read_key (fs w) in
      match key with
      | Some c => ret 1 (set_mem (set_fs w s) (write_bytes (umem w) buf [c mod 256]))
      | None =>
          let who := match running w with Some p => pid p | None => 0 end in
          Ok (mkSys s (running w) (umem w) (Some (mkStdinWaiter who buf)), Blocked)
      end
    else
      on_handle fd (fun h => h_read h count) (fun r w =>
        match r with
        | inl bs => ret (size bs) (set_mem w (write_bytes (umem w) buf bs))
        | inr WouldBlock => Ok (w, Blocked)
        | inr _ => ret E_IO w
        end) w).

Definition sys_write (fd buf count : Z) : Call :=
  validated buf count (fun w =>
    on_handle fd (fun h => h_write h (read_bytes (umem w) buf (Z.to_nat count))) (fun r w =>
      match r with
      | inl n => ret n w
      | inr BrokenPipe => ret E_PIPE w
      | inr NoSpaceLeft => ret E_NOSPC w
      | inr WouldBlock => Ok (w, Blocked)
      | inr _ => ret E_IO w
      end) w).

(** The loop over the segments; a call that blocks does not come back. *)
Fixpoint writev_loop (n : nat) (fd entry total : Z) : Call := fun w =>
  match n with
  | O => ret total w
  | Datatypes.S n' =>
      let base := read_word (umem w) entry in
      let len := read_word (umem w) (entry + 8) in
      if len =? 0 then writev_loop n' fd (entry + 16) total w else
      r ← sys_write fd base len w;
      match r with
      | (w, Blocked) => Ok (w, Blocked)
      | (w, Ret v) => if v <? 0 then ret v w else writev_loop n' fd (entry + 16) (total + v) w
      end
  end.
Definition sys_writev (fd iov_ptr iovcnt : Z) : Call :=
  if 1024 <? iovcnt then ret E_INVAL else
  match validate_user_buffer iov_ptr (iovcnt * 16) with
  | Some _ => ret E_FAULT
  | None => writev_loop (Z.to_nat iovcnt) fd iov_ptr 0
  end.

End calls.
End SysFs.
