(* ===== verification/SysProps.v ===== *)
(** Properties of the file system calls: the working directory, descriptors,
    and what [writev] does with short writes. *)

From Stdlib Require Import ZArith Lia.
From stdpp Require Import base numbers gmap list.
From S2P Require Import Prelude Bits Bytes FsTypes Path Vfs RamFs RamFsInv VfsProps Signal FdTable SysFs.

Local Open Scope Z_scope.

Module SysProps.
Import Bytes FsTypes Path Vfs FdTable SysFs.

Section props.
Context {S I H : Type} `{Inodes S I H} `{!FileHandles S H} `{!Console S} `{!FsLaws (S := S) (I := I) (H := H)}.
Implicit Types (w : Sys (S := S) (H := H)) (p : Proc (H := H)).

Lemma validated_inv addr n (k : Call (S := S) (H := H)) w w' v : validated addr n k w = Ok (w', Ret v) -> 0 <= v ->
  validate_user_buffer addr n = None /\ k w = Ok (w', Ret v).
Proof.
  unfold validated. destruct (validate_user_buffer addr n) as [e|] eqn:Hv; [|done]. intros [= <- ->] Hpos.
  unfold validate_user_buffer, Signal.validate_user_buffer in Hv. repeat case_match; simplify_eq; unfold Signal.EFAULT in Hpos; lia.
Qed.

Lemma with_path_inv ptr (k : bytes -> Call (S := S) (H := H)) w w' v : with_path ptr k w = Ok (w', Ret v) -> 0 <= v ->
  k (resolve_path (read_user_str ptr w) w) w = Ok (w', Ret v).
Proof. unfold with_path. destruct (read_user_str ptr w); [intros [= _ <-]; unfold E_INVAL; lia|done]. Qed.

(** Errors of the file systems are error numbers. *)
Lemma run_inv {A} (m : Fs S A) (k : A -> Call (S := S) (H := H)) w w' v : run m k w = Ok (w', Ret v) ->
  (exists s e, m (fs w) = Ok (s, inr e) /\ v = - e) \/ exists s a, m (fs w) = Ok (s, inl a) /\ k a (set_fs w s) = Ok (w', Ret v).
Proof.
  unfold run. destruct (m (fs w)) as [[s [a|e]]|[]|]; [|intros [= _ <-]; left; by exists s, e|done]. right. by exists s, a.
Qed.

(** [EFAULT] apart, [getcwd] copies the working directory and its NUL. *)
Lemma getcwd_run buf sz w : size (current_cwd w) + 1 <= sz -> validate_user_buffer buf sz = None ->
  sys_getcwd buf sz w = Ok (set_mem w (write_bytes (umem w) buf (current_cwd w ++ [0])), Ret (size (current_cwd w) + 1)).
Proof.
  intros Hsz Hv. pose proof (size_nonneg (current_cwd w)). unfold sys_getcwd, validated. rewrite Hv.
  rewrite (proj2 (Z.eqb_neq sz 0)) by lia. by rewrite (proj2 (Z.ltb_ge sz _)) by lia.
Qed.

(** When [chdir] succeeds, the new working directory is the normalized
    path: it is again clean (absolute, without ["."], [".."] or repeated
    slashes), it resolves to a directory, and [getcwd] into any buffer that
    holds it and its NUL returns exactly these bytes. *)
Theorem chdir_getcwd (table : list (MountEntry (S := S) (I := I))) path_ptr w w' p :
  Forall root_law table -> running w = Some p -> clean (cwd p) ->
  sys_chdir table path_ptr w = Ok (w', Ret 0) ->
  exists p', running w' = Some p' /\ files p' = files p /\ clean (cwd p') /\
    cwd p' = normalize_path (cwd p) (read_user_str path_ptr w) /\
    (exists i, resolve table (cwd p') (fs w') = Ok (fs w', inl i) /\ file_type i (fs w') = Ok Directory) /\
    forall buf sz, size (cwd p') + 1 <= sz -> validate_user_buffer buf sz = None ->
      exists w2, sys_getcwd buf sz w' = Ok (w2, Ret (size (cwd p') + 1)) /\
        read_bytes (umem w2) buf (length (cwd p') + 1) = cwd p' ++ [0].
Proof.
  intros Hroots Hrun Hcl. unfold sys_chdir.
  intros [_ Hc]%validated_inv; [|lia]. apply with_path_inv in Hc; [|lia]. set (path := resolve_path _ w) in *.
  assert (path = normalize_path (cwd p) (read_user_str path_ptr w)) as Hpath by (unfold path, resolve_path, current_cwd; by rewrite Hrun).
  assert (clean path) as Hclean by (rewrite Hpath; apply normalize_clean; right; by apply clean_components).
  apply run_inv in Hc as [(s & e & He & Hz)|(s & t & Ht & Hc)].
  - exfalso. assert (0 < e); [|lia]. apply fs_bind_inv in He as [(s1 & i & _ & He)|(e1 & He & [= <-])]; [|by eapply resolve_errno].
    by apply reads_inv in He as (_ & ? & _ & [=]).
  - apply fs_bind_inl in Ht as (s1 & i & Hi & Ht). pose proof (resolve_pure _ _ _ _ _ _ _ Hroots Hi) as ->.
    apply reads_inv in Ht as (-> & t' & Ht & [= <-]).
    case_match; [by injection Hc as _ Hc; unfold E_NOTDIR in Hc; lia|]. unfold with_current_process in Hc. cbn in Hc. rewrite Hrun in Hc.
    injection Hc as <-. eexists. split_and!; [done|done|exact Hclean|exact Hpath| |].
    + exists i. split; [exact Hi|]. apply negb_false_iff, bool_decide_eq_true in H1. by subst.
    + intros buf sz Hsz Hv. rewrite getcwd_run by done. eexists. split; [done|]. cbn [umem set_mem current_cwd running set_proc].
      rewrite <- (read_write_bytes (umem w) buf (path ++ [0])) at 2. f_equal. cbn. by rewrite length_app.
Qed.

(** C33: [open] on a readable path opens the path relative to the working
    directory; when that succeeds, the descriptor returned is the lowest one
    that was free, it names the handle opened, and every other descriptor is as
    before; with no free descriptor the handle is dropped, the table stays and
    [EINVAL] is returned; when it fails the error is returned and the process
    is as before.  The working directory and user memory never change. *)
Theorem sys_open_spec (table : list (MountEntry (S := S) (I := I))) path_ptr flags w p w' r :
  running w = Some p -> table_wf (files p) -> validate_user_buffer path_ptr 256 = None -> read_user_str path_ptr w <> [] ->
  sys_open table path_ptr flags w = Ok (w', r) ->
  exists s o, open table (normalize_path (cwd p) (read_user_str path_ptr w)) flags (fs w) = Ok (s, o) /\ umem w' = umem w /\
  match o with
  | inr e => r = Ret (- e) /\ fs w' = s /\ running w' = Some p
  | inl h => exists p', running w' = Some p' /\ table_wf (files p') /\ cwd p' = cwd p /\
      ((exists fd, r = Ret fd /\ fs w' = s /\ 0 <= fd < 16 /\ get (files p) fd = inr BadFileDescriptor /\ get (files p') fd = inl h /\
          (forall fd', fd' <> fd -> get (files p') fd' = get (files p) fd') /\
          (forall fd', 0 <= fd' < fd -> exists h', get (files p) fd' = inl h')) \/
       (r = Ret E_INVAL /\ h_drop h s = Ok (fs w') /\ files p' = files p /\
          forall fd, 0 <= fd < 16 -> exists h', get (files p) fd = inl h'))
  end.
Proof.
  intros Hrun Hwf Hv Hne. unfold sys_open, validated, with_path. rewrite Hv. destruct (read_user_str path_ptr w) as [|b l] eqn:Hp; [done|].
  unfold resolve_path, current_cwd. rewrite Hrun. set (path := normalize_path _ _). unfold run.
  destruct (open table path flags (fs w)) as [[s [h|e]]|[]|] eqn:Ho; [|intros [= <- <-]; by exists s, (inr e)|done].
  cbn [running set_fs]. rewrite Hrun. cbn [fs set_fs]. intros Hc. exists s, (inl h). split; [done|].
  destruct (allocate (files p) h s) as [[[s1 t1] q]|[]|] eqn:Ha; [|done]. cbn [mbind outcome_bind fst snd] in Hc.
  injection Hc as <- <-. split; [done|]. eexists. split; [done|]. cbn. pose proof Ha as Ha'. apply allocate_ok in Ha as [Hwf1 Ha]; [|done].
  split_and!; [done..|]. destruct q as [fd|e].
  - left. exists fd. by destruct Ha as (-> & Ha).
  - right. destruct Ha as [-> Hfull]. split_and!; try done. unfold allocate in Ha'. destruct (free_slot 0 (files p)); [done|].
    unfold mbind, outcome_bind in Ha'. destruct (h_drop h s) as [s2|[]|]; [|done]. by injection Ha' as ->.
Qed.

End props.

(** ** Concrete calls *)

Import VfsProps.

#[global] Instance no_keys : Console St := fun s => (s, None).

Definition St_handle : Type := RamFs.RamHandle + Empty_set.
Definition W : Type := Sys (S := St) (H := St_handle).

(** A process in [/tmp], with the string [a] at address 4096. *)
Definition w0 : W :=
  mkSys (after (Vfs.mkdir tmp_table (tmp_path [97])) boot) (Some (mkProc 1 (new (H := St_handle)) TMP)) (write_bytes ∅ 4096 [97; 0]) None.

Definition call_result (c : Call (S := St) (H := St_handle)) (w : W) : W * option SysResult :=
  match c w with Ok (w', r) => (w', Some r) | _ => (w, None) end.

Lemma chdir_getcwd_witness :
  exists w' p', sys_chdir tmp_table 4096 w0 = Ok (w', Ret 0) /\ running w' = Some p' /\ cwd p' = tmp_path [97] /\ clean (cwd p') /\
  exists w2, sys_getcwd 8192 64 w' = Ok (w2, Ret 7) /\ read_bytes (umem w2) 8192 7 = tmp_path [97] ++ [0].
Proof.
  assert (sys_chdir tmp_table 4096 w0 = Ok ((call_result (sys_chdir tmp_table 4096) w0).1, Ret 0)) as Hc by (vm_compute; reflexivity).
  destruct (chdir_getcwd tmp_table 4096 w0 _ (mkProc 1 new TMP) tmp_roots ltac:(reflexivity) tmp_clean Hc)
    as (p' & Hr & _ & Hcl & Heq & _ & Hg).
  assert (cwd p' = tmp_path [97]) as Hp by (rewrite Heq; vm_compute; reflexivity).
  eexists _, p'. split_and!; [exact Hc|exact Hr|exact Hp|exact Hcl|]. rewrite Hp in Hg. apply (Hg 8192 64); vm_compute; done.
Defined.

(** [open("a")] of a directory, in an empty table. *)
Lemma sys_open_spec_witness :
  exists w' p' h, sys_open tmp_table 4096 0 w0 = Ok (w', Ret 0) /\ running w' = Some p' /\ get (files p') 0 = inl h.
Proof.
  assert (sys_open tmp_table 4096 0 w0 = Ok ((call_result (sys_open tmp_table 4096 0) w0).1, Ret 0)) as Hc by (vm_compute; reflexivity).
  destruct (sys_open_spec tmp_table 4096 0 w0 (mkProc 1 new TMP) _ _ ltac:(reflexivity) ltac:(reflexivity) ltac:(vm_compute; reflexivity)
    ltac:(vm_compute; discriminate) Hc) as (s & [h|e] & Ho & _ & Hr).
  - destruct Hr as (p' & Hr & _ & _ & [(fd & [= <-] & _ & _ & _ & Hg & _)|[[=] _]]). eexists _, p', h. split_and!; [exact Hc|exact Hr|exact Hg].
  - exfalso. vm_compute in Ho. discriminate.
Defined.

(** Closing a descriptor that is not open succeeds. *)
Theorem close_unopened :
  (call_result (sys_close 7) w0).2 = Some (Ret 0) /\ (call_result (sys_close 16) w0).2 = Some (Ret E_BADF).
Proof. vm_compute. split; reflexivity. Qed.

(** *** Short writes *)

(** A device that takes at most one byte per write, and the bytes it took (a
    pipe with one free byte does the same). *)
#[local] Instance slow_handles : FileHandles bytes unit := {
  h_read h len s := Ok (s, h, inl []);
  h_write h buf s := Ok (s ++ take 1 buf, h, inl (Z.of_nat (length (take 1 buf))));
  h_close h s := Ok (s, h, inl ());
  h_stat h s := Ok None;
  h_getdents64 h buf s := Ok (s, h, (buf, 0));
  h_dup h s := Ok (s, Some h);
  h_seek h o wh s := Ok (s, h, inr NotSupported);
  h_chmod h m s := Ok (s, h, inl ());
  h_name h := [];
  h_drop h s := Ok s;
}.

(** Two segments, [1; 2] at 8192 and [3; 4] at 8200. *)
Definition slow0 : Sys (S := bytes) (H := unit) :=
  mkSys [] (Some (mkProc 1 (<[3%nat := Some ()]> new) ROOT))
    (write_bytes (write_bytes ∅ 4096 (words_bytes [8192; 2; 8200; 2])) 8192 [1; 2; 0; 0; 0; 0; 0; 0; 3; 4]) None.

(** [writev] goes on with the next segment after a short write: it reports two
    bytes written, and they are not the first two. *)
Theorem writev_skips_bytes :
  match sys_writev 3 4096 2 slow0 with
  | Ok (w, Ret n) => n = 2 /\ fs w = [1; 3]
  | _ => False
  end.
Proof. vm_compute. split; reflexivity. Qed.

End SysProps.
