(* ===== verification/Ext2DirInv.v ===== *)
(** Correctness of the directory operations of [Ext2Dir]: a block as a chain
    of records, what each scan does to the chain, and what the operations do
    to the directory as a list of live entries. *)

From Stdlib Require Import ZArith Lia.
From stdpp Require Import base numbers gmap list.
From S2P Require Import Prelude Bits Bytes Ext2Format Ext2Volume Ext2Inv Ext2Files Ext2Dir.

Local Open Scope Z_scope.

Module Ext2DirInv.
Import Bytes Ext2Format Ext2Volume Ext2Inv Ext2Files Ext2Dir.

(** ** Blocks as chains of records *)

Record rec := mkRec { r_ino : Z; r_len : Z; r_type : Z; r_name : bytes }.
Implicit Types (r : rec) (rs : list rec) (buf : bytes).

Record rec_at buf (off : Z) r : Prop := {
  ra_ino : field off 4 buf = r_ino r;
  ra_len : field (off + 4) 2 buf = r_len r;
  ra_nlen : field (off + 6) 1 buf = size (r_name r);
  ra_type : field (off + 7) 1 buf = r_type r;
  ra_name : sub (off + 8) (size (r_name r)) buf = r_name r;
}.

Record rec_ok r : Prop := {
  ro_len : 8 + size (r_name r) <= r_len r;
  ro_align : r_len r mod 4 = 0;
}.

Fixpoint chain buf (off : Z) rs : Prop :=
  match rs with
  | [] => off = size buf
  | r :: rs' => rec_at buf off r /\ rec_ok r /\ off + r_len r <= size buf /\ chain buf (off + r_len r) rs'
  end.

(** Bytes of the record in use: none when it is deleted. *)
Definition r_used r : Z := if r_ino r =? 0 then 0 else dirent_len (size (r_name r)).

(** ** What the scans do to the chain *)

Definition new_rec (ino ft : Z) (name : bytes) (len : Z) : rec := mkRec ino len ft name.
Definition with_len r (len : Z) : rec := mkRec (r_ino r) len (r_type r) (r_name r).
Definition with_ino r (ino : Z) : rec := mkRec ino (r_len r) (r_type r) (r_name r).

Fixpoint add_rec (ino ft : Z) (name : bytes) rs : option (list rec) :=
  match rs with
  | [] => None
  | r :: rs' =>
      if r_len r - r_used r <? dirent_len (size name) then cons r <$> add_rec ino ft name rs'
      else if r_ino r =? 0 then Some (new_rec ino ft name (r_len r) :: rs')
      else Some (with_len r (r_used r) :: new_rec ino ft name (r_len r - r_used r) :: rs')
  end.

Definition is_named (name : bytes) r : bool := negb (r_ino r =? 0) && bool_decide (r_name r = name).

(** The record before the removed one grows over it; a first record is
    marked deleted. *)
Fixpoint remove_after (name : bytes) (p : rec) rs : option (list rec * rec) :=
  match rs with
  | [] => None
  | r :: rs' =>
      if is_named name r then Some (with_len p (r_len p + r_len r) :: rs', r)
      else '(rs1, e) ← remove_after name r rs'; Some (p :: rs1, e)
  end.

Definition remove_rec (name : bytes) rs : option (list rec * rec) :=
  match rs with
  | [] => None
  | r :: rs' => if is_named name r then Some (with_ino r 0 :: rs', r) else remove_after name r rs'
  end.

(** The live records. *)
Definition live rs : list rec := filter (fun r => r_ino r <> 0) rs.
(** What an entry says, whatever room its record takes. *)
Definition entry r : Z * Z * bytes := (r_ino r, r_type r, r_name r).
Definition entries rs : list (Z * Z * bytes) := entry <$> live rs.

(** ** Lemmas *)

Lemma dirent_len_bounds n : 0 <= n -> 8 + n <= dirent_len n <= 8 + n + 3 /\ dirent_len n mod 4 = 0.
Proof.
  intros Hn. unfold dirent_len. pose proof (align_down_bounds 2 (8 + n + 3) ltac:(lia)) as Hb. pose proof (align_down_mod 2 (8 + n + 3) ltac:(lia)) as Hm.
  change (2 ^ 2) with 4 in *. pose proof (Z.div_mod (align_down 2 (8 + n + 3)) 4 ltac:(lia)). lia.
Qed.

Lemma r_used_ok r : rec_ok r -> 0 <= r_used r <= r_len r /\ r_used r mod 4 = 0 /\ (r_ino r <> 0 -> 8 + size (r_name r) <= r_used r).
Proof.
  intros [Hl Ha]. pose proof (size_nonneg (r_name r)) as Hn. pose proof (dirent_len_bounds _ Hn) as [Hd Hm]. unfold r_used.
  destruct (Z.eqb_spec (r_ino r) 0) as [->|Hne]; [split; [lia|]; split; [done|lia]|].
  pose proof (Z.div_mod (r_len r) 4 ltac:(lia)). pose proof (Z.div_mod (dirent_len (size (r_name r))) 4 ltac:(lia)). lia.
Qed.

Lemma byte_field {E} l i : 0 <= i < size l -> @byte E l i = Ok (field i 1 l).
Proof.
  intros Hi. rewrite byte_ok by done. f_equal. unfold size in Hi. destruct (lookup_lt_is_Some_2 l (Z.to_nat i)) as [b Hb]; [lia|].
  rewrite (list_lookup_total_correct _ _ _ Hb). unfold field, sub. change (Z.to_nat 1) with 1%nat. rewrite (drop_S _ _ _ Hb).
  change (b = b + 256 * 0). lia.
Qed.

Lemma field_single a b l : 0 <= a < size l -> field a 1 (over a [b] l) = b.
Proof. intros Ha. unfold field. rewrite sub_over_eq by (done || (change (size [b]) with 1; lia)). cbn [from_le]. lia. Qed.

(** A record depends on its own bytes only. *)
Lemma rec_at_shift buf off seg off' L r : 0 <= off -> 0 <= off' -> sub off L buf = sub off' L seg -> 8 + size (r_name r) <= L ->
  rec_at seg off' r -> rec_at buf off r.
Proof.
  intros Ho Ho' Hs HL [R1 R2 R3 R4 R5]. pose proof (size_nonneg (r_name r)).
  assert (forall a n, 0 <= a -> 0 <= n -> a + n <= L -> sub (off + a) n buf = sub (off' + a) n seg) as Hsub.
  { intros a n Ha Hn Hle. rewrite <- (sub_sub off L), <- (sub_sub off' L) by lia. by rewrite Hs. }
  split; unfold field; [rewrite <- (Z.add_0_r off)| | | |]; rewrite Hsub by lia; rewrite ?Z.add_0_r; done.
Qed.

Lemma sub_narrow a n b k buf seg : 0 <= a -> 0 <= b -> 0 <= k -> b + k <= n -> sub a n buf = sub a n seg -> sub (a + b) k buf = sub (a + b) k seg.
Proof. intros Ha Hb Hk Hle Hs. rewrite <- !(sub_sub a n) by lia. by rewrite Hs. Qed.

Lemma chain_shift buf seg rs : forall off, 0 <= off -> size buf = size seg -> sub off (size buf - off) buf = sub off (size buf - off) seg ->
  chain seg off rs -> chain buf off rs.
Proof.
  induction rs as [|r rs IH]; intros off Ho Hsz Hs; cbn [chain]; [by rewrite Hsz|]. intros (R & K & Hle & C).
  pose proof (ro_len r K) as Hl. pose proof (size_nonneg (r_name r)). split; [|split; [done|split; [lia|]]].
  - apply (rec_at_shift buf off seg off (r_len r)); [done|done| |done|done].
    rewrite <- (Z.add_0_r off). apply (sub_narrow off (size buf - off)); (done || lia).
  - apply IH; [lia|done| |done].
    apply (sub_narrow off (size buf - off)); (done || lia).
Qed.

(** [write_dirent] writes the record, and only it. *)
Lemma write_dirent_ok {E} seg ino ft name : 8 + size name <= size seg -> size seg < 2 ^ 16 -> size name < 256 -> 0 <= ino < 2 ^ 32 -> 0 <= ft < 256 ->
  bytes_ok seg -> bytes_ok name ->
  exists seg', @write_dirent E seg ino (wrap 16 (size seg)) name ft = Ok seg' /\ size seg' = size seg /\ bytes_ok seg' /\
    rec_at seg' 0 (new_rec ino ft name (size seg)).
Proof.
  intros Hs H16 Hn Hi Ht Hb Hbn. pose proof (size_nonneg name) as Hn0. unfold write_dirent.
  assert (wrap 16 (size seg) = size seg) as -> by (unfold wrap; apply Z.mod_small; lia).
  assert (wrap 8 (size name) = size name) as -> by (unfold wrap; apply Z.mod_small; change (2 ^ 8) with 256; lia).
  rewrite put_le_ok by lia. cbn [mbind outcome_bind]. destruct (over_field_set 0 4 ino seg Hb) as [O1 O2 O3 O4]; [lia|lia|done|].
  set (b1 := over 0 (to_le 4 ino) seg) in *. change (Z.of_nat 4) with 4 in *.
  rewrite put_le_ok by lia. cbn [mbind outcome_bind]. destruct (over_field_set 4 2 (size seg) b1 O2) as [Q1 Q2 Q3 Q4]; [lia|lia|change (256 ^ Z.of_nat 2) with (2 ^ 16); lia|].
  set (b2 := over 4 (to_le 2 (size seg)) b1) in *. change (Z.of_nat 2) with 2 in *.
  assert (size [size name] = 1 /\ size [ft] = 1) as [L1 L2] by done.
  rewrite put_ok by lia. cbn [mbind outcome_bind]. set (b3 := over 6 [size name] b2).
  assert (size b3 = size seg) as S3 by (unfold b3; rewrite size_over; lia).
  rewrite put_ok by lia. cbn [mbind outcome_bind]. set (b4 := over 7 [ft] b3).
  assert (size b4 = size seg) as S4 by (unfold b4; rewrite size_over; lia).
  rewrite put_ok by lia. eexists. split; [done|]. split; [rewrite size_over; lia|]. split.
  { apply over_bytes; [done|]. apply over_bytes; [repeat constructor; lia|]. apply over_bytes; [repeat constructor; lia|done]. }
  split; cbn [new_rec r_ino r_len r_type r_name].
  - rewrite field_over_ne by lia. unfold b4. rewrite field_over_ne by lia. unfold b3. rewrite field_over_ne by lia. by rewrite Q4 by lia.
  - rewrite field_over_ne by lia. unfold b4. rewrite field_over_ne by lia. unfold b3. by rewrite field_over_ne by lia.
  - rewrite field_over_ne by lia. unfold b4. rewrite field_over_ne by lia. apply field_single. lia.
  - rewrite field_over_ne by lia. apply field_single. lia.
  - apply sub_over_eq; lia.
Qed.

(** The header of a record. *)
Lemma rec_reads {E} buf off r : rec_at buf off r -> rec_ok r -> 0 <= off -> off + r_len r <= size buf ->
  (size buf <? off + 8) = false /\ @get_le E off 4 buf = Ok (r_ino r) /\ @get_le E (off + 4) 2 buf = Ok (r_len r) /\ (r_len r <? 8) = false /\
  @byte E buf (off + 6) = Ok (size (r_name r)) /\ @byte E buf (off + 7) = Ok (r_type r) /\ @get E (off + 8) (size (r_name r)) buf = Ok (r_name r).
Proof.
  intros [R1 R2 R3 R4 R5] [K1 K2] Ho Hle. pose proof (size_nonneg (r_name r)).
  rewrite !get_le_ok, !byte_field, get_ok, R1, R2, R3, R4, R5 by lia.
  split_and!; try done; apply Z.ltb_ge; lia.
Qed.

Section scans.
Variables (ino ft : Z) (name : bytes).
Hypothesis Hino : 0 <= ino < 2 ^ 32.
Hypothesis Hft : 0 <= ft < 256.
Hypothesis Hname : size name < 256 /\ bytes_ok name.

(** [buf'] is [buf] with the chain from [off] on changed to [rs']. *)
Record rechained buf buf' (off : Z) rs' : Prop := {
  rc_size : size buf' = size buf;
  rc_bytes : bytes_ok buf';
  rc_before : sub 0 off buf' = sub 0 off buf;
  rc_chain : chain buf' off rs';
}.

Lemma rechained_cons buf buf' off r rs' : 0 <= off -> rec_at buf off r -> rec_ok r -> off + r_len r <= size buf -> rechained buf buf' (off + r_len r) rs' ->
  rechained buf buf' off (r :: rs').
Proof.
  intros Ho R K Hle [C1 C2 C3 C4]. pose proof (ro_len r K). pose proof (size_nonneg (r_name r)). split; try done.
  - apply (sub_narrow 0 (off + r_len r) 0 off); (done || lia).
  - cbn [chain]. split; [|split; [done|split; [lia|done]]].
    apply (rec_at_shift buf' off buf off (r_len r)); [done|done| |done|done]. apply (sub_narrow 0 (off + r_len r) off); (done || lia).
Qed.

Lemma add_reuse_ok buf off r rs : chain buf off (r :: rs) -> 0 <= off -> bytes_ok buf -> size buf < 2 ^ 16 -> 8 + size name <= r_len r ->
  exists s1 buf', @write_dirent Ext2Error (sub off (r_len r) buf) ino (wrap 16 (r_len r)) name ft = Ok s1 /\ size s1 = r_len r /\
    over off s1 buf = buf' /\ rechained buf buf' off (new_rec ino ft name (r_len r) :: rs).
Proof.
  intros (R & K & Hle & C) Ho Hb H16 Hfit. pose proof (size_nonneg name). destruct Hname as [Hn Hbn].
  assert (size (sub off (r_len r) buf) = r_len r) as Hss by (apply size_sub; lia).
  destruct (@write_dirent_ok Ext2Error (sub off (r_len r) buf) ino ft name) as (s1 & Hw & Hs1 & Hb1 & Hr1); [lia|lia|lia|done|done|by apply sub_bytes|done|].
  rewrite Hss in Hw, Hs1, Hr1. exists s1, (over off s1 buf). split; [done|]. split; [done|]. split; [done|].
  assert (size (over off s1 buf) = size buf) as Hso by (apply size_over; lia).
  split; [done|by apply over_bytes|apply sub_over_ne; lia|]. cbn [chain new_rec r_len]. split; [|split; [split; [done|apply K]|split; [lia|]]].
  - apply (rec_at_shift _ off s1 0 (r_len r)); [done|done| |done|done]. rewrite sub_over_eq, sub_all by (done || lia). done.
  - apply (chain_shift _ buf); [lia|done| |done]. rewrite Hso. apply sub_over_ne; lia.
Qed.

Lemma add_split_ok buf off r rs : chain buf off (r :: rs) -> 0 <= off -> bytes_ok buf -> size buf < 2 ^ 16 -> r_ino r <> 0 ->
  8 + size name <= r_len r - r_used r ->
  exists buf1 s1 buf', @put_le Ext2Error (off + 4) 2 (wrap 16 (r_used r)) buf = Ok buf1 /\ size buf1 = size buf /\
    @write_dirent Ext2Error (sub (off + r_used r) (r_len r - r_used r) buf1) ino (wrap 16 (r_len r - r_used r)) name ft = Ok s1 /\ size s1 = r_len r - r_used r /\
    over (off + r_used r) s1 buf1 = buf' /\ rechained buf buf' off (with_len r (r_used r) :: new_rec ino ft name (r_len r - r_used r) :: rs).
Proof.
  intros (R & K & Hle & C) Ho Hb H16 Hne Hfit. pose proof (size_nonneg name). pose proof (size_nonneg (r_name r)). destruct Hname as [Hn Hbn].
  destruct (r_used_ok r K) as (Hu & Hum & Hu8). specialize (Hu8 Hne). set (u := r_used r) in *.
  assert (wrap 16 u = u) as -> by (unfold wrap; apply Z.mod_small; lia).
  rewrite put_le_ok by lia. destruct (over_field_set (off + 4) 2 u buf Hb) as [O1 O2 O3 O4]; [lia|lia|change (256 ^ Z.of_nat 2) with (2 ^ 16); lia|].
  set (buf1 := over (off + 4) (to_le 2 u) buf) in *. change (Z.of_nat 2) with 2 in *. exists buf1.
  assert (size (sub (off + u) (r_len r - u) buf1) = r_len r - u) as Hss by (apply size_sub; lia).
  destruct (@write_dirent_ok Ext2Error (sub (off + u) (r_len r - u) buf1) ino ft name) as (s1 & Hw & Hs1 & Hb1 & Hr1); [lia|lia|lia|done|done|by apply sub_bytes|done|].
  rewrite Hss in Hw, Hs1, Hr1. exists s1, (over (off + u) s1 buf1). split; [done|]. split; [done|]. split; [done|]. split; [done|]. split; [done|].
  assert (size (over (off + u) s1 buf1) = size buf) as Hso by (rewrite size_over; lia).
  assert (forall a n, 0 <= a -> 0 <= n -> a + n <= off + 4 \/ off + 6 <= a -> a + n <= off + u \/ off + r_len r <= a ->
    sub a n (over (off + u) s1 buf1) = sub a n buf) as Hrest.
  { intros a n Ha Hn' Hd1 Hd2. rewrite sub_over_ne by lia. apply sub_over_ne; rewrite ?size_to_le; lia. }
  destruct R as [R1 R2 R3 R4 R5]. destruct K as [K1 K2]. split; [done|by apply over_bytes|apply Hrest; lia|].
  cbn [chain with_len new_rec r_len]. split; [|split; [split; done|split; [lia|]]]; [split; cbn [with_len r_ino r_len r_type r_name]|].
  - unfold field. rewrite Hrest by lia. done.
  - rewrite field_over_ne by lia. done.
  - unfold field. rewrite Hrest by lia. done.
  - unfold field. rewrite Hrest by lia. done.
  - rewrite Hrest by lia. done.
  - split; [|split; [split; [done|]|split; [lia|]]].
    + apply (rec_at_shift _ (off + u) s1 0 (r_len r - u)); [lia|done| |done|done]. rewrite sub_over_eq, sub_all by (done || lia). done.
    + cbn [new_rec r_len]. rewrite Zminus_mod, K2, Hum. done.
    + replace (off + u + (r_len r - u)) with (off + r_len r) by lia. apply (chain_shift _ buf); [lia|done| |done].
      rewrite Hso. apply Hrest; lia.
Qed.

Lemma add_scan_ok rs : forall n buf off, chain buf off rs -> 0 <= off -> bytes_ok buf -> size buf < 2 ^ 16 -> size buf - off <= Z.of_nat n ->
  match add_rec ino ft name rs with
  | Some rs' => exists buf', add_scan n (dirent_len (size name)) name ino ft buf off = Ok (Some buf') /\ rechained buf buf' off rs'
  | None => add_scan n (dirent_len (size name)) name ino ft buf off = Ok None
  end.
Proof.
  pose proof (dirent_len_bounds (size name) (size_nonneg name)) as [Hd _].
  induction rs as [|r rs IH]; intros n buf off C Ho Hb H16 Hfuel.
  { cbn [chain] in C. subst off. destruct n as [|n]; [done|]. cbn [add_rec add_scan]. by rewrite (proj2 (Z.ltb_lt _ _)) by lia. }
  pose proof C as (R & K & Hle & C'). pose proof (ro_len r K) as Hl. pose proof (size_nonneg (r_name r)) as Hn0.
  destruct n as [|n]; [lia|]. destruct (@rec_reads Ext2Error buf off r R K Ho Hle) as (E1 & E2 & E3 & E4 & E5 & _).
  cbn [add_rec add_scan]. rewrite E1, E2. cbn [mbind outcome_bind]. rewrite E3. cbn [mbind outcome_bind]. rewrite E4, E5. cbn [mbind outcome_bind].
  fold (r_used r). destruct (r_used_ok r K) as (Hu & _). rewrite chk_ok by (change (2 ^ 64) with (2 ^ 16 * 2 ^ 48); lia). cbn [mbind outcome_bind].
  destruct (Z.ltb_spec (r_len r - r_used r) (dirent_len (size name))) as [Hlt|Hge].
  - specialize (IH n buf (off + r_len r) C' ltac:(lia) Hb H16 ltac:(lia)).
    destruct (add_rec ino ft name rs) as [rs'|]; cbn [fmap option_fmap option_map]; [|done].
    destruct IH as (buf' & -> & Hc). exists buf'. split; [done|]. by apply rechained_cons.
  - destruct (Z.eqb_spec (r_ino r) 0) as [H0|Hne]; cbn [negb].
    + assert (r_used r = 0) as Hu0 by (unfold r_used; by rewrite H0). rewrite Hu0 in *.
      destruct (add_reuse_ok buf off r rs C Ho Hb H16 ltac:(lia)) as (s1 & buf' & Hw & Hs1 & Ho' & Hc).
      rewrite get_ok by lia. cbn [mbind outcome_bind]. rewrite Hw. cbn [mbind outcome_bind]. rewrite put_ok by lia. cbn [mbind outcome_bind].
      exists buf'. by rewrite Ho'.
    + destruct (add_split_ok buf off r rs C Ho Hb H16 Hne ltac:(lia)) as (buf1 & s1 & buf' & Hp & Hb1 & Hw & Hs1 & Ho' & Hc).
      rewrite Hp. cbn [mbind outcome_bind]. rewrite get_ok by lia. cbn [mbind outcome_bind]. rewrite Hw. cbn [mbind outcome_bind].
      rewrite put_ok by lia. cbn [mbind outcome_bind]. exists buf'. by rewrite Ho'.
Qed.

End scans.

(** ** Removing *)

Lemma found_ok buf off r name : rec_at buf off r -> rec_ok r -> 0 <= off -> off + r_len r <= size buf ->
  (if negb (r_ino r =? 0) && (size (r_name r) =? size name) && (off + 8 + size (r_name r) <=? size buf)
   then stored ← get (off + 8) (size (r_name r)) buf; Ok (bool_decide (stored = name)) else Ok false) = @Ok Empty_set bool (is_named name r).
Proof.
  intros R K Ho Hle. destruct (@rec_reads Empty_set buf off r R K Ho Hle) as (_ & _ & _ & _ & _ & _ & E7). pose proof (ro_len r K).
  unfold is_named. destruct (r_ino r =? 0); cbn [negb andb]; [done|]. rewrite (proj2 (Z.leb_le _ _)) by lia. rewrite andb_true_r.
  destruct (Z.eqb_spec (size (r_name r)) (size name)) as [He|Hne].
  - rewrite E7. cbn [mbind outcome_bind]. done.
  - rewrite bool_decide_false by congruence. done.
Qed.

(** One round of the scan. *)
Lemma remove_round n name buf off prev r : rec_at buf off r -> rec_ok r -> 0 <= off -> off + r_len r <= size buf ->
  remove_scan (S n) name buf off prev =
    if is_named name r then
      buf1 ← match prev with
             | Some p => p_rec_len ← get_le (p + 4) 2 buf; put_le (p + 4) 2 (wrap 16 (p_rec_len + r_len r)) buf
             | None => put_le off 4 0 buf
             end;
      Ok (Some (buf1, (r_ino r, r_type r)))
    else remove_scan n name buf (off + r_len r) (Some off).
Proof.
  intros R K Ho Hle. destruct (@rec_reads Empty_set buf off r R K Ho Hle) as (E1 & E2 & E3 & E4 & E5 & E6 & _).
  cbn [remove_scan]. rewrite E1, E2. cbn [mbind outcome_bind]. rewrite E3. cbn [mbind outcome_bind]. rewrite E4, E5. cbn [mbind outcome_bind].
  rewrite E6. cbn [mbind outcome_bind]. rewrite (found_ok buf off r name) by done. done.
Qed.

(** Growing the record at [p] over the one after it. *)
Lemma merge_ok buf p pr off r rs : rec_at buf p pr -> rec_ok pr -> 0 <= p -> off = p + r_len pr -> chain buf off (r :: rs) -> bytes_ok buf -> size buf < 2 ^ 16 ->
  exists buf', @get_le Empty_set (p + 4) 2 buf = Ok (r_len pr) /\ @put_le Empty_set (p + 4) 2 (wrap 16 (r_len pr + r_len r)) buf = Ok buf' /\
    rechained buf buf' p (with_len pr (r_len pr + r_len r) :: rs).
Proof.
  intros R K Hp -> (R' & K' & Hle & C) Hb H16. pose proof (ro_len r K'). pose proof (size_nonneg (r_name r)). pose proof (ro_len pr K). pose proof (size_nonneg (r_name pr)).
  assert (wrap 16 (r_len pr + r_len r) = r_len pr + r_len r) as -> by (unfold wrap; apply Z.mod_small; lia).
  destruct (over_field_set (p + 4) 2 (r_len pr + r_len r) buf Hb) as [O1 O2 O3 O4]; [lia|lia|change (256 ^ Z.of_nat 2) with (2 ^ 16); lia|].
  rewrite put_le_ok by lia. set (buf' := over (p + 4) (to_le 2 (r_len pr + r_len r)) buf) in *. change (Z.of_nat 2) with 2 in *. exists buf'.
  destruct R as [R1 R2 R3 R4 R5]. split; [rewrite get_le_ok by lia; by rewrite R2|]. split; [done|].
  split; [done|done|apply sub_over_ne; rewrite ?size_to_le; lia|].
  cbn [chain with_len r_len]. split; [split; cbn [with_len r_ino r_len r_type r_name]|split; [split; cbn [with_len r_len r_name]|split; [lia|]]].
  - by rewrite O4 by lia.
  - done.
  - by rewrite O4 by lia.
  - by rewrite O4 by lia.
  - rewrite <- R5 at 2. apply sub_over_ne; rewrite ?size_to_le; lia.
  - lia.
  - rewrite Zplus_mod, (ro_align pr K), (ro_align r K'). done.
  - rewrite Z.add_assoc. apply (chain_shift _ buf); [lia|done| |done]. apply sub_over_ne; rewrite ?size_to_le; lia.
Qed.

Lemma remove_after_ok name rs : forall n buf p pr off, rec_at buf p pr -> rec_ok pr -> 0 <= p -> off = p + r_len pr -> chain buf off rs ->
  bytes_ok buf -> size buf < 2 ^ 16 -> size buf - off <= Z.of_nat n ->
  match remove_after name pr rs with
  | Some (rs', r) => exists buf', remove_scan n name buf off (Some p) = Ok (Some (buf', (r_ino r, r_type r))) /\ rechained buf buf' p rs'
  | None => remove_scan n name buf off (Some p) = Ok None
  end.
Proof.
  induction rs as [|r rs IH]; intros n buf p pr off R K Hp Hoff C Hb H16 Hfuel; pose proof (ro_len pr K); pose proof (size_nonneg (r_name pr)).
  { cbn [chain] in C. destruct n as [|n]; [done|]. cbn [remove_after remove_scan]. by rewrite (proj2 (Z.ltb_lt _ _)) by lia. }
  pose proof C as (R' & K' & Hle & C'). pose proof (ro_len r K') as Hl. pose proof (size_nonneg (r_name r)) as Hn0.
  destruct n as [|n]; [lia|]. rewrite (remove_round n name buf off (Some p) r) by (done || lia). cbn [remove_after].
  destruct (is_named name r).
  - destruct (merge_ok buf p pr off r rs) as (buf' & E1 & E2 & Hc); try done.
    rewrite E1. cbn [mbind outcome_bind]. rewrite E2. cbn [mbind outcome_bind]. by exists buf'.
  - specialize (IH n buf off r (off + r_len r) R' K' ltac:(lia) eq_refl C' Hb H16 ltac:(lia)).
    destruct (remove_after name r rs) as [[rs' e]|]; cbn [mbind option_bind]; [|done].
    destruct IH as (buf' & -> & Hc). exists buf'. split; [done|]. subst off. apply rechained_cons; (done || lia).
Qed.

Lemma remove_scan_ok name rs buf : chain buf 0 rs -> bytes_ok buf -> size buf < 2 ^ 16 ->
  match remove_rec name rs with
  | Some (rs', r) => exists buf', remove_scan (length buf) name buf 0 None = Ok (Some (buf', (r_ino r, r_type r))) /\ rechained buf buf' 0 rs'
  | None => remove_scan (length buf) name buf 0 None = Ok None
  end.
Proof.
  intros C Hb H16. destruct rs as [|r rs]; cbn [remove_rec].
  { cbn [chain] in C. unfold size in C. destruct buf; done. }
  pose proof C as (R & K & Hle & C'). pose proof (ro_len r K) as Hl. pose proof (size_nonneg (r_name r)) as Hn0.
  assert (exists n, length buf = S n) as [n Hn]. { destruct buf as [|? buf]; [unfold size in *; cbn in Hle; lia|]. by exists (length buf). }
  rewrite Hn, (remove_round n name buf 0 None r) by (done || lia). destruct (is_named name r).
  - rewrite put_le_ok by lia. destruct (over_field_set 0 4 0 buf Hb) as [O1 O2 O3 O4]; [lia|lia|done|]. set (buf' := over 0 (to_le 4 0) buf) in *.
    change (Z.of_nat 4) with 4 in *. exists buf'. split; [done|]. destruct R as [R1 R2 R3 R4 R5]. split; [done|done|done|]. cbn [chain with_ino r_len].
    split; [split; cbn [with_ino r_ino r_len r_type r_name]|split; [split; apply K|split; [lia|]]]; [done|by rewrite O4 by lia|by rewrite O4 by lia|by rewrite O4 by lia| |].
    + rewrite <- R5 at 2. apply sub_over_ne; rewrite ?size_to_le; lia.
    + apply (chain_shift _ buf); [lia|done| |done]. apply sub_over_ne; rewrite ?size_to_le; lia.
  - apply (remove_after_ok name rs n buf 0 r (0 + r_len r)); try done. unfold size in *. lia.
Qed.

(** ** Listing *)

Definition parsed r : ParsedDirent := mkDirent (r_ino r) (r_len r) (r_type r) (r_name r).

Lemma list_scan_ok rs : forall n buf off acc, chain buf off rs -> 0 <= off -> size buf - off <= Z.of_nat n ->
  list_scan n buf off acc = Ok (acc ++ (rs ≫= fun r => listed (Some (parsed r)))).
Proof.
  induction rs as [|r rs IH]; intros n buf off acc C Ho Hfuel.
  { cbn [chain] in C. destruct n as [|n]; cbn; [by rewrite app_nil_r|]. rewrite (proj2 (Z.ltb_lt _ _)) by lia. by rewrite app_nil_r. }
  destruct C as (R & K & Hle & C'). pose proof (ro_len r K) as Hl. pose proof (size_nonneg (r_name r)) as Hn0.
  destruct n as [|n]; [lia|]. destruct (@rec_reads Empty_set buf off r R K Ho Hle) as (E1 & E2 & E3 & E4 & E5 & E6 & E7).
  cbn [list_scan]. rewrite E1, E3. cbn [mbind outcome_bind]. rewrite E4. unfold parse_dirent. rewrite E1, E2. cbn [mbind outcome_bind].
  rewrite E3. cbn [mbind outcome_bind]. rewrite E4, E5. cbn [mbind outcome_bind]. rewrite E6. cbn [mbind outcome_bind].
  rewrite (proj2 (Z.ltb_ge _ _)) by lia. rewrite E7. cbn [mbind outcome_bind]. rewrite IH by (done || lia). cbn [mbind list_bind].
  by rewrite <- app_assoc.
Qed.

(** ** Entries *)

Lemma entries_app rs rs' : entries (rs ++ rs') = entries rs ++ entries rs'.
Proof. unfold entries, live. by rewrite filter_app, fmap_app. Qed.

Lemma entries_cons r rs : entries (r :: rs) = (if r_ino r =? 0 then [] else [entry r]) ++ entries rs.
Proof.
  unfold entries, live. rewrite filter_cons. destruct (Z.eqb_spec (r_ino r) 0) as [H0|Hn]; [rewrite decide_False by tauto; done|].
  by rewrite decide_True.
Qed.

(** An entry is added somewhere, and nothing else changes. *)
Lemma add_rec_entries ino ft name rs : ino <> 0 -> forall rs', add_rec ino ft name rs = Some rs' ->
  exists l1 l2, entries rs = l1 ++ l2 /\ entries rs' = l1 ++ (ino, ft, name) :: l2.
Proof.
  intros Hi. induction rs as [|r rs IH]; intros rs'; cbn [add_rec]; [done|].
  destruct (_ <? _).
  - destruct (add_rec ino ft name rs) as [rs1|]; cbn [fmap option_fmap option_map]; [|done]. intros [= <-].
    destruct (IH rs1 eq_refl) as (l1 & l2 & H1 & H2). rewrite !entries_cons, H1, H2.
    exists ((if r_ino r =? 0 then [] else [entry r]) ++ l1), l2. by rewrite <- !app_assoc.
  - destruct (Z.eqb_spec (r_ino r) 0) as [H0|Hn]; intros [= <-]; rewrite !entries_cons; cbn [new_rec with_len r_ino entry r_type r_name].
    + rewrite H0, (proj2 (Z.eqb_neq _ _) Hi). exists [], (entries rs). done.
    + rewrite (proj2 (Z.eqb_neq _ _) Hi), (proj2 (Z.eqb_neq _ _) Hn). exists [entry r], (entries rs). done.
Qed.

Definition named (name : bytes) (e : Z * Z * bytes) : Prop := e.2 = name.

Lemma is_named_live name r : is_named name r = true -> r_ino r <> 0 /\ r_name r = name.
Proof. unfold is_named. rewrite andb_true_iff, negb_true_iff, Z.eqb_neq, bool_decide_eq_true. done. Qed.

Lemma not_named name r : is_named name r = false -> Forall (fun e => ~ named name e) (if r_ino r =? 0 then [] else [entry r]).
Proof.
  unfold is_named. destruct (Z.eqb_spec (r_ino r) 0); cbn [negb andb]; [done|]. intros Hn%bool_decide_eq_false. by apply Forall_singleton.
Qed.

(** The first entry with the name is removed, and nothing else changes. *)
Lemma remove_after_entries name rs : forall p,
  match remove_after name p rs with
  | Some (rs', r) => is_named name r = true /\ exists l1 l2,
      entries rs = l1 ++ entry r :: l2 /\ entries rs' = (if r_ino p =? 0 then [] else [entry p]) ++ l1 ++ l2 /\ Forall (fun e => ~ named name e) l1
  | None => Forall (fun e => ~ named name e) (entries rs)
  end.
Proof.
  induction rs as [|r rs IH]; intros p; cbn [remove_after]; [by apply Forall_nil|]. rewrite entries_cons.
  destruct (is_named name r) eqn:Hr.
  - split; [done|]. destruct (is_named_live _ _ Hr) as [Hi _]. rewrite (proj2 (Z.eqb_neq _ _) Hi). exists [], (entries rs).
    rewrite entries_cons. cbn [with_len r_ino]. split; [done|]. split; [done|]. apply Forall_nil. done.
  - specialize (IH r). pose proof (not_named _ _ Hr) as Hno. destruct (remove_after name r rs) as [[rs' e]|]; cbn [mbind option_bind].
    + destruct IH as (He & l1 & l2 & H1 & H2 & H3). split; [done|]. exists ((if r_ino r =? 0 then [] else [entry r]) ++ l1), l2.
      rewrite entries_cons, H1, H2, <- !app_assoc. split; [done|]. split; [done|]. by apply Forall_app.
    + by apply Forall_app.
Qed.

Lemma remove_rec_entries name rs :
  match remove_rec name rs with
  | Some (rs', r) => is_named name r = true /\ exists l1 l2,
      entries rs = l1 ++ entry r :: l2 /\ entries rs' = l1 ++ l2 /\ Forall (fun e => ~ named name e) l1
  | None => Forall (fun e => ~ named name e) (entries rs)
  end.
Proof.
  destruct rs as [|r rs]; cbn [remove_rec]; [by apply Forall_nil|]. rewrite entries_cons. destruct (is_named name r) eqn:Hr.
  - split; [done|]. destruct (is_named_live _ _ Hr) as [Hi _]. rewrite (proj2 (Z.eqb_neq _ _) Hi). exists [], (entries rs).
    rewrite entries_cons. split; [done|]. split; [done|]. by apply Forall_nil.
  - pose proof (remove_after_entries name rs r) as IH. pose proof (not_named _ _ Hr) as Hno.
    destruct (remove_after name r rs) as [[rs' e]|]; [|by apply Forall_app].
    destruct IH as (He & l1 & l2 & H1 & H2 & H3). split; [done|]. exists ((if r_ino r =? 0 then [] else [entry r]) ++ l1), l2.
    rewrite H1, H2, <- !app_assoc. split; [done|]. split; [done|]. by apply Forall_app.
Qed.

(** ** Directories *)

Section dir.
Context {D : Type} `{BlockDevice D}.
Variable sb : Superblock.
Hypothesis G : geom_ok sb.
Implicit Types (d : D) (raw : bytes) (bss : list (list rec)).

Let bs := block_size sb.

(** [bss] are the records of the blocks of the directory, which has no holes. *)
Record dir_ok d raw bss : Prop := {
  do_type : regular raw = false;
  do_count : Z.of_nat (length bss) = (fsize raw + bs - 1) / bs;
  do_max : Z.of_nat (length bss) <= max_blocks sb;
  do_block : forall (i : nat) rs, bss !! i = Some rs ->
    file_block sb d raw (Z.of_nat i) <> 0 /\ chain (blk sb d (file_block sb d raw (Z.of_nat i))) 0 rs;
}.

Definition dir_entries bss : list (Z * Z * bytes) := bss ≫= entries.

Lemma fsize_small raw : size raw = inode_size sb -> bytes_ok raw -> regular raw = false -> 0 <= fsize raw < 2 ^ 32.
Proof.
  intros Hs Hb Hr. destruct (g_isize sb G) as [Hz _]. unfold fsize. rewrite Hr. apply (field_bound 4 4); [done|lia|lia|lia].
Qed.

Lemma dir_blocks_ok d raw bss : file_ok sb d raw -> dir_ok d raw bss ->
  dir_blocks sb raw = Ok (Z.of_nat (length bss)) /\ wrap 32 (Z.of_nat (length bss)) = Z.of_nat (length bss).
Proof.
  intros Hf Hd. destruct (g_isize sb G) as [Hz _]. pose proof (bs_bounds sb G) as [Hbs _]. fold bs in Hbs.
  pose proof (fsize_small raw (f_size _ _ _ Hf) (f_bytes _ _ _ Hf) (do_type _ _ _ Hd)) as Hfs.
  unfold dir_blocks. rewrite (inode_size_ok sb) by (rewrite (f_size _ _ _ Hf); lia). cbn [mbind outcome_bind].
  fold bs. change (2 ^ 32) with 4294967296 in *. rewrite !chk_ok by (change (2 ^ 64) with (4294967296 * 4294967296); lia). cbn [mbind outcome_bind].
  rewrite chk_ok by (change (2 ^ 64) with (4294967296 * 4294967296); lia). cbn [mbind outcome_bind].
  rewrite (proj2 (Z.eqb_neq _ _)) by lia. rewrite (do_count _ _ _ Hd). split; [done|]. unfold wrap. apply Z.mod_small.
  split; [apply Z.div_pos; lia|]. apply Z.div_lt_upper_bound; [lia|]. change (2 ^ 32) with 4294967296. lia.
Qed.

(** The block of index [i], which is there. *)
Record dir_block_at d raw (i : Z) (s q : Z) : Prop := {
  db_slot : find_slot sb i = Some (s, q);
  db_key : key_ok sb s (depth s) q;
  db_node : file_block sb d raw i = node sb d raw s (depth s) q;
  db_size : size (blk sb d (file_block sb d raw i)) = bs;
  db_bytes : bytes_ok (blk sb d (file_block sb d raw i));
  db_valid : valid sb (file_block sb d raw i);
  db_data : data sb d raw s q = blk sb d (file_block sb d raw i);
}.

Lemma dir_block_ok d raw i : vol_ok sb d -> file_ok sb d raw -> 0 <= i -> file_block sb d raw i <> 0 -> exists s q, dir_block_at d raw i s q.
Proof.
  intros Hv Hf Hi Hn. unfold file_block in Hn |- *. destruct (find_slot sb i) as [[s q]|] eqn:Hs; [|done].
  pose proof (find_slot_ok sb G i s q Hi Hs) as Hk. pose proof (mapped_valid sb G _ (proj1 (f_data _ _ _ Hf s _ q Hk Hn))) as Hval.
  exists s, q. assert (file_block sb d raw i = node sb d raw s (depth s) q) as He by (unfold file_block; by rewrite Hs).
  split; rewrite ?He; try done; [apply (size_blk sb G); [apply Hv|done]|apply (blk_bytes sb); apply Hv|].
  unfold data. by rewrite (proj2 (Z.eqb_neq _ _) Hn).
Qed.

Lemma block_small buf : size buf = bs -> size buf < 2 ^ 16.
Proof. intros ->. pose proof (bs_bounds sb G) as [Hbs _]. fold bs in Hbs. change (2 ^ 16) with 65536. lia. Qed.

(** Listing. *)
Lemma list_blocks_ok d raw : vol_ok sb d -> file_ok sb d raw -> forall bss (i : nat) acc,
  (forall (j : nat) rs, bss !! j = Some rs ->
    file_block sb d raw (Z.of_nat (i + j)) <> 0 /\ chain (blk sb d (file_block sb d raw (Z.of_nat (i + j)))) 0 rs) ->
  list_blocks sb (length bss) raw (Z.of_nat i) acc d = Ok (d, inl (acc ++ (concat bss ≫= fun r => listed (Some (parsed r))))).
Proof.
  intros Hv Hf bss. induction bss as [|rs bss IH]; intros i acc Hc; cbn [list_blocks length concat mbind list_bind]; [by rewrite app_nil_r|].
  destruct (Hc 0%nat rs eq_refl) as [Hn H0]. rewrite Nat.add_0_r in Hn, H0. assert (Z.of_nat i + 1 = Z.of_nat (S i)) as -> by lia.
  rewrite (bind_run _ _ _ _ _ (block_for_index_ok sb G d raw (Z.of_nat i) Hv Hf ltac:(lia))).
  rewrite (nonzero_ne _ Hn). destruct (dir_block_ok d raw (Z.of_nat i) Hv Hf ltac:(lia) Hn) as (s & q & [B1 B2 B3 B4 B5 B6 B7]).
  rewrite (bind_run _ _ _ _ _ (block_vec_ok sb G d _ (v_dev sb d Hv) B6)).
  rewrite (bind_lift _ _ _ (acc ++ (rs ≫= fun r => listed (Some (parsed r))))) by (apply list_scan_ok; [done|done|unfold size; lia]).
  rewrite IH; [by rewrite <- app_assoc, bind_app|].
  intros j rs' Hj. replace (S i + j)%nat with (i + S j)%nat by lia. by apply Hc.
Qed.

Lemma read_dir_entries_ok d raw bss : vol_ok sb d -> file_ok sb d raw -> dir_ok d raw bss ->
  read_dir_entries sb raw d = Ok (d, inl (concat bss ≫= fun r => listed (Some (parsed r)))).
Proof.
  intros Hv Hf Hd. destruct (dir_blocks_ok d raw bss Hf Hd) as [Hb Hw]. unfold read_dir_entries. rewrite (bind_lift _ _ _ _ Hb), Hw, Nat2Z.id.
  apply (list_blocks_ok d raw Hv Hf bss 0 []). intros j rs Hj. by apply (do_block _ _ _ Hd).
Qed.

(** One block of the directory is replaced. *)
Lemma dir_set_ok d raw bss (i : nat) rs rs' buf' s q : vol_ok sb d -> file_ok sb d raw -> dir_ok d raw bss -> bss !! i = Some rs ->
  dir_block_at d raw (Z.of_nat i) s q -> file_block sb d raw (Z.of_nat i) <> 0 -> rechained (blk sb d (file_block sb d raw (Z.of_nat i))) buf' 0 rs' ->
  exists d', write_block sb (file_block sb d raw (Z.of_nat i)) buf' d = Ok (d', inl ()) /\ data_set sb d d' raw s q buf' /\ dir_ok d' raw (<[i := rs']> bss).
Proof.
  intros Hv Hf Hd Hi [B1 B2 B3 B4 B5 B6 B7] Hn [C1 C2 C3 C4]. rewrite B3 in *.
  destruct (data_set_ok sb G d raw s q buf' Hv Hf B2 Hn) as (d' & He & Hset); [lia|done|]. exists d'. split; [done|]. split; [done|].
  assert (forall k, 0 <= k -> file_block sb d' raw k = file_block sb d raw k) as Hfb.
  { intros k Hk. unfold file_block. destruct (find_slot sb k) as [[s' q']|] eqn:Hs; [|done].
    apply (ds_node _ _ _ _ _ _ _ Hset). by apply (find_slot_ok sb G k). }
  split; [apply Hd|rewrite length_insert; apply Hd|rewrite length_insert; apply Hd|].
  intros k rsk Hk. rewrite Hfb by lia. destruct (decide (k = i)) as [->|Hne].
  - rewrite list_lookup_insert_eq in Hk by (by eapply lookup_lt_Some). injection Hk as <-. rewrite B3. split; [done|].
    pose proof (ds_data _ _ _ _ _ _ _ Hset s q B2) as Hdat. rewrite decide_True in Hdat by done. unfold data in Hdat.
    rewrite (ds_node _ _ _ _ _ _ _ Hset) in Hdat by done. rewrite (proj2 (Z.eqb_neq _ _) Hn) in Hdat. by rewrite Hdat.
  - rewrite list_lookup_insert_ne in Hk by done. destruct (do_block _ _ _ Hd k rsk Hk) as [Hnk Hold]. split; [done|].
    destruct (dir_block_ok d raw (Z.of_nat k) Hv Hf ltac:(lia) Hnk) as (s' & q' & [B1' B2' B3' B4' B5' B6' B7']).
    rewrite (ds_frame _ _ _ _ _ _ _ Hset); [done|done|]. rewrite B3'. rewrite B3' in Hnk. intros Heq.
    destruct (f_inj _ _ _ Hf _ _ _ _ _ _ B2' B2 Hnk Heq) as (-> & _ & ->). apply Hne.
    apply Nat2Z.inj. by apply (find_slot_inj sb _ _ s q); [lia|lia|..].
Qed.

(** Adding to an existing block. *)
Lemma add_blocks_ok d raw all ino ft name : vol_ok sb d -> file_ok sb d raw -> dir_ok d raw all ->
  0 <= ino < 2 ^ 32 -> 0 <= ft < 256 -> size name < 256 /\ bytes_ok name -> forall bss (i : nat),
  drop i all = bss ->
  exists d' placed, add_blocks sb (length bss) (dirent_len (size name)) name ino ft raw (Z.of_nat i) d = Ok (d', inl placed) /\
    if placed then exists (k : nat) rs rs' s q buf', all !! k = Some rs /\ add_rec ino ft name rs = Some rs' /\ key_ok sb s (depth s) q /\
        node sb d raw s (depth s) q <> 0 /\ data_set sb d d' raw s q buf' /\ dir_ok d' raw (<[k := rs']> all)
    else d' = d.
Proof.
  intros Hv Hf Hd Hi Hft Hname bss. induction bss as [|rs bss IH]; intros i Hdrop; cbn [add_blocks length]; [by exists d, false|].
  assert (all !! i = Some rs) as Hat by (rewrite <- (Nat.add_0_r i), <- lookup_drop, Hdrop; done).
  destruct (do_block _ _ _ Hd i rs Hat) as [Hn Hc].
  rewrite (bind_run _ _ _ _ _ (block_for_index_ok sb G d raw (Z.of_nat i) Hv Hf ltac:(lia))), (nonzero_ne _ Hn).
  destruct (dir_block_ok d raw (Z.of_nat i) Hv Hf ltac:(lia) Hn) as (s & q & B). pose proof B as [B1 B2 B3 B4 B5 B6 B7].
  rewrite (bind_run _ _ _ _ _ (block_vec_ok sb G d _ (v_dev sb d Hv) B6)).
  pose proof (add_scan_ok ino ft name Hi Hft Hname rs (length (blk sb d (file_block sb d raw (Z.of_nat i)))) _ 0 Hc ltac:(lia) B5 (block_small _ B4)) as Hs.
  specialize (Hs ltac:(unfold size; lia)). destruct (add_rec ino ft name rs) as [rs'|] eqn:Hadd.
  - destruct Hs as (buf' & Hs & Hre). rewrite (bind_run _ _ d d (Some buf')) by (unfold of_outcome; by rewrite Hs).
    destruct (dir_set_ok d raw all i rs rs' buf' s q Hv Hf Hd Hat B Hn Hre) as (d' & Hw & Hset & Hd'). rewrite (bind_run _ _ _ _ _ Hw).
    exists d', true. split; [done|]. exists i, rs, rs', s, q, buf'. rewrite B3 in Hn. done.
  - rewrite (bind_run _ _ d d None) by (unfold of_outcome; by rewrite Hs). assert (Z.of_nat i + 1 = Z.of_nat (S i)) as -> by lia.
    apply IH. rewrite (drop_S all rs i Hat) in Hdrop. by injection Hdrop.
Qed.

(** Growing the file leaves the directory as it is. *)
Lemma dir_grows d raw d' raw' bss : vol_ok sb d -> file_ok sb d raw -> grows sb d raw d' raw' -> dir_ok d raw bss -> dir_ok d' raw' bss.
Proof.
  intros Hv Hf [Hev Hdat] [D1 D2 D3 D4]. destruct (evolves_fsize sb d raw d' raw' Hev) as [Hr Hs].
  split; [congruence|by rewrite Hs|done|]. intros i rs Hi. destruct (D4 i rs Hi) as [Hn Hc].
  destruct (dir_block_ok d raw (Z.of_nat i) Hv Hf ltac:(lia) Hn) as (s & q & [B1 B2 B3 B4 B5 B6 B7]).
  assert (file_block sb d' raw' (Z.of_nat i) = file_block sb d raw (Z.of_nat i)) as Hfb.
  { unfold file_block. rewrite B1. apply (ev_node _ _ _ _ _ Hev); [done|congruence]. }
  rewrite Hfb. split; [done|]. specialize (Hdat s q B2). rewrite B7 in Hdat. unfold data in Hdat.
  rewrite (ev_node _ _ _ _ _ Hev), <- B3, (proj2 (Z.eqb_neq _ _) Hn) in Hdat by congruence. by rewrite Hdat.
Qed.

(** A new last block holding one entry. *)
Lemma new_block_chain ino ft name : 0 <= ino < 2 ^ 32 -> 0 <= ft < 256 -> size name < 256 -> bytes_ok name ->
  exists buf, write_dirent (replicate (Z.to_nat bs) 0) ino (wrap 16 bs) name ft = @Ok Empty_set _ buf /\ size buf = bs /\ bytes_ok buf /\
    chain buf 0 [new_rec ino ft name bs].
Proof.
  intros Hi Ht Hn Hb. pose proof (bs_bounds sb G) as (Hbs & _ & Hm). fold bs in Hbs, Hm. change (2 ^ 16) with 65536.
  assert (size (replicate (Z.to_nat bs) 0) = bs) as Hs by (apply size_replicate; lia).
  destruct (@write_dirent_ok Empty_set (replicate (Z.to_nat bs) 0) ino ft name) as (buf & Hw & S1 & B1 & R1);
    rewrite ?Hs; try (done || (change (2 ^ 16) with 65536; lia) || apply zeros_bytes).
  rewrite Hs in *. exists buf. split; [done|]. split; [done|]. split; [done|]. cbn [chain new_rec r_len]. split; [done|].
  split; [|lia]. split; cbn [new_rec r_len r_name]; [lia|]. unfold bs. by destruct (g_bs sb G) as [->|[->| ->]].
Qed.

(** The last step of growing: the new block is written, then the inode. *)
Lemma dir_append_ok d raw bss ino (k : nat) rs buf s q : vol_ok sb d -> file_ok sb d raw -> dir_ok d raw bss -> is_ino sb ino ->
  k = length bss -> find_slot sb (Z.of_nat k) = Some (s, q) -> file_block sb d raw (Z.of_nat k) <> 0 -> size buf = bs -> bytes_ok buf -> chain buf 0 rs ->
  (Z.of_nat k + 1) * bs < 2 ^ 32 ->
  exists d1 raw1 d2, write_block sb (file_block sb d raw (Z.of_nat k)) buf d = Ok (d1, inl ()) /\ evolves sb d raw d1 raw /\
    set_size raw ((Z.of_nat k + 1) * bs) = Ok raw1 /\ write_inode sb ino raw1 d1 = Ok (d2, inl ()) /\ inode_written sb d1 d2 ino raw1 /\
    file_ok sb d2 raw1 /\ dir_ok d2 raw1 (bss ++ [rs]).
Proof.
  intros Hv Hf Hd Hino Hk Hs Hn Hsz Hb Hc H32. pose proof (bs_bounds sb G) as [Hbs _]. fold bs in Hbs. destruct (g_isize sb G) as [Hz _].
  destruct (dir_block_ok d raw (Z.of_nat k) Hv Hf ltac:(lia) Hn) as (s' & q' & [B1 B2 B3 B4 B5 B6 B7]).
  assert (s' = s /\ q' = q) as [-> ->] by (split; congruence). rewrite B3 in Hn |- *.
  destruct (data_set_ok sb G d raw s q buf Hv Hf B2 Hn Hsz Hb) as (d1 & Hw & Hset). exists d1.
  destruct (set_size_ok sb raw ((Z.of_nat k + 1) * bs)) as (raw1 & Hss & [S1 S2 S3 S4 S5]);
    [rewrite (f_size _ _ _ Hf); lia|apply Hf|change (2 ^ 64) with (2 ^ 32 * 2 ^ 32); lia|]. exists raw1.
  pose proof (ds_vol _ _ _ _ _ _ _ Hset) as Hv1. pose proof (ds_file _ _ _ _ _ _ _ Hset) as Hf1.
  destruct (write_back_ok sb G d1 raw raw1 ino Hv1 Hf1 Hino S1 S2 S3) as (d2 & Hwi & W & Hf2 & Hnode & _). exists d2.
  split; [done|]. split; [by apply (data_set_evolves sb G d d1 raw s q buf)|]. split; [done|]. split; [done|]. split; [done|]. split; [done|].
  assert (forall i, 0 <= i -> file_block sb d2 raw1 i = file_block sb d raw i) as Hfb.
  { intros i Hi. unfold file_block. destruct (find_slot sb i) as [[s1 q1]|] eqn:Hs1; [|done]. pose proof (find_slot_ok sb G i s1 q1 Hi Hs1).
    rewrite Hnode by done. by apply (ds_node _ _ _ _ _ _ _ Hset). }
  assert (forall i, 0 <= i -> file_block sb d raw i <> 0 -> blk sb d2 (file_block sb d raw i) = if i =? Z.of_nat k then buf else blk sb d (file_block sb d raw i)) as Hblk.
  { intros i Hi Hni. destruct (dir_block_ok d raw i Hv Hf Hi Hni) as (s1 & q1 & [B1' B2' B3' B4' B5' B6' B7']). rewrite B3' in Hni.
    destruct (f_data _ _ _ Hf s1 _ q1 B2' Hni) as (_ & _ & Hnm).
    rewrite (iw_blk _ _ _ _ _ W); [|done|rewrite B3'; by rewrite (ptrs_meta sb d d1) by apply Hset].
    pose proof (ds_data _ _ _ _ _ _ _ Hset s1 q1 B2') as Hdat. unfold data in Hdat. rewrite (ds_node _ _ _ _ _ _ _ Hset) in Hdat by done.
    rewrite (proj2 (Z.eqb_neq _ _) Hni), <- B3' in Hdat. rewrite Hdat. destruct (Z.eqb_spec i (Z.of_nat k)) as [->|Hne].
    - rewrite decide_True; [done|]. split; congruence.
    - rewrite decide_False; [done|]. intros [-> ->]. apply Hne. by apply (find_slot_inj sb i (Z.of_nat k) s q); [lia|lia|..]. }
  destruct Hd as [D1 D2 D3 D4]. split.
  - congruence.
  - rewrite length_app. cbn [length]. rewrite S5 by (by right). replace ((Z.of_nat k + 1) * bs + bs - 1) with (bs - 1 + (Z.of_nat k + 1) * bs) by lia.
    rewrite Z.div_add, Z.div_small by lia. lia.
  - rewrite length_app. cbn [length]. destruct (Z.lt_ge_cases (Z.of_nat k) (max_blocks sb)) as [|Hge]; [lia|].
    apply (find_slot_None sb G (Z.of_nat k)) in Hge; [congruence|lia].
  - intros i rsi Hi. rewrite Hfb by lia. destruct (decide (i = k)) as [->|Hne].
    + rewrite lookup_app_r, Hk, Nat.sub_diag in Hi by lia. injection Hi as <-. split; [by rewrite B3|]. rewrite Hblk by (rewrite ?B3; (done || lia)).
      by rewrite Z.eqb_refl.
    + assert (i < length bss)%nat as Hlt. { apply lookup_lt_Some in Hi. rewrite length_app in Hi. cbn in Hi. lia. }
      rewrite lookup_app_l in Hi by done. destruct (D4 i rsi Hi) as [Hni Hci]. split; [done|]. rewrite Hblk by (done || lia).
      by rewrite (proj2 (Z.eqb_neq _ _)) by lia.
Qed.

(** The entries before, in and after a block. *)
Lemma entries_at bss (k : nat) rs rs' : bss !! k = Some rs ->
  dir_entries bss = (take k bss ≫= entries) ++ entries rs ++ (drop (S k) bss ≫= entries) /\
  dir_entries (<[k := rs']> bss) = (take k bss ≫= entries) ++ entries rs' ++ (drop (S k) bss ≫= entries).
Proof.
  intros Hk. unfold dir_entries. rewrite (insert_take_drop bss k rs') by (by eapply lookup_lt_Some). split; [|by rewrite bind_app].
  rewrite <- (take_drop_middle bss k rs Hk) at 1. by rewrite bind_app.
Qed.

Lemma add_dir_entry_ok d raw bss dir_ino name ino ft : vol_ok sb d -> file_ok sb d raw -> dir_ok d raw bss -> is_ino sb dir_ino ->
  0 < ino < 2 ^ 32 -> 0 <= ft < 256 -> size name < 256 -> bytes_ok name ->
  Z.of_nat (length bss) < max_blocks sb -> (Z.of_nat (length bss) + 1) * bs < 2 ^ 32 ->
  exists d' raw' res, add_dir_entry sb dir_ino name ino ft (d, raw) = Ok ((d', raw'), res) /\ touched sb d raw d' raw' dir_ino /\
    match res with
    | inl _ => (exists bss' l1 l2, dir_ok d' raw' bss' /\ dir_entries bss = l1 ++ l2 /\ dir_entries bss' = l1 ++ (ino, ft, name) :: l2) /\
        (inode_at sb d dir_ino = raw -> inode_at sb d' dir_ino = raw')
    | inr e => e = NoSpace /\ full sb d' /\ dir_ok d' raw' bss
    end.
Proof.
  intros Hv Hf Hd Hdi Hi Ht Hn Hb Hmax H32. unfold add_dir_entry. rewrite (bind_run _ _ (d, raw) (d, raw) raw) by done.
  destruct (dir_blocks_ok d raw bss Hf Hd) as [Hnb Hw]. rewrite (bind_lift _ _ _ _ Hnb), Hw, Nat2Z.id.
  destruct (add_blocks_ok d raw bss ino ft name Hv Hf Hd ltac:(lia) Ht ltac:(done) bss 0 ltac:(done)) as (d1 & placed & He & Hp).
  assert (on_dev (add_blocks sb (length bss) (dirent_len (size name)) name ino ft raw 0) (d, raw) = Ok ((d1, raw), inl placed)) as He'
    by (unfold on_dev; cbn [fst snd]; change 0 with (Z.of_nat 0); by rewrite He).
  rewrite (bind_run _ _ _ _ _ He'). destruct placed.
  - destruct Hp as (k & rs & rs' & s & q & buf' & Hk & Hadd & Hkey & Hnz & Hset & Hd'). exists d1, raw, (inl ()). split; [done|].
    pose proof (data_set_evolves sb G d d1 raw s q buf' Hv Hf Hkey Hnz Hset) as Hev. split; [by apply (evolves_touched sb G)|].
    split; [|intros <-; by apply (evolves_inode_at sb G d (inode_at sb d dir_ino) d1 (inode_at sb d dir_ino))].
    destruct (add_rec_entries ino ft name rs ltac:(lia) rs' Hadd) as (l1 & l2 & E1 & E2).
    destruct (entries_at bss k rs rs' Hk) as [E3 E4]. exists (<[k := rs']> bss), ((take k bss ≫= entries) ++ l1), (l2 ++ (drop (S k) bss ≫= entries)).
    rewrite E3, E4, E1, E2, <- !app_assoc. done.
  - subst d1. destruct (block_for_index_alloc_ok sb G d raw (Z.of_nat (length bss)) Hv Hf ltac:(lia)) as ([d1 raw1] & r & Ha & Hg & Hr).
    cbn [fst snd] in *. pose proof (dir_grows d raw d1 raw1 bss Hv Hf Hg Hd) as Hd1. destruct Hg as [Hev _].
    pose proof (ev_vol _ _ _ _ _ Hev) as Hv1. pose proof (ev_file _ _ _ _ _ Hev) as Hf1. destruct r as [b|e].
    2: { rewrite (bind_fail _ _ _ _ _ Ha). exists d1, raw1, (inr e). split; [done|]. split; [by apply (evolves_touched sb G)|]. by destruct Hr as [-> Hr]. }
    rewrite (bind_run _ _ _ _ _ Ha). destruct Hr as [Hfb Hb0].
    destruct (new_block_chain ino ft name ltac:(lia) Ht Hn Hb) as (buf & Hwd & Hsz & Hbb & Hc). fold bs. rewrite (bind_lift _ _ _ _ Hwd).
    destruct (find_slot sb (Z.of_nat (length bss))) as [[s q]|] eqn:Hs; [|apply (find_slot_None sb G) in Hs; lia]. rewrite <- Hfb in Hb0 |- *.
    destruct (dir_append_ok d1 raw1 bss dir_ino (length bss) [new_rec ino ft name bs] buf s q) as (d2 & raw2 & d3 & Hwb & Hev2 & Hss & Hwi & W & Hf3 & Hd3); try done.
    rewrite (bind_run _ _ (d1, raw1) (d2, raw1) ()) by (unfold on_dev; cbn [fst snd]; by rewrite Hwb).
    rewrite (bind_run _ _ (d2, raw1) (d2, raw1) raw1) by done. rewrite (bind_lift _ _ _ _ Hss). rewrite (bind_run _ _ (d2, raw1) (d2, raw2) ()) by done.
    exists d3, raw2, (inl ()). split; [unfold on_dev; cbn [fst snd]; by rewrite Hwi|].
    split; [apply (touched_write_back sb G d raw d2 raw1); [by apply (file_evolves_trans sb d raw d1 raw1)|done|done]|].
    split; [|intros _; apply W]. exists (bss ++ [[new_rec ino ft name bs]]), (dir_entries bss), []. split; [done|]. rewrite app_nil_r. split; [done|].
    unfold dir_entries. rewrite bind_app. cbn [mbind list_bind]. rewrite app_nil_r, entries_cons. cbn [new_rec r_ino entry r_type r_name].
    by rewrite (proj2 (Z.eqb_neq ino 0)) by lia.
Qed.

(** Removing. *)
Lemma remove_blocks_ok d raw all name : vol_ok sb d -> file_ok sb d raw -> dir_ok d raw all -> forall bss (i : nat), drop i all = bss ->
  exists d' res, remove_blocks sb (length bss) name raw (Z.of_nat i) d = Ok (d', res) /\
    match res with
    | inl e => exists (k : nat) rs rs' r s q buf', all !! (i + k)%nat = Some rs /\ remove_rec name rs = Some (rs', r) /\ e = (r_ino r, r_type r) /\
        (forall j rsj, (j < k)%nat -> all !! (i + j)%nat = Some rsj -> remove_rec name rsj = None) /\ key_ok sb s (depth s) q /\
        node sb d raw s (depth s) q <> 0 /\ data_set sb d d' raw s q buf' /\ dir_ok d' raw (<[(i + k)%nat := rs']> all)
    | inr e => e = NotFound /\ d' = d /\ forall j rsj, all !! (i + j)%nat = Some rsj -> remove_rec name rsj = None
    end.
Proof.
  intros Hv Hf Hd bss. induction bss as [|rs bss IH]; intros i Hdrop; cbn [remove_blocks length].
  { exists d, (inr NotFound). split; [done|]. split; [done|]. split; [done|]. intros j rsj Hj. rewrite <- lookup_drop, Hdrop in Hj. done. }
  assert (all !! i = Some rs) as Hat by (rewrite <- (Nat.add_0_r i), <- lookup_drop, Hdrop; done).
  destruct (do_block _ _ _ Hd i rs Hat) as [Hn Hc].
  rewrite (bind_run _ _ _ _ _ (block_for_index_ok sb G d raw (Z.of_nat i) Hv Hf ltac:(lia))), (nonzero_ne _ Hn).
  destruct (dir_block_ok d raw (Z.of_nat i) Hv Hf ltac:(lia) Hn) as (s & q & B). pose proof B as [B1 B2 B3 B4 B5 B6 B7].
  rewrite (bind_run _ _ _ _ _ (block_vec_ok sb G d _ (v_dev sb d Hv) B6)).
  pose proof (remove_scan_ok name rs _ Hc B5 (block_small _ B4)) as Hs. destruct (remove_rec name rs) as [[rs' r]|] eqn:Hrem.
  - destruct Hs as (buf' & Hs & Hre). rewrite (bind_lift _ _ _ _ Hs).
    destruct (dir_set_ok d raw all i rs rs' buf' s q Hv Hf Hd Hat B Hn Hre) as (d' & Hw & Hset & Hd'). rewrite (bind_run _ _ _ _ _ Hw).
    exists d', (inl (r_ino r, r_type r)). split; [done|]. exists 0%nat, rs, rs', r, s, q, buf'. rewrite Nat.add_0_r. rewrite B3 in Hn.
    split_and!; try done. intros; lia.
  - rewrite (bind_lift _ _ _ _ Hs). assert (Z.of_nat i + 1 = Z.of_nat (S i)) as -> by lia.
    destruct (IH (S i)) as (d' & r & He & Hr); [rewrite (drop_S all rs i Hat) in Hdrop; by injection Hdrop|]. exists d', r. split; [done|].
    assert (forall j rsj, all !! (i + j)%nat = Some rsj -> j = 0%nat -> remove_rec name rsj = None) as H0.
    { intros j rsj Hj ->. rewrite Nat.add_0_r in Hj. congruence. }
    destruct r as [e|e].
    + destruct Hr as (k & rsk & rs' & r & s' & q' & buf' & R1 & R2 & R3 & R4 & R5 & R6 & R7 & R8). exists (S k), rsk, rs', r, s', q', buf'.
      replace (i + S k)%nat with (S i + k)%nat by lia. split_and!; try done. intros [|j] rsj Hj Hat'; [by apply (H0 0%nat)|].
      apply (R4 j); [lia|]. by replace (S i + j)%nat with (i + S j)%nat by lia.
    + destruct Hr as (-> & -> & Hr). split; [done|]. split; [done|]. intros [|j] rsj Hj; [by apply (H0 0%nat)|]. apply (Hr j).
      by replace (S i + j)%nat with (i + S j)%nat by lia.
Qed.

(** Every entry of some blocks lacks a name when every block does. *)
Lemma entries_none name bss : (forall (j : nat) rs, bss !! j = Some rs -> remove_rec name rs = None) -> Forall (fun e => ~ named name e) (dir_entries bss).
Proof.
  intros Hn. apply Forall_forall. intros e (rs & He & Hin)%list_elem_of_bind. apply list_elem_of_lookup in Hin as [j Hj].
  pose proof (remove_rec_entries name rs) as Hr. rewrite (Hn j rs Hj) in Hr. by apply (proj1 (Forall_forall _ _) Hr).
Qed.

Lemma remove_dir_entry_ok d raw bss name dir_ino : vol_ok sb d -> file_ok sb d raw -> dir_ok d raw bss ->
  exists d' res, remove_dir_entry sb raw name d = Ok (d', res) /\
    match res with
    | inl e => exists bss' l1 l2, touched sb d raw d' raw dir_ino /\ dir_ok d' raw bss' /\
        dir_entries bss = l1 ++ (e, name) :: l2 /\ dir_entries bss' = l1 ++ l2 /\ Forall (fun e => ~ named name e) l1
    | inr e => e = NotFound /\ d' = d /\ Forall (fun e => ~ named name e) (dir_entries bss)
    end.
Proof.
  intros Hv Hf Hd. destruct (dir_blocks_ok d raw bss Hf Hd) as [Hb Hw]. unfold remove_dir_entry. rewrite (bind_lift _ _ _ _ Hb), Hw, Nat2Z.id.
  destruct (remove_blocks_ok d raw bss name Hv Hf Hd bss 0 ltac:(done)) as (d' & r & He & Hr). exists d', r. split; [done|]. destruct r as [e|e].
  - destruct Hr as (k & rs & rs' & r & s & q & buf' & R1 & R2 & -> & R4 & R5 & R6 & R7 & R8). cbn [Nat.add] in *.
    pose proof (remove_rec_entries name rs) as Hent. rewrite R2 in Hent. destruct Hent as (Hnm & l1 & l2 & E1 & E2 & E3).
    destruct (is_named_live _ _ Hnm) as [_ <-]. exists (<[k := rs']> bss).
    exists ((take k bss ≫= entries) ++ l1), (l2 ++ (drop (S k) bss ≫= entries)).
    split; [apply (evolves_touched sb G); by apply (data_set_evolves sb G d d' raw s q buf')|]. split; [done|].
    destruct (entries_at bss k rs rs' R1) as [E4 E5]. rewrite E4, E5, E1, E2, <- !app_assoc. split; [done|]. split; [done|].
    apply Forall_app. split; [|done]. apply (entries_none _ (take k bss)). intros j rsj Hj. apply lookup_take_Some in Hj as [Hj Hlt]. by apply (R4 j).
  - destruct Hr as (-> & -> & Hr). split; [done|]. split; [done|]. by apply entries_none.
Qed.

End dir.

End Ext2DirInv.
