(* ===== verification/Ext2RepairInv.v ===== *)
(** Correctness of the mount-time repair: what the free counts become, which
    inodes and blocks the walk from the root marks, and what the sweep leaves
    in the bitmaps. *)

From Stdlib Require Import ZArith Lia.
From stdpp Require Import base numbers gmap list.
From S2P Require Import Prelude Bits Bytes Ext2Format Ext2Volume Ext2Dir Ext2Repair Ext2Inv Ext2Files Ext2Walk.

Local Open Scope Z_scope.

Module Ext2RepairInv.
Import Bytes Ext2Format Ext2Volume Ext2Dir Ext2Repair Ext2Inv Ext2Files Ext2Walk.

(** ** Sums over groups *)

Fixpoint tot (f : Z -> Z) (n : nat) : Z := match n with O => 0 | S n' => tot f n' + f (Z.of_nat n') end.

Lemma tot_ext f f' n : (forall g, 0 <= g < Z.of_nat n -> f g = f' g) -> tot f n = tot f' n.
Proof. induction n as [|n IH]; intros He; cbn [tot]; [done|]. rewrite IH, He by (intros; try apply He; lia). done. Qed.

Section repair.
Context {D : Type} `{BlockDevice D}.
Variable sb : Superblock.
Hypothesis G : geom_ok sb.
Implicit Types d : D.

Abbreviation blk := (blk sb). Abbreviation bbm := (bbm sb). Abbreviation ibm := (ibm sb). Abbreviation fbc := (fbc sb).
Abbreviation fic := (fic sb). Abbreviation group := (group sb). Abbreviation gblocks := (gblocks sb). Abbreviation ginodes := (ginodes sb).
Abbreviation dblk := (dblk sb). Abbreviation valid := (valid sb). Abbreviation sblk := (sblk sb).

(** ** Free counts *)

(** A volume whose metadata is in place, with counts that may be stale. *)
Record disk_ok d : Prop := {
  k_dev : dev_ok sb d;
  k_layout : layout sb d;
  k_meta : forall r, role_ok sb r -> used sb d (place sb d r) = true;
}.

Lemma vol_disk d : vol_ok sb d -> disk_ok d.
Proof. by intros []. Qed.

Definition real_b d (g : Z) : Z := free_bits (Z.to_nat (gblocks g)) (blk d (bbm d g)).
Definition real_i d (g : Z) : Z := free_bits (Z.to_nat (ginodes g)) (blk d (ibm d g)).
Definition groups : nat := Z.to_nat (num_groups sb).

Lemma groups_pos : 0 <= num_groups sb /\ Z.of_nat groups = num_groups sb.
Proof.
  assert (0 <= num_groups sb); [|unfold groups; lia].
  pose proof (groups_cover sb G). destruct (g_bpg sb G) as [[Hp _] _]. destruct (sblk_spec sb G) as (Hs & Hs0 & _).
  destruct (g_blocks sb G) as [Hc _]. nia.
Qed.

Lemma real_b_bound d g : 0 <= g -> 0 <= real_b d g <= gblocks g.
Proof.
  intros Hg. unfold real_b. pose proof (free_bits_bound (Z.to_nat (gblocks g)) (blk d (bbm d g))).
  assert (0 <= gblocks g) by (apply (gblocks_bits sb G)). lia.
Qed.

Lemma real_i_bound d g : 0 <= real_i d g <= ginodes g.
Proof.
  unfold real_i. pose proof (free_bits_bound (Z.to_nat (ginodes g)) (blk d (ibm d g))).
  assert (0 <= ginodes g) by (apply (ginodes_bits sb G)). lia.
Qed.

Lemma tot_blocks d n : (n <= groups)%nat -> 0 <= tot (real_b d) n <= Z.min (Z.of_nat n * blocks_per_group sb) (blocks_count sb - first_data_block sb).
Proof.
  intros Hn. destruct (g_bpg sb G) as [[Hp _] _]. destruct (g_blocks sb G) as [Hc _].
  induction n as [|n IH]; cbn [tot]; [lia|]. specialize (IH ltac:(lia)). pose proof (real_b_bound d (Z.of_nat n) ltac:(lia)) as Hr.
  unfold Ext2Inv.gblocks, gstart in Hr. rewrite Nat2Z.inj_succ, Z.mul_succ_l. set (x := Z.of_nat n * blocks_per_group sb) in *. lia.
Qed.

Lemma tot_inodes d n : (n <= groups)%nat -> 0 <= tot (real_i d) n <= Z.min (Z.of_nat n * inodes_per_group sb) (inodes_count sb).
Proof.
  intros Hn. destruct (g_ipg sb G) as [[Hp _] _]. destruct (g_inodes sb G) as [Hc _].
  induction n as [|n IH]; cbn [tot]; [lia|]. specialize (IH ltac:(lia)). pose proof (real_i_bound d (Z.of_nat n)) as Hr.
  unfold Ext2Inv.ginodes in Hr. rewrite Nat2Z.inj_succ, Z.mul_succ_l. set (x := Z.of_nat n * inodes_per_group sb) in *. lia.
Qed.

(** The groups below [g] have been corrected. *)
Record reconciled d d' (g : Z) : Prop := {
  rc_dev : dev_ok sb d';
  rc_ptrs : ptrs_same sb d d';
  rc_blk : forall b, valid b -> (forall g', group g' -> b <> dblk g') -> blk d' b = blk d b;
  rc_fbc : forall g', group g' -> fbc d' g' = if g' <? g then real_b d g' else fbc d g';
  rc_fic : forall g', group g' -> fic d' g' = if g' <? g then real_i d g' else fic d g';
  rc_sb : sb_free_blocks d' = sb_free_blocks d /\ sb_free_inodes d' = sb_free_inodes d;
}.

Lemma reconciled_refl d : disk_ok d -> reconciled d d 0.
Proof. intros [Hd _ _]. split; try done; intros g' [Hg _]; by rewrite (proj2 (Z.ltb_ge _ _)). Qed.

(** A descriptor does not hold a bitmap. *)
Lemma bbm_not_desc d g g' : disk_ok d -> group g -> group g' -> bbm d g <> dblk g'.
Proof. intros [_ Hl _] Hg Hg'. by apply not_eq_sym, (dblk_ne_bbm sb d). Qed.
Lemma ibm_not_desc d g g' : disk_ok d -> group g -> group g' -> ibm d g <> dblk g'.
Proof. intros [_ Hl _] Hg Hg'. by apply not_eq_sym, (dblk_ne_ibm sb d). Qed.

Lemma counts_small d g : disk_ok d -> group g ->
  count_free_bits (blk d (bbm d g)) (gblocks g) = Ok (real_b d g) /\ count_free_bits (blk d (ibm d g)) (ginodes g) = Ok (real_i d g).
Proof.
  intros [Hd Hl _] Hg. split.
  - destruct (gblocks_bits sb G g) as [H1 H2]. apply count_free_bits_spec; [done|]. rewrite (size_blk sb G); [done|done|by apply (layout_bbm sb G)].
  - destruct (ginodes_bits sb G g) as [H1 H2]. apply count_free_bits_spec; [done|]. rewrite (size_blk sb G); [done|done|by apply (layout_ibm sb G)].
Qed.

(** One group. *)
Lemma reconcile_step d0 d g : disk_ok d0 -> group g -> reconciled d0 d g ->
  let differs := negb (real_b d0 g =? fbc d g) || negb (real_i d0 g =? fic d g) in
  exists d', (if differs then adjust_bgd_counts sb g (real_b d0 g - fbc d g) (real_i d0 g - fic d g) 0 else mret ()) d = Ok (d', inl ()) /\
    reconciled d0 d' (g + 1) /\ (differs = false -> d' = d).
Proof.
  intros Hk Hg [C1 C2 C3 C4 C5 C6] differs. pose proof (k_layout _ Hk) as Hl. pose proof Hg as [Hg0 _].
  assert (fbc d g = fbc d0 g /\ fic d g = fic d0 g) as [Hfb Hfi] by (by rewrite C4, C5, Z.ltb_irrefl by done).
  assert (forall g' : Z, g' <> g -> (g' <? g + 1) = (g' <? g)) as Hlt by (intros g' Hne; destruct (Z.ltb_spec g' g), (Z.ltb_spec g' (g + 1)); lia).
  destruct differs eqn:Hdf; unfold differs in Hdf.
  - destruct (adjust_bgd_counts_ok sb G d g (real_b d0 g - fbc d g) (real_i d0 g - fic d g) 0 C1) as (d' & He & [A1 A2 A3 A4 A5]);
      [done|by apply (layout_dblk sb G d0)|]. exists d'. split; [exact He|]. split; [|done].
    assert (wrap 16 (fbc d g + (real_b d0 g - fbc d g)) = real_b d0 g) as Hw1.
    { pose proof (real_b_bound d0 g Hg0). destruct (gblocks_bits sb G g) as [[? ?] _]. unfold wrap. rewrite Z.mod_small; lia. }
    assert (wrap 16 (fic d g + (real_i d0 g - fic d g)) = real_i d0 g) as Hw2.
    { pose proof (real_i_bound d0 g). destruct (ginodes_bits sb G g) as [[? ?] _]. unfold wrap. rewrite Z.mod_small; lia. }
    assert (forall g', group g' -> 0 <= g' /\ valid (dblk g')) as Hgv by (intros g' Hg'; split; [apply Hg'|by apply (layout_dblk sb G d0)]).
    split; [done| | | | |].
    + intros g' off Hg' Ho. destruct (Hgv g' Hg'). rewrite A3 by done. by apply C2.
    + intros b Hb Hne. rewrite A2 by (done || by apply Hne). by apply C3.
    + intros g' Hg'. destruct (Hgv g' Hg'). rewrite A4 by done. destruct (Z.eqb_spec g' g) as [->|Hne].
      * rewrite (proj2 (Z.ltb_lt _ _)) by lia. done.
      * rewrite (C4 g' Hg'). by rewrite Hlt.
    + intros g' Hg'. destruct (Hgv g' Hg'). rewrite A5 by done. destruct (Z.eqb_spec g' g) as [->|Hne].
      * rewrite (proj2 (Z.ltb_lt _ _)) by lia. done.
      * rewrite (C5 g' Hg'). by rewrite Hlt.
    + destruct (write_keeps_super sb G d d' (dblk g) (blk d' (dblk g))) as [E1 E2]; [done|by apply (layout_dblk sb G d0)|by apply (dblk_ne_super sb d0)| |].
      { split; [done|done|]. intros b' Hb' Hne. by apply A2. }
      rewrite E1, E2. done.
  - apply orb_false_iff in Hdf as [Hd1%negb_false_iff%Z.eqb_eq Hd2%negb_false_iff%Z.eqb_eq]. exists d. split; [done|]. split; [|done].
    split; try done; intros g' Hg'; (destruct (decide (g' = g)) as [->|Hne]; [rewrite (proj2 (Z.ltb_lt g _)) by lia|rewrite Hlt by done]); auto.
Qed.

Lemma reconcile_from_ok d0 : disk_ok d0 -> forall n g drift d, reconciled d0 d (Z.of_nat g) -> (g + n = groups)%nat ->
  exists d' drift', reconcile_from sb n (Z.of_nat g) (tot (real_b d0) g) (tot (real_i d0) g) drift d =
    Ok (d', inl (tot (real_b d0) groups, tot (real_i d0) groups, drift')) /\ reconciled d0 d' (num_groups sb) /\
    (drift' = false -> drift = false /\ d' = d).
Proof.
  intros Hk. pose proof groups_pos as [Hp Hgs]. induction n as [|n IH]; intros g drift d Hr Hn; cbn [reconcile_from].
  { assert (g = groups) as -> by lia. exists d, drift. rewrite Hgs in Hr. done. }
  assert (group (Z.of_nat g)) as Hg by (unfold Ext2Inv.group; lia). pose proof (k_layout _ Hk) as Hl. pose proof Hr as [C1 C2 C3 C4 C5 C6].
  rewrite (bind_run _ _ _ _ _ (read_bgd_ok sb G d _ C1 (Nat2Z.is_nonneg g) ltac:(by apply (layout_dblk sb G d0)))). cbn [block_bitmap inode_bitmap free_blocks free_inodes].
  rewrite (ptrs_bbm sb d0 d _ C2 Hg), (ptrs_ibm sb d0 d _ C2 Hg).
  destruct (counts_small d0 _ Hk Hg) as [Hc1 Hc2].
  rewrite (bind_run _ _ _ _ _ (block_vec_ok sb G d _ C1 (layout_bbm sb G d0 _ Hl Hg))).
  rewrite (bind_lift _ _ _ _ (blocks_in_group_ok sb G _ Hg)). rewrite C3 by (by apply (layout_bbm sb G) || (intros; by apply bbm_not_desc)).
  rewrite (bind_lift _ _ _ _ Hc1).
  rewrite (bind_run _ _ _ _ _ (block_vec_ok sb G d _ C1 (layout_ibm sb G d0 _ Hl Hg))).
  rewrite (bind_lift _ _ _ _ (inodes_in_group_ok sb G _ Hg)). rewrite C3 by (by apply (layout_ibm sb G) || (intros; by apply ibm_not_desc)).
  rewrite (bind_lift _ _ _ _ Hc2).
  destruct (reconcile_step d0 d _ Hk Hg Hr) as (d1 & E1 & Hr1 & Hsame). rewrite (bind_run _ _ _ _ _ E1).
  pose proof (tot_blocks d0 (S g) ltac:(lia)) as Tb. pose proof (tot_inodes d0 (S g) ltac:(lia)) as Ti. cbn [tot] in Tb, Ti.
  pose proof (blocks_small sb G) as Hbs. change (2 ^ 31) with 2147483648 in Hbs. destruct (sblk_spec sb G) as (Hs & Hs0 & _).
  destruct (g_inodes sb G) as [[_ Hi1] Hi2]. change (2 ^ 32) with 4294967296 in Hi2.
  rewrite (bind_lift _ _ _ (tot (real_b d0) (S g))) by (apply chk_ok; change (2 ^ 32) with 4294967296; cbn [tot]; lia).
  rewrite (bind_lift _ _ _ (tot (real_i d0) (S g))) by (apply chk_ok; change (2 ^ 32) with 4294967296; cbn [tot]; lia).
  replace (Z.of_nat g + 1) with (Z.of_nat (S g)) in * by lia.
  destruct (IH (S g) (drift || (negb (real_b d0 (Z.of_nat g) =? fbc d (Z.of_nat g)) || negb (real_i d0 (Z.of_nat g) =? fic d (Z.of_nat g)))) d1 Hr1) as (d2 & b2 & E2 & Hr2 & Hs2); [lia|].
  exists d2, b2. split; [exact E2|]. split; [done|]. intros ->. destruct Hs2 as [Hor ->]; [done|].
  apply orb_false_iff in Hor as [-> Hdf]. split; [done|]. by apply Hsame.
Qed.

(** The result of a reconciliation. *)
Record counted d d' (rep : ReconcileReport) : Prop := {
  ct_ok : vol_ok sb d';
  ct_ptrs : ptrs_same sb d d';
  ct_blk : forall b, valid b -> b <> sblk -> (forall g, group g -> b <> dblk g) -> blk d' b = blk d b;
  ct_sb : sb_free_blocks d' = tot (real_b d) groups /\ sb_free_inodes d' = tot (real_i d) groups;
  ct_rep : total_free_blocks rep = tot (real_b d) groups /\ total_free_inodes rep = tot (real_i d) groups;
  ct_same : bgd_drift rep = false -> sb_drift rep = false -> d' = d;
}.

Lemma read_super_ok d : dev_ok sb d -> dev_read 2 2 (replicate 1024 0) d = Ok (d, inl (sub 1024 1024 (contents d))) /\
  get_le 12 4 (sub 1024 1024 (contents d)) = @Ok Empty_set Z (sb_free_blocks d) /\ get_le 16 4 (sub 1024 1024 (contents d)) = @Ok Empty_set Z (sb_free_inodes d).
Proof.
  intros Hd. pose proof (dev_super sb d Hd) as Hsz. split_and!.
  - unfold dev_read. rewrite read_law; [|lia|lia|done|done].
    change (2 * SECTOR_SIZE) with 1024. change (sector_bytes 2) with 1024. rewrite over_all; [done|]. rewrite size_sub by lia. done.
  - rewrite get_le_ok by (rewrite ?size_sub; lia). by rewrite field_sub by lia.
  - rewrite get_le_ok by (rewrite ?size_sub; lia). by rewrite field_sub by lia.
Qed.

Lemma i32_diff x y : 0 <= x < 2 ^ 31 -> 0 <= y < 2 ^ 31 -> chk_i32 (as_i32 x - as_i32 y) = Ok (x - y).
Proof.
  intros Hx Hy. unfold as_i32, chk_i32. rewrite (proj2 (Z.ltb_lt x _)), (proj2 (Z.ltb_lt y _)) by lia. change (2 ^ 31) with 2147483648 in *.
  case_bools; (done || lia).
Qed.

Lemma reconcile_ok d : disk_ok d -> 0 <= sb_free_blocks d < 2 ^ 31 -> 0 <= sb_free_inodes d < 2 ^ 31 -> inodes_count sb < 2 ^ 31 ->
  exists d' rep, reconcile_free_counts sb d = Ok (d', inl rep) /\ counted d d' rep.
Proof.
  intros Hk Hsb Hsi Hic. pose proof Hk as [Hd Hl Hm]. destruct (read_super_ok d Hd) as (E0 & F1 & F2). unfold reconcile_free_counts.
  rewrite (bind_run _ _ _ _ _ E0), (bind_lift _ _ _ _ F1), (bind_lift _ _ _ _ F2).
  destruct (reconcile_from_ok d Hk groups 0 false d (reconciled_refl d Hk) eq_refl) as (d1 & drift & E1 & Hr & Hsame).
  rewrite (bind_run _ _ _ _ _ E1). destruct Hr as [C1 C2 C3 C4 C5 [C6 C7]].
  pose proof (tot_blocks d groups ltac:(lia)) as Tb. pose proof (tot_inodes d groups ltac:(lia)) as Ti.
  set (tb := tot (real_b d) groups) in *. set (ti := tot (real_i d) groups) in *.
  pose proof (blocks_small sb G) as Hbs. destruct (sblk_spec sb G) as (Hs & Hs0 & _). change (2 ^ 31) with 2147483648 in *.
  set (differs := negb (tb =? sb_free_blocks d) || negb (ti =? sb_free_inodes d)).
  assert (exists d', (if differs then
         db ← lift (chk_i32 (as_i32 tb - as_i32 (sb_free_blocks d)));
         di ← lift (chk_i32 (as_i32 ti - as_i32 (sb_free_inodes d)));
         adjust_sb_counts db di
       else mret ()) d1 = Ok (d', inl ()) /\ dev_ok sb d' /\ (forall b, valid b -> b <> sblk -> blk d' b = blk d1 b) /\
       sb_free_blocks d' = tb /\ sb_free_inodes d' = ti /\ (differs = false -> d' = d1)) as (d2 & E2 & Hd2 & Hb2 & Hf1 & Hf2 & Hs2).
  { destruct differs eqn:Hdf.
    - rewrite (bind_lift _ _ _ (tb - sb_free_blocks d)) by (apply i32_diff; change (2 ^ 31) with 2147483648; lia).
      rewrite (bind_lift _ _ _ (ti - sb_free_inodes d)) by (apply i32_diff; change (2 ^ 31) with 2147483648; lia).
      destruct (adjust_sb_counts_ok sb G d1 (tb - sb_free_blocks d) (ti - sb_free_inodes d) C1) as (d2 & E2 & [S1 S2 S3 S4]).
      exists d2. split_and!; try done; [rewrite S3, C6|rewrite S4, C7]; unfold wrap; rewrite Z.mod_small; change (2 ^ 32) with 4294967296; lia.
    - unfold differs in Hdf. apply orb_false_iff in Hdf as [Hd1%negb_false_iff%Z.eqb_eq Hd2%negb_false_iff%Z.eqb_eq].
      exists d1. split_and!; try done; lia. }
  rewrite (bind_run _ _ _ _ _ E2). exists d2. eexists. split; [done|].
  assert (forall g off k, group g -> dfield sb d2 g off k = dfield sb d1 g off k) as Hdf.
  { intros g off k Hg. unfold dfield. rewrite Hb2; [done|by apply (layout_dblk sb G d)|by apply (dblk_ne_super sb d)]. }
  assert (ptrs_same sb d d2) as Hp by (intros g off Hg Ho; rewrite Hdf by done; by apply C2).
  assert (forall b, valid b -> b <> sblk -> (forall g, group g -> b <> dblk g) -> blk d2 b = blk d b) as Hblk
    by (intros b Hb Hne Hnd; rewrite Hb2 by done; by apply C3).
  assert (forall g, group g -> blk d2 (bbm d g) = blk d (bbm d g) /\ blk d2 (ibm d g) = blk d (ibm d g)) as Hmaps.
  { intros g Hg. split; apply Hblk.
    - by apply (layout_bbm sb G).
    - by apply (bbm_ne_super sb).
    - intros; by apply bbm_not_desc.
    - by apply (layout_ibm sb G).
    - by apply (ibm_ne_super sb).
    - intros; by apply ibm_not_desc. }
  split; cbn; try done.
  - split; [done|by apply (ptrs_layout sb d)| | |].
    + intros r Hr. rewrite (ptrs_place sb d d2 r Hp Hr). unfold used. destruct (grp_ok sb G _ (l_mapped _ _ Hl r Hr)) as (Hg & _).
      rewrite (ptrs_bbm sb d d2 _ Hp Hg), (proj1 (Hmaps _ Hg)). by apply Hm.
    + intros g Hg. unfold Ext2Inv.fbc. rewrite Hdf by done. change (dfield sb d1 g 12 2) with (fbc d1 g). rewrite C4 by done.
      rewrite (proj2 (Z.ltb_lt _ _)) by apply Hg. by rewrite (ptrs_bbm sb d d2 _ Hp Hg), (proj1 (Hmaps _ Hg)).
    + intros g Hg. unfold Ext2Inv.fic. rewrite Hdf by done. change (dfield sb d1 g 14 2) with (fic d1 g). rewrite C5 by done.
      rewrite (proj2 (Z.ltb_lt _ _)) by apply Hg. by rewrite (ptrs_ibm sb d d2 _ Hp Hg), (proj2 (Hmaps _ Hg)).
  - intros -> Hdf2. rewrite Hs2 by done. by apply Hsame.
Qed.

(** ** Marks *)

Lemma bit_set_get l n : 0 <= n -> n / 8 < size l -> bit_set l n = Bits.get l n.
Proof.
  intros Hn Hl. unfold bit_set, Bits.get, Bits.masked, Bits.byte_ix. pose proof (Z.div_pos n 8 Hn ltac:(lia)). unfold size in Hl.
  destruct (lookup_lt_is_Some_2 l (Z.to_nat (n / 8))) as [b Hb]; [lia|]. rewrite Hb. by rewrite (list_lookup_total_correct _ _ _ Hb).
Qed.

Lemma bit_set_far l n : 0 <= n -> size l <= n / 8 -> bit_set l n = false.
Proof. intros Hn Hl. unfold bit_set. unfold size in Hl. by rewrite (proj2 (lookup_ge_None l (Z.to_nat (n / 8)))) by lia. Qed.

Lemma size_mark l n : size (mark_bit l n) = size l.
Proof. unfold mark_bit, size. case_match; [|done]. by rewrite Bits.length_set. Qed.

(** Bit [n] is one of the bitmap's. *)
Definition within (l : bytes) (n : Z) : bool := (0 <=? n) && (n / 8 <? size l).

Lemma bit_set_mark l n m : 0 <= n -> 0 <= m -> bit_set (mark_bit l n) m = bit_set l m || (m =? n) && within l m.
Proof.
  intros Hn Hm. unfold within. rewrite (proj2 (Z.leb_le 0 m) Hm), andb_true_l. destruct (Z.ltb_spec (m / 8) (size l)) as [Hin|Hout].
  - rewrite !bit_set_get by (rewrite ?size_mark; done). unfold mark_bit. rewrite andb_true_r. destruct (Z.ltb_spec (n / 8) (size l)) as [Hn8|Hn8].
    + rewrite Bits.get_set; [|done|done|unfold Bits.byte_ix, size in *; pose proof (Z.div_pos n 8 Hn ltac:(lia)); lia].
      rewrite orb_comm. f_equal. destruct (Z.eqb_spec m n) as [->|]; [by rewrite bool_decide_true|by rewrite bool_decide_false by congruence].
    + rewrite (proj2 (Z.eqb_neq m n)) by (intros ->; lia). by rewrite orb_false_r.
  - rewrite !bit_set_far by (rewrite ?size_mark; done). by rewrite andb_false_r.
Qed.

Lemma size_foldl ns l : size (foldl mark_bit l ns) = size l.
Proof. revert l. induction ns as [|i ns IH]; intros l; cbn; [done|]. by rewrite IH, size_mark. Qed.
Lemma size_mark_range l a n : size (mark_range l a n) = size l.
Proof. apply size_foldl. Qed.

Lemma bit_set_foldl l ns m : Forall (fun i => 0 <= i) ns -> 0 <= m ->
  bit_set (foldl mark_bit l ns) m = bit_set l m || (bool_decide (m ∈ ns) && within l m).
Proof.
  intros Hpos Hm. revert l Hpos. induction ns as [|i ns IH]; intros l Hpos; cbn [foldl]; [by rewrite bool_decide_false, orb_false_r by apply not_elem_of_nil|].
  apply Forall_cons in Hpos as [Hi Hpos]. rewrite IH, bit_set_mark by done. unfold within. rewrite size_mark. rewrite <- orb_assoc. f_equal.
  rewrite <- andb_orb_distrib_l. f_equal. destruct (Z.eqb_spec m i) as [->|Hne]; cbn [orb].
  - by rewrite bool_decide_true by (by left).
  - apply bool_decide_ext. rewrite elem_of_cons. naive_solver.
Qed.

Lemma bit_set_mark_range l a n m : 0 <= a -> 0 <= m -> bit_set (mark_range l a n) m = bit_set l m || ((a <=? m) && (m <? a + n) && within l m).
Proof.
  intros Ha Hm. unfold mark_range. rewrite bit_set_foldl by (done || apply Forall_forall; intros i Hi%elem_of_seqZ; lia). f_equal. f_equal.
  destruct (Z.leb_spec a m), (Z.ltb_spec m (a + n)); cbn [andb]; [apply bool_decide_true|apply bool_decide_false..]; rewrite elem_of_seqZ; lia.
Qed.

Lemma size_mark1 l i : size (mark_bit_1based l i) = size l.
Proof. unfold mark_bit_1based. case_match; [apply size_mark|done]. Qed.

Lemma bit_set_mark1 l i j : bit_set_1based (mark_bit_1based l i) j = bit_set_1based l j || (j =? i) && within l (j - 1).
Proof.
  unfold bit_set_1based, mark_bit_1based. destruct (Z.leb_spec 1 j) as [Hj|Hj]; cbn [andb].
  - destruct (Z.leb_spec 1 i) as [Hi|Hi].
    + rewrite bit_set_mark by lia. f_equal. f_equal. destruct (Z.eqb_spec (j - 1) (i - 1)), (Z.eqb_spec j i); (done || lia).
    + rewrite (proj2 (Z.eqb_neq j i)) by lia. by rewrite orb_false_r.
  - unfold within. rewrite (proj2 (Z.leb_gt 0 (j - 1))) by lia. by rewrite andb_false_r.
Qed.

Lemma bit_set_mark_range1 l a n j : 1 <= a -> 1 <= j ->
  bit_set_1based (mark_range_1based l a n) j = bit_set_1based l j || ((a <=? j) && (j <? a + n) && within l (j - 1)).
Proof.
  intros Ha Hj. unfold mark_range_1based.
  assert (forall ns l, bit_set_1based (foldl mark_bit_1based l ns) j = bit_set_1based l j || (bool_decide (j ∈ ns) && within l (j - 1))) as Hgen.
  { intros ns. induction ns as [|i ns IH]; intros l'; cbn [foldl]; [by rewrite bool_decide_false, orb_false_r by apply not_elem_of_nil|].
    rewrite IH, bit_set_mark1. unfold within. rewrite size_mark1. rewrite <- orb_assoc. f_equal. rewrite <- andb_orb_distrib_l. f_equal.
    destruct (Z.eqb_spec j i) as [->|Hne]; cbn [orb]; [by rewrite bool_decide_true by (by left)|].
    apply bool_decide_ext. rewrite elem_of_cons. naive_solver. }
  rewrite Hgen. f_equal. f_equal.
  destruct (Z.leb_spec a j), (Z.ltb_spec j (a + n)); cbn [andb]; [apply bool_decide_true|apply bool_decide_false..]; rewrite elem_of_seqZ; lia.
Qed.

(** ** The directory tree *)

(** Directory [i] has an entry for inode [j]. *)
Definition links d (i j : Z) : Prop :=
  is_dir (inode_at sb d i) = Ok true /\ exists es, read_dir_entries sb (inode_at sb d i) d = Ok (d, inl es) /\ j ∈ e_ino <$> es.

Lemma links_listed d i j es : read_dir_entries sb (inode_at sb d i) d = Ok (d, inl es) -> links d i j -> j ∈ e_ino <$> es.
Proof. intros He [_ (es' & He' & Hj)]. rewrite He in He'. by injection He' as <-. Qed.

Definition reachable d : Z -> Prop := rtc (links d) ROOT_INO.

(** Inode [i] owns block [b], for data or for pointers. *)
Definition owned d (i b : Z) : Prop := has_block_pointers (inode_at sb d i) = Ok true /\ b ∈ tree sb d (inode_at sb d i).

(** What is reachable can be read. *)
Record tree_ok d : Prop := {
  t_ino : forall i, reachable d i -> is_ino sb i;
  t_file : forall i, reachable d i -> has_block_pointers (inode_at sb d i) = Ok true -> file_ok sb d (inode_at sb d i);
  t_dir : forall i, reachable d i -> is_dir (inode_at sb d i) = Ok true -> exists es, read_dir_entries sb (inode_at sb d i) d = Ok (d, inl es);
}.

(** A way down from the root, last inode first. *)
Inductive trail d : list Z -> Prop :=
  | trail_root : trail d [ROOT_INO]
  | trail_step i j p : trail d (i :: p) -> links d i j -> trail d (j :: i :: p).

(** No way down without repetition is longer than the walk may recurse. *)
Definition shallow d : Prop := forall p, trail d p -> NoDup p -> (length p <= MAX_DEPTH)%nat.

Lemma trail_reachable d i p : trail d (i :: p) -> reachable d i.
Proof.
  revert i. induction p as [|k p IH]; intros i Ht; inversion Ht; subst; [apply rtc_refl|]. eapply rtc_r; [|done]. by apply IH.
Qed.

(** The types of an inode can be read. *)
Lemma inode_types d i : dev_ok sb d -> layout sb d -> is_ino sb i ->
  exists ptrs dir : bool, has_block_pointers (inode_at sb d i) = Ok ptrs /\ is_dir (inode_at sb d i) = Ok dir.
Proof.
  intros Hd Hl Hi. assert (size (inode_at sb d i) = inode_size sb) as Hs.
  { destruct (iblk_valid sb G d i Hl Hi) as [Hv _]. pose proof (ioff_bounds sb G i). destruct (g_isize sb G). unfold inode_at.
    apply size_sub; [lia|lia|]. rewrite (size_blk sb G) by done. lia. }
  destruct (g_isize sb G) as [Hz _]. assert (forall t, exists b, has_type (inode_at sb d i) t = Ok b) as Ht.
  { intros t. unfold has_type, i_mode. rewrite get_le_ok by lia. by eexists. }
  destruct (Ht 16384) as [bd Ed], (Ht 32768) as [br Er], (Ht 40960) as [bl El]. unfold has_block_pointers, is_fast_symlink, inode_size_of, is_dir, is_reg, is_symlink.
  rewrite Ed, Er, El. cbn [mbind outcome_bind]. rewrite !get_le_ok by lia. cbn [mbind outcome_bind].
  destruct (bd || br || bl), bl, br; cbn [mbind outcome_bind]; by eexists _, _.
Qed.

(** The marks [m'] after the marks [m]: what was marked stays, a new inode is
    reachable and has its blocks and its entries marked too, a new block is
    owned by something reachable. *)
Record grown d (m m' : Marks) : Prop := {
  gr_size : size m'.1 = size m.1 /\ size m'.2 = size m.2;
  gr_ino : forall i, bit_set_1based m.1 i = true -> bit_set_1based m'.1 i = true;
  gr_blk : forall b, 0 <= b -> bit_set m.2 b = true -> bit_set m'.2 b = true;
  gr_ino_new : forall i, bit_set_1based m'.1 i = true -> bit_set_1based m.1 i = false ->
    reachable d i /\ (forall b, owned d i b -> bit_set m'.2 b = true) /\ forall j, links d i j -> bit_set_1based m'.1 j = true;
  gr_blk_new : forall b, 0 <= b -> bit_set m'.2 b = true -> bit_set m.2 b = false -> exists i, reachable d i /\ owned d i b;
}.

Lemma grown_refl d m : grown d m m.
Proof. split; try done; intros i; [intros H1 H2|intros _ H1 H2]; congruence. Qed.

Lemma owned_mapped d i b : tree_ok d -> reachable d i -> owned d i b -> mapped sb b.
Proof.
  intros Ht Hr [Hp Hb]. pose proof (t_file d Ht i Hr Hp) as Hf. apply (elem_of_tree sb G d) in Hb as (s & j & q & Hk & Hn & Hb0).
  pose proof (f_data _ _ _ Hf s j q Hk) as Hd. subst b. by apply Hd.
Qed.

Lemma grown_trans d m1 m2 m3 : tree_ok d -> grown d m1 m2 -> grown d m2 m3 -> grown d m1 m3.
Proof.
  intros Ht [S1 I1 B1 N1 M1] [S2 I2 B2 N2 M2]. split.
  - destruct S1, S2. split; congruence.
  - auto.
  - auto.
  - intros i H3 H1. destruct (bit_set_1based m2.1 i) eqn:H2.
    + destruct (N1 i H2 H1) as (Hr & Hb & Hl). split; [done|]. split; [|intros j Hj; by apply I2, Hl].
      intros b Hob. apply B2, Hb; [|done]. pose proof (mapped_valid sb G b (owned_mapped d i b Ht Hr Hob)) as [? _]. done.
    + by apply N2.
  - intros b Hb H3 H1. destruct (bit_set m2.2 b) eqn:H2; [by apply M1|by apply M2].
Qed.

(** ** The walk *)

(** The bitmaps cover the volume. *)
Definition marks_fit (m : Marks) : Prop := size m.1 = (inodes_count sb + 7) / 8 /\ size m.2 = (blocks_count sb + 7) / 8.

Lemma fits_below n k : 0 <= k < n -> k / 8 < (n + 7) / 8.
Proof.
  intros Hk. pose proof (Z.div_mod k 8 ltac:(lia)). pose proof (Z.mod_pos_bound k 8 ltac:(lia)).
  pose proof (Z.div_mod (n + 7) 8 ltac:(lia)). pose proof (Z.mod_pos_bound (n + 7) 8 ltac:(lia)). lia.
Qed.

Lemma fit_ino m i : marks_fit m -> is_ino sb i -> within m.1 (i - 1) = true.
Proof.
  intros [Hs _] Hi. unfold is_ino in Hi. unfold within. rewrite Hs. pose proof (fits_below (inodes_count sb) (i - 1) ltac:(lia)). case_bools; (done || lia).
Qed.

Lemma fit_blk m b : marks_fit m -> valid b -> within m.2 b = true.
Proof.
  intros [_ Hs] Hb. unfold Ext2Inv.valid in Hb. unfold within. rewrite Hs. pose proof (fits_below (blocks_count sb) b Hb). case_bools; (done || lia).
Qed.

(** The blocks of an inode are marked. *)
Lemma visit_marks d raw ui ub : vol_ok sb d -> file_ok sb d raw ->
  visit_inode_blocks sb visit_mark raw (d, (ui, ub)) = Ok ((d, (ui, foldl mark_bit ub (tree sb d raw))), inl ()).
Proof.
  intros Hv Hf. set (K := fun (l : list Z) (x : D * Marks) => x = (d, (ui, foldl mark_bit ub l))).
  destruct (visit_inode_blocks_ok sb G visit_mark d raw K (d, (ui, ub))) as (x' & E & ->); try done.
  - intros l x b -> Hb. cbn [fst]. apply (elem_of_tree sb G) in Hb as (s & j & q & Hk & <- & Hn). apply (block_vec_ok sb G); [apply Hv|].
    apply (mapped_valid sb G), (f_data _ _ _ Hf s j q Hk Hn).
  - intros l r b x _ ->. eexists. split; [done|]. unfold K. cbn. by rewrite foldl_snoc.
Qed.

(** What one inode adds: its own mark and its blocks. *)
Lemma node_marks d i m raw ptrs : vol_ok sb d -> tree_ok d -> reachable d i -> marks_fit m ->
  raw = inode_at sb d i -> has_block_pointers raw = Ok ptrs ->
  exists m', (if ptrs then visit_inode_blocks sb visit_mark raw else mret ()) (d, (mark_bit_1based m.1 i, m.2)) = Ok ((d, m'), inl ()) /\
    m'.1 = mark_bit_1based m.1 i /\ size m'.2 = size m.2 /\
    (forall b, 0 <= b -> bit_set m'.2 b = true <-> bit_set m.2 b = true \/ owned d i b).
Proof.
  intros Hv Ht Hr Hfit -> Hp. destruct ptrs.
  - rewrite visit_marks by (done || by apply t_file). eexists. split; [done|]. cbn [fst snd]. split; [done|]. split; [apply size_foldl|].
    intros b Hb. rewrite bit_set_foldl; [|apply Forall_forall; intros x Hx; apply (mapped_valid sb G), (owned_mapped d i x Ht Hr); by split|done].
    rewrite orb_true_iff, andb_true_iff, bool_decide_eq_true. unfold owned. split; [tauto|]. intros [?|[_ Hin]]; [tauto|]. right. split; [done|].
    apply fit_blk; [done|]. apply (mapped_valid sb G), (owned_mapped d i b Ht Hr). by split.
  - eexists. split; [done|]. cbn [fst snd]. split_and!; try done. intros b Hb. unfold owned. rewrite Hp. split; [tauto|]. intros [?|[[=] _]]. done.
Qed.

(** An inode, its blocks, and then everything its entries lead to. *)
Lemma node_grown d ino m m1 m' : tree_ok d -> reachable d ino ->
  (forall i, bit_set_1based m1.1 i = bit_set_1based m.1 i || (i =? ino)) -> size m1.1 = size m.1 /\ size m1.2 = size m.2 ->
  (forall b, 0 <= b -> bit_set m1.2 b = true <-> bit_set m.2 b = true \/ owned d ino b) ->
  grown d m1 m' -> (forall j, links d ino j -> bit_set_1based m'.1 j = true) -> grown d m m' /\ bit_set_1based m'.1 ino = true.
Proof.
  intros Ht Hr Hm1 [Z1 Z2] M3 [S1 I1 B1 N1 K1] Hkids. split; [split|apply I1; rewrite Hm1, Z.eqb_refl; apply orb_true_r].
  - destruct S1 as [S1 S2]. split; congruence.
  - intros i Him. apply I1. by rewrite Hm1, Him.
  - intros b Hb Hbm. apply B1; [done|]. apply M3; auto.
  - intros i Him Hmi. destruct (decide (i = ino)) as [->|Hne]; [|apply N1; [done|]; rewrite Hm1, Hmi; by apply Z.eqb_neq].
    split; [done|]. split; [|done]. intros b Hob. pose proof (mapped_valid sb G b (owned_mapped d ino b Ht Hr Hob)) as [Hb0 _].
    apply B1; [done|]. apply M3; auto.
  - intros b Hb Hbm Hmb. destruct (bit_set m1.2 b) eqn:Hb1; [|by apply K1]. apply M3 in Hb1 as [?|Hob]; [congruence| |done]. by exists ino.
Qed.

(** Entries one after the other. *)
Lemma for_entries_ok d (f : Z -> Vol (D * Marks) unit) (P : Marks -> Prop) : tree_ok d ->
  (forall m m', P m -> grown d m m' -> P m') ->
  forall es, (forall e m, e ∈ es -> P m -> exists m', f (e_ino e) (d, m) = Ok ((d, m'), inl ()) /\ grown d m m' /\ bit_set_1based m'.1 (e_ino e) = true) ->
  forall m, P m -> exists m', for_entries f es (d, m) = Ok ((d, m'), inl ()) /\ grown d m m' /\ forall e, e ∈ es -> bit_set_1based m'.1 (e_ino e) = true.
Proof.
  intros Ht HP es. induction es as [|e es IH]; intros Hf m Hm; cbn [for_entries].
  { exists m. split_and!; [done|apply grown_refl|]. by intros e ?%elem_of_nil. }
  destruct (Hf e m ltac:(by left) Hm) as (m1 & E1 & G1 & S1). rewrite (bind_run _ _ _ _ _ E1).
  destruct (IH ltac:(intros e' m' He'; apply Hf; by right) m1) as (m2 & E2 & G2 & S2); [by apply (HP m)|].
  exists m2. split; [done|]. split; [by apply (grown_trans d m m1 m2)|]. intros e' [->|He']%elem_of_cons; [by apply (gr_ino _ _ _ G2)|by apply S2].
Qed.

Lemma mark_reachable_ok d : vol_ok sb d -> tree_ok d -> shallow d -> forall n ino p m,
  trail d (ino :: p) -> NoDup p -> (forall i, i ∈ p -> bit_set_1based m.1 i = true) -> (n + length p = MAX_DEPTH)%nat -> marks_fit m ->
  exists m', mark_reachable sb n ino (d, m) = Ok ((d, m'), inl ()) /\ grown d m m' /\ bit_set_1based m'.1 ino = true.
Proof.
  intros Hv Ht Hsh n. induction n as [|n IH]; intros ino p m Htr Hnd Hp Hlen Hfit; cbn [mark_reachable];
    rewrite (bind_run marks _ _ (d, m) m eq_refl); destruct (bit_set_1based m.1 ino) eqn:Hset.
  1,3: exists m; split_and!; [done|apply grown_refl|done].
  { exfalso. assert (length (ino :: p) <= MAX_DEPTH)%nat as Hle; [|cbn in Hle, Hlen; lia]. apply Hsh; [done|]. constructor; [|done].
    intros Hin. by rewrite Hp in Hset. }
  pose proof (trail_reachable d ino p Htr) as Hr. pose proof (t_ino d Ht ino Hr) as Hi.
  rewrite (bind_run (set_marks (mark_bit_1based m.1 ino, m.2)) _ (d, m) (d, (mark_bit_1based m.1 ino, m.2)) () eq_refl).
  rewrite (bind_run (on_dev (read_inode sb ino)) _ _ (d, (mark_bit_1based m.1 ino, m.2)) (inode_at sb d ino))
    by (unfold on_dev; cbn [fst]; by rewrite (read_inode_ok sb G d ino Hv Hi)).
  destruct (inode_types d ino (v_dev _ _ Hv) (v_layout _ _ Hv) Hi) as (ptrs & dir & Ep & Ed).
  rewrite (bind_lift _ _ _ _ Ep). destruct (node_marks d ino m _ ptrs Hv Ht Hr Hfit eq_refl Ep) as (m1 & E1 & M1 & M2 & M3).
  rewrite (bind_run _ _ _ _ _ E1), (bind_lift _ _ _ _ Ed).
  assert (size m1.1 = size m.1 /\ size m1.2 = size m.2) as Hsz by (by rewrite M1, size_mark1).
  assert (forall i, bit_set_1based m1.1 i = bit_set_1based m.1 i || (i =? ino)) as Hm1.
  { intros i. rewrite M1, bit_set_mark1. f_equal. destruct (Z.eqb_spec i ino) as [->|]; [|done]. by rewrite fit_ino. }
  assert (forall m', grown d m1 m' -> (forall j, links d ino j -> bit_set_1based m'.1 j = true) ->
    grown d m m' /\ bit_set_1based m'.1 ino = true) as Hfin by (intros m'; by apply node_grown).
  destruct dir.
  2: { exists m1. split; [done|]. apply Hfin; [apply grown_refl|]. intros j [Hd _]. congruence. }
  destruct (t_dir d Ht ino Hr Ed) as (es & Ees).
  rewrite (bind_run (on_dev (read_dir_entries sb (inode_at sb d ino))) _ _ (d, m1) es) by (unfold on_dev; cbn [fst]; by rewrite Ees).
  destruct (for_entries_ok d (mark_reachable sb n) (fun m2 => marks_fit m2 /\ forall i, i ∈ ino :: p -> bit_set_1based m2.1 i = true) Ht) with (es := es) (m := m1)
    as (m3 & E3 & G3 & Hall).
  - intros m2 m3 [[F1 F2] Hs] [[S1 S2] I2 _ _ _]. split; [split; congruence|]. intros i Hin. by apply I2, Hs.
  - intros e m2 He [Hf2 Hs]. apply (IH (e_ino e) (ino :: p) m2); [|constructor; [|done]|done|cbn in *; lia|done].
    + apply trail_step; [done|]. split; [done|]. exists es. split; [done|]. apply list_elem_of_fmap. by exists e.
    + intros Hin. by rewrite Hp in Hset.
  - destruct Hfit as [F1 F2]. split; [split; destruct Hsz; congruence|]. intros i [->|Hin]%elem_of_cons; rewrite Hm1; [by rewrite Z.eqb_refl, orb_true_r|by rewrite Hp].
  - exists m3. split; [done|]. apply Hfin; [done|]. intros j Hj%(links_listed _ _ _ _ Ees).
    apply list_elem_of_fmap in Hj as (e & -> & He). by apply Hall.
Qed.

Lemma bit_set_zeros n b : bit_set (replicate n 0) b = false.
Proof. unfold bit_set. destruct (replicate n 0 !! Z.to_nat (b / 8)) as [x|] eqn:Hx; [|done]. apply lookup_replicate in Hx as [-> _]. done. Qed.

(** From no inode marked, the walk marks what is reachable. *)
Lemma walk_ok d ub : vol_ok sb d -> tree_ok d -> shallow d -> marks_fit (replicate (Z.to_nat ((inodes_count sb + 7) / 8)) 0, ub) ->
  exists m', mark_reachable sb MAX_DEPTH ROOT_INO (d, (replicate (Z.to_nat ((inodes_count sb + 7) / 8)) 0, ub)) = Ok ((d, m'), inl ()) /\ marks_fit m' /\
    (forall i, bit_set_1based m'.1 i = true <-> reachable d i) /\
    (forall b, valid b -> bit_set m'.2 b = true <-> bit_set ub b = true \/ exists i, reachable d i /\ owned d i b).
Proof.
  intros Hv Ht Hsh Hfit. set (ui := replicate (Z.to_nat ((inodes_count sb + 7) / 8)) 0) in *.
  assert (forall i, bit_set_1based ui i = false) as H0 by (intros i; unfold bit_set_1based, ui; rewrite bit_set_zeros; apply andb_false_r).
  destruct (mark_reachable_ok d Hv Ht Hsh MAX_DEPTH ROOT_INO [] (ui, ub)) as (m' & E & [[S1 S2] I B N K] & Hroot);
    [apply trail_root|constructor|by intros i ?%elem_of_nil|done|done|].
  assert (forall i, bit_set_1based m'.1 i = true <-> reachable d i) as Hiff.
  { intros i. split; [intros Hi; by apply (N i Hi)|]. revert i. apply (rtc_ind_r (fun i => bit_set_1based m'.1 i = true)); [done|]. intros i j _ Hl IH. by apply (N i IH (H0 i)). }
  exists m'. split; [done|]. split; [destruct Hfit; split; congruence|]. split; [done|]. intros b [Hb _]. split.
  - intros Hbm. destruct (bit_set ub b) eqn:Hub; [by left|]. right. by apply K.
  - intros [Hub|(i & Hi & Hob)]; [by apply B|]. by apply (N i); [apply Hiff| |].
Qed.

(** ** Metadata *)

Definition bgdt_len : Z := (num_groups sb + block_size sb / 32 - 1) / (block_size sb / 32).

(** Blocks that belong to no inode but are never given back. *)
Definition group_reserved d (b g : Z) : Prop :=
  b = bbm d g \/ b = ibm d g \/ itab sb d g <= b < itab sb d g + table_blocks sb \/ gstart sb g <= b < gstart sb g + 1 + bgdt_len.
Definition reserved d (b : Z) : Prop :=
  b <= first_data_block sb \/ bgdt_block sb <= b < bgdt_block sb + bgdt_len \/ exists g, group g /\ group_reserved d b g.

Lemma ceil_div_ok a b : 0 <= a < 2 ^ 31 -> 0 < b <= 2 ^ 13 -> ceil_div a b = Ok ((a + b - 1) / b).
Proof.
  intros Ha Hb. unfold ceil_div, div_chk. rewrite !chk_ok; cbn [mbind outcome_bind]; try (change (2 ^ 32) with 4294967296; change (2 ^ 31) with 2147483648 in *; change (2 ^ 13) with 8192 in *; lia).
  rewrite chk_ok by (change (2 ^ 32) with 4294967296; change (2 ^ 31) with 2147483648 in *; change (2 ^ 13) with 8192 in *; lia). cbn [mbind outcome_bind].
  by rewrite (proj2 (Z.eqb_neq b 0)) by lia.
Qed.

(** The last descriptor block and the last block of a table are on the volume. *)
Lemma meta_ends d g : layout sb d -> group g ->
  0 < bgdt_len /\ bgdt_block sb + bgdt_len <= blocks_count sb /\ 0 <= itab sb d g /\ 0 < table_blocks sb /\ itab sb d g + table_blocks sb <= blocks_count sb /\
  0 <= gstart sb g < blocks_count sb + 1.
Proof.
  intros Hl Hg. pose proof groups_pos as [Hp _]. pose proof Hg as [Hg0 Hg1]. pose proof (dpb_bounds sb G) as [Hd1 Hd2].
  assert (bgdt_len = (num_groups sb - 1) / (block_size sb / 32) + 1) as Hlen.
  { unfold bgdt_len. replace (num_groups sb + block_size sb / 32 - 1) with (num_groups sb - 1 + 1 * (block_size sb / 32)) by lia. by rewrite Z.div_add by lia. }
  pose proof (Z.div_pos (num_groups sb - 1) (block_size sb / 32) ltac:(lia) ltac:(lia)).
  assert (role_ok sb (Desc ((num_groups sb - 1) / (block_size sb / 32)))) as Hr1 by (exists (num_groups sb - 1); split; [split; lia|done]).
  pose proof (l_mapped _ _ Hl _ Hr1) as Hm1. cbn [place] in Hm1. unfold mapped in Hm1.
  destruct (ipb_bounds sb G) as [Hi _]. destruct (g_ipg sb G) as [[Hipg _] _].
  assert (0 < table_blocks sb) as Ht by (apply Z.div_str_pos; lia).
  assert (role_ok sb (Table g (table_blocks sb - 1)) /\ role_ok sb (Table g 0)) as [Hr2 Hr3] by (split; (split; [done|lia])).
  pose proof (l_mapped _ _ Hl _ Hr2) as Hm2. pose proof (l_mapped _ _ Hl _ Hr3) as Hm3. cbn [place] in Hm2, Hm3. unfold mapped in Hm2, Hm3.
  destruct (sblk_spec sb G) as (Hs & Hs0 & _). pose proof (groups_cover sb G) as Hc. destruct (g_bpg sb G) as [[Hbp _] _].
  pose proof (g_first sb G) as Hf1. assert (first_data_block sb <= 1) by (destruct (_ =? _) in Hf1; lia).
  assert (0 <= g * blocks_per_group sb <= (num_groups sb - 1) * blocks_per_group sb) by nia. unfold gstart. lia.
Qed.

Lemma mark_groups_ok d ipbv : vol_ok sb d -> ipbv = ipb sb -> forall n g l, 0 <= g -> g + Z.of_nat n = num_groups sb -> size l = (blocks_count sb + 7) / 8 ->
  exists l', mark_groups sb bgdt_len ipbv n g l d = Ok (d, inl l') /\ size l' = size l /\
    forall b, valid b -> bit_set l' b = true <-> bit_set l b = true \/ exists g', g <= g' < num_groups sb /\ group_reserved d b g'.
Proof.
  intros Hv ->. pose proof (v_layout _ _ Hv) as Hl. induction n as [|n IH]; intros g l Hg Hn Hsz; cbn [mark_groups].
  { exists l. split_and!; try done. intros b _. split; [by left|]. intros [?|(g' & Hg' & _)]; [done|lia]. }
  assert (group g) as Hgg by (unfold Ext2Inv.group; lia).
  rewrite (bind_run _ _ _ _ _ (read_bgd_ok sb G d g (v_dev _ _ Hv) Hg ltac:(by apply (layout_dblk sb G d)))). cbn [block_bitmap inode_bitmap inode_table].
  destruct (ipb_bounds sb G) as [Hi1 Hi2]. destruct (g_ipg sb G) as [[Hipg _] Hip16]. destruct (g_isize sb G) as [Hz _]. pose proof (bs_bounds sb G) as [Hbs _].
  rewrite (bind_lift _ _ _ (table_blocks sb)) by (apply ceil_div_ok; change (2 ^ 31) with 2147483648; change (2 ^ 16) with 65536 in *; change (2 ^ 13) with 8192; nia).
  destruct (meta_ends d g Hl Hgg) as (Hb1 & Hb2 & Ht0 & Ht1 & Ht2 & Hgs). pose proof (blocks_small sb G) as Hbl. change (2 ^ 31) with 2147483648 in Hbl.
  pose proof (g_bgdt sb G) as Hbg. destruct (sblk_spec sb G) as (Hs & Hs0 & _).
  rewrite (bind_lift _ _ _ (itab sb d g + table_blocks sb)) by (apply chk_ok; change (2 ^ 32) with 4294967296; lia).
  destruct (group_chk sb G (E := Empty_set) g Hgg) as [Hc1 Hc2]. rewrite (bind_lift _ _ _ _ Hc1), (bind_lift _ _ _ _ Hc2).
  rewrite (bind_lift _ _ _ (gstart sb g + 1)) by (apply chk_ok; change (2 ^ 32) with 4294967296; lia).
  rewrite (bind_lift _ _ _ (gstart sb g + 1 + bgdt_len)) by (apply chk_ok; change (2 ^ 32) with 4294967296; lia).
  set (l1 := mark_range _ _ (1 + bgdt_len)). destruct (IH (g + 1) l1) as (l' & E & Hs' & Hl'); [lia|lia|by unfold l1; rewrite !size_mark_range, !size_mark|].
  exists l'. split; [exact E|]. split; [rewrite Hs'; unfold l1; by rewrite !size_mark_range, !size_mark|].
  intros b Hb. rewrite (Hl' b Hb). unfold l1. rewrite !bit_set_mark_range by (apply Hb || lia). unfold within. rewrite !size_mark_range, !size_mark.
  pose proof (layout_bbm sb G d g Hl Hgg) as [Hvb _]. pose proof (layout_ibm sb G d g Hl Hgg) as [Hvi _].
  rewrite !bit_set_mark by (done || apply Hb). unfold within. rewrite !size_mark, Hsz.
  pose proof (fits_below (blocks_count sb) b Hb) as Hf8. destruct Hb as [Hb0 Hb9]. rewrite (proj2 (Z.leb_le 0 b)), (proj2 (Z.ltb_lt (b / 8) _)) by done.
  cbn [andb]. rewrite !andb_true_r, !orb_true_iff, !andb_true_iff, !Z.leb_le, !Z.ltb_lt, !Z.eqb_eq. unfold group_reserved. split.
  - intros [Hcase|(g' & Hg' & Hres)]; [|right; exists g'; split; [lia|done]].
    destruct (decide (bit_set l b = true)) as [|Hnb]; [by left|]. right. exists g. split; [lia|]. naive_solver lia.
  - intros [?|(g' & Hg' & Hres)]; [tauto|]. destruct (decide (g' = g)) as [->|]; [left; naive_solver lia|right; exists g'; split; [lia|done]].
Qed.

Lemma mark_metadata_ok d l : vol_ok sb d -> size l = (blocks_count sb + 7) / 8 -> (forall b, bit_set l b = false) ->
  exists l', mark_metadata sb l d = Ok (d, inl l') /\ size l' = size l /\ forall b, valid b -> bit_set l' b = true <-> reserved d b.
Proof.
  intros Hv Hsz H0. unfold mark_metadata. pose proof groups_pos as [Hp Hgs]. pose proof (dpb_bounds sb G) as [Hd1 Hd2].
  pose proof (v_layout _ _ Hv) as Hl. assert (0 < num_groups sb) as Hng.
  { pose proof (groups_cover sb G). destruct (g_bpg sb G) as [[? _] _]. destruct (sblk_spec sb G) as (Hs & Hs0 & _). destruct (g_blocks sb G) as [Hc _]. nia. }
  assert (group 0) as Hg0 by (split; lia). destruct (meta_ends d 0 Hl Hg0) as (Hb1 & Hb2 & _). pose proof (blocks_small sb G) as Hbl.
  rewrite (bind_lift _ _ _ (block_size sb / 32)) by done.
  assert (num_groups sb < 2 ^ 31) as Hng31.
  { rewrite (g_groups sb G). destruct (g_bpg sb G) as [[? _] _]. apply Z.div_lt_upper_bound; [done|]. destruct (g_blocks sb G). change (2 ^ 31) with 2147483648 in *. nia. }
  rewrite (bind_lift _ _ _ bgdt_len) by (apply ceil_div_ok; [lia|change (2 ^ 13) with 8192; lia]).
  destruct (sblk_spec sb G) as (Hs & Hs0 & _). pose proof (g_bgdt sb G) as Hbg. change (2 ^ 31) with 2147483648 in *.
  rewrite (bind_lift _ _ _ (bgdt_block sb + bgdt_len)) by (apply chk_ok; change (2 ^ 32) with 4294967296; lia).
  destruct (g_isize sb G) as [Hz _].
  rewrite (bind_lift _ _ _ (ipb sb)) by (unfold div_chk; by rewrite (proj2 (Z.eqb_neq _ _)) by lia).
  destruct (mark_groups_ok d (ipb sb) Hv eq_refl groups 0 (mark_range (mark_range l 0 (first_data_block sb + 1)) (bgdt_block sb) bgdt_len)) as (l' & E & Hs' & Hl');
    [lia|lia|by rewrite !size_mark_range|].
  exists l'. split; [exact E|]. split; [by rewrite Hs', !size_mark_range|]. intros b Hb. rewrite (Hl' b Hb).
  rewrite !bit_set_mark_range by (apply Hb || lia). unfold within. rewrite !size_mark_range, Hsz, H0.
  pose proof (fits_below (blocks_count sb) b Hb) as Hf8. destruct Hb as [Hb0 Hb9]. rewrite (proj2 (Z.leb_le 0 b)), (proj2 (Z.ltb_lt (b / 8) _)) by done.
  cbn [andb orb]. rewrite !andb_true_r, !orb_true_iff, !andb_true_iff, !Z.leb_le, !Z.ltb_lt. unfold reserved. split.
  - intros [?|(g' & Hg' & Hres)]; [lia|]. right. right. by exists g'.
  - intros [?|[?|(g' & Hg' & Hres)]]; [lia|lia|]. right. by exists g'.
Qed.

(** ** The sweep *)

Lemma sweep_bits_ok keep keepf N : forall n bit l changed freed, 0 <= bit -> (bit + Z.of_nat n <= N) -> (N + 7) / 8 <= size l -> bytes_ok l ->
  (forall i, bit <= i < N -> keep i = Ok (keepf i)) -> 0 <= freed -> freed + Z.of_nat n < 2 ^ 32 ->
  exists l' c' freed', sweep_bits keep n bit l changed freed = Ok (l', c', freed') /\ size l' = size l /\ bytes_ok l' /\
    (forall j, 0 <= j -> Bits.get l' j = Bits.get l j && (keepf j || negb ((bit <=? j) && (j <? bit + Z.of_nat n)))) /\
    freed' = freed + (free_bits (Z.to_nat N) l' - free_bits (Z.to_nat N) l) /\ freed <= freed' /\
    (c' = true -> changed = true \/ freed < freed') /\ (c' = false -> l' = l /\ changed = false).
Proof.
  induction n as [|n IH]; intros bit l changed freed Hb HN Hl Hok Hk Hf Hf32; cbn [sweep_bits].
  { exists l, changed, freed. split_and!; try done; try lia; try (by auto). intros j Hj.
    case_bools; try lia; cbn; by rewrite orb_true_r, andb_true_r. }
  assert (0 <= bit / 8 < size l) as Hbyte.
  { pose proof (fits_below N bit ltac:(lia)). pose proof (Z.div_pos bit 8 Hb ltac:(lia)). lia. }
  rewrite byte_ok by done. cbn [mbind outcome_bind].
  assert (Bits.get l bit = negb (Z.land (l !!! Z.to_nat (bit / 8)) (Bits.mask bit) =? 0)) as Hg by done.
  assert (forall j, j <> bit -> (bit + 1 <=? j) && (j <? bit + 1 + Z.of_nat n) = (bit <=? j) && (j <? bit + Z.of_nat (S n))) as Hrange.
  { intros j Hj. case_bools; lia || done. }
  assert (forall c l1 freed1, bytes_ok l1 -> size l1 = size l -> freed1 + Z.of_nat n < 2 ^ 32 -> 0 <= freed1 -> _) as IH'
    by (intros c l1 freed1 H1 H2 H3 H4; apply (IH (bit + 1) l1 c freed1); [lia|lia|by rewrite H2|done|intros; apply Hk; lia|done|done]).
  destruct (Z.eqb_spec (Z.land (l !!! Z.to_nat (bit / 8)) (Bits.mask bit)) 0) as [H0|H1]; cbn [negb] in Hg.
  - destruct (IH' changed l freed Hok eq_refl ltac:(lia) Hf) as (l' & c' & f' & E & S1 & S2 & S3 & S4 & S5 & S6 & S7). exists l', c', f'. split_and!; try done.
    intros j Hj. rewrite S3 by done. destruct (decide (j = bit)) as [->|Hne]; [by rewrite Hg|]. by rewrite Hrange.
  - rewrite Hk by lia. cbn [mbind outcome_bind]. destruct (keepf bit) eqn:Hkeep.
    + destruct (IH' changed l freed Hok eq_refl ltac:(lia) Hf) as (l' & c' & f' & E & S1 & S2 & S3 & S4 & S5 & S6 & S7). exists l', c', f'. split_and!; try done.
      intros j Hj. rewrite S3 by done. destruct (decide (j = bit)) as [->|Hne]; [by rewrite Hkeep|]. by rewrite Hrange.
    + rewrite chk_ok by lia. cbn [mbind outcome_bind].
      assert (forall j, 0 <= j -> Bits.get (Bits.clear l bit) j = negb (bool_decide (bit = j)) && Bits.get l j) as Hc
        by (intros j Hj; apply Bits.get_clear; [done|done|unfold Bits.byte_ix, size in *; lia]).
      assert (Bits.get (Bits.clear l bit) bit = false) as Hc0 by (rewrite Hc by done; by rewrite bool_decide_true).
      assert (forall j, 0 <= j -> j <> bit -> Bits.get l j = Bits.get (Bits.clear l bit) j) as Hcne
        by (intros j Hj Hne; rewrite Hc by done; by rewrite bool_decide_false by congruence).
      destruct (IH' true (Bits.clear l bit) (freed + 1)) as (l' & c' & f' & E & S1 & S2 & S3 & S4 & S5 & S6 & S7);
        [by apply Bits.clear_ok|unfold size; by rewrite Bits.length_clear|lia|lia|].
      pose proof (free_bits_change (Z.to_nat N) (Bits.clear l bit) l bit ltac:(lia) Hcne Hg Hc0) as Hcount.
      exists l', c', f'. split_and!; try done; try lia; try (intros _; right; lia); try (by intros []%S7);
        try (by rewrite S1; unfold size; rewrite Bits.length_clear).
      intros j Hj. rewrite S3 by done. destruct (decide (j = bit)) as [->|Hne].
      * rewrite Hc0, Hg, Hkeep. case_bools; (done || lia).
      * rewrite Hrange by done. by rewrite <- Hcne.
Qed.

(** The sweep of one bitmap. *)
Lemma sweep_one d p keep keepf n freed : dev_ok sb d -> valid p -> 0 <= n < 2 ^ 16 -> (n + 7) / 8 <= block_size sb ->
  (forall i, 0 <= i < n -> keep i = Ok (keepf i)) -> 0 <= freed < 2 ^ 31 ->
  exists r d', sweep_bits keep (Z.to_nat n) 0 (blk d p) false freed = Ok r /\
    (if r.1.2 : bool then write_block sb p r.1.1 else mret ()) d = Ok (d', inl ()) /\ dev_ok sb d' /\
    (forall b, valid b -> b <> p -> blk d' b = blk d b) /\
    (forall j, 0 <= j -> Bits.get (blk d' p) j = Bits.get (blk d p) j && (keepf j || negb (j <? n))) /\
    r.2 = freed + (free_bits (Z.to_nat n) (blk d' p) - free_bits (Z.to_nat n) (blk d p)) /\ freed <= r.2 /\ (r.2 = freed -> d' = d).
Proof.
  intros Hd Hp Hn Hn8 Hk Hf. pose proof (size_blk sb G d p Hd Hp) as Hs. change (2 ^ 16) with 65536 in Hn. change (2 ^ 31) with 2147483648 in Hf.
  destruct (sweep_bits_ok keep keepf n (Z.to_nat n) 0 (blk d p) false freed) as (l' & c' & f' & E & S1 & S2 & S3 & S4 & S5 & S6 & S7);
    [lia|lia|by rewrite Hs|by apply blk_bytes|done|lia|change (2 ^ 32) with 4294967296; lia|].
  exists (l', c', f'). cbn [fst snd].
  assert (forall j, 0 <= j -> Bits.get l' j = Bits.get (blk d p) j && (keepf j || negb (j <? n))) as S3'.
  { intros j Hj. rewrite S3 by done. rewrite (proj2 (Z.leb_le 0 j) Hj). cbn [andb]. by rewrite Z.add_0_l, Z2Nat.id by lia. }
  destruct c'.
  - destruct (write_block_ok sb G d p l' Hd Hp) as (d' & Ew & [W1 W2 W3]); [by rewrite S1|done|]. exists d'. rewrite W2. split_and!; try done.
    intros He. destruct S6; [done|done|lia].
  - destruct S7 as [-> _]; [done|]. exists d. split_and!; try done.
Qed.

(** The groups below [g] have been swept: [kb] and [ki] say what is kept. *)
Record swept d d' (kb ki : Z -> bool) (g : Z) (fb fi : Z) : Prop := {
  sw_dev : dev_ok sb d';
  sw_blk : forall b, valid b -> (forall g', group g' -> b <> bbm d g' /\ b <> ibm d g') -> blk d' b = blk d b;
  sw_bbm : forall g' j, group g' -> 0 <= j -> Bits.get (blk d' (bbm d g')) j =
    Bits.get (blk d (bbm d g')) j && (kb (gstart sb g' + j) || negb ((g' <? g) && (j <? gblocks g')));
  sw_ibm : forall g' j, group g' -> 0 <= j -> Bits.get (blk d' (ibm d g')) j =
    Bits.get (blk d (ibm d g')) j && (ki (g' * inodes_per_group sb + j + 1) || negb ((g' <? g) && (j <? ginodes g')));
  sw_same : 0 <= fb /\ 0 <= fi /\ (fb = 0 -> fi = 0 -> d' = d);
  sw_fb : fb = tot (real_b d') groups - tot (real_b d) groups;
  sw_fi : fi = tot (real_i d') groups - tot (real_i d) groups;
}.

Lemma tot_one f f' g n : 0 <= g < Z.of_nat n -> (forall g', 0 <= g' < Z.of_nat n -> g' <> g -> f' g' = f g') -> tot f' n = tot f n + (f' g - f g).
Proof.
  induction n as [|n IH]; intros Hg He; [lia|]. cbn [tot]. destruct (decide (g = Z.of_nat n)) as [->|].
  - rewrite (tot_ext f' f n) by (intros; apply He; lia). lia.
  - rewrite IH by (done || lia || (intros; apply He; lia)). rewrite (He (Z.of_nat n)) by (congruence || lia). lia.
Qed.

Lemma swept_ptrs d d' kb ki g fb fi : disk_ok d -> swept d d' kb ki g fb fi -> forall g' off k, group g' -> dfield sb d' g' off k = dfield sb d g' off k.
Proof.
  intros Hk Hs g' off k Hg'. unfold dfield. rewrite (sw_blk _ _ _ _ _ _ _ Hs); [done|by apply (layout_dblk sb G d), Hg'; destruct Hk|].
  intros g2 Hg2. destruct Hk as [_ Hl _]. split; [by apply (dblk_ne_bbm sb d)|by apply (dblk_ne_ibm sb d)].
Qed.

Lemma keep_block_ok m g i : group g -> 0 <= i < gblocks g -> keep_block sb m g i = Ok (bit_set m (gstart sb g + i)).
Proof.
  intros Hg Hi. unfold keep_block. destruct (group_chk sb G (E := Empty_set) g Hg) as [H1 H2]. rewrite H1. cbn [mbind outcome_bind]. rewrite H2. cbn [mbind outcome_bind].
  destruct (block_of_bit sb G g i Hg Hi) as (Hm%(mapped_valid sb G) & _). unfold Ext2Inv.valid in Hm. pose proof (blocks_small sb G) as Hb.
  change (2 ^ 31) with 2147483648 in Hb. rewrite chk_ok by (change (2 ^ 32) with 4294967296; lia). done.
Qed.

Lemma keep_inode_ok m g i : group g -> 0 <= i < ginodes g -> keep_inode sb m g i = Ok (bit_set_1based m (g * inodes_per_group sb + i + 1)).
Proof.
  intros Hg Hi. unfold keep_inode. unfold Ext2Inv.ginodes in Hi. destruct (g_inodes sb G) as [[_ Hic] Hc32]. destruct (g_ipg sb G) as [[Hp _] _].
  unfold Ext2Inv.group in Hg. assert (0 <= g * inodes_per_group sb) by nia. change (2 ^ 32) with 4294967296 in *.
  rewrite !chk_ok by (change (2 ^ 32) with 4294967296; lia). cbn [mbind outcome_bind].
  rewrite !chk_ok by (change (2 ^ 32) with 4294967296; lia). cbn [mbind outcome_bind].
  rewrite !chk_ok by (change (2 ^ 32) with 4294967296; lia). done.
Qed.

(** One bitmap of group [g] swept, whichever it is. *)
Lemma swept_bound d d' kb ki g fb fi : inodes_count sb < 2 ^ 31 -> swept d d' kb ki g fb fi -> 0 <= fb < 2 ^ 31 /\ 0 <= fi < 2 ^ 31.
Proof.
  intros Hic [_ _ _ _ (H1 & H2 & _) H3 H4]. pose proof (tot_blocks d' groups ltac:(lia)). pose proof (tot_blocks d groups ltac:(lia)).
  pose proof (tot_inodes d' groups ltac:(lia)). pose proof (tot_inodes d groups ltac:(lia)). pose proof (blocks_small sb G). destruct (sblk_spec sb G) as (? & ? & _).
  change (2 ^ 31) with 2147483648 in *. lia.
Qed.

Lemma sweep_group d0 d m g fb fi : disk_ok d0 -> inodes_count sb < 2 ^ 31 -> group g ->
  let kb := bit_set m.2 in let ki := bit_set_1based m.1 in
  swept d0 d kb ki g fb fi ->
  exists r d1 q d2,
    sweep_bits (keep_block sb m.2 g) (Z.to_nat (gblocks g)) 0 (blk d (bbm d0 g)) false fb = Ok r /\
    (if r.1.2 : bool then write_block sb (bbm d0 g) r.1.1 else mret ()) d = Ok (d1, inl ()) /\ dev_ok sb d1 /\
    sweep_bits (keep_inode sb m.1 g) (Z.to_nat (ginodes g)) 0 (blk d1 (ibm d0 g)) false fi = Ok q /\
    (if q.1.2 : bool then write_block sb (ibm d0 g) q.1.1 else mret ()) d1 = Ok (d2, inl ()) /\
    swept d0 d2 kb ki (g + 1) r.2 q.2.
Proof.
  intros Hk Hic Hg kb ki Hs. pose proof Hk as [Hd0 Hl Hm]. pose proof (swept_bound _ _ _ _ _ _ _ Hic Hs) as [Bb Bi].
  pose proof (swept_ptrs _ _ _ _ _ _ _ Hk Hs) as Hdf. pose proof Hs as [W1 W2 W3 W4 (W5 & W6 & W7) W8 W9].
  assert (forall g', group g' -> valid (bbm d0 g') /\ valid (ibm d0 g')) as Hval by (intros g' Hg'; split; [by apply (layout_bbm sb G)|by apply (layout_ibm sb G)]).
  destruct (Hval g Hg) as [Hvb Hvi]. destruct (gblocks_bits sb G g) as [Gb1 Gb2]. destruct (ginodes_bits sb G g) as [Gi1 Gi2].
  destruct (sweep_one d (bbm d0 g) (keep_block sb m.2 g) (fun i => kb (gstart sb g + i)) (gblocks g) fb W1 Hvb Gb1 Gb2) as (r & d1 & E1 & E2 & B1 & B2 & B3 & B4 & B5 & B6);
    [intros i Hi; by apply keep_block_ok|done|].
  destruct (sweep_one d1 (ibm d0 g) (keep_inode sb m.1 g) (fun i => ki (g * inodes_per_group sb + i + 1)) (ginodes g) fi B1 Hvi Gi1 Gi2) as (q & d2 & E3 & E4 & I1 & I2 & I3 & I4 & I5 & I6);
    [intros i Hi; by apply keep_inode_ok|done|].
  exists r, d1, q, d2. split_and!; try done.
  assert (forall g', group g' -> blk d2 (bbm d0 g') = blk d1 (bbm d0 g')) as Hb2 by (intros g' Hg'; apply I2; [by apply Hval|by apply (bbm_ne_ibm sb)]).
  assert (forall g', group g' -> blk d1 (ibm d0 g') = blk d (ibm d0 g')) as Hi1 by (intros g' Hg'; apply B2; [by apply Hval|by apply not_eq_sym, (bbm_ne_ibm sb)]).
  assert (forall g', group g' -> g' <> g -> blk d1 (bbm d0 g') = blk d (bbm d0 g')) as Hb1
    by (intros g' Hg' Hne; apply B2; [by apply Hval|intros He; by apply Hne, (bbm_inj sb d0)]).
  assert (forall g', group g' -> g' <> g -> blk d2 (ibm d0 g') = blk d1 (ibm d0 g')) as Hi2
    by (intros g' Hg' Hne; apply I2; [by apply Hval|intros He; by apply Hne, (ibm_inj sb d0)]).
  assert (forall b, valid b -> (forall g', group g' -> b <> bbm d0 g' /\ b <> ibm d0 g') -> blk d2 b = blk d b) as Hoth.
  { intros b Hb Hne. destruct (Hne g Hg). by rewrite I2, B2. }
  assert (forall g' off k, group g' -> dfield sb d2 g' off k = dfield sb d0 g' off k) as Hdf2.
  { intros g' off k Hg'. rewrite <- Hdf by done. unfold dfield. rewrite Hoth; [done|by apply (layout_dblk sb G d0)|].
    intros g2 Hg2. split; [by apply (dblk_ne_bbm sb d0)|by apply (dblk_ne_ibm sb d0)]. }
  pose proof groups_pos as [_ Hgs].
  assert (forall g', 0 <= g' < Z.of_nat groups -> group g') as Hgrp by (intros g' Hg'; unfold Ext2Inv.group; lia).
  assert (forall g' : Z, g' <> g -> (g' <? g + 1) = (g' <? g)) as Hlt by (intros g' Hne; destruct (Z.ltb_spec g' g), (Z.ltb_spec g' (g + 1)); lia).
  split.
  - done.
  - intros b Hb Hne. rewrite Hoth by done. by apply W2.
  - intros g' j Hg' Hj. rewrite Hb2 by done. destruct (decide (g' = g)) as [->|Hne]; [|by rewrite Hb1, W3, Hlt].
    rewrite B3, W3 by done. rewrite Z.ltb_irrefl, (proj2 (Z.ltb_lt g (g + 1))) by lia. cbn [andb negb]. by rewrite orb_true_r, andb_true_r.
  - intros g' j Hg' Hj. destruct (decide (g' = g)) as [->|Hne]; [|by rewrite Hi2, Hi1, W4, Hlt].
    rewrite I3, Hi1, W4 by done. rewrite Z.ltb_irrefl, (proj2 (Z.ltb_lt g (g + 1))) by lia. cbn [andb negb]. by rewrite orb_true_r, andb_true_r.
  - split; [lia|]. split; [lia|]. intros R0 Q0. rewrite I6, B6 by lia. apply W7; lia.
  - rewrite B4, W8. rewrite (tot_one (real_b d) (real_b d2) g) by (destruct Hg; lia || (intros g' Hg' Hne; unfold real_b;
      rewrite (Hdf2 g' 0 4 (Hgrp g' Hg') : bbm d2 g' = bbm d0 g'), (Hdf g' 0 4 (Hgrp g' Hg') : bbm d g' = bbm d0 g'), Hb2, Hb1 by auto; done)).
    unfold real_b at 4 5. rewrite (Hdf2 g 0 4 Hg : bbm d2 g = bbm d0 g), (Hdf g 0 4 Hg : bbm d g = bbm d0 g), Hb2 by done. lia.
  - rewrite I4, W9. rewrite (tot_one (real_i d) (real_i d2) g) by (destruct Hg; lia || (intros g' Hg' Hne; unfold real_i;
      rewrite (Hdf2 g' 4 4 (Hgrp g' Hg') : ibm d2 g' = ibm d0 g'), (Hdf g' 4 4 (Hgrp g' Hg') : ibm d g' = ibm d0 g'), Hi2, Hi1 by auto; done)).
    unfold real_i at 4 5. rewrite (Hdf2 g 4 4 Hg : ibm d2 g = ibm d0 g), (Hdf g 4 4 Hg : ibm d g = ibm d0 g), Hi1 by done. lia.
Qed.

Lemma sweep_groups_ok d0 m : disk_ok d0 -> inodes_count sb < 2 ^ 31 -> forall n g fb fi d,
  swept d0 d (bit_set m.2) (bit_set_1based m.1) (Z.of_nat g) fb fi -> (g + n = groups)%nat ->
  exists d' fb' fi', sweep_groups sb n (Z.of_nat g) m fb fi d = Ok (d', inl (fb', fi')) /\
    swept d0 d' (bit_set m.2) (bit_set_1based m.1) (num_groups sb) fb' fi'.
Proof.
  intros Hk Hic. pose proof groups_pos as [_ Hgs]. induction n as [|n IH]; intros g fb fi d Hs Hn; cbn [sweep_groups].
  { exists d, fb, fi. split; [done|]. by replace (num_groups sb) with (Z.of_nat g) by lia. }
  assert (group (Z.of_nat g)) as Hg by (unfold Ext2Inv.group; lia). pose proof (k_layout _ Hk) as Hl. pose proof (sw_dev _ _ _ _ _ _ _ Hs) as W1.
  pose proof (swept_ptrs _ _ _ _ _ _ _ Hk Hs) as Hdf.
  rewrite (bind_run _ _ _ _ _ (read_bgd_ok sb G d _ W1 (Nat2Z.is_nonneg g) ltac:(by apply (layout_dblk sb G d0)))). cbn [block_bitmap inode_bitmap].
  rewrite (Hdf _ 0 4 Hg : bbm d (Z.of_nat g) = bbm d0 (Z.of_nat g)), (Hdf _ 4 4 Hg : ibm d (Z.of_nat g) = ibm d0 (Z.of_nat g)).
  rewrite (bind_run _ _ _ _ _ (block_vec_ok sb G d _ W1 (layout_bbm sb G d0 _ Hl Hg))), (bind_lift _ _ _ _ (blocks_in_group_ok sb G _ Hg)).
  destruct (sweep_group d0 d m _ fb fi Hk Hic Hg Hs) as (r & d1 & q & d2 & E1 & E2 & B1 & E3 & E4 & Hs2).
  rewrite (bind_lift _ _ _ _ E1), (bind_run _ _ _ _ _ E2).
  rewrite (bind_run _ _ _ _ _ (block_vec_ok sb G d1 _ B1 (layout_ibm sb G d0 _ Hl Hg))), (bind_lift _ _ _ _ (inodes_in_group_ok sb G _ Hg)).
  rewrite (bind_lift _ _ _ _ E3), (bind_run _ _ _ _ _ E4). replace (Z.of_nat g + 1) with (Z.of_nat (S g)) in * by lia. apply IH; [done|lia].
Qed.

Lemma swept_refl d kb ki : dev_ok sb d -> swept d d kb ki 0 0 0.
Proof.
  intros Hd. split; try done; try lia; [|]; intros g' j [Hg _] Hj; rewrite (proj2 (Z.ltb_ge g' 0)) by lia; cbn [andb negb]; by rewrite orb_true_r, andb_true_r.
Qed.

(** ** Reclaiming orphans *)

Lemma super_same d d' : dev_ok sb d -> dev_ok sb d' -> blk d' sblk = blk d sblk ->
  sb_free_blocks d' = sb_free_blocks d /\ sb_free_inodes d' = sb_free_inodes d.
Proof.
  intros Hd Hd' Hb. pose proof (bs_bounds sb G) as [Hbs _]. destruct (sblk_spec sb G) as (Hq1 & Hq2 & Hq3 & Hq4).
  assert (forall a, 1024 <= a -> a + 4 <= 2048 -> field a 4 (contents d') = field a 4 (contents d)) as Hf.
  { intros a Ha1 Ha2. replace a with (sblk * block_size sb + (a - sblk * block_size sb)) by lia.
    rewrite <- !(field_sub (sblk * block_size sb) (block_size sb)) by nia. unfold Ext2Inv.blk in Hb. by rewrite Hb. }
  split; apply Hf; lia.
Qed.

(** What the repair keeps. *)
Definition kept_block d (b : Z) : Prop := reserved d b \/ exists i, reachable d i /\ owned d i b.
Definition kept_inode d (i : Z) : Prop := reachable d i \/ i < first_ino sb.

Lemma meta_reserved d r : layout sb d -> role_ok sb r -> reserved d (place sb d r).
Proof.
  intros Hl Hr. destruct (sblk_spec sb G) as (Hs & Hs0 & _). destruct r as [|i|g|g|g i]; cbn [place role_ok] in *.
  - left. lia.
  - right. left. destruct Hr as (g & Hg & ->). pose proof (dpb_bounds sb G) as [Hd1 _]. pose proof Hg as [Hg0 Hg1].
    pose proof (Z.div_pos g (block_size sb / 32) Hg0 ltac:(lia)). unfold bgdt_len.
    replace (num_groups sb + block_size sb / 32 - 1) with (num_groups sb - 1 + 1 * (block_size sb / 32)) by lia. rewrite Z.div_add by lia.
    pose proof (Z.div_le_mono g (num_groups sb - 1) (block_size sb / 32) ltac:(lia) ltac:(lia)). lia.
  - right. right. exists g. split; [done|]. by left.
  - right. right. exists g. split; [done|]. right. by left.
  - right. right. destruct Hr as [Hg Hi]. exists g. split; [done|]. right. right. left. lia.
Qed.

Record reclaimed d d' (fb fi : Z) : Prop := {
  rl_ok : vol_ok sb d';
  rl_ptrs : ptrs_same sb d d';
  rl_used : forall b, mapped sb b -> used sb d' b = true <-> used sb d b = true /\ kept_block d b;
  rl_inodes : forall i, is_ino sb i -> inode_used sb d' i = true <-> inode_used sb d i = true /\ kept_inode d i;
  rl_blk : forall b, valid b -> ~ core_meta sb d b -> blk d' b = blk d b;
  rl_freed : fb = tot (real_b d') groups - tot (real_b d) groups /\ fi = tot (real_i d') groups - tot (real_i d) groups;
  rl_same : 0 <= fb /\ 0 <= fi /\ (fb = 0 -> fi = 0 -> d' = d);
}.

(** The bitmaps after a full sweep. *)
Lemma swept_used d d' kb ki fb fi : disk_ok d -> swept d d' kb ki (num_groups sb) fb fi ->
  (forall b, mapped sb b -> used sb d' b = used sb d b && kb b) /\ (forall i, is_ino sb i -> inode_used sb d' i = inode_used sb d i && ki i).
Proof.
  intros Hk Hs. pose proof (swept_ptrs _ _ _ _ _ _ _ Hk Hs) as Hdf. split.
  - intros b Hb. destruct (grp_ok sb G b Hb) as (Hg & Hbit & Hbe). unfold used. rewrite (Hdf _ 0 4 Hg : bbm d' _ = bbm d _).
    rewrite (sw_bbm _ _ _ _ _ _ _ Hs) by (done || lia). rewrite <- Hbe. rewrite (proj2 (Z.ltb_lt (grp sb b) _)), (proj2 (Z.ltb_lt (bit sb b) _)) by (apply Hg || lia).
    cbn [andb negb]. by rewrite orb_false_r.
  - intros i Hi. destruct (igrp_ok sb G i Hi) as (Hg & Hbit & Hie). unfold inode_used. fold (igrp sb i) (ibit sb i). rewrite (Hdf _ 4 4 Hg : ibm d' _ = ibm d _).
    rewrite (sw_ibm _ _ _ _ _ _ _ Hs) by (done || lia). rewrite (proj2 (Z.ltb_lt (igrp sb i) _)), (proj2 (Z.ltb_lt (ibit sb i) _)) by (apply Hg || lia).
    cbn [andb negb]. rewrite orb_false_r. f_equal. f_equal. lia.
Qed.

(** The sweep, then the counts. *)
Section after_sweep.
Variables (d d1 : D) (m : Marks) (fb fi : Z).
Hypothesis Hv : vol_ok sb d.
Hypothesis Hmb : forall b, valid b -> bit_set m.2 b = true <-> kept_block d b.
Hypothesis Hmi : forall i, is_ino sb i -> bit_set_1based m.1 i = true <-> kept_inode d i.
Hypothesis Hs : swept d d1 (bit_set m.2) (bit_set_1based m.1) (num_groups sb) fb fi.

Lemma sweep_used b : mapped sb b -> used sb d1 b = true <-> used sb d b = true /\ kept_block d b.
Proof.
  intros Hb. destruct (swept_used d d1 _ _ _ _ (vol_disk d Hv) Hs) as [Hu _]. rewrite Hu by done.
  by rewrite andb_true_iff, Hmb by (by apply (mapped_valid sb G)).
Qed.

Lemma sweep_inodes i : is_ino sb i -> inode_used sb d1 i = true <-> inode_used sb d i = true /\ kept_inode d i.
Proof. intros Hi. destruct (swept_used d d1 _ _ _ _ (vol_disk d Hv) Hs) as [_ Hu]. rewrite Hu by done. by rewrite andb_true_iff, Hmi. Qed.

Lemma sweep_ptrs : ptrs_same sb d d1.
Proof. intros g off Hg _. by apply (swept_ptrs _ _ _ _ _ _ _ (vol_disk d Hv) Hs). Qed.

Lemma sweep_blk b : valid b -> ~ core_meta sb d b -> blk d1 b = blk d b.
Proof.
  intros Hb Hnc. apply (sw_blk _ _ _ _ _ _ _ Hs); [done|].
  intros g' Hg'. split; intros ->; apply Hnc; [exists (BlockBitmap g')|exists (InodeBitmap g')]; (split; [done|by split; [intros []|]]).
Qed.

Lemma sweep_disk : disk_ok d1.
Proof.
  split; [apply Hs|apply (ptrs_layout sb d); [apply sweep_ptrs|apply Hv]|]. intros r Hr. rewrite (ptrs_place sb d d1 r sweep_ptrs Hr).
  apply sweep_used; [by apply Hv|]. split; [by apply Hv|]. left. apply meta_reserved; [apply Hv|done].
Qed.

Lemma sweep_super : sb_free_blocks d1 = sb_free_blocks d /\ sb_free_inodes d1 = sb_free_inodes d.
Proof.
  pose proof (v_layout _ _ Hv) as Hl. apply super_same; [apply Hv|apply Hs|]. apply (sw_blk _ _ _ _ _ _ _ Hs).
  - apply (mapped_valid sb G), (l_mapped _ _ Hl Super I).
  - intros g' Hg'. split; [by apply not_eq_sym, (bbm_ne_super sb d)|by apply not_eq_sym, (ibm_ne_super sb d)].
Qed.

Lemma recount_reclaims d2 rep : 0 < fb \/ 0 < fi -> counted d1 d2 rep -> reclaimed d d2 fb fi.
Proof.
  intros Hpos [C1 C2 C3 C4 C5 C6]. pose proof sweep_disk as Hk1. pose proof (k_layout _ Hk1) as Hl1. destruct (sw_same _ _ _ _ _ _ _ Hs) as (W5 & W6 & _).
  assert (forall g, group g -> blk d2 (bbm d1 g) = blk d1 (bbm d1 g) /\ blk d2 (ibm d1 g) = blk d1 (ibm d1 g)) as Hmaps.
  { intros g Hg. split; apply C3; [by apply (layout_bbm sb G)|by apply (bbm_ne_super sb)|intros; by apply bbm_not_desc|
      by apply (layout_ibm sb G)|by apply (ibm_ne_super sb)|intros; by apply ibm_not_desc]. }
  pose proof groups_pos as [_ Hgs]. assert (forall g, 0 <= g < Z.of_nat groups -> group g) as Hgrp by (intros g Hg; unfold Ext2Inv.group; lia).
  split.
  - done.
  - apply (ptrs_trans sb d d1); [apply sweep_ptrs|done].
  - intros b Hb. rewrite <- sweep_used by done. unfold used. destruct (grp_ok sb G b Hb) as (Hg & _). by rewrite (ptrs_bbm sb d1 d2 _ C2 Hg), (proj1 (Hmaps _ Hg)).
  - intros i Hin. rewrite <- sweep_inodes by done. unfold inode_used. fold (igrp sb i). destruct (igrp_ok sb G i Hin) as (Hg & _).
    by rewrite (ptrs_ibm sb d1 d2 _ C2 Hg), (proj2 (Hmaps _ Hg)).
  - intros b Hb Hnc. rewrite C3; [by apply sweep_blk|done| |].
    + intros ->. apply Hnc. exists Super. split; [done|by split; [intros []|]].
    + intros g Hg ->. apply Hnc. exists (Desc (g / (block_size sb / 32))). split; [by apply group_desc|by split; [intros []|]].
  - rewrite (sw_fb _ _ _ _ _ _ _ Hs), (sw_fi _ _ _ _ _ _ _ Hs). split; f_equal; apply tot_ext; intros g Hg%Hgrp; unfold real_b, real_i;
      [by rewrite (ptrs_bbm sb d1 d2 _ C2 Hg), (proj1 (Hmaps _ Hg))|by rewrite (ptrs_ibm sb d1 d2 _ C2 Hg), (proj2 (Hmaps _ Hg))].
  - split; [done|]. split; [done|]. lia.
Qed.

Lemma sweep_reclaims : inodes_count sb < 2 ^ 31 -> 0 <= sb_free_blocks d < 2 ^ 31 -> 0 <= sb_free_inodes d < 2 ^ 31 ->
  exists d', (if (0 <? fb) || (0 <? fi) then _ ← reconcile_free_counts sb; mret () else mret ()) d1 = Ok (d', inl ()) /\ reclaimed d d' fb fi.
Proof.
  intros Hic Hsb Hsi. destruct (sw_same _ _ _ _ _ _ _ Hs) as (W5 & W6 & W7).
  destruct (decide (0 < fb \/ 0 < fi)) as [Hpos|Hz].
  - assert ((0 <? fb) || (0 <? fi) = true) as -> by (rewrite orb_true_iff, !Z.ltb_lt; done). destruct sweep_super as [Hf1 Hf2].
    destruct (reconcile_ok d1 sweep_disk) as (d2 & rep & E & C); [by rewrite Hf1|by rewrite Hf2|done|]. exists d2.
    split; [by rewrite (bind_run _ _ _ _ _ E)|]. by apply (recount_reclaims d2 rep).
  - assert ((0 <? fb) || (0 <? fi) = false) as -> by (rewrite orb_false_iff, !Z.ltb_ge; lia). exists d1. split; [done|].
    assert (d1 = d) as He by (apply W7; lia).
    split; [by rewrite He|apply sweep_ptrs|apply sweep_used|apply sweep_inodes|apply sweep_blk| |done].
    rewrite <- (sw_fb _ _ _ _ _ _ _ Hs), <- (sw_fi _ _ _ _ _ _ _ Hs). done.
Qed.

End after_sweep.

Lemma reclaim_ok d : vol_ok sb d -> tree_ok d -> shallow d -> inodes_count sb < 2 ^ 31 -> 0 <= sb_free_blocks d < 2 ^ 31 -> 0 <= sb_free_inodes d < 2 ^ 31 ->
  exists d' fb fi, reclaim_orphans sb d = Ok (d', inl (fb, fi)) /\ reclaimed d d' fb fi.
Proof.
  intros Hv Ht Hsh Hic Hsb Hsi. unfold reclaim_orphans. pose proof (blocks_small sb G) as Hbl. destruct (sblk_spec sb G) as (Hs & Hs0 & _).
  destruct (g_blocks sb G) as [Hbc _]. destruct (g_inodes sb G) as [[Hin _] _].
  pose proof (Z.div_pos (blocks_count sb + 7) 8 ltac:(lia) ltac:(lia)). pose proof (Z.div_pos (inodes_count sb + 7) 8 ltac:(lia) ltac:(lia)).
  destruct (mark_metadata_ok d (replicate (Z.to_nat ((blocks_count sb + 7) / 8)) 0) Hv) as (ub & E1 & S1 & M1); [by apply size_replicate|intros; apply bit_set_zeros|].
  rewrite (bind_run _ _ _ _ _ E1). destruct (walk_ok d ub Hv Ht Hsh) as (m & E2 & F2 & I2 & B2); [split; [by apply size_replicate|cbn; by rewrite S1, size_replicate]|].
  erewrite bind_run by (cbv beta; rewrite E2; reflexivity).
  set (m' := (mark_range_1based m.1 1 (first_ino sb - 1), m.2)).
  destruct (sweep_groups_ok d m' (vol_disk d Hv) Hic groups 0 0 0 d) as (d1 & fb & fi & E3 & Hsw); [apply swept_refl, Hv|done|].
  change (Z.of_nat 0) with 0 in E3. rewrite (bind_run _ _ _ _ _ E3). cbn [fst snd].
  destruct (sweep_reclaims d d1 m' fb fi Hv) as (d' & E4 & Hr); try done.
  - intros b Hb. cbn [snd m']. rewrite B2, M1 by done. done.
  - intros i Hi. cbn [fst m']. pose proof Hi as [Hi1 Hi2]. rewrite bit_set_mark_range1 by lia. rewrite (fit_ino m i F2 Hi), andb_true_r.
    unfold kept_inode. rewrite <- I2, orb_true_iff, andb_true_iff, Z.leb_le, Z.ltb_lt.
    split; (intros [?|?]; [by left|right; lia]).
  - exists d', fb, fi. split; [|done]. rewrite (bind_run _ _ _ _ _ E4). done.
Qed.

End repair.
End Ext2RepairInv.
