(* ===== verification/Ext2Fs.v ===== *)
(** The kernel's ext2 adapter ([kernel/src/fs/ext2.rs]): its own copy of the
    bitmap allocator, and the inode and file-handle operations it gives the
    VFS on top of the [ext2] crate.

    Operations run on the device and keep their effects when they fail
    ([Fs]).  Each runs under the lock of the source, so they are sequential
    here; an [Ext2Inode] is the number and the copy of the on-disk record its
    lookup read, and an open file description has a copy of its own.  The
    clock ([now_unix_secs]) is an argument. *)

From Stdlib Require Import ZArith Lia.
From stdpp Require Import base numbers gmap list.
From S2P Require Import Prelude Bits Bytes FsTypes Ext2Format Ext2Volume Ext2Dir.

Local Open Scope Z_scope.

Module Ext2Fs.
Import Bytes Ext2Format Ext2Volume Ext2Dir.
Export FsTypes.

(** [impl From<Ext2Error> for Errno]. *)
Definition errno_of (e : Ext2Error) : Errno :=
  match e with
  | Io | BadMagic | UnsupportedFeature => EIO
  | NoSpace => ENOSPC
  | TooLarge => EFBIG
  | NotFound => ENOENT
  | TooDeep => ELOOP
  end.

Definition ext2_file_type_to_vfs (ft : Z) : FileType :=
  if ft =? 2 then Directory else if ft =? 7 then Symlink else if ft =? 3 then BlockDev else if ft =? 4 then CharDevice else Regular.
Definition vfs_file_type_to_ext2 (kind : FileType) : Z :=
  match kind with Directory => 2 | Symlink => 7 | BlockDev => 3 | CharDevice => 4 | Regular => 1 end.

(** ** Calls into the core crate *)

(** [.map_err(Into::into)]. *)
Definition core {D A} (m : Vol D A) : Fs D A := fun d =>
  match m d with
  | Ok (d1, inl a) => Ok (d1, inl a)
  | Ok (d1, inr e) => Ok (d1, inr (errno_of e))
  | Err e => match e with end
  | Panic => Panic
  end.

(** An operation of the core crate that takes [&mut raw]: the inode after it,
    whether or not it failed, and its result. *)
Definition with_raw {D A} (raw : RawInode) (m : Vol (D * RawInode) A) : Fs D (RawInode * (A + Errno)) := fun d =>
  match m (d, raw) with
  | Ok ((d1, raw1), inl a) => Ok (d1, inl (raw1, inl a))
  | Ok ((d1, raw1), inr e) => Ok (d1, inl (raw1, inr (errno_of e)))
  | Err e => match e with end
  | Panic => Panic
  end.

Section fs.
Context {D : Type} `{BlockDevice D}.
Variable sb : Superblock.

(** ** The adapter's own allocator *)

Definition block_vec (b : Z) : Fs D bytes := core (Ext2Volume.block_vec sb b).
Definition write_block (b : Z) (buf : bytes) : Fs D unit := core (Ext2Volume.write_block sb b buf).

Definition bgd_location (group : Z) : may_panic (Z * Z) :=
  let bgd_per_block := block_size sb / 32 in
  if bgd_per_block =? 0 then Panic else
  bgd_block ← chk 32 (bgdt_block sb + group / bgd_per_block);
  Ok (bgd_block, group mod bgd_per_block * 32).

Definition read_bgd (group : Z) : Fs D BlockGroupDesc :=
  loc ← pure (bgd_location group);
  buf ← block_vec loc.1;
  bb ← pure (get_le loc.2 4 buf);
  ib ← pure (get_le (loc.2 + 4) 4 buf);
  it ← pure (get_le (loc.2 + 8) 4 buf);
  fb ← pure (get_le (loc.2 + 12) 2 buf);
  fi ← pure (get_le (loc.2 + 14) 2 buf);
  mret (mkBgd bb ib it fb fi).

Definition adjust_bgd_counts (group free_blocks_delta free_inodes_delta used_dirs_delta : Z) : Fs D unit :=
  loc ← pure (bgd_location group);
  buf ← block_vec loc.1;
  b1 ← pure (adjust16 (loc.2 + 12) free_blocks_delta buf);
  b2 ← pure (adjust16 (loc.2 + 14) free_inodes_delta b1);
  b3 ← pure (adjust16 (loc.2 + 16) used_dirs_delta b2);
  write_block loc.1 b3.

Definition adjust_sb_counts (free_blocks_delta free_inodes_delta : Z) : Fs D unit :=
  raw ← core (dev_read 2 2 (replicate 1024 0));
  r1 ← pure (adjust32 12 free_blocks_delta raw);
  r2 ← pure (adjust32 16 free_inodes_delta r1);
  core (dev_write 2 2 r2).

Definition blocks_in_group (group : Z) : may_panic Z :=
  p ← chk 32 (group * blocks_per_group sb);
  start ← chk 32 (first_data_block sb + p);
  Ok (Z.min (Z.max 0 (blocks_count sb - start)) (blocks_per_group sb)).

Definition inodes_in_group (group : Z) : may_panic Z :=
  start ← chk 32 (group * inodes_per_group sb);
  Ok (Z.min (Z.max 0 (inodes_count sb - start)) (inodes_per_group sb)).

(** [for bit in bit..bit + n] of [alloc_block] in one group. *)
Fixpoint alloc_block_bits (n : nat) (group : Z) (bgd : BlockGroupDesc) (bitmap : bytes) (bit : Z) : Fs D (option Z) :=
  match n with
  | O => mret None
  | S n' =>
      b ← pure (byte bitmap (bit / 8));
      if Z.land b (Bits.mask bit) =? 0 then
        _ ← write_block (block_bitmap bgd) (Bits.set bitmap bit);
        _ ← adjust_bgd_counts group (-1) 0 0;
        _ ← adjust_sb_counts (-1) 0;
        p ← pure (chk 32 (group * blocks_per_group sb));
        base ← pure (chk 32 (first_data_block sb + p));
        block_num ← pure (chk 32 (base + bit));
        _ ← write_block block_num (replicate (Z.to_nat (block_size sb)) 0);
        mret (Some block_num)
      else alloc_block_bits n' group bgd bitmap (bit + 1)
  end.

Fixpoint alloc_block_groups (n : nat) (group : Z) : Fs D (option Z) :=
  match n with
  | O => mret None
  | S n' =>
      bgd ← read_bgd group;
      if free_blocks bgd =? 0 then alloc_block_groups n' (group + 1) else
      group_blocks ← pure (blocks_in_group group);
      bitmap ← block_vec (block_bitmap bgd);
      r ← alloc_block_bits (Z.to_nat group_blocks) group bgd bitmap 0;
      match r with Some b => mret (Some b) | None => alloc_block_groups n' (group + 1) end
  end.

Definition alloc_block : Fs D (option Z) := alloc_block_groups (Z.to_nat (num_groups sb)) 0.

Definition free_block (block_num : Z) : Fs D unit :=
  if (block_num <? first_data_block sb) || (blocks_count sb <=? block_num) then err EIO else
  let group := (block_num - first_data_block sb) / blocks_per_group sb in
  let bit := (block_num - first_data_block sb) mod blocks_per_group sb in
  bgd ← read_bgd group;
  bitmap ← block_vec (block_bitmap bgd);
  _ ← pure (byte bitmap (bit / 8));
  _ ← write_block (block_bitmap bgd) (Bits.clear bitmap bit);
  _ ← adjust_bgd_counts group 1 0 0;
  adjust_sb_counts 1 0.

Fixpoint alloc_inode_bits (n : nat) (group : Z) (is_dir : bool) (bgd : BlockGroupDesc) (bitmap : bytes) (bit : Z) : Fs D (option Z) :=
  match n with
  | O => mret None
  | S n' =>
      b ← pure (byte bitmap (bit / 8));
      if Z.land b (Bits.mask bit) =? 0 then
        _ ← write_block (inode_bitmap bgd) (Bits.set bitmap bit);
        _ ← adjust_bgd_counts group 0 (-1) (if is_dir then 1 else 0);
        _ ← adjust_sb_counts 0 (-1);
        p ← pure (chk 32 (group * inodes_per_group sb));
        q ← pure (chk 32 (p + bit));
        ino ← pure (chk 32 (q + 1));
        mret (Some ino)
      else alloc_inode_bits n' group is_dir bgd bitmap (bit + 1)
  end.

Fixpoint alloc_inode_groups (n : nat) (group : Z) (is_dir : bool) : Fs D (option Z) :=
  match n with
  | O => mret None
  | S n' =>
      bgd ← read_bgd group;
      if free_inodes bgd =? 0 then alloc_inode_groups n' (group + 1) is_dir else
      group_inodes ← pure (inodes_in_group group);
      bitmap ← block_vec (inode_bitmap bgd);
      r ← alloc_inode_bits (Z.to_nat group_inodes) group is_dir bgd bitmap 0;
      match r with Some i => mret (Some i) | None => alloc_inode_groups n' (group + 1) is_dir end
  end.

Definition alloc_inode (is_dir : bool) : Fs D (option Z) := alloc_inode_groups (Z.to_nat (num_groups sb)) 0 is_dir.

Definition free_inode (ino : Z) (is_dir : bool) : Fs D unit :=
  if (ino <? 1) || (inodes_count sb <? ino) then err EIO else
  let group := (ino - 1) / inodes_per_group sb in
  let bit := (ino - 1) mod inodes_per_group sb in
  bgd ← read_bgd group;
  bitmap ← block_vec (inode_bitmap bgd);
  _ ← pure (byte bitmap (bit / 8));
  _ ← write_block (inode_bitmap bgd) (Bits.clear bitmap bit);
  _ ← adjust_bgd_counts group 0 1 (if is_dir then -1 else 0);
  adjust_sb_counts 0 1.

(** ** Wrappers of the core crate *)

Definition read_inode (ino : Z) : Fs D RawInode := core (Ext2Volume.read_inode sb ino).
Definition write_inode (ino : Z) (raw : RawInode) : Fs D unit := core (Ext2Volume.write_inode sb ino raw).
Definition read_file_range (raw : RawInode) (offset len : Z) : Fs D bytes := core (Ext2Volume.read_file_range sb raw offset len).
Definition write_file_range (ino : Z) (raw : RawInode) (offset : Z) (data : bytes) : Fs D (RawInode * (Z + Errno)) :=
  with_raw raw (Ext2Volume.write_file_range sb ino offset data).

Record Ext2DirEntry := mkDirEntry { ino : Z; kind : FileType; name : bytes }.

Definition read_dir_entries (raw : RawInode) : Fs D (list Ext2DirEntry) :=
  es ← core (Ext2Dir.read_dir_entries sb raw);
  mret ((fun e => mkDirEntry (e_ino e) (ext2_file_type_to_vfs (e_file_type e)) (e_name e)) <$> es).

Definition add_dir_entry (dir_ino : Z) (dir_raw : RawInode) (name : bytes) (ino : Z) (kind : FileType) : Fs D (RawInode * (unit + Errno)) :=
  with_raw dir_raw (Ext2Dir.add_dir_entry sb dir_ino name ino (vfs_file_type_to_ext2 kind)).

Definition remove_dir_entry (dir_raw : RawInode) (name : bytes) : Fs D (Z * FileType) :=
  e ← core (Ext2Dir.remove_dir_entry sb dir_raw name);
  mret (e.1, ext2_file_type_to_vfs e.2).

(** [for i in i..i + n { raw.set_i_block(i, 0) }]. *)
Fixpoint clear_slots (n : nat) (i : Z) (raw : RawInode) : may_panic RawInode :=
  match n with
  | O => Ok raw
  | S n' => raw1 ← set_i_block raw i 0; clear_slots n' (i + 1) raw1
  end.

(** The inode afterwards; when the walk fails it is as it was. *)
Definition free_all_blocks (raw : RawInode) : Fs D RawInode :=
  ptrs ← pure (has_block_pointers raw);
  raw1 ← (if ptrs : bool then
            r ← with_raw raw (visit_inode_blocks sb (fun b => on_dev (Ext2Volume.free_block sb b)) raw);
            _ ← rethrow r.2;
            pure (clear_slots 15 0 raw)
          else mret raw);
  raw2 ← pure (set_size raw1 0);
  pure (set_blocks_512 raw2 0).

Definition truncate_to_zero (ino : Z) (raw : RawInode) : Fs D RawInode :=
  raw1 ← free_all_blocks raw;
  _ ← write_inode ino raw1;
  mret raw1.

(** ** Inodes *)

Record Ext2Inode := mkInode { i_ino : Z; i_raw : RawInode }.

Definition new (ino : Z) : Fs D Ext2Inode := raw ← read_inode ino; mret (mkInode ino raw).
Definition root : Fs D Ext2Inode := new ROOT_INO.

(** [Inode::file_type] of the mode [Ext2Inode::stat] reports. *)
Definition file_type (node : Ext2Inode) : may_panic FileType :=
  d ← is_dir (i_raw node);
  if d : bool then Ok Directory else
  s ← is_symlink (i_raw node);
  if s : bool then Ok Symlink else Ok Regular.

Definition lookup (self : Ext2Inode) (nm : bytes) : Fs D Ext2Inode :=
  d ← pure (is_dir (i_raw self));
  if negb d then err ENOTDIR else
  es ← read_dir_entries (i_raw self);
  e ← ok_or ENOENT (snd <$> list_find (fun e => name e = nm) es);
  new (ino e).

(** The entry past the synthetic "." and ".." at [n]. *)
Definition readdir (self : Ext2Inode) (offset : Z) : Fs D (option (Z * FileType * bytes)) :=
  d ← pure (is_dir (i_raw self));
  if negb d then err ENOTDIR else
  if offset =? 0 then mret (Some (i_ino self, Directory, DOT)) else
  if offset =? 1 then mret (Some (i_ino self, Directory, DOTDOT)) else
  es ← read_dir_entries (i_raw self);
  mret ((fun e => (ino e, kind e, take 255 (name e))) <$> es !! Z.to_nat (offset - 2)).

Definition create (self : Ext2Inode) (nm : bytes) : Fs D Ext2Inode :=
  d ← pure (is_dir (i_raw self));
  if negb d then err ENOTDIR else
  found ← attempt (lookup self nm);
  match found with
  | inl existing =>
      t ← pure (file_type existing);
      if bool_decide (t = Directory) then err EISDIR else mret existing
  | inr _ =>
      a ← alloc_inode false;
      new_ino ← ok_or ENOSPC a;
      raw1 ← pure (set_i_mode (zeroed (inode_size sb)) (Z.lor 32768 420));
      new_raw ← pure (set_links_count raw1 1);
      _ ← write_inode new_ino new_raw;
      r ← add_dir_entry (i_ino self) (i_raw self) nm new_ino Regular;
      match r.2 with
      | inr e => _ ← attempt (free_inode new_ino false); err e
      | inl _ => new new_ino
      end
  end.

(** The block of a new directory: "." and "..", the latter with the rest. *)
Definition dot_block (new_ino parent_ino : Z) : may_panic bytes :=
  let bs := block_size sb in
  let dot_len := dirent_len 1 in
  let remaining := bs - dot_len in
  let buf := replicate (Z.to_nat bs) 0 in
  s0 ← get 0 dot_len buf;
  s1 ← write_dirent s0 new_ino (wrap 16 dot_len) DOT 2;
  b1 ← put 0 s1 buf;
  s2 ← get dot_len remaining b1;
  s3 ← write_dirent s2 parent_ino (wrap 16 remaining) DOTDOT 2;
  put dot_len s3 b1.

Definition mkdir (self : Ext2Inode) (nm : bytes) : Fs D Ext2Inode :=
  d ← pure (is_dir (i_raw self));
  if negb d then err ENOTDIR else
  found ← attempt (lookup self nm);
  match found with
  | inl _ => err EEXIST
  | inr _ =>
      a ← alloc_inode true;
      new_ino ← ok_or ENOSPC a;
      b ← alloc_block;
      match b with
      | None => _ ← attempt (free_inode new_ino true); err ENOSPC
      | Some new_block =>
          raw1 ← pure (set_i_mode (zeroed (inode_size sb)) (Z.lor 16384 493));
          raw2 ← pure (set_links_count raw1 2);
          raw3 ← pure (set_i_block raw2 0 new_block);
          new_raw ← pure (set_size raw3 (block_size sb));
          buf ← pure (dot_block new_ino (i_ino self));
          _ ← write_block new_block buf;
          _ ← write_inode new_ino new_raw;
          r ← add_dir_entry (i_ino self) (i_raw self) nm new_ino Directory;
          match r.2 with
          | inr e => _ ← attempt (free_block new_block); _ ← attempt (free_inode new_ino true); err e
          | inl _ =>
              links ← pure (links_count r.1);
              links1 ← pure (chk 16 (links + 1));
              parent_raw ← pure (set_links_count r.1 links1);
              _ ← write_inode (i_ino self) parent_raw;
              new new_ino
          end
      end
  end.

Definition unlink (now : Z) (self : Ext2Inode) (nm : bytes) : Fs D unit :=
  d ← pure (is_dir (i_raw self));
  if negb d then err ENOTDIR else
  child ← lookup self nm;
  t ← pure (file_type child);
  if bool_decide (t = Directory) then err EISDIR else
  e ← remove_dir_entry (i_raw self) nm;
  child_raw ← read_inode e.1;
  l ← pure (links_count child_raw);
  let links := Z.max 0 (l - 1) in
  child_raw1 ← pure (set_links_count child_raw links);
  if links =? 0 then
    child_raw2 ← free_all_blocks child_raw1;
    child_raw3 ← pure (set_dtime child_raw2 (wrap 32 now));
    _ ← write_inode e.1 child_raw3;
    free_inode e.1 false
  else write_inode e.1 child_raw1.

Definition rmdir (now : Z) (self : Ext2Inode) (nm : bytes) : Fs D unit :=
  d ← pure (is_dir (i_raw self));
  if negb d then err ENOTDIR else
  child ← lookup self nm;
  t ← pure (file_type child);
  if negb (bool_decide (t = Directory)) then err ENOTDIR else
  first ← readdir child 2;
  match first with
  | Some _ => err ENOTEMPTY
  | None =>
      e ← remove_dir_entry (i_raw self) nm;
      child_raw ← read_inode e.1;
      child_raw1 ← free_all_blocks child_raw;
      child_raw2 ← pure (set_dtime child_raw1 (wrap 32 now));
      _ ← write_inode e.1 child_raw2;
      _ ← free_inode e.1 true;
      l ← pure (links_count (i_raw self));
      parent_raw ← pure (set_links_count (i_raw self) (Z.max 0 (l - 1)));
      write_inode (i_ino self) parent_raw
  end.

Definition take_child (self : Ext2Inode) (nm : bytes) : Fs D Ext2Inode :=
  d ← pure (is_dir (i_raw self));
  if negb d then err ENOTDIR else
  child ← lookup self nm;
  e ← remove_dir_entry (i_raw self) nm;
  _ ← (if bool_decide (e.2 = Directory) then
         l ← pure (links_count (i_raw self));
         parent_raw ← pure (set_links_count (i_raw self) (Z.max 0 (l - 1)));
         write_inode (i_ino self) parent_raw
       else mret ());
  mret child.

(** [node] is of this file system. *)
Definition insert_child (self : Ext2Inode) (nm : bytes) (node : Ext2Inode) : Fs D unit :=
  d ← pure (is_dir (i_raw self));
  if negb d then err ENOTDIR else
  found ← attempt (lookup self nm);
  match found with
  | inl _ => err EEXIST
  | inr _ =>
      k ← pure (file_type node);
      r ← add_dir_entry (i_ino self) (i_raw self) nm (i_ino node) k;
      _ ← rethrow r.2;
      if bool_decide (k = Directory) then
        _ ← core (set_dotdot sb (i_raw node) (i_ino self));
        l ← pure (links_count r.1);
        l1 ← pure (chk 16 (l + 1));
        parent_raw ← pure (set_links_count r.1 l1);
        write_inode (i_ino self) parent_raw
      else mret ()
  end.

(** [vfs::rename] between two directories of this file system. *)
Definition rename (old_parent : Ext2Inode) (old_leaf : bytes) (new_parent : Ext2Inode) (new_leaf : bytes) : Fs D unit :=
  node ← take_child old_parent old_leaf;
  r ← attempt (insert_child new_parent new_leaf node);
  match r with
  | inr e => _ ← attempt (insert_child old_parent old_leaf node); err e
  | inl _ => mret ()
  end.

Definition readlink (self : Ext2Inode) : Fs D bytes :=
  s ← pure (is_symlink (i_raw self));
  if negb s then err EINVAL else core (read_symlink_target sb (i_raw self)).

Definition symlink (self : Ext2Inode) (nm target : bytes) : Fs D Ext2Inode :=
  d ← pure (is_dir (i_raw self));
  if negb d then err ENOTDIR else
  found ← attempt (lookup self nm);
  match found with
  | inl _ => err EEXIST
  | inr _ =>
      a ← alloc_inode false;
      new_ino ← ok_or ENOSPC a;
      raw1 ← pure (set_i_mode (zeroed (inode_size sb)) (Z.lor 40960 511));
      new_raw ← pure (set_links_count raw1 1);
      w ← with_raw new_raw (write_symlink_target sb new_ino target);
      match w.2 with
      | inr e => _ ← attempt (free_all_blocks w.1); _ ← attempt (free_inode new_ino false); err e
      | inl _ =>
          r ← add_dir_entry (i_ino self) (i_raw self) nm new_ino Symlink;
          match r.2 with
          | inr e => _ ← attempt (free_all_blocks w.1); _ ← attempt (free_inode new_ino false); err e
          | inl _ => new new_ino
          end
      end
  end.

(** [(i_mode & 0xF000) | (mode & 0o7777)]. *)
Definition chmod_raw (raw : RawInode) (mode : Z) : may_panic RawInode :=
  m ← i_mode raw;
  set_i_mode raw (Z.lor (Z.land m 61440) (Z.land (wrap 16 mode) 4095)).

Definition chmod (self : Ext2Inode) (mode : Z) : Fs D unit :=
  raw ← read_inode (i_ino self);
  raw1 ← pure (chmod_raw raw mode);
  write_inode (i_ino self) raw1.

(** ** Open files *)

(** An open file description: descriptors made by [dup] share it. *)
Record Ext2FileHandle := mkHandle { h_ino : Z; h_raw : RawInode; h_offset : Z }.

(** An open file, or a snapshot of a directory's entries. *)
Inductive Opened := AFile (h : Ext2FileHandle) | ADir (ino : Z) (snapshot : list (Z * FileType * bytes)).

Definition open (self : Ext2Inode) (flags : Z) : Fs D Opened :=
  s ← pure (is_symlink (i_raw self));
  if s : bool then err EINVAL else
  d ← pure (is_dir (i_raw self));
  if d : bool then
    if is_write flags then err EISDIR else
    es ← read_dir_entries (i_raw self);
    mret (ADir (i_ino self) ((i_ino self, Directory, DOT) :: (i_ino self, Directory, DOTDOT) ::
            ((fun e => (ino e, kind e, take 255 (name e))) <$> es)))
  else
    raw ← (if is_write flags && negb (Z.land flags TRUNC =? 0) then truncate_to_zero (i_ino self) (i_raw self) else mret (i_raw self));
    start_offset ← (if negb (Z.land flags APPEND =? 0) then pure (inode_size_of raw) else mret 0);
    mret (AFile (mkHandle (i_ino self) raw start_offset)).

(** The handle afterwards, and the bytes read into a buffer of [len]. *)
Definition handle_read (h : Ext2FileHandle) (len : Z) : Fs D (Ext2FileHandle * bytes) :=
  size ← pure (inode_size_of (h_raw h));
  if size <=? h_offset h then mret (h, []) else
  let n := Z.min len (size - h_offset h) in
  data ← read_file_range (h_raw h) (h_offset h) n;
  mret (mkHandle (h_ino h) (h_raw h) (h_offset h + n), data).

(** The handle afterwards, whether or not the write failed, and its result. *)
Definition handle_write (h : Ext2FileHandle) (buf : bytes) : Fs D (Ext2FileHandle * (Z + FileError)) :=
  r ← write_file_range (h_ino h) (h_raw h) (h_offset h) buf;
  mret match r.2 with
       | inl n => (mkHandle (h_ino h) r.1 (h_offset h + n), inl n)
       | inr e => (mkHandle (h_ino h) r.1 (h_offset h), inr (if e =? ENOSPC then NoSpaceLeft else IOError))
       end.

Definition handle_seek (h : Ext2FileHandle) (offset whence : Z) : may_panic (Ext2FileHandle * (Z + FileError)) :=
  size ← inode_size_of (h_raw h);
  Ok match compute_seek (as_i64 (h_offset h)) (as_i64 size) offset whence with
     | inl new_pos => (mkHandle (h_ino h) (h_raw h) new_pos, inl new_pos)
     | inr e => (h, inr e)
     end.

Definition handle_chmod (h : Ext2FileHandle) (mode : Z) : Fs D (Ext2FileHandle * (unit + FileError)) :=
  raw1 ← pure (chmod_raw (h_raw h) mode);
  r ← attempt (write_inode (h_ino h) raw1);
  mret (mkHandle (h_ino h) raw1 (h_offset h), match r with inl _ => inl () | inr _ => inr IOError end).

End fs.
End Ext2Fs.
