(* ===== verification/Ext2Adapter.v ===== *)
(** Correctness of the ext2 adapter ([Ext2Fs]): its allocator is the core
    crate's, and truncating or deleting a file frees exactly its blocks. *)

From Stdlib Require Import ZArith Lia.
From stdpp Require Import base numbers gmap list.
From S2P Require Import Prelude Bits Bytes Ext2Format Ext2Volume Ext2Inv Ext2Files Ext2Walk Ext2Dir Ext2Fs.

Local Open Scope Z_scope.

Module Ext2Adapter.
Import Bytes Ext2Format Ext2Volume Ext2Inv Ext2Files Ext2Walk Ext2Fs.

(** ** Two monads *)

Lemma fs_assoc {D A B C} (m : Fs D A) (f : A -> Fs D B) (g : B -> Fs D C) d : ((m ≫= f) ≫= g) d = (m ≫= fun a => f a ≫= g) d.
Proof. unfold mbind, fs_bind. by destruct (m d) as [[d1 [a|e]]|[]|]. Qed.

Lemma pure_run {D A B} (o : may_panic A) (f : A -> Fs D B) d a : o = Ok a -> (pure o ≫= f) d = f a d.
Proof. by intros ->. Qed.

Lemma core_run {D A} (m : Vol D A) d d1 a : m d = Ok (d1, inl a) -> core m d = Ok (d1, inl a).
Proof. unfold core. by intros ->. Qed.

Lemma core_bind {D A B} (m : Vol D A) (f : A -> Fs D B) (g : A -> Vol D B) d :
  (forall a d1, m d = Ok (d1, inl a) -> f a d1 = core (g a) d1) -> (core m ≫= f) d = core (m ≫= g) d.
Proof.
  intros Hfg. unfold mbind, fs_bind, vol_bind, core. destruct (m d) as [[d1 [a|e]]|[]|] eqn:Hm; try done. by rewrite Hfg.
Qed.

Lemma pure_bind {D A B} (o : may_panic A) (f : A -> Fs D B) (g : A -> Vol D B) d :
  (forall a, o = Ok a -> f a d = core (g a) d) -> (pure o ≫= f) d = core (lift o ≫= g) d.
Proof. intros Hfg. unfold mbind, fs_bind, vol_bind, core, pure, lift. destruct o as [a|[]|]; try done. cbn. by rewrite Hfg. Qed.

Lemma bind_ext_fs {D A B} (m m' : Fs D A) (f g : A -> Fs D B) d : m d = m' d -> (forall a d1, f a d1 = g a d1) -> (m ≫= f) d = (m' ≫= g) d.
Proof. intros Hm Hf. unfold mbind, fs_bind. rewrite Hm. destruct (m' d) as [[d1 [a|e]]|[]|]; [apply Hf|done|done]. Qed.

(** ** The two allocators *)

Section alloc.
Context {D : Type} `{BlockDevice D}.
Variable sb : Superblock.
Hypothesis Hbs : 0 <= block_size sb.
Implicit Types d : D.

Lemma block_vec_size b d d1 buf : Ext2Volume.block_vec sb b d = Ok (d1, inl buf) -> size buf = block_size sb.
Proof.
  unfold Ext2Volume.block_vec, read_block. rewrite size_replicate, Z.ltb_irrefl by done. destruct (_ <=? b); [done|].
  unfold mbind at 1, vol_bind. unfold lift. destruct (chk 32 _) as [lba|[]|]; [|done]. cbn [mbind outcome_bind]. unfold dev_read.
  destruct (read_sectors _ _ _ _) as [b'|] eqn:Hr; [|done]. intros Hok. assert (b' = buf) as <- by congruence.
  apply read_len in Hr. rewrite Hr. by apply size_replicate.
Qed.

Lemma bgd_location_same g : Ext2Fs.bgd_location sb g = Ext2Format.bgd_location sb g.
Proof. done. Qed.

Lemma bgd_location_fits g loc : Ext2Format.bgd_location sb g = Ok loc -> 0 <= loc.2 /\ loc.2 + 32 <= block_size sb.
Proof.
  unfold Ext2Format.bgd_location. destruct (Z.eqb_spec (block_size sb / 32) 0) as [|Hn]; [done|].
  pose proof (Z.div_pos (block_size sb) 32 Hbs ltac:(lia)). pose proof (Z.mod_pos_bound g (block_size sb / 32) ltac:(lia)).
  pose proof (Z.mul_div_le (block_size sb) 32 ltac:(lia)). destruct (chk 32 _) as [b|[]|]; [|done]. cbn [mbind outcome_bind].
  intros Hok. assert (loc = (b, g mod (block_size sb / 32) * 32)) as -> by congruence. cbn [snd]. lia.
Qed.

Lemma read_bgd_same g d : Ext2Fs.read_bgd sb g d = core (Ext2Volume.read_bgd sb g) d.
Proof.
  unfold Ext2Fs.read_bgd, Ext2Volume.read_bgd. apply pure_bind. intros loc Hloc. apply core_bind. intros buf d1 Hbuf.
  apply block_vec_size in Hbuf. destruct (bgd_location_fits g loc Hloc) as [H1 H2].
  unfold pure, core, parse_bgd, lift. rewrite (get_ok loc.2 (size buf - loc.2) buf) by lia.
  unfold mbind, fs_bind, vol_bind, outcome_bind. rewrite !get_le_ok by (rewrite ?size_sub; lia). rewrite !field_sub by lia.
  by rewrite Z.add_0_r.
Qed.

Lemma adjust_bgd_counts_same g x y z d : Ext2Fs.adjust_bgd_counts sb g x y z d = core (Ext2Volume.adjust_bgd_counts sb g x y z) d.
Proof.
  unfold Ext2Fs.adjust_bgd_counts, Ext2Volume.adjust_bgd_counts. apply pure_bind. intros loc _. apply core_bind. intros buf d1 _.
  do 3 (apply pure_bind; intros ? _). done.
Qed.

Lemma adjust_sb_counts_same x y d : Ext2Fs.adjust_sb_counts x y d = core (Ext2Volume.adjust_sb_counts x y) d.
Proof.
  unfold Ext2Fs.adjust_sb_counts, Ext2Volume.adjust_sb_counts. apply core_bind. intros raw d1 _. do 2 (apply pure_bind; intros ? _). done.
Qed.

(** [f] is [m] of the core, then what follows them. *)
Lemma same_bind {A B} (m : Fs D A) (m' : Vol D A) (f : A -> Fs D B) (g : A -> Vol D B) d :
  (forall d, m d = core m' d) -> (forall a d, f a d = core (g a) d) -> (m ≫= f) d = core (m' ≫= g) d.
Proof. intros Hm Hf. rewrite <- (core_bind m' f g) by (intros; apply Hf). apply bind_ext_fs; [apply Hm|done]. Qed.

Lemma pure_same {A B} (o : may_panic A) (f : A -> Fs D B) (g : A -> Vol D B) d :
  (forall a d, f a d = core (g a) d) -> (pure o ≫= f) d = core (lift o ≫= g) d.
Proof. intros Hf. apply pure_bind. intros; apply Hf. Qed.

Lemma byte_set_bit (bitmap : bytes) bit b : byte bitmap (bit / 8) = @Ok Empty_set _ b -> set_bit bitmap bit = Ok (Bits.set bitmap bit).
Proof. unfold set_bit. by intros ->. Qed.

Lemma alloc_block_bits_same n g bgd bitmap (K : Fs D (option Z)) (K' : Vol D (option Z)) d : forall bit, (forall d, K d = core K' d) ->
  (Ext2Fs.alloc_block_bits sb n g bgd bitmap bit ≫= fun r => match r with Some b => mret (Some b) | None => K end) d =
  core (found ← lift (find_first_free_bit_from n bitmap bit);
        match found with
        | Some bit =>
            bmap1 ← lift (set_bit bitmap bit);
            _ ← Ext2Volume.write_block sb (block_bitmap bgd) bmap1;
            _ ← Ext2Volume.adjust_bgd_counts sb g (-1) 0 0;
            _ ← Ext2Volume.adjust_sb_counts (-1) 0;
            p ← lift (chk 32 (g * blocks_per_group sb));
            base ← lift (chk 32 (first_data_block sb + p));
            block_num ← lift (chk 32 (base + bit));
            _ ← Ext2Volume.write_block sb block_num (replicate (Z.to_nat (block_size sb)) 0);
            mret (Some block_num)
        | None => K'
        end) d.
Proof.
  induction n as [|n IH]; intros bit HK; cbn [alloc_block_bits find_first_free_bit_from].
  { unfold mbind, fs_bind, vol_bind, mret, fs_ret, core, lift. cbn. apply HK. }
  rewrite fs_assoc. unfold lift at 1. destruct (byte bitmap (bit / 8)) as [b|[]|] eqn:Hb; [|done].
  cbn [mbind outcome_bind]. change ((pure (Ok b) ≫= ?f) d) with (f b d). cbv beta.
  destruct (Z.land b (Bits.mask bit) =? 0); [|by apply IH].
  change (core (lift (Ok (Some bit)) ≫= ?f) d) with (core (f (Some bit)) d). cbv beta iota.
  rewrite (byte_set_bit _ _ _ Hb). change (core (lift (Ok ?x) ≫= ?f) d) with (core (f x) d). cbv beta.
  rewrite fs_assoc. apply same_bind; [done|]. intros _ d1. rewrite fs_assoc. apply same_bind; [by intros; apply adjust_bgd_counts_same|].
  intros _ d2. rewrite fs_assoc. apply same_bind; [by intros; apply adjust_sb_counts_same|]. intros _ d3.
  rewrite fs_assoc. apply pure_same. intros p d4. rewrite fs_assoc. apply pure_same. intros base d5. rewrite fs_assoc. apply pure_same. intros bn d6.
  rewrite fs_assoc. apply same_bind; [done|]. done.
Qed.

Lemma alloc_block_same d : Ext2Fs.alloc_block sb d = core (Ext2Volume.alloc_block sb) d.
Proof.
  unfold Ext2Fs.alloc_block, Ext2Volume.alloc_block. generalize (Z.to_nat (num_groups sb)) as n, 0 as g. intros n. revert d.
  induction n as [|n IH]; intros d g; cbn [alloc_block_groups alloc_block_from]; [done|].
  apply same_bind; [by intros; apply read_bgd_same|]. intros bgd d1. destruct (free_blocks bgd =? 0); [apply IH|].
  apply pure_same. intros gb d2. apply same_bind; [done|]. intros bitmap d3. by apply alloc_block_bits_same.
Qed.

Lemma free_block_same b d : Ext2Fs.free_block sb b d = core (Ext2Volume.free_block sb b) d.
Proof.
  unfold Ext2Fs.free_block, Ext2Volume.free_block. destruct (_ || _); [done|].
  apply same_bind; [by intros; apply read_bgd_same|]. intros bgd d1. apply same_bind; [done|]. intros bitmap d2.
  unfold clear_bit. set (bit := (b - first_data_block sb) mod blocks_per_group sb). destruct (byte bitmap (bit / 8)) as [x|[]|]; [|done].
  apply (same_bind (Ext2Fs.write_block sb (block_bitmap bgd) (Bits.clear bitmap bit)) (Ext2Volume.write_block sb (block_bitmap bgd) (Bits.clear bitmap bit))); [done|].
  intros _ d3. apply same_bind; [by intros; apply adjust_bgd_counts_same|]. intros _ d4. apply adjust_sb_counts_same.
Qed.

Lemma alloc_inode_bits_same n g is_dir bgd bitmap (K : Fs D (option Z)) (K' : Vol D (option Z)) d : forall bit, (forall d, K d = core K' d) ->
  (Ext2Fs.alloc_inode_bits sb n g is_dir bgd bitmap bit ≫= fun r => match r with Some b => mret (Some b) | None => K end) d =
  core (found ← lift (find_first_free_bit_from n bitmap bit);
        match found with
        | Some bit =>
            bmap1 ← lift (set_bit bitmap bit);
            _ ← Ext2Volume.write_block sb (inode_bitmap bgd) bmap1;
            _ ← Ext2Volume.adjust_bgd_counts sb g 0 (-1) (if is_dir then 1 else 0);
            _ ← Ext2Volume.adjust_sb_counts 0 (-1);
            p ← lift (chk 32 (g * inodes_per_group sb));
            q ← lift (chk 32 (p + bit));
            ino ← lift (chk 32 (q + 1));
            mret (Some ino)
        | None => K'
        end) d.
Proof.
  induction n as [|n IH]; intros bit HK; cbn [alloc_inode_bits find_first_free_bit_from].
  { unfold mbind, fs_bind, vol_bind, mret, fs_ret, core, lift. cbn. apply HK. }
  rewrite fs_assoc. unfold lift at 1. destruct (byte bitmap (bit / 8)) as [b|[]|] eqn:Hb; [|done].
  cbn [mbind outcome_bind]. change ((pure (Ok b) ≫= ?f) d) with (f b d). cbv beta.
  destruct (Z.land b (Bits.mask bit) =? 0); [|by apply IH].
  change (core (lift (Ok (Some bit)) ≫= ?f) d) with (core (f (Some bit)) d). cbv beta iota.
  rewrite (byte_set_bit _ _ _ Hb). change (core (lift (Ok ?x) ≫= ?f) d) with (core (f x) d). cbv beta.
  rewrite fs_assoc. apply same_bind; [done|]. intros _ d1. rewrite fs_assoc. apply same_bind; [by intros; apply adjust_bgd_counts_same|].
  intros _ d2. rewrite fs_assoc. apply same_bind; [by intros; apply adjust_sb_counts_same|]. intros _ d3.
  rewrite fs_assoc. apply pure_same. intros p d4. rewrite fs_assoc. apply pure_same. intros base d5. rewrite fs_assoc. by apply pure_same.
Qed.

Lemma alloc_inode_same is_dir d : Ext2Fs.alloc_inode sb is_dir d = core (Ext2Volume.alloc_inode sb is_dir) d.
Proof.
  unfold Ext2Fs.alloc_inode, Ext2Volume.alloc_inode. generalize (Z.to_nat (num_groups sb)) as n, 0 as g. intros n. revert d.
  induction n as [|n IH]; intros d g; cbn [alloc_inode_groups alloc_inode_from]; [done|].
  apply same_bind; [by intros; apply read_bgd_same|]. intros bgd d1. destruct (free_inodes bgd =? 0); [apply IH|].
  apply pure_same. intros gb d2. apply same_bind; [done|]. intros bitmap d3. by apply alloc_inode_bits_same.
Qed.

Lemma free_inode_same ino is_dir d : Ext2Fs.free_inode sb ino is_dir d = core (Ext2Volume.free_inode sb ino is_dir) d.
Proof.
  unfold Ext2Fs.free_inode, Ext2Volume.free_inode. destruct (_ || _); [done|].
  apply same_bind; [by intros; apply read_bgd_same|]. intros bgd d1. apply same_bind; [done|]. intros bitmap d2.
  unfold clear_bit. set (bit := (ino - 1) mod inodes_per_group sb). destruct (byte bitmap (bit / 8)) as [x|[]|]; [|done].
  apply (same_bind (Ext2Fs.write_block sb (inode_bitmap bgd) (Bits.clear bitmap bit)) (Ext2Volume.write_block sb (inode_bitmap bgd) (Bits.clear bitmap bit))); [done|].
  intros _ d3. apply same_bind; [by intros; apply adjust_bgd_counts_same|]. intros _ d4. apply adjust_sb_counts_same.
Qed.

End alloc.

(** ** Freeing every block of a file *)

Section free.
Context {D : Type} `{BlockDevice D}.
Variable sb : Superblock.
Hypothesis G : geom_ok sb.
Implicit Types (d : D) (raw : bytes).

(** The state after the blocks [l] of the file have been freed. *)
Record freed d raw (l : list Z) (x : D * bytes) : Prop := {
  fr_vol : vol_ok sb x.1;
  fr_ptrs : ptrs_same sb d x.1;
  fr_used : forall b, mapped sb b -> used sb x.1 b = used sb d b && negb (bool_decide (b ∈ l));
  fr_blk : forall b, valid sb b -> ~ meta sb d b -> blk sb x.1 b = blk sb d b;
  fr_table : forall g i, role_ok sb (Table g i) -> blk sb x.1 (itab sb d g + i) = blk sb d (itab sb d g + i);
  fr_inodes : forall g, group sb g -> blk sb x.1 (ibm sb d g) = blk sb d (ibm sb d g);
  fr_count : sb_free_blocks x.1 = wrap 32 (sb_free_blocks d + Z.of_nat (length l));
  fr_raw : x.2 = raw;
}.

Lemma free_walk_ok d raw : vol_ok sb d -> file_ok sb d raw ->
  exists d', visit_inode_blocks sb (fun b => on_dev (Ext2Volume.free_block sb b)) raw (d, raw) = Ok ((d', raw), inl ()) /\
    freed d raw (tree sb d raw) (d', raw).
Proof.
  intros Hv Hf.
  destruct (visit_inode_blocks_ok sb G (fun b => on_dev (Ext2Volume.free_block sb b)) d raw (freed d raw) (d, raw) Hv Hf) as ([d' raw'] & He & Hfr).
  - intros l x b K Hb. apply (elem_of_tree sb G) in Hb as (s & j & q & Hk & Hn & Hb0). rewrite <- Hn in Hb0.
    destruct (f_data _ _ _ Hf s j q Hk Hb0) as (M1 & _ & M3). rewrite Hn in *. pose proof (mapped_valid sb G b M1) as Hval.
    rewrite <- (fr_blk _ _ _ _ K b Hval M3). apply (block_vec_ok sb G); [apply K|done].
  - intros l r b x Ht K. assert (b ∈ tree sb d raw) as Hb by (rewrite Ht; set_solver).
    pose proof (tree_NoDup sb G d raw Hf) as Hnd. rewrite Ht in Hnd. apply NoDup_app in Hnd as (_ & Hno & _).
    assert (b ∉ l) as Hbl by (intros Hin; apply (Hno b Hin); by left).
    apply (elem_of_tree sb G) in Hb as (s & j & q & Hk & Hn & Hb0). rewrite <- Hn in Hb0.
    destruct (f_data _ _ _ Hf s j q Hk Hb0) as (M1 & M2 & M3). rewrite Hn in *. destruct K as [K1 K2 K3 K4 K5 K6 K7 K8].
    destruct (free_block_ok sb G x.1 b K1 M1) as (d2 & E2 & [T1 T2 T3 T4 T5 T6 T7]);
      [by rewrite (ptrs_meta sb d x.1)|rewrite K3, M2 by done; by rewrite bool_decide_false|].
    exists (d2, x.2). split; [unfold on_dev; by rewrite E2|]. split; cbn [fst snd]; try done.
    + by apply (ptrs_trans sb d x.1).
    + intros b' Hb'. rewrite T3 by done. destruct (Z.eqb_spec b' b) as [->|Hne].
      * rewrite bool_decide_true by set_solver. by rewrite andb_false_r.
      * rewrite K3 by done. do 2 f_equal. apply bool_decide_ext. set_solver.
    + intros b' Hb' Hm. rewrite T5; [by apply K4|done|by rewrite (ptrs_meta sb d x.1)].
    + intros g i Hr. pose proof Hr as [Hg _]. rewrite <- (ptrs_itab sb d x.1 g K2 Hg), T6 by done. rewrite (ptrs_itab sb d x.1 g K2 Hg). by apply K5.
    + intros g Hg. rewrite <- (ptrs_ibm sb d x.1 g K2 Hg), T4 by done. rewrite (ptrs_ibm sb d x.1 g K2 Hg). by apply K6.
    + rewrite T7, K7, length_app. cbn [length]. unfold wrap. rewrite Zplus_mod_idemp_l. f_equal. lia.
  - split; try done; cbn [fst snd length]; [|rewrite Z.add_0_r; unfold wrap; rewrite Z.mod_small; [done|]].
    + intros b Hb. by rewrite andb_true_r.
    + apply (field_bound 1036 4); [apply Hv|lia|lia|]. pose proof (dev_super sb d (v_dev sb d Hv)). lia.
  - exists d'. pose proof (fr_raw _ _ _ _ Hfr) as Hraw. cbn [snd] in Hraw. by subst raw'.
Qed.

Lemma clear_slots_ok n : forall i raw, 128 <= size raw -> bytes_ok raw -> 0 <= i -> i + Z.of_nat n <= 15 ->
  exists raw', clear_slots n i raw = Ok raw' /\ size raw' = size raw /\ bytes_ok raw' /\
    (forall s, 0 <= s < 15 -> slot raw' s = if (i <=? s) && (s <? i + Z.of_nat n) then 0 else slot raw s) /\
    (forall a k, 0 <= a -> 0 <= k -> a + k <= 40 \/ 100 <= a -> field a k raw' = field a k raw).
Proof.
  induction n as [|n IH]; intros i raw Hs Hb Hi Hle; cbn [clear_slots].
  { exists raw. split; [done|]. split; [done|]. split; [done|]. split; [|done]. intros s Hs'. case_bools; (done || lia). }
  unfold set_i_block. rewrite put_le_ok by lia. cbn [mbind outcome_bind].
  destruct (over_field_set (40 + i * 4) 4 0 raw Hb) as [O1 O2 O3 O4]; [lia|lia|done|]. change (Z.of_nat 4) with 4 in *.
  set (raw1 := over (40 + i * 4) (to_le 4 0) raw) in *.
  destruct (IH (i + 1) raw1) as (raw' & He & S1 & S2 & S3 & S4); [lia|done|lia|lia|]. exists raw'. split; [done|]. split; [lia|]. split; [done|]. split.
  - intros s Hs'. rewrite S3 by done. unfold slot. destruct (decide (s = i)) as [->|Hne]; [rewrite O3|rewrite O4 by lia]; case_bools; (done || lia).
  - intros a k Ha Hk Hd. rewrite S4, O4 by lia. done.
Qed.

(** A file with no blocks. *)
Definition blank raw : Prop := size raw = inode_size sb /\ bytes_ok raw /\ (forall s, 0 <= s < 15 -> slot raw s = 0) /\ fsize raw = 0.

Lemma blank_node d raw s j q : (forall s, 0 <= s < 15 -> slot raw s = 0) -> 0 <= s < 15 -> node sb d raw s j q = 0.
Proof. intros Hs Hk. revert q. induction j as [|j IH]; intros q; cbn [node]; [by apply Hs|]. by rewrite IH. Qed.

Lemma blank_file d raw : blank raw -> file_ok sb d raw /\ forall p, 0 <= p -> content sb d raw p = 0.
Proof.
  intros (B1 & B2 & B3 & B4). pose proof (bs_bounds sb G) as [Hbs _]. split.
  - split; try done.
    + intros s j q Hk Hn. destruct Hn. apply blank_node; [done|apply Hk].
    + intros s j q s' j' q' Hk _ Hn. destruct Hn. apply blank_node; [done|apply Hk].
  - intros p Hp. unfold content. destruct (find_slot sb (p / block_size sb)) as [[s q]|] eqn:Hs; [|done].
    destruct (pos_index sb G p Hp) as (Hd & Hm & _). destruct (find_slot_ok sb G _ s q Hd Hs) as (Hk & _).
    unfold data. rewrite blank_node by done. cbn [Z.eqb]. unfold zeros. apply lookup_total_replicate_2. lia.
Qed.

Lemma free_all_blocks_ok d raw : vol_ok sb d -> file_ok sb d raw -> has_block_pointers raw = Ok true ->
  exists d' raw', free_all_blocks sb raw d = Ok (d', inl raw') /\ freed d raw (tree sb d raw) (d', raw) /\ blank raw'.
Proof.
  intros Hv Hf Hp. destruct (g_isize sb G) as [Hz _]. pose proof (f_size _ _ _ Hf) as Hs. pose proof (f_bytes _ _ _ Hf) as Hb.
  destruct (free_walk_ok d raw Hv Hf) as (d' & Hw & Hfr). exists d'.
  destruct (clear_slots_ok 15 0 raw) as (raw1 & E1 & S1 & B1 & Z1 & F1); [lia|done|lia|lia|].
  destruct (set_size_ok sb raw1 0) as (raw2 & E2 & [S2 B2 Z2 R2 F2]); [lia|done|lia|].
  destruct (over_field_set 28 4 0 raw2 B2) as [S3 B3 Z3 F3]; [lia|lia|done|]. change (Z.of_nat 4) with 4 in *.
  exists (over 28 (to_le 4 0) raw2). split; [|split; [done|]].
  - unfold free_all_blocks. rewrite (pure_run _ _ _ _ Hp), (fs_run _ _ d d' raw1).
    + rewrite (pure_run _ _ _ _ E2). unfold set_blocks_512, pure. by rewrite put_le_ok by lia.
    + rewrite (fs_run _ _ d d' (raw, inl ())) by (unfold with_raw; by rewrite Hw). unfold pure. by rewrite E1.
  - split; [lia|]. split; [done|]. split.
    + intros s Hs'. unfold slot. rewrite F3 by lia. fold (slot raw2 s). rewrite Z2, Z1 by done. case_bools; (done || lia).
    + assert (fsize raw2 = 0) as H0 by (apply F2; by right). unfold fsize, regular in *. rewrite !F3 by lia. done.
Qed.

Lemma truncate_ok d raw ino : vol_ok sb d -> file_ok sb d raw -> has_block_pointers raw = Ok true -> is_ino sb ino ->
  exists d' raw', truncate_to_zero sb ino raw d = Ok (d', inl raw') /\ vol_ok sb d' /\ blank raw' /\ inode_at sb d' ino = raw' /\
    (forall b, mapped sb b -> used sb d' b = used sb d b && negb (bool_decide (b ∈ tree sb d raw))) /\
    (forall b, valid sb b -> ~ meta sb d b -> blk sb d' b = blk sb d b) /\
    (forall i, is_ino sb i -> i <> ino -> inode_at sb d' i = inode_at sb d i).
Proof.
  intros Hv Hf Hp Hi. destruct (free_all_blocks_ok d raw Hv Hf Hp) as (d1 & raw' & E1 & [K1 K2 K3 K4 K5 K6 K7 _] & Hb). cbn [fst] in *.
  destruct Hb as (B1 & B2 & B3 & B4).
  destruct (write_inode_ok sb G d1 ino raw' K1 Hi B1 B2) as (d2 & E2 & [W1 W2 W3 W4 W5 W6 W7]). exists d2, raw'. split.
  { unfold truncate_to_zero. rewrite (fs_run _ _ _ _ _ E1), (fs_run _ _ _ _ _ (core_run _ _ _ _ E2)). done. }
  split; [done|]. split; [done|]. split; [done|]. split; [intros b Hm; by rewrite W3, K3|].
  split; [intros b Hval Hm; rewrite W7; [by apply K4|done|by rewrite (ptrs_meta sb d d1)]|].
  intros i Hii Hne. rewrite W6 by done. unfold inode_at, iblk. destruct (igrp_ok sb G i Hii) as (Hg & _).
  rewrite (ptrs_itab sb d d1), K5 by (done || by apply iblk_role). done.
Qed.

End free.
End Ext2Adapter.
