(* ===== verification/Ext2Image.v ===== *)
(** The ext2 images of [ext2/src/testimg.rs], and that the minimal one satisfies
    the invariants of the volume, of its root directory and of an empty file.  The witnesses and counterexamples about ext2 run on it. *)

From Stdlib Require Import ZArith Lia.
From stdpp Require Import base numbers gmap list.
From S2P Require Import Prelude Bits Bytes Ext2Format Ext2Volume Ext2Inv Ext2Files Ext2Dir Ext2DirInv Ext2Fs Ext2Repair.

Local Open Scope Z_scope.

Module Ext2Image.
Import Bytes Ext2Format Ext2Volume Ext2Repair Ext2Inv Ext2Files Ext2DirInv.

Definition BLOCK_SIZE : Z := 1024.
Definition TOTAL_BLOCKS : Z := 256.
Definition INODES_COUNT : Z := 128.
Definition FIRST_DATA_BLOCK : Z := 1.
Definition BLOCK_BITMAP_BLOCK : Z := 3.
Definition INODE_BITMAP_BLOCK : Z := 4.
Definition INODE_TABLE_START : Z := 5.
Definition root_data_block : Z := 21.

Definition put_block (b : Z) (data img : bytes) : bytes := over (b * BLOCK_SIZE) data img.
Definition zero_block : bytes := replicate (Z.to_nat BLOCK_SIZE) 0.
Definition le (a : Z) (n : nat) (v : Z) (l : bytes) : bytes := over a (to_le n v) l.

Definition used_block_bits : Z := root_data_block - FIRST_DATA_BLOCK + 1.

Definition superblock_bytes (free_block_count free_inode_count : Z) : bytes :=
  le 56 2 EXT2_MAGIC (le 40 4 INODES_COUNT (le 32 4 TOTAL_BLOCKS (le 20 4 FIRST_DATA_BLOCK
    (le 16 4 free_inode_count (le 12 4 free_block_count (le 4 4 TOTAL_BLOCKS (le 0 4 INODES_COUNT zero_block))))))).

Definition bgd_bytes (free_block_count free_inode_count used_dirs : Z) : bytes :=
  le 16 2 used_dirs (le 14 2 free_inode_count (le 12 2 free_block_count
    (le 8 4 INODE_TABLE_START (le 4 4 INODE_BITMAP_BLOCK (le 0 4 BLOCK_BITMAP_BLOCK zero_block))))).

Definition block_bitmap_bytes : bytes := foldl Bits.set zero_block (seqZ 0 used_block_bits).
Definition inode_bitmap_bytes : bytes := Bits.set zero_block (ROOT_INO - 1).

(** These steps do not panic. *)
Definition ok_bytes (o : may_panic bytes) : bytes := match o with Ok l => l | _ => [] end.

(** An inode with one block. *)
Definition one_block_raw (mode links block : Z) : RawInode := ok_bytes (
  r1 ← set_i_mode (zeroed 128) mode;
  r2 ← set_links_count r1 links;
  r3 ← set_i_block r2 0 block;
  r4 ← set_size r3 BLOCK_SIZE;
  set_blocks_512 r4 (BLOCK_SIZE / SECTOR_SIZE)).

Definition root_raw : RawInode := one_block_raw (Z.lor 16384 493) 2 root_data_block.

(** The block of an empty directory in the root: "." and "..". *)
Definition dir_data (ino : Z) : bytes := ok_bytes (
  let dot_len := dirent_len 1 in
  let remaining := BLOCK_SIZE - dot_len in
  s0 ← get 0 dot_len zero_block;
  s1 ← write_dirent s0 ino (wrap 16 dot_len) Ext2Dir.DOT 2;
  b1 ← put 0 s1 zero_block;
  s2 ← get dot_len remaining b1;
  s3 ← write_dirent s2 ROOT_INO (wrap 16 remaining) Ext2Dir.DOTDOT 2;
  put dot_len s3 b1).
Definition root_dir : bytes := dir_data ROOT_INO.

Definition build_minimal_image : bytes :=
  let free_blocks := TOTAL_BLOCKS - FIRST_DATA_BLOCK - used_block_bits in
  let free_inodes := INODES_COUNT - 1 in
  let img := replicate (Z.to_nat (TOTAL_BLOCKS * BLOCK_SIZE)) 0 in
  let img := put_block FIRST_DATA_BLOCK (superblock_bytes free_blocks free_inodes) img in
  let img := put_block (FIRST_DATA_BLOCK + 1) (bgd_bytes free_blocks free_inodes 1) img in
  let img := put_block BLOCK_BITMAP_BLOCK block_bitmap_bytes img in
  let img := put_block INODE_BITMAP_BLOCK inode_bitmap_bytes img in
  let img := put_block INODE_TABLE_START (over 128 root_raw zero_block) img in
  put_block root_data_block root_dir img.

(** ** The image with orphans *)

Definition ORPHAN_FILE_INO : Z := 20.
Definition ORPHAN_DIR_INO : Z := 31.
Definition ORPHAN_FILE_BLOCK : Z := 22.
Definition ORPHAN_DIR_BLOCK : Z := 23.
Definition PHANTOM_DIR_INO : Z := 45.
Definition PHANTOM_DIR_BLOCK : Z := 24.

(** The record goes into a fresh block of the table. *)
Definition write_inode_record (ino : Z) (raw img : bytes) : bytes :=
  let inodes_per_block := BLOCK_SIZE / 128 in
  put_block (INODE_TABLE_START + (ino - 1) / inodes_per_block) (over ((ino - 1) mod inodes_per_block * 128) raw zero_block) img.

Definition build_image_with_orphans : bytes :=
  let free_blocks := TOTAL_BLOCKS - FIRST_DATA_BLOCK - used_block_bits - 2 in
  let free_inodes := INODES_COUNT - 1 - 2 in
  let img := replicate (Z.to_nat (TOTAL_BLOCKS * BLOCK_SIZE)) 0 in
  let img := put_block FIRST_DATA_BLOCK (superblock_bytes free_blocks free_inodes) img in
  let img := put_block (FIRST_DATA_BLOCK + 1) (bgd_bytes free_blocks free_inodes 2) img in
  let img := put_block BLOCK_BITMAP_BLOCK
    (mark_bit (mark_bit block_bitmap_bytes (ORPHAN_FILE_BLOCK - FIRST_DATA_BLOCK)) (ORPHAN_DIR_BLOCK - FIRST_DATA_BLOCK)) img in
  let img := put_block INODE_BITMAP_BLOCK (mark_bit_1based (mark_bit_1based inode_bitmap_bytes ORPHAN_FILE_INO) ORPHAN_DIR_INO) img in
  let img := write_inode_record ROOT_INO root_raw img in
  let img := put_block root_data_block root_dir img in
  let img := write_inode_record ORPHAN_FILE_INO (one_block_raw (Z.lor 32768 420) 1 ORPHAN_FILE_BLOCK) img in
  let img := write_inode_record ORPHAN_DIR_INO (one_block_raw (Z.lor 16384 493) 2 ORPHAN_DIR_BLOCK) img in
  let img := put_block ORPHAN_DIR_BLOCK (dir_data ORPHAN_DIR_INO) img in
  let img := write_inode_record PHANTOM_DIR_INO (one_block_raw (Z.lor 16384 493) 2 PHANTOM_DIR_BLOCK) img in
  put_block PHANTOM_DIR_BLOCK (dir_data PHANTOM_DIR_INO) img.

(** The superblock [mount] reads from it. *)
Definition sb : Superblock := mkSuperblock 1024 128 256 128 256 1 128 2 1 11.

Abbreviation disk := build_minimal_image.

Lemma superblock_ok : parse_superblock (sub 1024 1024 build_minimal_image) = Ok sb.
Proof. vm_compute. reflexivity. Qed.

Lemma sb_geom : geom_ok sb.
Proof. split; cbn; try lia; try done. Qed.

Lemma group_0 g : group sb g -> g = 0.
Proof. unfold group. cbn. lia. Qed.

(** ** Images with this layout *)

(** Where the metadata is. *)
Definition where_is (r : role) : Z :=
  match r with Super => 1 | Desc _ => 2 | BlockBitmap _ => 3 | InodeBitmap _ => 4 | Table _ i => 5 + i end.

Lemma role_bounds r : role_ok sb r ->
  match r with Super => True | Desc i => i = 0 | BlockBitmap g | InodeBitmap g => g = 0 | Table g i => g = 0 /\ 0 <= i < 16 end.
Proof.
  destruct r as [|i|g|g|g i]; cbn [role_ok]; try done; try apply group_0.
  - by intros (g & ->%group_0 & ->).
  - intros [->%group_0 Hi]. change (table_blocks sb) with 16 in Hi. done.
Qed.

Definition root_recs : list rec := [mkRec 2 12 2 Ext2Dir.DOT; mkRec 2 1012 2 Ext2Dir.DOTDOT].

Section image.
Variable disk : bytes.
Hypothesis Hdesc : bbm sb disk 0 = 3 /\ ibm sb disk 0 = 4 /\ itab sb disk 0 = 5.

Lemma image_place r : role_ok sb r -> place sb disk r = where_is r.
Proof.
  intros Hr%role_bounds. destruct Hdesc as (E1 & E2 & E3). destruct r as [|i|g|g|g i]; cbn [place where_is].
  - done.
  - by subst i.
  - by subst g.
  - by subst g.
  - destruct Hr as [-> _]. by rewrite E3.
Qed.

Lemma single_group_ok : dev_ok sb disk -> Forall (fun b => used sb disk b = true) (seqZ 1 20) ->
  fbc sb disk 0 = free_bits (Z.to_nat (gblocks sb 0)) (blk sb disk 3) -> fic sb disk 0 = free_bits (Z.to_nat (ginodes sb 0)) (blk sb disk 4) ->
  vol_ok sb disk.
Proof.
  intros Hdev Hused Hfb Hfi. destruct Hdesc as (E1 & E2 & E3).
  assert (forall r, role_ok sb r -> 1 <= where_is r < 21) as Hw by (intros r Hr%role_bounds; destruct r; cbn [where_is]; lia). split.
  - done.
  - split.
    + intros r Hr. rewrite image_place by done. specialize (Hw r Hr). unfold mapped. cbn. lia.
    + intros r r' Hr Hr'. rewrite !image_place by done. apply role_bounds in Hr, Hr'. clear -Hr Hr'.
      destruct r, r'; cbn [where_is]; intros He; destruct_and?; subst; try lia; try reflexivity. f_equal. lia.
  - intros r Hr. rewrite image_place by done. apply (proj1 (Forall_forall _ _) Hused). apply elem_of_seqZ. specialize (Hw r Hr). lia.
  - intros g ->%group_0. by rewrite E1.
  - intros g ->%group_0. by rewrite E2.
Qed.

(** A file with one block. *)
Lemma one_block_node (raw : RawInode) b : slot raw 0 = b -> Forall (fun s => slot raw s = 0) (seqZ 1 14) ->
  forall s j q, key_ok sb s j q -> node sb disk raw s j q = if decide (s = 0) then b else 0.
Proof.
  intros H0 Hs s j q (Hk & Hj & Hq). destruct (decide (s = 0)) as [->|Hne].
  - change (depth 0) with 0%nat in Hj. assert (j = 0%nat) as -> by lia. done.
  - assert (slot raw s = 0) as Hz by (apply (proj1 (Forall_forall _ _) Hs); apply elem_of_seqZ; lia).
    clear Hj Hq. revert q. induction j as [|j IH]; intros q; cbn [node]; [done|]. by rewrite IH.
Qed.

Lemma one_block_file raw b : size raw = 128 -> bytes_ok raw -> slot raw 0 = b -> Forall (fun s => slot raw s = 0) (seqZ 1 14) ->
  mapped sb b -> used sb disk b = true -> ~ meta sb disk b -> file_ok sb disk raw.
Proof.
  intros Hs Hb H0 Hz Hm Hu Hnm. pose proof (one_block_node raw b H0 Hz) as Hn. split; try done.
  - intros s j q Hk. rewrite Hn by done. destruct (decide (s = 0)); [done|]. done.
  - intros s j q s' j' q' Hk Hk'. rewrite !Hn by done. destruct (decide (s = 0)) as [->|]; [|done]. destruct (decide (s' = 0)) as [->|]; [|intros; congruence].
    intros _ _. destruct Hk as (_ & Hj & Hq), Hk' as (_ & Hj' & Hq'). change (depth 0) with 0%nat in *.
    assert (j = 0%nat) as -> by lia. assert (j' = 0%nat) as -> by lia. cbn in Hq, Hq'. split; [done|]. split; [done|]. lia.
Qed.

Lemma data_not_meta b : 21 <= b -> ~ meta sb disk b.
Proof. intros Hb (r & Hr & Hp). rewrite image_place in Hp by done. apply role_bounds in Hr. destruct r; cbn [where_is] in Hp; lia. Qed.

Lemma root_file_in : used sb disk 21 = true -> file_ok sb disk root_raw.
Proof.
  intros Hu. apply (one_block_file _ 21); [done|apply (bool_decide_unpack _); vm_compute; done|done|apply (bool_decide_unpack _); vm_compute; done|..].
  - unfold mapped. cbn. lia.
  - done.
  - by apply data_not_meta.
Qed.

Lemma root_dir_in : blk sb disk root_data_block = root_dir -> dir_ok sb disk root_raw [root_recs].
Proof.
  intros Hb. split; [done|vm_compute; done|vm_compute; done|]. intros [|i] rs Hi; [|done]. injection Hi as <-.
  assert (file_block sb disk root_raw (Z.of_nat 0) = root_data_block) as -> by reflexivity. split; [done|]. rewrite Hb.
  cbn [chain root_recs r_len]. split_and!; try (split; vm_compute; done); vm_compute; done.
Qed.

End image.

(** ** The minimal image *)

Lemma image_dev : dev_ok sb disk.
Proof. split; [vm_compute; done|vm_compute; done|]. apply (bool_decide_unpack _). vm_compute. done. Qed.

Lemma image_descriptor : bbm sb disk 0 = 3 /\ ibm sb disk 0 = 4 /\ itab sb disk 0 = 5.
Proof. vm_compute. done. Qed.

Lemma image_used : Forall (fun b => used sb disk b = true) (seqZ 1 21).
Proof. apply (bool_decide_unpack _). vm_compute. done. Qed.

Lemma image_ok : vol_ok sb disk.
Proof.
  apply single_group_ok; [apply image_descriptor|apply image_dev|apply (bool_decide_unpack _); vm_compute; done|vm_compute; done|vm_compute; done].
Qed.

(** ** Files *)

Lemma root_ok : inode_at sb disk ROOT_INO = root_raw.
Proof. vm_compute. done. Qed.

Lemma root_file : file_ok sb disk root_raw.
Proof. apply root_file_in; [apply image_descriptor|vm_compute; done]. Qed.

Lemma root_dir_ok : dir_ok sb disk root_raw [root_recs].
Proof. apply root_dir_in. vm_compute. done. Qed.

(** An empty regular file, as [create] makes it. *)
Definition empty_raw : RawInode := ok_bytes (r1 ← set_i_mode (zeroed 128) (Z.lor 32768 420); set_links_count r1 1).

Lemma empty_file : file_ok sb disk empty_raw.
Proof.
  assert (forall s j q, key_ok sb s j q -> node sb disk empty_raw s j q = 0) as Hn.
  { intros s j q Hk. rewrite (one_block_node disk empty_raw 0) by (done || (apply (bool_decide_unpack _); vm_compute; done)). by destruct (decide (s = 0)). }
  split; [done|apply (bool_decide_unpack _); vm_compute; done|..].
  - intros s j q Hk. by rewrite Hn.
  - intros s j q s' j' q' Hk _. by rewrite Hn.
Qed.

End Ext2Image.
