(* ===== verification/Ext2Props.v ===== *)
(** What the ext2 file system promises: allocation, files, directories, the
    block walk and the kernel adapter, and the ways the adapter's cached
    inodes break it. *)

From Stdlib Require Import ZArith Lia.
From stdpp Require Import base numbers gmap list.
From S2P Require Import Prelude Bits Bytes Ext2Format Ext2Volume Ext2Inv Ext2Files Ext2Walk Ext2Dir Ext2DirInv Ext2Fs Ext2Adapter Ext2Image.

Local Open Scope Z_scope.

Module Ext2Props.
Import Bytes Ext2Format Ext2Volume Ext2Inv Ext2Files Ext2Walk Ext2Dir Ext2DirInv Ext2Adapter.

Section props.
Context {D : Type} `{BlockDevice D}.
Variable sb : Superblock.
Hypothesis G : geom_ok sb.
Implicit Types (d : D) (raw : bytes).

(** [alloc_block] never fails on a consistent volume.  The block it
    returns was free, is now in use and reads as zeros, nothing else changed,
    the free counts still agree with the bitmaps, and [None] means that no
    block is free. *)
Theorem alloc_block_spec d : vol_ok sb d ->
  exists d' r, alloc_block sb d = Ok (d', inl r) /\ vol_ok sb d' /\
    match r with
    | Some b => mapped sb b /\ used sb d b = false /\ ~ meta sb d b /\ blk sb d' b = zeros sb /\
        (forall b', mapped sb b' -> used sb d' b' = (b' =? b) || used sb d b') /\
        (forall b', valid sb b' -> ~ meta sb d b' -> b' <> b -> blk sb d' b' = blk sb d b') /\
        (forall i, is_ino sb i -> inode_at sb d' i = inode_at sb d i) /\
        sb_free_blocks d' = wrap 32 (sb_free_blocks d - 1)
    | None => d' = d /\ full sb d
    end.
Proof.
  intros Hv. destruct (alloc_block_ok sb G d Hv) as (d' & r & He & Hr). exists d', r. split; [done|]. destruct r as [b|].
  - destruct Hr as [A1 A2 A3 A4 A5 A6 A7 A8 A9 A10]. split; [done|]. split; [done|]. split; [done|]. split; [by apply (free_not_meta sb d)|].
    split; [done|]. split; [done|]. split; [done|]. split; [|done]. intros i Hi. unfold inode_at, iblk.
    destruct (igrp_ok sb G i Hi) as (Hg & _). rewrite (ptrs_itab sb d d'), A9 by (done || by apply iblk_role). done.
  - destruct Hr as [-> Hr]. done.
Qed.

(** Freeing the block that [alloc_block] handed out restores the bitmap
    and the superblock's free count, and touches no other block. *)
Theorem alloc_free_roundtrip d : vol_ok sb d ->
  exists d1 r, alloc_block sb d = Ok (d1, inl r) /\
    match r with
    | Some b => exists d2, free_block sb b d1 = Ok (d2, inl ()) /\ vol_ok sb d2 /\
        (forall b', mapped sb b' -> used sb d2 b' = used sb d b') /\ sb_free_blocks d2 = sb_free_blocks d /\
        (forall b', valid sb b' -> ~ meta sb d b' -> b' <> b -> blk sb d2 b' = blk sb d b')
    | None => full sb d
    end.
Proof.
  intros Hv. destruct (alloc_block_ok sb G d Hv) as (d1 & r & He & Hr). exists d1, r. split; [done|]. destruct r as [b|]; [|by destruct Hr].
  destruct Hr as [A1 A2 A3 A4 A5 A6 A7 A8 A9 A10].
  destruct (free_block_ok sb G d1 b A1 A3) as (d2 & E2 & [T1 T2 T3 T4 T5 T6 T7]);
    [rewrite (ptrs_meta sb d d1) by done; by apply (free_not_meta sb d)|rewrite A5 by done; by rewrite Z.eqb_refl|].
  exists d2. split; [done|]. split; [done|]. split; [|split].
  - intros b' Hb'. rewrite T3, A5 by done. by destruct (Z.eqb_spec b' b) as [->|].
  - rewrite T7, A10. unfold wrap. rewrite Zplus_mod_idemp_l. replace (sb_free_blocks d - 1 + 1) with (sb_free_blocks d) by lia.
    apply Z.mod_small. apply (field_bound 1036 4); [apply Hv|lia|lia|]. pose proof (dev_super sb d (v_dev sb d Hv)). lia.
  - intros b' Hb' Hm Hne. rewrite T5; [by apply A7|done|by rewrite (ptrs_meta sb d d1)].
Qed.

(** [block_for_index], with its four unrolled levels of indirection, finds
    the block that the recursive definition of the tree has at that index; an
    index past the last level has none. *)
Theorem block_for_index_spec d raw idx : vol_ok sb d -> file_ok sb d raw -> 0 <= idx ->
  block_for_index sb raw idx d = Ok (d, inl (nonzero (file_block sb d raw idx))).
Proof. apply (block_for_index_ok sb G). Qed.


(** C23: what [write_file_range] wrote is what [read_file_range] reads back,
    and what [read_inode] finds is the inode it left. *)
Theorem read_after_write d raw ino pos src : vol_ok sb d -> file_ok sb d raw -> is_ino sb ino -> bytes_ok src -> 0 <= pos ->
  0 < size src -> pos + size src <= max_blocks sb * block_size sb ->
  exists d' raw' r, write_file_range sb ino pos src (d, raw) = Ok ((d', raw'), r) /\
    match r with
    | inl _ => read_inode sb ino d' = Ok (d', inl raw') /\ read_file_range sb raw' pos (size src) d' = Ok (d', inl src)
    | inr e => e = NoSpace /\ full sb d'
    end.
Proof.
  intros Hv Hf Hi Hb Hp Hs Hm. destruct (write_file_range_ok sb G d raw ino pos src Hv Hf Hi Hb Hp Hs Hm) as (d' & raw' & r & k & He & Hk & [T Hc] & Hr).
  exists d', raw', r. split; [done|]. destruct r as [n|e]; [|done]. destruct Hr as (_ & -> & Hin & _).
  split; [rewrite (read_inode_ok sb G) by (apply T || done); by rewrite Hin|].
  rewrite (read_file_range_ok sb G); [|apply T|apply T|done|lia|].
  - do 3 f_equal. apply list_eq. intros i. destruct (Z.lt_ge_cases (Z.of_nat i) (size src)) as [Hlt|Hge].
    + rewrite lookup_range by done. rewrite Hc by lia. rewrite sub_all, overlay_in by lia. unfold size in Hlt.
      destruct (lookup_lt_is_Some_2 src i) as [x Hx]; [lia|]. rewrite Hx. f_equal. replace (Z.to_nat (pos + Z.of_nat i - pos)) with i by lia.
      by apply list_lookup_total_correct.
    + rewrite !lookup_ge_None_2; [done|unfold size in Hge; lia|]. pose proof (size_range sb d' raw' pos (size src) ltac:(lia)). unfold size in *. lia.
  - pose proof (bs_bounds sb G) as [Hbs _]. pose proof (P_powers sb G) as (HQ1 & HQ2 & _). pose proof (P_bounds sb G) as [HP _].
    assert (max_blocks sb < 2 ^ 32) by (unfold max_blocks; change (2 ^ 32) with 4294967296; change (2 ^ 20) with 1048576 in *; change (2 ^ 30) with 1073741824 in *; lia). nia.
Qed.

(** [visit_inode_blocks] calls its visitor once for every block of the
    file, data and pointer blocks alike, and for no other. *)
Theorem walk_visits_once d raw : vol_ok sb d -> file_ok sb d raw ->
  exists l, visit_inode_blocks sb (fun b x => Ok ((x.1, x.2 ++ [b]), inl ())) raw (d, []) = Ok ((d, l), inl ()) /\ NoDup l /\
    forall b, b ∈ l <-> exists s j q, key_ok sb s j q /\ node sb d raw s j q = b /\ b <> 0.
Proof.
  intros Hv Hf. exists (tree sb d raw). split; [|split; [by apply (tree_NoDup sb G)|intros b; apply (elem_of_tree sb G)]].
  destruct (visit_inode_blocks_ok sb G (fun b x => Ok ((x.1, x.2 ++ [b]), inl ())) d raw (fun l x => x = (d, l)) (d, []) Hv Hf) as (x & -> & ->); [..|done|done].
  - intros l x b -> (s & j & q & Hk & <- & Hb)%(elem_of_tree sb G). apply (block_vec_ok sb G); [apply Hv|]. apply (mapped_valid sb G). by apply (f_data _ _ _ Hf s j q).
  - intros l r b x _ ->. by exists (d, l ++ [b]).
Qed.

(** C26: truncating a file frees exactly the blocks of the file: those are
    free afterwards, every other block is as it was, the file reads as empty,
    and the inode on disk says so. *)
Theorem truncate_frees_exactly d raw ino : vol_ok sb d -> file_ok sb d raw -> has_block_pointers raw = Ok true -> is_ino sb ino ->
  exists d' raw', Ext2Fs.truncate_to_zero sb ino raw d = Ok (d', inl raw') /\ vol_ok sb d' /\ inode_at sb d' ino = raw' /\ fsize raw' = 0 /\
    file_ok sb d' raw' /\ (forall p, 0 <= p -> content sb d' raw' p = 0) /\
    (forall s j q, key_ok sb s j q -> node sb d raw s j q <> 0 -> used sb d' (node sb d raw s j q) = false) /\
    (forall b, mapped sb b -> (forall s j q, key_ok sb s j q -> node sb d raw s j q <> b) -> used sb d' b = used sb d b) /\
    (forall b, valid sb b -> ~ meta sb d b -> blk sb d' b = blk sb d b) /\
    (forall i, is_ino sb i -> i <> ino -> inode_at sb d' i = inode_at sb d i).
Proof.
  intros Hv Hf Hp Hi. destruct (truncate_ok sb G d raw ino Hv Hf Hp Hi) as (d' & raw' & He & T1 & T2 & T3 & T4 & T5 & T6).
  destruct (blank_file sb G d' raw' T2) as [Hf' Hc]. exists d', raw'. split; [done|]. split; [done|]. split; [done|]. split; [apply T2|].
  split; [done|]. split; [done|]. split; [|split; [|done]].
  - intros s j q Hk Hn. rewrite T4 by (by apply (f_data _ _ _ Hf s j q)). rewrite bool_decide_true; [apply andb_false_r|].
    apply (elem_of_tree sb G). by exists s, j, q.
  - intros b Hm Hno. rewrite T4 by done. rewrite bool_decide_false; [apply andb_true_r|].
    intros (s & j & q & Hk & Hn & _)%(elem_of_tree sb G). by apply (Hno s j q).
Qed.

(** Writing an inode record is what reading it back gives, and leaves
    every other record alone. *)
Theorem inode_roundtrip d ino raw : vol_ok sb d -> is_ino sb ino -> size raw = inode_size sb -> bytes_ok raw ->
  exists d', write_inode sb ino raw d = Ok (d', inl ()) /\ vol_ok sb d' /\ read_inode sb ino d' = Ok (d', inl raw) /\
    forall i, is_ino sb i -> i <> ino -> read_inode sb i d' = Ok (d', inl (inode_at sb d i)).
Proof.
  intros Hv Hi Hs Hb. destruct (write_inode_ok sb G d ino raw Hv Hi Hs Hb) as (d' & He & [W1 W2 W3 W4 W5 W6 W7]). exists d'.
  split; [done|]. split; [done|]. split; [rewrite (read_inode_ok sb G) by done; by rewrite W5|].
  intros i Hii Hne. rewrite (read_inode_ok sb G) by done. by rewrite W6.
Qed.

(** [alloc_inode] never fails on a consistent volume.  The inode it
    returns was free and is now in use, no other inode, block or inode record
    changed, and [None] means that no inode is free. *)
Theorem alloc_inode_spec d is_dir : vol_ok sb d ->
  exists d' r, alloc_inode sb is_dir d = Ok (d', inl r) /\ vol_ok sb d' /\
    match r with
    | Some ino => is_ino sb ino /\ inode_used sb d ino = false /\
        (forall i, is_ino sb i -> inode_used sb d' i = (i =? ino) || inode_used sb d i) /\
        (forall b, mapped sb b -> used sb d' b = used sb d b) /\
        (forall i, is_ino sb i -> inode_at sb d' i = inode_at sb d i)
    | None => d' = d /\ forall i, is_ino sb i -> inode_used sb d i = true
    end.
Proof.
  intros Hv. assert (0 <= num_groups sb) as Hng.
  { pose proof (groups_cover sb G). destruct (g_bpg sb G) as [[Hp _] _]. destruct (sblk_spec sb G) as (Hs & Hs0 & _). destruct (g_blocks sb G) as [Hc _]. nia. }
  destruct (alloc_inode_from_ok sb G (Z.to_nat (num_groups sb)) 0 is_dir d Hv) as (d' & r & He & Hr); [lia|lia|].
  exists d', r. split; [done|]. destruct r as [ino|].
  - destruct Hr as (Hi & Hu & [I1 I2 I3 I4 I5 I6 I7]). split; [done|]. split; [done|]. split; [done|]. split; [|split; [done|]].
    + intros i Hii. rewrite I3 by done. by destruct (i =? ino).
    + intros i Hii. unfold inode_at, iblk. destruct (igrp_ok sb G i Hii) as (Hg & _). rewrite (ptrs_itab sb d d'), I6 by (done || by apply iblk_role). done.
  - destruct Hr as [-> Hr]. split; [done|]. split; [done|]. intros i Hi. apply Hr; [done|]. by destruct (igrp_ok sb G i Hi) as ([? _] & _).
Qed.

(** *** Directories *)

Definition listing (e : Z * Z * bytes) : list DirEntry := listed (Some (mkDirent e.1.1 0 e.1.2 e.2)).

Lemma listing_entries bss : (concat bss ≫= fun r => listed (Some (parsed r))) = dir_entries bss ≫= listing.
Proof.
  unfold dir_entries. induction bss as [|rs bss IH]; cbn [concat mbind list_bind]; [done|]. rewrite !bind_app, IH. f_equal. clear IH.
  induction rs as [|r rs IH]; [done|]. rewrite entries_cons, bind_app. cbn [mbind list_bind]. rewrite IH. f_equal.
  destruct (Z.eqb_spec (r_ino r) 0) as [H0|]; cbn [mbind list_bind]; [|by rewrite app_nil_r]. unfold listed. cbn [parsed d_ino]. by rewrite H0.
Qed.

(** A name a program can give a file. *)
Definition name_ok (name : bytes) : Prop :=
  0 < size name < 256 /\ bytes_ok name /\ lossy name = name /\ name <> DOT /\ name <> DOTDOT.

Lemma listing_named ino ft name : ino <> 0 -> name_ok name -> listing (ino, ft, name) = [mkEntry ino ft name].
Proof.
  intros Hi (Hn & _ & Hl & H1 & H2). unfold listing, listed. cbn [fst snd d_ino d_name d_file_type]. rewrite (proj2 (Z.eqb_neq _ _) Hi), (proj2 (Z.eqb_neq (size name) 0)) by lia.
  cbn [orb]. rewrite Hl, !bool_decide_false by done. done.
Qed.

(** C24: [add_dir_entry] adds its entry to what [read_dir_entries] lists and
    changes nothing else in the list, whether it splits a record, reuses a
    deleted one or grows the directory; it fails only when the volume is
    full, and then the list is as it was.  Other files keep their contents. *)
Theorem add_dir_entry_spec d raw bss dir_ino name ino ft : vol_ok sb d -> file_ok sb d raw -> dir_ok sb d raw bss -> is_ino sb dir_ino ->
  0 < ino < 2 ^ 32 -> 0 <= ft < 256 -> name_ok name ->
  Z.of_nat (length bss) < max_blocks sb -> (Z.of_nat (length bss) + 1) * block_size sb < 2 ^ 32 ->
  exists d' raw' r bss' l1 l2, add_dir_entry sb dir_ino name ino ft (d, raw) = Ok ((d', raw'), r) /\ vol_ok sb d' /\ file_ok sb d' raw' /\ dir_ok sb d' raw' bss' /\
    read_dir_entries sb raw d = Ok (d, inl (l1 ++ l2)) /\
    (forall raw2, file_ok sb d raw2 -> disjoint sb d raw raw2 -> file_ok sb d' raw2 /\ forall p, 0 <= p -> content sb d' raw2 p = content sb d raw2 p) /\
    match r with
    | inl _ => read_dir_entries sb raw' d' = Ok (d', inl (l1 ++ mkEntry ino ft name :: l2)) /\ (inode_at sb d dir_ino = raw -> inode_at sb d' dir_ino = raw')
    | inr e => e = NoSpace /\ full sb d' /\ read_dir_entries sb raw' d' = Ok (d', inl (l1 ++ l2))
    end.
Proof.
  intros Hv Hf Hd Hdi Hi Ht Hn Hmax H32. destruct (add_dir_entry_ok sb G d raw bss dir_ino name ino ft Hv Hf Hd Hdi Hi Ht) as (d' & raw' & res & He & T & Hr);
    [apply Hn|apply Hn|done|done|]. pose proof (read_dir_entries_ok sb G d raw bss Hv Hf Hd) as Hread. rewrite listing_entries in Hread.
  assert (forall raw2, file_ok sb d raw2 -> disjoint sb d raw raw2 -> file_ok sb d' raw2 /\ forall p, 0 <= p -> content sb d' raw2 p = content sb d raw2 p) as Hother.
  { intros raw2 Hf2 Hdj. destruct (touched_other sb G d raw d' raw' dir_ino raw2 Hv T Hf2 Hdj) as (H1 & _ & H2). done. }
  destruct res as [[]|e].
  - destruct Hr as [(bss' & l1 & l2 & D1 & D2 & D3) Hino]. exists d', raw', (inl ()), bss', (l1 ≫= listing), (l2 ≫= listing).
    pose proof (read_dir_entries_ok sb G d' raw' bss' (to_vol _ _ _ _ _ _ T) (to_file _ _ _ _ _ _ T) D1) as Hread'.
    rewrite listing_entries, D3, bind_app in Hread'. cbn [mbind list_bind] in Hread'. rewrite listing_named in Hread' by (done || lia).
    rewrite D2, bind_app in Hread. split_and!; try done; apply T.
  - destruct Hr as (-> & Hfull & D1). exists d', raw', (inr NoSpace), bss, (dir_entries bss ≫= listing), []. rewrite app_nil_r.
    pose proof (read_dir_entries_ok sb G d' raw' bss (to_vol _ _ _ _ _ _ T) (to_file _ _ _ _ _ _ T) D1) as Hread'. rewrite listing_entries in Hread'.
    split_and!; try done; apply T.
Qed.


End props.

(** The adapter's own allocator does on every device, consistent or not,
    what the core crate's does: the same writes in the same order, the same
    result, the same errors. *)
Theorem adapter_allocator_is_core {D} `{BlockDevice D} (sb : Superblock) (d : D) : 0 <= block_size sb ->
  Ext2Fs.alloc_block sb d = Ext2Fs.core (alloc_block sb) d /\
  (forall b, Ext2Fs.free_block sb b d = Ext2Fs.core (free_block sb b) d) /\
  (forall is_dir, Ext2Fs.alloc_inode sb is_dir d = Ext2Fs.core (alloc_inode sb is_dir) d) /\
  (forall ino is_dir, Ext2Fs.free_inode sb ino is_dir d = Ext2Fs.core (free_inode sb ino is_dir) d).
Proof.
  intros Hbs. split; [by apply alloc_block_same|]. split; [intros; by apply free_block_same|].
  split; [intros; by apply alloc_inode_same|]. intros; by apply free_inode_same.
Qed.

(** ** Witnesses *)

Import Ext2Image.
Local Abbreviation img := Ext2Image.build_minimal_image.
Local Abbreviation isb := Ext2Image.sb.

Lemma ino_11 : is_ino isb 11.
Proof. unfold is_ino. cbn. lia. Qed.

Lemma name_a : name_ok [97].
Proof. split_and!; try done. apply (bool_decide_unpack _). done. Qed.

Lemma alloc_block_spec_witness : exists d' r, alloc_block isb img = Ok (d', inl r) /\ vol_ok isb d' /\
    match r with
    | Some b => mapped isb b /\ used isb img b = false /\ ~ meta isb img b /\ blk isb d' b = zeros isb /\
        (forall b', mapped isb b' -> used isb d' b' = (b' =? b) || used isb img b') /\
        (forall b', valid isb b' -> ~ meta isb img b' -> b' <> b -> blk isb d' b' = blk isb img b') /\
        (forall i, is_ino isb i -> inode_at isb d' i = inode_at isb img i) /\
        sb_free_blocks d' = wrap 32 (sb_free_blocks img - 1)
    | None => d' = img /\ full isb img
    end.
Proof. apply (alloc_block_spec isb sb_geom img). apply image_ok. Defined.

Lemma alloc_free_roundtrip_witness : exists d1 r, alloc_block isb img = Ok (d1, inl r) /\
    match r with
    | Some b => exists d2, free_block isb b d1 = Ok (d2, inl ()) /\ vol_ok isb d2 /\
        (forall b', mapped isb b' -> used isb d2 b' = used isb img b') /\ sb_free_blocks d2 = sb_free_blocks img /\
        (forall b', valid isb b' -> ~ meta isb img b' -> b' <> b -> blk isb d2 b' = blk isb img b')
    | None => full isb img
    end.
Proof. apply (alloc_free_roundtrip isb sb_geom img). apply image_ok. Defined.

Lemma block_for_index_spec_witness : block_for_index isb root_raw 0 img = Ok (img, inl (nonzero (file_block isb img root_raw 0))).
Proof. apply (block_for_index_spec isb sb_geom img root_raw 0); [apply image_ok|apply root_file|done]. Defined.


Lemma read_after_write_witness : exists d' raw' r, write_file_range isb 11 5 [1; 2; 3] (img, empty_raw) = Ok ((d', raw'), r) /\
    match r with
    | inl _ => read_inode isb 11 d' = Ok (d', inl raw') /\ read_file_range isb raw' 5 3 d' = Ok (d', inl [1; 2; 3])
    | inr e => e = NoSpace /\ full isb d'
    end.
Proof.
  apply (read_after_write isb sb_geom img empty_raw 11 5 [1; 2; 3]); [apply image_ok|apply empty_file|apply ino_11|repeat constructor; lia|done|done|vm_compute; done].
Defined.

Lemma walk_visits_once_witness : exists l, visit_inode_blocks isb (fun b x => Ok ((x.1, x.2 ++ [b]), inl ())) root_raw (img, []) = Ok ((img, l), inl ()) /\ NoDup l /\
    forall b, b ∈ l <-> exists s j q, key_ok isb s j q /\ node isb img root_raw s j q = b /\ b <> 0.
Proof. apply (walk_visits_once isb sb_geom img root_raw); [apply image_ok|apply root_file]. Defined.

Lemma truncate_frees_exactly_witness : exists d' raw', Ext2Fs.truncate_to_zero isb 2 root_raw img = Ok (d', inl raw') /\ vol_ok isb d' /\ inode_at isb d' 2 = raw' /\ fsize raw' = 0 /\
    file_ok isb d' raw' /\ (forall p, 0 <= p -> content isb d' raw' p = 0) /\
    (forall s j q, key_ok isb s j q -> node isb img root_raw s j q <> 0 -> used isb d' (node isb img root_raw s j q) = false) /\
    (forall b, mapped isb b -> (forall s j q, key_ok isb s j q -> node isb img root_raw s j q <> b) -> used isb d' b = used isb img b) /\
    (forall b, valid isb b -> ~ meta isb img b -> blk isb d' b = blk isb img b) /\
    (forall i, is_ino isb i -> i <> 2 -> inode_at isb d' i = inode_at isb img i).
Proof. apply (truncate_frees_exactly isb sb_geom img root_raw 2); [apply image_ok|apply root_file|done|unfold is_ino; cbn; lia]. Defined.

Lemma inode_roundtrip_witness : exists d', write_inode isb 11 empty_raw img = Ok (d', inl ()) /\ vol_ok isb d' /\ read_inode isb 11 d' = Ok (d', inl empty_raw) /\
    forall i, is_ino isb i -> i <> 11 -> read_inode isb i d' = Ok (d', inl (inode_at isb img i)).
Proof. apply (inode_roundtrip isb sb_geom img 11 empty_raw); [apply image_ok|apply ino_11|apply empty_file|apply empty_file]. Defined.

Lemma alloc_inode_spec_witness : exists d' r, alloc_inode isb false img = Ok (d', inl r) /\ vol_ok isb d' /\
    match r with
    | Some ino => is_ino isb ino /\ inode_used isb img ino = false /\
        (forall i, is_ino isb i -> inode_used isb d' i = (i =? ino) || inode_used isb img i) /\
        (forall b, mapped isb b -> used isb d' b = used isb img b) /\
        (forall i, is_ino isb i -> inode_at isb d' i = inode_at isb img i)
    | None => d' = img /\ forall i, is_ino isb i -> inode_used isb img i = true
    end.
Proof. apply (alloc_inode_spec isb sb_geom img false). apply image_ok. Defined.

Lemma add_dir_entry_spec_witness : exists d' raw' r bss' l1 l2, add_dir_entry isb 2 [97] 11 1 (img, root_raw) = Ok ((d', raw'), r) /\
    vol_ok isb d' /\ file_ok isb d' raw' /\ dir_ok isb d' raw' bss' /\ read_dir_entries isb root_raw img = Ok (img, inl (l1 ++ l2)) /\
    (forall raw2, file_ok isb img raw2 -> disjoint isb img root_raw raw2 -> file_ok isb d' raw2 /\ forall p, 0 <= p -> content isb d' raw2 p = content isb img raw2 p) /\
    match r with
    | inl _ => read_dir_entries isb raw' d' = Ok (d', inl (l1 ++ mkEntry 11 1 [97] :: l2)) /\ (inode_at isb img 2 = root_raw -> inode_at isb d' 2 = raw')
    | inr e => e = NoSpace /\ full isb d' /\ read_dir_entries isb raw' d' = Ok (d', inl (l1 ++ l2))
    end.
Proof.
  apply (add_dir_entry_spec isb sb_geom img root_raw [root_recs] 2 [97] 11 1);
    [apply image_ok|apply root_file|apply root_dir_ok|unfold is_ino; cbn; lia|done|done|apply name_a|vm_compute; done|done].
Defined.


Lemma adapter_allocator_is_core_witness :
  Ext2Fs.alloc_block isb img = Ext2Fs.core (alloc_block isb) img /\
  (forall b, Ext2Fs.free_block isb b img = Ext2Fs.core (free_block isb b) img) /\
  (forall is_dir, Ext2Fs.alloc_inode isb is_dir img = Ext2Fs.core (alloc_inode isb is_dir) img) /\
  (forall ino is_dir, Ext2Fs.free_inode isb ino is_dir img = Ext2Fs.core (free_inode isb ino is_dir) img).
Proof. apply (adapter_allocator_is_core isb img). done. Defined.

End Ext2Props.
