(* ===== verification/Ext2Demo.v ===== *)
(** Runs of the ext2 adapter that go wrong: every open file and every looked-up
    inode works on its own copy of the on-disk record, and nothing keeps a
    deleted file's blocks while it is open. *)

From Stdlib Require Import ZArith Lia.
From stdpp Require Import base numbers gmap list.
From S2P Require Import Prelude Bits Bytes Ext2Format Ext2Volume Ext2Dir Ext2Fs Ext2Image.

Local Open Scope Z_scope.

Module Ext2Demo.
Import Bytes Ext2Format Ext2Volume Ext2Image Ext2Fs.

(** The result of a run on the minimal image. *)
Definition result {A} (m : Fs bytes A) : option (A + Errno) :=
  match m build_minimal_image with Ok (_, r) => Some r | _ => None end.

Definition NAME_A : bytes := [97].
Definition NAME_B : bytes := [98].

(** [O_RDWR]. *)
Definition open_rw (f : Ext2Inode) : Fs bytes Ext2FileHandle :=
  o ← open sb f 2;
  match o with AFile h => mret h | ADir _ _ => err EISDIR end.

(** The contents of the file of that name, read through a new handle. *)
Definition cat (dir : Ext2Inode) (name : bytes) : Fs bytes bytes :=
  f ← lookup sb dir name;
  h ← open_rw f;
  r ← handle_read sb h 100;
  mret r.2.

(** Three bytes through one handle, then one byte through another opened
    before, both at offset 0. *)
Definition two_handles : Fs bytes bytes :=
  dir ← root sb;
  f ← create sb dir NAME_A;
  h1 ← open_rw f;
  h2 ← open_rw f;
  _ ← handle_write sb h1 [1; 2; 3];
  _ ← handle_write sb h2 [9];
  cat dir NAME_A.

(** With two handles open on one file, a write of one byte through the
    second drops the three bytes written through the first: the file should
    be [9; 2; 3] and is [9].  The second handle's copy of the inode has no
    blocks, so it allocates new ones and writes its own pointers and size
    over the first's. *)
Theorem second_handle_loses_data : result two_handles = Some (inl [9]).
Proof. vm_compute. reflexivity. Qed.

(** A file is deleted while it is open, another is created and written, then
    the deleted one is written through its handle. *)
Definition write_after_unlink : Fs bytes (bytes * bytes) :=
  dir ← root sb;
  f ← create sb dir NAME_A;
  h1 ← open_rw f;
  _ ← handle_write sb h1 [1; 2; 3];
  f1 ← lookup sb dir NAME_A;
  h ← open_rw f1;
  _ ← unlink sb 0 dir NAME_A;
  g ← create sb dir NAME_B;
  hg ← open_rw g;
  _ ← handle_write sb hg [5; 5; 5];
  before ← cat dir NAME_B;
  _ ← handle_write sb h [7; 7];
  after ← cat dir NAME_B;
  mret (before, after).

(** Writing to a file that was deleted while open writes into the file
    that got its blocks: [unlink] frees the blocks of an open file at once,
    and the handle still points at them. *)
Theorem unlink_open_file_corrupts : result write_after_unlink = Some (inl ([5; 5; 5], [7; 7; 5])).
Proof. vm_compute. reflexivity. Qed.

(** A directory is renamed within its parent: the parent's link count before
    and after, and how many entries it has. *)
Definition rename_subdirectory : Fs bytes (Z * Z * nat) :=
  dir ← root sb;
  _ ← mkdir sb dir NAME_A;
  old_parent ← root sb;
  new_parent ← root sb;
  before ← pure (links_count (i_raw old_parent));
  _ ← rename sb old_parent NAME_A new_parent NAME_B;
  dir1 ← root sb;
  after ← pure (links_count (i_raw dir1));
  es ← read_dir_entries sb (i_raw dir1);
  mret (before, after, length es).

(** Renaming a directory within its parent adds a link to the parent,
    which still has one subdirectory: [take_child] writes one link less, but
    [insert_child] adds one to the count its own copy of the inode had before
    that. *)
Theorem rename_inflates_links : result rename_subdirectory = Some (inl (3, 4, 1%nat)).
Proof. vm_compute. reflexivity. Qed.

(** A superblock with no blocks per group, or with a block size exponent
    of 32 or more, makes [Superblock::parse] panic at mount: it divides by
    [s_blocks_per_group] before the guard against 0, and shifts unchecked. *)
Theorem corrupt_superblock_panics :
  parse_superblock (le 32 4 0 (superblock_bytes 234 127)) = Panic /\ parse_superblock (le 24 4 32 (superblock_bytes 234 127)) = Panic.
Proof. split; vm_compute; reflexivity. Qed.

End Ext2Demo.
