(* ===== verification/Ext2RepairProps.v ===== *)
(** What the mount-time repair promises, on the test image with orphans among
    others. *)

From Stdlib Require Import ZArith Lia.
From stdpp Require Import base numbers gmap list.
From S2P Require Import Prelude Bits Bytes Ext2Format Ext2Volume Ext2Dir Ext2Repair Ext2Inv Ext2Files Ext2Walk Ext2DirInv Ext2RepairInv Ext2Image.

Local Open Scope Z_scope.

Module Ext2RepairProps.
Import Bytes Ext2Format Ext2Volume Ext2Dir Ext2Repair Ext2Inv Ext2Files Ext2Walk Ext2DirInv Ext2RepairInv.

Section props.
Context {D : Type} `{BlockDevice D}.
Variable sb : Superblock.
Hypothesis G : geom_ok sb.
Implicit Types d : D.

(** C27: On a volume with correct counts whose directory tree can be read and is
    at most 64 deep, [reclaim_orphans] succeeds.  Afterwards a block is in use
    exactly when it was before and is metadata or belongs to an inode reachable
    from the root, and an inode exactly when it was before and is reachable or
    reserved; free counts and bitmaps agree, no other block of the disk has
    changed, the numbers returned are those of the blocks and inodes given
    back, and when they are zero nothing was written. *)
Theorem reclaim_orphans_spec d : vol_ok sb d -> tree_ok sb d -> shallow sb d ->
  inodes_count sb < 2 ^ 31 -> 0 <= sb_free_blocks d < 2 ^ 31 -> 0 <= sb_free_inodes d < 2 ^ 31 ->
  exists d' fb fi, reclaim_orphans sb d = Ok (d', inl (fb, fi)) /\ vol_ok sb d' /\
    (forall b, mapped sb b -> used sb d' b = true <-> used sb d b = true /\ (reserved sb d b \/ exists i, reachable sb d i /\ owned sb d i b)) /\
    (forall i, is_ino sb i -> inode_used sb d' i = true <-> inode_used sb d i = true /\ (reachable sb d i \/ i < first_ino sb)) /\
    (forall b, valid sb b -> ~ core_meta sb d b -> blk sb d' b = blk sb d b) /\
    fb = tot (real_b sb d') (groups sb) - tot (real_b sb d) (groups sb) /\ fi = tot (real_i sb d') (groups sb) - tot (real_i sb d) (groups sb) /\
    (fb = 0 -> fi = 0 -> d' = d).
Proof.
  intros Hv Ht Hsh Hic Hsb Hsi. destruct (reclaim_ok sb G d Hv Ht Hsh Hic Hsb Hsi) as (d' & fb & fi & E & [R1 _ R3 R4 R5 [R6 R7] (_ & _ & R8)]).
  exists d', fb, fi. split_and!; done.
Qed.

(** On a volume whose metadata is in place but whose free counts may be
    stale, [reconcile_free_counts] makes every count what the bitmaps say,
    changes only the descriptors and the superblock, and reports the totals;
    without drift it writes nothing. *)
Theorem reconcile_free_counts_spec d : disk_ok sb d -> inodes_count sb < 2 ^ 31 -> 0 <= sb_free_blocks d < 2 ^ 31 -> 0 <= sb_free_inodes d < 2 ^ 31 ->
  exists d' rep, reconcile_free_counts sb d = Ok (d', inl rep) /\ vol_ok sb d' /\
    (forall b, valid sb b -> b <> sblk sb -> (forall g, group sb g -> b <> dblk sb g) -> blk sb d' b = blk sb d b) /\
    sb_free_blocks d' = tot (real_b sb d) (groups sb) /\ sb_free_inodes d' = tot (real_i sb d) (groups sb) /\
    total_free_blocks rep = sb_free_blocks d' /\ total_free_inodes rep = sb_free_inodes d' /\
    (bgd_drift rep = false -> sb_drift rep = false -> d' = d).
Proof.
  intros Hk Hic Hsb Hsi. destruct (reconcile_ok sb G d Hk Hsb Hsi Hic) as (d' & rep & E & [C1 _ C3 [C4 C5] [C6 C7] C8]).
  exists d', rep. split_and!; try done; congruence.
Qed.

End props.

(** ** The image with orphans *)

Import Ext2Image.

Abbreviation isb := Ext2Image.sb.
Abbreviation orphans := build_image_with_orphans.

Lemma orphans_desc : bbm isb orphans 0 = 3 /\ ibm isb orphans 0 = 4 /\ itab isb orphans 0 = 5.
Proof. vm_compute. done. Qed.

Lemma orphans_ok : vol_ok isb orphans.
Proof.
  apply single_group_ok; [apply orphans_desc| |apply (bool_decide_unpack _); vm_compute; done|vm_compute; done|vm_compute; done].
  split; [vm_compute; done|vm_compute; done|]. apply (bool_decide_unpack _). vm_compute. done.
Qed.

Lemma orphans_root_file : file_ok isb orphans root_raw.
Proof. apply root_file_in; [apply orphans_desc|vm_compute; done]. Qed.

Lemma orphans_root : inode_at isb orphans ROOT_INO = root_raw.
Proof. vm_compute. done. Qed.

(** The root lists nothing. *)
Lemma orphans_listing : read_dir_entries isb root_raw orphans = Ok (orphans, inl []).
Proof.
  apply (read_dir_entries_ok isb sb_geom orphans root_raw [root_recs] orphans_ok orphans_root_file).
  apply root_dir_in. vm_compute. done.
Qed.

Lemma orphans_links j : ~ links isb orphans ROOT_INO j.
Proof.
  intros Hl. apply (links_listed isb orphans ROOT_INO j []) in Hl; [by apply elem_of_nil in Hl|]. rewrite orphans_root. apply orphans_listing.
Qed.

Lemma orphans_reachable i : reachable isb orphans i -> i = ROOT_INO.
Proof. intros Hr. inversion Hr as [|x y z Hl]; [done|]. by apply orphans_links in Hl. Qed.

Lemma orphans_tree : tree_ok isb orphans.
Proof.
  split; intros i ->%orphans_reachable.
  - split; vm_compute; done.
  - intros _. rewrite orphans_root. apply orphans_root_file.
  - intros _. rewrite orphans_root. exists []. apply orphans_listing.
Qed.

Lemma orphans_shallow : shallow isb orphans.
Proof.
  intros p Ht _. destruct Ht as [|i j p Ht Hl]; [unfold MAX_DEPTH; cbn; lia|].
  by rewrite (orphans_reachable i (trail_reachable isb orphans i p Ht)) in Hl; apply orphans_links in Hl.
Qed.

Lemma orphans_counts : sb_free_blocks orphans = 232 /\ sb_free_inodes orphans = 125.
Proof. vm_compute. done. Qed.

(** What becomes of the orphan file and directory, and of the root. *)
Lemma reclaim_orphans_spec_witness : exists d' fb fi, reclaim_orphans isb orphans = Ok (d', inl (fb, fi)) /\ vol_ok isb d' /\
  inode_used isb d' ORPHAN_FILE_INO = false /\ inode_used isb d' ORPHAN_DIR_INO = false /\ inode_used isb d' ROOT_INO = true /\
  used isb d' root_data_block = true.
Proof.
  destruct orphans_counts as [Hc1 Hc2].
  destruct (reclaim_orphans_spec isb sb_geom orphans orphans_ok orphans_tree orphans_shallow) as (d' & fb & fi & E & Hv & Hu & Hi & _);
    [done|rewrite Hc1; lia|rewrite Hc2; lia|]. exists d', fb, fi. split; [exact E|]. split; [exact Hv|].
  assert (forall i, is_ino isb i -> i <> ROOT_INO -> 11 <= i -> inode_used isb d' i = false) as Hno.
  { intros i Hin Hne Hge. destruct (inode_used isb d' i) eqn:Hd; [|done]. exfalso. apply (Hi i Hin) in Hd as [_ [Hr|Hlt]];
      [by apply Hne, orphans_reachable|cbn in Hlt; lia]. }
  split_and!.
  - apply Hno; [split; vm_compute; done|done|vm_compute; done].
  - apply Hno; [split; vm_compute; done|done|vm_compute; done].
  - apply Hi; [split; vm_compute; (done || discriminate)|]. split; [vm_compute; reflexivity|]. left. apply rtc_refl.
  - apply Hu; [split; vm_compute; (done || discriminate)|]. split; [vm_compute; reflexivity|]. right. exists ROOT_INO. split; [apply rtc_refl|]. split; [rewrite orphans_root; vm_compute; reflexivity|].
    rewrite orphans_root. apply (elem_of_tree isb sb_geom). exists 0, 0%nat, 0. split; [|split; [reflexivity|discriminate]]. split; [lia|]. split; [cbn; lia|cbn; lia].
Defined.

(** The same image with a stale count in the superblock. *)
Definition stale : bytes := over 1036 (to_le 4 7) orphans.

Lemma stale_ok : disk_ok isb stale.
Proof. apply vol_disk. apply single_group_ok; [vm_compute; done| |apply (bool_decide_unpack _); vm_compute; done|vm_compute; done|vm_compute; done].
  split; [vm_compute; done|vm_compute; done|]. apply (bool_decide_unpack _). vm_compute. done.
Qed.

Lemma reconcile_free_counts_spec_witness : exists d' rep, reconcile_free_counts isb stale = Ok (d', inl rep) /\ vol_ok isb d' /\
  sb_free_blocks stale = 7 /\ sb_free_blocks d' = 232.
Proof.
  assert (sb_free_blocks stale = 7 /\ sb_free_inodes stale = 125) as [H1 H2] by (vm_compute; done).
  destruct (reconcile_free_counts_spec isb sb_geom stale stale_ok) as (d' & rep & E & Hv & _ & Hb & _);
    [done|rewrite H1; lia|rewrite H2; lia|]. exists d', rep. split_and!; [exact E|exact Hv|exact H1|]. rewrite Hb. vm_compute. reflexivity.
Defined.

(** Mounting the stale image repairs it: two blocks and two inodes come back,
    the phantom directory behind a clear bit stays as it is. *)
Theorem mount_repairs_image :
  match mount_and_repair stale with
  | Ok (d, inl s) => s = isb /\ sb_free_blocks d = 234 /\ sb_free_inodes d = 127 /\ fbc isb d 0 = 234 /\ fic isb d 0 = 127 /\
      inode_at isb d PHANTOM_DIR_INO = inode_at isb stale PHANTOM_DIR_INO
  | _ => False
  end.
Proof. vm_compute. repeat split; reflexivity. Qed.

(** A free count of [2 ^ 31] in the superblock, however it got there, makes the
    repair panic instead of correcting it: the difference overflows [i32]. *)
Theorem corrupt_count_panics : reconcile_free_counts isb (over 1036 (to_le 4 (2 ^ 31)) orphans) = Panic.
Proof. vm_compute. reflexivity. Qed.

End Ext2RepairProps.
