(* ===== verification/HalClock.v ===== *)
(** The clocks of the [hal] crate: the CMOS real-time clock ([hal/src/rtc.rs])
    and the interval timer ([hal/src/pit.rs]), over the port I/O seam
    ([PortIo] of [hal/src/lib.rs]). *)

From Stdlib Require Import ZArith Lia.
From stdpp Require Import base numbers list.
From S2P Require Import Prelude Bits Bytes.

Local Open Scope Z_scope.

(** The trait [PortIo]: the devices behind the ports are the state [IO].  Ports
    are 16 bits wide, a byte read is a byte. *)
Class PortIo (IO : Type) := {
  inb : Z -> IO -> IO * Z;
  outb : Z -> Z -> IO -> IO;
  inb_byte : forall port s, 0 <= (inb port s).2 < 256;
}.

(** ** Real-time clock *)

Module Rtc.
Import Bytes.

Definition CMOS_INDEX : Z := 112.
Definition CMOS_DATA : Z := 113.
Definition REG_SECONDS : Z := 0.
Definition REG_MINUTES : Z := 2.
Definition REG_HOURS : Z := 4.
Definition REG_DAY : Z := 7.
Definition REG_MONTH : Z := 8.
Definition REG_YEAR : Z := 9.
Definition REG_STATUS_A : Z := 10.
Definition REG_STATUS_B : Z := 11.
Definition STATUS_A_UPDATE_IN_PROGRESS : Z := Z.shiftl 1 7.
Definition STATUS_B_BINARY : Z := Z.shiftl 1 2.
Definition STATUS_B_24H : Z := Z.shiftl 1 1.
Definition MAX_ATTEMPTS : nat := 1000.

(** In [u8]. *)
Definition bcd_to_bin (v : Z) : may_panic Z :=
  t ← chk 8 (Z.shiftr v 4 * 10); chk 8 (Z.land v 15 + t).

Record RawTime := mkRaw { second : Z; minute : Z; hour : Z; day : Z; month : Z; year : Z }.

#[global] Instance RawTime_eq_dec : EqDecision RawTime.
Proof. solve_decision. Defined.

(** [days_from_civil]: [/] on [i64] truncates towards zero. *)
Definition days_from_civil (y m d : Z) : Z :=
  let y := if m <=? 2 then y - 1 else y in
  let era := Z.quot (if 0 <=? y then y else y - 399) 400 in
  let yoe := y - era * 400 in
  let doy := Z.quot (153 * (if 2 <? m then m - 3 else m + 9) + 2) 5 + d - 1 in
  let doe := yoe * 365 + Z.quot yoe 4 - Z.quot yoe 100 + doy in
  era * 146097 + doe - 719468.

Section rtc.
Context {IO : Type} `{PortIo IO}.

Definition cmos_read (reg : Z) (s : IO) : IO * Z := inb CMOS_DATA (outb CMOS_INDEX reg s).

Definition update_in_progress (s : IO) : IO * bool :=
  let '(s, v) := cmos_read REG_STATUS_A s in (s, negb (Z.land v STATUS_A_UPDATE_IN_PROGRESS =? 0)).

Definition read_raw_snapshot (s : IO) : IO * RawTime :=
  let '(s, sec) := cmos_read REG_SECONDS s in
  let '(s, min) := cmos_read REG_MINUTES s in
  let '(s, hr) := cmos_read REG_HOURS s in
  let '(s, d) := cmos_read REG_DAY s in
  let '(s, mo) := cmos_read REG_MONTH s in
  let '(s, y) := cmos_read REG_YEAR s in
  (s, mkRaw sec min hr d mo y).

(** [for _ in 0..n { if !self.update_in_progress() { break; } }]. *)
Fixpoint wait_update (n : nat) (s : IO) : IO :=
  match n with
  | O => s
  | S n' => let '(s, busy) := update_in_progress s in if busy : bool then wait_update n' s else s
  end.

Fixpoint stable_from (n : nat) (s : IO) : IO * option RawTime :=
  match n with
  | O => (s, None)
  | S n' =>
      let s := wait_update MAX_ATTEMPTS s in
      let '(s, first) := read_raw_snapshot s in
      let s := wait_update MAX_ATTEMPTS s in
      let '(s, second) := read_raw_snapshot s in
      if bool_decide (first = second) then (s, Some first) else stable_from n' s
  end.
Definition read_stable_snapshot (s : IO) : IO * option RawTime := stable_from MAX_ATTEMPTS s.

(** The digits of the registers, in binary or BCD; the PM flag is bit 7 of the
    hour. *)
Definition decode_digits (raw : RawTime) (status_b : Z) : may_panic RawTime :=
  if negb (Z.land status_b STATUS_B_BINARY =? 0) then
    Ok (mkRaw (second raw) (minute raw) (Z.land (hour raw) 127) (day raw) (month raw) (year raw))
  else
    sec ← bcd_to_bin (second raw);
    min ← bcd_to_bin (minute raw);
    hr ← bcd_to_bin (Z.land (hour raw) 127);
    d ← bcd_to_bin (day raw);
    mo ← bcd_to_bin (month raw);
    y ← bcd_to_bin (year raw);
    Ok (mkRaw sec min hr d mo y).

Definition decode_hour (raw_hour hr status_b : Z) : may_panic Z :=
  let pm := negb (Z.land raw_hour 128 =? 0) in
  if Z.land status_b STATUS_B_24H =? 0 then
    if pm && negb (hr =? 12) then chk 8 (hr + 12)
    else if negb pm && (hr =? 12) then Ok 0
    else Ok hr
  else Ok hr.

Definition unix_time (raw : RawTime) (status_b : Z) : may_panic Z :=
  t ← decode_digits raw status_b;
  hr ← decode_hour (hour raw) (hour t) status_b;
  let days := days_from_civil (2000 + year t) (month t) (day t) in
  Ok (wrap 64 (days * 86400 + (hr * 3600 + minute t * 60 + second t))).

Definition read_unix_time (s : IO) : may_panic (IO * option Z) :=
  let '(s, raw) := read_stable_snapshot s in
  match raw with
  | None => Ok (s, None)
  | Some raw =>
      let '(s, status_b) := cmos_read REG_STATUS_B s in
      t ← unix_time raw status_b;
      Ok (s, Some t)
  end.

End rtc.

(** ** The calendar *)

Definition leap (y : Z) : bool := (y mod 4 =? 0) && (negb (y mod 100 =? 0) || (y mod 400 =? 0)).

Definition month_len (y m : Z) : Z :=
  if m =? 2 then (if leap y then 29 else 28)
  else if (m =? 4) || (m =? 6) || (m =? 9) || (m =? 11) then 30 else 31.

Record date := mkDate { d_year : Z; d_month : Z; d_day : Z }.

Definition valid_date (c : date) : Prop := 1 <= d_month c <= 12 /\ 1 <= d_day c <= month_len (d_year c) (d_month c).

Definition next_day (c : date) : date :=
  if d_day c <? month_len (d_year c) (d_month c) then mkDate (d_year c) (d_month c) (d_day c + 1)
  else if d_month c <? 12 then mkDate (d_year c) (d_month c + 1) 1
  else mkDate (d_year c + 1) 1 1.

Definition epoch : date := mkDate 1970 1 1.
Definition days_of (c : date) : Z := days_from_civil (d_year c) (d_month c) (d_day c).

(** The [y]th year from March on starts on this day. *)
Definition year_start (y : Z) : Z := 365 * y + y / 4 - y / 100 + y / 400 - 719468.

Lemma quot_floor a b : 0 <= a -> 0 < b -> Z.quot a b = a / b.
Proof. intros Ha Hb. by apply Z.quot_div_nonneg. Qed.

Lemma days_from_civil_eq y m d : 1 <= m <= 12 ->
  days_from_civil y m d = year_start (if m <=? 2 then y - 1 else y) + (153 * (if 2 <? m then m - 3 else m + 9) + 2) / 5 + d - 1.
Proof.
  intros Hm. unfold days_from_civil, year_start. set (y' := if m <=? 2 then y - 1 else y).
  assert (Z.quot (if 0 <=? y' then y' else y' - 399) 400 = y' / 400) as ->.
  { destruct (Z.leb_spec 0 y'); [by apply quot_floor|]. replace (y' - 399) with (- (399 - y')) by lia. rewrite Z.quot_opp_l by lia.
    rewrite quot_floor by lia. Z.to_euclidean_division_equations. lia. }
  assert (0 <= y' - y' / 400 * 400 < 400) as Hyoe by (Z.to_euclidean_division_equations; lia).
  rewrite !quot_floor by (try lia; destruct (Z.ltb_spec 2 m); lia). set (e := y' / 400) in *. set (doy := _ / 5).
  assert ((y' - e * 400) / 4 = y' / 4 - 100 * e) as -> by (replace (y' - e * 400) with (y' + - (100 * e) * 4) by lia; rewrite Z.div_add by lia; lia).
  assert ((y' - e * 400) / 100 = y' / 100 - 4 * e) as -> by (replace (y' - e * 400) with (y' + - (4 * e) * 100) by lia; rewrite Z.div_add by lia; lia).
  lia.
Qed.

Lemma year_step y : year_start (y + 1) = year_start y + 365 + (if leap (y + 1) then 1 else 0).
Proof.
  unfold year_start, leap. destruct (Z.eqb_spec ((y + 1) mod 4) 0), (Z.eqb_spec ((y + 1) mod 100) 0), (Z.eqb_spec ((y + 1) mod 400) 0);
    cbn [andb orb negb]; Z.to_euclidean_division_equations; lia.
Qed.

Lemma next_valid c : valid_date c -> valid_date (next_day c).
Proof.
  intros [Hm Hd]. unfold next_day, valid_date. assert (forall y m, 28 <= month_len y m) as Hlen.
  { intros y m. unfold month_len. repeat case_match; lia. }
  destruct (Z.ltb_spec (d_day c) (month_len (d_year c) (d_month c))); cbn [d_year d_month d_day]; [lia|].
  destruct (Z.ltb_spec (d_month c) 12); cbn [d_year d_month d_day].
  - pose proof (Hlen (d_year c) (d_month c + 1)). lia.
  - pose proof (Hlen (d_year c + 1) 1). lia.
Qed.

(** One day later is one more. *)
Lemma next_day_counts c : valid_date c -> days_of (next_day c) = days_of c + 1.
Proof.
  destruct c as [y m d]. intros [Hm Hd]. cbn [d_year d_month d_day] in *. unfold next_day, days_of. cbn [d_year d_month d_day].
  assert (m = 1 \/ m = 2 \/ m = 3 \/ m = 4 \/ m = 5 \/ m = 6 \/ m = 7 \/ m = 8 \/ m = 9 \/ m = 10 \/ m = 11 \/ m = 12) as Hcases by lia.
  pose proof (year_step (y - 1)) as Hy. replace (y - 1 + 1) with y in Hy by lia.
  destruct (Z.ltb_spec d (month_len y m)) as [Hlt|Hge]; cbn [d_year d_month d_day].
  { rewrite !days_from_civil_eq by done. lia. }
  assert (d = month_len y m) as -> by lia. unfold month_len.
  destruct Hcases as [->|[->|[->|[->|[->|[->|[->|[->|[->|[->|[->| ->]]]]]]]]]]]; case_bools; try lia; cbn [orb d_year d_month d_day];
    rewrite !days_from_civil_eq by lia; case_bools; try lia; replace (y + 1 - 1) with y by lia; destruct (leap y);
    Z.to_euclidean_division_equations; lia.
Qed.

Lemma epoch_day : days_of epoch = 0.
Proof. done. Qed.

Lemma iter_days n : valid_date (Nat.iter n next_day epoch) /\ days_of (Nat.iter n next_day epoch) = Z.of_nat n.
Proof.
  induction n as [|n [IHv IHd]]; [split; [unfold valid_date; cbn; lia|done]|]. rewrite Nat.iter_succ. split; [by apply next_valid|].
  rewrite next_day_counts by done. rewrite IHd. lia.
Qed.

(** The dates that come up counting from the epoch. *)
Definition comes (c : date) : Prop := exists n, Nat.iter n next_day epoch = c.

Lemma comes_next c : comes c -> comes (next_day c).
Proof. intros [n <-]. by exists (S n). Qed.

Lemma comes_days y m k : comes (mkDate y m 1) -> 1 + Z.of_nat k <= month_len y m -> comes (mkDate y m (1 + Z.of_nat k)).
Proof.
  intros Hc. induction k as [|k IH]; intros Hk; [done|]. specialize (IH ltac:(lia)). apply comes_next in IH. unfold next_day in IH.
  cbn [d_year d_month d_day] in IH. rewrite (proj2 (Z.ltb_lt _ _)) in IH by lia. by replace (1 + Z.of_nat (S k)) with (1 + Z.of_nat k + 1) by lia.
Qed.

Lemma comes_month_end y m : comes (mkDate y m 1) -> comes (mkDate y m (month_len y m)).
Proof.
  intros Hc. assert (28 <= month_len y m) by (unfold month_len; repeat case_match; lia).
  replace (month_len y m) with (1 + Z.of_nat (Z.to_nat (month_len y m - 1))) by lia. apply comes_days; [done|lia].
Qed.

Lemma comes_months y k : comes (mkDate y 1 1) -> 1 + Z.of_nat k <= 12 -> comes (mkDate y (1 + Z.of_nat k) 1).
Proof.
  intros Hc. induction k as [|k IH]; intros Hk; [done|]. specialize (IH ltac:(lia)). apply comes_month_end, comes_next in IH. unfold next_day in IH.
  cbn [d_year d_month d_day] in IH. rewrite Z.ltb_irrefl, (proj2 (Z.ltb_lt _ _)) in IH by lia. by replace (1 + Z.of_nat (S k)) with (1 + Z.of_nat k + 1) by lia.
Qed.

Lemma comes_years k : comes (mkDate (1970 + Z.of_nat k) 1 1).
Proof.
  induction k as [|k IH]; [by exists 0%nat|]. apply (comes_months _ 11) in IH; [|done]. apply comes_month_end, comes_next in IH. unfold next_day in IH.
  cbn [d_year d_month d_day] in IH. rewrite Z.ltb_irrefl in IH. change (1 + Z.of_nat 11 <? 12) with false in IH. cbn iota in IH.
  by replace (1970 + Z.of_nat (S k)) with (1970 + Z.of_nat k + 1) by lia.
Qed.

Lemma comes_all c : valid_date c -> 1970 <= d_year c -> comes c.
Proof.
  destruct c as [y m d]. intros [Hm Hd] Hy. cbn [d_year d_month d_day] in *.
  pose proof (comes_years (Z.to_nat (y - 1970))) as Hc. replace (1970 + Z.of_nat (Z.to_nat (y - 1970))) with y in Hc by lia.
  apply (comes_months _ (Z.to_nat (m - 1))) in Hc; [|lia]. replace (1 + Z.of_nat (Z.to_nat (m - 1))) with m in Hc by lia.
  apply (comes_days _ _ (Z.to_nat (d - 1))) in Hc; [|lia]. by replace (1 + Z.of_nat (Z.to_nat (d - 1))) with d in Hc by lia.
Qed.

(** ** Decoding *)

(** How the clock stores a number below 100, and the hour. *)
Definition encode (binary : bool) (v : Z) : Z := if binary then v else v / 10 * 16 + v mod 10.
Definition encode_hour (binary h24 : bool) (h : Z) : Z :=
  if h24 then encode binary h
  else encode binary (if h mod 12 =? 0 then 12 else h mod 12) + (if h <? 12 then 0 else 128).

(** The flags in status register B. *)
Definition flags_ok (status_b : Z) (binary h24 : bool) : Prop :=
  Z.land status_b STATUS_B_BINARY = (if binary then STATUS_B_BINARY else 0) /\ Z.land status_b STATUS_B_24H = (if h24 then STATUS_B_24H else 0).

Lemma bcd_encode v : 0 <= v < 100 -> bcd_to_bin (encode false v) = Ok v.
Proof.
  intros Hv. assert (Forall (fun v => bcd_to_bin (encode false v) = Ok v) (seqZ 0 100)) as Hall by (repeat constructor).
  apply (proj1 (Forall_forall _ _) Hall). apply elem_of_seqZ. lia.
Qed.

Lemma hour_encode binary h24 h : 0 <= h < 24 ->
  exists h0, (if binary : bool then Ok (Z.land (encode_hour binary h24 h) 127) else bcd_to_bin (Z.land (encode_hour binary h24 h) 127)) = Ok h0 /\
    forall status_b, flags_ok status_b binary h24 -> decode_hour (encode_hour binary h24 h) h0 status_b = Ok h.
Proof.
  intros Hh.
  assert (Forall (fun h => exists h0, (if binary : bool then Ok (Z.land (encode_hour binary h24 h) 127) else bcd_to_bin (Z.land (encode_hour binary h24 h) 127)) = Ok h0 /\
    forall status_b, flags_ok status_b binary h24 -> decode_hour (encode_hour binary h24 h) h0 status_b = Ok h) (seqZ 0 24)) as Hall.
  { destruct binary, h24; repeat constructor; eexists; (split; [vm_compute; reflexivity|]); intros status_b [_ Hf]; unfold decode_hour; rewrite Hf; vm_compute; reflexivity. }
  apply (proj1 (Forall_forall _ _) Hall). apply elem_of_seqZ. lia.
Qed.

(** Decoding undoes encoding. *)
Lemma unix_time_ok c h mi se binary h24 status_b : valid_date c -> 2000 <= d_year c < 2100 -> 0 <= h < 24 -> 0 <= mi < 60 -> 0 <= se < 60 ->
  flags_ok status_b binary h24 ->
  unix_time (mkRaw (encode binary se) (encode binary mi) (encode_hour binary h24 h) (encode binary (d_day c)) (encode binary (d_month c)) (encode binary (d_year c - 2000))) status_b =
    Ok (days_of c * 86400 + (h * 3600 + mi * 60 + se)).
Proof.
  intros Hv Hy Hh Hmi Hse Hfl. pose proof Hv as [Hm Hd]. assert (month_len (d_year c) (d_month c) <= 31) as Hlen by (unfold month_len; repeat case_match; lia).
  destruct (hour_encode binary h24 h Hh) as (h0 & E0 & Eh). specialize (Eh status_b Hfl). destruct Hfl as [Hb _].
  unfold unix_time, decode_digits. cbn [second minute hour day month year]. rewrite Hb.
  assert (0 <= days_of c < 100000) as Hdays.
  { unfold days_of. rewrite days_from_civil_eq by done. unfold year_start. case_bools; Z.to_euclidean_division_equations; lia. }
  assert (forall x, 0 <= x < 100000 * 86400 + 86400 -> wrap 64 x = x) as Hw by (intros x Hx; unfold wrap; apply Z.mod_small; lia).
  destruct binary; cbn [negb Z.eqb STATUS_B_BINARY Z.shiftl].
  - injection E0 as E0. cbn [encode] in *. change (negb (STATUS_B_BINARY =? 0)) with true. cbn iota. cbn [mbind outcome_bind hour]. rewrite E0, Eh. cbn [mbind outcome_bind year month day minute second].
    replace (2000 + (d_year c - 2000)) with (d_year c) by lia. fold (days_of c). f_equal. apply Hw. lia.
  - change (negb (0 =? 0)) with false. cbn iota. rewrite !bcd_encode by lia. cbn [mbind outcome_bind]. rewrite E0.
    cbn [mbind outcome_bind hour]. rewrite Eh. cbn [mbind outcome_bind year month day minute second].
    replace (2000 + (d_year c - 2000)) with (d_year c) by lia. fold (days_of c). f_equal. apply Hw. lia.
Qed.

(** ** Whatever the device does *)

Definition raw_bytes (r : RawTime) : Prop :=
  0 <= second r < 256 /\ 0 <= minute r < 256 /\ 0 <= hour r < 256 /\ 0 <= day r < 256 /\ 0 <= month r < 256 /\ 0 <= year r < 256.

Lemma bcd_total v : 0 <= v < 256 -> exists b, bcd_to_bin v = Ok b /\ 0 <= b <= 165 /\ (v < 128 -> b <= 85).
Proof.
  intros Hv. unfold bcd_to_bin. change 15 with (Z.ones 4). rewrite Z.shiftr_div_pow2, Z.land_ones by lia. change (2 ^ 4) with 16.
  pose proof (Z.mod_pos_bound v 16 ltac:(lia)). pose proof (Z.div_mod v 16 ltac:(lia)).
  rewrite chk_ok by (change (2 ^ 8) with 256; lia). cbn [mbind outcome_bind]. rewrite chk_ok by (change (2 ^ 8) with 256; lia).
  eexists. split; [done|]. lia.
Qed.

Lemma days_bound y m d : 2000 <= y <= 2255 -> 0 <= m < 256 -> 0 <= d < 256 -> 0 <= days_from_civil y m d < 150000.
Proof.
  intros Hy Hm Hd. unfold days_from_civil. case_bools; try lia; rewrite !quot_floor by (Z.to_euclidean_division_equations; lia); Z.to_euclidean_division_equations; lia.
Qed.

Lemma digits_total raw status_b : raw_bytes raw ->
  exists t, decode_digits raw status_b = Ok t /\ raw_bytes t /\ hour t <= 127.
Proof.
  intros (H1 & H2 & H3 & H4 & H5 & H6). assert (0 <= Z.land (hour raw) 127 < 128) as Hh by (change 127 with (Z.ones 7); rewrite Z.land_ones by lia; by apply Z.mod_pos_bound).
  unfold decode_digits. destruct (negb _); [eexists; split; [done|]; unfold raw_bytes; cbn; lia|].
  destruct (bcd_total _ H1) as (b1 & -> & ? & _), (bcd_total _ H2) as (b2 & -> & ? & _), (bcd_total (Z.land (hour raw) 127) ltac:(lia)) as (b3 & -> & ? & Hb3),
    (bcd_total _ H4) as (b4 & -> & ? & _), (bcd_total _ H5) as (b5 & -> & ? & _), (bcd_total _ H6) as (b6 & -> & ? & _).
  cbn [mbind outcome_bind]. eexists. split; [done|]. unfold raw_bytes. cbn. lia.
Qed.

Lemma unix_time_total raw status_b : raw_bytes raw -> exists t, unix_time raw status_b = Ok t /\ 0 <= t < 2 ^ 34.
Proof.
  intros Hr. destruct (digits_total raw status_b Hr) as (t & Et & (H1 & H2 & H3 & H4 & H5 & H6) & Hh). unfold unix_time. rewrite Et. cbn [mbind outcome_bind].
  assert (exists h, decode_hour (hour raw) (hour t) status_b = Ok h /\ 0 <= h < 256) as (h & -> & Hb).
  { unfold decode_hour. repeat case_match; try (eexists; split; [done|lia]). rewrite chk_ok by (change (2 ^ 8) with 256; lia). eexists. split; [done|lia]. }
  cbn [mbind outcome_bind]. eexists. split; [done|]. pose proof (days_bound (2000 + year t) (month t) (day t) ltac:(lia) H5 H4) as Hd.
  unfold wrap. rewrite Z.mod_small; change (2 ^ 34) with 17179869184; [lia|change (2 ^ 64) with 18446744073709551616; lia].
Qed.

Section any_device.
Context {IO : Type} `{PortIo IO}.

Lemma snapshot_bytes s : raw_bytes (read_raw_snapshot s).2.
Proof.
  unfold read_raw_snapshot, raw_bytes, cmos_read.
  repeat match goal with |- context [inb ?p ?x] => pose proof (inb_byte p x); destruct (inb p x) end. cbn in *. done.
Qed.

Lemma stable_bytes n s r : (stable_from n s).2 = Some r -> raw_bytes r.
Proof.
  revert s. induction n as [|n IH]; intros s; cbn [stable_from]; [done|]. pose proof (snapshot_bytes (wait_update MAX_ATTEMPTS s)) as Hb.
  destruct (read_raw_snapshot _) as [s1 r1]. destruct (read_raw_snapshot _) as [s2 r2]. case_bool_decide; [by intros [= <-]|apply IH].
Qed.

End any_device.

(** ** A clock that stands still *)

(** The registers and the one selected. *)
Record Cmos := mkCmos { index : Z; regs : Z -> Z }.

#[global, program] Instance cmos_io : PortIo Cmos := {|
  inb port s := (s, if port =? CMOS_DATA then regs s (index s) mod 256 else 0);
  outb port v s := if port =? CMOS_INDEX then mkCmos v (regs s) else s;
|}.
Next Obligation. intros port s. cbn. destruct (port =? CMOS_DATA); [by apply Z.mod_pos_bound|done]. Qed.

Definition shows (s : Cmos) (c : date) (h mi se : Z) (binary h24 : bool) : Prop :=
  regs s REG_SECONDS = encode binary se /\ regs s REG_MINUTES = encode binary mi /\ regs s REG_HOURS = encode_hour binary h24 h /\
  regs s REG_DAY = encode binary (d_day c) /\ regs s REG_MONTH = encode binary (d_month c) /\ regs s REG_YEAR = encode binary (d_year c - 2000) /\
  Z.land (regs s REG_STATUS_A) STATUS_A_UPDATE_IN_PROGRESS = 0 /\ 0 <= regs s REG_STATUS_A < 256 /\
  flags_ok (regs s REG_STATUS_B) binary h24 /\ 0 <= regs s REG_STATUS_B < 256.

Lemma encode_byte binary v : 0 <= v < 100 -> 0 <= encode binary v < 256.
Proof. intros Hv. unfold encode. destruct binary; [lia|]. Z.to_euclidean_division_equations. lia. Qed.

Lemma encode_hour_byte binary h24 h : 0 <= h < 24 -> 0 <= encode_hour binary h24 h < 256.
Proof.
  intros Hh. unfold encode_hour. destruct h24; [apply encode_byte; lia|]. pose proof (Z.mod_pos_bound h 12 ltac:(lia)).
  assert (0 <= encode binary (if h mod 12 =? 0 then 12 else h mod 12) < 128); [|case_bools; lia].
  destruct binary; cbn [encode]; case_bools; Z.to_euclidean_division_equations; lia.
Qed.

Lemma cmos_reg s r : cmos_read r s = (mkCmos r (regs s), regs s r mod 256).
Proof. done. Qed.

Lemma wait_still n s : Z.land (regs s REG_STATUS_A) STATUS_A_UPDATE_IN_PROGRESS = 0 -> 0 <= regs s REG_STATUS_A < 256 -> regs (wait_update n s) = regs s.
Proof.
  intros Hz Hb. destruct n as [|n]; [done|]. cbn [wait_update]. unfold update_in_progress. rewrite cmos_reg. rewrite Z.mod_small by done. by rewrite Hz.
Qed.

Lemma snapshot_still s : regs (read_raw_snapshot s).1 = regs s /\
  (read_raw_snapshot s).2 = mkRaw (regs s REG_SECONDS mod 256) (regs s REG_MINUTES mod 256) (regs s REG_HOURS mod 256) (regs s REG_DAY mod 256) (regs s REG_MONTH mod 256) (regs s REG_YEAR mod 256).
Proof. done. Qed.

(** A clock that does not change is read at the first attempt. *)
Lemma stable_still n s : n <> O -> Z.land (regs s REG_STATUS_A) STATUS_A_UPDATE_IN_PROGRESS = 0 -> 0 <= regs s REG_STATUS_A < 256 ->
  exists s', stable_from n s = (s', Some (read_raw_snapshot s).2) /\ regs s' = regs s.
Proof.
  intros Hn R7 R8. destruct n as [|n]; [done|]. cbn [stable_from]. generalize MAX_ATTEMPTS as m. intros m.
  pose proof (wait_still m s R7 R8) as W1. set (s1 := wait_update m s) in *.
  destruct (snapshot_still s) as [_ V0]. destruct (snapshot_still s1) as [S1 V1]. destruct (read_raw_snapshot s1) as [s2 r2]. cbn [fst snd] in S1, V1.
  assert (regs (wait_update m s2) = regs s) as W2 by (rewrite wait_still by (by rewrite S1, W1); by rewrite S1, W1).
  set (s3 := wait_update m s2) in *. destruct (snapshot_still s3) as [S3 V3]. destruct (read_raw_snapshot s3) as [s4 r4]. cbn [fst snd] in S3, V3.
  assert (r2 = r4) as <- by (by rewrite V1, V3, W1, W2). rewrite bool_decide_true by done. exists s4. split; [|by rewrite S3].
  by rewrite V0, V1, W1.
Qed.

End Rtc.

(** ** Interval timer *)

Module Pit.
Import Bytes.

Definition PIT_CHANNEL_0_DATA : Z := 64.
Definition PIT_COMMAND : Z := 67.
Definition CMD_CHANNEL0_MODE2 : Z := 52.
Definition PIT_FREQUENCY_HZ : Z := 1193182.

Inductive PitError := ZeroFrequency | FrequencyTooLow.

Definition divisor_for_hz (hz : Z) : Z + PitError :=
  if hz =? 0 then inr ZeroFrequency else
  let divisor := PIT_FREQUENCY_HZ / hz in
  if divisor =? 0 then inr FrequencyTooLow else
  if 65536 <? divisor then inr FrequencyTooLow else
  inl divisor.

Definition divisor_to_wire (divisor : Z) : Z := if divisor =? 65536 then 0 else wrap 16 divisor.

Definition set_rate {IO} `{PortIo IO} (hz : Z) (s : IO) : IO * (unit + PitError) :=
  match divisor_for_hz hz with
  | inr e => (s, inr e)
  | inl divisor =>
      let wire := divisor_to_wire divisor in
      let l := Z.land wire 255 in
      let h := Z.shiftr wire 8 in
      (outb PIT_CHANNEL_0_DATA h (outb PIT_CHANNEL_0_DATA l (outb PIT_COMMAND CMD_CHANNEL0_MODE2 s)), inl ())
  end.

(** The floor of the timer lies between 18 and 19 Hz. *)
Lemma divisor_range hz : 0 < hz ->
  match divisor_for_hz hz with
  | inl d => 19 <= hz <= PIT_FREQUENCY_HZ /\ 1 <= d <= 62799 /\ d * hz <= PIT_FREQUENCY_HZ < (d + 1) * hz
  | inr e => e = FrequencyTooLow /\ (hz <= 18 \/ PIT_FREQUENCY_HZ < hz)
  end.
Proof.
  intros Hhz. unfold divisor_for_hz, PIT_FREQUENCY_HZ. rewrite (proj2 (Z.eqb_neq hz 0)) by lia.
  pose proof (Z.div_mod 1193182 hz ltac:(lia)) as Hdm. pose proof (Z.mod_pos_bound 1193182 hz Hhz) as Hm. set (d := 1193182 / hz) in *.
  assert (0 <= d) by (apply Z.div_pos; lia).
  destruct (Z.eqb_spec d 0); [split; [done|]; nia|]. destruct (Z.ltb_spec 65536 d); [split; [done|]; nia|]. split_and!; nia.
Qed.

Lemma wire_bytes d : 1 <= d <= 65535 -> divisor_to_wire d = d /\ Z.land d 255 = d mod 256 /\ Z.shiftr d 8 = d / 256 /\ 0 <= d / 256 < 256.
Proof.
  intros Hd. unfold divisor_to_wire, wrap. rewrite (proj2 (Z.eqb_neq d 65536)), Z.mod_small by (change (2 ^ 16) with 65536; lia).
  change 255 with (Z.ones 8). rewrite Z.land_ones, Z.shiftr_div_pow2 by lia. change (2 ^ 8) with 256. split_and!; try done; Z.to_euclidean_division_equations; lia.
Qed.

End Pit.
