(* ===== verification/EventQueue.v ===== *)
(** The lock-free queues between an interrupt handler and the system calls
    that read from it: [KeyboardBuffer] and [RawKeyBuffer] of
    [kernel/src/keyboard_buffer.rs] and [MouseEventBuffer] of
    [kernel/src/mouse.rs], which differ in their element and capacity only.

    [push], [pop] and [peek] are the code.  [step] is the same code cut at its
    atomic loads and stores, so that a handler may run between any two of
    them. *)

From Stdlib Require Import ZArith Lia.
From stdpp Require Import base list numbers relations.
From S2P Require Import Prelude Ring.

Module EventQueue.

Section queue.
Context {A : Type}.
Variable cap : nat.

Record Buffer := mkBuffer { buffer : list (option A); read : nat; write : nat }.

Definition new : Buffer := mkBuffer (replicate cap None) 0 0.

Definition push (q : Buffer) (c : A) : Buffer :=
  let next_write := ((write q + 1) mod cap)%nat in
  if negb (next_write =? read q)%nat then mkBuffer (<[write q := Some c]> (buffer q)) (read q) next_write else q.

Definition peek (q : Buffer) : bool := negb (read q =? write q)%nat.

Definition pop (q : Buffer) : Buffer * option A :=
  if (read q =? write q)%nat then (q, None)
  else (mkBuffer (buffer q) ((read q + 1) mod cap)%nat (write q), buffer q !!! read q).

(** ** The queue it represents *)

(** [len] elements wait, [l] of them in order. *)
Record holds (q : Buffer) (l : list A) : Prop := {
  h_size : length (buffer q) = cap;
  h_read : (read q < cap)%nat;
  h_write : write q = slot cap (read q) (length l);
  h_len : (length l < cap)%nat;
  h_elems : contents cap (buffer q) (read q) (length l) = Some <$> l;
}.

Lemma slot_0 r : (r < cap)%nat -> slot cap r 0 = r.
Proof. intros Hr. unfold slot. rewrite Nat.add_0_r. by apply Nat.mod_small. Qed.

(** The writer has caught up exactly when the queue is full, or empty. *)
Lemma full_iff q l : holds q l -> ((write q + 1) mod cap)%nat = read q <-> length l = (cap - 1)%nat.
Proof.
  intros [H1 H2 H3 H4 H5]. rewrite H3, slot_next. split.
  - intros He. destruct (decide (length l + 1 < cap)%nat) as [Hlt|]; [|lia].
    rewrite <- (slot_0 (read q) H2) in He at 2. apply slot_inj in He; lia.
  - intros ->. unfold slot. replace (read q + (cap - 1 + 1))%nat with (read q + 1 * cap)%nat by lia.
    rewrite Nat.Div0.mod_add. by apply Nat.mod_small.
Qed.

Lemma empty_iff q l : holds q l -> read q = write q <-> l = [].
Proof.
  intros [H1 H2 H3 H4 H5]. rewrite H3. split.
  - intros He. rewrite <- (slot_0 (read q) H2) in He at 1. apply slot_inj in He; [|lia|lia]. by destruct l.
  - intros ->. by rewrite slot_0.
Qed.

Lemma new_holds : (0 < cap)%nat -> holds new [].
Proof. intros Hc. split; cbn; [apply length_replicate|done|by rewrite slot_0|done|done]. Qed.

Lemma store_holds q l c : holds q l -> (length l + 1 < cap)%nat -> buffer q !!! write q = Some c ->
  holds (mkBuffer (buffer q) (read q) ((write q + 1) mod cap)%nat) (l ++ [c]).
Proof.
  intros [H1 H2 H3 H4 H5] Hroom Hc. split; cbn [buffer read write]; try done.
  - rewrite H3, slot_next. f_equal. rewrite length_app. cbn. lia.
  - rewrite length_app. cbn. lia.
  - rewrite length_app, fmap_app. cbn [length fmap list_fmap]. rewrite Nat.add_1_r, <- H5.
    rewrite <- (contents_push cap (buffer q) (read q) (length l) (Some c) H1 H4). f_equal.
    rewrite <- H3. symmetry. apply list_insert_id. rewrite <- Hc. apply list_lookup_lookup_total_lt. rewrite H1, H3. apply slot_lt. lia.
Qed.

(** Writing the slot past the end leaves the queue alone. *)
Lemma slot_holds q l c : holds q l -> holds (mkBuffer (<[write q := Some c]> (buffer q)) (read q) (write q)) l.
Proof.
  intros [H1 H2 H3 H4 H5]. split; cbn [buffer read write]; try done; [by rewrite length_insert|].
  rewrite <- H5. pose proof (contents_push cap (buffer q) (read q) (length l) (Some c) H1 H4) as Hp. rewrite <- H3 in Hp.
  rewrite <- (take_contents cap _ (read q) (S (length l)) (length l)) by lia. rewrite Hp.
  rewrite take_app_le by (rewrite length_contents; lia). apply take_ge. rewrite length_contents. lia.
Qed.

Lemma advance_holds q l c : holds q (c :: l) -> buffer q !!! read q = Some c /\ holds (mkBuffer (buffer q) ((read q + 1) mod cap)%nat (write q)) l.
Proof.
  intros [H1 H2 H3 H4 H5]. cbn [length] in *. rewrite contents_head in H5 by lia. rewrite slot_0 in H5 by done. cbn [fmap list_fmap] in H5.
  injection H5 as Hc H5. split; [done|]. split; cbn [buffer read write]; try done; try lia.
  - apply Nat.mod_upper_bound. lia.
  - rewrite H3. by rewrite slot_succ by lia.
  - rewrite <- H5. f_equal. lia.
Qed.

Lemma push_holds q l c : holds q l -> holds (push q c) (if (length l + 1 <? cap)%nat then l ++ [c] else l).
Proof.
  intros Hh. pose proof (full_iff q l Hh) as Hf. pose proof (h_len _ _ Hh). unfold push.
  destruct (Nat.eqb_spec ((write q + 1) mod cap) (read q)) as [He|He]; cbn [negb].
  - apply Hf in He. rewrite (proj2 (Nat.ltb_ge _ _)) by lia. done.
  - destruct (Nat.ltb_spec (length l + 1) cap) as [Hlt|Hge]; [|exfalso; apply He, Hf; lia].
    apply (store_holds (mkBuffer (<[write q := Some c]> (buffer q)) (read q) (write q))); [by apply slot_holds|done|].
    cbn [buffer write]. apply list_lookup_total_insert_eq. rewrite (h_size _ _ Hh), (h_write _ _ Hh). apply slot_lt. lia.
Qed.

Lemma pop_holds q l : holds q l ->
  match l with [] => pop q = (q, None) | c :: l' => (pop q).2 = Some c /\ holds (pop q).1 l' end.
Proof.
  intros Hh. pose proof (empty_iff q l Hh) as He. unfold pop. destruct (Nat.eqb_spec (read q) (write q)) as [Heq|Hne].
  - apply He in Heq. by subst l.
  - destruct l as [|c l]; [by destruct Hne; apply He|]. by apply advance_holds.
Qed.

(** ** Interleaved *)

Inductive producer := PIdle | PLoaded (c : A) (w : nat) | PRoom (c : A) (w : nat) | PStored (c : A) (w : nat).
Inductive consumer := CIdle | CLoaded (r : nat) | CSome (r : nat) | CTaken (r : nat) (v : option A).

(** The queue, where the two sides are, and what has been accepted and
    delivered so far. *)
Record state := mkState { q : Buffer; prod : producer; cons_ : consumer; accepted : list A; delivered : list (option A) }.

Definition init : state := mkState new PIdle CIdle [] [].

Inductive step : state -> state -> Prop :=
  | p_load b cn acc del c : step (mkState b PIdle cn acc del) (mkState b (PLoaded c (write b)) cn acc del)
  | p_full b cn acc del c w : ((w + 1) mod cap)%nat = read b ->
      step (mkState b (PLoaded c w) cn acc del) (mkState b PIdle cn acc del)
  | p_room b cn acc del c w : ((w + 1) mod cap)%nat <> read b ->
      step (mkState b (PLoaded c w) cn acc del) (mkState b (PRoom c w) cn acc del)
  | p_store b cn acc del c w :
      step (mkState b (PRoom c w) cn acc del) (mkState (mkBuffer (<[w := Some c]> (buffer b)) (read b) (write b)) (PStored c w) cn acc del)
  | p_publish b cn acc del c w :
      step (mkState b (PStored c w) cn acc del) (mkState (mkBuffer (buffer b) (read b) ((w + 1) mod cap)%nat) PIdle cn (acc ++ [c]) del)
  | c_load b p acc del : step (mkState b p CIdle acc del) (mkState b p (CLoaded (read b)) acc del)
  | c_empty b p acc del r : r = write b -> step (mkState b p (CLoaded r) acc del) (mkState b p CIdle acc del)
  | c_some b p acc del r : r <> write b -> step (mkState b p (CLoaded r) acc del) (mkState b p (CSome r) acc del)
  | c_take b p acc del r : step (mkState b p (CSome r) acc del) (mkState b p (CTaken r (buffer b !!! r)) acc del)
  | c_publish b p acc del r v :
      step (mkState b p (CTaken r v) acc del) (mkState (mkBuffer (buffer b) ((r + 1) mod cap)%nat (write b)) p CIdle acc (del ++ [v])).

(** What each side knows about the queue [l] at its place in the code. *)
Definition producer_ok (b : Buffer) (l : list A) (p : producer) : Prop :=
  match p with
  | PIdle => True
  | PLoaded c w => w = write b
  | PRoom c w => w = write b /\ (length l + 1 < cap)%nat
  | PStored c w => w = write b /\ (length l + 1 < cap)%nat /\ buffer b !!! w = Some c
  end.
Definition consumer_ok (b : Buffer) (l : list A) (cn : consumer) : Prop :=
  match cn with
  | CIdle => True
  | CLoaded r => r = read b
  | CSome r => r = read b /\ l <> []
  | CTaken r v => r = read b /\ l <> [] /\ v = buffer b !!! r
  end.

Definition inv (s : state) : Prop :=
  exists l, holds (q s) l /\ producer_ok (q s) l (prod s) /\ consumer_ok (q s) l (cons_ s) /\ Some <$> accepted s = delivered s ++ (Some <$> l).

Lemma write_lt b l : holds b l -> (write b < length (buffer b))%nat.
Proof. intros Hh. rewrite (h_size _ _ Hh), (h_write _ _ Hh). apply slot_lt. pose proof (h_len _ _ Hh). lia. Qed.

(** The slot being written is not the one being read. *)
Lemma write_ne_read b l : holds b l -> l <> [] -> write b <> read b.
Proof. intros Hh Hl He. apply Hl, (empty_iff b l Hh). done. Qed.

Lemma step_inv s s' : step s s' -> inv s -> inv s'.
Proof.
  intros Hs (l & Hh & Hp & Hc & Hacc). destruct Hs; cbn [q prod cons_ accepted delivered producer_ok consumer_ok] in *.
  - by exists l.
  - by exists l.
  - exists l. subst w. split_and!; try done. cbn. split; [done|]. pose proof (full_iff _ _ Hh) as Hf. pose proof (h_len _ _ Hh).
    destruct (decide (length l = cap - 1)%nat) as [He|]; [by apply Hf in He|lia].
  - destruct Hp as [-> Hroom]. exists l. pose proof (write_lt _ _ Hh) as Hlt. split_and!; [by apply slot_holds|cbn; split_and!; try done; by apply list_lookup_total_insert_eq| |done].
    destruct cn as [|r|r|r v]; cbn in *; try done. destruct Hc as (-> & Hl & ->). split_and!; try done. symmetry. apply list_lookup_total_insert_ne. by apply (write_ne_read _ l).
  - destruct Hp as (-> & Hroom & Hb). exists (l ++ [c]). split_and!; [by apply store_holds|done| |].
    + destruct cn as [|r|r|r v]; cbn in *; try done; destruct Hc as (-> & Hl); [split; [done|by destruct l]|destruct Hl; split_and!; [done|by destruct l|done]].
    + cbn [accepted delivered]. rewrite !fmap_app, Hacc. by rewrite app_assoc.
  - by exists l.
  - by exists l.
  - exists l. subst r. split_and!; try done. cbn. split; [done|]. intros ->. by rewrite (proj2 (empty_iff _ _ Hh) eq_refl) in H.
  - destruct Hc as [-> Hl]. by exists l.
  - destruct Hc as (-> & Hl & ->). destruct l as [|c l]; [done|]. destruct (advance_holds _ _ _ Hh) as [Hv Hh']. exists l. split_and!; [done| |done|].
    + destruct p as [|c' w|c' w|c' w]; cbn in *; try done; [destruct Hp; split; [done|lia]|destruct Hp as (? & ? & ?); split_and!; (done || lia)].
    + cbn [accepted delivered]. rewrite Hacc, Hv. by rewrite <- app_assoc.
Qed.

Lemma reachable_inv s : (0 < cap)%nat -> rtc step init s -> inv s.
Proof.
  intros Hcap. revert s. apply rtc_ind_r; [|intros; by eapply step_inv]. exists []. split_and!; try done. by apply new_holds.
Qed.

End queue.
Global Arguments Buffer : clear implicits.
End EventQueue.
