(* ===== verification/HalKeyboard.v ===== *)
(** The scancode decoder of the keyboard ([hal/src/keyboard.rs]): set 1
    scancodes to raw key events and characters. *)

From Stdlib Require Import ZArith Lia.
From stdpp Require Import base numbers list.
From S2P Require Import Prelude Bits Bytes.

Local Open Scope Z_scope.

Module Keyboard.
Import Bytes.

Record RawKey := mkRawKey { keycode : Z; pressed : bool }.

Definition MAX_CHARS : nat := 4.

(** [chars] is the array, [nchars] how much of it is in use. *)
Record KeyOutput := mkOut { raw : option RawKey; chars_ : list Z; nchars : nat }.

Definition empty : KeyOutput := mkOut None (replicate MAX_CHARS 0) 0.

(** [self.chars[self.nchars] = c]. *)
Definition push_char (o : KeyOutput) (c : Z) : may_panic KeyOutput :=
  if (nchars o <? MAX_CHARS)%nat then Ok (mkOut (raw o) (<[nchars o := c]> (chars_ o)) (S (nchars o))) else Panic.

Fixpoint push_chars (o : KeyOutput) (cs : list Z) : may_panic KeyOutput :=
  match cs with [] => Ok o | c :: cs' => o ← push_char o c; push_chars o cs' end.

Definition chars (o : KeyOutput) : list Z := take (nchars o) (chars_ o).

Record KeyDecoder := mkDec { shift : bool; ctrl : bool; caps : bool; ext : bool }.
Definition new : KeyDecoder := mkDec false false false false.

(** The table of [scancode_to_base_char]: scancode, unshifted and shifted
    character; a letter is shifted by [upper], a symbol by [shifted]. *)
Definition symbols : list (Z * (Z * Z)) :=
  [(2, (49, 33)); (3, (50, 64)); (4, (51, 35)); (5, (52, 36)); (6, (53, 37)); (7, (54, 94)); (8, (55, 38)); (9, (56, 42));
   (10, (57, 40)); (11, (48, 41)); (12, (45, 95)); (13, (61, 43));
   (14, (8, 8)); (15, (9, 9)); (28, (10, 10)); (1, (27, 27)); (57, (32, 32));
   (26, (91, 123)); (27, (93, 125)); (43, (92, 124)); (39, (59, 58)); (40, (39, 34)); (41, (96, 126));
   (51, (44, 60)); (52, (46, 62)); (53, (47, 63))].
Definition letters : list (Z * Z) :=
  [(16, 113); (17, 119); (18, 101); (19, 114); (20, 116); (21, 121); (22, 117); (23, 105); (24, 111); (25, 112);
   (30, 97); (31, 115); (32, 100); (33, 102); (34, 103); (35, 104); (36, 106); (37, 107); (38, 108);
   (44, 122); (45, 120); (46, 99); (47, 118); (48, 98); (49, 110); (50, 109)].

Fixpoint assoc {A} (k : Z) (l : list (Z * A)) : option A :=
  match l with [] => None | (k', v) :: l' => if k =? k' then Some v else assoc k l' end.

Definition scancode_to_base_char (sc : Z) (shifted upper : bool) : option Z :=
  match assoc sc symbols with
  | Some (plain, up) => Some (if shifted then up else plain)
  | None => (fun c => if upper then c - 32 else c) <$> assoc sc letters
  end.

Definition is_ascii_alphabetic (c : Z) : bool := ((65 <=? c) && (c <=? 90)) || ((97 <=? c) && (c <=? 122)).
Definition to_ascii_uppercase (c : Z) : Z := if (97 <=? c) && (c <=? 122) then c - 32 else c.

Definition scancode_to_char (sc : Z) (shifted caps ctrl : bool) : option Z :=
  let base := scancode_to_base_char sc shifted (xorb shifted caps) in
  match base with
  | Some c =>
      if ctrl then
        if is_ascii_alphabetic c then Some (to_ascii_uppercase c - 65 + 1)
        else if c =? 92 then Some 28
        else if c =? 91 then Some 27
        else if c =? 93 then Some 29
        else base
      else base
  | None => base
  end.

(** The escape sequences of the extended keys. *)
Definition ext_chars (scancode : Z) : list Z :=
  if scancode =? 72 then [27; 91; 65]
  else if scancode =? 80 then [27; 91; 66]
  else if scancode =? 77 then [27; 91; 67]
  else if scancode =? 75 then [27; 91; 68]
  else if scancode =? 71 then [27; 91; 72]
  else if scancode =? 79 then [27; 91; 70]
  else if scancode =? 73 then [27; 91; 53; 126]
  else if scancode =? 81 then [27; 91; 54; 126]
  else if scancode =? 83 then [127]
  else [].

Definition process (k : KeyDecoder) (scancode : Z) : may_panic (KeyDecoder * KeyOutput) :=
  if scancode =? 224 then Ok (mkDec (shift k) (ctrl k) (caps k) true, empty) else
  let e := ext k in
  let k := mkDec (shift k) (ctrl k) (caps k) false in
  let code := if e then Z.lor 128 (Z.land scancode 127) else Z.land scancode 127 in
  let out := mkOut (Some (mkRawKey code (scancode <? 128))) (chars_ empty) 0 in
  if 128 <=? scancode then
    let base := Z.land scancode 127 in
    if negb e && ((base =? 42) || (base =? 54)) then Ok (mkDec false (ctrl k) (caps k) false, out)
    else if base =? 29 then Ok (mkDec (shift k) false (caps k) false, out)
    else Ok (k, out)
  else if e then
    if scancode =? 29 then Ok (mkDec (shift k) true (caps k) false, out) else
    o ← push_chars out (ext_chars scancode);
    Ok (k, o)
  else if (scancode =? 42) || (scancode =? 54) then Ok (mkDec true (ctrl k) (caps k) false, out)
  else if scancode =? 29 then Ok (mkDec (shift k) true (caps k) false, out)
  else if scancode =? 58 then Ok (mkDec (shift k) (ctrl k) (negb (caps k)) false, out)
  else
    match scancode_to_char scancode (shift k) (caps k) (ctrl k) with
    | Some c => o ← push_char out c; Ok (k, o)
    | None => Ok (k, out)
    end.

(** A stream of bytes from the controller. *)
Fixpoint process_all (k : KeyDecoder) (bytes : list Z) : may_panic (KeyDecoder * list KeyOutput) :=
  match bytes with
  | [] => Ok (k, [])
  | b :: rest => r ← process k b; q ← process_all r.1 rest; Ok (q.1, r.2 :: q.2)
  end.

(** ** What it does *)

Lemma push_chars_ok o cs : (nchars o + length cs <= MAX_CHARS)%nat -> length (chars_ o) = MAX_CHARS ->
  exists o', push_chars o cs = Ok o' /\ raw o' = raw o /\ chars o' = chars o ++ cs /\ length (chars_ o') = MAX_CHARS /\ nchars o' = (nchars o + length cs)%nat.
Proof.
  revert o. induction cs as [|c cs IH]; intros o Hle Hlen; cbn [push_chars].
  { exists o. split_and!; try done; try (by rewrite app_nil_r); cbn; lia. }
  cbn [length] in Hle. unfold push_char. rewrite (proj2 (Nat.ltb_lt _ _)) by lia. cbn [mbind outcome_bind].
  destruct (IH (mkOut (raw o) (<[nchars o := c]> (chars_ o)) (S (nchars o)))) as (o' & E & R & C & L & N); cbn [raw nchars chars_] in *; [lia|by rewrite length_insert|].
  exists o'. split_and!; try done; try (cbn; lia). rewrite C. unfold chars. cbn [nchars chars_].
  rewrite (take_S_r _ _ c) by (apply list_lookup_insert_eq; lia). rewrite take_insert_ge by lia. by rewrite <- app_assoc.
Qed.

Lemma out_chars cs r : (length cs <= MAX_CHARS)%nat -> exists o, push_chars (mkOut r (chars_ empty) 0) cs = Ok o /\ raw o = r /\ chars o = cs.
Proof. intros Hl. destruct (push_chars_ok (mkOut r (chars_ empty) 0) cs) as (o & E & R & C & _); [cbn; lia|done|]. exists o. by split_and!. Qed.

Lemma push_one o c : push_char o c = push_chars o [c].
Proof. cbn [push_chars]. by destruct (push_char o c) as [|[]|]. Qed.

(** The modifier and the characters of one byte, without the array. *)
Definition typed (k : KeyDecoder) (sc : Z) : list Z :=
  if (sc =? 224) || (128 <=? sc) then []
  else if ext k then (if sc =? 29 then [] else ext_chars sc)
  else if (sc =? 42) || (sc =? 54) || (sc =? 29) || (sc =? 58) then []
  else match scancode_to_char sc (shift k) (caps k) (ctrl k) with Some c => [c] | None => [] end.

Definition is_shift (e : bool) (sc : Z) : bool := negb e && ((Z.land sc 127 =? 42) || (Z.land sc 127 =? 54)).
Definition is_ctrl (sc : Z) : bool := Z.land sc 127 =? 29.

Definition next (k : KeyDecoder) (sc : Z) : KeyDecoder :=
  if sc =? 224 then mkDec (shift k) (ctrl k) (caps k) true else
  mkDec (if is_shift (ext k) sc then (sc <? 128) else shift k)
        (if is_ctrl sc then (sc <? 128) else ctrl k)
        (if negb (ext k) && (sc =? 58) then negb (caps k) else caps k) false.

Lemma ext_chars_len sc : (length (ext_chars sc) <= MAX_CHARS)%nat.
Proof. unfold ext_chars, MAX_CHARS. repeat case_match; cbn; lia. Qed.

Lemma land_low sc : 0 <= sc < 128 -> Z.land sc 127 = sc.
Proof. intros Hs. change 127 with (Z.ones 7). rewrite Z.land_ones by lia. by apply Z.mod_small. Qed.

Lemma process_ok k sc : 0 <= sc < 256 ->
  exists o, process k sc = Ok (next k sc, o) /\ chars o = typed k sc /\
    raw o = (if sc =? 224 then None else Some (mkRawKey (if ext k then Z.lor 128 (Z.land sc 127) else Z.land sc 127) (sc <? 128))).
Proof.
  intros Hs. unfold process, next, typed, is_shift, is_ctrl. destruct (Z.eqb_spec sc 224) as [->|Hne]; [by eexists|]. cbn [orb].
  destruct (Z.leb_spec 128 sc) as [Hrel|Hpress].
  - rewrite (proj2 (Z.ltb_ge sc 128)) by lia. rewrite (proj2 (Z.eqb_neq sc 58)), andb_false_r by lia. destruct (ext k); cbn [negb andb].
    + destruct (Z.eqb_spec (Z.land sc 127) 29); eexists; split_and!; done.
    + destruct (Z.eqb_spec (Z.land sc 127) 42) as [H42|]; [rewrite H42; eexists; split_and!; done|].
      destruct (Z.eqb_spec (Z.land sc 127) 54) as [H54|]; [rewrite H54; eexists; split_and!; done|]. cbn [orb].
      destruct (Z.eqb_spec (Z.land sc 127) 29); eexists; split_and!; done.
  - rewrite (proj2 (Z.ltb_lt sc 128)) by lia. rewrite land_low by lia. destruct (ext k); cbn [negb andb].
    + destruct (Z.eqb_spec sc 29); [eexists; split_and!; done|].
      destruct (out_chars (ext_chars sc) (Some (mkRawKey (Z.lor 128 sc) true)) (ext_chars_len sc)) as (o & -> & R & C). exists o. split_and!; done.
    + destruct (Z.eqb_spec sc 42) as [->|]; [eexists; split_and!; done|]. destruct (Z.eqb_spec sc 54) as [->|]; [eexists; split_and!; done|].
      destruct (Z.eqb_spec sc 29) as [->|]; [eexists; split_and!; done|]. destruct (Z.eqb_spec sc 58) as [->|]; [eexists; split_and!; done|]. cbn [orb shift caps ctrl].
      destruct (scancode_to_char sc (shift k) (caps k) (ctrl k)) as [c|]; [|eexists; split_and!; done].
      rewrite push_one. destruct (out_chars [c] (Some (mkRawKey sc true))) as (o & -> & R & C); [unfold MAX_CHARS; cbn; lia|]. exists o. split_and!; done.
Qed.

(** Streams. *)
Fixpoint typed_all (k : KeyDecoder) (l : list Z) : list Z :=
  match l with [] => [] | b :: l' => typed k b ++ typed_all (next k b) l' end.

Lemma process_all_ok l : forall k, Forall (fun b => 0 <= b < 256) l ->
  exists outs, process_all k l = Ok (foldl next k l, outs) /\ (outs ≫= chars) = typed_all k l /\ Forall (fun o => (length (chars o) <= MAX_CHARS)%nat) outs.
Proof.
  induction l as [|b l IH]; intros k Hl; cbn [process_all foldl typed_all]; [by exists []|]. apply Forall_cons in Hl as [Hb Hl].
  destruct (process_ok k b Hb) as (o & -> & C & _). cbn [mbind outcome_bind fst]. destruct (IH (next k b) Hl) as (outs & -> & Co & Ho).
  cbn [mbind outcome_bind fst snd]. exists (o :: outs). split_and!; [done|cbn; by rewrite C, Co|]. constructor; [|done].
  rewrite C. unfold typed, MAX_CHARS. repeat case_match; cbn; try lia; apply ext_chars_len.
Qed.

End Keyboard.
