(* ===== verification/HalMouse.v ===== *)
(** The mouse: its packet decoder and the set-up of the 8042 controller
    ([hal/src/mouse.rs]), and the interrupt handler that queues its events
    ([kernel/src/mouse.rs]). *)

From Stdlib Require Import ZArith Lia.
From stdpp Require Import base numbers list.
From S2P Require Import Prelude Bits Bytes HalClock EventQueue.

Local Open Scope Z_scope.

Module Mouse.
Import Bytes.

Record MouseEvent := mkEvent { dx : Z; dy : Z; buttons : Z }.

Record PacketDecoder := mkPacket { bytes_ : list Z; index : nat }.
Definition new : PacketDecoder := mkPacket [0; 0; 0] 0.

(** The sign bits extend the deltas to nine bits. *)
Definition decode (b0 b1 b2 : Z) : option MouseEvent :=
  if negb (Z.land b0 192 =? 0) then None else
  let x := if negb (Z.land b0 16 =? 0) then b1 - 256 else b1 in
  let y := if negb (Z.land b0 32 =? 0) then b2 - 256 else b2 in
  Some (mkEvent x y (Z.land b0 7)).

Definition push_byte (p : PacketDecoder) (byte : Z) : may_panic (PacketDecoder * option MouseEvent) :=
  if (index p =? 0)%nat && (Z.land byte 8 =? 0) then Ok (p, None) else
  if (2 <? index p)%nat then Panic else
  let bs := <[index p := byte]> (bytes_ p) in
  if (index p <? 2)%nat then Ok (mkPacket bs (S (index p)), None) else
  Ok (mkPacket bs 0, decode (bs !!! 0%nat) (bs !!! 1%nat) (bs !!! 2%nat)).

Fixpoint push_bytes (p : PacketDecoder) (l : list Z) : may_panic (PacketDecoder * list MouseEvent) :=
  match l with
  | [] => Ok (p, [])
  | b :: l' => r ← push_byte p b; q ← push_bytes r.1 l'; Ok (q.1, (match r.2 with Some e => [e] | None => [] end) ++ q.2)
  end.

(** *** The 8042 set-up *)

Definition DATA_PORT : Z := 96.
Definition STATUS_CMD_PORT : Z := 100.
Definition STATUS_OUTPUT_FULL : Z := Z.shiftl 1 0.
Definition STATUS_INPUT_FULL : Z := Z.shiftl 1 1.
Definition TIMEOUT_POLLS : nat := Z.to_nat 100000.

Inductive MouseInitError := AuxEnableTimeout | ReportingNotAcked.

Section setup.
Context {IO : Type} `{PortIo IO}.

Fixpoint wait_write (max : nat) (s : IO) : IO * bool :=
  match max with
  | O => (s, false)
  | S max' => let '(s, v) := inb STATUS_CMD_PORT s in if Z.land v STATUS_INPUT_FULL =? 0 then (s, true) else wait_write max' s
  end.

Fixpoint wait_read (max : nat) (s : IO) : IO * bool :=
  match max with
  | O => (s, false)
  | S max' => let '(s, v) := inb STATUS_CMD_PORT s in if negb (Z.land v STATUS_OUTPUT_FULL =? 0) then (s, true) else wait_read max' s
  end.

Definition write_port (port v : Z) (s : IO) : IO * bool :=
  let '(s, ready) := wait_write TIMEOUT_POLLS s in
  if ready : bool then (outb port v s, true) else (s, false).
Definition write_command (cmd : Z) (s : IO) : IO * bool := write_port STATUS_CMD_PORT cmd s.
Definition write_data (data : Z) (s : IO) : IO * bool := write_port DATA_PORT data s.

Definition read_data (s : IO) : IO * option Z :=
  let '(s, ready) := wait_read TIMEOUT_POLLS s in
  if ready : bool then let '(s, v) := inb DATA_PORT s in (s, Some v) else (s, None).

Definition mouse_write (data : Z) (s : IO) : IO * bool :=
  let '(s, ok) := write_command 212 s in if ok : bool then write_data data s else (s, false).

Definition enable_aux (s : IO) : IO * (unit + MouseInitError) :=
  let '(s, ok) := write_command 168 s in
  if negb ok then (s, inr AuxEnableTimeout) else
  let '(s, ok) := write_command 32 s in
  if negb ok then (s, inr AuxEnableTimeout) else
  let '(s, config) := read_data s in
  match config with
  | None => (s, inr AuxEnableTimeout)
  | Some config =>
      let config := Z.land (Z.lor config 2) (Z.lxor 255 32) in
      let '(s, ok) := write_command 96 s in
      if negb ok then (s, inr AuxEnableTimeout) else
      let '(s, ok) := write_data config s in
      if negb ok then (s, inr AuxEnableTimeout) else
      let '(s, ok) := mouse_write 246 s in
      if negb ok then (s, inr AuxEnableTimeout) else
      let '(s, _) := read_data s in
      let '(s, ok) := mouse_write 244 s in
      if negb ok then (s, inr AuxEnableTimeout) else
      let '(s, ack) := read_data s in
      (s, if bool_decide (ack = Some 250) then inl () else inr ReportingNotAcked)
  end.

End setup.

(** *** The interrupt handler *)

Definition CAPACITY : nat := 64.

(** [process_byte] of the interrupt handler. *)
Definition process_byte (p : PacketDecoder) (q : EventQueue.Buffer MouseEvent) (byte : Z) : may_panic (PacketDecoder * EventQueue.Buffer MouseEvent) :=
  r ← push_byte p byte;
  Ok (r.1, match r.2 with Some ev => EventQueue.push CAPACITY q ev | None => q end).

(** ** What it does *)

(** A decoder between bytes. *)
Definition packet_ok (p : PacketDecoder) : Prop := length (bytes_ p) = 3%nat /\ (index p <= 2)%nat.

Definition event_ok (e : MouseEvent) : Prop := -256 <= dx e <= 255 /\ -256 <= dy e <= 255 /\ 0 <= buttons e < 8.

(** The packet a mouse sends for a movement. *)
Definition encode (e : MouseEvent) : list Z :=
  [8 + buttons e + (if dx e <? 0 then 16 else 0) + (if dy e <? 0 then 32 else 0); dx e mod 256; dy e mod 256].

Lemma decode_range b0 b1 b2 e : 0 <= b0 < 256 -> 0 <= b1 < 256 -> 0 <= b2 < 256 -> decode b0 b1 b2 = Some e -> event_ok e.
Proof.
  intros H0 H1 H2. unfold decode. case_match; [done|]. intros [= <-]. unfold event_ok. cbn [dx dy buttons].
  change 7 with (Z.ones 3) at 1 2. rewrite Z.land_ones by lia. pose proof (Z.mod_pos_bound b0 (2 ^ 3) ltac:(lia)). change (2 ^ 3) with 8 in *.
  repeat case_match; lia.
Qed.

Lemma push_byte_ok p b : packet_ok p -> Forall (fun x => 0 <= x < 256) (bytes_ p) -> 0 <= b < 256 ->
  exists p' r, push_byte p b = Ok (p', r) /\ packet_ok p' /\ Forall (fun x => 0 <= x < 256) (bytes_ p') /\ match r with Some e => event_ok e | None => True end.
Proof.
  intros [Hl Hi] Hb Hbyte. unfold push_byte. destruct (_ && _); [by exists p, None|]. rewrite (proj2 (Nat.ltb_ge 2 (index p))) by lia.
  assert (Forall (fun x => 0 <= x < 256) (<[index p := b]> (bytes_ p))) as Hb' by (by apply Forall_insert).
  destruct (Nat.ltb_spec (index p) 2); eexists _, _; (split; [done|]); unfold packet_ok; cbn [bytes_ index]; rewrite length_insert; (split; [lia|]); (split; [done|]); [done|].
  destruct (decode _ _ _) as [e|] eqn:Hd; [|done].
  assert (forall i, (i < 3)%nat -> 0 <= <[index p := b]> (bytes_ p) !!! i < 256) as Hget.
  { intros i Hi3. destruct (lookup_lt_is_Some_2 (<[index p := b]> (bytes_ p)) i) as [x Hx]; [rewrite length_insert; lia|].
    rewrite (list_lookup_total_correct _ _ _ Hx). by apply (Forall_lookup_1 _ _ i x Hb'). }
  apply (decode_range _ _ _ _ (Hget 0%nat ltac:(lia)) (Hget 1%nat ltac:(lia)) (Hget 2%nat ltac:(lia)) Hd).
Qed.

Lemma push_bytes_app p l l' : push_bytes p (l ++ l') = (r ← push_bytes p l; q ← push_bytes r.1 l'; Ok (q.1, r.2 ++ q.2)).
Proof.
  revert p. induction l as [|b l IH]; intros p; cbn [app push_bytes].
  { cbn [mbind outcome_bind fst snd]. by destruct (push_bytes p l') as [[q e]|[]|]. }
  destruct (push_byte p b) as [[p1 r]|[]|]; cbn [mbind outcome_bind fst snd]; [|done]. rewrite IH.
  destruct (push_bytes p1 l) as [[p2 e]|[]|]; cbn [mbind outcome_bind fst snd]; [|done].
  destruct (push_bytes p2 l') as [[p3 e']|[]|]; cbn [mbind outcome_bind fst snd]; [|done]. by rewrite app_assoc.
Qed.

Lemma push_bytes_ok l : Forall (fun x => 0 <= x < 256) l -> forall p, packet_ok p -> Forall (fun x => 0 <= x < 256) (bytes_ p) ->
  exists p' out, push_bytes p l = Ok (p', out) /\ Forall event_ok out.
Proof.
  induction 1 as [|b l Hb Hl IH]; intros p Hp Hx; cbn [push_bytes]; [by eexists _, _|].
  destruct (push_byte_ok p b Hp Hx Hb) as (p1 & r & -> & Hp1 & Hx1 & Hr). cbn [mbind outcome_bind fst snd].
  destruct (IH p1 Hp1 Hx1) as (p2 & out & -> & Ho). cbn [mbind outcome_bind fst snd]. eexists _, _. split; [done|]. destruct r; [by constructor|done].
Qed.

(** Nine bits of two's complement come back from a byte and a sign bit. *)
Lemma encode_decode e : event_ok e -> 
  match encode e with [b0; b1; b2] => 0 <= b0 < 64 /\ Z.land b0 8 = 8 /\ decode b0 b1 b2 = Some e | _ => False end.
Proof.
  destruct e as [x y b]. intros (Hx & Hy & Hb). cbn [dx dy buttons] in *. unfold encode. cbn [dx dy buttons].
  assert (Forall (fun b => Forall (fun sx : bool => Forall (fun sy : bool => let b0 := 8 + b + (if sx then 16 else 0) + (if sy then 32 else 0) in
    (0 <= b0 < 64) /\ Z.land b0 8 = 8 /\ Z.land b0 192 = 0 /\ Z.land b0 7 = b /\ Z.land b0 16 = (if sx then 16 else 0) /\ Z.land b0 32 = (if sy then 32 else 0))
    [true; false]) [true; false]) (seqZ 0 8)) as Hall by (repeat constructor; vm_compute; done).
  assert (b ∈ seqZ 0 8) as Hin by (apply elem_of_seqZ; lia). apply (proj1 (Forall_forall _ _) Hall) in Hin.
  pose proof (proj1 (Forall_forall _ _) (proj1 (Forall_forall _ _) Hin (x <? 0) ltac:(destruct (x <? 0); repeat constructor)) (y <? 0) ltac:(destruct (y <? 0); repeat constructor)) as Hbits.
  cbv beta zeta in Hbits. set (b0 := 8 + b + (if x <? 0 then 16 else 0) + (if y <? 0 then 32 else 0)) in *. destruct Hbits as (B0 & B1 & B2 & B3 & B4 & B5). split_and!; [lia|lia|done|].
  unfold decode. rewrite B2, B3, B4, B5. cbn [negb Z.eqb]. f_equal.
  destruct (Z.ltb_spec x 0), (Z.ltb_spec y 0); cbn [negb Z.eqb]; f_equal; Z.to_euclidean_division_equations; lia.
Qed.

Lemma packet_push p e : packet_ok p -> index p = 0%nat -> event_ok e ->
  exists p', push_bytes p (encode e) = Ok (p', [e]) /\ packet_ok p' /\ index p' = 0%nat.
Proof.
  intros [Hl _] Hi He. pose proof (encode_decode e He) as Hd. destruct (encode e) as [|b0 [|b1 [|b2 [|]]]]; try done. destruct Hd as (_ & H8 & Hd).
  destruct p as [bs i]. cbn in Hl, Hi. subst i. destruct bs as [|x0 [|x1 [|x2 [|]]]]; try done.
  assert (push_byte (mkPacket [x0; x1; x2] 0) b0 = Ok (mkPacket [b0; x1; x2] 1, None)) as E0 by (unfold push_byte; cbn [index bytes_]; by rewrite H8).
  cbn [push_bytes]. rewrite E0. cbn. rewrite Hd. cbn.
  eexists. split; [done|]. split; [split; cbn; lia|done].
Qed.

End Mouse.
