(* ===== verification/HalTty.v ===== *)
(** The terminal: the characters that raise signals ([kernel/src/tty.rs]) and
    the keyboard's interrupt handler around the decoder
    ([kernel/src/keyboard.rs]). *)

From Stdlib Require Import ZArith Lia.
From stdpp Require Import base numbers list.
From S2P Require Import Prelude Bytes EventQueue HalKeyboard.

Local Open Scope Z_scope.

Module Tty.
Import Bytes.

Definition NCCS : nat := 11.
Definition VEOF : nat := 0.
Definition VEOL : nat := 1.
Definition VERASE : nat := 2.
Definition VINTR : nat := 3.
Definition VKILL : nat := 4.
Definition VMIN : nat := 5.
Definition VQUIT : nat := 6.
Definition VSTART : nat := 7.
Definition VSTOP : nat := 8.
Definition VSUSP : nat := 9.
Definition VTIME : nat := 10.
Definition ISIG : Z := 64.

Record Termios := mkTermios { c_iflag : Z; c_oflag : Z; c_cflag : Z; c_lflag : Z; c_cc : list Z; ibaud : Z; obaud : Z }.

Definition default_termios : Termios :=
  let cc := <[VSUSP := 26]> (<[VSTOP := 19]> (<[VSTART := 17]> (<[VQUIT := 28]> (<[VMIN := 1]> (<[VKILL := 21]> (<[VINTR := 3]>
    (<[VERASE := 127]> (<[VEOF := 4]> (replicate NCCS 0))))))))) in
  mkTermios 1026 3 11 119 cc 0 0.

(** [feed_input]: whether the character goes to the buffer, and the signal to
    send to which process group. *)
Definition feed_input (t : Termios) (foreground_pgid c : Z) : bool * option (Z * Z) :=
  if Z.land (c_lflag t) ISIG =? 0 then (true, None) else
  let sig := if c =? c_cc t !!! VINTR then Some 2
             else if c =? c_cc t !!! VQUIT then Some 3
             else if c =? c_cc t !!! VSUSP then Some 20
             else None in
  match sig with
  | None => (true, None)
  | Some sig => (false, if foreground_pgid =? 0 then None else Some (foreground_pgid, sig))
  end.

End Tty.

(** The keyboard's interrupt handler ([kernel/src/keyboard.rs]): the raw event
    and the characters go to their queues, signals are what is left to send. *)
Module Console.
Import Keyboard.

Definition CAPACITY : nat := 1024.
Definition RAW_CAPACITY : nat := 256.

Record console := mkConsole {
  decoder : KeyDecoder;
  KEYBOARD_BUFFER : EventQueue.Buffer Z;
  RAW_KEY_EVENTS : EventQueue.Buffer RawKey;
}.

(** [push]. *)
Definition push_char (t : Tty.Termios) (pgid c : Z) (q : EventQueue.Buffer Z) : EventQueue.Buffer Z * list (Z * Z) :=
  let '(keep, sig) := Tty.feed_input t pgid c in
  (if keep : bool then EventQueue.push CAPACITY q c else q, match sig with Some s => [s] | None => [] end).

Fixpoint push_all (t : Tty.Termios) (pgid : Z) (cs : list Z) (q : EventQueue.Buffer Z) : EventQueue.Buffer Z * list (Z * Z) :=
  match cs with
  | [] => (q, [])
  | c :: cs' => let '(q, s1) := push_char t pgid c q in let '(q, s2) := push_all t pgid cs' q in (q, s1 ++ s2)
  end.

Definition process_scancode (t : Tty.Termios) (pgid : Z) (k : console) (scancode : Z) : may_panic (console * list (Z * Z)) :=
  r ← process (decoder k) scancode;
  let raws := match raw r.2 with Some e => EventQueue.push RAW_CAPACITY (RAW_KEY_EVENTS k) e | None => RAW_KEY_EVENTS k end in
  let '(q, sigs) := push_all t pgid (chars r.2) (KEYBOARD_BUFFER k) in
  Ok (mkConsole r.1 q raws, sigs).

Definition read_key (k : console) : console * option Z :=
  let '(q, c) := EventQueue.pop CAPACITY (KEYBOARD_BUFFER k) in (mkConsole (decoder k) q (RAW_KEY_EVENTS k), c).
Definition read_key_peek (k : console) : bool := EventQueue.peek (KEYBOARD_BUFFER k).
Definition read_raw_event (k : console) : console * option RawKey :=
  let '(q, e) := EventQueue.pop RAW_CAPACITY (RAW_KEY_EVENTS k) in (mkConsole (decoder k) (KEYBOARD_BUFFER k) q, e).

(** One interrupt after the other. *)
Fixpoint scancodes (t : Tty.Termios) (pgid : Z) (k : console) (l : list Z) : may_panic (console * list (Z * Z)) :=
  match l with
  | [] => Ok (k, [])
  | sc :: l' => r ← process_scancode t pgid k sc; q ← scancodes t pgid r.1 l'; Ok (q.1, r.2 ++ q.2)
  end.

(** ** What reaches the queue *)

(** The characters that are not signals, and the signals. *)
Definition text (t : Tty.Termios) (cs : list Z) : list Z := filter (fun c => (Tty.feed_input t 0 c).1 = true) cs.
Definition signals (t : Tty.Termios) (pgid : Z) (cs : list Z) : list (Z * Z) := omap (fun c => (Tty.feed_input t pgid c).2) cs.

Lemma feed_keep t pgid c : (Tty.feed_input t pgid c).1 = (Tty.feed_input t 0 c).1.
Proof. unfold Tty.feed_input. by repeat case_match. Qed.

Lemma push_take {A} (cap : nat) q (l : list A) c l' : EventQueue.holds cap q l ->
  exists l1, EventQueue.holds cap (EventQueue.push cap q c) l1 /\ l ++ take (cap - 1 - length l) (c :: l') = l1 ++ take (cap - 1 - length l1) l'.
Proof.
  intros Hh. pose proof (EventQueue.push_holds cap q l c Hh) as Hp. pose proof (EventQueue.h_len _ _ _ Hh). eexists. split; [exact Hp|].
  destruct (Nat.ltb_spec (length l + 1) cap).
  - rewrite length_app. cbn [length]. replace (cap - 1 - length l)%nat with (S (cap - 1 - (length l + 1))) by lia. cbn [take]. by rewrite <- app_assoc.
  - by replace (cap - 1 - length l)%nat with 0%nat by lia.
Qed.

Lemma push_all_holds t pgid cs : forall q l, EventQueue.holds CAPACITY q l ->
  EventQueue.holds CAPACITY (push_all t pgid cs q).1 (l ++ take (CAPACITY - 1 - length l) (text t cs)) /\ (push_all t pgid cs q).2 = signals t pgid cs.
Proof.
  induction cs as [|c cs IH]; intros q l Hh; [by change (text t []) with (@nil Z); rewrite take_nil, app_nil_r|]. cbn [push_all]. unfold push_char, signals, text.
  cbn [omap list_omap]. pose proof (feed_keep t pgid c) as Hk. destruct (Tty.feed_input t pgid c) as [keep sig] eqn:Ef. cbn [fst snd] in Hk.
  assert (forall l1 q1, EventQueue.holds CAPACITY q1 l1 -> let '(q2, s2) := push_all t pgid cs q1 in
    EventQueue.holds CAPACITY q2 (l1 ++ take (CAPACITY - 1 - length l1) (text t cs)) /\ s2 = signals t pgid cs) as Hn.
  { intros l1 q1 H1. specialize (IH q1 l1 H1). by destruct (push_all t pgid cs q1). }
  destruct keep; cbn [fst snd].
  - rewrite filter_cons_True by done. destruct (push_take CAPACITY q l c (text t cs) Hh) as (l1 & H1 & E1). specialize (Hn _ _ H1).
    destruct (push_all t pgid cs _) as [q2 s2]. destruct Hn as [Hq Hs]. cbn [fst snd]. split; [by fold (text t cs); rewrite E1|]. rewrite Hs. by destruct sig.
  - rewrite filter_cons_False by congruence. specialize (Hn _ _ Hh). destruct (push_all t pgid cs q) as [q2 s2]. destruct Hn as [Hq Hs].
    cbn [fst snd]. split; [done|]. rewrite Hs. by destruct sig.
Qed.

Lemma text_app t cs1 cs2 : text t (cs1 ++ cs2) = text t cs1 ++ text t cs2.
Proof. apply filter_app. Qed.

Lemma take_twice {A} (n : nat) (l a b : list A) : (length l <= n)%nat ->
  (l ++ take (n - length l) a) ++ take (n - length (l ++ take (n - length l) a)) b = l ++ take (n - length l) (a ++ b).
Proof.
  intros Hl. rewrite <- app_assoc. f_equal. rewrite take_app, length_app, length_take. do 2 f_equal. lia.
Qed.

Lemma scancodes_ok t pgid : forall l k q, Forall (fun b => 0 <= b < 256) l -> EventQueue.holds CAPACITY (KEYBOARD_BUFFER k) q ->
  exists k', scancodes t pgid k l = Ok (k', signals t pgid (typed_all (decoder k) l)) /\ decoder k' = foldl next (decoder k) l /\
    EventQueue.holds CAPACITY (KEYBOARD_BUFFER k') (q ++ take (CAPACITY - 1 - length q) (text t (typed_all (decoder k) l))).
Proof.
  induction l as [|b l IH]; intros k q Hl Hq; cbn [scancodes typed_all foldl].
  { exists k. split_and!; [done..|]. change (text t []) with (@nil Z). by rewrite take_nil, app_nil_r. }
  apply Forall_cons in Hl as [Hb Hl]. unfold process_scancode. destruct (process_ok (decoder k) b Hb) as (o & -> & C & _). cbn [mbind outcome_bind fst snd].
  rewrite C. destruct (push_all_holds t pgid (typed (decoder k) b) _ _ Hq) as [H1 S1]. destruct (push_all t pgid _ _) as [q1 s1]. cbn [fst snd] in H1, S1.
  cbn [mbind outcome_bind fst snd]. generalize (match raw o with Some e => EventQueue.push RAW_CAPACITY (RAW_KEY_EVENTS k) e | None => RAW_KEY_EVENTS k end) as raws. intros raws.
  destruct (IH (mkConsole (next (decoder k) b) q1 raws) _ Hl H1) as (k' & -> & D & H2). cbn [decoder] in D, H2. cbn [mbind outcome_bind fst snd].
  exists k'. split_and!; [by rewrite S1; unfold signals; rewrite omap_app|done|]. rewrite take_twice in H2 by (pose proof (EventQueue.h_len _ _ _ Hq); lia).
  by rewrite text_app.
Qed.

End Console.
