(* ===== verification/HalProps.v ===== *)
(** Properties of the device drivers of the [hal] crate and of the queues that
    carry their events. *)

From Stdlib Require Import ZArith Lia.
From stdpp Require Import base numbers list relations.
From S2P Require Import Prelude Bytes HalClock EventQueue HalKeyboard HalMouse HalTty.

Local Open Scope Z_scope.

Module HalProps.

(** ** Clocks *)

Section clock.
Import Rtc.

(** [days_from_civil] is the number of days from 1 January 1970: counting
    that many days on the calendar (leap years by the rule of 4, 100 and 400)
    from there gives the date back, and the next day is one more, before 1970
    too. *)
Theorem days_from_civil_spec c : valid_date c ->
  days_from_civil (d_year (next_day c)) (d_month (next_day c)) (d_day (next_day c)) = days_from_civil (d_year c) (d_month c) (d_day c) + 1 /\
  (1970 <= d_year c -> 0 <= days_from_civil (d_year c) (d_month c) (d_day c) /\
    Nat.iter (Z.to_nat (days_from_civil (d_year c) (d_month c) (d_day c))) next_day epoch = c).
Proof.
  intros Hc. split; [by apply (next_day_counts c)|]. intros Hy. fold (days_of c). destruct (comes_all c Hc Hy) as [n Hn].
  destruct (iter_days n) as [_ Hd]. rewrite Hn in Hd. rewrite Hd, Nat2Z.id. split; [lia|done].
Qed.

Lemma days_from_civil_spec_witness :
  Nat.iter (Z.to_nat (days_from_civil 1972 2 29)) next_day epoch = mkDate 1972 2 29 /\ days_from_civil 1972 3 1 = days_from_civil 1972 2 29 + 1.
Proof.
  destruct (days_from_civil_spec (mkDate 1972 2 29)) as [H1 H2]; [split; vm_compute; split; discriminate|].
  split; [apply H2; vm_compute; discriminate|exact H1].
Defined.

(** A clock that stands at a time of the years 2000 to 2099 is read as that
    time, in seconds since 1970, whether it stores its digits in binary or BCD
    and its hour in the 24-hour or the 12-hour form. *)
Theorem rtc_roundtrip s c h mi se binary h24 : shows s c h mi se binary h24 ->
  valid_date c -> 2000 <= d_year c < 2100 -> 0 <= h < 24 -> 0 <= mi < 60 -> 0 <= se < 60 ->
  exists s', read_unix_time s = Ok (s', Some (days_of c * 86400 + (h * 3600 + mi * 60 + se))) /\ regs s' = regs s.
Proof.
  intros (R1 & R2 & R3 & R4 & R5 & R6 & R7 & R8 & R9 & R10) Hc Hy Hh Hmi Hse. pose proof Hc as [Hm Hd].
  assert (month_len (d_year c) (d_month c) <= 31) as Hlen by (unfold month_len; repeat case_match; lia).
  unfold read_unix_time, read_stable_snapshot. destruct (stable_still MAX_ATTEMPTS s) as (s4 & -> & S4); [discriminate|done..|].
  rewrite cmos_reg. rewrite S4, (Z.mod_small (regs s REG_STATUS_B)) by done.
  destruct (snapshot_still s) as [_ ->]. rewrite R1, R2, R3, R4, R5, R6. rewrite !(Z.mod_small (encode _ _)) by (apply encode_byte; lia).
  rewrite (Z.mod_small (encode_hour _ _ _)) by (by apply encode_hour_byte). rewrite (unix_time_ok c h mi se binary h24) by done. cbn [mbind outcome_bind].
  eexists. split; [done|]. done.
Qed.

Definition leap_day : Cmos :=
  mkCmos 0 (fun r => if r =? 0 then 88 else if r =? 2 then 89 else if r =? 4 then 145 else if r =? 7 then 41 else if r =? 8 then 2 else if r =? 9 then 36 else 0).

(** 29 February 2024, 11:59:58 pm, in BCD. *)
Lemma rtc_roundtrip_witness : exists s', read_unix_time leap_day = Ok (s', Some 1709251198).
Proof.
  destruct (rtc_roundtrip leap_day (mkDate 2024 2 29) 23 59 58 false false) as (s' & E & _);
    [repeat split; vm_compute; (reflexivity || discriminate)|split; vm_compute; split; discriminate|cbn; lia|lia|lia|lia|].
  exists s'. exact E.
Defined.

(** Whatever the clock's registers hold and however they change while they
    are read, [read_unix_time] ends without a panic, and a time it returns is
    below 2 to the 34. *)
Theorem rtc_bounded {IO} `{PortIo IO} (s : IO) :
  exists s' r, read_unix_time s = Ok (s', r) /\ match r with Some t => 0 <= t < 2 ^ 34 | None => True end.
Proof.
  unfold read_unix_time, read_stable_snapshot. pose proof (stable_bytes MAX_ATTEMPTS s) as Hb. destruct (stable_from MAX_ATTEMPTS s) as [s1 [r|]]; [|by eexists _, _].
  destruct (cmos_read REG_STATUS_B s1) as [s2 b]. destruct (unix_time_total r b (Hb r eq_refl)) as (t & -> & Ht). cbn [mbind outcome_bind]. by eexists _, _.
Qed.

End clock.

(** The interval timer is programmed for every rate from 19 Hz to its input
    clock, with the largest divisor whose rate is not below the one asked for;
    the three writes are the command and the divisor's two bytes.  Any other
    rate is refused and nothing is written. *)
Theorem pit_rate_spec {IO} `{PortIo IO} (hz : Z) (s : IO) : 0 <= hz < 2 ^ 32 ->
  (19 <= hz <= 1193182 /\ exists d, 1 <= d < 65536 /\ d * hz <= 1193182 < (d + 1) * hz /\
     Pit.set_rate hz s = (outb 64 (d / 256) (outb 64 (d mod 256) (outb 67 52 s)), inl ())) \/
  (hz = 0 /\ Pit.set_rate hz s = (s, inr Pit.ZeroFrequency)) \/
  ((0 < hz <= 18 \/ 1193182 < hz) /\ Pit.set_rate hz s = (s, inr Pit.FrequencyTooLow)).
Proof.
  intros Hhz. unfold Pit.set_rate. destruct (decide (hz = 0)) as [->|Hne]; [right; left; done|].
  pose proof (Pit.divisor_range hz ltac:(lia)) as Hd. unfold Pit.PIT_FREQUENCY_HZ in Hd. destruct (Pit.divisor_for_hz hz) as [d|e].
  - destruct Hd as (H1 & H2 & H3). destruct (Pit.wire_bytes d ltac:(lia)) as (-> & -> & -> & Hb). left. split; [done|]. exists d. split; [lia|]. done.
  - destruct Hd as [-> Hd]. right. right. split; [lia|done].
Qed.

Lemma pit_rate_spec_witness : exists d, 1 <= d < 65536 /\ d * 100 <= 1193182 < (d + 1) * 100 /\
  Pit.set_rate 100 (Rtc.mkCmos 0 (fun _ => 0)) = (outb 64 (d / 256) (outb 64 (d mod 256) (outb 67 52 (Rtc.mkCmos 0 (fun _ => 0)))), inl ()).
Proof.
  destruct (pit_rate_spec 100 (Rtc.mkCmos 0 (fun _ => 0))) as [[_ Hd]|[[H _]|[H _]]]; [lia|exact Hd|discriminate|exfalso; lia].
Defined.

(** ** Input *)

(** C40: The keyboard decoder never panics: whatever bytes the controller sends,
    every byte but the extension prefix gives one raw event, at most four
    characters are pushed for it, the modifiers are those of the last press or
    release of their keys, and the extension applies to one byte only. *)
Theorem keyboard_decodes k l : Forall (fun b => 0 <= b < 256) l ->
  exists outs, Keyboard.process_all k l = Ok (foldl Keyboard.next k l, outs) /\ length outs = length l /\
    Forall2 (fun b o => (length (Keyboard.chars o) <= 4)%nat /\ (Keyboard.raw o = None <-> b = 224)) l outs /\
    (forall l' b, l = l' ++ [b] -> Keyboard.ext (foldl Keyboard.next k l) = true <-> b = 224) /\
    (forall l' b, l = l' ++ [b] -> b = 29 \/ b = 157 -> Keyboard.ctrl (foldl Keyboard.next k l) = (b <? 128)).
Proof.
  intros Hl. assert (exists outs, Keyboard.process_all k l = Ok (foldl Keyboard.next k l, outs) /\ length outs = length l /\
    Forall2 (fun b o => (length (Keyboard.chars o) <= 4)%nat /\ (Keyboard.raw o = None <-> b = 224)) l outs) as (outs & E & Hlen & Hf).
  { revert k. induction Hl as [|b l Hb Hl IH]; intros k; [by exists []|]. cbn [Keyboard.process_all foldl].
    destruct (Keyboard.process_ok k b Hb) as (o & -> & C & R). cbn [mbind outcome_bind fst snd]. destruct (IH (Keyboard.next k b)) as (outs & -> & Hlen & Hf).
    cbn [mbind outcome_bind fst snd]. exists (o :: outs). split_and!; [done|cbn; lia|]. constructor; [|done]. split.
    - rewrite C. unfold Keyboard.typed. repeat case_match; cbn; try lia; apply Keyboard.ext_chars_len.
    - rewrite R. destruct (Z.eqb_spec b 224); [done|]. split; [done|]. congruence. }
  exists outs. split_and!; try done.
  - intros l' b ->. rewrite foldl_snoc. unfold Keyboard.next at 1. destruct (Z.eqb_spec b 224); cbn; done.
  - intros l' b ->. rewrite foldl_snoc. intros [-> | ->]; done.
Qed.

Lemma keyboard_decodes_witness : exists outs, Keyboard.process_all Keyboard.new [42; 30; 170; 224; 72] = Ok (Keyboard.new, outs) /\
  (outs ≫= Keyboard.chars) = [65; 27; 91; 65].
Proof.
  destruct (keyboard_decodes Keyboard.new [42; 30; 170; 224; 72]) as (outs & E & _); [repeat constructor; lia|].
  exists outs. split; [exact E|]. vm_compute in E. injection E as <-. vm_compute. reflexivity.
Defined.

(** Every printable ASCII character can be typed, with Shift or without. *)
Theorem keyboard_covers_ascii : Forall (fun c => Exists (fun sc => Keyboard.scancode_to_char sc false false false = Some c \/
  Keyboard.scancode_to_char sc true false false = Some c) (seqZ 1 57)) (seqZ 32 95).
Proof. apply (bool_decide_unpack _). vm_compute. done. Qed.

(** The keyboard's interrupts, the decoder and the terminal together: for
    any scancodes, the characters typed that raise no signal are appended to the
    queue in order, up to the room it has, the first ones are kept, and each
    signal character sends its signal to the foreground group, if there is one,
    and is not queued. *)
Theorem console_input t pgid l k q : Forall (fun b => 0 <= b < 256) l -> EventQueue.holds Console.CAPACITY (Console.KEYBOARD_BUFFER k) q ->
  exists k', Console.scancodes t pgid k l = Ok (k', Console.signals t pgid (Keyboard.typed_all (Console.decoder k) l)) /\
    EventQueue.holds Console.CAPACITY (Console.KEYBOARD_BUFFER k')
      (q ++ take (1023 - length q) (Console.text t (Keyboard.typed_all (Console.decoder k) l))).
Proof. intros Hl Hq. destruct (Console.scancodes_ok t pgid l k q Hl Hq) as (k' & E & _ & H). by exists k'. Qed.

(** Ctrl-C, then a letter. *)
Lemma console_input_witness : exists k', Console.scancodes Tty.default_termios 7
    (Console.mkConsole Keyboard.new (EventQueue.new Console.CAPACITY) (EventQueue.new Console.RAW_CAPACITY)) [29; 46; 174; 157; 30] = Ok (k', [(7, 2)]) /\
  EventQueue.holds Console.CAPACITY (Console.KEYBOARD_BUFFER k') [97].
Proof.
  destruct (console_input Tty.default_termios 7 [29; 46; 174; 157; 30]
    (Console.mkConsole Keyboard.new (EventQueue.new Console.CAPACITY) (EventQueue.new Console.RAW_CAPACITY)) []) as (k' & E & Hh);
    [repeat constructor; lia|apply EventQueue.new_holds; unfold Console.CAPACITY; lia|].
  exists k'. split; [exact E|exact Hh].
Defined.

(** The packets a mouse sends for any sequence of movements (nine-bit
    deltas, three buttons) are decoded to exactly that sequence, and the
    decoder is ready for the next packet; on any other bytes it neither panics
    nor reports a movement out of range. *)
Theorem mouse_roundtrip evs : Forall Mouse.event_ok evs ->
  (exists p, Mouse.push_bytes Mouse.new (evs ≫= Mouse.encode) = Ok (p, evs) /\ Mouse.index p = 0%nat) /\
  forall l, Forall (fun b => 0 <= b < 256) l -> exists p out, Mouse.push_bytes Mouse.new l = Ok (p, out) /\ Forall Mouse.event_ok out.
Proof.
  intros Hev. split.
  - assert (forall p, Mouse.packet_ok p -> Mouse.index p = 0%nat -> exists p', Mouse.push_bytes p (evs ≫= Mouse.encode) = Ok (p', evs) /\ Mouse.index p' = 0%nat) as Hgen;
      [|by apply Hgen; [split; cbn; lia|]].
    induction Hev as [|e evs He Hev IH]; intros p Hp Hi; [by exists p|]. cbn [mbind list_bind].
    destruct (Mouse.packet_push p e Hp Hi He) as (p1 & E1 & Hp1 & Hi1). destruct (IH p1 Hp1 Hi1) as (p2 & E2 & Hi2). exists p2. split; [|done].
    rewrite Mouse.push_bytes_app, E1. cbn [mbind outcome_bind fst snd]. change (Mouse.push_bytes p1 (list_bind _ _ Mouse.encode evs)) with (Mouse.push_bytes p1 (evs ≫= Mouse.encode)).
    by rewrite E2.
  - intros l Hl. apply Mouse.push_bytes_ok; [done|split; cbn; lia|repeat constructor; cbn; lia].
Qed.

Lemma mouse_roundtrip_witness : exists p, Mouse.push_bytes Mouse.new ([Mouse.mkEvent (-3) 200 1; Mouse.mkEvent 255 (-256) 6] ≫= Mouse.encode) =
  Ok (p, [Mouse.mkEvent (-3) 200 1; Mouse.mkEvent 255 (-256) 6]) /\ Mouse.index p = 0%nat.
Proof. apply (mouse_roundtrip [Mouse.mkEvent (-3) 200 1; Mouse.mkEvent 255 (-256) 6]). repeat constructor; cbn; lia. Defined.

(** ** Queues *)

(** C39: However the loads and stores of an interrupt handler that pushes and of
    a reader that pops interleave, what has been delivered is an initial piece
    of what has been accepted, in order and without loss or repetition, and at
    most [cap - 1] events wait. *)
Theorem event_queue_fifo {A} (cap : nat) (s : EventQueue.state (A := A)) : (0 < cap)%nat -> rtc (EventQueue.step cap) (EventQueue.init cap) s ->
  exists waiting, Some <$> EventQueue.accepted s = EventQueue.delivered s ++ (Some <$> waiting) /\ (length waiting < cap)%nat /\
    EventQueue.holds cap (EventQueue.q s) waiting.
Proof.
  intros Hcap Hs. destruct (EventQueue.reachable_inv cap s Hcap Hs) as (l & Hh & _ & _ & He). exists l. split_and!; try done. apply Hh.
Qed.

(** Two events, the first one read while the second is being stored. *)
Lemma event_queue_fifo_witness : exists s : EventQueue.state (A := Z), rtc (EventQueue.step 4) (EventQueue.init 4) s /\
  EventQueue.accepted s = [7; 8] /\ EventQueue.delivered s = [Some 7] /\
  exists waiting, Some <$> [7; 8] = [Some 7] ++ (Some <$> waiting) /\ (length waiting < 4)%nat.
Proof.
  eassert (rtc (EventQueue.step 4) (EventQueue.init 4) _) as Hs.
  { eapply rtc_l; [apply (EventQueue.p_load 4 _ _ _ _ 7)|]. eapply rtc_l; [apply EventQueue.p_room; vm_compute; discriminate|].
    eapply rtc_l; [apply EventQueue.p_store|]. eapply rtc_l; [apply EventQueue.p_publish|].
    eapply rtc_l; [apply EventQueue.c_load|]. eapply rtc_l; [apply (EventQueue.p_load 4 _ _ _ _ 8)|].
    eapply rtc_l; [apply EventQueue.c_some; vm_compute; discriminate|]. eapply rtc_l; [apply EventQueue.p_room; vm_compute; discriminate|].
    eapply rtc_l; [apply EventQueue.c_take|]. eapply rtc_l; [apply EventQueue.p_store|]. eapply rtc_l; [apply EventQueue.c_publish|].
    eapply rtc_l; [apply EventQueue.p_publish|]. apply rtc_refl. }
  eexists. split; [exact Hs|]. split; [vm_compute; reflexivity|]. split; [vm_compute; reflexivity|].
  destruct (event_queue_fifo 4 _ ltac:(lia) Hs) as (w & Hw & Hl & _). exists w. split; [exact Hw|exact Hl].
Defined.

End HalProps.
