(* ===== verification/Elf.v ===== *)
(** The ELF64 parser ([kernel/src/memory/elf.rs]).

    The source casts pointers into the file to the two packed structures; here
    a structure is read field by field, and a read outside the file, which the
    cast would not notice, is a panic.  That none happens is [elf_safe]. *)

From Stdlib Require Import ZArith Lia.
From stdpp Require Import base numbers list strings.
From S2P Require Import Prelude Bits Bytes.

Local Open Scope string_scope.
Local Open Scope list_scope.
Local Open Scope Z_scope.

Module Elf.
Import Bytes.

Definition ELF_MAGIC : bytes := [127; 69; 76; 70].
Definition ELFCLASS64 : Z := 2.
Definition ELFDATA2LSB : Z := 1.
Definition ET_EXEC : Z := 2.
Definition EM_X86_64 : Z := 62.
Definition PT_LOAD : Z := 1.
Definition PF_X : Z := Z.shiftl 1 0.
Definition PF_W : Z := Z.shiftl 1 1.
Definition PF_R : Z := Z.shiftl 1 2.

Record Elf64Header := mkHeader {
  e_ident : bytes; e_type : Z; e_machine : Z; e_version : Z; e_entry : Z; e_phoff : Z; e_shoff : Z;
  e_flags : Z; e_ehsize : Z; e_phentsize : Z; e_phnum : Z; e_shentsize : Z; e_shnum : Z; e_shstrndx : Z;
}.

Record Elf64ProgramHeader := mkPhdr {
  p_type : Z; p_flags : Z; p_offset : Z; p_vaddr : Z; p_paddr : Z; p_filesz : Z; p_memsz : Z; p_align : Z;
}.

(** [size_of] the packed structures. *)
Definition HEADER_SIZE : Z := 64.
Definition PHDR_SIZE : Z := 56.

(** [&*(data.as_ptr() as *const Elf64Header)]. *)
Definition header_at (data : bytes) : may_panic Elf64Header :=
  ident ← get 0 16 data;
  typ ← get_le 16 2 data;
  machine ← get_le 18 2 data;
  version ← get_le 20 4 data;
  entry ← get_le 24 8 data;
  phoff ← get_le 32 8 data;
  shoff ← get_le 40 8 data;
  flags ← get_le 48 4 data;
  ehsize ← get_le 52 2 data;
  phentsize ← get_le 54 2 data;
  phnum ← get_le 56 2 data;
  shentsize ← get_le 58 2 data;
  shnum ← get_le 60 2 data;
  shstrndx ← get_le 62 2 data;
  Ok (mkHeader ident typ machine version entry phoff shoff flags ehsize phentsize phnum shentsize shnum shstrndx).

(** [&*(data.as_ptr().add(o) as *const Elf64ProgramHeader)]. *)
Definition phdr_at (data : bytes) (o : Z) : may_panic Elf64ProgramHeader :=
  typ ← get_le o 4 data;
  flags ← get_le (o + 4) 4 data;
  offset ← get_le (o + 8) 8 data;
  vaddr ← get_le (o + 16) 8 data;
  paddr ← get_le (o + 24) 8 data;
  filesz ← get_le (o + 32) 8 data;
  memsz ← get_le (o + 40) 8 data;
  align ← get_le (o + 48) 8 data;
  Ok (mkPhdr typ flags offset vaddr paddr filesz memsz align).

Record Elf64 := mkElf { data : bytes; header : Elf64Header }.

(** [checked_add] on [usize]. *)
Definition checked_add (a b : Z) : option Z := if a + b <? 2 ^ 64 then Some (a + b) else None.

Definition parse (data : bytes) : may_panic (Elf64 + string) :=
  if size data <? HEADER_SIZE then Ok (inr "ELF: file too small for header") else
  header ← header_at data;
  magic ← get 0 4 (e_ident header);
  if negb (bool_decide (magic = ELF_MAGIC)) then Ok (inr "ELF: invalid magic number") else
  class ← byte (e_ident header) 4;
  if negb (class =? ELFCLASS64) then Ok (inr "ELF: not a 64-bit binary") else
  order ← byte (e_ident header) 5;
  if negb (order =? ELFDATA2LSB) then Ok (inr "ELF: not little-endian") else
  if negb (e_type header =? ET_EXEC) then Ok (inr "ELF: not an executable (ET_EXEC)") else
  if negb (e_machine header =? EM_X86_64) then Ok (inr "ELF: not x86_64") else
  let ph_start := e_phoff header in
  ph_size ← chk 64 (e_phentsize header * e_phnum header);
  match checked_add ph_start ph_size with
  | None => Ok (inr "ELF: program header table overflows")
  | Some ph_end =>
      if size data <? ph_end then Ok (inr "ELF: program header table extends past end of file") else
      if e_phentsize header <? PHDR_SIZE then Ok (inr "ELF: program header entry too small") else
      Ok (inl (mkElf data header))
  end.

(** ** Accessors *)

Definition entry_point (e : Elf64) : Z := e_entry (header e).
Definition ph_count (e : Elf64) : Z := e_phnum (header e).
Definition phdr_file_offset (e : Elf64) : Z := e_phoff (header e).
Definition raw_data (e : Elf64) : bytes := data e.

Definition program_header (e : Elf64) (index : Z) : may_panic Elf64ProgramHeader :=
  if index <? ph_count e then
    p ← chk 64 (index * e_phentsize (header e));
    offset ← chk 64 (e_phoff (header e) + p);
    phdr_at (data e) offset
  else Panic.

Record ProgramHeaderIter := mkIter { it_data : bytes; offset : Z; entry_size : Z; remaining : Z }.

Definition program_headers (e : Elf64) : ProgramHeaderIter :=
  mkIter (data e) (e_phoff (header e)) (e_phentsize (header e)) (e_phnum (header e)).

Definition next (it : ProgramHeaderIter) : may_panic (ProgramHeaderIter * option Elf64ProgramHeader) :=
  if remaining it =? 0 then Ok (it, None) else
  ph ← phdr_at (it_data it) (offset it);
  o ← chk 64 (offset it + entry_size it);
  Ok (mkIter (it_data it) o (entry_size it) (remaining it - 1), Some ph).

Definition size_hint (it : ProgramHeaderIter) : Z * option Z := (remaining it, Some (remaining it)).

(** The items of the iterator, [n] calls of [next]. *)
Fixpoint items (n : nat) (it : ProgramHeaderIter) : may_panic (list Elf64ProgramHeader) :=
  match n with
  | O => Ok []
  | S n' =>
      r ← next it;
      match r.2 with
      | None => Ok []
      | Some ph => l ← items n' r.1; Ok (ph :: l)
      end
  end.

Definition all_headers (e : Elf64) : may_panic (list Elf64ProgramHeader) := items (S (Z.to_nat (ph_count e))) (program_headers e).

Definition load_segments (e : Elf64) : may_panic (list Elf64ProgramHeader) :=
  l ← all_headers e; Ok (filter (fun ph => p_type ph = PT_LOAD) l).

Definition segment_data (e : Elf64) (ph : Elf64ProgramHeader) : option bytes :=
  match checked_add (p_offset ph) (p_filesz ph) with
  | None => None
  | Some end_ => if size (data e) <? end_ then None else Some (sub (p_offset ph) (p_filesz ph) (data e))
  end.

(** ** Lemmas *)

(** The structures as functions of the file. *)
Definition header_of (d : bytes) : Elf64Header :=
  mkHeader (sub 0 16 d) (field 16 2 d) (field 18 2 d) (field 20 4 d) (field 24 8 d) (field 32 8 d) (field 40 8 d)
    (field 48 4 d) (field 52 2 d) (field 54 2 d) (field 56 2 d) (field 58 2 d) (field 60 2 d) (field 62 2 d).

Definition phdr_of (d : bytes) (o : Z) : Elf64ProgramHeader :=
  mkPhdr (field o 4 d) (field (o + 4) 4 d) (field (o + 8) 8 d) (field (o + 16) 8 d) (field (o + 24) 8 d)
    (field (o + 32) 8 d) (field (o + 40) 8 d) (field (o + 48) 8 d).

Lemma header_at_ok d : 64 <= size d -> header_at d = Ok (header_of d).
Proof.
  intros Hs. unfold header_at. rewrite get_ok by lia. cbn [mbind outcome_bind].
  do 13 (rewrite get_le_ok by lia; cbn [mbind outcome_bind]). done.
Qed.

Lemma phdr_at_ok d o : 0 <= o -> o + 56 <= size d -> phdr_at d o = Ok (phdr_of d o).
Proof.
  intros Ho Hs. unfold phdr_at. do 8 (rewrite get_le_ok by lia; cbn [mbind outcome_bind]). done.
Qed.

Lemma field_width a n d : bytes_ok d -> 0 <= a -> 0 <= n -> a + n <= size d -> 0 <= field a n d < 256 ^ n.
Proof. apply field_bound. Qed.

(** What [parse] accepts. *)
Record accepted (d : bytes) : Prop := {
  ac_size : 64 <= size d;
  ac_magic : sub 0 4 d = ELF_MAGIC;
  ac_class : d !! 4%nat = Some ELFCLASS64;
  ac_order : d !! 5%nat = Some ELFDATA2LSB;
  ac_type : e_type (header_of d) = ET_EXEC;
  ac_machine : e_machine (header_of d) = EM_X86_64;
  ac_table : e_phoff (header_of d) + e_phentsize (header_of d) * e_phnum (header_of d) <= size d;
  ac_entry : 56 <= e_phentsize (header_of d);
}.

Lemma ident_byte (d : bytes) (i : nat) : 64 <= size d -> (i < 16)%nat -> exists b, d !! i = Some b /\ @byte Empty_set (sub 0 16 d) (Z.of_nat i) = Ok b.
Proof.
  intros Hs Hi. unfold size in Hs. destruct (lookup_lt_is_Some_2 d i ltac:(lia)) as [b Hb]. exists b. split; [done|].
  unfold byte. rewrite (proj2 (Z.ltb_ge _ _)) by lia. rewrite Nat2Z.id, lookup_sub by lia. change (Z.to_nat 0 + i)%nat with i. by rewrite Hb.
Qed.

Lemma table_width d : bytes_ok d -> 64 <= size d ->
  0 <= e_phoff (header_of d) < 2 ^ 64 /\ 0 <= e_phentsize (header_of d) < 2 ^ 16 /\ 0 <= e_phnum (header_of d) < 2 ^ 16.
Proof.
  intros Hb Hs. cbn [header_of e_phoff e_phentsize e_phnum]. pose proof (field_bound 32 8 d Hb) as H1. pose proof (field_bound 54 2 d Hb) as H2.
  pose proof (field_bound 56 2 d Hb) as H3. change (256 ^ 8) with (2 ^ 64) in H1. change (256 ^ 2) with (2 ^ 16) in H2, H3. lia.
Qed.

Lemma chk_small a b : 0 <= a < 2 ^ 16 -> 0 <= b < 2 ^ 16 -> @chk Empty_set 64 (a * b) = Ok (a * b).
Proof. intros Ha Hb. apply chk_ok. change (2 ^ 64) with (2 ^ 16 * 2 ^ 48). nia. Qed.

(** [parse] never reads outside the file, and accepts exactly these files. *)
Lemma parse_ok d : bytes_ok d -> size d < 2 ^ 63 ->
  exists r, parse d = Ok r /\ match r with inl e => accepted d /\ e = mkElf d (header_of d) | inr _ => ~ accepted d end.
Proof.
  intros Hb Hmax. unfold parse. change HEADER_SIZE with 64. destruct (Z.ltb_spec (size d) 64) as [Hlt|Hs].
  { eexists. split; [done|]. intros [H _ _ _ _ _ _ _]. lia. }
  destruct (table_width d Hb Hs) as (Hoff & Hent & Hnum).
  rewrite header_at_ok by lia. cbn [mbind outcome_bind]. cbn [header_of e_ident]. rewrite get_ok by (rewrite ?size_sub by lia; lia). cbn [mbind outcome_bind].
  rewrite sub_sub by lia. cbn [Z.add]. case_bool_decide as Hm; cbn [negb]; [|eexists; split; [done|intros []; done]].
  destruct (ident_byte d 4 Hs ltac:(lia)) as (c & Hc & Hc'). change (Z.of_nat 4) with 4 in Hc'. rewrite Hc'. cbn [mbind outcome_bind].
  destruct (Z.eqb_spec c ELFCLASS64) as [->|]; cbn [negb]; [|eexists; split; [done|intros []; congruence]].
  destruct (ident_byte d 5 Hs ltac:(lia)) as (o & Ho & Ho'). change (Z.of_nat 5) with 5 in Ho'. rewrite Ho'. cbn [mbind outcome_bind].
  destruct (Z.eqb_spec o ELFDATA2LSB) as [->|]; cbn [negb]; [|eexists; split; [done|intros []; congruence]].
  fold (header_of d). destruct (Z.eqb_spec (e_type (header_of d)) ET_EXEC) as [Ht|]; cbn [negb]; [|eexists; split; [done|intros []; congruence]].
  destruct (Z.eqb_spec (e_machine (header_of d)) EM_X86_64) as [Hma|]; cbn [negb]; [|eexists; split; [done|intros []; congruence]].
  rewrite chk_small by lia. cbn [mbind outcome_bind]. unfold checked_add.
  destruct (Z.ltb_spec (e_phoff (header_of d) + e_phentsize (header_of d) * e_phnum (header_of d)) (2 ^ 64)) as [Hov|Hov];
    [|eexists; split; [done|intros []; lia]].
  destruct (Z.ltb_spec (size d) (e_phoff (header_of d) + e_phentsize (header_of d) * e_phnum (header_of d))) as [Hend|Hend]; [eexists; split; [done|intros []; lia]|].
  change PHDR_SIZE with 56. destruct (Z.ltb_spec (e_phentsize (header_of d)) 56) as [Hes|Hes]; [eexists; split; [done|intros []; lia]|].
  eexists. split; [done|]. split; [|done]. by split.
Qed.

(** ** The program headers *)

Section table.
Variable d : bytes.
Hypothesis Hb : bytes_ok d.
Hypothesis Hmax : size d < 2 ^ 63.
Hypothesis Hac : accepted d.

Let e := mkElf d (header_of d).
Let off := e_phoff (header_of d).
Let ent := e_phentsize (header_of d).
Let num := e_phnum (header_of d).

Lemma table_bounds : 0 <= off /\ 56 <= ent < 2 ^ 16 /\ 0 <= num < 2 ^ 16 /\ off + ent * num <= size d.
Proof. destruct (table_width d Hb (ac_size _ Hac)) as (? & ? & ?). pose proof (ac_table _ Hac). pose proof (ac_entry _ Hac). unfold off, ent, num. lia. Qed.

Lemma slot_in i : 0 <= i < num -> 0 <= off + i * ent /\ off + i * ent + 56 <= size d.
Proof. pose proof table_bounds. intros Hi. assert ((i + 1) * ent <= num * ent) by (apply Z.mul_le_mono_nonneg_r; lia). nia. Qed.

Lemma program_header_ok i : 0 <= i < num -> program_header e i = Ok (phdr_of d (off + i * ent)).
Proof.
  intros Hi. pose proof table_bounds. destruct (slot_in i Hi). unfold program_header. cbn [ph_count e header data]. fold off ent num.
  rewrite (proj2 (Z.ltb_lt i _)) by (change (ph_count e) with num; lia). rewrite (chk_ok 64 (i * ent)) by nia. cbn [mbind outcome_bind]. rewrite chk_ok by lia. cbn [mbind outcome_bind]. by rewrite phdr_at_ok by lia.
Qed.

Lemma items_step (n : nat) it : items (S n) it = (r ← next it; match r.2 with None => Ok [] | Some ph => l ← items n r.1; Ok (ph :: l) end).
Proof. done. Qed.

Lemma items_ok (n : nat) i : 0 <= i -> i + Z.of_nat n = num ->
  items (S n) (mkIter d (off + i * ent) ent (num - i)) = Ok ((fun j => phdr_of d (off + j * ent)) <$> seqZ i (Z.of_nat n)).
Proof.
  revert i. induction n as [|n IH]; intros i Hi Hn.
  - cbn [items]. unfold next. cbn [remaining]. by rewrite (proj2 (Z.eqb_eq _ _)) by lia.
  - pose proof table_bounds. destruct (slot_in i) as [Hs1 Hs2]; [lia|]. rewrite items_step. unfold next. cbn [remaining offset it_data entry_size].
    rewrite (proj2 (Z.eqb_neq _ _)) by lia. rewrite phdr_at_ok by lia. cbn [mbind outcome_bind]. rewrite chk_ok by lia. cbn [mbind outcome_bind fst snd].
    replace (off + i * ent + ent) with (off + (i + 1) * ent) by lia. replace (num - i - 1) with (num - (i + 1)) by lia.
    rewrite IH by lia. cbn [mbind outcome_bind].
    rewrite (seqZ_cons i) by lia. cbn [fmap list_fmap]. do 4 f_equal; lia.
Qed.

Definition headers : list Elf64ProgramHeader := (fun j => phdr_of d (off + j * ent)) <$> seqZ 0 num.

Lemma all_headers_ok : all_headers e = Ok headers.
Proof.
  pose proof table_bounds. unfold all_headers, program_headers. change (ph_count e) with num. cbn [e header data]. fold off ent num.
  replace (mkIter d off ent num) with (mkIter d (off + 0 * ent) ent (num - 0)) by (f_equal; lia).
  rewrite items_ok by lia. rewrite Z2Nat.id by lia. done.
Qed.

Lemma length_headers : Z.of_nat (length headers) = num.
Proof. pose proof table_bounds. unfold headers. rewrite length_fmap, length_seqZ. lia. Qed.

End table.

Lemma segment_data_spec e ph : 0 <= p_offset ph -> 0 <= p_filesz ph -> size (data e) < 2 ^ 63 ->
  segment_data e ph = if decide (p_offset ph + p_filesz ph <= size (data e)) then Some (sub (p_offset ph) (p_filesz ph) (data e)) else None.
Proof.
  intros Ho Hf Hs. unfold segment_data, checked_add. destruct (Z.ltb_spec (p_offset ph + p_filesz ph) (2 ^ 64)) as [Hlt|Hge].
  - destruct (Z.ltb_spec (size (data e)) (p_offset ph + p_filesz ph)); [by rewrite decide_False by lia|by rewrite decide_True by lia].
  - by rewrite decide_False by lia.
Qed.

End Elf.
