(* ===== verification/ElfLoader.v ===== *)
(** The ELF loader ([kernel/src/memory/elf_loader.rs] and
    [signal_trampoline.rs]): it builds the address space of a new program.

    The state is the memory [MM] of [Paging]; the address space built is number
    [sp], dropped by the caller when an error is returned.  The entries of the
    kernel that every address space shares are not represented: a new one is
    empty.  A page of the initial stack is built as a list of bytes and then
    stored in its frame. *)

From Stdlib Require Import ZArith Lia.
From stdpp Require Import base numbers gmap strings list.
From S2P Require Import Prelude Bits Buddy Frames Vma Paging Bytes Elf.

Local Open Scope string_scope.
Local Open Scope list_scope.
Local Open Scope Z_scope.

Module ElfLoader.
Import Vma Paging Bytes Elf.

Definition DEFAULT_STACK_BASE : Z := 124244813938688.
Definition STACK_PROCESS_GAP : Z := 65536.
Definition STACK_PAGES : Z := 16.

Definition TRAMPOLINE_VA : Z := 70918499987456.
Definition TRAMPOLINE_CODE : bytes := [184; 15; 0; 0; 0; 15; 5].

Definition elf_flags_to_page_flags (elf_flags : Z) : Z :=
  let flags := Z.lor PRESENT USER_ACCESSIBLE in
  if negb (Z.land elf_flags PF_W =? 0) then Z.lor flags WRITABLE else flags.

(** ** The initial stack *)

Definition AUXV_PAIRS : Z := 5.

(** The strings from [cursor] on, with their addresses. *)
Fixpoint place_strings (top_page_vaddr cursor : Z) (strs : list bytes) (page : bytes) : may_panic (bytes * Z * list Z) :=
  match strs with
  | [] => Ok (page, cursor, [])
  | s :: strs' =>
      page ← put cursor s page;
      page ← put (cursor + size s) [0] page;
      r ← place_strings top_page_vaddr (cursor + size s + 1) strs' page;
      let '(page, cursor', addrs) := r in
      Ok (page, cursor', (top_page_vaddr + cursor) :: addrs)
  end.

(** [put!] of each word in turn. *)
Fixpoint put_words (at_ : Z) (ws : list Z) (page : bytes) : may_panic bytes :=
  match ws with
  | [] => Ok page
  | w :: ws' => page ← put_le at_ 8 w page; put_words (at_ + 8) ws' page
  end.

Definition strings_bytes (argv envp : list bytes) : Z := foldr (fun s n => size s + 1 + n) 0 (argv ++ envp).

Definition slots (argv envp : list bytes) : Z :=
  1 + (Z.of_nat (length argv) + 1) + (Z.of_nat (length envp) + 1) + AUXV_PAIRS * 2.

Definition too_large : string := "ELF loader: argv/envp too large for the initial stack page".

Definition build_initial_stack (page : bytes) (top_page_vaddr : Z) (argv envp : list bytes) (phdr_vaddr ph_count entry_point : Z)
  : may_panic (bytes * (Z + string)) :=
  let slot_count := slots argv envp in
  let pad := negb (slot_count mod 2 =? 0) in
  let slot_count := if pad then slot_count + 1 else slot_count in
  let frame_bytes := slot_count * 8 in
  if 4096 <? strings_bytes argv envp + frame_bytes + 16 then Ok (page, inr too_large) else
  let content_top := 4096 - strings_bytes argv envp in
  r ← place_strings top_page_vaddr content_top envp page;
  let '(page, cursor, envp_addrs) := r in
  q ← place_strings top_page_vaddr cursor argv page;
  let '(page, _, argv_addrs) := q in
  let frame_top := align_down 4 content_top in
  if frame_top <? frame_bytes then Ok (page, inr too_large) else
  let rsp := frame_top - frame_bytes in
  page ← put_words rsp ([Z.of_nat (length argv)] ++ argv_addrs ++ [0] ++ envp_addrs ++ [0] ++
    [3; phdr_vaddr; 4; 56; 5; ph_count; 9; entry_point; 0; 0] ++ (if pad then [0] else [])) page;
  v ← chk 64 (top_page_vaddr + rsp);
  Ok (page, inl v).

(** [AT_PHDR]: the first loaded segment that holds the program headers. *)
Fixpoint phdr_vaddr_from (e_phoff : Z) (l : list Elf64ProgramHeader) : may_panic Z :=
  match l with
  | [] => Ok 0
  | ph :: l' =>
      if (p_type ph =? PT_LOAD) && (p_offset ph <=? e_phoff) then
        end_ ← chk 64 (p_offset ph + p_filesz ph);
        if e_phoff <? end_ then chk 64 (p_vaddr ph + (e_phoff - p_offset ph))
        else phdr_vaddr_from e_phoff l'
      else phdr_vaddr_from e_phoff l'
  end.

Section loader.
Context {PT A : Type} `{Mapper PT A}.
Implicit Types m : @MM PT A.
Abbreviation Res B := (may_panic (@MM PT A * (B + string))) (only parsing).

(** [.map_err(|_| e)?]. *)
Definition or_err {B C} (r : Res B) (e : string) (k : @MM PT A -> B -> Res C) : Res C :=
  match r with
  | Ok (m, inl b) => k m b
  | Ok (m, inr _) => Ok (m, inr e)
  | Err x => Err x
  | Panic => Panic
  end.

Definition new_user m (sp : Z) : Res unit :=
  r ← alloc_frame m 12;
  match r.2 with
  | None => Ok (r.1, inr "Failed to allocate PML4 frame from buddy")
  | Some _ => Ok (set_space r.1 sp (mkSpace new_table new USER_MMAP_BASE), inl ())
  end.

Definition add_vma m (sp : Z) (v : Vma) : Res unit :=
  match add (vmas (space m sp)) v with
  | None => Ok (m, inr "VMA list full")
  | Some l => Ok (set_vmas m sp l, inl ())
  end.

(** ** Segments *)

(** The bytes of the file for one page, and where in the page they go. *)
Definition page_data (ph : Elf64ProgramHeader) (file_data : bytes) (page_idx page_vaddr : Z) : option (Z * bytes) :=
  let page_start_in_seg := if p_vaddr ph <=? page_vaddr then page_vaddr - p_vaddr ph else 0 in
  let dst_offset := if page_idx =? 0 then Z.land (p_vaddr ph) 4095 else 0 in
  if page_start_in_seg <? p_filesz ph then
    let file_bytes_remaining := Z.max 0 (p_filesz ph - page_start_in_seg) in
    let page_bytes_available := 4096 - dst_offset in
    let copy_len := Z.min file_bytes_remaining page_bytes_available in
    if (0 <? copy_len) && (page_start_in_seg <? size file_data) then
      let actual_copy := Z.min copy_len (size file_data - page_start_in_seg) in
      Some (dst_offset, sub page_start_in_seg actual_copy file_data)
    else None
  else None.

(** The pages from [page_idx] on, [n] of them. *)
Fixpoint load_pages (n : nat) (ph : Elf64ProgramHeader) (file_data : bytes) (aligned_start fl page_idx : Z) m (sp : Z) : Res unit :=
  match n with
  | O => Ok (m, inl ())
  | S n' =>
      o ← chk 64 (page_idx * 4096);
      page_vaddr ← chk 64 (aligned_start + o);
      page ← virt_addr page_vaddr;
      or_err
        match translate_page m sp page with
        | Some existing => Ok (m, inl (existing, false))
        | None => try_ (map_user_page m sp page fl) (fun m f => Ok (m, inl (f, true)))
        end "ELF loader: failed to map page" (fun m r =>
      let '(frame, is_new_page) := r in
      let m := if is_new_page : bool then zero_page m frame 4096 else m in
      let m := match page_data ph file_data page_idx page_vaddr with
               | Some (dst_offset, bs) => m <| phys := write_bytes (phys m) (frame + dst_offset) bs |>
               | None => m
               end in
      load_pages n' ph file_data aligned_start fl (page_idx + 1) m sp)
  end.

Definition load_segment (elf : Elf64) (ph : Elf64ProgramHeader) m (sp : Z) : Res unit :=
  if p_memsz ph =? 0 then Ok (m, inl ()) else
  let aligned_start := align_down 12 (p_vaddr ph) in
  e1 ← chk 64 (p_vaddr ph + p_memsz ph);
  e2 ← chk 64 (e1 + 4095);
  let aligned_end := align_down 12 e2 in
  let num_pages := (aligned_end - aligned_start) / 4096 in
  let fl := elf_flags_to_page_flags (p_flags ph) in
  match segment_data elf ph with
  | None => Ok (m, inr "ELF loader: segment data out of bounds")
  | Some file_data =>
      try_ (load_pages (Z.to_nat num_pages) ph file_data aligned_start fl 0 m sp) (fun m _ =>
      let vma_kind := if negb (Z.land (p_flags ph) PF_X =? 0) then Code else Anonymous in
      or_err (add_vma m sp (mkVma aligned_start num_pages fl vma_kind)) "ELF loader: failed to register VMA" (fun m _ =>
      Ok (m, inl ())))
  end.

Fixpoint load_all (elf : Elf64) (l : list Elf64ProgramHeader) m (sp : Z) : Res unit :=
  match l with
  | [] => Ok (m, inl ())
  | ph :: l' => try_ (load_segment elf ph m sp) (fun m _ => load_all elf l' m sp)
  end.

(** ** The whole program *)

(** The trampoline page. *)
Definition map_trampoline m (sp : Z) : Res unit :=
  let tramp_flags := Z.lor PRESENT USER_ACCESSIBLE in
  or_err (map_user_page m sp (page_of TRAMPOLINE_VA) tramp_flags) "ELF loader: failed to map sigreturn trampoline" (fun m f =>
  let m := zero_page m f 4096 in
  let m := m <| phys := write_bytes (phys m) f TRAMPOLINE_CODE |> in
  or_err (add_vma m sp (mkVma TRAMPOLINE_VA 1 tramp_flags Code)) "ELF loader: failed to register trampoline VMA" (fun m _ =>
  Ok (m, inl ()))).

(** The top page of the stack; the stack pointer. *)
Definition map_stack (elf : Elf64) (stack_base : Z) (argv envp : list bytes) m (sp : Z) : Res Z :=
  let stack_flags := Z.lor (Z.lor PRESENT WRITABLE) USER_ACCESSIBLE in
  or_err (add_vma m sp (mkVma stack_base STACK_PAGES stack_flags GrowableStack)) "ELF loader: failed to register stack VMA" (fun m _ =>
  phs ← all_headers elf;
  phdr_vaddr ← phdr_vaddr_from (phdr_file_offset elf) phs;
  top_page_vaddr ← chk 64 (stack_base + (STACK_PAGES - 1) * 4096);
  top_page ← virt_addr top_page_vaddr;
  or_err (map_user_page m sp (page_of top_page) stack_flags) "ELF loader: failed to map initial stack page" (fun m f =>
  let m := zero_page m f 4096 in
  r ← build_initial_stack (read_bytes (phys m) f 4096) top_page_vaddr argv envp phdr_vaddr (ph_count elf) (entry_point elf);
  Ok (m <| phys := write_bytes (phys m) f r.1 |>, r.2))).

Record LoadedElf := mkLoaded { l_entry_point : Z; user_stack_top : Z }.

Definition load_elf m (sp : Z) (elf_bytes : bytes) (process_index : Z) (argv envp : list bytes) : Res LoadedElf :=
  r ← parse elf_bytes;
  match r with
  | inr e => Ok (m, inr e)
  | inl elf =>
      or_err (new_user m sp) "ELF loader: failed to create address space" (fun m _ =>
      segs ← load_segments elf;
      try_ (load_all elf segs m sp) (fun m _ =>
      i ← chk 64 (process_index * STACK_PROCESS_GAP);
      stack_base ← chk 64 (DEFAULT_STACK_BASE + i);
      try_ (map_stack elf stack_base argv envp m sp) (fun m rsp_va =>
      try_ (map_trampoline m sp) (fun m _ =>
      entry ← virt_addr (entry_point elf);
      top ← virt_addr rsp_va;
      Ok (m, inl (mkLoaded entry top))))))
  end.

End loader.

End ElfLoader.
