(* ===== verification/ElfStack.v ===== *)
(** What [build_initial_stack] leaves in the top page of the stack, as a
    program's start-up code reads it. *)

From Stdlib Require Import ZArith Lia.
From stdpp Require Import base numbers gmap strings list.
From S2P Require Import Prelude Bits Bytes Elf ElfLoader.

Local Open Scope list_scope.
Local Open Scope Z_scope.

Module ElfStack.
Import Bytes ElfLoader.

(** ** Closed forms *)

(** The strings one after the other, and where each starts. *)
Definition encoded (strs : list bytes) : bytes := concat ((fun s => s ++ [0]) <$> strs).

Fixpoint starts (cursor : Z) (strs : list bytes) : list Z :=
  match strs with
  | [] => []
  | s :: strs' => cursor :: starts (cursor + size s + 1) strs'
  end.

Definition total (strs : list bytes) : Z := size (encoded strs).

Lemma total_cons s strs : total (s :: strs) = size s + 1 + total strs.
Proof. unfold total, encoded. cbn [fmap list_fmap concat]. by rewrite !size_app. Qed.

Lemma total_nonneg strs : 0 <= total strs.
Proof. apply size_nonneg. Qed.

Lemma strings_bytes_eq argv envp : strings_bytes argv envp = total argv + total envp.
Proof.
  unfold strings_bytes. rewrite foldr_app. induction argv as [|s argv IH]; cbn [foldr].
  - change (total []) with 0. induction envp as [|s envp IH]; [done|]. cbn [foldr]. rewrite IH, total_cons. lia.
  - rewrite IH, total_cons. lia.
Qed.

Lemma over_app a s1 s2 l : 0 <= a -> a + size s1 + size s2 <= size l -> over (a + size s1) s2 (over a s1 l) = over a (s1 ++ s2) l.
Proof.
  intros Ha Hl. pose proof (size_nonneg s1). pose proof (size_nonneg s2). apply list_eq. intros i.
  rewrite !lookup_over by (rewrite ?size_over, ?size_app; lia). rewrite size_app.
  destruct (decide (a + size s1 <= Z.of_nat i < a + size s1 + size s2)).
  - rewrite decide_True by lia. unfold size in *. rewrite lookup_app_r by lia. f_equal. lia.
  - destruct (decide (a <= Z.of_nat i < a + size s1)).
    + rewrite decide_True by lia. unfold size in *. by rewrite lookup_app_l by lia.
    + by rewrite decide_False by lia.
Qed.

Lemma over_same c src l : 0 <= c -> c + size src <= size l -> sub c (size src) l = src -> over c src l = l.
Proof.
  intros Hc Hl Hs. apply list_eq. intros i. rewrite lookup_over by lia. case_decide as Hi; [|done]. rewrite <- Hs at 1.
  rewrite lookup_sub by lia. f_equal. lia.
Qed.

Lemma over_nil a l : over a [] l = l.
Proof. unfold over, splice. cbn. rewrite Nat.add_0_r. apply take_drop. Qed.

Lemma place_strings_ok top : forall strs cursor page, 0 <= cursor -> cursor + total strs <= size page ->
  place_strings top cursor strs page = Ok (over cursor (encoded strs) page, cursor + total strs, Z.add top <$> starts cursor strs).
Proof.
  induction strs as [|s strs IH]; intros cursor page Hc Hl; cbn [place_strings starts].
  { change (encoded []) with (@nil Z). rewrite over_nil. change (total []) with 0. by rewrite Z.add_0_r. }
  rewrite total_cons in Hl. pose proof (size_nonneg s). pose proof (total_nonneg strs).
  rewrite put_ok by lia. cbn [mbind outcome_bind]. rewrite put_ok by (rewrite ?size_over by lia; change (size [0]) with 1; lia). cbn [mbind outcome_bind].
  rewrite over_app by (change (size [0]) with 1; lia).
  assert (size (s ++ [0]) = size s + 1) as Hs by apply size_app.
  rewrite IH by (rewrite ?size_over; lia). cbn [mbind outcome_bind fmap list_fmap].
  replace (cursor + size s + 1) with (cursor + size (s ++ [0])) by lia. unfold total in *. rewrite over_app by lia.
  change (encoded (s :: strs)) with ((s ++ [0]) ++ encoded strs). rewrite (size_app (s ++ [0])). by rewrite Z.add_assoc.
Qed.

Lemma words_cons w ws : words_bytes (w :: ws) = to_le 8 w ++ words_bytes ws.
Proof. done. Qed.

Lemma size_words ws : size (words_bytes ws) = 8 * Z.of_nat (length ws).
Proof. unfold size. rewrite length_words_bytes. lia. Qed.

Lemma put_words_ok : forall ws at_ page, 0 <= at_ -> at_ + 8 * Z.of_nat (length ws) <= size page ->
  put_words at_ ws page = Ok (over at_ (words_bytes ws) page).
Proof.
  induction ws as [|w ws IH]; intros at_ page Ha Hl; cbn [put_words].
  { change (words_bytes []) with (@nil Z). by rewrite over_nil. }
  cbn [length] in Hl. rewrite put_le_ok by lia. cbn [mbind outcome_bind].
  pose proof (size_to_le 8 w) as H8. rewrite IH by (rewrite ?size_over; lia). rewrite words_cons.
  replace (at_ + 8) with (at_ + size (to_le 8 w)) by lia.
  by rewrite over_app by (rewrite ?size_words; lia).
Qed.

(** ** Reading it back *)

(** The word at an offset of the page, and whether a string and its final zero
    are there. *)
Definition word (page : bytes) (a : Z) : Z := field a 8 page.
Definition string_at (page : bytes) (a : Z) (s : bytes) : Prop := 0 <= a /\ a + size s + 1 <= size page /\ sub a (size s + 1) page = s ++ [0].

Lemma word_written ws at_ page (i : nat) w : 0 <= at_ -> at_ + 8 * Z.of_nat (length ws) <= size page -> Forall (in_width 64) ws -> ws !! i = Some w ->
  word (over at_ (words_bytes ws) page) (at_ + 8 * Z.of_nat i) = w.
Proof.
  intros Ha Hl Hw Hi. pose proof (lookup_lt_Some _ _ _ Hi) as Hlt.
  assert (words_bytes ws = words_bytes (take i ws) ++ to_le 8 w ++ words_bytes (drop (S i) ws)) as ->.
  { rewrite <- words_cons, <- drop_S by done. unfold words_bytes. rewrite <- concat_app, <- fmap_app. by rewrite take_drop. }
  assert (size (words_bytes (take i ws)) = 8 * Z.of_nat i) as H1 by (rewrite size_words, length_take; lia).
  assert (size (words_bytes (drop (S i) ws)) = 8 * (Z.of_nat (length ws) - Z.of_nat i - 1)) as H3 by (rewrite size_words, length_drop; lia).
  assert (size (to_le 8 w) = 8) as H2 by apply size_to_le.
  rewrite <- over_app by (rewrite ?size_app; lia). rewrite H1.
  assert (size (over at_ (words_bytes (take i ws)) page) = size page) as Hs by (apply size_over; lia).
  rewrite <- over_app by lia. unfold word. rewrite field_over_ne by (rewrite ?size_over; lia).
  apply (field_over_eq _ 8); [lia| |lia]. rewrite Forall_lookup in Hw. specialize (Hw _ _ Hi). done.
Qed.

Lemma string_written strs : forall cursor page (i : nat) s, 0 <= cursor -> cursor + total strs <= size page -> strs !! i = Some s ->
  exists a, starts cursor strs !! i = Some a /\ cursor <= a /\ a + size s + 1 <= cursor + total strs /\
    sub a (size s + 1) (over cursor (encoded strs) page) = s ++ [0].
Proof.
  induction strs as [|t strs IH]; intros cursor page i s Hc Hl Hi; [done|]. rewrite total_cons in *. pose proof (size_nonneg t). pose proof (total_nonneg strs).
  assert (size (t ++ [0]) = size t + 1) as Ht by apply size_app. change (encoded (t :: strs)) with ((t ++ [0]) ++ encoded strs).
  unfold total in *. rewrite <- over_app by lia. destruct i as [|i]; cbn in Hi.
  - injection Hi as ->. exists cursor. split_and!; [done|lia|lia|].
    rewrite sub_over_ne by (rewrite ?size_over; lia). apply sub_over_eq; lia.
  - destruct (IH (cursor + size t + 1) (over cursor (t ++ [0]) page) i s) as (a & E & H1 & H2 & H3); [lia|rewrite size_over; lia|done|].
    exists a. split_and!; [done|lia|lia|]. by replace (cursor + size (t ++ [0])) with (cursor + size t + 1) by lia.
Qed.

Lemma length_starts strs : forall c, length (starts c strs) = length strs.
Proof. induction strs as [|s strs IH]; intros c; cbn; [done|by rewrite IH]. Qed.

Lemma starts_bound strs : forall c a, a ∈ starts c strs -> c <= a < c + total strs.
Proof.
  induction strs as [|s strs IH]; intros c a; cbn [starts]; [by intros ?%elem_of_nil|]. rewrite total_cons. pose proof (size_nonneg s). pose proof (total_nonneg strs).
  rewrite elem_of_cons. intros [->|Ha]; [lia|]. apply IH in Ha. lia.
Qed.

(** ** The whole page *)

Definition auxv (phdr_vaddr ph_count entry_point : Z) : list Z := [3; phdr_vaddr; 4; 56; 5; ph_count; 9; entry_point; 0; 0].

(** The frame's size in words, even. *)
Definition frame_slots (argv envp : list bytes) : Z := let n := slots argv envp in if n mod 2 =? 0 then n else n + 1.
Definition fits (argv envp : list bytes) : bool := strings_bytes argv envp + frame_slots argv envp * 8 + 16 <=? 4096.

Lemma frame_slots_bound argv envp : 0 < frame_slots argv envp /\ Z.of_nat (length argv) <= frame_slots argv envp.
Proof. unfold frame_slots, slots, AUXV_PAIRS. case_match; lia. Qed.

(** The page [page], mapped at [top], as the start-up code finds it with the
    stack pointer at offset [rsp]. *)
Record stack_holds (page : bytes) (top rsp : Z) (argv envp : list bytes) (aux : list Z) : Prop := {
  st_argc : word page rsp = Z.of_nat (length argv);
  st_argv : forall (i : nat) s, argv !! i = Some s -> exists a, word page (rsp + 8 * (1 + Z.of_nat i)) = top + a /\ string_at page a s;
  st_null : word page (rsp + 8 * (1 + Z.of_nat (length argv))) = 0;
  st_envp : forall (i : nat) s, envp !! i = Some s -> exists a, word page (rsp + 8 * (2 + Z.of_nat (length argv) + Z.of_nat i)) = top + a /\ string_at page a s;
  st_null' : word page (rsp + 8 * (2 + Z.of_nat (length argv) + Z.of_nat (length envp))) = 0;
  st_auxv : forall (i : nat) w, aux !! i = Some w -> word page (rsp + 8 * (3 + Z.of_nat (length argv) + Z.of_nat (length envp) + Z.of_nat i)) = w;
}.

(** Where the parts of the frame are. *)
Lemma words_lookup (n : Z) (av ev aux pad : list Z) : let ws := [n] ++ av ++ [0] ++ ev ++ [0] ++ aux ++ pad in
  ws !! 0%nat = Some n /\ (forall (i : nat) w, av !! i = Some w -> ws !! (1 + i)%nat = Some w) /\ ws !! (1 + length av)%nat = Some 0 /\
  (forall (i : nat) w, ev !! i = Some w -> ws !! (2 + length av + i)%nat = Some w) /\ ws !! (2 + length av + length ev)%nat = Some 0 /\
  (forall (i : nat) w, aux !! i = Some w -> ws !! (3 + length av + length ev + i)%nat = Some w).
Proof.
  assert (forall (l1 l2 : list Z) (k i : nat), k = (length l1 + i)%nat -> (l1 ++ l2) !! k = l2 !! i) as Hs.
  { intros l1 l2 k i ->. rewrite lookup_app_r by lia. f_equal. lia. }
  intros ws. assert (ws = ([n] ++ av) ++ [0] ++ ev ++ [0] ++ aux ++ pad) as W2 by (unfold ws; by rewrite <- app_assoc).
  assert (ws = ([n] ++ av ++ [0]) ++ ev ++ [0] ++ aux ++ pad) as W3 by (unfold ws; by rewrite <- !app_assoc).
  assert (ws = ([n] ++ av ++ [0] ++ ev) ++ [0] ++ aux ++ pad) as W4 by (unfold ws; by rewrite <- !app_assoc).
  assert (ws = ([n] ++ av ++ [0] ++ ev ++ [0]) ++ aux ++ pad) as W5 by (unfold ws; by rewrite <- !app_assoc).
  split_and!; [done|intros i w Hi|rewrite W2, (Hs _ _ _ 0%nat)|intros i w Hi; rewrite W3, (Hs _ _ _ i)|rewrite W4, (Hs _ _ _ 0%nat)|
    intros i w Hi; rewrite W5, (Hs _ _ _ i)]; try done; try (by apply lookup_app_l_Some); rewrite ?length_app; cbn [length]; try lia.
  unfold ws. rewrite (Hs [n] _ _ i) by done. by apply lookup_app_l_Some.
Qed.

Section build.
Variables (page : bytes) (top : Z) (argv envp : list bytes) (phdr_vaddr count entry : Z).
Hypothesis Hpage : size page = 4096.
Hypothesis Htop : 0 <= top /\ top + 4096 < 2 ^ 64.
Hypothesis Haux : Forall (in_width 64) [phdr_vaddr; count; entry].

Let content_top := 4096 - strings_bytes argv envp.
Let argv_at := content_top + total envp.
Let frame_top := align_down 4 content_top.
Let rsp := frame_top - frame_slots argv envp * 8.
Let pad := if slots argv envp mod 2 =? 0 then [] else [0].
Let words := [Z.of_nat (length argv)] ++ (Z.add top <$> starts argv_at argv) ++ [0] ++ (Z.add top <$> starts content_top envp) ++ [0] ++
  auxv phdr_vaddr count entry ++ pad.
Let strings := over content_top (encoded envp ++ encoded argv) page.

Lemma length_words : Z.of_nat (length words) = frame_slots argv envp.
Proof.
  unfold words, frame_slots, pad, auxv. rewrite !length_app, !length_fmap, !length_starts. cbn [length]. unfold slots, AUXV_PAIRS.
  case_match; cbn [length]; lia.
Qed.

Lemma layout : fits argv envp = true -> 0 <= rsp /\ rsp + 8 * Z.of_nat (length words) = frame_top /\ frame_top <= content_top /\
  content_top + total envp + total argv = 4096 /\ (rsp mod 16 = 0).
Proof.
  intros Hf%Z.leb_le. rewrite length_words. unfold rsp, frame_top, content_top. rewrite strings_bytes_eq in *.
  pose proof (align_down_bounds 4 (4096 - (total argv + total envp)) ltac:(lia)) as Hb. change (2 ^ 4) with 16 in Hb.
  pose proof (align_down_mod 4 (4096 - (total argv + total envp)) ltac:(lia)) as Hm. change (2 ^ 4) with 16 in Hm.
  split_and!; try lia. assert (frame_slots argv envp mod 2 = 0) as He.
  { unfold frame_slots. destruct (Z.eqb_spec (slots argv envp mod 2) 0); [done|]. Z.to_euclidean_division_equations. lia. }
  Z.to_euclidean_division_equations. lia.
Qed.

Lemma build_ok : build_initial_stack page top argv envp phdr_vaddr count entry =
  if fits argv envp then Ok (over rsp (words_bytes words) strings, inl (top + rsp)) else Ok (page, inr too_large).
Proof.
  unfold build_initial_stack.
  replace (if negb (slots argv envp mod 2 =? 0) then slots argv envp + 1 else slots argv envp) with (frame_slots argv envp) by (unfold frame_slots; by destruct (_ =? 0)).
  destruct (fits argv envp) eqn:Hf; [|apply Z.leb_gt in Hf; by rewrite (proj2 (Z.ltb_lt _ _)) by lia].
  pose proof (layout Hf) as (L1 & L2 & L3 & L4 & _). pose proof Hf as Hf'%Z.leb_le. pose proof (total_nonneg argv). pose proof (total_nonneg envp).
  rewrite length_words in L2. assert (0 <= content_top) as Hct by (pose proof length_words; lia).
  rewrite (proj2 (Z.ltb_ge _ _)) by lia. fold content_top. rewrite place_strings_ok by lia. cbn [mbind outcome_bind].
  rewrite place_strings_ok by (rewrite ?size_over; unfold total in *; lia). cbn [mbind outcome_bind].
  fold argv_at frame_top rsp. rewrite (proj2 (Z.ltb_ge _ _)) by lia.
  assert (over argv_at (encoded argv) (over content_top (encoded envp) page) = strings) as -> by (apply over_app; unfold total in *; lia).
  assert (size strings = 4096) as Hss by (unfold strings; rewrite size_over; rewrite ?size_app; unfold total in *; lia).
  assert ((if negb (slots argv envp mod 2 =? 0) then [0] else []) = pad) as -> by (unfold pad; by destruct (_ =? 0)).
  fold (auxv phdr_vaddr count entry). fold words. rewrite put_words_ok by (pose proof length_words; lia). cbn [mbind outcome_bind].
  rewrite chk_ok by (pose proof length_words; lia). done.
Qed.

Lemma words_width : fits argv envp = true -> Forall (in_width 64) words.
Proof.
  intros Hf. pose proof (layout Hf) as (L1 & L2 & L3 & L4 & _). pose proof (total_nonneg argv). pose proof (total_nonneg envp).
  assert (forall c strs, 0 <= c -> c + total strs <= 4096 -> Forall (in_width 64) (Z.add top <$> starts c strs)) as Hst.
  { intros c strs Hc Ht. apply Forall_fmap, Forall_forall. intros a Ha%starts_bound. unfold in_width, compose. lia. }
  destruct (frame_slots_bound argv envp).
  assert (frame_slots argv envp < 4096) by (apply Z.leb_le in Hf; rewrite strings_bytes_eq in Hf; lia).
  unfold words, auxv, pad. apply Forall_cons in Haux as [Ha1 [Ha2 [Ha3 _]%Forall_cons]%Forall_cons].
  rewrite !Forall_app, !Forall_cons. pose proof length_words.
  split_and!; try (apply Hst; unfold argv_at; lia); try (apply Forall_nil_2); try done; try (unfold in_width; lia).
  case_match; [apply Forall_nil_2|]. by repeat constructor.
Qed.

(** What the start-up code finds. *)
Lemma stack_read : fits argv envp = true ->
  stack_holds (over rsp (words_bytes words) strings) top rsp argv envp (auxv phdr_vaddr count entry).
Proof.
  intros Hf. pose proof (layout Hf) as (L1 & L2 & L3 & L4 & _). pose proof (total_nonneg argv). pose proof (total_nonneg envp).
  assert (0 <= content_top) as Hct by lia.
  assert (size strings = 4096) as Hss by (unfold strings; rewrite size_over; rewrite ?size_app; unfold total in *; lia).
  assert (forall (i : nat) w, words !! i = Some w -> word (over rsp (words_bytes words) strings) (rsp + 8 * Z.of_nat i) = w) as Hw.
  { intros i w. apply word_written; [lia|lia|by apply words_width]. }
  assert (forall c strs (i : nat) s, c + total strs <= 4096 -> content_top <= c -> over c (encoded strs) strings = strings -> strs !! i = Some s ->
    exists a, starts c strs !! i = Some a /\ string_at (over rsp (words_bytes words) strings) a s) as Hstr.
  { intros c strs i s Hc Hc' Hsame Hi. destruct (string_written strs c strings i s ltac:(lia) ltac:(lia) Hi) as (a & E & H1 & H2 & H3).
    exists a. split; [done|]. pose proof (size_nonneg s). split; [lia|]. rewrite size_over by (rewrite ?size_words; lia).
    split; [lia|]. rewrite sub_over_ne by (rewrite ?size_words; lia). by rewrite <- Hsame. }
  assert (strings = over argv_at (encoded argv) (over content_top (encoded envp) page)) as Hsplit by (symmetry; apply over_app; unfold total in *; lia).
  assert (over argv_at (encoded argv) strings = strings) as HA.
  { apply over_same; [unfold argv_at; lia|unfold argv_at, total in *; lia|]. rewrite Hsplit.
    apply sub_over_eq; [unfold argv_at; lia|done|]. rewrite size_over; unfold argv_at, total in *; lia. }
  assert (over content_top (encoded envp) strings = strings) as HE.
  { apply over_same; [lia|unfold total in *; lia|]. rewrite Hsplit. pose proof (size_nonneg (encoded envp)).
    rewrite sub_over_ne by (rewrite ?size_over; unfold argv_at, total in *; lia). apply sub_over_eq; unfold total in *; lia. }
  destruct (words_lookup (Z.of_nat (length argv)) (Z.add top <$> starts argv_at argv) (Z.add top <$> starts content_top envp)
    (auxv phdr_vaddr count entry) pad) as (W0 & W1 & W2 & W3 & W4 & W5).
  assert (length (Z.add top <$> starts argv_at argv) = length argv) as La by (by rewrite length_fmap, length_starts).
  assert (length (Z.add top <$> starts content_top envp) = length envp) as Le by (by rewrite length_fmap, length_starts).
  rewrite La in W2, W3, W4, W5. rewrite Le in W4, W5.
  split.
  - rewrite <- (Hw 0%nat _ W0). f_equal. lia.
  - intros i s Hi. destruct (Hstr argv_at argv i s) as (a & Ea & Hs); [unfold argv_at; lia|unfold argv_at; lia|done|done|]. exists a. split; [|done].
    rewrite <- (Hw (1 + i)%nat (top + a)); [f_equal; lia|]. apply W1. by rewrite list_lookup_fmap, Ea.
  - etrans; [|exact (Hw _ _ W2)]. f_equal. lia.
  - intros i s Hi. destruct (Hstr content_top envp i s) as (a & Ea & Hs); [lia|lia|done|done|]. exists a. split; [|done].
    rewrite <- (Hw (2 + length argv + i)%nat (top + a)); [f_equal; lia|]. apply W3. by rewrite list_lookup_fmap, Ea.
  - etrans; [|exact (Hw _ _ W4)]. f_equal. lia.
  - intros i w Hi. rewrite <- (Hw _ _ (W5 _ _ Hi)). f_equal. lia.
Qed.

End build.

Lemma initial_stack_ok page top argv envp phdr_vaddr count entry :
  size page = 4096 -> 0 <= top -> top + 4096 < 2 ^ 64 -> Forall (in_width 64) [phdr_vaddr; count; entry] ->
  exists page' r, build_initial_stack page top argv envp phdr_vaddr count entry = Ok (page', r) /\ size page' = 4096 /\
    match r with
    | inl v => fits argv envp = true /\ exists rsp, v = top + rsp /\ 0 <= rsp < 4096 /\ rsp mod 16 = 0 /\
        stack_holds page' top rsp argv envp (auxv phdr_vaddr count entry)
    | inr e => fits argv envp = false /\ e = too_large /\ page' = page
    end.
Proof.
  intros Hp Ht1 Ht2 Ha. rewrite (build_ok page top argv envp phdr_vaddr count entry Hp (conj Ht1 Ht2)). destruct (fits argv envp) eqn:Hf; [|by eexists _, _].
  destruct (layout top argv envp phdr_vaddr count entry Hf) as (L1 & L2 & L3 & L4 & L5). eexists _, _. split; [done|]. split_and!; [|done|].
  - pose proof (total_nonneg argv). pose proof (total_nonneg envp).
    rewrite size_over; rewrite ?size_words; [|lia|]; (rewrite size_over; rewrite ?size_app; unfold total in *; lia).
  - eexists. split; [done|]. split_and!; [lia| |done|by apply stack_read]. pose proof (length_words top argv envp phdr_vaddr count entry) as Hl.
    pose proof (total_nonneg argv). pose proof (total_nonneg envp). destruct (frame_slots_bound argv envp). lia.
Qed.
End ElfStack.
