(* ===== verification/ElfInv.v ===== *)
(** What the ELF loader does to memory: the bytes each address of the new
    program shows, and that nothing else changes. *)

From Stdlib Require Import ZArith Lia.
From stdpp Require Import base numbers gmap strings list.
From S2P Require Import Prelude Bits Buddy Frames Vma Paging PagingInv Bytes Elf ElfLoader.

Local Open Scope list_scope.
Local Open Scope Z_scope.

Module ElfInv.
Import Vma Paging PagingInv Bytes Elf ElfLoader.

Lemma lookup_total_le (l : bytes) (i : Z) b : l !! Z.to_nat i = Some b -> l !!! Z.to_nat i = b.
Proof. apply list_lookup_total_correct. Qed.

Section loader.
Context {PT A : Type} `{Mapper PT A}.
Implicit Types m : @MM PT A.

(** ** An address space that shares nothing *)

Record owned m (sp : Z) : Prop := {
  ow_private : forall p f fl, entry m sp p = Some (f, fl) ->
    f <> zero_phys m /\ forall sp' p' fl', entry m sp' p' = Some (f, fl') -> sp' = sp /\ p' = p;
  ow_huge : forall q, entry2m m sp q = None;
}.

(** [m'] is [m] with pages of [sp] changed. *)
Record grows m m' (sp : Z) : Prop := {
  g_ok : mm_ok m';
  g_owned : owned m' sp;
  g_view : forall sp' x, sp' <> sp -> view m' sp' x = view m sp' x;
  g_vmas : vmas (space m' sp) = vmas (space m sp);
}.

Lemma space_grows_refl m sp : mm_ok m -> owned m sp -> grows m m sp.
Proof. by split. Qed.

Lemma space_grows_trans m1 m2 m3 sp : grows m1 m2 sp -> grows m2 m3 sp -> grows m1 m3 sp.
Proof.
  intros [A1 A2 A3 A4] [B1 B2 B3 B4]. split; [done|done| |by rewrite B4]. intros sp' x Hne. by rewrite B3, A3.
Qed.

Lemma owned_quiet m m' sp : quiet m m' -> owned m sp -> owned m' sp.
Proof.
  intros (He & He2 & _ & _ & Hz & _) [O1 O2]. split; [|intros q; by rewrite He2].
  intros q f gl. rewrite He, Hz. intros Hf. destruct (O1 _ _ _ Hf) as [? Hu]. split; [done|]. intros sp' p' fl'. rewrite He. apply Hu.
Qed.

Lemma page_of_page x : page_of (page_of x) = page_of x.
Proof. unfold page_of, align_down. rewrite Z.ldiff_ldiff_l. f_equal. Qed.

(** Bytes written inside a frame of its own. *)
Lemma write_owned m sp p f fl o bs : mm_ok m -> owned m sp -> entry m sp p = Some (f, fl) -> 0 <= o -> o + size bs <= 4096 ->
  let m' := m <| phys := write_bytes (phys m) (f + o) bs |> in
  grows m m' sp /\ (forall q, entry m' sp q = entry m sp q) /\
  forall x, view m' sp x = if decide (page_of x = p /\ o <= x mod 4096 < o + size bs) then bs !! Z.to_nat (x mod 4096 - o) else view m sp x.
Proof.
  intros Hm Ho He Hpos Hlen m'. destruct (ow_private _ _ Ho _ _ _ He) as [Hz Hu]. destruct (ok_frame _ Hm _ _ _ _ He) as [Hlow Htk].
  pose proof (size_nonneg bs) as Hs. unfold size in *.
  assert (forall x, ~ in_frame 12 f x -> write_bytes (phys m) (f + o) bs !! x = phys m !! x) as Hout.
  { intros x Hx. apply write_bytes_lookup_ne. unfold in_frame in Hx. rewrite pow12 in Hx. lia. }
  assert (forall sp' x, ~ (sp' = sp /\ page_of x = p) -> view m' sp' x = view m sp' x) as Helse.
  { intros sp' x Hne. unfold view. change (locate m' sp' x) with (locate m sp' x). destruct (locate m sp' x) as [[a w]|] eqn:Hl; [|done].
    cbn. f_equal. unfold read_byte. rewrite Hout; [done|]. intros Hin. destruct (locate_in m sp' x a w Hl) as [(g & gl & Hg & Hga & _)|(g & gl & _ & Hg & Hga)].
    - assert (g <> f) as Hgf by (intros ->; apply Hne; destruct (Hu _ _ _ Hg); done).
      destruct (ok_frame _ Hm _ _ _ _ Hg) as [Hlg _]. by apply (apart_frame _ _ _ _ a (frames_apart f g Hlow Hlg ltac:(congruence)) Hin).
    - destruct (ok_huge _ Hm _ _ _ _ Hg) as (_ & _ & _ & Hap & _). by apply (apart_frame _ _ _ _ a (Hap _ _ _ _ He) Hga). }
  split_and!; [|done|].
  - split; [|destruct Ho; by split| |done].
    + by apply (mm_ok_phys m m' f (write_bytes (phys m) (f + o) bs) Hm).
    + intros sp' x Hne. apply Helse. by intros [? _].
  - intros x. destruct (decide (page_of x = p)) as [Hx|Hx]; [|rewrite decide_False by tauto; apply Helse; tauto].
    rewrite (view_entry m' sp x f fl), (view_entry m sp x f fl) by (by rewrite Hx). cbn [m' phys update_field].
    destruct (decide (o <= x mod 4096 < o + Z.of_nat (length bs))) as [Hr|Hr].
    + rewrite decide_True by done. destruct (lookup_lt_is_Some_2 bs (Z.to_nat (x mod 4096 - o)) ltac:(lia)) as [b Hb]. rewrite Hb. f_equal. unfold read_byte.
      replace (f + x mod 4096) with (f + o + Z.of_nat (Z.to_nat (x mod 4096 - o))) by lia. by rewrite (write_bytes_lookup _ _ _ _ b Hb).
    + rewrite decide_False by tauto. f_equal. unfold read_byte. by rewrite write_bytes_lookup_ne by lia.
Qed.

(** ** New pages *)

Lemma map_page_vmas m sp p f fl err m' r : map_page m sp p f fl err = Ok (m', r) -> forall sp', vmas (space m' sp') = vmas (space m sp').
Proof.
  unfold map_page. destruct (map_to _ _ _ _ _) as [[[pt a] ok]|[]|]; cbn [mbind outcome_bind]; [|done]. intros E sp'.
  assert (m' = set_table (m <| frames := a |>) sp pt) as -> by (destruct ok; by injection E). unfold set_table. rewrite space_set.
  by destruct (decide (sp = sp')) as [<-|].
Qed.

Lemma map_user_page_ok m sp p fl : mm_ok m -> owned m sp ->
  exists m' r, map_user_page m sp p fl = Ok (m', r) /\ grows m m' sp /\
    match r with
    | inl f => entry m sp p = None /\ entry m' sp p = Some (f, fl) /\ (forall q, q <> p -> entry m' sp q = entry m sp q) /\
        forall x, page_of x <> p -> view m' sp x = view m sp x
    | inr _ => True
    end.
Proof.
  intros Hm Ho. unfold map_user_page. destruct (alloc_frame_spec m 12 Hm ltac:(by split)) as (m1 & r1 & -> & Hm1 & Hq & Hsp & Hr). cbn [mbind outcome_bind fst snd].
  destruct r1 as [f|]; cycle 1.
  { eexists _, _. split; [done|]. split; [|done]. split; [done|by apply (owned_quiet m)|intros; by apply view_quiet|by rewrite Hsp]. }
  destruct (set_ref_fresh m1 f 1 Hm1 Hr ltac:(lia)) as [Hm2 Hf2]. set (m2 := set_ref m1 f 1) in *. destruct (set_ref_rest m1 f 1) as (Se & Se2 & Sa & Sp & Sz & Ss).
  destruct (map_page_spec m2 sp p f fl "map_to" (ok_source _ Hm2)) as (m3 & r3 & E3 & Hr3). rewrite E3. unfold try_.
  pose proof (map_page_vmas _ _ _ _ _ _ _ _ E3) as Hv.
  assert (vmas (space m3 sp) = vmas (space m sp)) as Hv3.
  { rewrite Hv. unfold space, m2. rewrite Ss. change (vmas (space m1 sp) = vmas (space m sp)). by rewrite Hsp. }
  assert (owned m2 sp) as Ho2.
  { destruct (owned_quiet m m1 sp Hq Ho) as [O1 O2]. split; unfold m2; rewrite ?Se, ?Se2, ?Sz; done. }
  assert (forall sp' x, view m2 sp' x = view m sp' x) as Hview by (intros; unfold m2; rewrite view_set_ref; by apply view_quiet).
  destruct r3 as [u|e].
  - destruct Hr3 as [[Hnone _] Hc]. eexists _, _. split; [done|]. split; [split|split_and!].
    + apply (map_fresh m2 m3 sp p f fl Hm2 Hf2 Hnone Hc). unfold m2. rewrite get_set_ref by apply Hr. by rewrite decide_True.
    + split; [|intros q; rewrite (ch_huge _ _ _ _ _ Hc); apply Ho2]. intros q g gl. rewrite (ch_entry _ _ _ _ _ Hc), (ch_zero _ _ _ _ _ Hc).
      case_decide as Hd; [destruct Hd as [_ ->]; intros [= <- <-]|intros Hg].
      * split; [by apply fresh_not_zero|]. intros sp' p' fl'. rewrite (ch_entry _ _ _ _ _ Hc). case_decide; [done|]. intros Hx. by destruct (fresh_unmapped m2 f sp' p' fl').
      * destruct (ow_private _ _ Ho2 _ _ _ Hg) as [Hgz Hgu]. split; [done|]. intros sp' p' fl'. rewrite (ch_entry _ _ _ _ _ Hc).
        case_decide as Hd'; [|apply Hgu]. intros [= -> ->]. by destruct (fresh_unmapped m2 g sp q gl).
    + intros sp' x Hne. rewrite (view_changed_ne m2 m3 sp p _ sp' x Hc) by (by intros [? _]). apply Hview.
    + done.
    + unfold m2 in Hnone. rewrite Se in Hnone. destruct Hq as (Hqe & _). by rewrite Hqe in Hnone.
    + by apply (changed_eq m2 m3 sp p).
    + intros q Hq'. rewrite (changed_ne m2 m3 sp p _ sp q Hc) by (by intros [_ ?]). unfold m2. rewrite Se. apply Hq.
    + intros x Hx. rewrite (view_changed_ne m2 m3 sp p _ sp x Hc) by (by intros [_ ?]). apply Hview.
  - destruct Hr3 as [_ Hq3]. eexists _, _. split; [done|]. split; [|done]. split; [by apply (quiet_ok m2)|by apply (owned_quiet m2)| |done].
    intros sp' x Hne. rewrite (view_quiet m2 m3 sp' x Hq3). apply Hview.
Qed.

(** ** Segments *)

(** The byte of the file at the address [x], and where the file's bytes go. *)
Definition in_file (ph : Elf64ProgramHeader) (x : Z) : Prop := p_vaddr ph <= x < p_vaddr ph + p_filesz ph.
#[global] Instance in_file_dec ph x : Decision (in_file ph x).
Proof. unfold in_file. apply _. Defined.

Lemma land_page x : Z.land x 4095 = x mod 4096.
Proof. change 4095 with (Z.ones 12). by rewrite Z.land_ones by lia. Qed.

Lemma page_start x : page_of x = x - x mod 4096.
Proof. pose proof (page_split x). lia. Qed.

Lemma page_range x p : p mod 4096 = 0 -> page_of x = p <-> p <= x < p + 4096.
Proof. rewrite page_start. intros Hp. Z.to_euclidean_division_equations. lia. Qed.

(** The part of the file that goes into the page [p]. *)
Lemma page_data_ok ph fd idx p : 0 <= p_filesz ph -> size fd = p_filesz ph -> 0 <= idx -> p = page_of (p_vaddr ph) + idx * 4096 ->
  match page_data ph fd idx p with
  | Some (o, bs) => 0 <= o /\ o + size bs <= 4096 /\ forall x, page_of x = p ->
      (o <= x mod 4096 < o + size bs <-> in_file ph x) /\ (in_file ph x -> bs !! Z.to_nat (x mod 4096 - o) = fd !! Z.to_nat (x - p_vaddr ph))
  | None => forall x, page_of x = p -> ~ in_file ph x
  end.
Proof.
  intros Hf Hfd Hi Hp. unfold page_data, in_file. rewrite land_page. rewrite page_start in Hp. pose proof (mod_page (p_vaddr ph)) as Hm.
  set (o := if idx =? 0 then p_vaddr ph mod 4096 else 0). set (st := if p_vaddr ph <=? p then p - p_vaddr ph else 0).
  assert (0 <= o < 4096 /\ 0 <= st /\ p + o = p_vaddr ph + st /\ (0 < o -> st = 0)) as (Ho & Hst & Hpos & Hzero).
  { unfold o, st. destruct (Z.eqb_spec idx 0), (Z.leb_spec (p_vaddr ph) p); lia. }
  assert (forall x, page_of x = p -> x mod 4096 = x - p /\ p <= x < p + 4096) as Hx.
  { intros x Hx. pose proof (page_split x). pose proof (mod_page x). lia. }
  destruct (Z.ltb_spec st (p_filesz ph)) as [Hlt|Hge]; cycle 1.
  { intros x Hpx Hin. destruct (Hx x Hpx). destruct (Z.ltb_spec 0 o); lia. }
  rewrite Z.max_r by lia. rewrite (proj2 (Z.ltb_lt 0 _)) by lia. rewrite (proj2 (Z.ltb_lt st _)) by lia. cbn [andb].
  rewrite (Z.min_l _ (size fd - st)) by lia. rewrite size_sub by lia. split_and!; [lia|lia|]. intros x Hpx. destruct (Hx x Hpx) as [-> Hr]. split.
  - destruct (Z.ltb_spec 0 o); lia.
  - intros Hin. assert (o <= x - p) by (destruct (Z.ltb_spec 0 o); lia). rewrite lookup_sub by lia. f_equal. lia.
Qed.

(** What an address of a loaded page shows. *)
Definition loaded_byte (ph : Elf64ProgramHeader) (fd : bytes) (x : Z) (old : option Z) : Z :=
  if decide (in_file ph x) then fd !!! Z.to_nat (x - p_vaddr ph) else default 0 old.

Lemma write_zeros m sp p f fl : mm_ok m -> owned m sp -> entry m sp p = Some (f, fl) ->
  grows m (zero_page m f 4096) sp /\ (forall q, entry (zero_page m f 4096) sp q = entry m sp q) /\
  forall x, view (zero_page m f 4096) sp x = if decide (page_of x = p) then Some 0 else view m sp x.
Proof.
  intros Hm Ho He. destruct (write_owned m sp p f fl 0 (replicate 4096 0) Hm Ho He) as (Hg & Hent & Hv); [lia|unfold size; rewrite length_replicate; lia|].
  rewrite Z.add_0_r in Hg, Hent, Hv. split_and!; [done|done|]. intros x. unfold zero_page. rewrite Hv. pose proof (mod_page x).
  assert (size (replicate 4096 0) = 4096) as -> by (unfold size; by rewrite length_replicate).
  destruct (decide (page_of x = p)); [|by rewrite decide_False by tauto]. rewrite decide_True by (split; [done|lia]).
  apply lookup_replicate. split; [done|]. lia.
Qed.

(** One page. *)
Lemma load_page_ok m sp ph fd fl idx p : mm_ok m -> owned m sp -> 0 <= p_filesz ph -> size fd = p_filesz ph -> 0 <= idx ->
  p = page_of (p_vaddr ph) + idx * 4096 ->
  exists m1 r, or_err match translate_page m sp p with
               | Some existing => Ok (m, inl (existing, false))
               | None => try_ (map_user_page m sp p fl) (fun m f => Ok (m, inl (f, true)))
               end "ELF loader: failed to map page" (fun m r =>
             let m := if r.2 : bool then zero_page m r.1 4096 else m in
             Ok (match page_data ph fd idx p with
                 | Some (o, bs) => m <| phys := write_bytes (phys m) (r.1 + o) bs |>
                 | None => m
                 end, inl ())) = Ok (m1, r) /\ grows m m1 sp /\
    (r = inl () -> forall x, view m1 sp x = if decide (page_of x = p) then Some (loaded_byte ph fd x (view m sp x)) else view m sp x).
Proof.
  intros Hm Ho Hf Hfd Hi Hp.
  assert (forall m2 f fl2, mm_ok m2 -> owned m2 sp -> entry m2 sp p = Some (f, fl2) ->
    let m3 := match page_data ph fd idx p with Some (o, bs) => m2 <| phys := write_bytes (phys m2) (f + o) bs |> | None => m2 end in
    grows m2 m3 sp /\ forall x, view m3 sp x = if decide (page_of x = p /\ in_file ph x) then fd !! Z.to_nat (x - p_vaddr ph) else view m2 sp x) as Hwrite.
  { intros m2 f fl2 Hm2 Ho2 He2. pose proof (page_data_ok ph fd idx p Hf Hfd Hi Hp) as Hpd. destruct (page_data ph fd idx p) as [[o bs]|]; cycle 1.
    - split; [by apply space_grows_refl|]. intros x. rewrite decide_False; [done|]. intros [? ?]. by apply (Hpd x).
    - destruct Hpd as (H1 & H2 & H3). destruct (write_owned m2 sp p f fl2 o bs Hm2 Ho2 He2 H1 H2) as (Hg & _ & Hv). split; [done|].
      intros x. rewrite Hv. destruct (decide (page_of x = p)) as [Hx|Hx]; [|by rewrite !decide_False by tauto].
      destruct (H3 x Hx) as [Hiff Hb]. destruct (decide (in_file ph x)) as [Hin|Hin]; [rewrite !decide_True by tauto; by apply Hb|by rewrite !decide_False by tauto]. }
  assert (forall x, in_file ph x -> Some (loaded_byte ph fd x (view m sp x)) = fd !! Z.to_nat (x - p_vaddr ph)) as Hbyte.
  { intros x Hin. unfold loaded_byte. rewrite decide_True by done. symmetry. apply list_lookup_lookup_total_lt. unfold in_file, size in *. lia. }
  destruct (translate_page m sp p) as [f|] eqn:Ht.
  - unfold translate_page in Ht. destruct (entry m sp p) as [[g gl]|] eqn:He; [|done]. injection Ht as ->. cbn [or_err fst snd].
    destruct (Hwrite m f gl Hm Ho He) as [Hg Hv]. eexists _, _. split; [done|]. split; [done|]. intros _ x. rewrite Hv.
    destruct (decide (page_of x = p)) as [Hx|Hx]; [|by rewrite decide_False by tauto].
    destruct (decide (in_file ph x)) as [Hin|Hin]; [rewrite decide_True by done; by rewrite Hbyte|]. rewrite decide_False by tauto.
    unfold loaded_byte. rewrite decide_False by done. rewrite (view_entry m sp x f gl) by (by rewrite Hx). done.
  - destruct (map_user_page_ok m sp p fl Hm Ho) as (m1 & r & -> & Hg & Hr). destruct r as [f|e]; cbn [try_ or_err fst snd]; [|by eexists _, _].
    destruct Hr as (Hnone & He & Hq & Hv1). destruct (write_zeros m1 sp p f fl (g_ok _ _ _ Hg) (g_owned _ _ _ Hg) He) as (Hg2 & He2 & Hv2).
    destruct (Hwrite (zero_page m1 f 4096) f fl (g_ok _ _ _ Hg2) (g_owned _ _ _ Hg2)) as [Hg3 Hv3]; [by rewrite He2|].
    eexists _, _. split; [done|]. split; [by eapply space_grows_trans; [exact Hg|]; eapply space_grows_trans; [exact Hg2|]|]. intros _ x. rewrite Hv3, Hv2.
    destruct (decide (page_of x = p)) as [Hx|Hx]; [|rewrite decide_False by tauto; by apply Hv1].
    destruct (decide (in_file ph x)) as [Hin|Hin]; [rewrite decide_True by done; by rewrite Hbyte|]. rewrite decide_False by tauto.
    unfold loaded_byte. rewrite decide_False by done. rewrite (view_none m sp x); [done|by rewrite Hx|apply Ho].
Qed.

(** The rest of the loop runs after the page. *)
Lemma load_pages_step n ph fd start fl idx m sp p : 0 <= idx -> start + idx * 4096 = p -> 0 <= start -> 0 <= p < 2 ^ 47 ->
  load_pages (S n) ph fd start fl idx m sp =
    try_ (or_err match translate_page m sp p with
               | Some existing => Ok (m, inl (existing, false))
               | None => try_ (map_user_page m sp p fl) (fun m f => Ok (m, inl (f, true)))
               end "ELF loader: failed to map page" (fun m r =>
             let m := if r.2 : bool then zero_page m r.1 4096 else m in
             Ok (match page_data ph fd idx p with
                 | Some (o, bs) => m <| phys := write_bytes (phys m) (r.1 + o) bs |>
                 | None => m
                 end, inl ()))) (fun m _ => load_pages n ph fd start fl (idx + 1) m sp).
Proof.
  intros Hi Hp Hs Hlt. cbn [load_pages]. rewrite !chk_ok by lia. cbn [mbind outcome_bind]. rewrite chk_ok by lia. cbn [mbind outcome_bind]. rewrite Hp.
  unfold virt_addr, canonical. rewrite (proj2 (Z.ltb_lt p (2 ^ 47))) by lia. cbn [orb mbind outcome_bind].
  destruct (match translate_page m sp p with Some _ => _ | None => _ end) as [[m1 [[f b]|e]]|[]|]; done.
Qed.

Lemma load_pages_ok ph fd fl sp : 0 <= p_vaddr ph -> 0 <= p_filesz ph -> size fd = p_filesz ph -> forall (n : nat) idx m, 0 <= idx ->
  page_of (p_vaddr ph) + (idx + Z.of_nat n) * 4096 <= 2 ^ 47 -> mm_ok m -> owned m sp ->
  exists m' r, load_pages n ph fd (page_of (p_vaddr ph)) fl idx m sp = Ok (m', r) /\ grows m m' sp /\
    (r = inl () -> forall x, view m' sp x =
       if decide (page_of (p_vaddr ph) + idx * 4096 <= x < page_of (p_vaddr ph) + (idx + Z.of_nat n) * 4096)
       then Some (loaded_byte ph fd x (view m sp x)) else view m sp x).
Proof.
  intros Hva Hf Hfd. assert (page_of (p_vaddr ph) mod 4096 = 0) as Hal by (apply (align_down_mod 12); lia).
  assert (0 <= page_of (p_vaddr ph)) as Hge by (rewrite page_start; pose proof (Z.mod_le (p_vaddr ph) 4096 Hva ltac:(lia)); lia).
  induction n as [|n IH]; intros idx m Hi Hend Hm Ho.
  - eexists _, _. split; [done|]. split; [by apply space_grows_refl|]. intros _ x. by rewrite decide_False by lia.
  - set (p := page_of (p_vaddr ph) + idx * 4096) in *. rewrite (load_pages_step n ph fd _ fl idx m sp p) by lia.
    destruct (load_page_ok m sp ph fd fl idx p Hm Ho Hf Hfd Hi eq_refl) as (m1 & r & -> & Hg & Hr). destruct r as [[]|e]; cbn [try_]; [|by eexists _, _].
    destruct (IH (idx + 1) m1) as (m2 & r2 & -> & Hg2 & Hr2); [lia|lia|apply Hg|apply Hg|]. eexists _, _. split; [done|]. split; [by apply (space_grows_trans m m1)|].
    intros -> x. rewrite Hr2, Hr by done. assert (p mod 4096 = 0) as Hpm by (unfold p; rewrite Z.mod_add by lia; done).
    pose proof (page_range x p Hpm) as Hx. replace (page_of (p_vaddr ph) + (idx + 1) * 4096) with (p + 4096) by lia.
    destruct (decide (page_of x = p)) as [Hy|Hy].
    + apply Hx in Hy. rewrite decide_False by lia. rewrite decide_True by lia. done.
    + assert (~ (p <= x < p + 4096)) by tauto. destruct (decide (p + 4096 <= x < page_of (p_vaddr ph) + (idx + 1 + Z.of_nat n) * 4096)); [rewrite decide_True by lia|rewrite decide_False by lia]; done.
Qed.

(** A segment a program may have: in the lower half, its file part no longer
    than its memory part. *)
Record user_segment (ph : Elf64ProgramHeader) : Prop := {
  us_vaddr : 0 <= p_vaddr ph;
  us_memsz : 0 <= p_memsz ph;
  us_end : p_vaddr ph + p_memsz ph <= 2 ^ 47;
  us_filesz : 0 <= p_filesz ph <= p_memsz ph;
  us_offset : 0 <= p_offset ph < 2 ^ 64;
}.

Definition seg_end (ph : Elf64ProgramHeader) : Z := align_down 12 (p_vaddr ph + p_memsz ph + 4095).

(** The addresses of its pages. *)
Definition in_pages (ph : Elf64ProgramHeader) (x : Z) : Prop := p_memsz ph <> 0 /\ page_of (p_vaddr ph) <= x < seg_end ph.
#[global] Instance in_pages_dec ph x : Decision (in_pages ph x).
Proof. unfold in_pages. apply _. Defined.

Lemma seg_end_bounds ph : user_segment ph -> p_vaddr ph + p_memsz ph <= seg_end ph <= 2 ^ 47 /\ (seg_end ph - page_of (p_vaddr ph)) mod 4096 = 0 /\
  (p_memsz ph <> 0 -> page_of (p_vaddr ph) < seg_end ph).
Proof.
  intros [U1 U2 U3 U4 U5]. pose proof (page_start (p_vaddr ph)) as Hp. pose proof (page_start (p_vaddr ph + p_memsz ph + 4095)) as He. unfold seg_end.
  change (align_down 12 (p_vaddr ph + p_memsz ph + 4095)) with (page_of (p_vaddr ph + p_memsz ph + 4095)). rewrite Hp, He.
  assert (2 ^ 47 mod 4096 = 0) as H47 by done. Z.to_euclidean_division_equations. lia.
Qed.

Definition vma_of (ph : Elf64ProgramHeader) : Vma :=
  mkVma (page_of (p_vaddr ph)) ((seg_end ph - page_of (p_vaddr ph)) / 4096) (elf_flags_to_page_flags (p_flags ph))
    (if negb (Z.land (p_flags ph) PF_X =? 0) then Code else Anonymous).

(** What an address shows after a segment. *)
Definition after_segment (elf : Elf64) (ph : Elf64ProgramHeader) (x : Z) (old : option Z) : option Z :=
  if decide (in_pages ph x) then Some (loaded_byte ph (sub (p_offset ph) (p_filesz ph) (data elf)) x old) else old.

Lemma set_vmas_grows m sp l : mm_ok m -> owned m sp -> mm_ok (set_vmas m sp l) /\ owned (set_vmas m sp l) sp /\ forall sp' x, view (set_vmas m sp l) sp' x = view m sp' x.
Proof.
  intros Hm Ho. pose proof (vmas_quiet m sp l Hm) as Hq. split_and!; [by apply (quiet_ok m)|by apply (owned_quiet m)|intros; by apply view_quiet].
Qed.

(** [m'] is [m] with pages and areas of [sp] changed. *)
Record builds m m' (sp : Z) : Prop := {
  b_ok : mm_ok m';
  b_owned : owned m' sp;
  b_view : forall sp' x, sp' <> sp -> view m' sp' x = view m sp' x;
}.

Lemma grows_builds m m' sp : grows m m' sp -> builds m m' sp.
Proof. by intros []. Qed.

Lemma builds_trans m1 m2 m3 sp : builds m1 m2 sp -> builds m2 m3 sp -> builds m1 m3 sp.
Proof. intros [A1 A2 A3] [B1 B2 B3]. split; [done|done|]. intros sp' x Hne. by rewrite B3, A3. Qed.

Lemma add_vma_ok m sp v : mm_ok m -> owned m sp -> exists m' r, add_vma m sp v = Ok (m', r) /\ builds m m' sp /\ (forall x, view m' sp x = view m sp x) /\
  (forall q, entry m' sp q = entry m sp q) /\ (r = inl () -> add (vmas (space m sp)) v = Some (vmas (space m' sp))).
Proof.
  intros Hm Ho. unfold add_vma. destruct (add (vmas (space m sp)) v) as [l|]; eexists _, _; (split; [done|]).
  - destruct (set_vmas_grows m sp l Hm Ho) as (H1 & H2 & H3). split; [by split|]. split; [by intros|]. split; [intros q; apply entry_vmas|].
    intros _. unfold set_vmas. rewrite space_set. by rewrite decide_True.
  - split; [by split|]. split; [done|]. split; [done|]. done.
Qed.

Lemma load_segment_ok elf ph m sp : user_segment ph -> size (data elf) < 2 ^ 63 -> mm_ok m -> owned m sp ->
  exists m' r, load_segment elf ph m sp = Ok (m', r) /\ builds m m' sp /\
    (r = inl () -> (forall x, view m' sp x = after_segment elf ph x (view m sp x)) /\ (p_memsz ph = 0 -> m' = m) /\
       (p_memsz ph <> 0 -> p_offset ph + p_filesz ph <= size (data elf) /\ add (vmas (space m sp)) (vma_of ph) = Some (vmas (space m' sp)))).
Proof.
  intros Hu Hmax Hm Ho. pose proof Hu as [U1 U2 U3 U4 U5]. unfold load_segment. destruct (Z.eqb_spec (p_memsz ph) 0) as [Hz|Hnz].
  { eexists _, _. split; [done|]. split; [by split|]. intros _. split; [|done]. intros x. unfold after_segment. rewrite decide_False; [done|]. by intros [? _]. }
  rewrite !chk_ok by lia. cbn [mbind outcome_bind]. rewrite chk_ok by lia. cbn [mbind outcome_bind].
  rewrite segment_data_spec by lia. case_decide as Hin; [|by eexists _, _]. destruct (seg_end_bounds ph Hu) as (E1 & E2 & E3).
  change (align_down 12 (p_vaddr ph)) with (page_of (p_vaddr ph)). fold (seg_end ph). set (np := (seg_end ph - page_of (p_vaddr ph)) / 4096).
  assert (page_of (p_vaddr ph) + np * 4096 = seg_end ph /\ 0 <= np) as [Hnp Hnp0] by (unfold np; specialize (E3 Hnz); Z.to_euclidean_division_equations; lia).
  set (fd := sub (p_offset ph) (p_filesz ph) (data elf)).
  destruct (load_pages_ok ph fd (elf_flags_to_page_flags (p_flags ph)) sp U1 (proj1 U4) ltac:(apply size_sub; lia) (Z.to_nat np) 0 m) as (m1 & r & -> & Hg & Hr);
    [lia|rewrite Z2Nat.id by lia; lia|done|done|]. rewrite Z2Nat.id in Hr by lia.
  destruct r as [[]|e]; cbn [try_]; [|eexists _, _; split; [done|]; split; [by apply grows_builds|done]].
  fold (vma_of ph). destruct (add_vma_ok m1 sp (vma_of ph) (g_ok _ _ _ Hg) (g_owned _ _ _ Hg)) as (m2 & r2 & E & Hb & Hv & _ & Hadd).
  unfold vma_of in E. fold np in E. rewrite E. clear E.
  destruct r2 as [[]|e]; cbn [or_err]; eexists _, _; (split; [done|]); (split; [by apply (builds_trans m m1); [apply grows_builds|]|]); [|done]. intros _. split.
  - intros x. rewrite Hv, Hr by done. unfold after_segment, in_pages. replace (page_of (p_vaddr ph) + 0 * 4096) with (page_of (p_vaddr ph)) by lia.
    replace (page_of (p_vaddr ph) + (0 + np) * 4096) with (seg_end ph) by lia. destruct (decide (page_of (p_vaddr ph) <= x < seg_end ph)); [by rewrite decide_True by done|by rewrite decide_False by tauto].
  - split; [done|]. intros _. split; [done|]. rewrite <- (g_vmas _ _ _ Hg). by apply Hadd.
Qed.

Definition image (elf : Elf64) (l : list Elf64ProgramHeader) (x : Z) (old : option Z) : option Z :=
  foldl (fun old ph => after_segment elf ph x old) old l.

(** The areas of the segments, in order. *)
Fixpoint add_all (vs : list (option Vma)) (l : list Vma) : option (list (option Vma)) :=
  match l with
  | [] => Some vs
  | v :: l' => vs' ← add vs v; add_all vs' l'
  end.

Lemma add_all_app vs l1 l2 : add_all vs (l1 ++ l2) = (vs' ← add_all vs l1; add_all vs' l2).
Proof. revert vs. induction l1 as [|v l1 IH]; intros vs; cbn [app add_all]; [done|]. destruct (add vs v) as [vs'|]; [|done]. apply IH. Qed.

Definition real (l : list Elf64ProgramHeader) : list Elf64ProgramHeader := filter (fun ph => p_memsz ph <> 0) l.

Lemma load_all_ok elf sp : size (data elf) < 2 ^ 63 -> forall l m, Forall user_segment l -> mm_ok m -> owned m sp ->
  exists m' r, load_all elf l m sp = Ok (m', r) /\ builds m m' sp /\
    (r = inl () -> (forall x, view m' sp x = image elf l x (view m sp x)) /\ Forall (fun ph => p_offset ph + p_filesz ph <= size (data elf)) (real l) /\
       add_all (vmas (space m sp)) (vma_of <$> real l) = Some (vmas (space m' sp))).
Proof.
  intros Hmax. induction l as [|ph l IH]; intros m Hl Hm Ho; cbn [load_all].
  { eexists _, _. split; [done|]. split; [by split|]. intros _. split; [done|]. split; [constructor|done]. }
  apply Forall_cons in Hl as [Hph Hl]. destruct (load_segment_ok elf ph m sp Hph Hmax Hm Ho) as (m1 & r & -> & Hb & Hr).
  destruct r as [[]|e]; cbn [try_]; [|by eexists _, _]. destruct (IH m1 Hl (b_ok _ _ _ Hb) (b_owned _ _ _ Hb)) as (m2 & r2 & -> & Hb2 & Hr2).
  eexists _, _. split; [done|]. split; [by apply (builds_trans m m1)|]. intros ->. destruct (Hr eq_refl) as (V1 & Z1 & F1). destruct (Hr2 eq_refl) as (V2 & F2 & A2).
  split; [intros x; by rewrite V2, V1|]. unfold real in *. rewrite filter_cons. case_decide as Hz.
  - destruct (F1 Hz) as [F3 A3]. split; [by constructor|]. cbn [fmap list_fmap add_all]. by rewrite A3.
  - by rewrite Z1 in A2 by done.
Qed.

(** Segments whose memory does not overlap. *)
Definition in_segment (ph : Elf64ProgramHeader) (x : Z) : Prop := p_vaddr ph <= x < p_vaddr ph + p_memsz ph.
Definition disjoint_segments (l : list Elf64ProgramHeader) : Prop :=
  forall (i j : nat) ph ph' x, l !! i = Some ph -> l !! j = Some ph' -> in_segment ph x -> in_segment ph' x -> i = j.

Lemma file_in_segment ph x : user_segment ph -> in_file ph x -> in_segment ph x.
Proof. intros []. unfold in_file, in_segment. lia. Qed.

Lemma segment_in_pages ph x : user_segment ph -> in_segment ph x -> in_pages ph x.
Proof.
  intros Hu Hx. destruct (seg_end_bounds ph Hu) as (E1 & _). unfold in_segment, in_pages in *. pose proof (page_split (p_vaddr ph)).
  pose proof (mod_page (p_vaddr ph)). split; lia.
Qed.

(** The other segments leave the address alone. *)
Lemma image_outside elf x : forall l old, Forall user_segment l -> Forall (fun ph => ~ in_segment ph x) l ->
  default 0 (image elf l x old) = default 0 old /\ (is_Some old -> is_Some (image elf l x old)).
Proof.
  induction l as [|ph l IH]; intros old Hu Hx; [done|]. apply Forall_cons in Hu as [Hu Hul]. apply Forall_cons in Hx as [Hx Hxl].
  change (image elf (ph :: l) x old) with (image elf l x (after_segment elf ph x old)).
  destruct (IH (after_segment elf ph x old) Hul Hxl) as [H1 H2].
  assert (default 0 (after_segment elf ph x old) = default 0 old) as Ha.
  { unfold after_segment. case_decide; [|done]. unfold loaded_byte. rewrite decide_False; [done|]. intros Hin. by apply Hx, file_in_segment. }
  split; [by rewrite H1|]. intros Hs. apply H2. unfold after_segment. case_decide; [by eexists|done].
Qed.

Lemma image_segment elf l (i : nat) ph x : Forall user_segment l -> disjoint_segments l -> l !! i = Some ph -> in_segment ph x ->
  image elf l x None = Some (loaded_byte ph (sub (p_offset ph) (p_filesz ph) (data elf)) x None).
Proof.
  intros Hu Hd Hi Hx. rewrite <- (take_drop_middle l i ph Hi) in Hu. apply Forall_app in Hu as [U1 [U2 U3]%Forall_cons].
  assert (Forall (fun ph => ~ in_segment ph x) (take i l)) as N1.
  { apply Forall_lookup. intros j ph' Hj Hin. apply lookup_take_Some in Hj as [Hj Hlt]. pose proof (Hd j i ph' ph x Hj Hi Hin Hx). lia. }
  assert (Forall (fun ph => ~ in_segment ph x) (drop (S i) l)) as N2.
  { apply Forall_lookup. intros j ph' Hj Hin. rewrite lookup_drop in Hj. pose proof (Hd (S i + j)%nat i ph' ph x Hj Hi Hin Hx). lia. }
  rewrite <- (take_drop_middle l i ph Hi) at 1. unfold image. rewrite foldl_app. cbn [foldl]. fold (image elf (take i l) x None).
  destruct (image_outside elf x (take i l) None U1 N1) as [D1 _]. set (o1 := image elf (take i l) x None) in *.
  assert (after_segment elf ph x o1 = Some (loaded_byte ph (sub (p_offset ph) (p_filesz ph) (data elf)) x None)) as ->.
  { unfold after_segment. rewrite decide_True by (by apply segment_in_pages). unfold loaded_byte. by rewrite D1. }
  fold (image elf (drop (S i) l) x (Some (loaded_byte ph (sub (p_offset ph) (p_filesz ph) (data elf)) x None))).
  destruct (image_outside elf x (drop (S i) l) (Some (loaded_byte ph (sub (p_offset ph) (p_filesz ph) (data elf)) x None)) U3 N2) as [D2 S2].
  destruct (S2 ltac:(by eexists)) as [b Hb]. rewrite Hb in D2 |- *. cbn in D2. by rewrite D2.
Qed.

(** ** The stack and the trampoline *)

(** A new page, zeroed and filled from its start. *)
Lemma new_page_ok m sp p fl : mm_ok m -> owned m sp -> page_of p = p ->
  exists m' r, map_user_page m sp p fl = Ok (m', r) /\ grows m m' sp /\
    match r with
    | inl f => let m1 := zero_page m' f 4096 in read_bytes (phys m1) f 4096 = replicate 4096 0 /\
        forall bs, size bs <= 4096 -> let m2 := m1 <| phys := write_bytes (phys m1) f bs |> in
        grows m m2 sp /\ (forall x, is_Some (view m sp x) -> view m2 sp x = view m sp x) /\
        forall i, 0 <= i < 4096 -> view m2 sp (p + i) = Some (default 0 (bs !! Z.to_nat i))
    | inr _ => True
    end.
Proof.
  intros Hm Ho Hp. destruct (map_user_page_ok m sp p fl Hm Ho) as (m' & r & E & Hg & Hr). exists m', r. split; [done|]. split; [done|].
  destruct r as [f|]; [|done]. destruct Hr as (Hnone & He & Hq & Hv). destruct (write_zeros m' sp p f fl (g_ok _ _ _ Hg) (g_owned _ _ _ Hg) He) as (Hg2 & He2 & Hv2).
  split. { unfold zero_page. cbn [phys update_field]. rewrite <- (length_replicate 4096 0) at 2. apply read_write_bytes. }
  intros bs Hbs m2. destruct (write_owned (zero_page m' f 4096) sp p f fl 0 bs (g_ok _ _ _ Hg2) (g_owned _ _ _ Hg2)) as (Hg3 & _ & Hv3); [by rewrite He2|lia|lia|].
  rewrite Z.add_0_r in Hg3, Hv3. split; [by eapply space_grows_trans; [exact Hg|]; eapply space_grows_trans; [exact Hg2|]|]. split.
  - intros x Hs. assert (page_of x <> p) as Hx.
    { intros Hx. destruct Hs as [b Hb]. rewrite (view_none m sp x) in Hb; [done|by rewrite Hx|apply Ho]. }
    unfold m2. rewrite Hv3, Hv2. rewrite !decide_False by tauto. by apply Hv.
  - intros i Hi. assert (p mod 4096 = 0) as Hpm by (rewrite <- Hp; apply (align_down_mod 12); lia).
    assert (page_of (p + i) = p) as Hx by (apply page_range; [done|lia]).
    assert ((p + i) mod 4096 = i) as Hmod by (Z.to_euclidean_division_equations; lia).
    unfold m2. rewrite Hv3, Hv2, Hmod, Z.sub_0_r. rewrite (decide_True (P := page_of (p + i) = p)) by done. unfold size in *.
    destruct (decide (page_of (p + i) = p /\ 0 <= i < 0 + Z.of_nat (length bs))) as [[_ Hlt]|Hge].
    + destruct (lookup_lt_is_Some_2 bs (Z.to_nat i) ltac:(lia)) as [b ->]. done.
    + rewrite lookup_ge_None_2; [done|]. assert (~ (0 <= i < 0 + Z.of_nat (length bs))) by tauto. lia.
Qed.

Definition code : Vma := mkVma TRAMPOLINE_VA 1 (Z.lor PRESENT USER_ACCESSIBLE) Code.

Lemma map_trampoline_ok m sp : mm_ok m -> owned m sp -> exists m' r, map_trampoline m sp = Ok (m', r) /\ builds m m' sp /\
  (r = inl () -> (forall x, is_Some (view m sp x) -> view m' sp x = view m sp x) /\
     (forall i, 0 <= i < 4096 -> view m' sp (TRAMPOLINE_VA + i) = Some (default 0 (TRAMPOLINE_CODE !! Z.to_nat i))) /\
     add (vmas (space m sp)) code = Some (vmas (space m' sp))).
Proof.
  intros Hm Ho. unfold map_trampoline. change (page_of TRAMPOLINE_VA) with TRAMPOLINE_VA. fold code.
  destruct (new_page_ok m sp TRAMPOLINE_VA (Z.lor PRESENT USER_ACCESSIBLE) Hm Ho eq_refl) as (m1 & r & -> & Hg & Hr).
  destruct r as [f|e]; cbn [or_err]; [|eexists _, _; split; [done|]; split; [by apply grows_builds|done]].
  destruct Hr as [_ Hr]. destruct (Hr TRAMPOLINE_CODE ltac:(by vm_compute)) as (Hg2 & Hv & Hp).
  edestruct (add_vma_ok _ sp code (g_ok _ _ _ Hg2) (g_owned _ _ _ Hg2)) as (m3 & r3 & -> & Hb & Hv3 & _ & Hadd).
  destruct r3 as [[]|e]; cbn [or_err]; eexists _, _; (split; [done|]); (split; [by eapply builds_trans; [apply grows_builds, Hg2|]|]); [|done]. intros _. split_and!.
  - intros x Hx. rewrite Hv3. by apply Hv.
  - intros i Hi. rewrite Hv3. by apply Hp.
  - rewrite <- (g_vmas _ _ _ Hg2). by apply Hadd.
Qed.

(** The address of the program headers is found without overflow. *)
Lemma phdr_vaddr_ok o : forall l, 0 <= o -> Forall (fun ph => p_type ph = PT_LOAD -> user_segment ph /\ p_offset ph + p_filesz ph < 2 ^ 64) l ->
  exists v, phdr_vaddr_from o l = Ok v /\ in_width 64 v /\
    (v = 0 \/ exists ph, ph ∈ l /\ p_type ph = PT_LOAD /\ in_file ph v /\ v - p_vaddr ph = o - p_offset ph).
Proof.
  induction l as [|ph l IH]; intros Ho Hl; cbn [phdr_vaddr_from]; [exists 0; split_and!; [done|unfold in_width; lia|by left]|]. apply Forall_cons in Hl as [Hph Hl].
  destruct (IH Ho Hl) as (v & Ev & Hw & Hv).
  assert (exists v, phdr_vaddr_from o l = Ok v /\ in_width 64 v /\
    (v = 0 \/ exists ph', ph' ∈ ph :: l /\ p_type ph' = PT_LOAD /\ in_file ph' v /\ v - p_vaddr ph' = o - p_offset ph')) as Hrest.
  { exists v. split_and!; [done|done|]. destruct Hv as [?|(ph' & ? & ?)]; [by left|]. right. exists ph'. split; [by apply list_elem_of_further|done]. }
  destruct (Z.eqb_spec (p_type ph) PT_LOAD) as [Ht|]; [|done]. destruct (Z.leb_spec (p_offset ph) o) as [Hle|]; [|done]. cbn [andb].
  destruct (Hph Ht) as [[U1 U2 U3 U4 U5] Hend]. rewrite (chk_ok 64 (p_offset ph + p_filesz ph)) by lia. cbn [mbind outcome_bind]. destruct (Z.ltb_spec o (p_offset ph + p_filesz ph)) as [Hlt|]; [|done].
  eexists. split; [apply chk_ok; lia|]. split; [unfold in_width; lia|]. right. exists ph. split; [apply list_elem_of_here|]. unfold in_file. split_and!; [done|lia|lia|lia].
Qed.

Definition stack_vma (stack_base : Z) : Vma := mkVma stack_base STACK_PAGES (Z.lor (Z.lor PRESENT WRITABLE) USER_ACCESSIBLE) GrowableStack.

Lemma map_stack_ok elf base argv envp phs v m sp : mm_ok m -> owned m sp -> all_headers elf = Ok phs -> phdr_vaddr_from (phdr_file_offset elf) phs = Ok v ->
  0 <= base -> base + 65536 <= 2 ^ 47 -> base mod 4096 = 0 ->
  (forall page, size page = 4096 -> exists page' r, build_initial_stack page (base + 61440) argv envp v (ph_count elf) (entry_point elf) = Ok (page', r) /\ size page' = 4096) ->
  exists m' r, map_stack elf base argv envp m sp = Ok (m', r) /\ builds m m' sp /\
  (forall rsp, r = inl rsp -> exists page, build_initial_stack (replicate 4096 0) (base + 61440) argv envp v (ph_count elf) (entry_point elf) = Ok (page, inl rsp) /\
     (forall x, is_Some (view m sp x) -> view m' sp x = view m sp x) /\
     (forall i, 0 <= i < 4096 -> view m' sp (base + 61440 + i) = page !! Z.to_nat i) /\
     add (vmas (space m sp)) (stack_vma base) = Some (vmas (space m' sp))).
Proof.
  intros Hm Ho Hphs Hv Hb0 Hb1 Hb2 Hbuild. unfold map_stack. fold (stack_vma base).
  destruct (add_vma_ok m sp (stack_vma base) Hm Ho) as (m1 & r1 & -> & Hb & Hv1 & _ & Hadd). destruct r1 as [[]|e]; cbn [or_err]; [|by eexists _, _].
  rewrite Hphs. cbn [mbind outcome_bind]. rewrite Hv. cbn [mbind outcome_bind]. change ((STACK_PAGES - 1) * 4096) with 61440. rewrite chk_ok by lia. cbn [mbind outcome_bind].
  unfold virt_addr, canonical. rewrite (proj2 (Z.ltb_lt (base + 61440) (2 ^ 47))) by lia. cbn [orb mbind outcome_bind].
  assert (page_of (base + 61440) = base + 61440) as Hpg by (rewrite page_start; Z.to_euclidean_division_equations; lia). rewrite Hpg.
  destruct (new_page_ok m1 sp (base + 61440) (Z.lor (Z.lor PRESENT WRITABLE) USER_ACCESSIBLE) (b_ok _ _ _ Hb) (b_owned _ _ _ Hb) Hpg) as (m2 & r2 & -> & Hg & Hr).
  destruct r2 as [f|e]; cbn [or_err]; [|eexists _, _; split; [done|]; split; [by apply (builds_trans m m1); [|apply grows_builds]|done]].
  destruct Hr as [-> Hr]. destruct (Hbuild (replicate 4096 0)) as (page & r & -> & Hs); [unfold size; by rewrite length_replicate|]. cbn [mbind outcome_bind fst snd].
  destruct (Hr page ltac:(lia)) as (Hg2 & Hv2 & Hp). eexists _, _. split; [done|]. split; [by apply (builds_trans m m1); [|apply grows_builds]|].
  intros rsp ->. exists page. split_and!; [done| | |].
  - intros x Hx. rewrite <- Hv1. apply Hv2. by rewrite Hv1.
  - intros i Hi. rewrite Hp by done. unfold size in Hs. by destruct (lookup_lt_is_Some_2 page (Z.to_nat i) ltac:(lia)) as [b ->].
  - rewrite (g_vmas _ _ _ Hg2). by apply Hadd.
Qed.

Lemma new_user_ok m sp : mm_ok m -> spaces m !! sp = None -> exists m' r, new_user m sp = Ok (m', r) /\ mm_ok m' /\
  (forall sp' x, view m' sp' x = view m sp' x) /\
  (r = inl () -> owned m' sp /\ (forall x, view m' sp x = None) /\ vmas (space m' sp) = new).
Proof.
  intros Hm Hnew. unfold new_user. destruct (alloc_frame_spec m 12 Hm ltac:(by split)) as (m1 & r & -> & Hm1 & Hq & Hsp & Hr). cbn [mbind outcome_bind fst snd].
  destruct r as [f|]; [|eexists _, _; split; [done|]; split; [done|]; split; [intros; by apply view_quiet|done]].
  assert (forall q, entry m sp q = None /\ entry2m m sp q = None) as Hnone by (intros q; unfold entry, entry2m, space; rewrite Hnew; apply new_table_law).
  pose proof Hq as (Qe & Qh & Qr & Qp & Qz & Qs & Qa). set (m2 := set_space m1 sp _).
  assert (forall q, entry m2 sp q = None /\ entry2m m2 sp q = None) as Hnone2.
  { intros q. unfold entry, entry2m, m2. rewrite space_set. rewrite decide_True by done. apply new_table_law. }
  assert (quiet m m2) as Hq2.
  { split_and!; try done; intros sp' q; (destruct (decide (sp = sp')) as [<-|Hne]; [by destruct (Hnone q), (Hnone2 q); congruence|]);
      unfold entry, entry2m, m2; rewrite space_set, decide_False by done; [apply Qe|apply Qh]. }
  eexists _, _. split; [done|]. split; [by apply (quiet_ok m)|]. split; [intros; by apply view_quiet|]. intros _. split_and!.
  - split; [|intros q; apply Hnone2]. intros q g gl Hg. by rewrite (proj1 (Hnone2 q)) in Hg.
  - intros x. apply view_none; apply Hnone2.
  - unfold m2. rewrite space_set. by rewrite decide_True.
Qed.

End loader.

End ElfInv.
