(* ===== verification/ElfProps.v ===== *)
(** Properties of the ELF parser and loader. *)

From Stdlib Require Import ZArith Lia.
From stdpp Require Import base numbers gmap strings list.
From S2P Require Import Prelude Bits Buddy Frames Vma Paging PagingInv PagingProps PagingDemo Bytes Elf ElfLoader ElfStack ElfInv.

Local Open Scope string_scope.
Local Open Scope list_scope.
Local Open Scope Z_scope.

Module ElfProps.
Import Vma Paging PagingInv Bytes Elf ElfLoader ElfStack ElfInv.

(** ** A program *)

(** Five bytes of code and four of zeros at 0x400078, the file's layout that of
    the smallest static executable. *)
Definition hello : bytes :=
  ELF_MAGIC ++ [2; 1; 1; 0] ++ replicate 8 0 ++ to_le 2 2 ++ to_le 2 62 ++ to_le 4 1 ++ to_le 8 4194424 ++ to_le 8 64 ++ to_le 8 0 ++
  to_le 4 0 ++ to_le 2 64 ++ to_le 2 56 ++ to_le 2 1 ++ to_le 2 0 ++ to_le 2 0 ++ to_le 2 0 ++
  to_le 4 1 ++ to_le 4 5 ++ to_le 8 120 ++ to_le 8 4194424 ++ to_le 8 4194424 ++ to_le 8 5 ++ to_le 8 9 ++ to_le 8 4096 ++ [184; 60; 0; 15; 5].

Lemma hello_ok : bytes_ok hello.
Proof. apply (bool_decide_unpack _). by vm_compute. Qed.

Lemma hello_accepted : accepted hello.
Proof. split; by vm_compute. Qed.

Lemma hello_headers : headers hello = [mkPhdr 1 5 120 4194424 4194424 5 9 4096].
Proof. by vm_compute. Qed.

(** ** Parsing *)

(** C36: Parsing reads only bytes of the file, whatever it holds.  It accepts
    exactly the 64-bit little-endian x86-64 executables whose program header
    table lies in the file; of those, the iterator gives every header once and
    in order, the same as by index, and a segment's data is exactly its bytes
    of the file, or refused. *)
Theorem elf_safe d : bytes_ok d -> size d < 2 ^ 63 -> exists r, parse d = Ok r /\
  match r with
  | inl e => accepted d /\ all_headers e = Ok (headers d) /\ Z.of_nat (length (headers d)) = ph_count e /\
      (forall i, 0 <= i < ph_count e -> exists ph, program_header e i = Ok ph /\ headers d !! Z.to_nat i = Some ph) /\
      (forall ph l, 0 <= p_offset ph -> 0 <= p_filesz ph -> segment_data e ph = Some l -> p_offset ph + p_filesz ph <= size d /\ l = sub (p_offset ph) (p_filesz ph) d)
  | inr _ => ~ accepted d
  end.
Proof.
  intros Hb Hmax. destruct (parse_ok d Hb Hmax) as (r & -> & Hr). exists r. split; [done|]. destruct r as [e|]; [|done]. destruct Hr as [Hac ->].
  split_and!; [done|by apply all_headers_ok|by apply length_headers| |].
  - intros i Hi. change (ph_count _) with (e_phnum (header_of d)) in Hi. eexists. split; [by apply program_header_ok|]. unfold headers. rewrite list_lookup_fmap, lookup_seqZ_lt by lia. rewrite Z2Nat.id by lia. done.
  - intros ph l Ho Hf. rewrite segment_data_spec by done. cbn [data]. case_decide; [|done]. by intros [= <-].
Qed.

Lemma elf_safe_witness : exists e, parse hello = Ok (inl e) /\ all_headers e = Ok [mkPhdr 1 5 120 4194424 4194424 5 9 4096].
Proof.
  destruct (elf_safe hello hello_ok ltac:(by vm_compute)) as (r & E & Hr). destruct r as [e|]; [|destruct (Hr hello_accepted)].
  exists e. split; [exact E|]. destruct Hr as (_ & Hh & _). rewrite <- hello_headers. exact Hh.
Defined.

(** ** The initial stack *)

(** C35: A program's start-up code reads back exactly the arguments and the
    environment given, with the auxiliary vector behind them, from the initial
    stack, whose pointer is aligned to 16 bytes; nothing outside the page is
    written.  They are refused exactly when strings and pointers do not fit. *)
Theorem initial_stack_roundtrip page top argv envp phdr_vaddr count entry :
  size page = 4096 -> 0 <= top -> top + 4096 < 2 ^ 64 -> Forall (in_width 64) [phdr_vaddr; count; entry] ->
  exists page' r, build_initial_stack page top argv envp phdr_vaddr count entry = Ok (page', r) /\ size page' = 4096 /\
    match r with
    | inl v => fits argv envp = true /\ exists rsp, v = top + rsp /\ 0 <= rsp < 4096 /\ rsp mod 16 = 0 /\
        stack_holds page' top rsp argv envp (auxv phdr_vaddr count entry)
    | inr e => fits argv envp = false /\ e = too_large /\ page' = page
    end.
Proof. apply initial_stack_ok. Qed.

(** "ls" and "-l", with "A=1" in the environment. *)
Lemma initial_stack_roundtrip_witness : exists page' v rsp a,
  build_initial_stack (replicate 4096 0) 8192 [[108; 115]; [45; 108]] [[65; 61; 49]] 64 1 4194424 = Ok (page', inl v) /\ v = 8192 + rsp /\
  word page' rsp = 2 /\ word page' (rsp + 16) = 8192 + a /\ sub a 3 page' = [45; 108; 0].
Proof.
  destruct (initial_stack_roundtrip (replicate 4096 0) 8192 [[108; 115]; [45; 108]] [[65; 61; 49]] 64 1 4194424) as (page' & r & E & _ & Hr);
    [unfold size; by rewrite length_replicate|lia|lia|repeat constructor; by vm_compute|].
  destruct r as [v|e]; [|destruct Hr as [Hf _]; by vm_compute in Hf]. destruct Hr as (_ & rsp & -> & _ & _ & Hs).
  destruct (st_argv _ _ _ _ _ _ Hs 1%nat [45; 108] eq_refl) as (a & Ha & _ & _ & Hsub).
  exists page', (8192 + rsp), rsp, a. split; [exact E|]. split; [reflexivity|]. split; [apply (st_argc _ _ _ _ _ _ Hs)|]. split; [exact Ha|exact Hsub].
Defined.

(** ** The program in memory *)

Definition loads (d : bytes) : list Elf64ProgramHeader := filter (fun ph => p_type ph = PT_LOAD) (headers d).

(** What the loader relies on: segments in the lower half that do not overlap,
    with no more bytes in the file than in memory, and an entry there. *)
Record loadable (d : bytes) : Prop := {
  lo_segments : Forall (fun ph => user_segment ph /\ p_offset ph + p_filesz ph < 2 ^ 64) (loads d);
  lo_disjoint : disjoint_segments (loads d);
  lo_entry : e_entry (header_of d) < 2 ^ 47;
}.

Definition stack_top (process_index : Z) : Z := DEFAULT_STACK_BASE + process_index * STACK_PROCESS_GAP + 61440.

Section load.
Context {PT A : Type} `{Mapper PT A}.
Implicit Types m : @MM PT A.

Lemma headers_width d : bytes_ok d -> size d < 2 ^ 63 -> accepted d -> in_width 64 (e_entry (header_of d)) /\ in_width 64 (e_phnum (header_of d)) /\ 0 <= e_phoff (header_of d).
Proof.
  intros Hb Hmax Hac. destruct (table_width d Hb (ac_size _ Hac)) as (H1 & H2 & H3). pose proof (ac_size _ Hac).
  pose proof (field_bound 24 8 d Hb ltac:(lia) ltac:(lia) ltac:(lia)) as He. change (256 ^ 8) with (2 ^ 64) in He. split_and!; [done|unfold in_width; lia|lia].
Qed.

Lemma file_byte (d : bytes) ph x : user_segment ph -> in_file ph x ->
  sub (p_offset ph) (p_filesz ph) d !!! Z.to_nat (x - p_vaddr ph) = d !!! Z.to_nat (p_offset ph + (x - p_vaddr ph)).
Proof.
  intros [U1 U2 U3 U4 U5] Hx. unfold in_file in Hx. rewrite !list_lookup_total_alt. rewrite lookup_sub by lia. do 3 f_equal. lia.
Qed.


(** The frame of a page that is already mapped is written to, whoever owns it
    and whatever its flags: the loader takes it for a page shared with an
    earlier segment. *)
Theorem load_segment_overwrites e ph m sp f fl : user_segment ph -> size (data e) < 2 ^ 63 -> p_vaddr ph mod 4096 = 0 -> p_memsz ph = 4096 -> p_filesz ph = 4096 ->
  p_offset ph + 4096 <= size (data e) -> entry m sp (p_vaddr ph) = Some (f, fl) ->
  exists r, load_segment e ph m sp = Ok (m <| phys := write_bytes (phys m) f (sub (p_offset ph) 4096 (data e)) |>, r) \/
    exists l, load_segment e ph m sp = Ok (set_vmas (m <| phys := write_bytes (phys m) f (sub (p_offset ph) 4096 (data e)) |>) sp l, r).
Proof.
  intros [U1 U2 U3 U4 U5] Hmax Hal Hmem Hfile Hin He. unfold load_segment. rewrite Hmem. cbn [Z.eqb]. rewrite !chk_ok by lia. cbn [mbind outcome_bind]. rewrite chk_ok by lia.
  cbn [mbind outcome_bind]. rewrite segment_data_spec, decide_True by lia. change (align_down 12) with page_of.
  assert (page_of (p_vaddr ph) = p_vaddr ph) as Hp by (rewrite page_start; lia). rewrite Hp.
  assert (page_of (p_vaddr ph + 4096 + 4095) = p_vaddr ph + 4096) as -> by (rewrite page_start; Z.to_euclidean_division_equations; lia).
  replace ((p_vaddr ph + 4096 - p_vaddr ph) / 4096) with 1 by (rewrite Z.add_simpl_l; done). change (Z.to_nat 1) with 1%nat.
  rewrite (load_pages_step 0 ph _ _ _ 0 m sp (p_vaddr ph)) by lia. unfold translate_page. rewrite He. cbn [fmap option_fmap option_map fst or_err snd].
  assert (page_data ph (sub (p_offset ph) (p_filesz ph) (data e)) 0 (p_vaddr ph) = Some (0, sub (p_offset ph) 4096 (data e))) as ->.
  { unfold page_data. rewrite Hfile, land_page, Hal, size_sub by lia. rewrite Z.leb_refl, Z.sub_diag. change (0 =? 0) with true. change (0 <? 4096) with true. change (4096 - 0) with 4096. change (Z.max 0 4096) with 4096. change (Z.min 4096 4096) with 4096. cbn [andb]. rewrite Z.min_id. change (0 <? 4096) with true. cbn [andb]. rewrite sub_sub by lia. by rewrite Z.add_0_r. }
  cbn [try_ load_pages]. rewrite Z.add_0_r. unfold add_vma. destruct (add _ _) as [l|]; cbn [or_err]; [eexists; right; by exists l|eexists; by left].
Qed.

End load.

(** ** Runs *)

Lemma hello_loads : loads hello = [mkPhdr 1 5 120 4194424 4194424 5 9 4096].
Proof. unfold loads. by rewrite hello_headers. Qed.

Lemma hello_loadable : loadable hello.
Proof.
  split; [| |by vm_compute]; rewrite hello_loads.
  - repeat constructor; cbn; lia.
  - intros i j ph ph' x Hi%lookup_lt_Some Hj%lookup_lt_Some _ _. cbn in *. lia.
Qed.

Definition running : PagingDemo.Machine := PagingDemo.after (load_elf PagingDemo.booted 9 hello 3 [[108; 115]] []) PagingDemo.booted.

Lemma running_eq : exists l, load_elf PagingDemo.booted 9 hello 3 [[108; 115]] [] = Ok (running, inl l).
Proof.
  destruct (PagingDemo.result (load_elf PagingDemo.booted 9 hello 3 [[108; 115]] [])) as [[l|e]|] eqn:E; [|by vm_compute in E..].
  exists l. by apply PagingDemo.after_ok.
Qed.


(** [hello] with the address and the size of its segment replaced. *)
Definition with_segment (vaddr filesz memsz : Z) : bytes := over 80 (to_le 8 vaddr) (over 96 (to_le 8 filesz) (over 104 (to_le 8 memsz) hello)).

(** A file a process may execute stops the kernel: a segment that ends past the
    address space, one at an address that is not canonical, or an empty one
    whose place in the file overflows. *)
Theorem bad_program_panics :
  load_elf PagingDemo.booted 9 (with_segment (2 ^ 64 - 4096) 5 4096) 0 [] [] = Panic /\
  load_elf PagingDemo.booted 9 (with_segment (2 ^ 47) 5 9) 0 [] [] = Panic /\
  load_elf PagingDemo.booted 9 (over 72 (to_le 8 64) (with_segment 4194424 (2 ^ 64 - 1) 0)) 0 [] [] = Panic.
Proof. by vm_compute. Qed.

End ElfProps.
