(* ===== verification/Net.v ===== *)
(** What the socket and poll calls share ([kernel/src/process/syscall/ipc.rs],
    [poll.rs]): the tables behind them, the map from descriptors to channels,
    descriptor tables, and physical memory.

    A process that blocks leaves the physical address of its buffer, and
    whoever wakes it writes there.  [translate] stands for the page tables:
    the frame of a page of an address space.  [home] is the page a frame
    belongs to; memory is kept by address space ([umem]), and [kmem] holds the
    frames of no process.  Frames shared between address spaces are not
    represented, and neither call changes a mapping. *)

From Stdlib Require Import ZArith Lia.
From stdpp Require Import base numbers gmap list.
From S2P Require Import Prelude Bytes FsTypes Vfs FdTable Process Signal HrTimer Waiters Scheduler SchedulerInv ProcessCtl Channel EventQueue HalKeyboard HalTty.

Local Open Scope Z_scope.

Module Net.
Import Process Signal Scheduler.

Definition ENOENT : Z := -2.
Definition EBADF : Z := -9.
Definition EAGAIN : Z := -11.
Definition ENOMEM : Z := -12.
Definition EPIPE : Z := -32.
Definition ENOTSOCK : Z := -88.
Definition ENOTCONN : Z := -107.
Definition ECONNREFUSED : Z := -111.

(** [Box<dyn FileHandle>]: the two handles of these files, or another one. *)
Inductive Handle :=
| SocketHandle (channel_id : nat)
| EpollHandle (epoll_id : Z)
| OtherHandle (h : Z).

Record AcceptWaiter := mkAcceptWaiter { aw_pid : Z; server_channel_id : nat }.
Record RecvWaiter := mkRecvWaiter { rw_pid : Z; rw_channel_id : nat; rw_phys_buf : Z }.

Record Net := mkNet {
  world : World;
  channels : Channel.ChannelTable;
  fd_channel_map : list (list nat);
  accept_waiter : option AcceptWaiter;
  recv_waiter : option RecvWaiter;
  epoll_instances : list (option Waiters.EpollInstance);
  fd_tables : gmap Z (list (option Handle));
  console : Console.console;
  kmem : mem;
}.

#[export] Instance Net_fields : Fields Net := fun n =>
  mkNet (world n) (channels n) (fd_channel_map n) (accept_waiter n) (recv_waiter n)
    (epoll_instances n) (fd_tables n) (console n) (kmem n).

(** What a call ends in: its result, or the frame that runs while the caller
    waits. *)
Inductive netret :=
| Done (n : Net) (v : Z)
| Switched (n : Net) (tf : TfPtr).

Definition set_sched (n : Net) (s : Scheduler) : Net := n <| world := (world n) <| sched := s |> |>.
Definition set_tables (n : Net) (t : Waiters.Tables) : Net := n <| world := (world n) <| tables := t |> |>.

(** [block_current] and [jump_to_user]. *)
Definition block (n : Net) : outcome stuck netret :=
  r ← ProcessCtl.switch_and_jump (world n) block_current;
  match r with
  | ProcessCtl.Return w v => Ok (Done (n <| world := w |>) v)
  | ProcessCtl.Jump w tf => Ok (Switched (n <| world := w |>) tf)
  end.

(** [scheduler::current_pid().unwrap_or(0)]. *)
Definition current (n : Net) : Z := default 0 (current_pid (sched (world n))).

(** [as usize] of an [i32]. *)
Definition as_usize (fd : Z) : Z := wrap 64 fd.

(** ** Descriptors *)

Definition in_map (pid fd : Z) : bool := (pid <? Waiters.MAX_PROCS) && (fd <? Waiters.MAX_FILES_PER_PROC).

Definition set_fd_channel (n : Net) (pid fd : Z) (id : nat) : Net :=
  if in_map pid fd
  then n <| fd_channel_map := alter (fun row => <[Z.to_nat fd := id]> row) (Z.to_nat pid) (fd_channel_map n) |>
  else n.

Definition get_fd_channel (n : Net) (pid fd : Z) : option nat :=
  if in_map pid fd then
    let id := (fd_channel_map n !!! Z.to_nat pid) !!! Z.to_nat fd in
    if (id =? 0)%nat then None else Some id
  else None.

Definition clear_fd_channel (n : Net) (pid fd : Z) : Net :=
  if in_map pid fd
  then n <| fd_channel_map := alter (fun row => <[Z.to_nat fd := O]> row) (Z.to_nat pid) (fd_channel_map n) |>
  else n.

(** The table behind [proc.files]. *)
Definition files_of (n : Net) (files : Z) : list (option Handle) := default FdTable.new (fd_tables n !! files).

(** [proc.files.lock().allocate(handle)]; a handle that finds no slot is
    dropped, which does nothing for the two kinds of handle made here. *)
Definition allocate (n : Net) (files : Z) (h : Handle) : Net * option Z :=
  match FdTable.free_slot 0 (files_of n files) with
  | Some i => (n <| fd_tables := <[files := <[i := Some h]> (files_of n files)]> (fd_tables n) |>, Some (Z.of_nat i))
  | None => (n, None)
  end.

(** ** Physical memory *)

Section phys.
Variable translate : Z -> Z -> option Z.
Variable home : Z -> option (Z * Z).

Definition page_of (a : Z) : Z := a - Z.land a 4095.

Definition space_mem (n : Net) (sp : Z) : mem := default ∅ (umem (world n) !! sp).

(** One byte at [phys_offset + a]. *)
Definition phys_get (n : Net) (a : Z) : Z :=
  match home (page_of a) with
  | Some (sp, page) => read_byte (space_mem n sp) (page + Z.land a 4095)
  | None => read_byte (kmem n) a
  end.

Definition phys_put (n : Net) (a v : Z) : Net :=
  match home (page_of a) with
  | Some (sp, page) =>
      n <| world := (world n) <| umem := <[sp := <[page + Z.land a 4095 := v]> (space_mem n sp)]> (umem (world n)) |> |>
  | None => n <| kmem := <[a := v]> (kmem n) |>
  end.

Fixpoint phys_read (n : Net) (a : Z) (k : nat) : list Z :=
  match k with
  | O => []
  | S k' => phys_get n a :: phys_read n (a + 1) k'
  end.

Fixpoint phys_write (n : Net) (a : Z) (bs : list Z) : Net :=
  match bs with
  | [] => n
  | b :: bs' => phys_write (phys_put n a b) (a + 1) bs'
  end.

(** The physical address of a user address of the running process; a page
    without a frame has none. *)
Definition translate_running (n : Net) (va : Z) : option Z :=
  proc ← running (sched (world n));
  frame ← translate (address_space proc) (page_of va);
  Some (frame + Z.land va 4095).

End phys.

End Net.
