(* ===== verification/Poll.v ===== *)
(** Waiting on several descriptors: [poll] and [epoll]
    ([kernel/src/process/syscall/poll.rs]).

    A call that finds nothing ready leaves a [PollWaiter] with the physical
    address of its buffer; [poll_wakeup_for_fd0] (from the keyboard's interrupt
    handler) and [poll_wakeup_for_channel] (from [sendmsg]) look for a waiter,
    fill in its buffer and wake it.  A [pollfd] has 8 bytes, an [epoll_event]
    12. *)

From Stdlib Require Import ZArith Lia.
From stdpp Require Import base numbers gmap list.
From S2P Require Import Prelude Bytes FsTypes FdTable Process Signal HrTimer Waiters Scheduler ProcessCtl Channel HalTty Net.

Local Open Scope Z_scope.

Module Poll.
Import Process Signal Scheduler Net.

Definition POLLIN : Z := 1.
Definition POLLOUT : Z := 4.
Definition POLLERR : Z := 8.
Definition POLLNVAL : Z := 32.

Definition EPOLLIN : Z := 1.
Definition EPOLLOUT : Z := 4.
Definition EPOLLERR : Z := 8.
Definition EPOLLET : Z := 2147483648.

Definition EPOLL_CTL_ADD : Z := 1.
Definition EPOLL_CTL_DEL : Z := 2.
Definition EPOLL_CTL_MOD : Z := 3.

Record PollFd := mkPollFd { fd : Z; events : Z; revents : Z }.

Record EpollEvent := mkEpollEvent { ev_events : Z; ev_data : Z }.

(** [as i16]. *)
Definition to_i16 (z : Z) : Z := let k := wrap 16 z in if k <? 2 ^ 15 then k else k - 2 ^ 16.

Definition pollfd_bytes (p : PollFd) : list Z := to_le 4 (wrap 32 (fd p)) ++ to_le 2 (wrap 16 (events p)) ++ to_le 2 (wrap 16 (revents p)).
Definition bytes_pollfd (bs : list Z) : PollFd :=
  mkPollFd (to_i32 (from_le (take 4 bs))) (to_i16 (from_le (take 2 (drop 4 bs)))) (to_i16 (from_le (take 2 (drop 6 bs)))).

Definition event_bytes (e : EpollEvent) : list Z := to_le 4 (ev_events e) ++ to_le 8 (ev_data e).
Definition bytes_event (bs : list Z) : EpollEvent := mkEpollEvent (from_le (take 4 bs)) (from_le (take 8 (drop 4 bs))).

Definition has (mask flag : Z) : bool := negb (Z.land mask flag =? 0).

(** ** Readiness *)

Definition channel_ready (n : Net) (id : nat) (evs : Z) : Z :=
  let rev := if has evs POLLIN && match Channel.get (channels n) id with
                                  | Some ch => Channel.has_messages ch
                                  | None => false
                                  end
             then POLLIN else 0 in
  if has evs POLLOUT && match (Channel.get (channels n) id ≫= Channel.peer) ≫= Channel.get (channels n) with
                        | Some peer => negb (Channel.is_rx_full peer)
                        | None => false
                        end
  then Z.lor rev POLLOUT else rev.

Definition fd_check_ready (n : Net) (pid fd evs : Z) : Z :=
  if fd <? 0 then POLLNVAL else
  match get_fd_channel n pid fd with
  | Some id => channel_ready n id evs
  | None =>
      if fd =? 0 then (if has evs POLLIN && Console.read_key_peek (console n) then POLLIN else 0)
      else Z.land evs (Z.lor POLLIN POLLOUT)
  end.

(** The events of one watched descriptor, translated to [poll] and back. *)
Definition watch_events (n : Net) (pid : Z) (w : Waiters.EpollWatch) : Z :=
  let ev := if has (Waiters.events w) EPOLLIN then POLLIN else 0 in
  let ev := if has (Waiters.events w) EPOLLOUT then Z.lor ev POLLOUT else ev in
  let rev := fd_check_ready n pid (Waiters.fd w) ev in
  let er := if has rev POLLIN then EPOLLIN else 0 in
  let er := if has rev POLLOUT then Z.lor er EPOLLOUT else er in
  if has rev POLLERR then Z.lor er EPOLLERR else er.

(** The loop over the watches: at most [room] events. *)
Fixpoint ready_watches (n : Net) (pid : Z) (ws : list (option Waiters.EpollWatch)) (room : nat) : list EpollEvent :=
  match ws, room with
  | [], _ | _, O => []
  | None :: ws', _ => ready_watches n pid ws' room
  | Some w :: ws', S room' =>
      let er := watch_events n pid w in
      if er =? 0 then ready_watches n pid ws' room else mkEpollEvent er (Waiters.data w) :: ready_watches n pid ws' room'
  end.

Definition ready_events (n : Net) (pid epoll_id maxevents : Z) : list EpollEvent :=
  match Waiters.epoll_get (epoll_instances n) epoll_id with
  | Some inst => ready_watches n pid (Waiters.watches inst) (Z.to_nat maxevents)
  | None => []
  end.

Definition check_epoll_ready_uva (n : Net) (epoll_id pid events_ptr maxevents : Z) : Net * Z :=
  let evs := ready_events n pid epoll_id maxevents in
  (n <| world := set_active_mem (world n) (write_bytes (active_mem (world n)) events_ptr (concat (event_bytes <$> evs))) |>,
   Z.of_nat (length evs)).

Section wakeup.
Variable translate : Z -> Z -> option Z.
Variable home : Z -> option (Z * Z).

(** ** Delivery *)

(** The entries of a [pollfd] array at [a]: [revents] is filled in and the
    ready ones are counted. *)
Fixpoint deliver_pollfds (n : Net) (pid a : Z) (k : nat) : Net * Z :=
  match k with
  | O => (n, 0)
  | S k' =>
      let pfd := bytes_pollfd (phys_read home n a 8) in
      let rev := fd_check_ready n pid (fd pfd) (events pfd) in
      let '(n', ready) := deliver_pollfds (phys_write home n (a + 6) (to_le 2 (wrap 16 rev))) pid (a + 8) k' in
      (n', if rev =? 0 then ready else 1 + ready)
  end.

Definition deliver_poll_result_phys (n : Net) (w : Waiters.PollWaiter) : Net * Z :=
  match Waiters.kind w with
  | Waiters.Poll nfds => deliver_pollfds n (Waiters.pw_pid w) (Waiters.phys_buf w) (Z.to_nat nfds)
  | Waiters.EpollWait epoll_id maxevents =>
      let evs := ready_events n (Waiters.pw_pid w) epoll_id maxevents in
      (phys_write home n (Waiters.phys_buf w) (concat (event_bytes <$> evs)), Z.of_nat (length evs))
  end.

(** ** Looking for a waiter *)

Definition pollfds_at (n : Net) (a : Z) (k : nat) : list PollFd :=
  (fun i => bytes_pollfd (phys_read home n (a + 8 * Z.of_nat i) 8)) <$> seq 0 k.

Definition watches_of (n : Net) (epoll_id : Z) : list Waiters.EpollWatch :=
  match Waiters.epoll_get (epoll_instances n) epoll_id with
  | Some inst => omap id (Waiters.watches inst)
  | None => []
  end.

Definition poll_waiter_watches_stdin (n : Net) (w : Waiters.PollWaiter) : bool :=
  match Waiters.kind w with
  | Waiters.Poll nfds => existsb (fun p => (fd p =? 0) && has (events p) POLLIN) (pollfds_at n (Waiters.phys_buf w) (Z.to_nat nfds))
  | Waiters.EpollWait epoll_id _ =>
      existsb (fun x => (Waiters.fd x =? 0) && has (Waiters.events x) EPOLLIN) (watches_of n epoll_id)
  end.

(** [map[pid][fd] == channel_id], for a descriptor of the map. *)
Definition maps_to (n : Net) (pid fd : Z) (channel_id : nat) : bool :=
  (0 <=? fd) && (fd <? Waiters.MAX_FILES_PER_PROC) &&
  ((fd_channel_map n !!! Z.to_nat pid) !!! Z.to_nat fd =? channel_id)%nat.

Definition poll_waiter_watches_channel (n : Net) (w : Waiters.PollWaiter) (channel_id : nat) : bool :=
  let pid := Waiters.pw_pid w in
  if Waiters.MAX_PROCS <=? pid then false else
  match Waiters.kind w with
  | Waiters.Poll nfds =>
      existsb (fun p => maps_to n pid (fd p) channel_id && has (events p) POLLIN)
        (pollfds_at n (Waiters.phys_buf w) (Z.to_nat nfds))
  | Waiters.EpollWait epoll_id _ =>
      existsb (fun x => maps_to n pid (Waiters.fd x) channel_id && has (Waiters.events x) EPOLLIN) (watches_of n epoll_id)
  end.

(** The first registered waiter that [watching] holds of, taken out. *)
Definition take_waiter (n : Net) (watching : Waiters.PollWaiter -> bool) : Net * option Waiters.PollWaiter :=
  let ws := Waiters.poll_waiters (tables (world n)) in
  match position (fun o => match o with Some w => watching w | None => false end) ws with
  | Some i => (set_tables n ((tables (world n)) <| Waiters.poll_waiters := <[i := None]> ws |>), ws !!! i)
  | None => (n, None)
  end.

Definition cancel_timer (n : Net) (w : Waiters.PollWaiter) : Net :=
  match Waiters.timer_id w with
  | Some tid => set_tables n ((tables (world n)) <| Waiters.hrtimers := fst (HrTimer.cancel (Waiters.hrtimers (tables (world n))) tid) |>)
  | None => n
  end.

Definition register (n : Net) (pid : Z) (w : Waiters.PollWaiter) : Net :=
  if pid <? Waiters.MAX_PROCS
  then set_tables n ((tables (world n)) <| Waiters.poll_waiters := <[Z.to_nat pid := Some w]> (Waiters.poll_waiters (tables (world n))) |>)
  else n.

Definition wake_result (n : Net) (pid count : Z) : Net := set_sched n (wake_with_retval (sched (world n)) pid count).

Definition poll_wakeup_for_fd0 (n : Net) : Net :=
  let '(n, waiter) := take_waiter n (poll_waiter_watches_stdin n) in
  match waiter with
  | None => n
  | Some w =>
      let '(n, count) := deliver_poll_result_phys n w in
      if count =? 0 then register n (Waiters.pw_pid w) w
      else wake_result (cancel_timer n w) (Waiters.pw_pid w) count
  end.

Definition poll_wakeup_for_channel (n : Net) (channel_id : nat) : Net :=
  let '(n, waiter) := take_waiter n (fun w => poll_waiter_watches_channel n w channel_id) in
  match waiter with
  | None => n
  | Some w =>
      let '(n, count) := deliver_poll_result_phys (cancel_timer n w) w in
      wake_result n (Waiters.pw_pid w) count
  end.

(** ** The calls *)

(** The physical address of a buffer that lies in one page. *)
Definition translate_user_buf_phys (n : Net) (user_va size : Z) : outcome stuck (option Z) :=
  va ← virt_addr user_va;
  if 4096 <? Z.land va 4095 + size then Ok None else Ok (translate_running translate n va).

(** The common end of [poll] and [epoll_wait]: nothing is ready. *)
Definition wait_for (now : Z) (n : Net) (buf buf_size timeout_ms : Z) (kind : Waiters.PollWaiterKind) : outcome stuck netret :=
  let pid := current n in
  pa ← translate_user_buf_phys n buf buf_size;
  match pa with
  | None => Ok (Done n EFAULT)
  | Some phys_buf =>
      let n := n <| world := ProcessCtl.set_live_rax (world n) 0 |> in
      r ← (if 0 <? timeout_ms then
             expiry ← Bytes.chk 64 (now + timeout_ms * 1000000);
             let '(q, tid) := HrTimer.start (Waiters.hrtimers (tables (world n))) expiry (HrTimer.WakePid pid) in
             Ok (set_tables n ((tables (world n)) <| Waiters.hrtimers := q |>), Some tid)
           else Ok (n, None));
      let '(n, timer_id) := r in
      block (register n pid (Waiters.mkPollWaiter pid phys_buf buf_size kind timer_id))
  end.

Definition user_pollfds (n : Net) (fds_ptr : Z) (k : nat) : list PollFd :=
  (fun i => bytes_pollfd (read_bytes (active_mem (world n)) (fds_ptr + 8 * Z.of_nat i) 8)) <$> seq 0 k.

Definition with_revents (n : Net) (pid : Z) (p : PollFd) : PollFd := mkPollFd (fd p) (events p) (fd_check_ready n pid (fd p) (events p)).

Definition sys_poll (now : Z) (n : Net) (fds_ptr nfds timeout_ms : Z) : outcome stuck netret :=
  if 16 <? nfds then Ok (Done n EINVAL) else
  let buf_size := nfds * 8 in
  match (if 0 <? buf_size then validate_user_buffer fds_ptr buf_size else None) with
  | Some e => Ok (Done n e)
  | None =>
      let fds := with_revents n (current n) <$> user_pollfds n fds_ptr (Z.to_nat nfds) in
      let ready := Z.of_nat (length (filter (fun p => revents p <> 0) fds)) in
      if (0 <? ready) || (timeout_ms =? 0) then
        let m := write_bytes (active_mem (world n)) fds_ptr (concat (pollfd_bytes <$> fds)) in
        Ok (Done (n <| world := set_active_mem (world n) m |>) ready)
      else wait_for now n fds_ptr buf_size timeout_ms (Waiters.Poll nfds)
  end.

Definition sys_epoll_create (n : Net) : outcome stuck netret :=
  let '(slots, r) := Waiters.epoll_alloc (epoll_instances n) (current n) in
  match r with
  | None => Ok (Done n ENOMEM)
  | Some epoll_id =>
      let n := n <| epoll_instances := slots |> in
      let undo n := n <| epoll_instances := Waiters.epoll_free (epoll_instances n) epoll_id |> in
      match running (sched (world n)) with
      | None => Ok (Done (undo n) ESRCH)
      | Some proc =>
          let '(n, r) := allocate n (files proc) (EpollHandle epoll_id) in
          match r with
          | Some fd => Ok (Done (set_tables n (Waiters.set_epoll_fd (tables (world n)) (pid proc) fd epoll_id)) fd)
          | None => Ok (Done (undo n) EINVAL)
          end
      end
  end.

(** [EPOLL_FD_MAP] behind the checks of [epoll_ctl] and [epoll_wait]. *)
Definition epoll_of (n : Net) (epfd : Z) : Z + Z :=
  if Waiters.MAX_PROCS <=? current n then inr ESRCH else
  if (epfd <? 0) || (Waiters.MAX_FILES_PER_PROC <=? epfd) then inr EBADF else
  let epoll_id := Waiters.get_epoll_fd (tables (world n)) (current n) epfd in
  if epoll_id =? 0 then inr EBADF else inl epoll_id.

Definition set_watches (n : Net) (epoll_id : Z) (inst : Waiters.EpollInstance) (ws : list (option Waiters.EpollWatch)) : Net :=
  n <| epoll_instances := <[Z.to_nat (epoll_id - 1) := Some (Waiters.mkEpollInstance ws (Waiters.owner_pid inst))]> (epoll_instances n) |>.

(** [s.as_ref().map(|w| w.fd == fd).unwrap_or(false)]. *)
Definition watches_fd (fd : Z) (s : option Waiters.EpollWatch) : bool :=
  match s with Some w => Waiters.fd w =? fd | None => false end.

Definition new_watch (fd : Z) (ev : EpollEvent) : Waiters.EpollWatch :=
  Waiters.mkEpollWatch fd (ev_events ev) (ev_data ev) (has (ev_events ev) EPOLLET) false.

Definition modify_watch (ev : EpollEvent) (w : Waiters.EpollWatch) : Waiters.EpollWatch :=
  Waiters.mkEpollWatch (Waiters.fd w) (ev_events ev) (ev_data ev) (has (ev_events ev) EPOLLET) (Waiters.et_delivered w).

Definition sys_epoll_ctl (n : Net) (epfd op fd event_ptr : Z) : outcome stuck netret :=
  match epoll_of n epfd with
  | inr e => Ok (Done n e)
  | inl epoll_id =>
      match (if op =? EPOLL_CTL_DEL then None else validate_user_buffer event_ptr 12) with
      | Some e => Ok (Done n e)
      | None =>
          let ev := bytes_event (read_bytes (active_mem (world n)) event_ptr 12) in
          match Waiters.epoll_get (epoll_instances n) epoll_id with
          | None => Ok (Done n EBADF)
          | Some inst =>
              let ws := Waiters.watches inst in
              if op =? EPOLL_CTL_ADD then
                match position (fun s => bool_decide (s = None)) ws with
                | Some i => Ok (Done (set_watches n epoll_id inst (<[i := Some (new_watch fd ev)]> ws)) 0)
                | None => Ok (Done n ENOMEM)
                end
              else if op =? EPOLL_CTL_DEL then
                match position (watches_fd fd) ws with
                | Some i => Ok (Done (set_watches n epoll_id inst (<[i := None]> ws)) 0)
                | None => Ok (Done n ENOENT)
                end
              else if op =? EPOLL_CTL_MOD then
                match position (watches_fd fd) ws with
                | Some i => Ok (Done (set_watches n epoll_id inst (alter (fmap (modify_watch ev)) i ws)) 0)
                | None => Ok (Done n ENOENT)
                end
              else Ok (Done n EINVAL)
          end
      end
  end.

Definition sys_epoll_wait (now : Z) (n : Net) (epfd events_ptr maxevents timeout_ms : Z) : outcome stuck netret :=
  if (maxevents <=? 0) || (16 <? maxevents) then Ok (Done n EINVAL) else
  let buf_size := maxevents * 12 in
  match validate_user_buffer events_ptr buf_size with
  | Some e => Ok (Done n e)
  | None =>
      match epoll_of n epfd with
      | inr e => Ok (Done n e)
      | inl epoll_id =>
          let '(n, ready) := check_epoll_ready_uva n epoll_id (current n) events_ptr maxevents in
          if (0 <? ready) || (timeout_ms =? 0) then Ok (Done n ready)
          else wait_for now n events_ptr buf_size timeout_ms (Waiters.EpollWait epoll_id maxevents)
      end
  end.

End wakeup.

End Poll.
