(* ===== verification/Sockets.v ===== *)
(** Sockets: message channels between processes
    ([kernel/src/process/syscall/ipc.rs]).

    A listening socket is a channel bound to a path; [connect] makes a peer
    channel for the server and [accept] gives it a descriptor.  [sendmsg] puts
    a message of 64 bytes in the peer's queue or hands it to the process that
    is blocked in [recvmsg].  At most one process is known to be blocked in
    [accept] and one in [recvmsg] ([accept_waiter], [recv_waiter]). *)

From Stdlib Require Import ZArith Lia.
From stdpp Require Import base numbers gmap list.
From S2P Require Import Prelude Bytes FsTypes Vfs FdTable Process Signal HrTimer Waiters Scheduler ProcessCtl Channel HalTty Net Poll.

Local Open Scope Z_scope.

Module Sockets.
Import Process Signal Scheduler Net.

(** Code without an error value. *)
Definition lift {E A} (r : may_panic A) : outcome E A :=
  match r with Ok a => Ok a | Err e => match e with end | Panic => Panic end.

(** ** Channels *)

Definition set_peer (p : nat) (c : Channel.Channel) : Channel.Channel :=
  Channel.mkChannel (Channel.rx c) (Channel.read_waiters c) (Channel.accept_waiters c) (Some p) (Channel.server_state c) (Channel.bound_path c).
Definition set_server_state (st : Channel.ServerState) (c : Channel.Channel) : Channel.Channel :=
  Channel.mkChannel (Channel.rx c) (Channel.read_waiters c) (Channel.accept_waiters c) (Channel.peer c) (Some st) (Channel.bound_path c).
Definition set_bound_path (p : list Z) (c : Channel.Channel) : Channel.Channel :=
  Channel.mkChannel (Channel.rx c) (Channel.read_waiters c) (Channel.accept_waiters c) (Channel.peer c) (Channel.server_state c) (Some p).

(** [if let Some(ch) = tbl.get_mut(id) { .. }]. *)
Definition with_channel (t : Channel.ChannelTable) (id : nat) (f : Channel.Channel -> Channel.Channel) : Channel.ChannelTable :=
  match Channel.get t id with
  | Some ch => Channel.update t id (f ch)
  | None => t
  end.

(** [tbl.get_mut(id).and_then(|ch| ch.dequeue())]. *)
Definition dequeue_from (t : Channel.ChannelTable) (id : nat) : Channel.ChannelTable * option Channel.Message :=
  match Channel.get t id with
  | Some ch => let '(ch', m) := Channel.dequeue ch in (Channel.update t id ch', m)
  | None => (t, None)
  end.

(** [tbl.get_mut(id).map(|ch| ch.enqueue(msg))]. *)
Definition enqueue_to (t : Channel.ChannelTable) (id : nat) (m : Channel.Message) : Channel.ChannelTable * option bool :=
  match Channel.get t id with
  | Some ch => let '(ch', ok) := Channel.enqueue ch m in (Channel.update t id ch', Some ok)
  | None => (t, None)
  end.

(** ** The handle *)

Definition socket_read (id : nat) (size_ : Z) (n : Net) : may_panic (Net * (list Z + FsTypes.FileError)) :=
  let '(t, m) := dequeue_from (channels n) id in
  let n := n <| channels := t |> in
  match m with
  | Some m => bs ← unwrap (slice 0 (Z.to_nat (Z.min size_ (Channel.msg_len m))) (Channel.data m)); Ok (n, inl bs)
  | None => Ok (n, inl [])
  end.

Definition socket_write (id : nat) (buf : list Z) (n : Net) : Net * (Z + FsTypes.FileError) :=
  let msg := Channel.new 0 buf in
  match Channel.get (channels n) id ≫= Channel.peer with
  | Some pid =>
      let '(t, r) := enqueue_to (channels n) pid msg in
      (n <| channels := t |>, if default false r then inl (Bytes.size buf) else inr FsTypes.IOError)
  | None => (n, inr FsTypes.IOError)
  end.

Definition socket_close (id : nat) (n : Net) : Net := n <| channels := Channel.free (channels n) id |>.

Definition epoll_close (id : Z) (n : Net) : Net := n <| epoll_instances := Waiters.epoll_free (epoll_instances n) id |>.

(** ["socket"], ["epoll"]. *)
Definition SOCKET : list Z := [115; 111; 99; 107; 101; 116].
Definition EPOLL : list Z := [101; 112; 111; 108; 108].

Definition other {A} (r : may_panic (Net * Z * A)) : may_panic (Net * Handle * A) := q ← r; Ok (q.1.1, OtherHandle q.1.2, q.2).

Definition keep {A} (h : Handle) (r : may_panic (Net * A)) : may_panic (Net * Handle * A) := q ← r; Ok (q.1, h, q.2).
Definition dup_other (r : may_panic (Net * option Z)) : may_panic (Net * option Handle) := match r with Ok (n, o) => Ok (n, OtherHandle <$> o) | Err e => Err e | Panic => Panic end.

(** [impl FileHandle] for both, with the defaults of the trait for what they
    do not define; [others] are the handles of the rest of the kernel. *)
#[export] Instance net_handles (others : Vfs.FileHandles Net Z) : Vfs.FileHandles Net Handle := {|
  Vfs.h_read h size_ n :=
    match h with
    | SocketHandle id => keep h (socket_read id size_ n)
    | EpollHandle _ => Ok (n, h, inr FsTypes.NotSupported)
    | OtherHandle x => other (Vfs.h_read x size_ n)
    end;
  Vfs.h_write h buf n :=
    match h with
    | SocketHandle id => keep h (Ok (socket_write id buf n))
    | EpollHandle _ => Ok (n, h, inr FsTypes.NotSupported)
    | OtherHandle x => other (Vfs.h_write x buf n)
    end;
  Vfs.h_close h n :=
    match h with
    | SocketHandle id => Ok (socket_close id n, h, inl ())
    | EpollHandle id => Ok (epoll_close id n, h, inl ())
    | OtherHandle x => other (Vfs.h_close x n)
    end;
  Vfs.h_stat h n := match h with OtherHandle x => Vfs.h_stat x n | _ => Ok None end;
  Vfs.h_getdents64 h buf n :=
    match h with
    | OtherHandle x => other (Vfs.h_getdents64 x buf n)
    | _ => Ok (n, h, (buf, FsTypes.errno_i64 FsTypes.ENOTDIR))
    end;
  Vfs.h_dup h n :=
    match h with
    | OtherHandle x => dup_other (Vfs.h_dup x n)
    | _ => Ok (n, None)
    end;
  Vfs.h_seek h off whence n :=
    match h with
    | OtherHandle x => other (Vfs.h_seek x off whence n)
    | _ => Ok (n, h, inr FsTypes.NotSupported)
    end;
  Vfs.h_chmod h mode n :=
    match h with
    | OtherHandle x => other (Vfs.h_chmod x mode n)
    | _ => Ok (n, h, inl ())
    end;
  Vfs.h_name h := match h with SocketHandle _ => SOCKET | EpollHandle _ => EPOLL | OtherHandle x => Vfs.h_name x end;
  Vfs.h_drop h n := match h with OtherHandle x => Vfs.h_drop x n | _ => Ok n end;
|}.

(** ** Messages in memory *)

(** The 64 bytes stored: zeros, then tag, length and [len] bytes of data over
    them. *)
Definition message_bytes (m : Channel.Message) : list Z :=
  to_le 4 (Channel.tag m) ++ to_le 4 (Channel.msg_len m) ++
  take (Z.to_nat (Channel.msg_len m)) (Channel.data m) ++ replicate (56 - Z.to_nat (Channel.msg_len m)) 0.

(** The message [sendmsg] reads at [p]. *)
Definition user_message (m : mem) (p : Z) : Channel.Message :=
  let tag := from_le (read_bytes m p 4) in
  let len := Z.min (from_le (read_bytes m (p + 4) 4)) 56 in
  Channel.mkMessage tag len (splice 0 (read_bytes m (p + 8) (Z.to_nat len)) (replicate 56 0)).

(** The bytes at [p] up to a zero, at most [k]. *)
Fixpoint user_path (m : mem) (p : Z) (k : nat) : list Z :=
  match k with
  | O => []
  | S k' => let b := read_byte m p in if b =? 0 then [] else b :: user_path m (p + 1) k'
  end.

(** ** The calls *)

Definition sys_socket_impl (n : Net) : outcome stuck netret :=
  r ← lift (Channel.alloc (channels n));
  let '(t, id) := r in
  let n := n <| channels := t |> in
  match id with
  | None => Ok (Done n ENOMEM)
  | Some id =>
      match running (sched (world n)) with
      | Some proc =>
          let '(n, r) := allocate n (files proc) (SocketHandle id) in
          match r with
          | Some fd => Ok (Done (set_fd_channel n (pid proc) fd id) fd)
          | None => Ok (Done (socket_close id n) EINVAL)
          end
      | None => Ok (Done (socket_close id n) ESRCH)
      end
  end.

Definition sys_bind_impl (n : Net) (fd path_ptr : Z) : outcome stuck netret :=
  match validate_user_buffer path_ptr 64 with
  | Some e => Ok (Done n e)
  | None =>
      let path := user_path (active_mem (world n)) path_ptr 63 in
      if (length path =? 0)%nat then Ok (Done n EINVAL) else
      match get_fd_channel n (current n) (as_usize fd) with
      | None => Ok (Done n ENOTSOCK)
      | Some channel_id =>
          match Channel.get (channels n) channel_id with
          | None => Ok (Done n EBADF)
          | Some ch =>
              let ch := set_server_state Channel.Listening (set_bound_path (Channel.pad64 path) ch) in
              Ok (Done (n <| channels := Channel.update (channels n) channel_id ch |>) 0)
          end
      end
  end.

(** A descriptor for the new connection in the table of the process blocked in
    [accept]; [rax] of its saved frame is the result of its call. *)
Definition give_fd (n : Net) (who : Z) (server_peer : nat) : Net * Z :=
  let s := sched (world n) in
  match position (fun p => (pid p =? who) && bool_decide (state p = Blocked)) (wait_queue s) with
  | Some i =>
      match wait_queue s !! i with
      | Some proc =>
          let '(n, r) := allocate n (files proc) (SocketHandle server_peer) in
          let v := match r with Some fd => fd | None => EINVAL end in
          let s := s <| wait_queue := alter (fun p => p <| trapframe := (trapframe p) <| rax := wrap 64 v |> |>) i (wait_queue s) |> in
          (set_sched n s, v)
      | None => (n, EINVAL)
      end
  | None => (n, EINVAL)
  end.

Definition satisfy_accept (n : Net) (waiter : AcceptWaiter) (server server_peer : nat) : Net :=
  let n := n <| channels := with_channel (channels n) server (set_server_state Channel.Listening) |> in
  let '(n, new_fd) := give_fd n (aw_pid waiter) server_peer in
  let n := if 0 <=? new_fd then set_fd_channel n (aw_pid waiter) new_fd server_peer else n in
  set_sched n (wake (sched (world n)) (aw_pid waiter)).

Definition sys_connect (n : Net) (fd path_ptr : Z) : outcome stuck netret :=
  match validate_user_buffer path_ptr 64 with
  | Some e => Ok (Done n e)
  | None =>
      let path := user_path (active_mem (world n)) path_ptr 63 in
      match get_fd_channel n (current n) (as_usize fd) with
      | None => Ok (Done n ENOTSOCK)
      | Some client =>
          match Channel.find_by_path (channels n) path with
          | None => Ok (Done n ENOENT)
          | Some server =>
              match Channel.get (channels n) server ≫= Channel.server_state with
              | Some Channel.Listening =>
                  r ← lift (Channel.alloc (channels n));
                  match r.2 with
                  | None => Ok (Done (n <| channels := r.1 |>) ENOMEM)
                  | Some server_peer =>
                      let t := with_channel r.1 client (set_peer server_peer) in
                      let t := with_channel t server_peer (set_peer client) in
                      let t := with_channel t server (set_server_state (Channel.PendingConnect server_peer)) in
                      let n := n <| channels := t |> in
                      match accept_waiter n with
                      | Some w =>
                          if (server_channel_id w =? server)%nat
                          then Ok (Done (satisfy_accept (n <| accept_waiter := None |>) w server server_peer) 0)
                          else Ok (Done n 0)
                      | None => Ok (Done n 0)
                      end
                  end
              | _ => Ok (Done n ECONNREFUSED)
              end
          end
      end
  end.

Definition sys_accept (n : Net) (fd : Z) : outcome stuck netret :=
  let me := current n in
  match get_fd_channel n me (as_usize fd) with
  | None => Ok (Done n ENOTSOCK)
  | Some server =>
      match Channel.get (channels n) server with
      | None => Ok (Done n EBADF)
      | Some ch =>
          match Channel.server_state ch with
          | Some (Channel.PendingConnect peer_id) =>
              let n := n <| channels := Channel.update (channels n) server (set_server_state Channel.Listening ch) |> in
              match running (sched (world n)) with
              | Some proc =>
                  let '(n, r) := allocate n (files proc) (SocketHandle peer_id) in
                  match r with
                  | Some fd => Ok (Done (set_fd_channel n me fd peer_id) fd)
                  | None => Ok (Done n EINVAL)
                  end
              | None => Ok (Done n ESRCH)
              end
          | _ => block (n <| accept_waiter := Some (mkAcceptWaiter me server) |>)
          end
      end
  end.

Section messages.
Variable translate : Z -> Z -> option Z.
Variable home : Z -> option (Z * Z).

Definition write_msg_to_user (n : Net) (addr_space user_buf : Z) (msg : Channel.Message) : outcome stuck Net :=
  va ← virt_addr user_buf;
  match translate addr_space (page_of va) with
  | Some frame => Ok (phys_write home n (frame + Z.land va 4095) (message_bytes msg))
  | None => Ok n
  end.

Definition sys_sendmsg (n : Net) (fd msg_ptr : Z) : outcome stuck netret :=
  match validate_user_buffer msg_ptr 64 with
  | Some e => Ok (Done n e)
  | None =>
      let msg := user_message (active_mem (world n)) msg_ptr in
      match get_fd_channel n (current n) (as_usize fd) with
      | None => Ok (Done n ENOTSOCK)
      | Some channel_id =>
          match Channel.get (channels n) channel_id ≫= Channel.peer with
          | None => Ok (Done n ENOTCONN)
          | Some peer_id =>
              let enqueue_it :=
                match enqueue_to (channels n) peer_id msg with
                | (_, None) => Ok (Done n EPIPE)
                | (_, Some false) => Ok (Done n EAGAIN)
                | (t, Some true) => Ok (Done (Poll.poll_wakeup_for_channel home (n <| channels := t |>) peer_id) 64)
                end in
              match recv_waiter n with
              | Some w =>
                  if (rw_channel_id w =? peer_id)%nat then
                    let n := n <| recv_waiter := None |> in
                    let n := if negb (rw_phys_buf w =? 0) then phys_write home n (rw_phys_buf w) (message_bytes msg) else n in
                    Ok (Done (set_sched n (wake_with_retval (sched (world n)) (rw_pid w) 64)) 64)
                  else enqueue_it
              | None => enqueue_it
              end
          end
      end
  end.

Definition sys_recvmsg (n : Net) (fd msg_ptr : Z) : outcome stuck netret :=
  match validate_user_buffer msg_ptr 64 with
  | Some e => Ok (Done n e)
  | None =>
      let me := current n in
      match get_fd_channel n me (as_usize fd) with
      | None => Ok (Done n ENOTSOCK)
      | Some channel_id =>
          let '(t, queued) := dequeue_from (channels n) channel_id in
          let n := n <| channels := t |> in
          match queued with
          | Some m =>
              Ok (Done (n <| world := set_active_mem (world n) (write_bytes (active_mem (world n)) msg_ptr (message_bytes m)) |>) 64)
          | None =>
              let phys_buf := default 0 (translate_running translate n msg_ptr) in
              block (n <| recv_waiter := Some (mkRecvWaiter me channel_id phys_buf) |>)
          end
      end
  end.

End messages.

End Sockets.
