(* ===== verification/SocketInv.v ===== *)
(** Lemmas on sockets and poll: what writing through physical addresses does to
    the memory of processes, and which tables each operation leaves alone. *)

From Stdlib Require Import ZArith Lia.
From stdpp Require Import base numbers gmap list.
From S2P Require Import Prelude Ring Bytes FsTypes Vfs FdTable Process Signal HrTimer Waiters Scheduler SchedulerInv ProcessCtl Channel HalTty Net Poll Sockets.

Local Open Scope Z_scope.

Module SocketInv.
Import Process Signal Scheduler SchedulerInv Net Poll Sockets.

(** ** Physical memory *)

Section phys.
Variable home : Z -> option (Z * Z).
Implicit Types n : Net.

Definition put_space n (sp : Z) (m : mem) : Net := n <| world := (world n) <| umem := <[sp := m]> (umem (world n)) |> |>.

Lemma land_off a : Z.land a 4095 = a mod 4096.
Proof. change 4095 with (Z.ones 12). by rewrite Z.land_ones by lia. Qed.

Lemma page_of_eq f off : f mod 4096 = 0 -> 0 <= off < 4096 -> page_of (f + off) = f /\ Z.land (f + off) 4095 = off.
Proof.
  intros Hf Ho. assert ((f + off) mod 4096 = off) as E by (rewrite Z.add_mod, Hf by lia; rewrite Z.add_0_l, Z.mod_mod by lia; by apply Z.mod_small).
  unfold page_of. rewrite land_off, E. split; [lia|done].
Qed.

Lemma space_put n sp m sp' : space_mem (put_space n sp m) sp' = if decide (sp' = sp) then m else space_mem n sp'.
Proof. unfold space_mem, put_space. cbn. case_decide; subst; [by rewrite lookup_insert_eq|by rewrite lookup_insert_ne]. Qed.

Lemma put_put n sp m m' : put_space (put_space n sp m) sp m' = put_space n sp m'.
Proof. unfold put_space. cbn. by rewrite insert_insert_eq. Qed.

(** A write that stays in a frame is a write to the page it belongs to. *)
Lemma phys_write_in n f sp page off bs : home f = Some (sp, page) -> f mod 4096 = 0 -> 0 <= off -> off + Z.of_nat (length bs) <= 4096 -> bs <> [] ->
  phys_write home n (f + off) bs = put_space n sp (write_bytes (space_mem n sp) (page + off) bs).
Proof.
  intros Hh Hf. revert n off; induction bs as [|b bs IH]; intros n off Ho Hl Hne; [done|]. cbn [length] in Hl.
  destruct (page_of_eq f off Hf ltac:(lia)) as [Hp Hoff]. cbn [phys_write]. unfold phys_put. rewrite Hp, Hoff, Hh. cbn [write_bytes].
  fold (put_space n sp (<[page + off := b]> (space_mem n sp))). destruct bs as [|c bs]; [done|].
  rewrite <- Z.add_assoc, IH by (done || lia). rewrite put_put, space_put, decide_True by done. by rewrite Z.add_assoc.
Qed.

Lemma phys_read_in n f sp page off k : home f = Some (sp, page) -> f mod 4096 = 0 -> 0 <= off -> off + Z.of_nat k <= 4096 ->
  phys_read home n (f + off) k = read_bytes (space_mem n sp) (page + off) k.
Proof.
  intros Hh Hf. revert off; induction k as [|k IH]; intros off Ho Hl; [done|].
  destruct (page_of_eq f off Hf ltac:(lia)) as [Hp Hoff]. cbn [phys_read read_bytes]. unfold phys_get. rewrite Hp, Hoff, Hh.
  f_equal. rewrite <- !Z.add_assoc. apply IH; lia.
Qed.

(** ** What stays the same *)

(** Everything but memory, tables of waiters and the scheduler. *)
Definition same_tables n n' : Prop :=
  channels n' = channels n /\ fd_channel_map n' = fd_channel_map n /\ accept_waiter n' = accept_waiter n /\ recv_waiter n' = recv_waiter n /\
  epoll_instances n' = epoll_instances n /\ fd_tables n' = fd_tables n /\ console n' = console n.

#[export] Instance same_tables_refl : Reflexive same_tables.
Proof. by intros n. Qed.

#[export] Instance same_tables_trans : Transitive same_tables.
Proof. intros n1 n2 n3 (? & ? & ? & ? & ? & ? & ?) (? & ? & ? & ? & ? & ? & ?). unfold same_tables. by split_and!; etrans. Qed.

Lemma phys_put_same n a v : same_tables n (phys_put home n a v).
Proof. unfold phys_put. by destruct (home _) as [[sp page]|]. Qed.

Lemma phys_write_same n a bs : same_tables n (phys_write home n a bs).
Proof. revert n a; induction bs as [|b bs IH]; intros n a; cbn [phys_write]; [done|]. etrans; [apply phys_put_same|apply IH]. Qed.

Lemma phys_write_sched n a bs : sched (world (phys_write home n a bs)) = sched (world n) /\ tables (world (phys_write home n a bs)) = tables (world n).
Proof.
  revert n a; induction bs as [|b bs IH]; intros n a; cbn [phys_write]; [done|]. destruct (IH (phys_put home n a b) (a + 1)) as [-> ->].
  unfold phys_put. by destruct (home _) as [[sp page]|].
Qed.

Lemma deliver_pollfds_same n pid a k : same_tables n (deliver_pollfds home n pid a k).1.
Proof.
  revert n a; induction k as [|k IH]; intros n a; cbn [deliver_pollfds]; [done|].
  match goal with |- context [deliver_pollfds home ?x pid (a + 8) k] => pose proof (IH x (a + 8)) as H; destruct (deliver_pollfds home x pid (a + 8) k) as [n' r] end.
  cbn [fst] in *. etrans; [apply phys_write_same|exact H].
Qed.

Lemma deliver_same n w : same_tables n (deliver_poll_result_phys home n w).1.
Proof. unfold deliver_poll_result_phys. destruct (Waiters.kind w); [apply deliver_pollfds_same|apply phys_write_same]. Qed.

Lemma take_waiter_same n f : same_tables n (take_waiter n f).1.
Proof. unfold take_waiter. by destruct (position _ _). Qed.

Lemma cancel_timer_same n w : same_tables n (cancel_timer n w).
Proof. unfold cancel_timer. by destruct (Waiters.timer_id w). Qed.

Lemma register_same n pid w : same_tables n (register n pid w).
Proof. unfold register. by destruct (_ <? _). Qed.

Lemma wakeup_channel_same n id : same_tables n (poll_wakeup_for_channel home n id).
Proof.
  unfold poll_wakeup_for_channel. pose proof (take_waiter_same n (fun w => poll_waiter_watches_channel home n w id)) as H.
  destruct (take_waiter n _) as [n1 [w|]]; [|exact H]. cbn [fst] in H. pose proof (deliver_same (cancel_timer n1 w) w) as H2.
  destruct (deliver_poll_result_phys home (cancel_timer n1 w) w) as [n2 count]. cbn [fst] in H2. etrans; [exact H|]. etrans; [apply cancel_timer_same|]. exact H2.
Qed.

Lemma wakeup_fd0_same n : same_tables n (poll_wakeup_for_fd0 home n).
Proof.
  unfold poll_wakeup_for_fd0. pose proof (take_waiter_same n (poll_waiter_watches_stdin home n)) as H.
  destruct (take_waiter n _) as [n1 [w|]]; [|exact H]. cbn [fst] in H. pose proof (deliver_same n1 w) as H2.
  destruct (deliver_poll_result_phys home n1 w) as [n2 count]. cbn [fst] in H2. etrans; [exact H|]. etrans; [exact H2|].
  destruct (count =? 0); [apply register_same|]. etrans; [apply cancel_timer_same|done].
Qed.

End phys.

(** [allocate] is the descriptor table's, for the handles made here. *)
Lemma allocate_is (others : Vfs.FileHandles Net Z) n files h : (forall x, h <> OtherHandle x) ->
  FdTable.allocate (files_of n files) h n =
    Ok (n, files_of (allocate n files h).1 files, match (allocate n files h).2 with Some fd => inl fd | None => inr FsTypes.InvalidArgument end).
Proof.
  intros Hh. unfold FdTable.allocate, allocate. destruct (FdTable.free_slot 0 (files_of n files)) as [i|].
  - cbn [fst snd]. do 2 f_equal. unfold files_of at 2. cbn [fd_tables update_field]. rewrite lookup_insert_eq. done.
  - destruct h as [id|id|x]; [done|done|]. by destruct (Hh x).
Qed.

(** The state a call ends in. *)
Definition ret_net (r : netret) : Net := match r with Done n _ => n | Switched n _ => n end.

Lemma block_same n r : block n = Ok r -> same_tables n (ret_net r).
Proof.
  unfold block. destruct (ProcessCtl.switch_and_jump _ _) as [[w v|w tf]| |]; cbn [mbind outcome_bind]; [..|done|done]; by intros [= <-].
Qed.

(** ** Messages *)

Record message_wf (m : Channel.Message) : Prop := {
  wf_tag : in_width 32 (Channel.tag m);
  wf_len : 0 <= Channel.msg_len m <= 56;
  wf_data : Channel.data m = take (Z.to_nat (Channel.msg_len m)) (Channel.data m) ++ replicate (56 - Z.to_nat (Channel.msg_len m)) 0;
  wf_size : length (Channel.data m) = 56%nat;
}.

(** The message 64 bytes stand for. *)
Definition decode (bs : list Z) : Channel.Message :=
  let len := Z.min (from_le (take 4 (drop 4 bs))) 56 in
  Channel.mkMessage (from_le (take 4 bs)) len (splice 0 (take (Z.to_nat len) (drop 8 bs)) (replicate 56 0)).

Lemma user_message_decode m p : user_message m p = decode (read_bytes m p 64).
Proof.
  unfold user_message, decode. rewrite !drop_read_bytes by lia. rewrite !take_read_bytes by lia. cbn [Nat.sub]. change (Z.of_nat 4) with 4. change (Z.of_nat 8) with 8.
  done.
Qed.

Lemma length_message m : message_wf m -> length (message_bytes m) = 64%nat.
Proof. intros [_ Hl _ Hs]. unfold message_bytes. rewrite !length_app, !length_to_le, length_take, length_replicate, Hs. lia. Qed.

Lemma decode_message m : message_wf m -> decode (message_bytes m) = m.
Proof.
  intros [Ht Hl Hd Hs]. unfold decode, message_bytes. set (k := Z.to_nat (Channel.msg_len m)) in *. set (rest := take k _ ++ _).
  assert (drop 8 (to_le 4 (Channel.tag m) ++ to_le 4 (Channel.msg_len m) ++ rest) = rest) as -> by (rewrite app_assoc; apply drop_app_length'; by rewrite length_app, !length_to_le).
  rewrite take_app_length', drop_app_length', take_app_length' by (by rewrite length_to_le).
  rewrite !from_to_le by (done || (cbn; lia)). rewrite Z.min_l by lia. fold k.
  assert (length (take k (Channel.data m)) = k) as Hk by (rewrite length_take; lia). unfold rest. rewrite take_app_length' by done.
  unfold splice. rewrite Hk, take_0, drop_replicate, Nat.add_0_l. cbn [app]. rewrite <- Hd. by destruct m.
Qed.

Lemma decode_wf bs : bytes_ok bs -> length bs = 64%nat -> message_wf (decode bs).
Proof.
  intros Hb Hl. unfold decode. set (len := Z.min _ 56).
  assert (0 <= from_le (take 4 (drop 4 bs))) as Hn by (apply from_le_bound, Forall_take, Forall_drop, Hb).
  assert (0 <= len <= 56) as Hlen by lia. assert (length (take (Z.to_nat len) (drop 8 bs)) = Z.to_nat len) as Hk by (rewrite length_take, length_drop; lia).
  split; cbn [Channel.tag Channel.msg_len Channel.data].
  - pose proof (from_le_bound (take 4 bs) (Forall_take _ _ _ Hb)) as H. rewrite length_take, Nat.min_l in H by lia. exact H.
  - exact Hlen.
  - unfold splice. rewrite take_0, Hk, drop_replicate. cbn [app Nat.add]. by rewrite take_app_length' by done.
  - rewrite length_splice; rewrite ?length_replicate; lia.
Qed.

(** ** Channels *)

Implicit Types t : Channel.ChannelTable.

(** The messages waiting in a channel. *)
Definition mailbox t (id : nat) : list Channel.Message :=
  match Channel.get t id with Some ch => Channel.queue (Channel.rx ch) | None => [] end.

Record channels_ok t : Prop := {
  ch_table : Channel.table_ok t;
  ch_rings : forall id ch, Channel.get t id = Some ch -> Channel.ring_ok (Channel.rx ch) /\ Forall message_wf (Channel.queue (Channel.rx ch));
}.

Lemma get_lt t id ch : Channel.get t id = Some ch -> (id < length (Channel.slots t))%nat.
Proof. unfold Channel.get. intros H. apply lookup_lt_is_Some. by destruct (Channel.slots t !! id). Qed.

Lemma get_update t id ch ch0 id' : Channel.get t id = Some ch0 -> Channel.get (Channel.update t id ch) id' = if decide (id' = id) then Some ch else Channel.get t id'.
Proof.
  intros Hg. apply get_lt in Hg. unfold Channel.get, Channel.update. cbn [Channel.slots]. case_decide; subst; [by rewrite list_lookup_insert_eq|by rewrite list_lookup_insert_ne].
Qed.

Lemma update_table t id ch : Channel.table_ok t -> Channel.table_ok (Channel.update t id ch).
Proof. intros [H1 H2]. split; cbn; [by rewrite length_insert|done]. Qed.

(** A channel replaced by one with the ring [r]. *)
Lemma update_ok t id ch0 ch : channels_ok t -> Channel.get t id = Some ch0 -> Channel.ring_ok (Channel.rx ch) -> Forall message_wf (Channel.queue (Channel.rx ch)) ->
  channels_ok (Channel.update t id ch) /\ forall id', mailbox (Channel.update t id ch) id' = if decide (id' = id) then Channel.queue (Channel.rx ch) else mailbox t id'.
Proof.
  intros [Ht Hr] Hg H1 H2. split.
  - split; [by apply update_table|]. intros id' c. rewrite (get_update _ _ _ _ _ Hg). case_decide; [by intros [= <-]|apply Hr].
  - intros id'. unfold mailbox. rewrite (get_update _ _ _ _ _ Hg). by case_decide.
Qed.

Lemma with_channel_ok t id f : channels_ok t -> (forall c, Channel.rx (f c) = Channel.rx c) ->
  channels_ok (with_channel t id f) /\ forall id', mailbox (with_channel t id f) id' = mailbox t id'.
Proof.
  intros Ht Hf. unfold with_channel. destruct (Channel.get t id) as [ch|] eqn:Hg; [|done]. destruct (ch_rings _ Ht _ _ Hg) as [H1 H2].
  destruct (update_ok t id ch (f ch) Ht Hg) as [Hok Hm]; [by rewrite Hf..|]. split; [done|]. intros id'. rewrite Hm. case_decide; [|done]. subst. unfold mailbox. by rewrite Hg, Hf.
Qed.

Lemma enqueue_to_ok t id m : channels_ok t -> message_wf m ->
  match enqueue_to t id m with
  | (t', None) => Channel.get t id = None /\ t' = t
  | (t', Some false) => length (mailbox t id) = Channel.RING_CAP
  | (t', Some true) => (length (mailbox t id) < Channel.RING_CAP)%nat /\ channels_ok t' /\ forall id', mailbox t' id' = if decide (id' = id) then mailbox t id ++ [m] else mailbox t id'
  end.
Proof.
  intros Ht Hm. unfold enqueue_to. destruct (Channel.get t id) as [ch|] eqn:Hg; [|done]. destruct (ch_rings _ Ht _ _ Hg) as [H1 H2].
  pose proof (Channel.ring_step_refines (Channel.rx ch) (Channel.OpPush m) H1) as Hp. cbn [Channel.ring_step Channel.spec_step] in Hp.
  unfold Channel.enqueue. destruct (Channel.push (Channel.rx ch) m) as [r ok].
  assert (mailbox t id = Channel.queue (Channel.rx ch)) as -> by (unfold mailbox; by rewrite Hg).
  destruct (Nat.ltb_spec (length (Channel.queue (Channel.rx ch))) Channel.RING_CAP) as [Hlt|Hge]; destruct Hp as (Hr & Hq & Hok).
  - assert (ok = true) as -> by congruence. destruct (update_ok t id ch (Channel.set_rx ch r) Ht Hg Hr) as [Hok' Hmb]; [cbn; rewrite Hq; apply Forall_app; split; [done|by apply Forall_singleton]|].
    split_and!; [done|done|]. intros id'. rewrite Hmb. case_decide; [by cbn; rewrite Hq|done].
  - assert (ok = false) as -> by congruence. pose proof (Channel.length_queue (Channel.rx ch)). destruct H1. lia.
Qed.

Lemma dequeue_from_ok t id : channels_ok t ->
  match dequeue_from t id with
  | (t', None) => mailbox t id = [] /\ channels_ok t' /\ forall id', mailbox t' id' = mailbox t id'
  | (t', Some m) => message_wf m /\ channels_ok t' /\ mailbox t id = m :: mailbox t' id /\ forall id', id' <> id -> mailbox t' id' = mailbox t id'
  end.
Proof.
  intros Ht. unfold dequeue_from. destruct (Channel.get t id) as [ch|] eqn:Hg; [|by unfold mailbox; rewrite Hg]. destruct (ch_rings _ Ht _ _ Hg) as [H1 H2].
  pose proof (Channel.ring_step_refines (Channel.rx ch) Channel.OpPop H1) as Hp. cbn [Channel.ring_step Channel.spec_step] in Hp.
  assert (mailbox t id = Channel.queue (Channel.rx ch)) as Hmb by (unfold mailbox; by rewrite Hg).
  unfold Channel.dequeue. destruct (Channel.pop (Channel.rx ch)) as [r o]. destruct (Channel.queue (Channel.rx ch)) as [|m q]; destruct Hp as (Hr & Hq & Ho).
  - assert (o = None) as -> by congruence. destruct (update_ok t id ch (Channel.set_rx ch r) Ht Hg Hr) as [Hok Hm]; [cbn; rewrite Hq; constructor|].
    split_and!; [done|done|]. intros id'. rewrite Hm. case_decide; [|done]. subst. by cbn; rewrite Hq.
  - assert (o = Some m) as -> by congruence. apply Forall_cons in H2 as [Hwf H2]. destruct (update_ok t id ch (Channel.set_rx ch r) Ht Hg Hr) as [Hok Hm]; [by cbn; rewrite Hq|].
    split_and!; [done|done| |].
    + rewrite Hm, decide_True by done. cbn. by rewrite Hq.
    + intros id' Hne. by rewrite Hm, decide_False.
Qed.

Lemma alloc_ok t : channels_ok t -> exists t' r, Channel.alloc t = Ok (t', r) /\ channels_ok t' /\ (forall id, mailbox t' id = mailbox t id) /\
  (forall id, r = Some id -> Channel.get t id = None /\ Channel.get t' id = Some Channel.channel_new /\ (1 <= id)%nat /\ forall id', id' <> id -> Channel.get t' id' = Channel.get t id') /\
  (r = None -> forall id, (1 <= id < Channel.MAX_CHANNELS)%nat -> Channel.get t id <> None).
Proof.
  intros [Ht Hr]. destruct (Channel.alloc_loop_spec Channel.MAX_CHANNELS t Ht) as (t' & r & E & Ht' & H). exists t', r. split; [exact E|]. destruct r as [i|].
  - destruct H as (k & _ & Hi & Hfree & Hs). assert (i < length (Channel.slots t))%nat as Hlt by (by eapply lookup_lt_Some).
    assert (forall id, Channel.get t' id = if decide (id = i) then Some Channel.channel_new else Channel.get t id) as Hg.
    { intros id. unfold Channel.get. rewrite Hs. case_decide; subst; [by rewrite list_lookup_insert_eq|by rewrite list_lookup_insert_ne]. }
    assert (Channel.get t i = None) as Hn by (unfold Channel.get; by rewrite Hfree). split_and!.
    + split; [done|]. intros id ch. rewrite Hg. case_decide; [|apply Hr]. intros [= <-]. split; [apply Channel.ring_new_ok|constructor].
    + intros id. unfold mailbox. rewrite Hg. case_decide; [|done]. subst. by rewrite Hn.
    + intros id [= <-]. split_and!; [done|by rewrite Hg, decide_True|rewrite Hi; apply Channel.probe_range|]. intros id' Hne. by rewrite Hg, decide_False.
    + done.
  - destruct H as [Hs Hall]. assert (forall id, Channel.get t' id = Channel.get t id) as Hg by (intros; unfold Channel.get; by rewrite Hs). split_and!; [| |done|].
    + split; [done|]. intros id ch. rewrite Hg. apply Hr.
    + intros id. unfold mailbox. by rewrite Hg.
    + intros _ id Hid Hn. destruct (Channel.probe_complete (Channel.next_id t) id (Channel.table_next _ Ht) Hid) as (k & Hk & Hpk). apply (Hall k); [lia|]. rewrite Hpk.
      unfold Channel.get in Hn. destruct (lookup_lt_is_Some_2 (Channel.slots t) id) as [o Ho]; [rewrite (Channel.table_slots _ Ht); lia|]. rewrite Ho in *. by destruct o.
Qed.

Lemma free_ok t id : channels_ok t -> channels_ok (Channel.free t id) /\ forall id', mailbox (Channel.free t id) id' = if decide (id' = id) then [] else mailbox t id'.
Proof.
  intros [[Hl Hn] Hr]. unfold Channel.free. destruct (Nat.ltb_spec id Channel.MAX_CHANNELS) as [Hlt|Hge].
  - assert (forall id', Channel.get (Channel.mkTable (<[id := None]> (Channel.slots t)) (Channel.next_id t)) id' = if decide (id' = id) then None else Channel.get t id') as Hg.
    { intros id'. unfold Channel.get. cbn [Channel.slots]. case_decide; subst; [by rewrite list_lookup_insert_eq by lia|by rewrite list_lookup_insert_ne]. }
    split; [split; [split; cbn; [by rewrite length_insert|done]|]|].
    + intros id' ch. rewrite Hg. case_decide; [done|apply Hr].
    + intros id'. unfold mailbox. rewrite Hg. by case_decide.
  - split; [done|]. intros id'. case_decide; [|done]. subst. unfold mailbox, Channel.get. by rewrite lookup_ge_None_2 by lia.
Qed.

(** ** [poll] *)

Lemma fd_check_ready_same n n' pid fd evs : same_tables n n' -> fd_check_ready n' pid fd evs = fd_check_ready n pid fd evs.
Proof. intros (Ec & Em & _ & _ & _ & _ & Ek). unfold fd_check_ready, get_fd_channel, channel_ready. by rewrite Ec, Em, Ek. Qed.

Lemma with_revents_same n n' pid p : same_tables n n' -> with_revents n' pid p = with_revents n pid p.
Proof. intros H. unfold with_revents. by rewrite (fd_check_ready_same n n'). Qed.

Lemma ready_bound n pid fd evs : 0 <= fd_check_ready n pid fd evs < 2 ^ 15.
Proof.
  unfold fd_check_ready. destruct (fd <? 0); [done|]. destruct (get_fd_channel _ _ _).
  - unfold channel_ready. by destruct (has evs POLLIN && _), (has evs POLLOUT && _).
  - destruct (fd =? 0); [by destruct (_ && _)|]. change (Z.lor POLLIN POLLOUT) with 5. split; [apply Z.land_nonneg; by right|].
    assert (Z.land evs 5 = Z.land (evs mod 8) 5) as ->. { change 8 with (2 ^ 3). rewrite <- (Z.land_ones evs 3), <- Z.land_assoc by lia. done. }
    pose proof (Z.mod_pos_bound evs 8 ltac:(lia)) as Hm. set (x := evs mod 8) in *. assert (x = 0 \/ x = 1 \/ x = 2 \/ x = 3 \/ x = 4 \/ x = 5 \/ x = 6 \/ x = 7) as Hx by lia.
    repeat (destruct Hx as [-> | Hx]; [done|]). by subst x; rewrite Hx.
Qed.

Lemma to_i16_small z : 0 <= z < 2 ^ 15 -> to_i16 (wrap 16 z) = z.
Proof. intros H. unfold to_i16, wrap. rewrite Z.mod_mod, Z.mod_small by lia. by rewrite (proj2 (Z.ltb_lt _ _)) by lia. Qed.

Section poll.
Variable home : Z -> option (Z * Z).

Lemma pollfds_cons n a k : pollfds_at home n a (S k) = bytes_pollfd (phys_read home n a 8) :: pollfds_at home n (a + 8) k.
Proof.
  unfold pollfds_at. cbn [seq fmap list_fmap]. rewrite Z.mul_0_r, Z.add_0_r. f_equal. rewrite <- fmap_S_seq, <- list_fmap_compose. apply list_fmap_ext. intros i x _. cbn [compose].
  by replace (a + 8 * Z.of_nat (S x)) with (a + 8 + 8 * Z.of_nat x) by lia.
Qed.

(** Filling in the array of a waiter whose buffer lies in the frame [f]. *)
Lemma deliver_pollfds_ok f sp page pid k : home f = Some (sp, page) -> f mod 4096 = 0 -> forall n off, 0 <= off -> off + 8 * Z.of_nat k <= 4096 ->
  let ps := with_revents n pid <$> pollfds_at home n (f + off) k in
  exists m, (forall x, ~ page + off <= x < page + off + 8 * Z.of_nat k -> m !! x = space_mem n sp !! x) /\
    deliver_pollfds home n pid (f + off) k = (match k with O => n | _ => put_space n sp m end, Z.of_nat (length (filter (fun p => revents p <> 0) ps))) /\
    pollfds_at home (put_space n sp m) (f + off) k = ps.
Proof.
  intros Hh Hf. induction k as [|k IH]; intros n off Ho Hl; cbv zeta; [by exists (space_mem n sp)|].
  rewrite pollfds_cons. cbn [deliver_pollfds fmap list_fmap]. set (pfd := bytes_pollfd (phys_read home n (f + off) 8)). set (rev := fd_check_ready n pid (fd pfd) (events pfd)).
  set (m1 := write_bytes (space_mem n sp) (page + (off + 6)) (to_le 2 (wrap 16 rev))).
  assert (phys_write home n (f + off + 6) (to_le 2 (wrap 16 rev)) = put_space n sp m1) as -> by (rewrite <- Z.add_assoc; apply phys_write_in; rewrite ?length_to_le; done || lia).
  set (n1 := put_space n sp m1). assert (same_tables n n1) as Hsame by done.
  destruct (IH n1 (off + 8)) as (m & Hm & Hd & Hps); [lia|lia|]. rewrite (Z.add_assoc f off 8) in Hd, Hps. rewrite Hd.
  assert (forall n2 o, 0 <= o -> o + 8 <= 4096 -> phys_read home n2 (f + o) 8 = read_bytes (space_mem n2 sp) (page + o) 8) as Hread by (intros; by apply phys_read_in).
  assert (pollfds_at home n1 (f + off + 8) k = pollfds_at home n (f + off + 8) k) as Hrest.
  { unfold pollfds_at. apply list_fmap_ext. intros i x Hi. apply lookup_seq in Hi as [-> Hi]. f_equal. replace (f + off + 8 + 8 * Z.of_nat (0 + i)) with (f + (off + 8 + 8 * Z.of_nat i)) by lia.
    rewrite !Hread by lia. unfold n1. rewrite space_put, decide_True by done. unfold m1. apply read_write_bytes_ne. rewrite length_to_le. lia. }
  rewrite Hrest in Hd, Hps. assert (with_revents n1 pid <$> pollfds_at home n (f + off + 8) k = with_revents n pid <$> pollfds_at home n (f + off + 8) k) as Hw by (apply list_fmap_ext; intros; by apply with_revents_same).
  exists (match k with O => m1 | _ => m end).
  assert (forall x, ~ page + (off + 8) <= x < page + off + 8 * Z.of_nat (S k) -> match k with O => m1 | _ => m end !! x = m1 !! x) as Hm1.
  { intros x Hx. destruct k; [done|]. rewrite Hm by lia. unfold n1. by rewrite space_put, decide_True. }
  split_and!.
  - intros x Hx. rewrite Hm1 by lia. unfold m1. apply write_bytes_lookup_ne. rewrite length_to_le. lia.
  - rewrite Hrest, Hw. f_equal; [destruct k; [done|apply put_put]|]. rewrite filter_cons. change (revents (with_revents n pid pfd)) with rev.
    destruct (Z.eqb_spec rev 0) as [E|E]; [by rewrite decide_False by (intros H; by apply H)|]. rewrite decide_True by done. cbn [length]. lia.
  - rewrite pollfds_cons. f_equal.
    + rewrite Hread by lia. rewrite space_put, decide_True by done.
      assert (read_bytes (match k with O => m1 | _ => m end) (page + off) 8 = read_bytes (space_mem n sp) (page + off) 6 ++ to_le 2 (wrap 16 rev)) as ->.
      { transitivity (read_bytes m1 (page + off) 8); [apply read_bytes_ext; intros x Hx; apply Hm1; lia|]. change 8%nat with (6 + 2)%nat. rewrite read_bytes_app. f_equal.
        - unfold m1. apply read_write_bytes_ne. lia.
        - unfold m1. rewrite <- Z.add_assoc. pose proof (read_write_bytes (space_mem n sp) (page + (off + 6)) (to_le 2 (wrap 16 rev))) as R. rewrite length_to_le in R. exact R. }
      set (b := read_bytes (space_mem n sp) (page + off) 6). assert (length b = 6%nat) as Hb by apply length_read_bytes.
      assert (fd pfd = to_i32 (from_le (take 4 b)) /\ events pfd = to_i16 (from_le (take 2 (drop 4 b)))) as [Hfd Hev].
      { unfold pfd, bytes_pollfd. cbn [fd events]. rewrite Hread by lia. unfold b. rewrite !drop_read_bytes by lia. by rewrite !take_read_bytes by lia. }
      change (with_revents n pid pfd) with (mkPollFd (fd pfd) (events pfd) rev). unfold bytes_pollfd. rewrite Hfd, Hev, take_app_le, (drop_app_le b), (take_app_le (drop 4 b)) by (rewrite ?length_drop; lia).
      rewrite drop_app_length', (take_ge (to_le 2 _)), from_to_le by (rewrite ?length_to_le; done || (unfold wrap; apply Z.mod_pos_bound; lia)).
      f_equal. apply to_i16_small, ready_bound.
    + destruct k; [done|]. rewrite <- Hw, <- Hps. unfold n1. by rewrite put_put.
Qed.

End poll.

(** *** In the caller's memory *)

Lemma to_i32_range z : - 2 ^ 31 <= to_i32 z < 2 ^ 31.
Proof. unfold to_i32. cbv zeta. pose proof (Z.mod_pos_bound z (2 ^ 32) ltac:(lia)). unfold wrap. case_bools; lia. Qed.

Lemma to_i32_wrap x : - 2 ^ 31 <= x < 2 ^ 31 -> to_i32 (wrap 32 x) = x.
Proof. intros H. unfold to_i32, wrap. cbv zeta. rewrite Z.mod_mod by lia. case_bools; Z.to_euclidean_division_equations; lia. Qed.

Lemma to_i16_range z : - 2 ^ 15 <= to_i16 z < 2 ^ 15.
Proof. unfold to_i16. cbv zeta. pose proof (Z.mod_pos_bound z (2 ^ 16) ltac:(lia)). unfold wrap. case_bools; lia. Qed.

Lemma to_i16_wrap x : - 2 ^ 15 <= x < 2 ^ 15 -> to_i16 (wrap 16 x) = x.
Proof. intros H. unfold to_i16, wrap. cbv zeta. rewrite Z.mod_mod by lia. case_bools; Z.to_euclidean_division_equations; lia. Qed.

Record pollfd_wf (p : PollFd) : Prop := {
  wf_fd : - 2 ^ 31 <= fd p < 2 ^ 31;
  wf_events : - 2 ^ 15 <= events p < 2 ^ 15;
  wf_revents : - 2 ^ 15 <= revents p < 2 ^ 15;
}.

Lemma bytes_pollfd_wf bs : pollfd_wf (bytes_pollfd bs).
Proof. split; cbn [bytes_pollfd fd events revents]; [apply to_i32_range|apply to_i16_range..]. Qed.

Lemma with_revents_wf n pid p : pollfd_wf p -> pollfd_wf (with_revents n pid p).
Proof. intros [H1 H2 _]. split; [done|done|]. cbn. pose proof (ready_bound n pid (fd p) (events p)). lia. Qed.

Lemma length_pollfd p : length (pollfd_bytes p) = 8%nat.
Proof. unfold pollfd_bytes. by rewrite !length_app, !length_to_le. Qed.

Lemma pollfd_roundtrip p : pollfd_wf p -> bytes_pollfd (pollfd_bytes p) = p.
Proof.
  intros [H1 H2 H3]. unfold bytes_pollfd, pollfd_bytes. rewrite take_app_length' by (by rewrite length_to_le). rewrite drop_app_length' by (by rewrite length_to_le).
  rewrite (app_assoc (to_le 4 _)), (drop_app_length' (_ ++ _)) by (by rewrite length_app, !length_to_le). rewrite take_app_length', (take_ge (to_le 2 (wrap 16 (revents p)))) by (by rewrite length_to_le).
  rewrite !from_to_le by (unfold wrap; apply Z.mod_pos_bound; lia). rewrite to_i32_wrap, !to_i16_wrap by done. by destruct p.
Qed.

(** The array written back is the array read. *)
Lemma pollfds_written ps a m : Forall pollfd_wf ps ->
  (fun i => bytes_pollfd (read_bytes (write_bytes m a (concat (pollfd_bytes <$> ps))) (a + 8 * Z.of_nat i) 8)) <$> seq 0 (length ps) = ps.
Proof.
  revert a m; induction ps as [|p ps IH]; intros a m Hwf; [done|]. apply Forall_cons in Hwf as [Hp Hwf]. cbn [fmap list_fmap concat length seq]. rewrite write_bytes_app, length_pollfd. f_equal.
  - rewrite Z.mul_0_r, Z.add_0_r, read_write_bytes_ne by (left; lia). pose proof (read_write_bytes m a (pollfd_bytes p)) as R. rewrite length_pollfd in R. rewrite R. by apply pollfd_roundtrip.
  - rewrite <- (IH (a + Z.of_nat 8) (write_bytes m a (pollfd_bytes p)) Hwf) at 2. rewrite <- fmap_S_seq, <- list_fmap_compose. apply list_fmap_ext. intros i x _. cbn [compose].
    by replace (a + 8 * Z.of_nat (S x)) with (a + Z.of_nat 8 + 8 * Z.of_nat x) by lia.
Qed.

Lemma length_pollfds_bytes ps : length (concat (pollfd_bytes <$> ps)) = (8 * length ps)%nat.
Proof. induction ps as [|p ps IH]; [done|]. cbn [fmap list_fmap concat length]. rewrite length_app, length_pollfd, IH. lia. Qed.


End SocketInv.
