(* ===== verification/SocketProps.v ===== *)
(** Properties of sockets and poll: messages arrive once and in order, a blocked
    receiver is woken by the next message, connections, and what [poll]
    reports. *)

From Stdlib Require Import ZArith Lia.
From stdpp Require Import base numbers gmap list.
From S2P Require Import Prelude Ring Bytes FsTypes Vfs FdTable Process Signal HrTimer Waiters Scheduler SchedulerInv ProcessCtl Channel HalTty Net Poll Sockets SocketInv.

Local Open Scope Z_scope.

Module SocketProps.
Import Process Signal Scheduler SchedulerInv Net Poll Sockets SocketInv.

(** ** Runs *)

Section runs.
Variable translate : Z -> Z -> option Z.
Variable home : Z -> option (Z * Z).
Implicit Types n : Net.

(** Frames belong to one page of one address space, and frame 0 to none. *)
Record private : Prop := {
  pr_home sp page f : translate sp page = Some f -> home f = Some (sp, page);
  pr_frame sp page f : translate sp page = Some f -> 0 < f /\ f mod 4096 = 0;
}.

(** The calls that send and receive nothing. *)
Inductive call :=
| CSocket
| CBind (fd path : Z)
| CConnect (fd path : Z)
| CAccept (fd : Z)
| CPoll (now fds nfds timeout : Z)
| CEpollCreate
| CEpollCtl (epfd op fd event : Z)
| CEpollWait (now epfd events maxevents timeout : Z).

Definition run_call n (c : call) : outcome stuck netret :=
  match c with
  | CSocket => sys_socket_impl n
  | CBind fd path => sys_bind_impl n fd path
  | CConnect fd path => sys_connect n fd path
  | CAccept fd => sys_accept n fd
  | CPoll now fds nfds timeout => sys_poll translate now n fds nfds timeout
  | CEpollCreate => sys_epoll_create n
  | CEpollCtl epfd op fd event => sys_epoll_ctl n epfd op fd event
  | CEpollWait now epfd events maxevents timeout => sys_epoll_wait translate now n epfd events maxevents timeout
  end.

(** What happens to messages: one is sent to a channel, one reaches a buffer of
    the process that receives from the channel, one is lost with the channel,
    or a receiver blocks. *)
Inductive label :=
| Sent (id : nat) (m : Channel.Message)
| Taken (id : nat) (m : Channel.Message)
| Dropped (id : nat) (m : Channel.Message)
| Waits (id : nat).

Definition fd_channel n (fd : Z) : option nat := get_fd_channel n (current n) (as_usize fd).
Definition fd_peer n (fd : Z) : option nat := fd_channel n fd ≫= fun id => Channel.get (channels n) id ≫= Channel.peer.

(** The message a blocked receiver of [id] finds in its buffer. *)
Definition handed n n' (id : nat) : list label :=
  match recv_waiter n with
  | Some w => if (rw_channel_id w =? id)%nat then [Taken id (decode (phys_read home n' (rw_phys_buf w) 64))] else []
  | None => []
  end.

(** A step of the system, by whichever process runs.  A receiver that blocks
    has its buffer in one page that has a frame; the rest of the kernel leaves
    channels and the registered receiver alone. *)
Inductive step : Net -> list label -> Net -> Prop :=
| st_send n fd ptr n' id :
    fd_peer n fd = Some id -> bytes_ok (read_bytes (active_mem (world n)) ptr 64) ->
    sys_sendmsg home n fd ptr = Ok (Done n' 64) -> step n (Sent id (user_message (active_mem (world n)) ptr) :: handed n n' id) n'
| st_not_sent n fd ptr n' v : sys_sendmsg home n fd ptr = Ok (Done n' v) -> v <> 64 -> step n [] n'
| st_recv n fd ptr n' id :
    fd_channel n fd = Some id -> sys_recvmsg translate n fd ptr = Ok (Done n' 64) -> step n [Taken id (user_message (active_mem (world n')) ptr)] n'
| st_not_recv n fd ptr n' v : sys_recvmsg translate n fd ptr = Ok (Done n' v) -> v <> 64 -> step n [] n'
| st_wait n fd ptr n' tf id :
    fd_channel n fd = Some id -> Z.land ptr 4095 + 64 <= 4096 -> is_Some (translate_running translate n ptr) ->
    sys_recvmsg translate n fd ptr = Ok (Switched n' tf) -> step n [Waits id] n'
| st_call n c r : run_call n c = Ok r -> step n [] (ret_net r)
| st_key n : step n [] (poll_wakeup_for_fd0 home n)
| st_close n id : step n (Dropped id <$> mailbox (channels n) id) (socket_close id n)
| st_rest n n' : channels n' = channels n -> recv_waiter n' = recv_waiter n -> step n [] n'.

Inductive steps : Net -> list label -> Net -> Prop :=
| no_steps n : steps n [] n
| more_steps n1 ls1 n2 ls2 n3 : step n1 ls1 n2 -> steps n2 ls2 n3 -> steps n1 (ls1 ++ ls2) n3.

Definition sent (id : nat) (ls : list label) : list Channel.Message :=
  omap (fun l => match l with Sent i m => if decide (i = id) then Some m else None | _ => None end) ls.
Definition taken (id : nat) (ls : list label) : list Channel.Message :=
  omap (fun l => match l with Taken i m | Dropped i m => if decide (i = id) then Some m else None | _ => None end) ls.

(** ** Invariant *)

(** The buffer of the registered receiver lies in one frame of a process. *)
Definition buffer_ok (w : RecvWaiter) : Prop := exists f sp page off,
  rw_phys_buf w = f + off /\ home f = Some (sp, page) /\ 0 < f /\ f mod 4096 = 0 /\ 0 <= off /\ off + 64 <= 4096.

Record net_inv n : Prop := {
  inv_channels : channels_ok (channels n);
  inv_waiter : forall w, recv_waiter n = Some w -> mailbox (channels n) (rw_channel_id w) = [] /\ buffer_ok w;
}.

(** Channels only gain empty ones. *)
Definition same_mail n n' : Prop :=
  channels_ok (channels n') /\ (forall id, mailbox (channels n') id = mailbox (channels n) id) /\ recv_waiter n' = recv_waiter n.

Lemma same_tables_mail n n' : channels_ok (channels n) -> same_tables n n' -> same_mail n n'.
Proof. intros Hc (E & _ & _ & Er & _). unfold same_mail. rewrite E, Er. done. Qed.

Lemma same_mail_trans n1 n2 n3 : same_mail n1 n2 -> same_mail n2 n3 -> same_mail n1 n3.
Proof. intros (_ & M1 & R1) (C2 & M2 & R2). unfold same_mail. split_and!; [done| |congruence]. intros id. by rewrite M2. Qed.

Lemma mail_of n t : channels_ok t -> (forall id, mailbox t id = mailbox (channels n) id) -> same_mail n (n <| channels := t |>).
Proof. intros. unfold same_mail. by split_and!. Qed.

Lemma allocate_same n files h : channels (allocate n files h).1 = channels n /\ recv_waiter (allocate n files h).1 = recv_waiter n.
Proof. unfold allocate. by destruct (FdTable.free_slot _ _). Qed.

Lemma set_fd_channel_same n pid fd id : channels (set_fd_channel n pid fd id) = channels n /\ recv_waiter (set_fd_channel n pid fd id) = recv_waiter n.
Proof. unfold set_fd_channel. by destruct (in_map _ _). Qed.

Lemma mail_eq n n' : channels_ok (channels n) -> channels n' = channels n -> recv_waiter n' = recv_waiter n -> same_mail n n'.
Proof. intros Hc E Er. unfold same_mail. rewrite E, Er. done. Qed.

Lemma give_fd_same n who peer : channels (give_fd n who peer).1 = channels n /\ recv_waiter (give_fd n who peer).1 = recv_waiter n.
Proof.
  unfold give_fd. destruct (position _ _) as [i|]; [|done]. destruct (wait_queue _ !! i) as [proc|]; [|done].
  pose proof (allocate_same n (files proc) (SocketHandle peer)) as H. by destruct (allocate n _ _) as [n2 r].
Qed.

Lemma satisfy_accept_mail n w server peer : channels_ok (channels n) -> same_mail n (satisfy_accept n w server peer).
Proof.
  intros Hc. unfold satisfy_accept. destruct (with_channel_ok (channels n) server (set_server_state Channel.Listening) Hc) as [Hc1 Hm1]; [done|].
  set (n1 := n <| channels := _ |>). apply (same_mail_trans n n1); [by apply mail_of|]. pose proof (give_fd_same n1 (aw_pid w) peer) as [H1 H2].
  destruct (give_fd n1 _ _) as [n2 fd]. cbn [fst] in *. apply mail_eq; [done| |]; cbn; destruct (0 <=? fd); try done; etrans; [apply set_fd_channel_same|done|apply set_fd_channel_same|done].
Qed.

Lemma wait_for_same now n buf size timeout kind r : wait_for translate now n buf size timeout kind = Ok r -> same_tables n (ret_net r).
Proof.
  unfold wait_for, translate_user_buf_phys. destruct (virt_addr buf) as [va| |]; cbn [mbind outcome_bind]; [|done..].
  destruct (4096 <? _); cbn [mbind outcome_bind]; [by intros [= <-]|]. destruct (translate_running translate n va) as [pa|]; cbn [mbind outcome_bind]; [|by intros [= <-]].
  destruct (0 <? timeout).
  - destruct (Bytes.chk 64 _) as [e| |]; cbn [mbind outcome_bind]; [|done..]. destruct (HrTimer.start _ _ _) as [q tid]. cbn [mbind outcome_bind].
    intros H%block_same. etrans; [|exact H]. etrans; [|apply register_same]. done.
  - cbn [mbind outcome_bind]. intros H%block_same. etrans; [|exact H]. etrans; [|apply register_same]. done.
Qed.

Lemma connect_mail n fd path r : channels_ok (channels n) -> sys_connect n fd path = Ok r -> same_mail n (ret_net r).
Proof.
  intros Hc. unfold sys_connect. destruct (validate_user_buffer _ _); [intros [= <-]; by apply mail_eq|].
  destruct (get_fd_channel _ _ _) as [client|]; [|intros [= <-]; by apply mail_eq]. destruct (Channel.find_by_path _ _) as [server|]; [|intros [= <-]; by apply mail_eq].
  destruct (_ ≫= Channel.server_state) as [[|]|]; [|intros [= <-]; by apply mail_eq..].
  destruct (alloc_ok (channels n) Hc) as (t & o & -> & Hc1 & Hm1 & _). cbn [lift mbind outcome_bind fst snd]. destruct o as [peer|]; [|intros [= <-]; by apply mail_of].
  destruct (with_channel_ok t client (set_peer peer) Hc1) as [Hc2 Hm2]; [done|]. destruct (with_channel_ok _ peer (set_peer client) Hc2) as [Hc3 Hm3]; [done|].
  destruct (with_channel_ok _ server (set_server_state (Channel.PendingConnect peer)) Hc3) as [Hc4 Hm4]; [done|]. set (n1 := n <| channels := _ |>).
  assert (same_mail n n1) as H1 by (apply mail_of; [done|]; intros id; by rewrite Hm4, Hm3, Hm2, Hm1).
  destruct (accept_waiter n1) as [w|]; [|by intros [= <-]]. destruct (_ =? _)%nat; [|by intros [= <-]]. intros [= <-]. apply (same_mail_trans n n1); [done|].
  apply (same_mail_trans n1 (n1 <| accept_waiter := None |>)); [by apply mail_eq|by apply satisfy_accept_mail].
Qed.

Lemma accept_mail n fd r : channels_ok (channels n) -> sys_accept n fd = Ok r -> same_mail n (ret_net r).
Proof.
  intros Hc. unfold sys_accept. destruct (get_fd_channel _ _ _) as [server|]; [|intros [= <-]; by apply mail_eq]. destruct (Channel.get _ server) as [ch|] eqn:Hg; [|intros [= <-]; by apply mail_eq].
  destruct (ch_rings _ Hc _ _ Hg) as [Hr Hq].
  destruct (update_ok _ _ _ (set_server_state Channel.Listening ch) Hc Hg Hr Hq) as [Hc1 Hm1].
  assert (forall q, block (n <| accept_waiter := q |>) = Ok r -> same_mail n (ret_net r)) as Hblock.
  { intros q H%block_same. apply (same_mail_trans n (n <| accept_waiter := q |>)); [by apply mail_eq|by apply same_tables_mail]. }
  destruct (Channel.server_state ch) as [[|peer]|]; [apply Hblock| |apply Hblock].
  set (n1 := n <| channels := _ |>).
  assert (same_mail n n1) as H1. { apply mail_of; [done|]. intros id. rewrite Hm1. case_decide; [|done]. subst. unfold mailbox. by rewrite Hg. }
  destruct (running _) as [proc|]; [|by intros [= <-]]. pose proof (allocate_same n1 (files proc) (SocketHandle peer)) as [E1 E2]. destruct (allocate n1 _ _) as [n2 [f|]]; cbn [fst] in *; intros [= <-]; apply (same_mail_trans n n1); try done; apply mail_eq; try done; etrans; [apply set_fd_channel_same|done|apply set_fd_channel_same|done].
Qed.

Lemma socket_mail n r : channels_ok (channels n) -> sys_socket_impl n = Ok r -> same_mail n (ret_net r).
Proof.
  intros Hc. unfold sys_socket_impl. destruct (alloc_ok (channels n) Hc) as (t & o & -> & Hc1 & Hm1 & Hnew & _). cbn [lift mbind outcome_bind].
  destruct o as [id|]; [|intros [= <-]; by apply mail_of]. set (n1 := n <| channels := t |>).
  assert (forall n2, channels n2 = t -> recv_waiter n2 = recv_waiter n -> same_mail n (socket_close id n2)) as Hclose.
  { intros n2 E Er. unfold socket_close. rewrite E. destruct (free_ok t id Hc1) as [Hf Hmf]. unfold same_mail. cbn. split_and!; [done| |done].
    intros id'. rewrite Hmf. case_decide; [|apply Hm1]. subst. destruct (Hnew id eq_refl) as (Hn & _). unfold mailbox. by rewrite Hn. }
  destruct (running _) as [proc|]; [|intros [= <-]; by apply Hclose]. pose proof (allocate_same n1 (files proc) (SocketHandle id)) as [E1 E2].
  destruct (allocate n1 _ _) as [n2 [f|]]; cbn [fst] in *; intros [= <-]; [|by apply Hclose]. apply (same_mail_trans n n1); [by apply mail_of|].
  apply mail_eq; [done| |]; etrans; [apply set_fd_channel_same|done|apply set_fd_channel_same|done].
Qed.

Lemma bind_mail n fd path r : channels_ok (channels n) -> sys_bind_impl n fd path = Ok r -> same_mail n (ret_net r).
Proof.
  intros Hc. unfold sys_bind_impl. destruct (validate_user_buffer _ _); [intros [= <-]; by apply mail_eq|]. destruct (_ =? _)%nat; [intros [= <-]; by apply mail_eq|].
  destruct (get_fd_channel _ _ _) as [id|]; [|intros [= <-]; by apply mail_eq]. destruct (Channel.get _ id) as [ch|] eqn:Hg; [|intros [= <-]; by apply mail_eq].
  intros [= <-]. destruct (ch_rings _ Hc _ _ Hg) as [Hr Hq]. set (ch' := set_server_state _ _). destruct (update_ok _ _ _ ch' Hc Hg Hr Hq) as [Hc1 Hm1].
  apply mail_of; [done|]. intros id'. rewrite Hm1. case_decide; [|done]. subst. unfold mailbox. by rewrite Hg.
Qed.

Lemma poll_mail now n fds nfds timeout r : channels_ok (channels n) -> sys_poll translate now n fds nfds timeout = Ok r -> same_mail n (ret_net r).
Proof.
  intros Hc. unfold sys_poll. destruct (16 <? nfds); [intros [= <-]; by apply mail_eq|]. destruct (if 0 <? nfds * 8 then _ else _); [intros [= <-]; by apply mail_eq|].
  destruct (_ || _); [intros [= <-]; by apply mail_eq|]. intros H%wait_for_same. by apply same_tables_mail.
Qed.

Lemma epoll_create_mail n r : channels_ok (channels n) -> sys_epoll_create n = Ok r -> same_mail n (ret_net r).
Proof.
  intros Hc. unfold sys_epoll_create. destruct (Waiters.epoll_alloc _ _) as [slots [id|]]; [|intros [= <-]; by apply mail_eq].
  destruct (running _) as [proc|]; [|intros [= <-]; by apply mail_eq]. set (n1 := n <| epoll_instances := slots |>). pose proof (allocate_same n1 (files proc) (EpollHandle id)) as [E1 E2].
  destruct (allocate n1 _ _) as [n2 [f|]]; cbn [fst] in *; intros [= <-]; by apply mail_eq.
Qed.

Lemma epoll_ctl_mail n epfd op fd event r : channels_ok (channels n) -> sys_epoll_ctl n epfd op fd event = Ok r -> same_mail n (ret_net r).
Proof.
  intros Hc. unfold sys_epoll_ctl. destruct (epoll_of n epfd); [|intros [= <-]; by apply mail_eq]. destruct (if op =? _ then _ else _); [intros [= <-]; by apply mail_eq|].
  destruct (Waiters.epoll_get _ _); [|intros [= <-]; by apply mail_eq].
  repeat match goal with |- context [match position ?p ?l with _ => _ end] => destruct (position p l) end;
    repeat match goal with |- context [op =? ?x] => destruct (op =? x) end; intros [= <-]; by apply mail_eq.
Qed.

Lemma epoll_wait_mail now n epfd events maxevents timeout r : channels_ok (channels n) -> sys_epoll_wait translate now n epfd events maxevents timeout = Ok r -> same_mail n (ret_net r).
Proof.
  intros Hc. unfold sys_epoll_wait. destruct (_ || _); [intros [= <-]; by apply mail_eq|]. destruct (validate_user_buffer _ _); [intros [= <-]; by apply mail_eq|].
  destruct (epoll_of n epfd); [|intros [= <-]; by apply mail_eq]. unfold check_epoll_ready_uva. destruct (_ || _); [intros [= <-]; by apply mail_eq|].
  intros H%wait_for_same. by apply same_tables_mail.
Qed.

Lemma run_call_mail n c r : channels_ok (channels n) -> run_call n c = Ok r -> same_mail n (ret_net r).
Proof.
  destruct c; cbn [run_call]; [apply socket_mail|apply bind_mail|apply connect_mail|apply accept_mail|apply poll_mail|apply epoll_create_mail|apply epoll_ctl_mail|apply epoll_wait_mail].
Qed.

(** ** Sending and receiving *)

(** The branches of [sendmsg] past its checks. *)
Lemma sendmsg_cases n fd ptr id : channels_ok (channels n) -> validate_user_buffer ptr 64 = None -> fd_peer n fd = Some id ->
  let msg := user_message (active_mem (world n)) ptr in
  (exists w, recv_waiter n = Some w /\ rw_channel_id w = id /\
    let n1 := n <| recv_waiter := None |> in
    let n2 := if negb (rw_phys_buf w =? 0) then phys_write home n1 (rw_phys_buf w) (message_bytes msg) else n1 in
    sys_sendmsg home n fd ptr = Ok (Done (set_sched n2 (wake_with_retval (sched (world n2)) (rw_pid w) 64)) 64)) \/
  ((forall w, recv_waiter n = Some w -> rw_channel_id w <> id) /\
    sys_sendmsg home n fd ptr = match enqueue_to (channels n) id msg with
                                | (_, None) => Ok (Done n EPIPE)
                                | (_, Some false) => Ok (Done n EAGAIN)
                                | (t, Some true) => Ok (Done (poll_wakeup_for_channel home (n <| channels := t |>) id) 64)
                                end).
Proof.
  intros Hc Hv Hp. unfold fd_peer, fd_channel in Hp. unfold sys_sendmsg. rewrite Hv. destruct (get_fd_channel _ _ _) as [ch|]; [|done]. cbn [mbind option_bind] in Hp. rewrite Hp.
  destruct (recv_waiter n) as [w|]; [|by right]. destruct (Nat.eqb_spec (rw_channel_id w) id) as [E|E]; [left; by exists w|right]. split; [by intros ? [= <-]|done].
Qed.

Lemma sendmsg_refused n fd ptr : validate_user_buffer ptr 64 <> None \/ fd_peer n fd = None -> exists v, sys_sendmsg home n fd ptr = Ok (Done n v) /\ v < 0.
Proof.
  unfold fd_peer, fd_channel, sys_sendmsg. destruct (validate_user_buffer ptr 64) as [e|] eqn:Hv.
  { intros _. exists e. split; [done|]. revert Hv. unfold validate_user_buffer. repeat case_match; by intros [= <-]. }
  intros [|Hp]; [done|]. destruct (get_fd_channel _ _ _) as [ch|]; [|by eexists]. cbn [mbind option_bind] in Hp. rewrite Hp. by eexists.
Qed.

Lemma same_mail_inv n n' : net_inv n -> same_mail n n' -> net_inv n'.
Proof. intros [Hc Hw] (Hc' & Hm & Hr). split; [done|]. intros w. rewrite Hr, Hm. apply Hw. Qed.

(** A message handed over is in the receiver's buffer. *)
Lemma handed_over n w msg : buffer_ok w -> message_wf msg -> negb (rw_phys_buf w =? 0) = true /\
  phys_read home (phys_write home n (rw_phys_buf w) (message_bytes msg)) (rw_phys_buf w) 64 = message_bytes msg.
Proof.
  intros (f & sp & page & off & -> & Hh & Hf0 & Hf & Ho & Hl) Hm. pose proof (length_message _ Hm) as Hlen.
  rewrite (proj2 (Z.eqb_neq _ _)) by lia. split; [done|]. rewrite (phys_read_in home _ f sp page) by done.
  rewrite (phys_write_in home _ f sp page) by (rewrite ?Hlen; done || (intros E; by rewrite E in Hlen)). rewrite space_put, decide_True by done. rewrite <- Hlen at 1. apply read_write_bytes.
Qed.

Lemma set_sched_phys n s a k : phys_read home (set_sched n s) a k = phys_read home n a k.
Proof. revert a; induction k as [|k IH]; intros a; [done|]. cbn [phys_read]. by rewrite IH. Qed.

Lemma send_step n fd ptr n' id : net_inv n -> fd_peer n fd = Some id -> bytes_ok (read_bytes (active_mem (world n)) ptr 64) -> sys_sendmsg home n fd ptr = Ok (Done n' 64) ->
  let ls := Sent id (user_message (active_mem (world n)) ptr) :: handed n n' id in
  net_inv n' /\ forall i, mailbox (channels n) i ++ sent i ls = taken i ls ++ mailbox (channels n') i.
Proof.
  intros [Hc Hw] Hp Hb Hs. set (msg := user_message _ ptr). cbv zeta.
  assert (message_wf msg) as Hwf by (unfold msg; rewrite user_message_decode; apply decode_wf; [done|apply length_read_bytes]).
  destruct (validate_user_buffer ptr 64) as [e|] eqn:Hv; [destruct (sendmsg_refused n fd ptr) as (v & E & Hneg); [left; congruence|]; rewrite E in Hs; injection Hs as _ ->; lia|].
  destruct (sendmsg_cases n fd ptr id Hc Hv Hp) as [(w & Hrw & Hid & Hsend)|(Hrw & Hsend)]; fold msg in Hsend.
  - rewrite Hsend in Hs. destruct (Hw w Hrw) as [Hempty Hbuf]. rewrite Hid in Hempty. destruct (handed_over (n <| recv_waiter := None |>) w msg Hbuf Hwf) as [Hnz Hread]. rewrite Hnz in Hs.
    set (n2 := phys_write home _ _ _) in *. injection Hs as <-. destruct (phys_write_same home (n <| recv_waiter := None |>) (rw_phys_buf w) (message_bytes msg)) as (Ec & _ & _ & Er & _). fold n2 in Ec, Er.
    unfold handed. rewrite Hrw, Hid, Nat.eqb_refl, set_sched_phys, Hread, decode_message by done. cbn [set_sched channels update_field]. split.
    + split; cbn [set_sched channels recv_waiter update_field]; [by rewrite Ec|by rewrite Er].
    + intros i. change (channels (set_sched n2 (wake_with_retval (sched (world n2)) (rw_pid w) 64))) with (channels n2). rewrite Ec. cbn. destruct (decide (id = i)) as [->|]; cbn; [by rewrite Hempty|by rewrite app_nil_r].
  - rewrite Hsend in Hs. pose proof (enqueue_to_ok (channels n) id msg Hc Hwf) as He. destruct (enqueue_to (channels n) id msg) as [t [[|]|]]; [|by injection Hs..].
    destruct He as (_ & Hc1 & Hm1). set (n1 := n <| channels := t |>) in *. assert (n' = poll_wakeup_for_channel home n1 id) as -> by congruence.
    assert (same_mail n1 (poll_wakeup_for_channel home n1 id)) as (Hc2 & Hm2 & Hr2) by (apply same_tables_mail; [done|apply wakeup_channel_same]).
    assert (handed n (poll_wakeup_for_channel home n1 id) id = []) as ->.
    { unfold handed. destruct (recv_waiter n) as [w|] eqn:E; [|done]. rewrite (proj2 (Nat.eqb_neq _ _)); [done|by apply Hrw]. }
    split.
    + split; [done|]. intros w E. rewrite Hr2 in E. change (recv_waiter n = Some w) in E. rewrite Hm2. change (channels n1) with t. rewrite Hm1, decide_False by (by apply Hrw). by apply Hw.
    + intros i. rewrite Hm2. change (channels n1) with t. rewrite Hm1. cbn. destruct (decide (id = i)) as [->|]; cbn; [by rewrite decide_True|]. rewrite decide_False, app_nil_r; congruence.
Qed.

Lemma recvmsg_cases n fd ptr id : channels_ok (channels n) -> validate_user_buffer ptr 64 = None -> fd_channel n fd = Some id ->
  let '(t, queued) := dequeue_from (channels n) id in
  let n1 := n <| channels := t |> in
  sys_recvmsg translate n fd ptr =
    match queued with
    | Some m => Ok (Done (n1 <| world := set_active_mem (world n) (write_bytes (active_mem (world n)) ptr (message_bytes m)) |>) 64)
    | None => block (n1 <| recv_waiter := Some (mkRecvWaiter (current n) id (default 0 (translate_running translate n ptr))) |>)
    end.
Proof.
  intros Hc Hv Hch. unfold fd_channel in Hch. unfold sys_recvmsg. rewrite Hv, Hch. by destruct (dequeue_from _ _) as [t [m|]].
Qed.

Lemma recvmsg_refused n fd ptr : validate_user_buffer ptr 64 <> None \/ fd_channel n fd = None -> exists v, sys_recvmsg translate n fd ptr = Ok (Done n v) /\ v < 0.
Proof.
  unfold fd_channel, sys_recvmsg. destruct (validate_user_buffer ptr 64) as [e|] eqn:Hv.
  { intros _. exists e. split; [done|]. revert Hv. unfold validate_user_buffer. repeat case_match; by intros [= <-]. }
  intros [|Hp]; [done|]. rewrite Hp. by eexists.
Qed.

(** A process that blocks is not given a result. *)
Lemma block_switched n r : block n = Ok r -> exists n' tf, r = Switched n' tf.
Proof.
  unfold block, ProcessCtl.switch_and_jump. destruct (block_current _ _ _) as [[[s c] tf]| |]; cbn [mbind outcome_bind]; [|done..].
  unfold ProcessCtl.jump. destruct (jump_to_user _ _) as [[w t]| |]; cbn [mbind outcome_bind]; [|done..]. intros [= <-]. by eexists _, _.
Qed.

Lemma recv_step n fd ptr n' id : net_inv n -> fd_channel n fd = Some id -> sys_recvmsg translate n fd ptr = Ok (Done n' 64) ->
  let m := user_message (active_mem (world n')) ptr in
  net_inv n' /\ mailbox (channels n) id = m :: mailbox (channels n') id /\ (forall i, i <> id -> mailbox (channels n') i = mailbox (channels n) i) /\ recv_waiter n' = recv_waiter n.
Proof.
  intros [Hc Hw] Hch Hs. cbv zeta.
  destruct (validate_user_buffer ptr 64) as [e|] eqn:Hv; [destruct (recvmsg_refused n fd ptr) as (v & E & Hneg); [left; congruence|]; rewrite E in Hs; injection Hs as _ ->; lia|].
  pose proof (recvmsg_cases n fd ptr id Hc Hv Hch) as Hr. pose proof (dequeue_from_ok (channels n) id Hc) as Hd. destruct (dequeue_from (channels n) id) as [t [m|]]; cbv zeta in Hr; rewrite Hr in Hs.
  - injection Hs as <-. destruct Hd as (Hwf & Hc1 & Hm & Hoth). cbn [world channels update_field].
    assert (user_message (active_mem (set_active_mem (world n) (write_bytes (active_mem (world n)) ptr (message_bytes m)))) ptr = m) as E.
    { rewrite ProcessCtl.active_mem_set, user_message_decode. rewrite <- (length_message m Hwf), read_write_bytes. by apply decode_message. }
    split_and!; [|by rewrite Hm; f_equal; symmetry; exact E|done|done]. split; [done|]. intros w Hrw. destruct (Hw w Hrw) as [Hempty Hbuf]. split; [|done].
    change (mailbox t (rw_channel_id w) = []). destruct (decide (rw_channel_id w = id)) as [Heq|Hne]; [congruence|by rewrite Hoth].
  - destruct (block_switched _ _ Hs) as (? & ? & ?). done.
Qed.

(** A receiver that blocks is registered with its buffer. *)
Lemma wait_step n fd ptr n' tf id : private -> net_inv n -> fd_channel n fd = Some id -> Z.land ptr 4095 + 64 <= 4096 -> is_Some (translate_running translate n ptr) ->
  sys_recvmsg translate n fd ptr = Ok (Switched n' tf) ->
  net_inv n' /\ (forall i, mailbox (channels n') i = mailbox (channels n) i) /\
  exists proc f, running (sched (world n)) = Some proc /\ translate (address_space proc) (page_of ptr) = Some f /\
    recv_waiter n' = Some (mkRecvWaiter (pid proc) id (f + Z.land ptr 4095)).
Proof.
  intros Hpr [Hc Hw] Hch Hpage Htr Hs.
  destruct (validate_user_buffer ptr 64) as [e|] eqn:Hv; [destruct (recvmsg_refused n fd ptr) as (v & E & Hneg); [left; congruence|]; congruence|].
  pose proof (recvmsg_cases n fd ptr id Hc Hv Hch) as Hr. pose proof (dequeue_from_ok (channels n) id Hc) as Hd. destruct (dequeue_from (channels n) id) as [t [m|]]; cbv zeta in Hr; rewrite Hr in Hs; [done|].
  destruct Hd as (Hempty & Hc1 & Hm1). apply block_same in Hs as (Ec & _ & _ & Er & _). cbn [ret_net channels recv_waiter update_field] in Ec, Er.
  unfold translate_running in Htr, Er. destruct (running (sched (world n))) as [proc|] eqn:Hrun; [|by destruct Htr]. cbn [mbind option_bind] in Htr, Er.
  destruct (translate (address_space proc) (page_of ptr)) as [f|] eqn:Hf; [|by destruct Htr]. cbn [mbind option_bind default] in Er.
  assert (current n = pid proc) as Hcur by (unfold current, current_pid; by rewrite Hrun). rewrite Hcur in Er.
  rewrite land_off in *. pose proof (Z.mod_pos_bound ptr 4096 ltac:(lia)). destruct (pr_frame Hpr _ _ _ Hf) as [Hf0 Hfm].
  assert (forall i, mailbox (channels n') i = mailbox (channels n) i) as Hm by (intros i; rewrite Ec; apply Hm1). split_and!; [|done|by exists proc, f].
  split; [by rewrite Ec|]. rewrite Er. intros w [= <-]. cbn [rw_channel_id]. rewrite Hm. split; [done|]. exists f, (address_space proc), (page_of ptr), (ptr mod 4096). cbn [rw_phys_buf].
  split_and!; [done|by apply (pr_home Hpr)|done|done|lia|lia].
Qed.

Lemma sent_app i l1 l2 : sent i (l1 ++ l2) = sent i l1 ++ sent i l2.
Proof. apply omap_app. Qed.

Lemma taken_app i l1 l2 : taken i (l1 ++ l2) = taken i l1 ++ taken i l2.
Proof. apply omap_app. Qed.

Lemma dropped_labels i id ms : sent i (Dropped id <$> ms) = [] /\ taken i (Dropped id <$> ms) = if decide (i = id) then ms else [].
Proof.
  induction ms as [|m ms [IH1 IH2]]; [by case_decide|].
  unfold sent, taken in *. cbn [fmap list_fmap omap list_omap] in *. rewrite IH1, IH2. destruct (decide (id = i)), (decide (i = id)); by subst.
Qed.

(** An error of [sendmsg] or [recvmsg] changes nothing about messages. *)
Lemma not_sent_mail n fd ptr n' v : channels_ok (channels n) -> sys_sendmsg home n fd ptr = Ok (Done n' v) -> v <> 64 -> n' = n.
Proof.
  intros Hc Hs Hne. destruct (validate_user_buffer ptr 64) as [e|] eqn:Hv; [destruct (sendmsg_refused n fd ptr) as (? & E & _); [left; congruence|congruence]|].
  destruct (fd_peer n fd) as [id|] eqn:Hp; [|destruct (sendmsg_refused n fd ptr) as (? & E & _); [by right|congruence]].
  destruct (sendmsg_cases n fd ptr id Hc Hv Hp) as [(w & _ & _ & E)|(_ & E)]; [rewrite E in Hs; by injection Hs|].
  rewrite E in Hs. destruct (enqueue_to _ _ _) as [t [[|]|]]; congruence.
Qed.

Lemma not_recv_mail n fd ptr n' v : channels_ok (channels n) -> sys_recvmsg translate n fd ptr = Ok (Done n' v) -> v <> 64 -> n' = n.
Proof.
  intros Hc Hs Hne. destruct (validate_user_buffer ptr 64) as [e|] eqn:Hv; [destruct (recvmsg_refused n fd ptr) as (? & E & _); [left; congruence|congruence]|].
  destruct (fd_channel n fd) as [id|] eqn:Hp; [|destruct (recvmsg_refused n fd ptr) as (? & E & _); [by right|congruence]].
  pose proof (recvmsg_cases n fd ptr id Hc Hv Hp) as Hr. destruct (dequeue_from _ _) as [t [m|]]; cbv zeta in Hr; rewrite Hr in Hs; [by injection Hs|].
  by destruct (block_switched _ _ Hs) as (? & ? & ?).
Qed.

Lemma step_mail n ls n' : private -> net_inv n -> step n ls n' ->
  net_inv n' /\ forall i, mailbox (channels n) i ++ sent i ls = taken i ls ++ mailbox (channels n') i.
Proof.
  intros Hpr Hn Hst. pose proof (inv_channels _ Hn) as Hc.
  assert (forall n2, same_mail n n2 -> net_inv n2 /\ forall i, mailbox (channels n) i ++ sent i [] = taken i [] ++ mailbox (channels n2) i) as Hquiet.
  { intros n2 H2. split; [by apply (same_mail_inv n)|]. intros i. destruct H2 as (_ & Hm & _). cbn. by rewrite app_nil_r, Hm. }
  destruct Hst as [n fd ptr n' id Hp Hb Hs|n fd ptr n' v Hs Hv|n fd ptr n' id Hch Hs|n fd ptr n' v Hs Hv|n fd ptr n' tf id Hch Hpage Htr Hs|n c r Hr|n|n id|n n' E Er].
  - by apply (send_step n fd ptr).
  - rewrite (not_sent_mail _ _ _ _ _ Hc Hs Hv). apply Hquiet. by apply mail_eq.
  - destruct (recv_step n fd ptr n' id Hn Hch Hs) as (Hn' & Hm & Hoth & _). split; [done|]. intros i. cbn. destruct (decide (id = i)) as [->|Hne]; [by rewrite app_nil_r, Hm|by rewrite app_nil_r, Hoth].
  - rewrite (not_recv_mail _ _ _ _ _ Hc Hs Hv). apply Hquiet. by apply mail_eq.
  - destruct (wait_step n fd ptr n' tf id Hpr Hn Hch Hpage Htr Hs) as (Hn' & Hm & _). split; [done|]. intros i. cbn. by rewrite app_nil_r, Hm.
  - apply Hquiet. by apply (run_call_mail n c).
  - apply Hquiet, same_tables_mail; [done|apply wakeup_fd0_same].
  - destruct (free_ok (channels n) id Hc) as [Hc' Hm]. split.
    + split; [done|]. intros w Hrw. change (recv_waiter n = Some w) in Hrw. destruct (inv_waiter _ Hn w Hrw) as [He Hb]. split; [|done]. change (mailbox (Channel.free (channels n) id) (rw_channel_id w) = []). rewrite Hm. by case_decide.
    + intros i. destruct (dropped_labels i id (mailbox (channels n) id)) as [-> ->]. change (channels (socket_close id n)) with (Channel.free (channels n) id). rewrite Hm. case_decide; [subst; by rewrite !app_nil_r|by rewrite app_nil_r].
  - apply Hquiet. by apply mail_eq.
Qed.

Lemma steps_mail n ls n' : private -> net_inv n -> steps n ls n' ->
  net_inv n' /\ forall i, mailbox (channels n) i ++ sent i ls = taken i ls ++ mailbox (channels n') i.
Proof.
  intros Hpr Hn Hst. induction Hst as [n|n1 ls1 n2 ls2 n3 H1 _ IH]; [split; [done|]; intros i; cbn; by rewrite app_nil_r|].
  destruct (step_mail _ _ _ Hpr Hn H1) as [Hn2 E1]. destruct (IH Hn2) as [Hn3 E2]. split; [done|]. intros i.
  by rewrite sent_app, taken_app, app_assoc, E1, <- app_assoc, E2, app_assoc.
Qed.

(** A registered receiver stays registered until something is sent to its
    channel or another process blocks. *)
Lemma step_waiter n ls n' w : private -> net_inv n -> step n ls n' -> recv_waiter n = Some w -> sent (rw_channel_id w) ls = [] -> (forall j, Waits j ∉ ls) -> recv_waiter n' = Some w.
Proof.
  intros Hpr Hn Hst Hw Hsent Hwaits. pose proof (inv_channels _ Hn) as Hc.
  destruct Hst as [n fd ptr n' id Hp Hb Hs|n fd ptr n' v Hs Hv|n fd ptr n' id Hch Hs|n fd ptr n' v Hs Hv|n fd ptr n' tf id Hch Hpage Htr Hs|n c r Hr|n|n id|n n' E Er].
  - unfold sent in Hsent. cbn in Hsent. destruct (decide (id = rw_channel_id w)) as [|Hne]; [done|].
    destruct (validate_user_buffer ptr 64) as [e|] eqn:Hv; [destruct (sendmsg_refused n fd ptr) as (v & E & Hneg); [left; congruence|]; rewrite E in Hs; injection Hs as _ ->; lia|].
    destruct (sendmsg_cases n fd ptr id Hc Hv Hp) as [(w' & Hrw & Hid & _)|(_ & Hsend)]; [congruence|]. rewrite Hsend in Hs.
    destruct (enqueue_to _ _ _) as [t [[|]|]]; [|by injection Hs..]. set (n1 := n <| channels := t |>) in *. assert (n' = poll_wakeup_for_channel home n1 id) as -> by congruence.
    destruct (wakeup_channel_same home n1 id) as (_ & _ & _ & Er & _). rewrite Er. done.
  - by rewrite (not_sent_mail _ _ _ _ _ Hc Hs Hv).
  - destruct (recv_step n fd ptr n' id Hn Hch Hs) as (_ & _ & _ & ->). done.
  - by rewrite (not_recv_mail _ _ _ _ _ Hc Hs Hv).
  - destruct (Hwaits id). by left.
  - by destruct (run_call_mail n c r Hc Hr) as (_ & _ & ->).
  - by destruct (wakeup_fd0_same home n) as (_ & _ & _ & -> & _).
  - done.
  - congruence.
Qed.

Lemma steps_waiter n ls n' w : private -> net_inv n -> steps n ls n' -> recv_waiter n = Some w -> sent (rw_channel_id w) ls = [] -> (forall j, Waits j ∉ ls) -> recv_waiter n' = Some w.
Proof.
  intros Hpr Hn Hst. induction Hst as [n|n1 ls1 n2 ls2 n3 H1 _ IH]; [done|]. intros Hw Hs Hwt. rewrite sent_app in Hs. apply app_eq_nil in Hs as [Hs1 Hs2].
  destruct (step_mail _ _ _ Hpr Hn H1) as [Hn2 _]. apply (IH Hn2); [|done|intros j Hj; apply (Hwt j), elem_of_app; by right].
  apply (step_waiter n1 ls1); try done. intros j Hj. apply (Hwt j), elem_of_app. by left.
Qed.

(** Somebody waits for a message of channel [id]. *)
Definition awaited n (id : nat) : bool := match recv_waiter n with Some w => (rw_channel_id w =? id)%nat | None => false end.

(** What [sendmsg] answers: a bad pointer, a descriptor that is no socket, a
    socket that is not connected, a peer that is gone and a full queue that
    nobody waits on are told apart, in this order. *)
Definition send_answer n (fd ptr : Z) : Z :=
  if validate_user_buffer ptr 64 is Some e then e else
  if fd_channel n fd is None then ENOTSOCK else
  match fd_peer n fd with
  | None => ENOTCONN
  | Some id =>
      if awaited n id then 64
      else if bool_decide (Channel.get (channels n) id = None) then EPIPE
      else if bool_decide (length (mailbox (channels n) id) < 16)%nat then 64 else EAGAIN
  end.

(** C15: [sendmsg] always returns, with the answer above, and an error changes
    nothing: no message is queued, no process wakes and no memory is written. *)
Theorem sendmsg_errors n fd ptr : channels_ok (channels n) -> bytes_ok (read_bytes (active_mem (world n)) ptr 64) ->
  exists n', sys_sendmsg home n fd ptr = Ok (Done n' (send_answer n fd ptr)) /\ (send_answer n fd ptr < 0 -> n' = n).
Proof.
  intros Hc Hb. unfold send_answer. destruct (validate_user_buffer ptr 64) as [e|] eqn:Hv; [exists n; unfold sys_sendmsg; by rewrite Hv|].
  destruct (fd_channel n fd) as [ch|] eqn:Hch; [|exists n; unfold sys_sendmsg; unfold fd_channel in Hch; by rewrite Hv, Hch].
  destruct (fd_peer n fd) as [id|] eqn:Hp; [|exists n; unfold sys_sendmsg; unfold fd_peer in Hp; rewrite Hch in Hp; unfold fd_channel in Hch; cbn [mbind option_bind] in Hp; by rewrite Hv, Hch, Hp].
  assert (message_wf (user_message (active_mem (world n)) ptr)) as Hwf by (rewrite user_message_decode; apply decode_wf; [done|apply length_read_bytes]).
  destruct (sendmsg_cases n fd ptr id Hc Hv Hp) as [(w & Hw & Hid & ->)|(Hno & ->)]; unfold awaited.
  - rewrite Hw, Hid, Nat.eqb_refl. eexists. split; [done|lia].
  - assert (match recv_waiter n with Some w => (rw_channel_id w =? id)%nat | None => false end = false) as ->.
    { destruct (recv_waiter n) as [w|]; [|done]. by apply Nat.eqb_neq, Hno. }
    pose proof (enqueue_to_ok (channels n) id _ Hc Hwf) as He. unfold Channel.RING_CAP in He. destruct (enqueue_to _ _ _) as [t [[|]|]] eqn:Ee.
    + rewrite bool_decide_false by (intros E; unfold enqueue_to in Ee; by rewrite E in Ee). rewrite bool_decide_true by apply He. eexists. split; [done|lia].
    + rewrite bool_decide_false by (intros E; unfold enqueue_to in Ee; by rewrite E in Ee). rewrite bool_decide_false by lia. by exists n.
    + rewrite bool_decide_true by apply He. by exists n.
Qed.



(** ** Connections *)

Lemma get_with_channel t id f id' : Channel.get (with_channel t id f) id' = if decide (id' = id) then f <$> Channel.get t id else Channel.get t id'.
Proof.
  unfold with_channel. destruct (Channel.get t id) as [ch|] eqn:Hg; [rewrite (get_update _ _ _ _ _ Hg); by case_decide|]. case_decide; [by subst|done].
Qed.

Lemma alloc_free t id : channels_ok t -> (1 <= id < Channel.MAX_CHANNELS)%nat -> Channel.get t id = None ->
  exists t' new, Channel.alloc t = Ok (t', Some new) /\ channels_ok t' /\ Channel.get t new = None /\ (1 <= new)%nat /\
    forall i, Channel.get t' i = if decide (i = new) then Some Channel.channel_new else Channel.get t i.
Proof.
  intros Hc Hid Hg. destruct (alloc_ok t Hc) as (t' & r & E & Hc' & _ & Hnew & Hnone). destruct r as [new|]; [|by destruct (Hnone eq_refl id Hid)].
  destruct (Hnew new eq_refl) as (H1 & H2 & H3 & H4). exists t', new. split_and!; [done|done|done|done|]. intros i. case_decide; [by subst|by apply H4].
Qed.

(** The descriptor map has a row for each process. *)
Definition map_ok n : Prop := length (fd_channel_map n) = 32%nat /\ forall pid row, fd_channel_map n !! pid = Some row -> length row = 16%nat.

Lemma get_set_fd n pid fd id : map_ok n -> 0 <= pid < 32 -> 0 <= fd < 16 -> id <> O -> get_fd_channel (set_fd_channel n pid fd id) pid fd = Some id.
Proof.
  intros [Hl Hrow] Hp Hf Hid. unfold get_fd_channel, set_fd_channel, in_map, Waiters.MAX_PROCS, Waiters.MAX_FILES_PER_PROC. rewrite !(proj2 (Z.ltb_lt _ _)) by lia. cbn [andb fd_channel_map update_field].
  destruct (lookup_lt_is_Some_2 (fd_channel_map n) (Z.to_nat pid)) as [row Hr]; [lia|]. pose proof (Hrow _ _ Hr) as H16.
  assert (alter (fun row => <[Z.to_nat fd := id]> row) (Z.to_nat pid) (fd_channel_map n) !!! Z.to_nat pid = <[Z.to_nat fd := id]> row) as ->.
  { apply list_lookup_total_correct. rewrite list_lookup_alter_eq, Hr. done. }
  rewrite list_lookup_total_insert_eq by lia. by destruct id.
Qed.

(** [connect] to a listening path makes a fresh channel and the client's
    channel each other's peers, and the server's next [accept] returns the
    lowest free descriptor, which names the new channel; no other channel
    changes and the server listens again. *)
Theorem connection_established n fd path client server free_id : channels_ok (channels n) -> validate_user_buffer path 64 = None ->
  fd_channel n fd = Some client -> is_Some (Channel.get (channels n) client) -> Channel.find_by_path (channels n) (user_path (active_mem (world n)) path 63) = Some server ->
  Channel.get (channels n) server ≫= Channel.server_state = Some Channel.Listening -> client <> server -> accept_waiter n = None ->
  (1 <= free_id < Channel.MAX_CHANNELS)%nat -> Channel.get (channels n) free_id = None ->
  exists n' new, sys_connect n fd path = Ok (Done n' 0) /\ Channel.get (channels n) new = None /\
    Channel.get (channels n') client ≫= Channel.peer = Some new /\ Channel.get (channels n') new ≫= Channel.peer = Some client /\
    (forall i, i <> client -> i <> new -> i <> server -> Channel.get (channels n') i = Channel.get (channels n) i) /\
    forall n2 sfd proc i, channels n2 = channels n' -> map_ok n2 -> running (sched (world n2)) = Some proc -> 0 <= pid proc < 32 -> fd_channel n2 sfd = Some server ->
      FdTable.free_slot 0 (files_of n2 (files proc)) = Some i -> (i < 16)%nat ->
      exists n3, sys_accept n2 sfd = Ok (Done n3 (Z.of_nat i)) /\ fd_channel n3 (Z.of_nat i) = Some new /\ files_of n3 (files proc) !! i = Some (Some (SocketHandle new)) /\
        Channel.get (channels n3) server ≫= Channel.server_state = Some Channel.Listening /\ forall j, j <> server -> Channel.get (channels n3) j = Channel.get (channels n') j.
Proof.
  intros Hc Hv Hfd [cch Hcl] Hfind Hlist Hne Hw Hfree Hfreeg. unfold sys_connect. rewrite Hv. unfold fd_channel in Hfd. rewrite Hfd, Hfind, Hlist.
  destruct (alloc_free _ _ Hc Hfree Hfreeg) as (t & new & -> & Hct & Hnew & Hnew1 & Ht). cbn [lift mbind outcome_bind fst snd accept_waiter update_field]. rewrite Hw.
  destruct (Channel.get (channels n) server) as [sch|] eqn:Hsg; [|done]. cbn [mbind option_bind] in Hlist.
  eexists _, new. split; [done|]. cbn [channels update_field]. assert (client <> new /\ server <> new) as [Hcn Hsn] by (split; intros ->; congruence).
  assert (forall i, Channel.get (with_channel (with_channel (with_channel t client (set_peer new)) new (set_peer client)) server (set_server_state (Channel.PendingConnect new))) i =
    if decide (i = server) then Some (set_server_state (Channel.PendingConnect new) sch) else if decide (i = new) then Some (set_peer client Channel.channel_new)
    else if decide (i = client) then Some (set_peer new cch) else Channel.get (channels n) i) as Hget.
  { intros i. rewrite !get_with_channel, !Ht, Hsg, Hcl. repeat (case_decide; subst; try done). }
  rewrite !Hget. rewrite (decide_False (P := client = server)), (decide_False (P := client = new)), decide_True, (decide_False (P := new = server)), decide_True by congruence.
  split_and!; [done|done|done| |].
  - intros i H1 H2 H3. rewrite Hget. by rewrite !decide_False.
  - intros n2 sfd proc i E2 Hmap Hrun Hpid Hsfd Hslot Hi. unfold sys_accept. unfold fd_channel in Hsfd.
    assert (Channel.get (channels n2) server = Some (set_server_state (Channel.PendingConnect new) sch)) as Hg2 by (rewrite E2, Hget; by rewrite decide_True).
    rewrite Hsfd, Hg2. cbn [Channel.server_state set_server_state]. cbn [world update_field]. rewrite Hrun.
    match goal with |- context [Channel.update (channels n2) server ?c] => set (ch := c) end. unfold allocate.
    match goal with |- context [FdTable.free_slot 0 (files_of ?x (files proc))] => change (files_of x (files proc)) with (files_of n2 (files proc)) end. rewrite Hslot. eexists. split; [done|].
    assert (current n2 = pid proc) as Hcur by (unfold current, current_pid; by rewrite Hrun). rewrite Hcur. match goal with |- context [set_fd_channel ?x (pid proc) _ new] => set (n3 := x) end.
    assert (current (set_fd_channel n3 (pid proc) (Z.of_nat i) new) = pid proc) as Hcur3 by (unfold set_fd_channel; destruct (in_map _ _); exact Hcur).
    rewrite (proj1 (set_fd_channel_same _ _ _ _)). change (channels n3) with (Channel.update (channels n2) server ch). split_and!.
    + unfold fd_channel. rewrite Hcur3. unfold as_usize, wrap. rewrite Z.mod_small by lia. apply get_set_fd; [done|done|lia|lia].
    + assert (files_of (set_fd_channel n3 (pid proc) (Z.of_nat i) new) (files proc) = <[i := Some (SocketHandle new)]> (files_of n2 (files proc))) as ->.
      { unfold set_fd_channel. destruct (in_map _ _); unfold files_of at 1; cbn [fd_tables update_field n3]; by rewrite lookup_insert_eq. }
      apply list_lookup_insert_eq. destruct (FdTable.free_slot_Some _ _ _ Hslot) as [Hl _]. by apply lookup_lt_Some in Hl.
    + rewrite (get_update _ _ _ _ _ Hg2), decide_True by done. done.
    + intros j Hj. rewrite (get_update _ _ _ _ _ Hg2), decide_False by done. by rewrite E2.
Qed.

(** ** [poll] *)

Definition ready_count (ps : list PollFd) : Z := Z.of_nat (length (filter (fun p => revents p <> 0) ps)).


(** The array of a registered poller lies in one frame. *)
Definition pollfds_in (w : Waiters.PollWaiter) (nfds : Z) : Prop := Waiters.kind w = Waiters.Poll nfds /\ exists f sp page off,
  Waiters.phys_buf w = f + off /\ home f = Some (sp, page) /\ f mod 4096 = 0 /\ 0 <= off /\ off + 8 * nfds <= 4096 /\ 0 <= nfds.

Lemma deliver_in n w nfds : pollfds_in w nfds -> exists n',
  let ps := with_revents n (Waiters.pw_pid w) <$> pollfds_at home n (Waiters.phys_buf w) (Z.to_nat nfds) in
  deliver_poll_result_phys home n w = (n', ready_count ps) /\ pollfds_at home n' (Waiters.phys_buf w) (Z.to_nat nfds) = ps /\
  sched (world n') = sched (world n) /\ tables (world n') = tables (world n).
Proof.
  intros (Hk & f & sp & page & off & Hb & Hh & Hf & Ho & Hl & Hn). unfold deliver_poll_result_phys. rewrite Hk, Hb.
  destruct (deliver_pollfds_ok home f sp page (Waiters.pw_pid w) (Z.to_nat nfds) Hh Hf n off Ho ltac:(lia)) as (m & _ & Hd & Hp). rewrite Hd.
  eexists. split; [done|]. destruct (Z.to_nat nfds); [done|]. split_and!; [exact Hp|done|done].
Qed.

(** The set-up of the second half: [w] is the first registered process that
    [watching] holds of, and [p] the process. *)
Record first_waiter (watching : Waiters.PollWaiter -> bool) n (i : nat) (w : Waiters.PollWaiter) (p : Process) : Prop := {
  fw_pos : position (fun o => match o with Some w => watching w | None => false end) (Waiters.poll_waiters (tables (world n))) = Some i;
  fw_slot : Waiters.poll_waiters (tables (world n)) !! i = Some (Some w);
  fw_proc : p ∈ wait_queue (sched (world n)) /\ pid p = Waiters.pw_pid w /\ state p = Blocked;
  fw_ok : sched_ok (sched (world n));
}.

Lemma take_first watching n i w p : first_waiter watching n i w p -> watching w = true /\
  take_waiter n watching = (set_tables n ((tables (world n)) <| Waiters.poll_waiters := <[i := None]> (Waiters.poll_waiters (tables (world n))) |>), Some w).
Proof.
  intros [Hpos Hslot _ _]. split.
  - apply position_Some in Hpos as (o & Ho & Hw & _). rewrite Hslot in Ho. by injection Ho as <-.
  - unfold take_waiter. rewrite Hpos. by rewrite (list_lookup_total_correct _ _ _ Hslot).
Qed.

Lemma set_tables_pollfds n t a k : pollfds_at home (set_tables n t) a k = pollfds_at home n a k.
Proof. unfold pollfds_at. apply list_fmap_ext. intros i x _. by f_equal. Qed.

Lemma cancel_timer_set n w : exists t, cancel_timer n w = set_tables n t /\ Waiters.poll_waiters t = Waiters.poll_waiters (tables (world n)).
Proof. unfold cancel_timer. destruct (Waiters.timer_id w); [by eexists|]. exists (tables (world n)). split; [|done]. by destruct n as [[]]. Qed.

(** Waking the process with its result. *)
Lemma woken n w p count : sched_ok (sched (world n)) -> p ∈ wait_queue (sched (world n)) -> pid p = Waiters.pw_pid w -> state p = Blocked ->
  (p <| state := Ready |> <| trapframe := (trapframe p) <| rax := count |> |>) ∈ concat (run_queues (sched (world (wake_result n (Waiters.pw_pid w) count)))).
Proof.
  intros Hok Hin Hpid Hblk. pose proof (wake_where_finds (sched (world n)) p (fun q => q <| trapframe := (trapframe q) <| rax := count |> |>) Blocked Hok Hin Hblk) as H.
  rewrite Hpid in H. exact H.
Qed.

(** A descriptor of a channel with messages is ready. *)
Lemma watched_ready n pid p id : maps_to n pid (fd p) id = true -> has (events p) POLLIN = true -> pid < 32 -> id <> O -> mailbox (channels n) id <> [] ->
  (forall ch, Channel.get (channels n) id = Some ch -> Channel.ring_ok (Channel.rx ch)) -> revents (with_revents n pid p) <> 0.
Proof.
  intros Hm Hev Hpid Hid Hmail Hring. unfold maps_to in Hm. apply andb_prop in Hm as [Hfd Hmap]. apply andb_prop in Hfd as [H0 H16]. apply Z.leb_le in H0. apply Nat.eqb_eq in Hmap.
  cbn [with_revents revents]. unfold fd_check_ready. rewrite (proj2 (Z.ltb_ge _ _)) by lia. unfold get_fd_channel, in_map, Waiters.MAX_PROCS. rewrite (proj2 (Z.ltb_lt pid 32)), H16 by lia. cbn [andb]. rewrite Hmap.
  rewrite (proj2 (Nat.eqb_neq _ _)) by done. unfold channel_ready. rewrite Hev. unfold mailbox in Hmail. destruct (Channel.get (channels n) id) as [ch|] eqn:Hg; [|done].
  assert (Channel.has_messages ch = true) as ->. { unfold Channel.has_messages, Channel.is_empty. destruct (Nat.eqb_spec (Channel.len (Channel.rx ch)) 0) as [E|]; [|done]. destruct Hmail. apply nil_length_inv. by rewrite Channel.length_queue. }
  cbn [andb]. by destruct (_ && _).
Qed.

Lemma ready_count_pos ps p : p ∈ ps -> revents p <> 0 -> 1 <= ready_count ps.
Proof.
  intros Hin Hr. unfold ready_count. assert (p ∈ filter (fun q => revents q <> 0) ps) as H by (by apply list_elem_of_filter). destruct (filter _ ps); [by apply elem_of_nil in H|]. cbn [length]. lia.
Qed.


(** A scancode wakes the process that polls the keyboard only with something
    to report: if none of its descriptors is ready, it stays registered and
    blocked, and no process changes; otherwise it becomes ready with their
    number.  A queued character is something to report. *)
Theorem key_wakes_poller n i w nfds p : first_waiter (poll_waiter_watches_stdin home n) n i w p -> pollfds_in w nfds -> i = Z.to_nat (Waiters.pw_pid w) -> Waiters.pw_pid w < 32 ->
  let n' := poll_wakeup_for_fd0 home n in
  let count := ready_count (pollfds_at home n' (Waiters.phys_buf w) (Z.to_nat nfds)) in
  (count = 0 -> sched (world n') = sched (world n) /\ tables (world n') = tables (world n)) /\
  (count <> 0 -> (p <| state := Ready |> <| trapframe := (trapframe p) <| rax := count |> |>) ∈ concat (run_queues (sched (world n'))) /\
     Waiters.poll_waiters (tables (world n')) !! i = Some None) /\
  (Console.read_key_peek (console n) = true -> get_fd_channel n (Waiters.pw_pid w) 0 = None -> 1 <= count).
Proof.
  intros Hfw Hbuf Hi Hpid32. destruct (take_first _ _ _ _ _ Hfw) as [Hwatch Htake]. cbv zeta. unfold poll_wakeup_for_fd0. rewrite Htake. set (n1 := set_tables n _).
  destruct (deliver_in n1 w nfds Hbuf) as (n2 & Hd & Hps & Hsched & Htab). rewrite Hd.
  assert (pollfds_at home n1 (Waiters.phys_buf w) (Z.to_nat nfds) = pollfds_at home n (Waiters.phys_buf w) (Z.to_nat nfds)) as E1 by apply set_tables_pollfds.
  set (ps := with_revents n1 (Waiters.pw_pid w) <$> pollfds_at home n1 (Waiters.phys_buf w) (Z.to_nat nfds)) in *.
  assert (Console.read_key_peek (console n) = true -> get_fd_channel n (Waiters.pw_pid w) 0 = None -> 1 <= ready_count ps) as Hkey.
  { intros Hk Hg. unfold poll_waiter_watches_stdin in Hwatch. destruct Hbuf as [Hkind _]. rewrite Hkind in Hwatch. apply existsb_exists in Hwatch as (q & Hq & Hqw).
    apply andb_prop in Hqw as [Hfd%Z.eqb_eq Hev]. apply (ready_count_pos _ (with_revents n1 (Waiters.pw_pid w) q)); [apply list_elem_of_fmap; exists q; split; [done|]; rewrite E1; by apply list_elem_of_In|].
    cbn [with_revents revents]. rewrite Hfd. unfold fd_check_ready. change (get_fd_channel n1 (Waiters.pw_pid w) 0) with (get_fd_channel n (Waiters.pw_pid w) 0). rewrite Hg. change (console n1) with (console n). by rewrite Hev, Hk. }
  destruct Hfw as [Hpos Hslot (Hin & Hpid & Hblk) Hok]. destruct (Z.eqb_spec (ready_count ps) 0) as [H0|H0].
  - unfold register. rewrite (proj2 (Z.ltb_lt _ _)) by done. rewrite set_tables_pollfds, Hps. split_and!; [|done|exact Hkey]. intros _. split; [done|].
    cbn [set_tables world tables update_field]. rewrite Htab. cbn [n1 set_tables world tables update_field Waiters.poll_waiters]. rewrite <- Hi, list_insert_insert_eq, list_insert_id by done. by destruct (tables (world n)).
  - destruct (cancel_timer_set n2 w) as (tb & Htb & Hpw). rewrite Htb. change (pollfds_at home (wake_result ?x ?y ?z)) with (pollfds_at home x). rewrite set_tables_pollfds, Hps. split_and!; [done| |exact Hkey].
    intros _. split; [apply woken; change (sched (world (set_tables n2 tb))) with (sched (world n2)); by rewrite ?Hsched|]. change (Waiters.poll_waiters tb !! i = Some None). rewrite Hpw, Htab. cbn.
    apply list_lookup_insert_eq. by apply lookup_lt_Some in Hslot.
Qed.

End runs.

End SocketProps.
