(* ===== verification/SocketDemo.v ===== *)
(** A server and a client on sockets: runs that witness the properties of
    [SocketProps], and runs in which a receiver is forgotten or memory outside
    its buffer is written. *)

From Stdlib Require Import ZArith Lia.
From stdpp Require Import base numbers gmap list.
From S2P Require Import Prelude Ring Bytes FsTypes Vfs FdTable Process Signal HrTimer Waiters Scheduler SchedulerInv ProcessCtl Channel EventQueue HalKeyboard HalTty Net Poll Sockets SocketInv SocketProps.

Local Open Scope Z_scope.

Module SocketDemo.
Import Process Signal Scheduler SchedulerInv Net Poll Sockets SocketInv SocketProps.

(** ** The system *)

(** Each address space has the page at 4096, in a frame of its own. *)
Definition translate (sp page : Z) : option Z := if (0 <? sp) && (page =? 4096) then Some (sp * 65536) else None.
Definition home (f : Z) : option (Z * Z) := if (0 <? f) && (f mod 65536 =? 0) then Some (f / 65536, 4096) else None.

Lemma frames_private : private translate home.
Proof.
  split; intros sp page f; unfold translate; destruct (Z.ltb_spec 0 sp), (Z.eqb_spec page 4096); cbn [andb]; try done; intros [= <-].
  - unfold home. rewrite Z.mod_mul, Z.div_mul by lia. rewrite (proj2 (Z.ltb_lt _ _)) by lia. cbn [andb Z.eqb]. by subst.
  - split; [lia|]. change 65536 with (16 * 4096). rewrite Z.mul_assoc. by apply Z.mod_mul.
Qed.

(** The page of each process: the path ["s"], a message at 4224, an array with
    one entry for descriptor 0 at 4480. *)
Definition page : mem :=
  write_bytes (write_bytes (write_bytes ∅ 4096 [115; 0]) 4224 (to_le 4 7 ++ to_le 4 2 ++ [104; 105])) 4480 (pollfd_bytes (mkPollFd 0 POLLIN 0)).

Definition no_keys : Console.console := Console.mkConsole Keyboard.new (EventQueue.new Console.CAPACITY) (EventQueue.new Console.RAW_CAPACITY).

(** Process 1 runs, 2 and 3 are ready. *)
Definition boot : Net :=
  mkNet (ProcessCtl.demo_boot <| umem := <[1 := page]> (<[2 := page]> (<[3 := page]> ∅)) |>) Channel.table_new (replicate 32 (replicate 16 O)) None None
    (replicate 16 None) ∅ no_keys ∅.

Lemma boot_inv : net_inv home boot.
Proof.
  split; [|done]. split; [apply Channel.table_new_ok|]. intros id ch Hg. exfalso. revert Hg. unfold Channel.get. change (Channel.slots (channels boot)) with (replicate Channel.MAX_CHANNELS (@None Channel.Channel)).
  destruct (decide (id < Channel.MAX_CHANNELS)%nat); [by rewrite lookup_replicate_2|by rewrite lookup_ge_None_2 by (rewrite length_replicate; lia)].
Qed.

(** ** Running *)

Definition after (r : outcome stuck netret) (n : Net) : Net := match r with Ok r => ret_net r | _ => n end.
Definition result (r : outcome stuck netret) : option (option Z) := match r with Ok (Done _ v) => Some (Some v) | Ok (Switched _ _) => Some None | _ => None end.

Lemma after_done r n v : result r = Some (Some v) -> r = Ok (Done (after r n) v).
Proof. destruct r as [[]| |]; cbn; try done. by intros [= ->]. Qed.

Lemma after_switched r n : result r = Some None -> exists tf, r = Ok (Switched (after r n) tf).
Proof. destruct r as [[]| |]; cbn; try done. intros _. by eexists. Qed.

Lemma call_step n c ls n' : bool_decide (is_Some (result (run_call translate n c))) = true -> steps translate home (after (run_call translate n c) n) ls n' -> steps translate home n ls n'.
Proof.
  intros [v Hv]%bool_decide_eq_true Hs. apply (more_steps translate home n [] (after (run_call translate n c) n) ls n'); [|exact Hs].
  destruct (run_call translate n c) as [r| |] eqn:E; try done. by apply (st_call translate home n c).
Qed.

Fixpoint run (cs : list call) (n : Net) : Net :=
  match cs with
  | [] => n
  | c :: cs' => run cs' (after (run_call translate n c) n)
  end.

Fixpoint runs_ok (cs : list call) (n : Net) : bool :=
  match cs with
  | [] => true
  | c :: cs' => bool_decide (is_Some (result (run_call translate n c))) && runs_ok cs' (after (run_call translate n c) n)
  end.

Lemma run_steps cs n ls n' : runs_ok cs n = true -> steps translate home (run cs n) ls n' -> steps translate home n ls n'.
Proof.
  revert n; induction cs as [|c cs IH]; intros n Hok Hs; cbn [runs_ok run] in *; [done|]. apply andb_prop in Hok as [H1 H2]. apply (call_step n c); [done|]. by apply IH.
Qed.

Lemma run_net_inv cs n : runs_ok cs n = true -> net_inv home n -> net_inv home (run cs n).
Proof.
  intros Hok Hn. apply (steps_mail translate home n [] (run cs n) frames_private Hn). apply (run_steps cs); [done|]. constructor.
Qed.

(** Process 1 listens and waits; 2 connects, and 1 has descriptor 1 for it. *)
Definition setup : list call := [CSocket; CBind 0 4096; CAccept 0; CSocket; CConnect 0 4096].
Definition connected : Net := run setup boot.

Lemma setup_ok : runs_ok setup boot = true.
Proof. by vm_compute. Qed.

Lemma connected_inv : net_inv home connected.
Proof. apply run_net_inv; [exact setup_ok|exact boot_inv]. Qed.

(** 2 blocks in [recvmsg]; 3 runs and polls the keyboard, so that 1 runs. *)
Definition waiting : Net := after (sys_recvmsg translate connected 0 4352) connected.
Definition idle_poll : call := CPoll 0 4480 1 (-1).
Definition server_runs : Net := run [idle_poll] waiting.

Definition sent_message : Channel.Message := Channel.mkMessage 7 2 ([104; 105] ++ replicate 54 0).

Strategy expand [connected server_runs waiting].

Lemma to_connected ls n' : steps translate home connected ls n' -> steps translate home boot ls n'.
Proof. intros Hs. unfold connected in Hs. exact (run_steps setup boot ls n' setup_ok Hs). Qed.

Lemma to_server_runs ls n' : steps translate home server_runs ls n' -> steps translate home waiting ls n'.
Proof. intros Hs. unfold server_runs in Hs. apply (run_steps [idle_poll]); [by vm_compute|exact Hs]. Qed.

(** ** Witnesses *)


Lemma waiting_inv : net_inv home connected -> exists tf, sys_recvmsg translate connected 0 4352 = Ok (Switched waiting tf).
Proof. intros _. apply after_switched. by vm_compute. Qed.

(** The process parked with pid [who]. *)
Definition parked (n : Net) (who : Z) : Process := default idle (head (filter (fun p => pid p = who) (wait_queue (sched (world n))))).

Lemma parked_in n who : existsb (fun p => pid p =? who) (wait_queue (sched (world n))) = true -> parked n who ∈ wait_queue (sched (world n)) /\ pid (parked n who) = who.
Proof.
  intros He. apply existsb_exists in He as (p & Hp & E). apply Z.eqb_eq in E. apply list_elem_of_In in Hp.
  assert (p ∈ filter (fun p => pid p = who) (wait_queue (sched (world n)))) as Hf by (by apply list_elem_of_filter).
  unfold parked. destruct (filter (fun p => pid p = who) (wait_queue (sched (world n)))) as [|q l] eqn:El; [by apply elem_of_nil in Hf|]. cbn.
  assert (q ∈ filter (fun p => pid p = who) (wait_queue (sched (world n)))) as Hq by (rewrite El; by left). apply list_elem_of_filter in Hq as [? ?]. done.
Qed.

Lemma running_fields n who sp : (fun p => (pid p, address_space p)) <$> running (sched (world n)) = Some (who, sp) ->
  exists proc, running (sched (world n)) = Some proc /\ pid proc = who /\ address_space proc = sp.
Proof. intros (proc & Hr & E)%fmap_Some. exists proc. by injection E as -> ->. Qed.


(** Process 2 sends on its socket; a descriptor without a socket, and one whose
    peer has closed, are errors that change nothing. *)
Definition hung_up : Net := socket_close 3 connected.

Lemma socket_close_mem id n : active_mem (world (socket_close id n)) = active_mem (world n).
Proof. reflexivity. Qed.

Lemma hung_up_mem : active_mem (world hung_up) = active_mem (world connected).
Proof. exact (socket_close_mem 3 connected). Qed.

Lemma hung_up_inv : net_inv home hung_up.
Proof.
  apply (steps_mail translate home connected ((Dropped 3 <$> mailbox (channels connected) 3) ++ []) hung_up frames_private connected_inv).
  apply (more_steps translate home connected _ hung_up); [apply st_close|constructor].
Qed.

Lemma sendmsg_errors_witness : (exists n', sys_sendmsg home connected 0 4224 = Ok (Done n' 64)) /\
  sys_sendmsg home connected 5 4224 = Ok (Done connected ENOTSOCK) /\ sys_sendmsg home hung_up 0 4224 = Ok (Done hung_up EPIPE).
Proof.
  assert (forall n, net_inv home n -> active_mem (world n) = active_mem (world connected) -> forall fd v, send_answer n fd 4224 = v ->
    exists n', sys_sendmsg home n fd 4224 = Ok (Done n' v) /\ (v < 0 -> n' = n)) as H.
  { intros n Hn Hm fd v <-. apply sendmsg_errors; [apply (inv_channels _ _ Hn)|]. rewrite Hm. apply (bool_decide_unpack _). by vm_compute. }
  split; [|split].
  - destruct (H connected connected_inv eq_refl 0 64) as (n' & Hs & _); [by vm_compute|]. by exists n'.
  - destruct (H connected connected_inv eq_refl 5 ENOTSOCK) as (n' & Hs & Hn); [by vm_compute|]. rewrite Hn in Hs by done. exact Hs.
  - destruct (H hung_up hung_up_inv hung_up_mem 0 EPIPE) as (n' & Hs & Hn); [by vm_compute|]. rewrite Hn in Hs by done. exact Hs.
Defined.

(** ** Polling *)

(** Instead of receiving, 2 polls its socket; then 1 sends to it. *)
Definition polling : Net := run [CPoll 0 4480 1 (-1); idle_poll] connected.

Definition poller : Waiters.PollWaiter := Waiters.mkPollWaiter 2 (131072 + 384) 8 (Waiters.Poll 1) None.

Lemma poller_buffer : pollfds_in home poller 1.
Proof. split; [done|]. exists 131072, 2, 4096, 384. split_and!; [reflexivity|reflexivity|reflexivity|lia|lia|lia]. Qed.

Lemma polling_inv : net_inv home polling.
Proof. unfold polling. apply run_net_inv; [by vm_compute|exact connected_inv]. Qed.


(** Process 1 polls the keyboard; then a character is queued. *)
Definition keyed : Net :=
  (run [idle_poll] boot) <| console := Console.mkConsole Keyboard.new (EventQueue.push Console.CAPACITY (EventQueue.new Console.CAPACITY) 97) (EventQueue.new Console.RAW_CAPACITY) |>.

Definition key_poller : Waiters.PollWaiter := Waiters.mkPollWaiter 1 (65536 + 384) 8 (Waiters.Poll 1) None.

Lemma key_wakes_poller_witness : exists p, pid p = 1 /\
  (p <| state := Ready |> <| trapframe := (trapframe p) <| rax := 1 |> |>) ∈ concat (run_queues (sched (world (poll_wakeup_for_fd0 home keyed)))).
Proof.
  destruct (parked_in keyed 1) as [Hin Hpid]; [by vm_compute|].
  destruct (key_wakes_poller home keyed 1 key_poller 1 (parked keyed 1)) as (_ & Hwake & _).
  - split; [by vm_compute|by vm_compute| |apply sched_okb_ok; by vm_compute]. split; [exact Hin|]. split; [exact Hpid|by vm_compute].
  - split; [done|]. exists 65536, 1, 4096, 384. split_and!; [reflexivity|reflexivity|reflexivity|lia|lia|lia].
  - done.
  - done.
  - exists (parked keyed 1). split; [exact Hpid|].
    assert (ready_count (pollfds_at home (poll_wakeup_for_fd0 home keyed) (Waiters.phys_buf key_poller) (Z.to_nat 1)) = 1) as E by (by vm_compute).
    rewrite E in Hwake. apply Hwake. done.
Defined.

(** With the character queued before it asks, process 1 is told at once; without
    it, it waits. *)
Definition ready_boot : Net := boot <| console := console keyed |>.


(** ** A connection that waits for [accept] *)

(** Process 1 binds but does not wait; 2 makes a socket. *)
Definition listening : Net := run [CSocket; CBind 0 4096; idle_poll; CSocket] boot.

Lemma listening_inv : net_inv home listening.
Proof. unfold listening. apply run_net_inv; [by vm_compute|exact boot_inv]. Qed.

(** 2 connects; then 1, running again, accepts and gets descriptor 1. *)
Lemma connection_established_witness : exists n' new n3, sys_connect listening 0 4096 = Ok (Done n' 0) /\ Channel.get (channels n') 2 ≫= Channel.peer = Some new /\
  sys_accept (n' <| world := world boot |>) 0 = Ok (Done n3 1) /\ fd_channel n3 1 = Some new.
Proof.
  destruct (connection_established listening 0 4096 2 1 3) as (n' & new & Hs & _ & Hpeer & _ & _ & Hacc).
  - apply (inv_channels home), listening_inv.
  - by vm_compute.
  - by vm_compute.
  - apply (bool_decide_unpack _). by vm_compute.
  - by vm_compute.
  - by vm_compute.
  - done.
  - by vm_compute.
  - unfold Channel.MAX_CHANNELS. lia.
  - by vm_compute.
  - assert (n' = after (sys_connect listening 0 4096) listening) as En by (by rewrite Hs).
    destruct (running_fields boot 1 1) as (proc & Hrun & Hp & _); [by vm_compute|]. destruct (Hacc (n' <| world := world boot |>) 0 proc 1%nat) as (n3 & Ha & Hf & _).
    + done.
    + split; [rewrite En; by vm_compute|]. intros k row Hk. change (fd_channel_map (n' <| world := world boot |>)) with (fd_channel_map n') in Hk. rewrite En in Hk.
      assert (Forall (fun row => length row = 16%nat) (fd_channel_map (after (sys_connect listening 0 4096) listening))) as Hall by (apply (bool_decide_unpack _); by vm_compute).
      rewrite Forall_lookup in Hall. exact (Hall k row Hk).
    + exact Hrun.
    + lia.
    + rewrite En. by vm_compute.
    + rewrite En. assert (files <$> running (sched (world boot)) = Some 1) as Hfl by (by vm_compute). rewrite Hrun in Hfl. cbn [fmap option_fmap option_map] in Hfl. injection Hfl as ->. by vm_compute.
    + lia.
    + exists n', new, n3. split; [exact Hs|]. split; [exact Hpeer|]. split; [exact Ha|exact Hf].
Defined.

(** ** Where it goes wrong *)

(** Processes 2 and 3 block in [recvmsg]; the message for 2 is queued, and 2
    stays blocked: only the last receiver to block is known. *)
Definition two_waiting : Net := let n := run [CSocket] waiting in after (sys_recvmsg translate n 0 4352) n.

Theorem receiver_forgotten :
  let r := sys_sendmsg home two_waiting 1 4224 in let n := after r two_waiting in
  result r = Some (Some 64) /\ mailbox (channels n) 2 = [sent_message] /\ (rw_pid <$> recv_waiter n) = Some 3 /\
  (pid <$> filter (fun p => state p = Blocked) (wait_queue (sched (world n)))) = [2; 3].
Proof. by vm_compute. Qed.

(** A receive buffer that ends in the next page: the message goes on in the
    next frame of physical memory, which is not the process's. *)
Definition straddling : Net := run [idle_poll] (after (sys_recvmsg translate connected 0 8160) connected).

Theorem straddling_buffer : let n := after (sys_sendmsg home straddling 1 4224) straddling in
  result (sys_sendmsg home straddling 1 4224) = Some (Some 64) /\ kmem straddling !! (131072 + 4096) = None /\ kmem n !! (131072 + 4096) = Some 0.
Proof. by vm_compute. Qed.

(** [poll] with no entries does not check its pointer: one that is not an
    address stops the kernel, and [NULL] is an error instead of a delay. *)
Theorem poll_unchecked_pointer : sys_poll translate 0 boot (2 ^ 47) 0 (-1) = Panic /\ result (sys_poll translate 0 boot 0 0 5) = Some (Some EFAULT).
Proof. by vm_compute. Qed.

(** [write] of more than a message: the rest is dropped and reported written. *)
Theorem socket_write_truncates id peer buf n : Channel.get (channels n) id ≫= Channel.peer = Some peer -> channels_ok (channels n) -> is_Some (Channel.get (channels n) peer) ->
  (length (mailbox (channels n) peer) < 16)%nat -> (56 < length buf)%nat ->
  exists n' m, socket_write id buf n = (n', inl (Bytes.size buf)) /\ Channel.msg_len m = 56 /\ mailbox (channels n') peer = mailbox (channels n) peer ++ [m].
Proof.
  intros Hpeer Hc [ch Hch] Hroom Hlen. unfold socket_write. rewrite Hpeer. set (m := Channel.new 0 buf).
  assert (Channel.msg_len m = 56) as Hm by (unfold m, Channel.new; cbn [Channel.msg_len]; lia).
  assert (message_wf m) as Hwf.
  { assert (length (take (Nat.min (length buf) 56) buf) = 56%nat) as Ht by (rewrite length_take; lia).
    split; [done|rewrite Hm; lia| |]; rewrite ?Hm; unfold m, Channel.new; cbn [Channel.data]; rewrite ?length_splice; rewrite ?length_replicate; [|lia..].
    unfold splice. rewrite take_0, Ht. cbn [app]. rewrite drop_replicate. change (Z.to_nat 56) with 56%nat. cbn [Nat.sub Nat.add replicate]. by rewrite !app_nil_r, (take_ge (take _ _)) by lia. }
  pose proof (enqueue_to_ok (channels n) peer m Hc Hwf) as He. destruct (enqueue_to (channels n) peer m) as [t [[|]|]].
  - destruct He as (_ & _ & Hmb). eexists _, m. split; [done|]. split; [done|]. cbn [channels update_field]. by rewrite Hmb, decide_True.
  - unfold Channel.RING_CAP in He. lia.
  - destruct He. congruence.
Qed.

(** A process that polls for room in its peer's queue is never found by either
    hook, whatever is received. *)
Theorem room_never_reported n w nfds id : Waiters.kind w = Waiters.Poll nfds ->
  Forall (fun p => has (events p) POLLIN = false) (pollfds_at home n (Waiters.phys_buf w) (Z.to_nat nfds)) ->
  poll_waiter_watches_channel home n w id = false /\ poll_waiter_watches_stdin home n w = false.
Proof.
  intros Hk Hev. unfold poll_waiter_watches_channel, poll_waiter_watches_stdin. rewrite Hk.
  assert (forall f, existsb (fun p => f p && has (events p) POLLIN) (pollfds_at home n (Waiters.phys_buf w) (Z.to_nat nfds)) = false) as H.
  { intros f. apply not_true_is_false. intros (p & Hp & E)%existsb_exists. apply andb_prop in E as [_ E]. rewrite Forall_forall in Hev. apply list_elem_of_In in Hp. rewrite (Hev p Hp) in E. done. }
  split; [by destruct (_ <=? _); [|apply H]|apply H].
Qed.

End SocketDemo.
