(* ===== verification/HalAcpi.v ===== *)
(** The ACPI parser: [hal/src/acpi.rs], with the start-up of its kernel
    adapter ([kernel/src/acpi.rs]).  Physical memory is the trait [PhysMem] of
    [hal/src/lib.rs]. *)

From Stdlib Require Import ZArith Lia.
From stdpp Require Import base numbers gmap list.
From S2P Require Import Prelude.

Local Open Scope Z_scope.

(** [PhysMem::read] fills a buffer with the bytes of physical memory from an
    address on. *)
Class PhysMem (M : Type) := {
  byte_at : M -> Z -> Z;
  pread : M -> Z -> nat -> list Z;
  pread_law : forall m pa n, pread m pa n = byte_at m <$> seqZ pa (Z.of_nat n);
  byte_law : forall m pa, 0 <= byte_at m pa < 256;
}.

Module HalAcpi.

(** ** Model *)

Record CpuInfo := mkCpu { processor_id : Z; apic_id : Z }.
Record IoApic := mkIoApic { io_id : Z; io_address : Z; gsi_base : Z }.
Record Iso := mkIso { bus : Z; source : Z; gsi : Z; iso_flags : Z }.
Record AcpiTopology := mkTopology { local_apic_addr : Z; cpus : list CpuInfo; io_apics : list IoApic; overrides : list Iso }.

#[export] Instance AcpiTopology_fields : Fields AcpiTopology := fun t => mkTopology (local_apic_addr t) (cpus t) (io_apics t) (overrides t).

Inductive AcpiError := BadSignature | BadChecksum | NoRootTable | NoMadt.

(** A loop that does not end is told apart from the errors. *)
Inductive fault :=
| Failed (e : AcpiError)
| OutOfFuel.

Definition SDT_HEADER_LEN : Z := 36.
Definition MADT_ENTRIES_START : Z := 44.
Definition MADT_TYPE_LOCAL_APIC : Z := 0.
Definition MADT_TYPE_IO_APIC : Z := 1.
Definition MADT_TYPE_INTERRUPT_SOURCE_OVERRIDE : Z := 2.
Definition MADT_TYPE_LOCAL_APIC_ADDRESS_OVERRIDE : Z := 5.

(** ["RSD PTR "] and ["APIC"]. *)
Definition RSD_PTR : list Z := [82; 83; 68; 32; 80; 84; 82; 32].
Definition APIC : list Z := [65; 80; 73; 67].

(** [u64] addition with the overflow check. *)
Definition add64 {E} (a b : Z) : outcome E Z := if a + b <? 2 ^ 64 then Ok (a + b) else Panic.

(** [from_le_bytes(buf[a..b])]. *)
Definition field (buf : list Z) (a b : nat) : Z := from_le (take (b - a) (drop a buf)).

Section parser.
Context {M : Type} `{PhysMem M}.
Implicit Types (m : M) (topo : AcpiTopology).

Definition read_bytes (n : nat) m (pa : Z) : list Z := pread m pa n.

Definition checksum_ok m (pa len : Z) : bool := foldl (fun acc b => (acc + b) mod 256) 0 (pread m pa (Z.to_nat len)) =? 0.

(** One interrupt-controller structure. *)
Definition madt_entry (entry_type entry_len : Z) (buf : list Z) topo : AcpiTopology :=
  if (entry_type =? MADT_TYPE_LOCAL_APIC) && (8 <=? entry_len) then
    if negb (Z.land (field buf 4 8) 1 =? 0) then topo <| cpus := cpus topo ++ [mkCpu (buf !!! 2%nat) (buf !!! 3%nat)] |> else topo
  else if (entry_type =? MADT_TYPE_IO_APIC) && (12 <=? entry_len) then
    topo <| io_apics := io_apics topo ++ [mkIoApic (buf !!! 2%nat) (field buf 4 8) (field buf 8 12)] |>
  else if (entry_type =? MADT_TYPE_INTERRUPT_SOURCE_OVERRIDE) && (10 <=? entry_len) then
    topo <| overrides := overrides topo ++ [mkIso (buf !!! 2%nat) (buf !!! 3%nat) (field buf 4 8) (field buf 8 10)] |>
  else if (entry_type =? MADT_TYPE_LOCAL_APIC_ADDRESS_OVERRIDE) && (12 <=? entry_len) then
    topo <| local_apic_addr := field buf 4 12 |>
  else topo.

(** The loop of [parse_madt] from [offset] on. *)
Fixpoint madt_loop (fuel : nat) m (madt_pa madt_len offset : Z) topo : outcome fault AcpiTopology :=
  match fuel with
  | O => Err OutOfFuel
  | S fuel' =>
      if offset + 2 <=? madt_len then
        pa ← add64 madt_pa offset;
        let hdr := read_bytes 2 m pa in
        let entry_type := hdr !!! 0%nat in
        let entry_len := hdr !!! 1%nat in
        if (entry_len <? 2) || (madt_len <? offset + entry_len) then Ok topo else
        let buf := pread m pa (Z.to_nat entry_len) in
        madt_loop fuel' m madt_pa madt_len (offset + entry_len) (madt_entry entry_type entry_len buf topo)
      else Ok topo
  end.

Definition parse_madt m (madt_pa madt_len : Z) topo : outcome fault AcpiTopology :=
  madt_loop (S (Z.to_nat madt_len)) m madt_pa madt_len MADT_ENTRIES_START topo.

(** The loop of [find_madt]: entry [i] and the [n - 1] after it. *)
Fixpoint find_loop (n : nat) m (root_pa root_len entry_size i : Z) : outcome fault (option (Z * Z)) :=
  match n with
  | O => Ok None
  | S n' =>
      let entry_offset := SDT_HEADER_LEN + i * entry_size in
      if root_len <? entry_offset + entry_size then Ok None else
      pa ← add64 root_pa entry_offset;
      let table_pa := from_le (read_bytes (if entry_size =? 8 then 8 else 4) m pa) in
      if table_pa =? 0 then find_loop n' m root_pa root_len entry_size (i + 1) else
      let hdr := read_bytes (Z.to_nat SDT_HEADER_LEN) m table_pa in
      let len := field hdr 4 8 in
      if negb (bool_decide (take 4 hdr = APIC)) then find_loop n' m root_pa root_len entry_size (i + 1) else
      if (len <? SDT_HEADER_LEN) || negb (checksum_ok m table_pa len) then find_loop n' m root_pa root_len entry_size (i + 1) else
      Ok (Some (table_pa, len))
  end.

Definition find_madt m (root_pa root_len entry_size : Z) : outcome fault (option (Z * Z)) :=
  if root_len <? SDT_HEADER_LEN then Ok None else
  find_loop (Z.to_nat ((root_len - SDT_HEADER_LEN) / entry_size)) m root_pa root_len entry_size 0.

Definition parse m (rsdp_pa : Z) : outcome fault AcpiTopology :=
  let rsdp := read_bytes 36 m rsdp_pa in
  if negb (bool_decide (take 8 rsdp = RSD_PTR)) then Err (Failed BadSignature) else
  if negb (checksum_ok m rsdp_pa 20) then Err (Failed BadChecksum) else
  let revision := rsdp !!! 15%nat in
  let rsdt_address := field rsdp 16 20 in
  let length := field rsdp 20 24 in
  let xsdt_address := field rsdp 24 32 in
  let use_xsdt := (2 <=? revision) && negb (xsdt_address =? 0) in
  root ← (if use_xsdt then
            if negb (checksum_ok m rsdp_pa length) then Err (Failed BadChecksum) else Ok (xsdt_address, 8)
          else if rsdt_address =? 0 then Err (Failed NoRootTable) else Ok (rsdt_address, 4));
  let '(root_pa, entry_size) := root in
  let root_hdr := read_bytes (Z.to_nat SDT_HEADER_LEN) m root_pa in
  let root_len := field root_hdr 4 8 in
  if (root_len <? SDT_HEADER_LEN) || negb (checksum_ok m root_pa root_len) then Err (Failed BadChecksum) else
  r ← find_madt m root_pa root_len entry_size;
  match r with
  | None => Err (Failed NoMadt)
  | Some (madt_pa, madt_len) =>
      pa ← add64 madt_pa 36;
      parse_madt m madt_pa madt_len (mkTopology (from_le (read_bytes 4 m pa)) [] [] [])
  end.

(** ** The kernel adapter *)

Inductive DriverError := NotFound | Invalid.

(** [AcpiDriver::init]; the topology is kept for the rest of the run, the first
    one if it is called again. *)
Definition driver_init m (rsdp_addr : option Z) (topology : option AcpiTopology) : outcome fault (option AcpiTopology * option DriverError) :=
  match rsdp_addr with
  | None => Ok (topology, Some NotFound)
  | Some rsdp_pa =>
      match parse m rsdp_pa with
      | Ok topo => Ok (match topology with Some t => Some t | None => Some topo end, None)
      | Err (Failed (NoRootTable | NoMadt)) => Ok (topology, Some NotFound)
      | Err (Failed (BadSignature | BadChecksum)) => Ok (topology, Some Invalid)
      | Err OutOfFuel => Err OutOfFuel
      | Panic => Panic
      end
  end.

Record SelftestChecks := mkChecks { local_apic_ok : bool; io_apic_ok : bool; cpus_ok : bool; iso_ok : bool }.
Definition all_ok (c : SelftestChecks) : bool := local_apic_ok c && io_apic_ok c && cpus_ok c && iso_ok c.
Definition selftest_checks topo : SelftestChecks :=
  mkChecks (local_apic_addr topo =? 4276092928)
    (existsb (fun io => (io_address io =? 4273995776) && (gsi_base io =? 0)) (io_apics topo))
    (negb (bool_decide (cpus topo = [])))
    (existsb (fun iso => (source iso =? 0) && (gsi iso =? 2)) (overrides topo)).
Definition selftest_ok topo : bool := all_ok (selftest_checks topo).

End parser.
End HalAcpi.
