(* ===== verification/AcpiProps.v ===== *)
(** What the ACPI parser finds: from any tables that describe a machine it
    reads back the machine, and its walk stays within the table. *)

From Stdlib Require Import ZArith Lia.
From stdpp Require Import base numbers gmap list.
From S2P Require Import Prelude HalAcpi.

Local Open Scope Z_scope.

Module AcpiProps.
Import HalAcpi.

(** ** Tables *)

(** The structures of a MADT; a processor is enabled by bit 0 of its flags. *)
Inductive entry :=
| LocalApic (processor_id apic_id flags : Z)
| IoApicEntry (id address gsi_base : Z)
| Override (bus source gsi flags : Z)
| AddressOverride (address : Z)
| Other (ty : Z) (payload : list Z).

Definition encode (e : entry) : list Z :=
  match e with
  | LocalApic p a flags => [0; 8; p; a] ++ to_le 4 flags
  | IoApicEntry id address base => [1; 12; id; 0] ++ to_le 4 address ++ to_le 4 base
  | Override bus source gsi flags => [2; 10; bus; source] ++ to_le 4 gsi ++ to_le 2 flags
  | AddressOverride address => [5; 12; 0; 0] ++ to_le 8 address
  | Other ty payload => [ty; 2 + Z.of_nat (length payload)] ++ payload
  end.

Definition entry_ok (e : entry) : Prop :=
  match e with
  | LocalApic _ _ flags => in_width 32 flags
  | IoApicEntry _ address base => in_width 32 address /\ in_width 32 base
  | Override _ _ gsi flags => in_width 32 gsi /\ in_width 16 flags
  | AddressOverride address => in_width 64 address
  | Other ty payload => ty <> 0 /\ ty <> 1 /\ ty <> 2 /\ ty <> 5
  end.

(** What a machine with these structures looks like: the enabled processors,
    the I/O APICs and overrides in order, and the last address given for the
    local APIC. *)
Definition cpu_of (e : entry) : option CpuInfo := match e with LocalApic p a flags => if Z.odd flags then Some (mkCpu p a) else None | _ => None end.
Definition io_apic_of (e : entry) : option IoApic := match e with IoApicEntry id address base => Some (mkIoApic id address base) | _ => None end.
Definition iso_of (e : entry) : option Iso := match e with Override b s g f => Some (mkIso b s g f) | _ => None end.
Definition address_of (e : entry) : option Z := match e with AddressOverride a => Some a | _ => None end.
Definition topology_of (lapic : Z) (es : list entry) : AcpiTopology :=
  mkTopology (default lapic (last (omap address_of es))) (omap cpu_of es) (omap io_apic_of es) (omap iso_of es).

(** Adding one structure to what has been found. *)
Definition record (topo : AcpiTopology) (e : entry) : AcpiTopology :=
  mkTopology (default (local_apic_addr topo) (address_of e)) (cpus topo ++ option_list (cpu_of e)) (io_apics topo ++ option_list (io_apic_of e)) (overrides topo ++ option_list (iso_of e)).

Lemma record_all topo es : foldl record topo es =
  mkTopology (default (local_apic_addr topo) (last (omap address_of es))) (cpus topo ++ omap cpu_of es) (io_apics topo ++ omap io_apic_of es) (overrides topo ++ omap iso_of es).
Proof.
  revert topo; induction es as [|e es IH]; intros topo; [destruct topo; cbn; by rewrite !app_nil_r|]. cbn [foldl]. rewrite IH. destruct e; cbn [record local_apic_addr cpus io_apics overrides omap list_omap cpu_of io_apic_of iso_of address_of]; try destruct (Z.odd flags);
    cbn [option_list default]; rewrite ?app_nil_r, <- ?app_assoc; cbn [app]; try done. f_equal. rewrite last_cons. by destruct (last _).
Qed.

(** ** Fields *)

Lemma table_field_at l1 x l2 a b : length l1 = a -> length x = (b - a)%nat -> field (l1 ++ x ++ l2) a b = from_le x.
Proof. intros <- Hx. unfold field. rewrite drop_app_length, take_app_le, take_ge by lia. done. Qed.

Lemma from_le_n n z : in_width (8 * Z.of_nat n) z -> from_le (to_le n z) = z.
Proof. intros Hz. apply from_to_le. unfold in_width in Hz. by rewrite Z.pow_mul_r in Hz by lia. Qed.

Lemma encode_ok e topo : entry_ok e -> exists ty pl, encode e = ty :: (2 + Z.of_nat (length pl)) :: pl /\ madt_entry ty (2 + Z.of_nat (length pl)) (encode e) topo = record topo e.
Proof.
  destruct e as [p a flags|id address base|b s g fl|address|ty pl]; intros Hok; cbn [encode entry_ok] in *.
  - exists 0, ([p; a] ++ to_le 4 flags). split; [done|]. unfold madt_entry. change (2 + Z.of_nat (length ([p; a] ++ to_le 4 flags))) with 8. cbn [Z.eqb Z.leb andb MADT_TYPE_LOCAL_APIC Z.compare Pos.compare Pos.compare_cont].
    rewrite <- (app_nil_r (to_le 4 flags)), (table_field_at [0; 8; p; a] _ [] 4 8) by done. rewrite from_le_n by done. destruct topo. unfold record. cbn [cpu_of io_apic_of iso_of address_of default option_list local_apic_addr cpus io_apics overrides update_field].
    change 1 with (Z.ones 1). rewrite Z.land_ones by lia. change (2 ^ 1) with 2. rewrite Zmod_odd. destruct (Z.odd flags); cbn; by rewrite ?app_nil_r.
  - exists 1, ([id; 0] ++ to_le 4 address ++ to_le 4 base). split; [done|]. unfold madt_entry. change (2 + Z.of_nat (length ([id; 0] ++ to_le 4 address ++ to_le 4 base))) with 12. cbn [andb Z.eqb Z.leb MADT_TYPE_LOCAL_APIC MADT_TYPE_IO_APIC Z.compare Pos.compare Pos.compare_cont Pos.eqb].
    rewrite (table_field_at [1; 12; id; 0] (to_le 4 address) (to_le 4 base) 4 8) by done. rewrite app_assoc, <- (app_nil_r (to_le 4 base)), (table_field_at _ (to_le 4 base) [] 8 12) by done. destruct Hok. rewrite !from_le_n by done.
    destruct topo. unfold record. cbn. by rewrite ?app_nil_r.
  - exists 2, ([b; s] ++ to_le 4 g ++ to_le 2 fl). split; [done|]. unfold madt_entry. change (2 + Z.of_nat (length ([b; s] ++ to_le 4 g ++ to_le 2 fl))) with 10. cbn [andb Z.eqb Z.leb MADT_TYPE_LOCAL_APIC MADT_TYPE_IO_APIC MADT_TYPE_INTERRUPT_SOURCE_OVERRIDE Z.compare Pos.compare Pos.compare_cont Pos.eqb].
    rewrite (table_field_at [2; 10; b; s] (to_le 4 g) (to_le 2 fl) 4 8) by done. rewrite app_assoc, <- (app_nil_r (to_le 2 fl)), (table_field_at _ (to_le 2 fl) [] 8 10) by done. destruct Hok. rewrite !from_le_n by done.
    destruct topo. unfold record. cbn. by rewrite ?app_nil_r.
  - exists 5, ([0; 0] ++ to_le 8 address). split; [done|]. unfold madt_entry. change (2 + Z.of_nat (length ([0; 0] ++ to_le 8 address))) with 12. cbn [andb Z.eqb Z.leb MADT_TYPE_LOCAL_APIC MADT_TYPE_IO_APIC MADT_TYPE_INTERRUPT_SOURCE_OVERRIDE MADT_TYPE_LOCAL_APIC_ADDRESS_OVERRIDE Z.compare Pos.compare Pos.compare_cont Pos.eqb].
    rewrite <- (app_nil_r (to_le 8 address)), (table_field_at [5; 12; 0; 0] (to_le 8 address) [] 4 12) by done. rewrite from_le_n by done. destruct topo. unfold record. cbn. by rewrite ?app_nil_r.
  - exists ty, pl. split; [done|]. destruct Hok as (H0 & H1 & H2 & H5). unfold madt_entry, MADT_TYPE_LOCAL_APIC, MADT_TYPE_IO_APIC, MADT_TYPE_INTERRUPT_SOURCE_OVERRIDE, MADT_TYPE_LOCAL_APIC_ADDRESS_OVERRIDE.
    rewrite !(proj2 (Z.eqb_neq ty _)) by done. destruct topo. unfold record. cbn. by rewrite !app_nil_r.
Qed.

Section memory.
Context {M : Type} `{PhysMem M}.
Implicit Types (m : M) (topo : AcpiTopology) (es : list entry).

(** ** Memory *)

Definition holds m (pa : Z) (bs : list Z) : Prop := pread m pa (length bs) = bs.

Lemma pread_app m pa a b : pread m pa (a + b) = pread m pa a ++ pread m (pa + Z.of_nat a) b.
Proof. rewrite !pread_law, <- fmap_app. f_equal. rewrite <- seqZ_app by lia. f_equal. lia. Qed.

Lemma length_pread m pa n : length (pread m pa n) = n.
Proof. rewrite pread_law, length_fmap, length_seqZ. lia. Qed.

Lemma holds_app m pa bs bs' : holds m pa (bs ++ bs') <-> holds m pa bs /\ holds m (pa + Z.of_nat (length bs)) bs'.
Proof.
  unfold holds. rewrite length_app, pread_app. split; [|by intros [-> ->]]. intros E. apply app_inj_1 in E; [done|]. by rewrite length_pread.
Qed.

(** What a read of the first bytes of a table gives. *)
Lemma holds_prefix m pa bs n : holds m pa bs -> (n <= length bs)%nat -> pread m pa n = take n bs.
Proof.
  intros Hh Hn. rewrite <- (take_drop n bs) in Hh. apply holds_app in Hh as [Hh _]. unfold holds in Hh. by rewrite length_take, Nat.min_l in Hh.
Qed.

(** ** The walk *)

Definition encoded es : list Z := concat (encode <$> es).

(** Each structure has its two header bytes and fits a byte-sized length. *)
Lemma madt_loop_spec fuel m pa len offset topo es : holds m (pa + offset) (encoded es) -> Forall entry_ok es -> len = offset + Z.of_nat (length (encoded es)) -> 0 <= offset -> pa + len <= 2 ^ 64 -> (length es < fuel)%nat ->
  madt_loop fuel m pa len offset topo = Ok (foldl record topo es).
Proof.
  revert fuel offset topo; induction es as [|e es IH]; intros fuel offset topo Hh Hok Hlen Ho Hb Hf; (destruct fuel as [|fuel]; [cbn in Hf; lia|]).
  { cbn in Hlen. cbn [madt_loop foldl]. by rewrite (proj2 (Z.leb_gt _ _)) by lia. }
  apply list.Forall_cons in Hok as [He Hok]. destruct (encode_ok e topo He) as (ty & pl & Ee & Hrec). unfold encoded in Hh, Hlen. rewrite fmap_cons in Hh, Hlen. cbn [concat] in Hh, Hlen. fold (encoded es) in Hh, Hlen.
  rewrite length_app in Hlen. pose proof (holds_prefix _ _ _ 2 Hh ltac:(rewrite Ee; cbn; lia)) as Hhdr. rewrite Ee in Hhdr. cbn in Hhdr. apply holds_app in Hh as [Hhe Hh].
  assert (length (encode e) = (2 + length pl)%nat) as Hl by (by rewrite Ee). rewrite Hl in *. cbn [madt_loop]. rewrite (proj2 (Z.leb_le _ _)) by lia. unfold add64. rewrite (proj2 (Z.ltb_lt _ _)) by lia. cbn [mbind outcome_bind].
  unfold read_bytes. rewrite Hhdr. cbn [lookup_total list_lookup_total]. rewrite !(proj2 (Z.ltb_ge _ _)) by lia. cbn [orb]. replace (Z.to_nat (2 + Z.of_nat (length pl))) with (length (encode e)) by lia. unfold holds in Hhe. rewrite Hhe, Hrec.
  apply IH; [|done|lia|lia|done|cbn in Hf; lia]. by replace (pa + (offset + (2 + Z.of_nat (length pl)))) with (pa + offset + Z.of_nat (2 + length pl)) by lia.
Qed.

Lemma length_encoded es : Forall entry_ok es -> (2 * length es <= length (encoded es))%nat.
Proof.
  induction 1 as [|e es He _ IH]; [done|]. unfold encoded in *. rewrite fmap_cons. cbn [concat length]. rewrite length_app. destruct (encode_ok e (mkTopology 0 [] [] []) He) as (ty & pl & -> & _). cbn [length]. lia.
Qed.

(** The walk always ends, and what it finds depends on the bytes of the table
    alone. *)
Lemma madt_loop_bounded fuel m m' pa len offset topo : 0 <= offset -> pa + len <= 2 ^ 64 -> (Z.to_nat (len - offset) < fuel)%nat -> (forall x, pa + offset <= x < pa + len -> byte_at m x = byte_at m' x) ->
  exists topo', madt_loop fuel m pa len offset topo = Ok topo' /\ madt_loop fuel m' pa len offset topo = Ok topo'.
Proof.
  revert offset topo; induction fuel as [|fuel IH]; intros offset topo Ho Hb Hf Hm; [lia|]. cbn [madt_loop]. destruct (Z.leb_spec (offset + 2) len); [|by eexists].
  unfold add64. rewrite (proj2 (Z.ltb_lt _ _)) by lia. cbn [mbind outcome_bind].
  assert (forall n, Z.of_nat n <= len - offset -> pread m (pa + offset) n = pread m' (pa + offset) n) as Hread. { intros n Hn. rewrite !pread_law. apply list_fmap_ext. intros i x Hx%list_elem_of_lookup_2%elem_of_seqZ. apply Hm. lia. }
  unfold read_bytes. rewrite <- (Hread 2%nat) by lia. destruct (Z.ltb_spec (pread m (pa + offset) 2 !!! 1%nat) 2); cbn [orb]; [by eexists|]. destruct (Z.ltb_spec len (offset + pread m (pa + offset) 2 !!! 1%nat)); [by eexists|].
  rewrite <- Hread by lia. apply IH; [lia|done|lia|]. intros x Hx. apply Hm. lia.
Qed.

(** ** The tables around it *)

Definition rsdp_bytes (checksum : Z) (oem : list Z) (revision rsdt len xsdt : Z) (tail : list Z) : list Z :=
  RSD_PTR ++ [checksum] ++ oem ++ [revision] ++ to_le 4 rsdt ++ to_le 4 len ++ to_le 8 xsdt ++ tail.

(** A table with its header and checksum. *)
Record table m (pa : Z) (sig body : list Z) : Prop := {
  t_bytes : exists hdr, length hdr = 28%nat /\ holds m pa (sig ++ to_le 4 (36 + Z.of_nat (length body)) ++ hdr ++ body);
  t_sig : length sig = 4%nat;
  t_len : 36 + Z.of_nat (length body) < 2 ^ 32;
  t_fits : 0 < pa /\ pa + 36 + Z.of_nat (length body) <= 2 ^ 64;
  t_checksum : checksum_ok m pa (36 + Z.of_nat (length body)) = true;
}.

(** A pointer the search passes by. *)
Definition skipped m (p : Z) : Prop := p = 0 \/ pread m p 4 <> APIC.

Lemma table_header m pa sig body : table m pa sig body ->
  take 4 (pread m pa 36) = sig /\ field (pread m pa 36) 4 8 = 36 + Z.of_nat (length body) /\ holds m (pa + 36) body.
Proof.
  intros [(hdr & Hh & Hb) Hs Hl _ _]. set (len := 36 + Z.of_nat (length body)) in *.
  assert (length (sig ++ to_le 4 len ++ hdr) = 36%nat) as E36 by (rewrite !length_app, length_to_le; lia).
  rewrite !app_assoc in Hb. rewrite <- (app_assoc sig) in Hb. apply holds_app in Hb as [Hhd Hbody]. rewrite E36 in Hbody. unfold holds in Hhd. rewrite E36 in Hhd. rewrite Hhd. split_and!; [|rewrite table_field_at by (done || rewrite length_to_le; lia)|done].
  - rewrite take_app_le, take_ge by lia. done.
  - apply from_le_n. unfold in_width. lia.
Qed.

Lemma find_loop_spec (w : nat) m root_pa root_len before madt_pa after body i : (w = 8 \/ w = 4)%nat -> 0 < root_pa -> 0 <= i -> root_pa + root_len <= 2 ^ 64 ->
  root_len = 36 + (i + Z.of_nat (length (before ++ madt_pa :: after))) * Z.of_nat w -> holds m (root_pa + 36 + i * Z.of_nat w) (concat (to_le w <$> (before ++ madt_pa :: after))) ->
  Forall (fun p => in_width (8 * Z.of_nat w) p) (before ++ madt_pa :: after) -> Forall (skipped m) before -> table m madt_pa APIC body ->
  find_loop (length (before ++ madt_pa :: after)) m root_pa root_len (Z.of_nat w) i = Ok (Some (madt_pa, 36 + Z.of_nat (length body))).
Proof.
  intros Hw Hr. revert i; induction before as [|p before IH]; intros i Hi Hb Hlen Hh Hwd Hskip Hmadt; cbn [app length] in *; cbn [find_loop fmap list_fmap concat] in *; unfold SDT_HEADER_LEN, add64, read_bytes.
  all: rewrite (proj2 (Z.ltb_ge root_len _)) by nia; rewrite (proj2 (Z.ltb_lt (root_pa + _) (2 ^ 64))) by nia; cbn [mbind outcome_bind].
  all: apply list.Forall_cons in Hwd as [Hp Hwd]; apply holds_app in Hh as [Hhp Hh]; unfold holds in Hhp; rewrite length_to_le in Hhp, Hh.
  all: replace (root_pa + (36 + i * Z.of_nat w)) with (root_pa + 36 + i * Z.of_nat w) by lia.
  all: replace (if Z.of_nat w =? 8 then 8%nat else 4%nat) with w by (destruct Hw; by subst); rewrite Hhp, from_le_n by done.
  - destruct (table_header m madt_pa APIC body Hmadt) as (Hs & Hf & _). destruct Hmadt as [_ _ Hl [Hpos _] Hc]. rewrite (proj2 (Z.eqb_neq madt_pa 0)) by lia. change (Z.to_nat 36) with 36%nat. rewrite Hs, Hf, bool_decide_true by done. cbn [negb].
    rewrite (proj2 (Z.ltb_ge _ _)), Hc by lia. done.
  - apply list.Forall_cons in Hskip as [Hsk Hskip]. assert (find_loop (length (before ++ madt_pa :: after)) m root_pa root_len (Z.of_nat w) (i + 1) = Ok (Some (madt_pa, 36 + Z.of_nat (length body)))) as IH'.
    { apply IH; [lia|done|nia| |done|done|done]. by replace (root_pa + 36 + (i + 1) * Z.of_nat w) with (root_pa + 36 + i * Z.of_nat w + Z.of_nat w) by lia. }
    destruct (Z.eqb_spec p 0); [done|]. rewrite bool_decide_false; [done|]. destruct Hsk as [?|Hsk]; [done|]. change (Z.to_nat 36) with (4 + 32)%nat. by rewrite pread_app, take_app_le, take_ge by (rewrite length_pread; lia).
Qed.

Lemma rsdp_fields checksum oem revision rsdt len xsdt tail : length oem = 6%nat -> in_width 32 rsdt -> in_width 32 len -> in_width 64 xsdt ->
  let bs := rsdp_bytes checksum oem revision rsdt len xsdt tail in field bs 16 20 = rsdt /\ field bs 20 24 = len /\ field bs 24 32 = xsdt /\ bs !!! 15%nat = revision.
Proof.
  intros Hoem Hr Hl Hx. destruct oem as [|o1 [|o2 [|o3 [|o4 [|o5 [|o6 [|? ?]]]]]]]; try done. set (start := RSD_PTR ++ [checksum] ++ [o1; o2; o3; o4; o5; o6] ++ [revision]). cbv zeta. split_and!; [| | |done].
  - rewrite <- (from_le_n 4 rsdt Hr) at 2. exact (table_field_at start (to_le 4 rsdt) (to_le 4 len ++ to_le 8 xsdt ++ tail) 16 20 eq_refl eq_refl).
  - rewrite <- (from_le_n 4 len Hl) at 2. exact (table_field_at (start ++ to_le 4 rsdt) (to_le 4 len) (to_le 8 xsdt ++ tail) 20 24 eq_refl eq_refl).
  - rewrite <- (from_le_n 8 xsdt Hx) at 2. exact (table_field_at (start ++ to_le 4 rsdt ++ to_le 4 len) (to_le 8 xsdt) tail 24 32 eq_refl eq_refl).
Qed.

(** C21: Tables that describe a machine are read back: whichever of the two root
    tables leads to it, the parser finds the MADT among the tables listed and
    returns the local APIC address, the enabled processors, the I/O APICs and
    the interrupt overrides, in order; structures of other kinds are skipped. *)
Theorem acpi_roundtrip m rsdp_pa checksum oem revision rsdt len xsdt tail sig before madt_pa after lapic flags es :
  let xs := (2 <=? revision) && negb (xsdt =? 0) in let root := if xs then xsdt else rsdt in let w := if xs then 8%nat else 4%nat in
  holds m rsdp_pa (rsdp_bytes checksum oem revision rsdt len xsdt tail) -> length oem = 6%nat -> length tail = 4%nat -> in_width 32 rsdt -> in_width 32 len -> in_width 64 xsdt ->
  checksum_ok m rsdp_pa 20 = true -> (xs = true -> checksum_ok m rsdp_pa len = true) ->
  table m root sig (concat (to_le w <$> (before ++ madt_pa :: after))) -> Forall (fun p => in_width (8 * Z.of_nat w) p) (before ++ madt_pa :: after) -> Forall (skipped m) before ->
  table m madt_pa APIC (to_le 4 lapic ++ flags ++ encoded es) -> in_width 32 lapic -> length flags = 4%nat -> Forall entry_ok es ->
  parse m rsdp_pa = Ok (topology_of lapic es).
Proof.
  intros xs root w Hrsdp Hoem Htail Hwr Hwl Hwx Hc20 Hcx Hroot Hps Hskip Hmadt Hwlapic Hflags Hes. unfold parse, read_bytes. pose proof Hrsdp as Hr36. unfold holds in Hr36.
  assert (length (rsdp_bytes checksum oem revision rsdt len xsdt tail) = 36%nat) as E36 by (unfold rsdp_bytes; rewrite !length_app, !length_to_le; cbn; lia). rewrite E36 in Hr36. rewrite Hr36.
  destruct (rsdp_fields checksum oem revision rsdt len xsdt tail Hoem Hwr Hwl Hwx) as (F1 & F2 & F3 & F4).
  rewrite F1, F2, F3, F4. change (take 8 (rsdp_bytes checksum oem revision rsdt len xsdt tail)) with RSD_PTR. rewrite bool_decide_true, Hc20 by done. cbn [negb]. fold xs.
  assert ((if xs then if negb (checksum_ok m rsdp_pa len) then Err (Failed BadChecksum) else Ok (xsdt, 8) else if rsdt =? 0 then Err (Failed NoRootTable) else Ok (rsdt, 4)) = Ok (root, Z.of_nat w) :> outcome fault (Z * Z)) as ->.
  { destruct (t_fits _ _ _ _ Hroot) as [Hpos _]. unfold root, w in *. destruct xs; [by rewrite Hcx|]. by rewrite (proj2 (Z.eqb_neq rsdt 0)) by lia. }
  cbn [mbind outcome_bind]. destruct (table_header _ _ _ _ Hroot) as (_ & Hrl & Hrb). change (Z.to_nat SDT_HEADER_LEN) with 36%nat. rewrite Hrl. destruct Hroot as [_ _ Hrlen [Hrpos Hrfits] Hrc].
  assert (length (concat (to_le w <$> (before ++ madt_pa :: after))) = (w * length (before ++ madt_pa :: after))%nat) as El. { generalize (before ++ madt_pa :: after). intros l. induction l as [|x l IH]; [cbn; lia|]. cbn [fmap list_fmap concat length]. rewrite length_app, length_to_le. cbn in IH. rewrite IH. lia. }
  rewrite El in *. rewrite Hrc. unfold find_madt, SDT_HEADER_LEN. rewrite (proj2 (Z.ltb_ge _ _)) by lia. cbn [orb negb]. assert (w = 8 \/ w = 4)%nat as Hw by (unfold w; destruct xs; auto).
  replace (36 + Z.of_nat (w * length (before ++ madt_pa :: after)) - 36) with (Z.of_nat (length (before ++ madt_pa :: after)) * Z.of_nat w) by lia. rewrite Z.div_mul by (destruct Hw; lia). rewrite Nat2Z.id.
  rewrite (find_loop_spec w m root _ before madt_pa after (to_le 4 lapic ++ flags ++ encoded es) 0) by (done || lia || (by replace (root + 36 + 0 * Z.of_nat w) with (root + 36) by lia)). cbn [mbind outcome_bind].
  destruct (table_header _ _ _ _ Hmadt) as (_ & _ & Hbody). pose proof (t_fits _ _ _ _ Hmadt) as [Hmpos Hmfits]. rewrite !length_app, length_to_le, Hflags in *. unfold add64. rewrite (proj2 (Z.ltb_lt _ _)) by lia. cbn [mbind outcome_bind].
  apply holds_app in Hbody as [Hlapic Hbody]. unfold holds in Hlapic. rewrite length_to_le in Hlapic, Hbody. rewrite Hlapic, from_le_n by done. apply holds_app in Hbody as [_ Hbody]. rewrite Hflags in Hbody.
  unfold parse_madt, MADT_ENTRIES_START. rewrite (madt_loop_spec _ m madt_pa _ 44 _ es); [by rewrite record_all| |done|lia|lia|lia|pose proof (length_encoded es Hes); lia].
  by replace (madt_pa + 44) with (madt_pa + 36 + Z.of_nat 4 + Z.of_nat 4) by lia.
Qed.

(** The walk ends on any table, and bytes outside it do not matter. *)
Theorem madt_walk_in_table m m' pa len topo : 0 <= len -> pa + len <= 2 ^ 64 -> (forall x, pa + 44 <= x < pa + len -> byte_at m x = byte_at m' x) ->
  exists topo', parse_madt m pa len topo = Ok topo' /\ parse_madt m' pa len topo = Ok topo'.
Proof. intros Hl Hb Hm. unfold parse_madt, MADT_ENTRIES_START. apply madt_loop_bounded; [lia|done|lia|done]. Qed.

(** Every call returns or stops the kernel; no loop runs forever. *)
Lemma find_loop_ends n m root_pa root_len w i : find_loop n m root_pa root_len w i <> Err OutOfFuel.
Proof.
  revert i; induction n as [|n IH]; intros i; [done|]. cbn [find_loop]. destruct (_ <? _); [done|]. unfold add64. destruct (_ <? 2 ^ 64); cbn [mbind outcome_bind]; [|done].
  destruct (_ =? 0); [apply IH|]. destruct (negb _); [apply IH|]. destruct (_ || _); [apply IH|done].
Qed.

Lemma madt_loop_ends fuel m pa len offset topo : 0 <= offset -> (Z.to_nat (len - offset) < fuel)%nat -> madt_loop fuel m pa len offset topo <> Err OutOfFuel.
Proof.
  revert offset topo; induction fuel as [|fuel IH]; intros offset topo Ho Hf; [lia|]. cbn [madt_loop]. destruct (Z.leb_spec (offset + 2) len); [|done]. unfold add64. destruct (_ <? 2 ^ 64); cbn [mbind outcome_bind]; [|done].
  unfold read_bytes. destruct (Z.ltb_spec (pread m (pa + offset) 2 !!! 1%nat) 2); cbn [orb]; [done|]. destruct (_ <? _); [done|]. apply IH; lia.
Qed.

Theorem parse_ends m rsdp_pa : parse m rsdp_pa <> Err OutOfFuel.
Proof.
  unfold parse. destruct (negb _); [done|]. destruct (negb _); [done|]. destruct (if _ && _ then _ else _) as [[root w]|e|] eqn:E; cbn [mbind outcome_bind]; [|intros [= ->]; revert E; repeat case_match; congruence|done].
  destruct (_ || _); [done|]. unfold find_madt. destruct (_ <? _); [done|]. destruct (find_loop _ _ _ _ _ _) as [[[pa len]|]|[e|]|] eqn:Ef; cbn [mbind outcome_bind]; try done; [|by apply find_loop_ends in Ef].
  unfold add64. destruct (_ <? _); cbn [mbind outcome_bind]; [|done]. apply madt_loop_ends; [done|]. unfold MADT_ENTRIES_START. lia.
Qed.

End memory.

(** ** The image of the parser's tests *)

#[export, program] Instance mem_phys : PhysMem mem := {|
  byte_at := fun m a => read_byte m a mod 256;
  pread := fun m a n => (fun x => read_byte m x mod 256) <$> seqZ a (Z.of_nat n);
|}.
Next Obligation. done. Qed.
Next Obligation. intros m pa. apply Z.mod_pos_bound. lia. Qed.

(** [fix_checksum]: the byte that makes the sum 0. *)
Definition sum_byte (bs : list Z) : Z := (- foldl Z.add 0 bs) mod 256.
Definition fixed_table (sig body : list Z) : list Z :=
  let len := to_le 4 (36 + Z.of_nat (length body)) in
  sig ++ len ++ ([0; sum_byte (sig ++ len ++ body)] ++ replicate 26 0) ++ body.

Definition RSDP_PA : Z := 4096.
Definition XSDT_PA : Z := 8192.
Definition MADT_PA : Z := 12288.
Definition TESTOE : list Z := [84; 69; 83; 84; 79; 69].
Definition XSDT : list Z := [88; 83; 68; 84].
Definition test_entries : list entry := [LocalApic 1 1 1; IoApicEntry 0 4273995776 0; Override 0 0 2 0].
Definition test_rsdp : list Z :=
  let c := sum_byte (rsdp_bytes 0 TESTOE 2 0 0 0 []) in
  rsdp_bytes c TESTOE 2 0 36 XSDT_PA (sum_byte (rsdp_bytes c TESTOE 2 0 36 XSDT_PA []) :: [0; 0; 0]).
Definition test_image : mem :=
  write_bytes (write_bytes (write_bytes ∅ RSDP_PA test_rsdp) XSDT_PA (fixed_table XSDT (to_le 8 MADT_PA)))
    MADT_PA (fixed_table APIC (to_le 4 4276092928 ++ [0; 0; 0; 0] ++ encoded test_entries)).

Definition test_topology : AcpiTopology := mkTopology 4276092928 [mkCpu 1 1] [mkIoApic 0 4273995776 0] [mkIso 0 0 2 0].

Lemma acpi_roundtrip_witness : parse test_image RSDP_PA = Ok test_topology /\ selftest_ok test_topology = true.
Proof.
  split; [|reflexivity].
  assert (table test_image XSDT_PA XSDT (concat (to_le 8 <$> ([] ++ [MADT_PA])))) as Hx.
  { split; [exists (drop 8 (take 36 (fixed_table XSDT (to_le 8 MADT_PA)))); by vm_compute|done|by vm_compute|by vm_compute|by vm_compute]. }
  assert (table test_image MADT_PA APIC (to_le 4 4276092928 ++ [0; 0; 0; 0] ++ encoded test_entries)) as Hm.
  { split; [exists (drop 8 (take 36 (fixed_table APIC (to_le 4 4276092928 ++ [0; 0; 0; 0] ++ encoded test_entries)))); by vm_compute|done|by vm_compute|by vm_compute|by vm_compute]. }
  exact (acpi_roundtrip test_image RSDP_PA (sum_byte (rsdp_bytes 0 TESTOE 2 0 0 0 [])) TESTOE 2 0 36 XSDT_PA (drop 32 test_rsdp) XSDT [] MADT_PA [] 4276092928 [0; 0; 0; 0] test_entries
    ltac:(by vm_compute) eq_refl ltac:(by vm_compute) ltac:(by vm_compute) ltac:(by vm_compute) ltac:(by vm_compute) ltac:(by vm_compute) ltac:(intros _; by vm_compute) Hx ltac:(repeat constructor; by vm_compute) ltac:(constructor) Hm
    ltac:(by vm_compute) eq_refl ltac:(repeat constructor; by vm_compute)).
Defined.

(** A MADT of 36 bytes passes the checks; the local APIC address is then read
    from beyond the table. *)
Definition short_image (beyond : Z) : mem := write_bytes test_image MADT_PA (fixed_table APIC [] ++ to_le 4 beyond).

Theorem short_madt_overread : forall beyond, beyond = 1 \/ beyond = 2 -> parse (short_image beyond) RSDP_PA = Ok (mkTopology beyond [] [] []).
Proof. by intros beyond [-> | ->]; vm_compute. Qed.

End AcpiProps.
