(* ===== verification/Framebuffer.v ===== *)
(** The framebuffer: [kernel/src/framebuffer.rs].  The glyphs come from the
    [font8x8] crate: [font] is its table, eight bytes per character, the lowest
    bit leftmost. *)

From Stdlib Require Import ZArith Lia.
From stdpp Require Import base numbers list.
From S2P Require Import Prelude.

Local Open Scope Z_scope.

Module Framebuffer.

(** ** Model *)

Definition GLYPH_W : Z := 8.
Definition GLYPH_H : Z := 8.

Record Color := rgb { r : Z; g : Z; b : Z }.
#[export] Instance Color_eq : EqDecision Color.
Proof. solve_decision. Defined.

Record Framebuffer := mkFb {
  buffer : list Z;
  width : Z;
  height : Z;
  stride : Z;
  bytes_per_pixel : Z;
}.

#[export] Instance Framebuffer_fields : Fields Framebuffer := fun fb => mkFb (buffer fb) (width fb) (height fb) (stride fb) (bytes_per_pixel fb).

(** [buffer[i] = v]. *)
Definition store (i v : Z) (buf : list Z) : may_panic (list Z) :=
  if (0 <=? i) && (i <? Z.of_nat (length buf)) then Ok (<[Z.to_nat i := v]> buf) else Panic.

(** The three stores of a pixel at a byte offset, when the whole pixel fits. *)
Definition store_pixel (fb : Framebuffer) (offset : Z) (c : Color) : may_panic Framebuffer :=
  if offset + bytes_per_pixel fb <=? Z.of_nat (length (buffer fb)) then
    b1 ← store offset (b c) (buffer fb);
    b2 ← store (offset + 1) (g c) b1;
    b3 ← store (offset + 2) (r c) b2;
    Ok (fb <| buffer := b3 |>)
  else Ok fb.

Definition draw_pixel (x y : Z) (c : Color) (fb : Framebuffer) : may_panic Framebuffer :=
  if (width fb <=? x) || (height fb <=? y) then Ok fb else store_pixel fb ((y * stride fb + x) * bytes_per_pixel fb) c.

Definition clear (c : Color) (fb : Framebuffer) : may_panic Framebuffer :=
  for_each (fun y => for_each (fun x => draw_pixel x y c) (seqZ 0 (width fb))) (seqZ 0 (height fb)) fb.

Definition scroll_up (line_height : Z) (fb : Framebuffer) : Framebuffer :=
  let row_bytes := stride fb * bytes_per_pixel fb in
  let total := height fb * row_bytes in
  let skip := line_height * row_bytes in
  if total <=? skip then fb else fb <| buffer := drop (Z.to_nat skip) (buffer fb) ++ replicate (Z.to_nat skip) 0 |>.

Definition dimensions (fb : Framebuffer) : Z * Z := (width fb, height fb).

(** The loops of [blit_scaled] over one source pixel. *)
Definition blit_pixel (off_x off_y scale sx sy p : Z) (fb : Framebuffer) : may_panic Framebuffer :=
  let c := rgb (Z.land (Z.shiftr p 16) 255) (Z.land (Z.shiftr p 8) 255) (Z.land p 255) in
  for_each (fun oy => for_each (fun ox fb =>
      store_pixel fb ((off_y + sy * scale + oy) * stride fb * bytes_per_pixel fb + (off_x + sx * scale + ox) * bytes_per_pixel fb) c)
    (seqZ 0 scale)) (seqZ 0 scale) fb.

Definition blit_scaled (src : list Z) (src_w src_h : Z) (fb : Framebuffer) : may_panic Framebuffer :=
  if (src_w =? 0) || (src_h =? 0) || (Z.of_nat (length src) <? src_w * src_h) then Ok fb else
  let scale := Z.max 1 (Z.min (width fb / src_w) (height fb / src_h)) in
  let off_x := Z.max 0 (width fb - src_w * scale) / 2 in
  let off_y := Z.max 0 (height fb - src_h * scale) / 2 in
  for_each (fun sy => for_each (fun sx => blit_pixel off_x off_y scale sx sy (src !!! Z.to_nat (sy * src_w + sx))) (seqZ 0 src_w)) (seqZ 0 src_h) fb.

Section glyphs.
Variable font : Z -> list Z.

Definition draw_char (x y ascii : Z) (fg bg : Color) (scale : Z) (fb : Framebuffer) : may_panic Framebuffer :=
  if 128 <=? ascii then Panic else
  for_each (fun row =>
    let bits := font ascii !!! Z.to_nat row in
    for_each (fun col =>
      let color := if negb (Z.land (Z.shiftr bits col) 1 =? 0) then fg else bg in
      for_each (fun sy => for_each (fun sx => draw_pixel (x + col * scale + sx) (y + row * scale + sy) color) (seqZ 0 scale)) (seqZ 0 scale))
      (seqZ 0 8))
    (seqZ 0 8) fb.

Definition draw_text (x y : Z) (text : list Z) (fg bg : Color) (scale : Z) (fb : Framebuffer) : may_panic Framebuffer :=
  for_each (fun '(i, byte) => draw_char (x + Z.of_nat i * (8 * scale)) y byte fg bg scale) (imap (fun i byte => (i, byte)) text) fb.

End glyphs.

(** ** Pixels *)

(** A screen of 24 or 32 bits per pixel. *)
Record fb_ok (fb : Framebuffer) : Prop := {
  ok_width : 0 <= width fb <= stride fb;
  ok_height : 0 <= height fb;
  ok_bpp : 3 <= bytes_per_pixel fb;
  ok_len : Z.of_nat (length (buffer fb)) = height fb * (stride fb * bytes_per_pixel fb);
}.

Definition pixel (fb : Framebuffer) (x y : Z) : Color :=
  let o := Z.to_nat ((y * stride fb + x) * bytes_per_pixel fb) in
  rgb (buffer fb !!! (o + 2)%nat) (buffer fb !!! (o + 1)%nat) (buffer fb !!! o).

Definition on_screen (fb : Framebuffer) (x y : Z) : Prop := 0 <= x < width fb /\ 0 <= y < height fb.

(** Same geometry. *)
Definition same_shape (fb fb' : Framebuffer) : Prop :=
  width fb' = width fb /\ height fb' = height fb /\ stride fb' = stride fb /\ bytes_per_pixel fb' = bytes_per_pixel fb /\ length (buffer fb') = length (buffer fb).

Lemma same_shape_ok fb fb' : same_shape fb fb' -> fb_ok fb -> fb_ok fb'.
Proof. intros (E1 & E2 & E3 & E4 & E5) [H1 H2 H3 H4]. by split; rewrite ?E1, ?E2, ?E3, ?E4, ?E5. Qed.

Lemma same_shape_trans fb1 fb2 fb3 : same_shape fb1 fb2 -> same_shape fb2 fb3 -> same_shape fb1 fb3.
Proof. unfold same_shape. intuition congruence. Qed.

Lemma pixel_store_ok i v buf : 0 <= i < Z.of_nat (length buf) -> store i v buf = Ok (<[Z.to_nat i := v]> buf).
Proof. intros Hi. unfold store. by rewrite (proj2 (Z.leb_le _ _)), (proj2 (Z.ltb_lt _ _)) by lia. Qed.

(** Storing a pixel changes that pixel and no other. *)
Lemma store_pixel_spec fb x y c : fb_ok fb -> 0 <= x < stride fb -> 0 <= y < height fb ->
  exists fb', store_pixel fb ((y * stride fb + x) * bytes_per_pixel fb) c = Ok fb' /\ same_shape fb fb' /\
    forall x' y', 0 <= x' < stride fb -> 0 <= y' < height fb -> pixel fb' x' y' = if decide (x' = x /\ y' = y) then c else pixel fb x' y'.
Proof.
  intros [Hw Hh Hb Hl] Hx Hy. set (k := bytes_per_pixel fb) in *. set (st := stride fb) in *. set (i := y * st + x).
  assert (0 <= i /\ i + 1 <= height fb * st) as [Hi0 Hi1] by (unfold i; nia). assert (i * k + k <= height fb * (st * k)) as Hfit by nia.
  unfold store_pixel. fold k. rewrite (proj2 (Z.leb_le _ _)) by lia. rewrite (pixel_store_ok (i * k)) by nia. cbn [mbind outcome_bind]. rewrite (pixel_store_ok (i * k + 1)) by (rewrite length_insert; nia). cbn [mbind outcome_bind].
  rewrite (pixel_store_ok (i * k + 2)) by (rewrite !length_insert; nia). cbn [mbind outcome_bind].
  eexists. split; [done|]. split; [unfold same_shape; cbn; rewrite !length_insert; done|]. intros x' y' Hx' Hy'. unfold pixel. cbn [buffer stride bytes_per_pixel update_field]. fold k. fold st. set (j := y' * st + x').
  assert (0 <= j) as Hj by (unfold j; nia). assert (x' = x /\ y' = y <-> j = i) as Hij. { unfold i, j. split; [by intros [-> ->]|]. intros E. assert (y' = y) as -> by nia. split; [lia|done]. }
  assert (0 <= i * k) as Hik by nia. assert (j + 1 <= height fb * st) as Hj1 by (unfold j; nia). assert (j * k + k <= height fb * (st * k)) as Hfj by nia.
  destruct (decide (x' = x /\ y' = y)) as [E|E].
  - apply Hij in E. subst j. rewrite E. replace (Z.to_nat (i * k) + 2)%nat with (Z.to_nat (i * k + 2)) by lia. replace (Z.to_nat (i * k) + 1)%nat with (Z.to_nat (i * k + 1)) by lia.
    rewrite list_lookup_total_insert_eq by (rewrite !length_insert; lia). rewrite list_lookup_total_insert_ne, list_lookup_total_insert_eq by (rewrite ?length_insert; lia). rewrite !list_lookup_total_insert_ne, list_lookup_total_insert_eq by lia. by destruct c.
  - assert (j <> i) as Hne by tauto. assert (j * k + 3 <= i * k \/ i * k + 3 <= j * k) as Hap by (destruct (Z.lt_ge_cases j i); nia). rewrite !list_lookup_total_insert_ne by lia. done.
Qed.

Lemma draw_pixel_spec fb x y c : fb_ok fb -> 0 <= x -> 0 <= y ->
  exists fb', draw_pixel x y c fb = Ok fb' /\ same_shape fb fb' /\ forall x' y', on_screen fb x' y' -> pixel fb' x' y' = if decide (x' = x /\ y' = y) then c else pixel fb x' y'.
Proof.
  intros Hok Hx Hy. unfold draw_pixel. destruct (Z.leb_spec (width fb) x); [|destruct (Z.leb_spec (height fb) y)]; cbn [orb].
  1,2: exists fb; split; [done|]; split; [done|]; intros x' y' [? ?]; rewrite decide_False; [done|lia].
  pose proof (ok_width _ Hok). destruct (store_pixel_spec fb x y c Hok) as (fb' & E & Hs & Hp); [lia|lia|]. exists fb'. split_and!; [done|done|]. intros x' y' [? ?]. apply Hp; lia.
Qed.

End Framebuffer.
