(* ===== verification/FbConsole.v ===== *)
(** The text console: [kernel/src/drivers/framebuffer_console.rs], with its
    cursor, its colours and its ANSI escape sequences.

    [Display] is what the console uses of a screen: drawing one character
    cell, clearing, and scrolling by one line.  The framebuffer is one
    instance; a grid of cells is the other, the screen a user sees. *)

From Stdlib Require Import ZArith Lia.
From stdpp Require Import base numbers list.
From S2P Require Import Prelude Framebuffer.

Local Open Scope Z_scope.

Module FbConsole.
Import Framebuffer.

(** ** Layout and colours *)

Definition MARGIN_X : Z := 4.
Definition MARGIN_Y : Z := 4.
Definition SCALE : Z := 1.
Definition LINE_GAP : Z := 1.
Definition CHAR_W : Z := GLYPH_W * SCALE.
Definition CHAR_H : Z := GLYPH_H * SCALE + LINE_GAP.

Definition DEFAULT_FG : Color := rgb 220 220 220.
Definition DEFAULT_BG : Color := rgb 0 0 0.

Definition ANSI_COLORS : list Color :=
  [rgb 0 0 0; rgb 170 0 0; rgb 0 170 0; rgb 170 85 0; rgb 0 0 170; rgb 170 0 170; rgb 0 170 170; rgb 170 170 170].
Definition ANSI_BRIGHT : list Color :=
  [rgb 85 85 85; rgb 255 85 85; rgb 85 255 85; rgb 255 255 85; rgb 85 85 255; rgb 255 85 255; rgb 85 255 255; rgb 255 255 255].

#[export] Instance Color_inhabited : Inhabited Color := populate (rgb 0 0 0).

Definition ansi_color (idx : Z) (bright : bool) : Color :=
  let i := Z.to_nat (Z.land idx 7) in if bright then ANSI_BRIGHT !!! i else ANSI_COLORS !!! i.

(** [u8] arithmetic that saturates. *)
Definition sat8 (z : Z) : Z := Z.min z 255.

Definition color256 (n : Z) : Color :=
  if n <=? 7 then ANSI_COLORS !!! Z.to_nat n
  else if n <=? 15 then ANSI_BRIGHT !!! Z.to_nat (n - 8)
  else if n <=? 231 then
    let idx := n - 16 in
    let scale v := if v =? 0 then 0 else sat8 (55 + sat8 (v * 40)) in
    rgb (scale (idx / 36)) (scale ((idx / 6) mod 6)) (scale (idx mod 6))
  else let v := sat8 (8 + sat8 ((n - 232) * 10)) in rgb v v v.

(** ** State *)

Inductive AnsiState :=
| Normal
| Escape
| Csi (buf : list Z) (len : Z).

Record FbState := mkState {
  col : Z;
  row : Z;
  fg : Color;
  bg : Color;
  ansi : AnsiState;
}.

#[export] Instance FbState_fields : Fields FbState := fun s => mkState (col s) (row s) (fg s) (bg s) (ansi s).

Definition initial : FbState := mkState 0 0 DEFAULT_FG DEFAULT_BG Normal.

(** What is drawn on. *)
Class Display (D : Type) := {
  d_dimensions : D -> Z * Z;
  d_char : Z -> Z -> Z -> Color -> Color -> D -> may_panic D;
  d_clear : Color -> D -> may_panic D;
  d_scroll : D -> D;
}.

(** The console with its global state: the screen if there is one, the cursor
    and colours, whether it was cleared at start, whether a raw-pixel client
    has drawn on it, and the mirror on the serial line. *)
Record Console (D : Type) := mkConsole {
  screen : option D;
  state : FbState;
  cleared : bool;
  raw_dirty : bool;
  at_line_start : bool;
  serial : list Z;
}.
Global Arguments mkConsole {D} _ _ _ _ _ _.
Global Arguments screen {D} _.
Global Arguments state {D} _.
Global Arguments cleared {D} _.
Global Arguments raw_dirty {D} _.
Global Arguments at_line_start {D} _.
Global Arguments serial {D} _.

Definition mark_raw_dirty {D} (c : Console D) : Console D := mkConsole (screen c) (state c) (cleared c) true (at_line_start c) (serial c).

(** ["[fb] "]. *)
Definition FB_TAG : list Z := [91; 102; 98; 93; 32].

(** The bytes sent for [buf], and whether a line starts after it. *)
Fixpoint mirror_to_serial (start : bool) (buf : list Z) : list Z * bool :=
  match buf with
  | [] => ([], start)
  | byte :: buf' =>
      let '(out, start') := mirror_to_serial (byte =? 10) buf' in
      ((if start then FB_TAG else []) ++ byte :: out, start')
  end.

(** ** Parameters of escape sequences *)

(** The loop of [parse_params]; digits saturate at [u32::MAX]. *)
Fixpoint params_loop (buf params : list Z) (count : nat) (cur : Z) : list Z * nat * Z :=
  match buf with
  | [] => (params, count, cur)
  | c :: buf' =>
      if c =? 59 then
        if (count <? 16)%nat then params_loop buf' (<[count := cur]> params) (S count) 0 else params_loop buf' params count 0
      else if (48 <=? c) && (c <=? 57) then params_loop buf' params count (Z.min (Z.min (cur * 10) (2 ^ 32 - 1) + (c - 48)) (2 ^ 32 - 1))
      else params_loop buf' params count cur
  end.

Definition parse_params (buf : list Z) : list Z * nat :=
  match buf with
  | [] => (replicate 16 0, 1%nat)
  | _ =>
      let '(params, count, cur) := params_loop buf (replicate 16 0) 0 0 in
      if (count <? 16)%nat then (<[count := cur]> params, S count) else (params, count)
  end.

Definition between (a x b : Z) : bool := (a <=? x) && (x <=? b).

(** [38;5;n] and [38;2;r;g;b] at [i]: the colour and how many parameters it
    takes. *)
Definition extended_color (params : list Z) (i : nat) : option (Color * nat) :=
  if (i + 2 <? length params)%nat && (params !!! (i + 1)%nat =? 5) then Some (color256 (params !!! (i + 2)%nat mod 256), 2%nat)
  else if (i + 4 <? length params)%nat && (params !!! (i + 1)%nat =? 2) then
    Some (rgb (params !!! (i + 2)%nat mod 256) (params !!! (i + 3)%nat mod 256) (params !!! (i + 4)%nat mod 256), 4%nat)
  else None.

(** The loop of [apply_sgr] from parameter [i] on. *)
Fixpoint sgr_loop (fuel : nat) (params : list Z) (i : nat) (s : FbState) : FbState :=
  match fuel with
  | O => s
  | S fuel' =>
      if (length params <=? i)%nat then s else
      let p := params !!! i in
      let '(s1, taken) :=
        if p =? 0 then (s <| fg := DEFAULT_FG |> <| bg := DEFAULT_BG |>, 0%nat)
        else if between 1 p 29 then (s, 0%nat)
        else if between 30 p 37 then (s <| fg := ansi_color (p - 30) false |>, 0%nat)
        else if p =? 38 then match extended_color params i with Some (c, n) => (s <| fg := c |>, n) | None => (s, 0%nat) end
        else if p =? 39 then (s <| fg := DEFAULT_FG |>, 0%nat)
        else if between 40 p 47 then (s <| bg := ansi_color (p - 40) false |>, 0%nat)
        else if p =? 48 then match extended_color params i with Some (c, n) => (s <| bg := c |>, n) | None => (s, 0%nat) end
        else if p =? 49 then (s <| bg := DEFAULT_BG |>, 0%nat)
        else if between 90 p 97 then (s <| fg := ansi_color (p - 90) true |>, 0%nat)
        else if between 100 p 107 then (s <| bg := ansi_color (p - 100) true |>, 0%nat)
        else (s, 0%nat) in
      sgr_loop fuel' params (i + taken + 1) s1
  end.

Definition apply_sgr (params : list Z) (s : FbState) : FbState := sgr_loop (length params) params 0 s.

(** ** Output *)

(** [rows - 1] on [usize]. *)
Definition pred_usize (x : Z) : may_panic Z := if x <=? 0 then Panic else Ok (x - 1).
Definition or_one (p : Z) : Z := if p =? 0 then 1 else p.
Definition range (a b : Z) : list Z := seqZ a (b - a).

Section console.
Context {D : Type} `{Display D}.
Implicit Types (s : FbState) (d : D).

Definition grid_size d : Z * Z :=
  let '(w, h) := d_dimensions d in (Z.max 0 (w - MARGIN_X) / CHAR_W, Z.max 0 (h - MARGIN_Y) / CHAR_H).

Definition clear_row_from s (r start_col end_col : Z) d : may_panic D :=
  for_each (fun c => d_char r c 32 DEFAULT_FG (bg s)) (range start_col end_col) d.

Definition dispatch_csi (final_byte : Z) (param_buf : list Z) s d (cols rows : Z) : may_panic (FbState * D) :=
  let '(params, nparams) := parse_params param_buf in
  let p0 := params !!! 0%nat in
  if final_byte =? 109 then Ok (apply_sgr (take nparams params) s, d)
  else if (final_byte =? 72) || (final_byte =? 102) then
    let c := if (nparams <? 2)%nat || (params !!! 1%nat =? 0) then 1 else params !!! 1%nat in
    r1 ← pred_usize rows;
    c1 ← pred_usize cols;
    Ok (s <| row := Z.min (or_one p0 - 1) r1 |> <| col := Z.min (c - 1) c1 |>, d)
  else if final_byte =? 65 then Ok (s <| row := Z.max 0 (row s - or_one p0) |>, d)
  else if final_byte =? 66 then r1 ← pred_usize rows; Ok (s <| row := Z.min (row s + or_one p0) r1 |>, d)
  else if final_byte =? 67 then c1 ← pred_usize cols; Ok (s <| col := Z.min (col s + or_one p0) c1 |>, d)
  else if final_byte =? 68 then Ok (s <| col := Z.max 0 (col s - or_one p0) |>, d)
  else if final_byte =? 74 then
    if p0 =? 0 then
      d ← clear_row_from s (row s) (col s) cols d;
      d ← for_each (fun r => clear_row_from s r 0 cols) (range (row s + 1) rows) d;
      Ok (s, d)
    else if p0 =? 1 then
      d ← for_each (fun r => clear_row_from s r 0 cols) (range 0 (row s)) d;
      d ← clear_row_from s (row s) 0 (col s + 1) d;
      Ok (s, d)
    else if (p0 =? 2) || (p0 =? 3) then d ← d_clear (bg s) d; Ok (s <| col := 0 |> <| row := 0 |>, d)
    else Ok (s, d)
  else if final_byte =? 75 then
    if p0 =? 0 then d ← clear_row_from s (row s) (col s) cols d; Ok (s, d)
    else if p0 =? 1 then d ← clear_row_from s (row s) 0 (col s + 1) d; Ok (s, d)
    else if p0 =? 2 then d ← clear_row_from s (row s) 0 cols d; Ok (s, d)
    else Ok (s, d)
  else Ok (s, d).

(** The next line, scrolling at the bottom. *)
Definition next_line s d (rows : Z) : may_panic (FbState * D) :=
  let s := s <| col := 0 |> <| row := row s + 1 |> in
  if rows <=? row s then r1 ← pred_usize rows; Ok (s <| row := r1 |>, d_scroll d) else Ok (s, d).

(** One byte of [write]. *)
Definition put_byte (cols rows byte : Z) (sd : FbState * D) : may_panic (FbState * D) :=
  let '(s0, d) := sd in
  let s := s0 <| ansi := Normal |> in
  match ansi s0 with
  | Normal =>
      if byte =? 27 then Ok (s <| ansi := Escape |>, d)
      else if byte =? 10 then next_line s d rows
      else if byte =? 13 then Ok (s <| col := 0 |>, d)
      else if (byte =? 8) || (byte =? 127) then
        if 0 <? col s then
          let s := s <| col := col s - 1 |> in
          d ← d_char (row s) (col s) 32 (fg s) (bg s) d;
          Ok (s, d)
        else Ok (s, d)
      else if (32 <=? byte) && (byte <? 127) then
        d ← d_char (row s) (col s) byte (fg s) (bg s) d;
        let s := s <| col := col s + 1 |> in
        if cols <=? col s then next_line s d rows else Ok (s, d)
      else Ok (s, d)
  | Escape => Ok (if byte =? 91 then s <| ansi := Csi (replicate 32 0) 0 |> else s, d)
  | Csi buf len =>
      if (64 <=? byte) && (byte <=? 126) then dispatch_csi byte (take (Z.to_nat len) buf) s d cols rows
      else if (32 <=? byte) && (byte <=? 63) then
        Ok (s <| ansi := if len <? 32 then Csi (<[Z.to_nat len := byte]> buf) (len + 1) else Csi buf len |>, d)
      else Ok (s, d)
  end.

Definition write (buf : list Z) (c : Console D) : may_panic (Console D * Z) :=
  let '(out, start) := mirror_to_serial (at_line_start c) buf in
  let c := mkConsole (screen c) (state c) (cleared c) (raw_dirty c) start (serial c ++ out) in
  match screen c with
  | None => Ok (c, Z.of_nat (length buf))
  | Some d =>
      sd ← (if raw_dirty c then d ← d_clear DEFAULT_BG d; Ok (initial, d) else Ok (state c, d));
      let '(cols, rows) := grid_size sd.2 in
      sd ← for_each (put_byte cols rows) buf sd;
      Ok (mkConsole (Some sd.2) sd.1 (cleared c) false start (serial c), Z.of_nat (length buf))
  end.

(** [FramebufferConsole::new]. *)
Definition open (c : Console D) : may_panic (Console D) :=
  if cleared c then Ok c else
  match screen c with
  | Some d => d ← d_clear DEFAULT_BG d; Ok (mkConsole (Some d) (state c) true (raw_dirty c) (at_line_start c) (serial c))
  | None => Ok (mkConsole None (state c) true (raw_dirty c) (at_line_start c) (serial c))
  end.

Definition text_dimensions (c : Console D) : Z * Z :=
  match screen c with
  | None => (80, 25)
  | Some d => let '(cols, rows) := grid_size d in (Z.max cols 1, Z.max rows 1)
  end.

End console.

(** ** The framebuffer as a display *)

Section framebuffer.
Variable font : Z -> list Z.

#[local] Instance fb_display : Display Framebuffer := {|
  d_dimensions := dimensions;
  d_char := fun r c ch => fun f k => draw_char font (MARGIN_X + c * CHAR_W) (MARGIN_Y + r * CHAR_H) ch f k SCALE;
  d_clear := clear;
  d_scroll := scroll_up CHAR_H;
|}.

End framebuffer.
End FbConsole.
