(* ===== verification/FbProps.v ===== *)
(** What the text console shows: the pixels of the framebuffer are those of a
    grid of character cells that a user could draw by hand, whatever bytes are
    written, and the cursor never leaves the grid. *)

From Stdlib Require Import ZArith Lia.
From stdpp Require Import base numbers list.
From S2P Require Import Prelude Framebuffer FbConsole.

Local Open Scope Z_scope.

Module FbProps.
Import Framebuffer FbConsole.

(** ** Painting *)

(** [f] gives each pixel of the screen the colour [P] says, if any, and leaves
    the others. *)
Definition paints (f : Framebuffer -> may_panic Framebuffer) (P : Z -> Z -> option Color) : Prop :=
  forall fb, fb_ok fb -> exists fb', f fb = Ok fb' /\ same_shape fb fb' /\ forall x y, on_screen fb x y -> pixel fb' x y = default (pixel fb x y) (P x y).

Lemma paints_pixel x y c : 0 <= x -> 0 <= y -> paints (draw_pixel x y c) (fun x' y' => if decide (x' = x /\ y' = y) then Some c else None).
Proof.
  intros Hx Hy fb Hok. destruct (draw_pixel_spec fb x y c Hok Hx Hy) as (fb' & E & Hs & Hp). exists fb'. split_and!; [done|done|]. intros x' y' Ho. rewrite Hp by done. by case_decide.
Qed.

Lemma paints_for {I} (f : I -> Framebuffer -> may_panic Framebuffer) P l : (forall i, i ∈ l -> paints (f i) (P i)) -> paints (for_each f l) (fun x y => last (omap (fun i => P i x y) l)).
Proof.
  induction l as [|i l IH]; intros Hf fb Hok; cbn [for_each]; [by exists fb|].
  destruct (Hf i ltac:(by left) fb Hok) as (fb1 & E1 & Hs1 & Hp1). rewrite E1. cbn [mbind outcome_bind]. destruct (IH ltac:(intros j Hj; apply Hf; by right) fb1 (same_shape_ok _ _ Hs1 Hok)) as (fb2 & E2 & Hs2 & Hp2).
  exists fb2. split; [done|]. split; [by apply (same_shape_trans _ fb1)|]. intros x y Ho. pose proof Hs1 as (W & H & _). rewrite Hp2, Hp1 by (unfold on_screen in *; by rewrite ?W, ?H). cbn [omap list_omap].
  destruct (P i x y) as [c|]; cbn [default]; [|done]. rewrite last_cons. by destruct (last _).
Qed.

Lemma paints_ext f P Q : (forall x y, 0 <= x -> 0 <= y -> P x y = Q x y) -> paints f P -> paints f Q.
Proof.
  intros He Hf fb Hok. destruct (Hf fb Hok) as (fb' & E & Hs & Hp). exists fb'. split_and!; [done|done|]. intros x y Ho. rewrite Hp, He by (done || apply Ho). done.
Qed.

Lemma omap_none {I} (f : I -> option Color) l : (forall j, j ∈ l -> f j = None) -> omap f l = [].
Proof. induction l as [|j l IH]; intros Hf; [done|]. cbn [omap list_omap]. rewrite Hf by by left. apply IH. intros k Hk. apply Hf. by right. Qed.

Lemma last_omap_none {I} (f : I -> option Color) l : (forall j, j ∈ l -> f j = None) -> last (omap f l) = None.
Proof. intros Hf. by rewrite omap_none. Qed.

(** The only element of a list that paints a pixel. *)
Lemma last_omap_one {I} (f : I -> option Color) l i c : NoDup l -> i ∈ l -> f i = Some c -> (forall j, j ∈ l -> j <> i -> f j = None) -> last (omap f l) = Some c.
Proof.
  induction l as [|j l IH]; intros Hnd Hi Hc Ho; [by apply elem_of_nil in Hi|]. apply NoDup_cons in Hnd as [Hj Hnd]. apply elem_of_cons in Hi as [->|Hi].
  - cbn [omap list_omap]. rewrite Hc. change (last (c :: omap f l) = Some c). rewrite omap_none; [done|]. intros k Hk. apply Ho; [by right|]. intros ->. done.
  - assert (j <> i) by (intros ->; done). cbn [omap list_omap]. rewrite (Ho j) by (done || by left). apply IH; try done. intros k Hk. apply Ho. by right.
Qed.

(** ** One character *)

Section font.
Variable font : Z -> list Z.

Definition lit (ch i j : Z) : bool := negb (Z.land (Z.shiftr (font ch !!! Z.to_nat i) j) 1 =? 0).

Lemma paints_char x y ch f k : 0 <= x -> 0 <= y -> ch < 128 ->
  paints (draw_char font x y ch f k 1) (fun x' y' => if decide (x <= x' < x + 8 /\ y <= y' < y + 8) then Some (if lit ch (y' - y) (x' - x) then f else k) else None).
Proof.
  intros Hx Hy Hch fb. unfold draw_char. rewrite (proj2 (Z.leb_gt _ _)) by lia. revert fb. change (seqZ 0 1) with [0].
  assert (forall i j, 0 <= i < 8 -> 0 <= j < 8 -> paints (for_each (fun sy => for_each (fun sx => draw_pixel (x + j * 1 + sx) (y + i * 1 + sy) (if lit ch i j then f else k)) [0]) [0])
    (fun x' y' => if decide (x' = x + j /\ y' = y + i) then Some (if lit ch i j then f else k) else None)) as Hpix.
  { intros i j Hi Hj fb Hok. cbn [for_each]. rewrite !Z.add_0_r, !Z.mul_1_r. destruct (paints_pixel (x + j) (y + i) (if lit ch i j then f else k) ltac:(lia) ltac:(lia) fb Hok) as (fb' & E & H). rewrite E. cbn [mbind outcome_bind]. by exists fb'. }
  eapply paints_ext; [|apply (paints_for _ (fun i x' y' => if decide (x <= x' < x + 8 /\ y' = y + i) then Some (if lit ch i (x' - x) then f else k) else None))].
  - intros x' y' Hx' Hy'. cbn beta. destruct (decide (x <= x' < x + 8 /\ y <= y' < y + 8)) as [Hin|Hout].
    + apply (last_omap_one _ _ (y' - y)); [apply NoDup_seqZ|apply elem_of_seqZ; lia|by rewrite decide_True by lia|]. intros j Hj Hne. rewrite decide_False; [done|]. lia.
    + apply last_omap_none. intros j Hj%elem_of_seqZ. rewrite decide_False; [done|]. lia.
  - intros i Hi%elem_of_seqZ. eapply paints_ext; [|apply (paints_for _ (fun j x' y' => if decide (x' = x + j /\ y' = y + i) then Some (if lit ch i j then f else k) else None))].
    + intros x' y' Hx' Hy'. cbn beta. destruct (decide (x <= x' < x + 8 /\ y' = y + i)) as [Hin|Hout].
      * apply (last_omap_one _ _ (x' - x)); [apply NoDup_seqZ|apply elem_of_seqZ; lia|by rewrite decide_True by lia|]. intros j Hj Hne. rewrite decide_False; [done|]. lia.
      * apply last_omap_none. intros j Hj%elem_of_seqZ. rewrite decide_False; [done|]. lia.
    + intros j Hj%elem_of_seqZ. apply Hpix; lia.
Qed.

End font.

(** ** Clearing and scrolling *)

Lemma clear_spec c fb : fb_ok fb -> exists fb', clear c fb = Ok fb' /\ same_shape fb fb' /\ forall x y, on_screen fb x y -> pixel fb' x y = c.
Proof.
  intros Hok. assert (paints (for_each (fun y => for_each (fun x => draw_pixel x y c) (seqZ 0 (width fb))) (seqZ 0 (height fb)))
    (fun x' y' => last (omap (fun y => last (omap (fun x => if decide (x' = x /\ y' = y) then Some c else None) (seqZ 0 (width fb)))) (seqZ 0 (height fb))))) as Hp.
  { apply (paints_for _ (fun y x' y' => last (omap (fun x => if decide (x' = x /\ y' = y) then Some c else None) (seqZ 0 (width fb))))). intros y Hy%elem_of_seqZ.
    apply (paints_for _ (fun x x' y' => if decide (x' = x /\ y' = y) then Some c else None)). intros x Hx%elem_of_seqZ. apply paints_pixel; lia. }
  destruct (Hp fb Hok) as (fb' & E & Hs & Hpix). exists fb'. split_and!; [done|done|]. intros x y [Hx Hy]. rewrite Hpix by done.
  rewrite (last_omap_one _ (seqZ 0 (height fb)) y c); [done|apply NoDup_seqZ|apply elem_of_seqZ; lia| |].
  - apply (last_omap_one _ _ x); [apply NoDup_seqZ|apply elem_of_seqZ; lia|by rewrite decide_True|]. intros j _ Hne. rewrite decide_False; [done|]. lia.
  - intros j _ Hne. apply last_omap_none. intros i _. rewrite decide_False; [done|]. lia.
Qed.

Lemma scroll_up_spec n fb : fb_ok fb -> 0 <= n < height fb -> 0 < width fb ->
  same_shape fb (scroll_up n fb) /\ forall x y, on_screen fb x y -> pixel (scroll_up n fb) x y = if y + n <? height fb then pixel fb x (y + n) else rgb 0 0 0.
Proof.
  intros [Hw Hh Hb Hl] Hn Hw0. unfold scroll_up. set (rb := stride fb * bytes_per_pixel fb) in *. assert (0 < rb) as Hrb by (unfold rb; nia). rewrite (proj2 (Z.leb_gt _ _)) by nia.
  assert (Z.to_nat (n * rb) <= length (buffer fb))%nat as Hskip by nia. split.
  - unfold same_shape. cbn. rewrite length_app, length_drop, length_replicate. split_and!; try done. lia.
  - intros x y [Hx Hy]. unfold pixel. cbn [buffer stride bytes_per_pixel update_field]. set (k := bytes_per_pixel fb) in *. set (st := stride fb) in *.
    set (o := Z.to_nat ((y * st + x) * k)). assert (0 <= (y * st + x) * k) as Ho by nia. destruct (Z.ltb_spec (y + n) (height fb)) as [Hlt|Hge].
    + assert (Z.to_nat (((y + n) * st + x) * k) = (Z.to_nat (n * rb) + o)%nat) as -> by (unfold o, rb; nia). assert (o + 2 < length (drop (Z.to_nat (n * rb)) (buffer fb)))%nat as Hin.
      { rewrite length_drop. assert ((y * st + x) * k + 3 + n * rb <= height fb * rb); [|unfold o; lia]. unfold rb. nia. }
      rewrite !lookup_total_app_l by lia. rewrite !lookup_total_drop. f_equal; f_equal; lia.
    + assert (length (drop (Z.to_nat (n * rb)) (buffer fb)) <= o)%nat as Hout. { rewrite length_drop. unfold o, rb in *. nia. }
      assert (o + 2 < length (buffer fb))%nat as Htot. { assert ((y * st + x) * k + 3 <= height fb * rb); [|unfold o; lia]. unfold rb. nia. }
      rewrite length_drop in Hout. rewrite !lookup_total_app_r by (rewrite length_drop; lia). rewrite !lookup_total_replicate_2 by (rewrite length_drop; lia). done.
Qed.

(** ** The grid of cells *)

(** A character, or a cell of a line that scrolled in from below the last one,
    where the strip under the grid had some colour. *)
Inductive cell :=
| Glyph (ch : Z) (f k : Color)
| Torn (strip : Color).

(** What a user sees: the size in pixels, the cells and the strip below. *)
Record Grid := mkGrid { g_width : Z; g_height : Z; cells : Z -> Z -> cell; strip : Color }.

Definition columns (w : Z) : Z := Z.max 0 (w - MARGIN_X) / CHAR_W.
Definition lines (h : Z) : Z := Z.max 0 (h - MARGIN_Y) / CHAR_H.

Definition put_cell (r c : Z) (x : cell) (g : Grid) : Grid :=
  mkGrid (g_width g) (g_height g) (fun r' c' => if decide (r' = r /\ c' = c) then x else cells g r' c') (strip g).

#[export] Instance grid_display : Display Grid := {|
  d_dimensions := fun g => (g_width g, g_height g);
  d_char := fun r c ch f k g => Ok (put_cell r c (Glyph ch f k) g);
  d_clear := fun c g => Ok (mkGrid (g_width g) (g_height g) (fun _ _ => Glyph 32 c c) c);
  d_scroll := fun g => mkGrid (g_width g) (g_height g) (fun r c => if r + 1 <? lines (g_height g) then cells g (r + 1) c else Torn (strip g)) DEFAULT_BG;
|}.

Section simulation.
Variable font : Z -> list Z.
Abbreviation fb_screen := (fb_display font).

(** Line [i] and column [j] of a cell, on a screen with [n] lines of strip. *)
Definition cell_pixel (n : Z) (x : cell) (i j : Z) : Color :=
  match x with
  | Glyph ch f k => if lit font ch i j then f else k
  | Torn c => if i <? n then c else rgb 0 0 0
  end.

Record shows (fb : Framebuffer) (g : Grid) : Prop := {
  s_ok : fb_ok fb;
  s_size : width fb = g_width g /\ height fb = g_height g;
  s_room : 1 <= columns (g_width g) /\ 1 <= lines (g_height g);
  s_cells : forall r c i j, 0 <= r < lines (g_height g) -> 0 <= c < columns (g_width g) -> 0 <= i < 8 -> 0 <= j < 8 ->
    pixel fb (4 + c * 8 + j) (4 + r * 9 + i) = cell_pixel (g_height g - (4 + lines (g_height g) * 9)) (cells g r c) i j;
  s_strip : forall x y, 4 <= x < 4 + columns (g_width g) * 8 -> 4 + lines (g_height g) * 9 <= y < g_height g -> pixel fb x y = strip g;
}.

(** The grid lies on the screen. *)
Lemma grid_bounds w : 1 <= columns w -> 4 + columns w * 8 <= w /\ w < 4 + columns w * 8 + 8.
Proof. unfold columns, MARGIN_X, CHAR_W, GLYPH_W, SCALE. change (8 * 1) with 8. intros H. pose proof (Z.div_mod (Z.max 0 (w - 4)) 8 ltac:(lia)). pose proof (Z.mod_pos_bound (Z.max 0 (w - 4)) 8 ltac:(lia)). lia. Qed.

Lemma line_bounds h : 1 <= lines h -> 4 + lines h * 9 <= h /\ h < 4 + lines h * 9 + 9.
Proof. unfold lines, MARGIN_Y, CHAR_H, GLYPH_H, SCALE, LINE_GAP. change (8 * 1 + 1) with 9. intros H. pose proof (Z.div_mod (Z.max 0 (h - 4)) 9 ltac:(lia)). pose proof (Z.mod_pos_bound (Z.max 0 (h - 4)) 9 ltac:(lia)). lia. Qed.

Lemma char_shows fb g r c ch f k : shows fb g -> 0 <= r < lines (g_height g) -> 0 <= c < columns (g_width g) -> ch < 128 ->
  exists fb', d_char (Display := fb_screen) r c ch f k fb = Ok fb' /\ shows fb' (put_cell r c (Glyph ch f k) g).
Proof.
  intros [Hok [Ew Eh] [Hr1 Hr2] Hcells Hstrip] Hr Hc Hch. cbn [d_char fb_display]. unfold MARGIN_X, MARGIN_Y, CHAR_W, CHAR_H, GLYPH_W, GLYPH_H, SCALE, LINE_GAP. change (8 * 1) with 8. change (8 + 1) with 9.
  destruct (grid_bounds _ Hr1) as [Hgw _]. destruct (line_bounds _ Hr2) as [Hgh _]. destruct (paints_char font (4 + c * 8) (4 + r * 9) ch f k ltac:(lia) ltac:(lia) Hch fb Hok) as (fb' & E & Hs & Hp).
  exists fb'. split; [exact E|]. pose proof Hs as (W & H & _). split; cbn [put_cell g_width g_height cells strip]; [by apply (same_shape_ok fb)|by rewrite W, H|done| |].
  - intros r' c' i j Hr' Hc' Hi Hj. rewrite Hp by (unfold on_screen; rewrite Ew, Eh; nia). destruct (decide (r' = r /\ c' = c)) as [[-> ->]|Hne].
    + rewrite decide_True by lia. cbn [default cell_pixel]. by replace (4 + r * 9 + i - (4 + r * 9)) with i by lia; replace (4 + c * 8 + j - (4 + c * 8)) with j by lia.
    + rewrite decide_False by lia. by apply Hcells.
  - intros x y Hx Hy. rewrite Hp by (unfold on_screen; rewrite Ew, Eh; nia). rewrite decide_False by nia. by apply Hstrip.
Qed.

Lemma clear_shows fb g c : shows fb g -> exists fb' g', d_clear (Display := fb_screen) c fb = Ok fb' /\ d_clear c g = Ok g' /\ g_width g' = g_width g /\ g_height g' = g_height g /\ shows fb' g'.
Proof.
  intros [Hok [Ew Eh] [Hr1 Hr2] _ _]. destruct (clear_spec c fb Hok) as (fb' & E & Hs & Hp). destruct (grid_bounds _ Hr1) as [Hgw _]. destruct (line_bounds _ Hr2) as [Hgh _]. pose proof Hs as (W & H & _).
  eexists fb', _. split; [exact E|]. split; [reflexivity|]. split; [done|]. split; [done|]. split; cbn [g_width g_height cells strip]; [by apply (same_shape_ok fb)|by rewrite W, H|done| |].
  - intros r k i j Hr Hk Hi Hj. rewrite Hp by (unfold on_screen; rewrite Ew, Eh; nia). cbn [cell_pixel]. by destruct (lit _ _ _ _).
  - intros x y Hx Hy. apply Hp. unfold on_screen. rewrite Ew, Eh. nia.
Qed.

Lemma scroll_shows fb g : shows fb g -> shows (d_scroll (Display := fb_screen) fb) (d_scroll g).
Proof.
  intros [Hok [Ew Eh] [Hr1 Hr2] Hcells Hstrip]. destruct (grid_bounds _ Hr1) as [Hgw _]. destruct (line_bounds _ Hr2) as [Hgh Hgh']. cbn [d_scroll fb_display grid_display]. unfold CHAR_H, GLYPH_H, SCALE, LINE_GAP. change (8 * 1 + 1) with 9.
  destruct (scroll_up_spec 9 fb Hok) as [Hs Hp]; [lia|lia|]. pose proof Hs as (W & H & _). set (fb' := scroll_up 9 fb) in *. set (n := lines (g_height g)) in *. set (k := columns (g_width g)) in *.
  split; cbn [g_width g_height cells strip]; fold n; fold k; [by apply (same_shape_ok fb)|by rewrite W, H|done| |].
  - intros r c i j Hr Hc Hi Hj. rewrite Hp by (unfold on_screen; rewrite Ew, Eh; nia). replace (4 + r * 9 + i + 9) with (4 + (r + 1) * 9 + i) by lia. rewrite Eh. destruct (Z.ltb_spec (r + 1) n) as [Hlt|Hge].
    + rewrite (proj2 (Z.ltb_lt _ _)) by nia. apply Hcells; lia.
    + assert (r + 1 = n) as -> by lia. cbn [cell_pixel]. destruct (Z.ltb_spec (4 + n * 9 + i) (g_height g)), (Z.ltb_spec i (g_height g - (4 + n * 9))); try lia; [|done]. apply Hstrip; nia.
  - intros x y Hx Hy. rewrite Hp by (unfold on_screen; rewrite Ew, Eh; nia). by rewrite (proj2 (Z.ltb_ge _ _)) by lia.
Qed.

(** ** The console code *)

(** The cursor is in the grid and parameters fit their buffer. *)
Record state_ok (cols rows : Z) (s : FbState) : Prop := {
  c_col : 0 <= col s < cols;
  c_row : 0 <= row s < rows;
  c_csi : forall buf len, ansi s = Csi buf len -> 0 <= len <= 32 /\ length buf = 32%nat;
}.

(** The same run on pixels and on cells. *)
Definition agree (w h : Z) (x : may_panic (FbState * Framebuffer)) (y : may_panic (FbState * Grid)) : Prop :=
  exists s fb g, x = Ok (s, fb) /\ y = Ok (s, g) /\ shows fb g /\ g_width g = w /\ g_height g = h /\ state_ok (columns w) (lines h) s.

(** Drawing alone. *)
Definition drawn (w h : Z) (x : may_panic Framebuffer) (y : may_panic Grid) : Prop :=
  exists fb g, x = Ok fb /\ y = Ok g /\ shows fb g /\ g_width g = w /\ g_height g = h.

Lemma drawn_char fb g r c ch f k : shows fb g -> 0 <= r < lines (g_height g) -> 0 <= c < columns (g_width g) -> ch < 128 ->
  drawn (g_width g) (g_height g) (d_char (Display := fb_screen) r c ch f k fb) (d_char r c ch f k g).
Proof. intros Hs Hr Hc Hch. destruct (char_shows fb g r c ch f k Hs Hr Hc Hch) as (fb' & E & Hs'). by exists fb', (put_cell r c (Glyph ch f k) g). Qed.

Lemma drawn_for {I} (f : I -> Framebuffer -> may_panic Framebuffer) (f' : I -> Grid -> may_panic Grid) l w h fb g :
  (forall i fb g, i ∈ l -> shows fb g -> g_width g = w -> g_height g = h -> drawn w h (f i fb) (f' i g)) -> shows fb g -> g_width g = w -> g_height g = h -> drawn w h (for_each f l fb) (for_each f' l g).
Proof.
  revert fb g; induction l as [|i l IH]; intros fb g Hf Hs Ew Eh; cbn [for_each]; [by exists fb, g|].
  destruct (Hf i fb g ltac:(by left) Hs Ew Eh) as (fb1 & g1 & -> & -> & Hs1 & Ew1 & Eh1). cbn [mbind outcome_bind]. apply IH; try done. intros j fb2 g2 Hj. apply Hf. by right.
Qed.

Lemma drawn_row s r a b fb g : shows fb g -> 0 <= r < lines (g_height g) -> 0 <= a -> b <= columns (g_width g) ->
  drawn (g_width g) (g_height g) (clear_row_from (H := fb_screen) s r a b fb) (clear_row_from s r a b g).
Proof.
  intros Hs Hr Ha Hb. unfold clear_row_from, range. apply drawn_for; try done. intros c fb' g' Hc%elem_of_seqZ Hs' Ew Eh. rewrite <- Ew, <- Eh. apply drawn_char; [done|by rewrite Eh|rewrite Ew; lia|done].
Qed.

Lemma drawn_rows s a b fb g : shows fb g -> 0 <= a -> b <= lines (g_height g) ->
  drawn (g_width g) (g_height g) (for_each (fun r => clear_row_from (H := fb_screen) s r 0 (columns (g_width g))) (range a b) fb) (for_each (fun r => clear_row_from s r 0 (columns (g_width g))) (range a b) g).
Proof.
  intros Hs Ha Hb. apply drawn_for; try done. intros r fb' g' Hr%elem_of_seqZ Hs' Ew Eh. rewrite <- Ew, <- Eh. apply drawn_row; [done|rewrite Eh; lia|done|done].
Qed.

Lemma agree_of s fb g w h x : drawn w h fb g -> state_ok (columns w) (lines h) s -> x = s -> agree w h (d ← fb; Ok (s, d)) (d ← g; Ok (x, d)).
Proof. intros (fb' & g' & -> & -> & Hs & Ew & Eh) Hok ->. by exists s, fb', g'. Qed.

Lemma agree_same s fb g : shows fb g -> state_ok (columns (g_width g)) (lines (g_height g)) s -> agree (g_width g) (g_height g) (Ok (s, fb)) (Ok (s, g)).
Proof. intros. by exists s, fb, g. Qed.

(** Moving and recolouring. *)
Lemma state_move cols rows s c r : state_ok cols rows s -> 0 <= c < cols -> 0 <= r < rows -> state_ok cols rows (s <| row := r |> <| col := c |>).
Proof. intros [_ _ Hcsi] Hc Hr. by split. Qed.

Lemma sgr_cursor fuel params i s : let s' := sgr_loop fuel params i s in col s' = col s /\ row s' = row s /\ ansi s' = ansi s.
Proof.
  revert i s; induction fuel as [|fuel IH]; intros i s; [done|]. cbn [sgr_loop]. destruct (_ <=? _)%nat; [done|].
  repeat match goal with |- context [if ?b then _ else _] => destruct b end; try (destruct (extended_color params i) as [[? ?]|]); cbv zeta in IH; cbv zeta; rewrite ?(proj1 (IH _ _)), ?(proj1 (proj2 (IH _ _))), ?(proj2 (proj2 (IH _ _))); done.
Qed.

(** Parameters are 16 numbers. *)
Lemma params_loop_ok buf params count cur : Forall (fun p => 0 <= p) params -> length params = 16%nat -> (count <= 16)%nat -> 0 <= cur ->
  let '(params', count', cur') := params_loop buf params count cur in Forall (fun p => 0 <= p) params' /\ length params' = 16%nat /\ (count' <= 16)%nat /\ 0 <= cur'.
Proof.
  revert params count cur; induction buf as [|c buf IH]; intros params count cur Hp Hl Hc Hcur; cbn [params_loop]; [done|].
  destruct (c =? 59); [destruct (Nat.ltb_spec count 16); apply IH; try done; [by apply Forall_insert|by rewrite length_insert]|]. destruct (Z.leb_spec 48 c); cbn [andb]; [|by apply IH]. destruct (c <=? 57); [|by apply IH]. apply IH; try done. lia.
Qed.

Lemma parse_params_ok buf : let '(params, n) := parse_params buf in Forall (fun p => 0 <= p) params /\ length params = 16%nat.
Proof.
  unfold parse_params. destruct buf as [|c buf]; [split; [by apply Forall_replicate|done]|].
  pose proof (params_loop_ok (c :: buf) (replicate 16 0) 0 0 ltac:(by apply Forall_replicate) eq_refl ltac:(lia) ltac:(lia)) as H. destruct (params_loop _ _ _ _) as [[params count] cur]. destruct H as (Hp & Hl & Hc & Hcur).
  destruct (count <? 16)%nat; [split; [by apply Forall_insert|by rewrite length_insert]|done].
Qed.

Lemma pred_usize_ok x : 1 <= x -> pred_usize x = Ok (x - 1).
Proof. intros. unfold pred_usize. by rewrite (proj2 (Z.leb_gt _ _)) by lia. Qed.

Lemma dispatch_agree byte buf s fb g : shows fb g -> state_ok (columns (g_width g)) (lines (g_height g)) s ->
  agree (g_width g) (g_height g) (dispatch_csi (H := fb_screen) byte buf s fb (columns (g_width g)) (lines (g_height g))) (dispatch_csi byte buf s g (columns (g_width g)) (lines (g_height g))).
Proof.
  intros Hs Hok. pose proof Hs as [_ _ [Hr1 Hr2] _ _]. pose proof Hok as [Hcol Hrow Hcsi]. unfold dispatch_csi. pose proof (parse_params_ok buf) as Hp. destruct (parse_params buf) as [params n]. destruct Hp as [Hp Hl].
  assert (forall i, (i < 16)%nat -> 0 <= params !!! i) as Hpos. { intros i Hi. destruct (lookup_lt_is_Some_2 params i) as [p E]; [lia|]. rewrite (list_lookup_total_correct _ _ _ E). by apply (Forall_lookup_1 _ _ _ _ Hp E). }
  pose proof (Hpos 0%nat ltac:(lia)) as H0. pose proof (Hpos 1%nat ltac:(lia)) as H1. set (p0 := params !!! 0%nat) in *. set (p1 := params !!! 1%nat) in *. assert (1 <= or_one p0) as Hone by (unfold or_one; destruct (Z.eqb_spec p0 0); lia).
  rewrite !pred_usize_ok by lia. cbn [mbind outcome_bind].
  destruct (byte =? 109). { destruct (sgr_cursor (length (take n params)) (take n params) 0 s) as (E1 & E2 & E3). apply agree_same; [done|]. unfold apply_sgr. split; [by rewrite E1|by rewrite E2|by rewrite E3]. }
  destruct (_ || _). { apply agree_same; [done|]. apply state_move; [done| |lia]. destruct (_ || _) eqn:E1; [lia|]. apply orb_false_iff in E1 as [_ E1%Z.eqb_neq]. lia. }
  destruct (byte =? 65); [apply agree_same; [done|]; split; cbn; [done|lia|done]|]. destruct (byte =? 66); [apply agree_same; [done|]; split; cbn; [done|lia|done]|].
  destruct (byte =? 67); [apply agree_same; [done|]; split; cbn; [lia|done|done]|]. destruct (byte =? 68); [apply agree_same; [done|]; split; cbn; [lia|done|done]|].
  destruct (byte =? 74).
  - destruct (p0 =? 0); [|destruct (p0 =? 1); [|destruct (_ || _); [|by apply agree_same]]].
    + destruct (drawn_row s (row s) (col s) (columns (g_width g)) fb g) as (fb1 & g1 & -> & -> & Hs1 & Ew & Eh); [done|lia|lia|lia|]. cbn [mbind outcome_bind]. rewrite <- Ew, <- Eh in *. apply agree_of; [|done|done]. apply drawn_rows; [done|lia|lia].
    + destruct (drawn_rows s 0 (row s) fb g) as (fb1 & g1 & -> & -> & Hs1 & Ew & Eh); [done|lia|lia|]. cbn [mbind outcome_bind]. rewrite <- Ew, <- Eh in *. apply agree_of; [|done|done]. apply drawn_row; [done|lia|lia|lia].
    + destruct (clear_shows fb g (bg s) Hs) as (fb1 & g1 & -> & -> & Ew & Eh & Hs1). cbn [mbind outcome_bind]. rewrite <- Ew, <- Eh in *. apply agree_same; [done|]. split; cbn; [lia|lia|done].
  - destruct (byte =? 75); [|by apply agree_same]. destruct (p0 =? 0); [|destruct (p0 =? 1); [|destruct (p0 =? 2); [|by apply agree_same]]]; (apply agree_of; [apply drawn_row; [done|lia|lia|lia]|done|done]).
Qed.

Lemma next_line_agree s fb g : shows fb g -> 0 <= row s < lines (g_height g) -> ansi s = Normal ->
  agree (g_width g) (g_height g) (next_line (H := fb_screen) s fb (lines (g_height g))) (next_line s g (lines (g_height g))).
Proof.
  intros Hs Hrow Ha. pose proof Hs as [_ _ [Hr1 Hr2] _ _]. unfold next_line. cbn [row update_field]. destruct (Z.leb_spec (lines (g_height g)) (row s + 1)).
  - rewrite pred_usize_ok by lia. cbn [mbind outcome_bind]. exists (s <| col := 0 |> <| row := row s + 1 |> <| row := lines (g_height g) - 1 |>), (d_scroll (Display := fb_screen) fb), (d_scroll g).
    split_and!; [done|done|by apply scroll_shows|done|done|]. split; cbn; [lia|lia|congruence].
  - apply agree_same; [done|]. split; cbn; [lia|lia|congruence].
Qed.

Lemma put_byte_agree byte s fb g : shows fb g -> state_ok (columns (g_width g)) (lines (g_height g)) s ->
  agree (g_width g) (g_height g) (put_byte (H := fb_screen) (columns (g_width g)) (lines (g_height g)) byte (s, fb)) (put_byte (columns (g_width g)) (lines (g_height g)) byte (s, g)).
Proof.
  intros Hs Hok. pose proof Hs as [_ _ [Hr1 Hr2] _ _]. pose proof Hok as [Hcol Hrow Hcsi]. set (cols := columns (g_width g)) in *. set (rows := lines (g_height g)) in *.
  assert (state_ok cols rows (s <| ansi := Normal |>)) as Hnorm by (split; cbn; done). unfold put_byte. set (s1 := s <| ansi := Normal |>) in *. destruct (ansi s) as [| |buf len] eqn:Ha.
  - destruct (byte =? 27); [apply agree_same; [done|]; by split|]. destruct (byte =? 10); [by apply next_line_agree|]. destruct (byte =? 13); [apply agree_same; [done|]; split; cbn; [lia|done|done]|].
    destruct (_ || _).
    { destruct (Z.ltb_spec 0 (col s1)) as [Hlt|]; [|by apply agree_same]. apply agree_of; [apply drawn_char; [done|done| |done]|split; cbn; [|done|done]|done]; change (0 <= col s - 1 < cols); change (0 < col s) in Hlt; lia. }
    destruct (Z.leb_spec 32 byte); cbn [andb]; [|by apply agree_same]. destruct (Z.ltb_spec byte 127); [|by apply agree_same].
    destruct (drawn_char fb g (row s1) (col s1) byte (fg s1) (bg s1)) as (fb1 & g1 & -> & -> & Hs1 & Ew & Eh); [done|done|done|lia|]. cbn [mbind outcome_bind]. unfold cols, rows in *. rewrite <- Ew, <- Eh in *.
    destruct (Z.leb_spec (columns (g_width g1)) (col (s1 <| col := col s1 + 1 |>))) as [Hle|Hlt]; [by apply next_line_agree|]. apply agree_same; [done|]. change (col s + 1 < columns (g_width g1)) in Hlt. split; [|done|done]. change (0 <= col s + 1 < columns (g_width g1)). lia.
  - apply agree_same; [done|]. destruct (byte =? 91); [|done]. split; cbn; [done|done|]. intros buf len [= <- <-]. split; [lia|done].
  - destruct (Hcsi buf len eq_refl) as [Hlen Hbuf]. destruct (_ && _); [by apply dispatch_agree|]. destruct (_ && _); [|by apply agree_same]. apply agree_same; [done|]. split; [done|done|]. cbn [ansi update_field s1].
    intros buf' len'. destruct (Z.ltb_spec len 32); intros [= <- <-]; rewrite ?length_insert; split; lia || done.
Qed.

Lemma bytes_agree buf s fb g w h : shows fb g -> g_width g = w -> g_height g = h -> state_ok (columns w) (lines h) s ->
  agree w h (for_each (put_byte (H := fb_screen) (columns w) (lines h)) buf (s, fb)) (for_each (put_byte (columns w) (lines h)) buf (s, g)).
Proof.
  revert s fb g; induction buf as [|byte buf IH]; intros s fb g Hs Ew Eh Hok; cbn [for_each]; [by exists s, fb, g|]. rewrite <- Ew, <- Eh in *.
  destruct (put_byte_agree byte s fb g Hs Hok) as (s1 & fb1 & g1 & -> & -> & Hs1 & Ew1 & Eh1 & Hok1). cbn [mbind outcome_bind]. by apply IH.
Qed.

(** ** The console *)

(** A console on a framebuffer and the console a user sees. *)
Record related (c : Console Framebuffer) (v : Console Grid) : Prop := {
  r_screen : match screen c, screen v with
             | Some fb, Some g => shows fb g /\ state_ok (columns (g_width g)) (lines (g_height g)) (state c)
             | None, None => True
             | _, _ => False
             end;
  r_state : state v = state c;
  r_cleared : cleared v = cleared c;
  r_dirty : raw_dirty v = raw_dirty c;
  r_start : at_line_start v = at_line_start c;
  r_serial : serial v = serial c;
}.

Lemma initial_ok cols rows : 1 <= cols -> 1 <= rows -> state_ok cols rows initial.
Proof. intros. split; cbn; [lia|lia|done]. Qed.

Lemma write_related c v buf : related c v -> exists c' v', write (H := fb_screen) buf c = Ok (c', Z.of_nat (length buf)) /\ write buf v = Ok (v', Z.of_nat (length buf)) /\ related c' v'.
Proof.
  intros [Hscr Est Ecl Edi Eat Ese]. unfold write. rewrite Eat, Ese. destruct (mirror_to_serial (at_line_start c) buf) as [out start]. cbn [screen raw_dirty state cleared serial]. rewrite Est, Ecl, Edi.
  destruct (screen c) as [fb|], (screen v) as [g|]; try done; [|by eexists _, _; split_and!].
  destruct Hscr as [Hs Hok]. assert (exists s1 fb1 g1, (if raw_dirty c then d ← d_clear (Display := fb_screen) DEFAULT_BG fb; Ok (initial, d) else Ok (state c, fb)) = Ok (s1, fb1) :> may_panic (FbState * Framebuffer) /\
    (if raw_dirty c then d ← d_clear DEFAULT_BG g; Ok (initial, d) else Ok (state c, g)) = Ok (s1, g1) :> may_panic (FbState * Grid) /\ shows fb1 g1 /\ state_ok (columns (g_width g1)) (lines (g_height g1)) s1) as (s1 & fb1 & g1 & -> & -> & Hs1 & Hok1).
  { destruct (raw_dirty c); [|by exists (state c), fb, g]. destruct (clear_shows fb g DEFAULT_BG Hs) as (fb1 & g1 & -> & -> & _ & _ & Hs1). cbn [mbind outcome_bind]. exists initial, fb1, g1. split_and!; [done|done|done|]. destruct Hs1 as [_ _ [? ?] _ _]. by apply initial_ok. }
  cbn [mbind outcome_bind fst snd]. pose proof (s_size _ _ Hs1) as [Ew Eh]. unfold grid_size. cbn [d_dimensions fb_display grid_display dimensions]. rewrite Ew, Eh. fold (columns (g_width g1)). fold (lines (g_height g1)).
  destruct (bytes_agree buf s1 fb1 g1 _ _ Hs1 eq_refl eq_refl Hok1) as (s2 & fb2 & g2 & -> & -> & Hs2 & Ew2 & Eh2 & Hok2). cbn [mbind outcome_bind fst snd]. eexists _, _. split; [done|]. split; [done|]. split; cbn; try done. by rewrite Ew2, Eh2.
Qed.

(** C20: Whatever bytes are written, text, control characters, escape sequences
    whole or cut short, the console never stops the kernel, reports every byte
    written, keeps its cursor in the grid, and the pixels remain those of the
    cells a user would have drawn: drawing one character changes one cell, and
    a line that scrolls in shows the strip from below the grid. *)
Theorem console_shows c v bufs : related c v -> exists c' v', for_each (fun buf c => r ← write (H := fb_screen) buf c; Ok r.1) bufs c = Ok c' /\ for_each (fun buf v => r ← write buf v; Ok r.1) bufs v = Ok v' /\ related c' v'.
Proof.
  revert c v; induction bufs as [|buf bufs IH]; intros c v Hr; [by exists c, v|]. cbn [for_each]. destruct (write_related c v buf Hr) as (c1 & v1 & -> & -> & Hr1). cbn [mbind outcome_bind fst]. by apply IH.
Qed.

(** ** Text *)

Definition printable (b : Z) : bool := (32 <=? b) && (b <? 127).

(** Text that fits the line goes to the cells after the cursor. *)
Lemma text_cells cols rows text s (g : Grid) : Forall (fun b => printable b = true) text -> ansi s = Normal -> col s + Z.of_nat (length text) < cols ->
  exists g', for_each (put_byte cols rows) text (s, g) = Ok (s <| col := col s + Z.of_nat (length text) |>, g') /\ g_width g' = g_width g /\ g_height g' = g_height g /\
    forall r c, cells g' r c = if decide (r = row s /\ col s <= c < col s + Z.of_nat (length text)) then Glyph (text !!! Z.to_nat (c - col s)) (fg s) (bg s) else cells g r c.
Proof.
  revert s g; induction text as [|b text IH]; intros s g Hp Ha Hfit; cbn [for_each length].
  { exists g. split_and!; [|done|done|]. - destruct s. cbn. by rewrite Z.add_0_r. - intros r c. rewrite decide_False; [done|]. cbn. lia. }
  apply list.Forall_cons in Hp as [Hb Hp]. unfold printable in Hb. apply andb_prop in Hb as [Hb1%Z.leb_le Hb2%Z.ltb_lt]. cbn [length] in Hfit. unfold put_byte at 2. rewrite Ha.
  rewrite !(proj2 (Z.eqb_neq b _)) by lia. cbn [orb]. rewrite (proj2 (Z.leb_le 32 b)), (proj2 (Z.ltb_lt b 127)) by lia. cbn [andb d_char grid_display mbind outcome_bind]. set (s1 := s <| ansi := Normal |>). assert (s1 = s) as Es by (unfold s1; destruct s; cbn in *; by rewrite Ha). rewrite Es.
  change (col (s <| col := col s + 1 |>)) with (col s + 1). rewrite (proj2 (Z.leb_gt _ _)) by lia. pose (s2 := s <| col := col s + 1 |>). destruct (IH s2 (put_cell (row s) (col s) (Glyph b (fg s) (bg s)) g) Hp Ha) as (g' & E & Ew & Eh & Hc); [cbn; lia|].
  exists g'. split_and!; [|done|done|].
  - cbn [mbind outcome_bind]. fold s2. rewrite E. do 2 f_equal. unfold s2. destruct s. cbn. f_equal. lia.
  - intros r c. rewrite Hc. unfold s2. cbn [row col fg bg update_field put_cell cells]. destruct (decide (r = row s /\ col s + 1 <= c < col s + 1 + Z.of_nat (length text))) as [[-> Hin]|Hout].
    + rewrite decide_True by lia. f_equal. replace (Z.to_nat (c - col s)) with (S (Z.to_nat (c - (col s + 1)))) by lia. done.
    + destruct (decide (r = row s /\ c = col s)) as [[-> ->]|Hne]; [rewrite decide_True by lia; by rewrite Z.sub_diag|by rewrite decide_False by lia].
Qed.

(** Printable text that fits the line appears after the cursor in the
    current colours, pixel for pixel, and the cursor stands after it. *)
Theorem text_appears fb g c text : related c (mkConsole (Some g) (state c) (cleared c) (raw_dirty c) (at_line_start c) (serial c)) -> screen c = Some fb -> raw_dirty c = false -> ansi (state c) = Normal ->
  Forall (fun b => printable b = true) text -> col (state c) + Z.of_nat (length text) < columns (g_width g) ->
  exists c' fb', write (H := fb_screen) text c = Ok (c', Z.of_nat (length text)) /\ screen c' = Some fb' /\ state c' = (state c) <| col := col (state c) + Z.of_nat (length text) |> /\
    forall n b i j, text !! n = Some b -> 0 <= i < 8 -> 0 <= j < 8 ->
      pixel fb' (4 + (col (state c) + Z.of_nat n) * 8 + j) (4 + row (state c) * 9 + i) = if lit font b i j then fg (state c) else bg (state c).
Proof.
  intros Hr Hscr Hd Ha Ht Hfit. set (v := mkConsole (Some g) _ _ _ _ _) in *. destruct (write_related c v text Hr) as (c' & v' & Ec & Ev & Hr'). pose proof (r_screen _ _ Hr) as Hrs. rewrite Hscr in Hrs. cbn [screen v] in Hrs. destruct Hrs as [Hs Hok].
  unfold write in Ev. cbn [at_line_start v] in Ev. destruct (mirror_to_serial (at_line_start c) text) as [out start]. cbn [screen raw_dirty state cleared serial v] in Ev. rewrite Hd in Ev. cbn [mbind outcome_bind fst snd] in Ev.
  unfold grid_size in Ev. cbn [d_dimensions grid_display] in Ev. fold (columns (g_width g)) in Ev. fold (lines (g_height g)) in Ev. destruct (text_cells (columns (g_width g)) (lines (g_height g)) text (state c) g Ht Ha Hfit) as (g' & E & Ew & Eh & Hc).
  rewrite E in Ev. cbn [mbind outcome_bind fst snd] in Ev. injection Ev as Ev. subst v'. destruct Hr' as [Hrs' Est' _ _ _ _]. cbn [screen state] in Hrs', Est'. destruct (screen c') as [fb'|] eqn:Hscr'; [|done]. destruct Hrs' as [Hs' _].
  exists c', fb'. split_and!; [done|done|by rewrite <- Est'|]. intros n b i j Hn Hi Hj. pose proof (lookup_lt_Some _ _ _ Hn) as Hlt. destruct Hok as [Hcol Hrow _].
  rewrite (s_cells _ _ Hs' (row (state c)) (col (state c) + Z.of_nat n) i j) by (rewrite ?Ew, ?Eh; lia). rewrite Hc, decide_True by lia. cbn [cell_pixel]. replace (Z.to_nat (col (state c) + Z.of_nat n - col (state c))) with n by lia. by rewrite (list_lookup_total_correct _ _ _ Hn).
Qed.

End simulation.
End FbProps.
