(* ===== verification/FbDemo.v ===== *)
(** A console on a small screen: witnesses of the properties of [FbProps], and
    runs in which it shows something else or stops the kernel. *)

From Stdlib Require Import ZArith Lia.
From stdpp Require Import base numbers list.
From S2P Require Import Prelude Framebuffer FbConsole FbProps.

Local Open Scope Z_scope.

Module FbDemo.
Import Framebuffer FbConsole FbProps.

(** A font with one letter, [A]. *)
Definition font (ch : Z) : list Z := if ch =? 65 then [12; 30; 51; 51; 63; 51; 51; 0] else replicate 8 0.

(** A dark screen of five columns and three lines, with three lines of pixels
    below the grid. *)
Definition dark (w h : Z) : Framebuffer := mkFb (replicate (Z.to_nat (h * (w * 4))) 0) w h w 4.
Definition blank (w h : Z) : Grid := mkGrid w h (fun _ _ => Glyph 32 (rgb 0 0 0) (rgb 0 0 0)) (rgb 0 0 0).

Lemma dark_pixel w h x y : 0 <= x < w -> 0 <= y < h -> pixel (dark w h) x y = rgb 0 0 0.
Proof.
  intros Hx Hy. unfold pixel, dark. cbn [buffer stride bytes_per_pixel]. assert ((y * w + x) * 4 + 4 <= h * (w * 4)) by nia. assert (0 <= (y * w + x) * 4) by nia. rewrite !lookup_total_replicate_2 by lia. done.
Qed.

Lemma dark_shows w h : 1 <= columns w -> 1 <= lines h -> shows font (dark w h) (blank w h).
Proof.
  intros Hc Hl. destruct (grid_bounds w Hc), (line_bounds h Hl). split; cbn [g_width g_height blank cells strip].
  - split; cbn; [lia|lia|lia|]. rewrite length_replicate. nia.
  - done.
  - done.
  - intros r c i j Hr Hc' Hi Hj. rewrite dark_pixel by nia. cbn [cell_pixel]. by destruct (lit _ _ _ _).
  - intros x y Hx Hy. apply dark_pixel; lia.
Qed.

Definition started {D} (d : D) : Console D := mkConsole (Some d) initial true false true [].

Lemma started_related : related font (started (dark 44 34)) (started (blank 44 34)).
Proof. split; try done. cbn [screen started]. split; [apply dark_shows; by vm_compute|apply initial_ok; by vm_compute]. Qed.

(** [A], then the cursor to line 2, column 5, and two more; [A] wraps. *)
Definition script : list (list Z) := [[65; 27; 91]; [50; 59; 53; 72; 65; 65]].

Lemma console_shows_witness : exists c' v', for_each (fun buf c => r ← write (H := fb_display font) buf c; Ok r.1) script (started (dark 44 34)) = Ok c' /\ for_each (fun buf v => r ← write buf v; Ok r.1) script (started (blank 44 34)) = Ok v' /\
  related font c' v' /\ (row (state c'), col (state c')) = (2, 1).
Proof.
  destruct (console_shows font (started (dark 44 34)) (started (blank 44 34)) script started_related) as (c' & v' & Ec & Ev & Hr). exists c', v'. split; [exact Ec|]. split; [exact Ev|]. split; [exact Hr|].
  assert (match for_each (fun buf v => r ← write buf v; Ok r.1) script (started (blank 44 34)) with Ok v => (row (state v), col (state v)) = (2, 1) | _ => False end) as E by (by vm_compute).
  rewrite Ev in E. rewrite <- (r_state _ _ _ Hr). exact E.
Defined.

Lemma text_appears_witness : exists c' fb', write (H := fb_display font) [65; 65] (started (dark 44 34)) = Ok (c', 2) /\ screen c' = Some fb' /\ pixel fb' (4 + 8 + 2) 4 = DEFAULT_FG.
Proof.
  destruct (text_appears font (dark 44 34) (blank 44 34) (started (dark 44 34)) [65; 65]) as (c' & fb' & E & Hs & _ & Hp).
  - exact started_related.
  - reflexivity.
  - reflexivity.
  - reflexivity.
  - by repeat constructor.
  - by vm_compute.
  - exists c', fb'. split; [exact E|]. split; [exact Hs|]. exact (Hp 1%nat 65 0 2 eq_refl ltac:(lia) ltac:(lia)).
Defined.

(** ** What it shows instead *)

(** On a red screen, the line that scrolls in is red above and black below:
    the strip under the grid moves into it. *)
Definition red_then_scroll : list Z := [27; 91; 52; 49; 109; 27; 91; 50; 74; 10; 10; 10].

Theorem torn_line : match write red_then_scroll (started (blank 44 34)) with
  | Ok (v, _) => bg (state v) = rgb 170 0 0 /\ (fun g => cells g 2 0) <$> screen v = Some (Torn (rgb 170 0 0))
  | _ => False
  end.
Proof. by vm_compute. Qed.

Lemma torn_pixels f : cell_pixel f 3 (Torn (rgb 170 0 0)) 2 0 = rgb 170 0 0 /\ cell_pixel f 3 (Torn (rgb 170 0 0)) 3 0 = rgb 0 0 0.
Proof. done. Qed.

(** A screen lower than one line stops the kernel at the first new line, and
    one narrower than a column at a cursor movement. *)
Theorem low_screen_panics : write (H := fb_display font) [10] (started (dark 44 12)) = Panic.
Proof. by vm_compute. Qed.

Theorem narrow_screen_panics : write (H := fb_display font) [27; 91; 72] (started (dark 11 34)) = Panic.
Proof. by vm_compute. Qed.

(** With less than three bytes per pixel, clearing the screen stops the
    kernel. *)
Theorem gray_screen_panics : clear DEFAULT_BG (mkFb (replicate 64 0) 8 8 8 1) = Panic.
Proof. by vm_compute. Qed.

(** An image wider than the screen goes on in the next line of pixels. *)
Theorem wide_image_wraps : match blit_scaled [1; 2; 3] 3 1 (dark 2 2) with Ok fb => pixel fb 0 1 = rgb 0 0 3 | _ => False end.
Proof. by vm_compute. Qed.

End FbDemo.
